(* ===== verification/_CoqProject ===== *)
-Q . S2P
Prelude.v
GoStd.v
GoFmt.v
Sha256.v
Redaction.v
Resp.v
Fsm.v
SentinelParse.v
Observer.v
TripleCheck.v
SQAggregate.v
SentinelWire.v
Surgery.v
SurgerySpec.v
Status.v
PvcResize.v
DeriveState.v
LagChecker.v
DataPlane.v
PrimaryRollout.v
RoleLabels.v
AuthRotation.v
OrphanMaster.v
ObserverManager.v
SubscribeLoop.v
QuorumGate.v
Recovery.v
ApiTypes.v
Defaults.v
Version.v
ValkeyConf.v
Webhook.v
ScaleGuard.v
ReadinessGate.v
SentinelInfra.v
Reconcile.v
SQRecords.v
StatusUpdate.v
StartupReset.v
Watch.v
PerCR.v
GoFloat.v
DynAuth.v
CABundle.v
PodAC.v
StsBuild.v
SentinelBuild.v
Services.v
SentinelPhase.v
Startup.v
Reports.v
Telemetry.v
