(* ===== verification/Prelude.v ===== *)
(** * Velkir: a verification library for the Valkey operator

    Velkir is a Kubernetes operator for Valkey.  For each custom resource (CR) it
    runs a data plane (one primary and its replicas) and, in sentinel mode, an
    ensemble of sentinels that elect the primary.  A goroutine per CR observes the
    sentinels; a reconcile loop reads that observation and the cluster, moves the
    rollout forward, labels the pods so that the write Service follows the primary,
    repairs sentinels that lost their peers, promotes a replica when no master is left,
    demotes masters that should not be, rotates the password, scales and rolls the
    pods, resizes volumes and reports status.  Admission webhooks default and validate
    the CR, and a renderer turns it into configuration files.
    This library models the decision-making code of that program and proves what
    makes it safe.  All paths below are under [src/].

    ** Parts, files, and how they fit

    The files in dependency order, with the code each one models:

    - [Prelude], [GoStd], [GoFmt]: shared notation, tactics, counting and tallying
      lemmas; the parts of Go's standard library the code uses (strings, integers,
      [net.SplitHostPort], [time], formatting of durations, times and quoted strings).
    - [Resp] ([internal/resp], [internal/sentinel/conn.go]): the wire format.
      [EncodeCommand] prints a command, [readReply] parses a byte stream.
    - [Fsm] ([internal/orchestration/{states,events,transitions}.go]): the rollout
      state machine, its whole transition table and [Apply].
    - [SentinelParse] ([internal/sentinel/{parse,peers,tuning}.go]): what sentinels say.
    - [Observer] ([internal/sentinel/{types,observer}.go]): the published snapshot;
      a poll sweep [pollOnce] and a subscription frame [dispatch] are its two steps.
    - [TripleCheck] ([internal/sentinel/triplecheck.go]): may the operator fail over.
    - [SQAggregate] ([internal/sqaggregate]): merging the SentinelQuorum records.
    - [SentinelWire] ([internal/sentinel/{monitor,remove,peers,auth,failover,tuning}.go]):
      one exchange per command over a scripted connection, retries and fan-outs.
    - [Surgery], [SurgerySpec] ([internal/sentinel/{manager,surgery_guard}.go]): which
      sentinels are broken, the gates, and the REMOVE + MONITOR pass with the trace of
      commands it sends; the statements are in [SurgerySpec].
    - [Status] ([internal/orchestration]): the ten conditions, the phase, the watchdog.
    - [PvcResize] ([internal/pvcresize], [internal/controller/valkey_controller_pvcresize.go]):
      the volume-resize substate machine and its dispatcher.
    - [DeriveState] ([internal/controller/{derive_state,fsm,fsm_transitions,...}.go]): from
      pods, StatefulSet and snapshot to a state of [Fsm], and the edge-triggered
      dispatches of one pass, [observeRolloutState].
    - [LagChecker] ([internal/valkey/lagchecker.go]): reading a replica's lag.
    - [PrimaryRollout] ([internal/controller/primary_rollout.go]): the hand-off of the
      primary, its durable marker and the recovery after a restart.
    - [RoleLabels] ([desiredRolesForCR], [reconcileRoleLabels] of
      [internal/controller/valkey_controller.go]): the role labels the write Service selects.
    - [Sha256] (crypto/sha256 and encoding/hex, for the hash of the auth Secret) and
      [Redaction] ([internal/logging/{registry,redact}.go]): the secrets in use and their
      removal from log records.
    - [DataPlane] ([internal/valkey/{dial,lagchecker,replicaof,clientkill,rotate}.go]): the
      exchanges with a Valkey pod, in a small monad over a peer that answers commands.
    - [AuthRotation] ([internal/controller/auth_rotation.go]): one pass of the password
      rotation, with its revert, status writes and cache.
    - [OrphanMaster] ([internal/controller/{orphan_master,no_master_agreement_observe,
      split_brain_observe}.go], the dual-master memory of [percrstate.go]): demotion of
      masters that should not be.
    - [ObserverManager] ([internal/sentinel/manager.go]): the registry of observers, their
      goroutines and passwords, as interleaved steps; [SubscribeLoop]
      ([internal/sentinel/observer.go]): the reconnecting subscription and the pull tick.
    - [QuorumGate] ([crQuorumState] of [valkey_controller.go]): the per-CR quorum tracker
      and the gate that suppresses sentinel commands.
    - [Recovery] ([valkey_controller.go]): the survey of the pods, the recovery promotion
      and the dispatch of surgery, with what the tracker remembers of it.
    - [ApiTypes], [Defaults], [Webhook] ([api/v1beta1], [internal/defaults],
      [internal/webhook/v1beta1]): the CR's spec, its defaults and its validation.
    - [Version] ([internal/version/compat.go]) and [ValkeyConf] ([internal/valkeyconf]):
      image tags, and the rendered valkey.conf and sentinel.conf.
    - [ScaleGuard] ([reconcileStatefulSet], [reconcilePodRollout] of
      [valkey_controller.go]): what may be applied to the StatefulSet, and the replica roll.
    - [ReadinessGate] ([reconcileReadinessGates] of [valkey_controller.go]): the readiness
      condition of every pod, and the deletion of stuck replicas.
    - [SentinelInfra] ([reconcileSentinelInfra] of [valkey_controller.go],
      [internal/controller/{seed_master,sentinel_roll,...}.go]): the stored address new
      pods replicate from, and the gated roll of the sentinels' own StatefulSet.
    - [Reconcile] ([Reconcile] of [valkey_controller.go]): the pass as a whole, with the
      order of its phases, its guards, deletion and the requeue.
    - [SQRecords] ([internal/controller/sentinelquorum_{create,aggregate}.go]): the records
      a poll is stored in and read back from.
    - [StatusUpdate] ([updateStatus] and the deferred status step of [valkey_controller.go]):
      what the status is computed from and what its patch stores.
    - [StartupReset] ([internal/controller/sentinel_startup_reset.go]): the pass over all
      CRs when the process becomes leader.
    - [Watch] ([internal/controller/auth_secret_watch.go], the predicates of
      [valkey_controller.go]): which events wake the reconciler, and for which CR.
    - [PerCR] ([internal/controller/{percrstate,stale_tracker_pruner}.go]): the table of
      per-CR memory, and the daily sweep.
    - [GoFloat] (float64, rounded exactly), [DynAuth] and [CABundle]
      ([internal/webhook/dynauth]): the certificates of the webhook server, their renewal,
      and the publication of the CA.
    - [PodAC], [StsBuild], [SentinelBuild], [Services] ([internal/controller/{sts_build,
      sentinel_sts,serviceaccount,podmonitor}.go], the builders of [valkey_controller.go],
      [internal/util/ssa]): the objects the operator applies.  [PodAC] converts the user's
      settings into apply configurations, [StsBuild] and [SentinelBuild] build the two
      StatefulSets and run the init scripts as functions on the file they write, and
      [Services] applies ConfigMaps, Services, budgets and accounts to a store.
    - [SentinelPhase] ([reconcileSentinelOrchestration] of [valkey_controller.go]): the
      sentinel side of a pass, as the composition of the components above.
    - [Startup] ([internal/config/config.go], [cmd/main.go]): the configuration, its flags and
      overrides, the certificate bootstrap and the wiring of the process.
    - [Reports] ([internal/audit], the reporters of [internal/events], the event emission of
      [internal/sentinel/manager.go]) and [Telemetry] ([internal/metrics]): the audit
      stream, the events that are said once, the catalogue of metrics and the exporter
      watcher.

    The observer's snapshot ([Observer.Snapshot]) is what the controller files read;
    [PrimaryRollout] calls [SentinelWire.IssueFailover] and drives [Fsm] through
    [DeriveState.applyFSM]; [RoleLabels] runs [maintainFailoverDispatchMarker] of
    [PrimaryRollout] and reads the failover latch of [DeriveState]; [Recovery] runs
    [Surgery.RecoverStrandedSentinels] with the skip set of [QuorumGate] and shares the
    dual-master memory of [OrphanMaster]; [AuthRotation] runs [DataPlane.RotateAuth] and
    scopes both passwords in [Redaction]; [Webhook] and [ValkeyConf] share the directive
    sets, and [ScaleGuard] reads [Version] and [Defaults].  [SQRecords] stores the
    observations of [Observer] and feeds them to [SQAggregate]; [StatusUpdate] hands that
    result, the flags of [QuorumGate] and [OrphanMaster] and the watchdog to [Status];
    [StartupReset] runs [Surgery.RunInitialReset]; the bag of [PerCR] is made of the
    states of the components, and dropping it removes the observer of [ObserverManager].
    [Services] hashes what [ValkeyConf] renders and stamps it on the template of [StsBuild],
    whose settings come from the defaults of [Defaults] and whose labels [Webhook] protects;
    [SentinelPhase] runs [SQRecords], [ObserverManager], [QuorumGate], [Recovery] and
    [PrimaryRollout] in the order of the code; [Startup] wires the authority of [DynAuth]; the
    watcher of [Telemetry] reads the pods that [StsBuild] and [SentinelBuild] describe.

    ** How the code is represented

    A struct is a record with the source's fields, an enum an inductive type, Go's
    [error] a text in [result] or [option], a nil pointer [None].  [int], [int32],
    [int64] and [time.Duration] are [Z]; where the code can overflow the wrap-around
    is written out, elsewhere the values are bounded by lengths.  A Go map is a
    [gmap]; code that ranges over one takes the order as an instance of [MapRange],
    whose only law is that each entry is visited once, so no theorem can depend on
    it.  State is passed explicitly; code that mutates under a lock is one atomic
    step.  Everything the code asks of the outside is an input of the step that asks:
    each clock reading, each outcome of an API request, each reply on a connection.
    What the code writes outside is recorded in order as a trace ([surgery_cmd],
    [effect], [leffect]), so a statement over the prefixes of a trace is a statement
    about a crash, or another process's view, at any point.  The CR's status is kept
    both as held in memory and as stored, since a failed patch changes only the first.

    Interfaces stand for code outside the repository: [MapRange] (above),
    [PvcResize.Quantity] (resource quantities: a total order that agrees with an
    amount), [PrimaryRollout.MetaTime] (times stored with whole seconds),
    [StatusUpdate.ConditionSetter] (setting one condition of a list), [Watch.OwnerHandler]
    (the requests an owned object makes), [DynAuth.X509] (keys, certificates and their
    encodings), and [DataPlane.Peer] with [ValkeyLaws] (a Valkey server: an acknowledged CONFIG SET is
    in force, and nothing else changes the passwords).  Each has a concrete instance,
    with which the witnesses evaluate.  Configuration text is treated byte by byte:
    white space and letter case are those of ASCII.

    ** What the theorems show

    - Hand-off: SENTINEL FAILOVER goes out only in RolloutPrimary, with a fresh quorum,
      no dispatch in flight and a caught-up candidate, after the marker and the strip
      ([failover_dispatch_guarded]); a crash between any two writes leaves a stripped
      primary covered by the marker ([strip_covered_by_marker]); a new process rebuilds
      the critical section from it ([failover_survives_restart]) and does not relabel
      behind the election ([no_relabel_across_restart]).  RolloutPrimary is derived
      exactly when all replicas have rolled and settled ([derive_rollout_primary_iff]).
    - Labels: a relabel never leaves the Service without a primary at any point of its
      writes ([relabel_never_drops_primary]); when it completes it has either found a reason
      to hold the labels or made them the observed ones ([relabel_converges]).
    - Observation: the poll's verdict is an exact quorum of sentinels that agree on
      address and CKQUORUM at once ([poll_quorum_exact]); epochs never decrease, frames
      never forge quorum, and every reachable snapshot is well-formed.
    - Records: in any run of stamps, with restarts in between, the primary and the quorum
      that the CR reports are those of the sentinels' last poll ([status_reflects_poll]).
    - Observers: none runs without an owner, or with a password of eight bytes or more that
      the log would show ([no_orphan_observer]); a shutdown leaves nothing behind ([shutdown_drains]);
      reconnection is paced and loses no frame ([reconnect_backoff]).
    - Surgery: what gates a pass, why each sentinel it wipes was wiped, that MONITOR
      only follows a successful REMOVE, that re-wipes are paced, that re-points go
      forward in config-epochs, and that ghosts are reaped only after the debounce.
    - State machine: no row of the table is dead and their order does not matter, how the
      rollout states are entered ([rollout_entries_guarded]), absorption of sustained
      quorum loss; the events of a run of passes fire once per edge ([replicas_rolled_once]).
    - Status: Degraded reports the first fault in priority order, Ready is characterised,
      bootstrap latches, and no alarm outlives its evidence ([alarms_fresh]).  PVC
      resize: phases advance one at a time and only when the cluster is in the shape the
      next phase needs ([resize_step_safe]), and retries keep the backoff.
    - Recovery: a replica is promoted only when a complete survey shows that no master
      is left, and only one ([promotion_only_without_master]); sentinels are pointed only at a live
      master ([monitor_targets_live_master]); the back-off of a wedged sentinel is kept
      ([rewipe_backoff_kept]).  The self-heal of a split keeps the most advanced master
      and is bounded ([self_heal_keeps_most_advanced], [self_heal_budget]).
    - Suppression: it needs a sustained and re-measured loss, opens only on distinct
      polls, and always opens ([suppression_entry_confirmed], [suppression_exit_hysteresis],
      [suppression_releases]).
    - Passwords: the recorded outcome of a rotation is true of the pods
      ([drive_outcome_truthful], [recorded_hash_is_applied]), its memory stays sound, the
      parallel legs do not interfere, and a secret of eight bytes or more in use reaches the
      log in no field that the redactor scrubs ([live_secret_never_logged]).
    - Scaling: a scale-down keeps a labelled primary, waits for the rollout, and respects
      the version preflight ([scale_guard]); the replica roll deletes one stale replica
      at a time under its gates and terminates ([roll_deletes_safely],
      [replica_roll_terminates]).
    - Stuck replicas: a pod is deleted only on evidence of this process and this pass, one
      at a time, beside a primary or by the bounded escape ([stuck_replica_delete],
      [stale_timer_honest]).
    - The pass: the phases run in their order, under the lock, and only after the pause,
      finalizer, deletion, password and volume-loss guards ([phases_cleared]); deletion keeps or
      releases every volume as the retention policy says before it lets the CR go
      ([deletion_respects_policy]); a pass that returns no error comes back in time
      ([requeue_bounds]).
    - Sentinel roll and seed: sentinels are replaced one at a time, each after the one
      before it found its peers, as long as the operator sees the roll; when it does not is
      part of the statement ([sentinel_roll_gated]); the stored seed is never
      invented ([seed_write_safe]); at startup only sentinels that know no master are
      pointed at one, and only at a pod with a reason ([startup_monitor_justified]).
    - Memory and wake-ups: a sweep spares the CRs it found and keeps the locks and latches
      of the others ([prune_spares]); an edit of the spec, of an operational annotation or
      of the auth Secret wakes exactly the CRs concerned ([cr_watch_wakes],
      [auth_secret_wakes]).
    - Certificates: with passes that succeed, at every instant between two of them each leaf
      is valid and signed by the stored CA ([certs_never_lapse]), and the API server can
      verify every webhook of the operator's Service ([webhooks_verifiable]); the expiry gauges are true on failed
      passes too ([gauges_truthful]), and the sleeps are bounded ([sleep_bounds]).
    - Configuration: operator-owned directives stay the operator's
      ([render_keeps_ownership]) when they are written without quotes; admission and rendering agree on overrides; defaulting
      is idempotent and preserves admission; the requestor annotation cannot be forged.
    - Objects: the StatefulSets of an admitted CR are consistent ([statefulsets_accepted]),
      meet the restricted profile ([pods_restricted]) and carry the user's settings
      unchanged, but for the password in the probes ([user_settings_kept]); clients reach the labelled primary and replicas and nothing
      else ([services_route]); the budget does not depend on roles ([budget_role_free]); a
      changed configuration rolls the pods and a resize by itself does not
      ([config_change_rolls]).  Only the first pod can boot as a master
      ([single_boot_master]), and a sentinel boots on the stored seed or not at all
      ([sentinel_boots_on_seed]).
    - Phase 11: what a pass sends to a sentinel is sent while no failover is in flight
      ([repair_yields_to_failover]) and points it at a master confirmed in that pass
      ([monitored_master_confirmed]).
    - Start-up: a process that starts is within its limits whatever the file, the flags and
      the environment say ([started_process_sound]); the bootstrap ends
      ([bootstrap_wait_ends]).
    - Reports: the audit stream is complete and reproducible ([audit_line_exact]), a reporter
      speaks once per subject ([reported_once]); the series of a deleted CR go and no others
      ([reset_reaps_exactly]), and the exporter gauge shows the pods as last listed
      ([exporter_gauge_exact]).
    - Wire: commands decode to themselves, replies always parse or fail, lag is exact.
    - Some theorems state behaviour that departs from what comments promise, among them
      [aborted_survives_revert], [stalled_expansion_unreported],
      [triplecheck_stale_poll_allowed], [pending_rollout_never_resumed],
      [refused_unrestored_stays_unlabelled], [failed_rotation_strands_pod],
      [failover_never_counted], [blank_override_key_leaks], [second_primary_unguarded],
      [interrupted_bootstrap_refused], [partition_read_failure_releases],
      [stall_never_reported], [stall_condition_transient], [pod_watch_never_fires],
      [partial_write_masked], [stale_label_monitored], [prune_lifts_suppression],
      [stale_ca_read_breaks_chain], [corrupt_ca_key_unhealed], [derived_budget_frozen],
      [budget_survives_scale_in], [headless_ignored], [primary_follows_itself],
      [unprobed_primary_vouched], [array_field_unscrubbed], [quoted_name_rendered] and
      [override_wraps].

    ** Fuel and termination

    [Resp.readReply] recurses on fuel.  Each reply consumes at least one byte, so the
    length of the stream plus one is enough; [Resp.decode] starts with that and
    [readReply_total] shows it never runs out.  [OrphanMaster.merge_loop] recurses on the
    sum of the lengths of its two lists, which every turn decreases.
    [Startup.waitForProjectedFile] polls on fuel: one poll more than fit into the time limit
    is enough, since the context has then expired.  [Reports.search_loop] takes the length of
    the interval, which every turn shortens.  Every other loop of
    the code is over a finite list or map and is a structural recursion or a fold here.

    ** Not modelled

    Sockets and timeouts (their outcomes are inputs); log lines, and the metrics that the
    components add up along the way (the gate's and the certificates' gauges apart); the
    catalogue of event reasons, which is a list of strings; the registration of command-line
    flags; generated code (deep copies, apply configurations of the CR) and the build-time
    linters, which carry no behaviour of the operator.  The informer cache is taken to be current at the
    start of a pass. *)
From stdpp Require Export base tactics decidable list gmap sets strings numbers pretty.
From Stdlib Require Export ZArith Lia.
From Stdlib Require Ascii.
Export Stdlib.Strings.Ascii (ascii(..), nat_of_ascii, ascii_of_nat).
Export (notations) Stdlib.Strings.Ascii.

(** ** Notations: Go's comparison operators as booleans *)
Declare Scope go_scope.
Delimit Scope go_scope with go.
Notation "x == y" := (bool_decide (x = y)) (at level 70, no associativity) : go_scope.
Notation "x != y" := (negb (bool_decide (x = y))) (at level 70, no associativity) : go_scope.
Notation "x < y" := (Z.ltb x y) (at level 70, no associativity) : go_scope.
Notation "x <= y" := (Z.leb x y) (at level 70, no associativity) : go_scope.
Notation "x > y" := (Z.ltb y x) (at level 70, no associativity) : go_scope.
Notation "x >= y" := (Z.leb y x) (at level 70, no associativity) : go_scope.

(** ** Results of fallible code: a value, or Go's [error] as its text *)
Inductive result (A : Type) : Type :=
  | Ok (a : A)
  | Err (e : string).
Arguments Ok {A} a.
Arguments Err {A} e.

#[export] Instance result_eq_dec {A} `{!EqDecision A} : EqDecision (result A).
Proof. solve_decision. Defined.

Definition is_ok {A} (r : result A) : bool :=
  match r with Ok _ => true | Err _ => false end.

(** Go's [len] is an [int]. *)
Definition len {A} (l : list A) : Z := Z.of_nat (length l).

(** ** Automation *)
Create HintDb velkir.
Create Rewrite HintDb gostr.

(** Case analysis on every scrutinee of the goal and the hypotheses, with the
    equations simplified and the boolean tests turned into propositions. *)
Ltac go_cases :=
  repeat (case_match || case_bool_decide); simplify_eq/=.

Ltac bool_to_prop :=
  repeat match goal with
    | H : andb _ _ = true |- _ => apply andb_true_iff in H; destruct H
    | H : andb _ _ = false |- _ => apply andb_false_iff in H
    | H : orb _ _ = false |- _ => apply orb_false_iff in H; destruct H
    | H : orb _ _ = true |- _ => apply orb_true_iff in H
    | H : negb _ = true |- _ => apply negb_true_iff in H
    | H : negb _ = false |- _ => apply negb_false_iff in H
    | H : bool_decide _ = true |- _ => apply bool_decide_eq_true in H
    | H : bool_decide _ = false |- _ => apply bool_decide_eq_false in H
    | H : Z.ltb _ _ = true |- _ => apply Z.ltb_lt in H
    | H : Z.ltb _ _ = false |- _ => apply Z.ltb_ge in H
    | H : Z.leb _ _ = true |- _ => apply Z.leb_le in H
    | H : Z.leb _ _ = false |- _ => apply Z.leb_gt in H
    | H : Nat.ltb _ _ = true |- _ => apply Nat.ltb_lt in H
    | H : Nat.ltb _ _ = false |- _ => apply Nat.ltb_ge in H
    | H : Nat.leb _ _ = true |- _ => apply Nat.leb_le in H
    | H : Nat.leb _ _ = false |- _ => apply Nat.leb_gt in H
    end.

Ltac go_crush := go_cases; bool_to_prop; simplify_eq/=; try done; try lia.

(** ** Iteration order of Go maps

    [for k, v := range m] visits the entries of a map in an order the language
    leaves open.  Code that ranges over a map takes the order as an instance of
    this class; the law is all a theorem may use of it. *)
Class MapRange := {
  range_of {V : Type} : gmap string V → list (string * V);
  range_of_perm {V : Type} (m : gmap string V) : range_of m ≡ₚ map_to_list m
}.

(** Two concrete orders, for evaluation. *)
Definition range_forward : MapRange :=
  {| range_of V m := map_to_list m; range_of_perm V m := Permutation_refl _ |}.

Lemma reverse_map_to_list_perm {V : Type} (m : gmap string V) :
  reverse (map_to_list m) ≡ₚ map_to_list m.
Proof. apply reverse_Permutation. Qed.

Definition range_backward : MapRange :=
  {| range_of V m := reverse (map_to_list m); range_of_perm V m := reverse_map_to_list_perm m |}.

Lemma elem_of_range_of `{!MapRange} {V : Type} (m : gmap string V) k v :
  (k, v) ∈ range_of m ↔ m !! k = Some v.
Proof. rewrite range_of_perm. apply elem_of_map_to_list. Qed.

Lemma NoDup_range_of `{!MapRange} {V : Type} (m : gmap string V) :
  NoDup (range_of m).*1.
Proof. rewrite range_of_perm. apply NoDup_fst_map_to_list. Qed.

Lemma range_of_agree (R1 R2 : MapRange) {V : Type} (m : gmap string V) :
  @range_of R1 V m ≡ₚ @range_of R2 V m.
Proof. by rewrite !range_of_perm. Qed.

(** ** Lists: counting, and the two facts quorums rest on *)
Fixpoint count {A} (p : A → bool) (l : list A) : nat :=
  match l with
  | [] => 0
  | x :: l => (if p x then 1 else 0) + count p l
  end.

Section count.
Context {A : Type}.
Implicit Types (p q : A → bool) (l : list A).

Lemma count_le_length p l : count p l ≤ length l.
Proof. induction l as [|x l IH]; simpl; [done|]. destruct (p x); lia. Qed.

Lemma count_app p l1 l2 : count p (l1 ++ l2) = count p l1 + count p l2.
Proof. induction l1 as [|x l1 IH]; simpl; [done|]. rewrite IH. lia. Qed.

Lemma count_mono p q l :
  (∀ x, x ∈ l → p x = true → q x = true) → count p l ≤ count q l.
Proof.
  induction l as [|x l IH]; simpl; [done|]. intros H.
  assert (count p l ≤ count q l) by (apply IH; set_solver).
  destruct (p x) eqn:E; [rewrite (H x) by (done || constructor)|destruct (q x)]; lia.
Qed.

Lemma count_ext p q l : (∀ x, x ∈ l → p x = q x) → count p l = count q l.
Proof.
  induction l as [|x l IH]; simpl; [done|]. intros H.
  rewrite (H x) by constructor. rewrite IH; [done|]. set_solver.
Qed.

Lemma count_split p q l :
  count p l + count q l ≤ length l + count (λ x, p x && q x) l.
Proof.
  induction l as [|x l IH]; simpl; [done|].
  destruct (p x), (q x); simpl; lia.
Qed.

Lemma count_pos p l : 0 < count p l → ∃ x, x ∈ l ∧ p x = true.
Proof.
  induction l as [|x l IH]; simpl; [lia|]. destruct (p x) eqn:E; intros Hc.
  - exists x. split; [constructor|done].
  - destruct IH as (y & Hy & Hp); [lia|]. exists y. split; [by constructor|done].
Qed.

Lemma count_filter p l : count p l = length (filter (λ x, p x = true) l).
Proof.
  induction l as [|x l IH]; simpl; [done|]. rewrite filter_cons.
  destruct (p x) eqn:E; case_decide; simplify_eq; simpl; lia.
Qed.

(** Quorum intersection: two sub-collections that are each more than half of
    a list share an element. *)
Lemma majority_intersect p q l :
  length l < 2 * count p l → length l < 2 * count q l →
  ∃ x, x ∈ l ∧ p x = true ∧ q x = true.
Proof.
  intros Hp Hq. destruct (count_pos (λ x, p x && q x) l) as (x & Hx & Hpq).
  { pose proof (count_split p q l). lia. }
  apply andb_true_iff in Hpq as [??]. eauto.
Qed.
End count.

(** ** Folds whose step is a commutative choice do not see the order *)
Lemma foldl_perm {A B} (f : B → A → B) (l1 l2 : list A) (b : B) :
  (∀ b x y, x ∈ l1 → y ∈ l1 → f (f b x) y = f (f b y) x) →
  l1 ≡ₚ l2 → foldl f b l1 = foldl f b l2.
Proof.
  intros Hf Hp. revert b Hf.
  induction Hp as [|x l1 l2 _ IH|x y l|l1 l2 l3 H1 IH1 H2 IH2]; intros b Hf; simpl; [done|..].
  - apply IH. intros b' y z Hy Hz. apply Hf; by constructor.
  - by rewrite Hf by (repeat constructor).
  - rewrite IH1 by done. apply IH2. intros b' x y Hx Hy. by apply Hf; rewrite H1.
Qed.

(** ** Tallying votes into a map, the shape of [votes[x]++] loops *)
Definition bump (m : gmap string nat) (k : string) : gmap string nat :=
  <[k := S (default 0 (m !! k))]> m.

Lemma lookup_bump_eq m k : bump m k !! k = Some (S (default 0 (m !! k))).
Proof. apply lookup_insert_eq. Qed.

Lemma lookup_bump_ne m k k' : k ≠ k' → bump m k !! k' = m !! k'.
Proof. intros. by apply lookup_insert_ne. Qed.

(** Bumping the key [f x] of every element for which [f] gives one. *)
Definition tally {A} (f : A → option string) (m0 : gmap string nat) (l : list A) :
    gmap string nat :=
  foldl (λ m x, match f x with Some k => bump m k | None => m end) m0 l.

Definition votes_for {A} (f : A → option string) (k : string) (x : A) : bool :=
  bool_decide (f x = Some k).

Lemma tally_default {A} (f : A → option string) l m0 k :
  default 0 (tally f m0 l !! k) = default 0 (m0 !! k) + count (votes_for f k) l.
Proof.
  revert m0. induction l as [|x l IH]; intros m0; simpl; [unfold tally; simpl; lia|].
  unfold tally in *. simpl. rewrite IH. unfold votes_for at 2.
  destruct (f x) as [k'|] eqn:E; case_bool_decide; simplify_eq.
  - rewrite lookup_bump_eq. simpl. lia.
  - rewrite lookup_bump_ne by congruence. lia.
  - lia.
Qed.

Lemma tally_lookup {A} (f : A → option string) l k n :
  tally f ∅ l !! k = Some n ↔ n = count (votes_for f k) l ∧ 0 < n.
Proof.
  assert (∀ m0, (∀ k n, m0 !! k = Some n → 0 < n) →
    ∀ k n, tally f m0 l !! k = Some n → 0 < n) as Hpos.
  { induction l as [|x l IH]; intros m0 H0; unfold tally in *; simpl; [done|].
    apply IH. intros k' n'. destruct (f x) as [kx|]; [|apply H0].
    destruct (decide (kx = k')) as [->|?].
    - rewrite lookup_bump_eq. intros [= <-]. lia.
    - rewrite lookup_bump_ne by done. apply H0. }
  pose proof (tally_default f l ∅ k) as Hd. rewrite lookup_empty in Hd. simpl in Hd.
  split.
  - intros H. pose proof (Hpos ∅ ltac:(intros ??; by rewrite lookup_empty) _ _ H).
    rewrite H in Hd. simpl in Hd. lia.
  - intros [-> Hn]. destruct (tally f ∅ l !! k) as [m|]; simpl in Hd; [|lia].
    by rewrite Hd.
Qed.

(** ** Strings *)
Lemma str_app_nil_r s : s +:+ "" = s.
Proof. induction s as [|a s IH]; [done|]. change (String a (s +:+ "") = String a s). by rewrite IH. Qed.

Lemma str_app_assoc s1 s2 s3 : (s1 +:+ s2) +:+ s3 = s1 +:+ (s2 +:+ s3).
Proof.
  induction s1 as [|a s IH]; [done|].
  change (String a ((s +:+ s2) +:+ s3) = String a (s +:+ (s2 +:+ s3))). by rewrite IH.
Qed.

Lemma str_length_app s1 s2 :
  String.length (s1 +:+ s2) = String.length s1 + String.length s2.
Proof.
  induction s1 as [|a s IH]; [done|].
  change (S (String.length (s +:+ s2)) = S (String.length s) + String.length s2). lia.
Qed.

Lemma str_app_cons a s t : String a s +:+ t = String a (s +:+ t).
Proof. done. Qed.

Lemma str_app_nil_l t : "" +:+ t = t.
Proof. done. Qed.

#[export] Hint Rewrite str_app_nil_r str_app_assoc str_app_cons str_app_nil_l : gostr.

#[export] Hint Resolve count_le_length NoDup_range_of Nat.le_0_l : velkir.
