(* ===== verification/GoStd.v ===== *)
(** * The Go standard library, as far as the operator uses it

    Strings are sequences of bytes ([String.string] over [ascii]).  [time.Time]
    is a count of nanoseconds from the zero time (year 1), so the zero value is
    [0]; [time.Duration] and [int] are 64-bit integers kept in [Z].  Monotonic
    clock readings are not distinguished from wall-clock ones. *)
From S2P Require Import Prelude.
From Stdlib Require Sorted.
Local Open Scope Z_scope.

(** ** Machine integers *)
Definition min_int64 : Z := - 2 ^ 63.
Definition max_int64 : Z := 2 ^ 63 - 1.
Definition in_int64 (z : Z) : bool := (min_int64 <=? z) && (z <=? max_int64).
Definition in_int32 (z : Z) : bool := (- 2 ^ 31 <=? z) && (z <=? 2 ^ 31 - 1).

#[global] Arguments in_int64 : simpl never.
#[global] Arguments in_int32 : simpl never.

Definition clamp64 (z : Z) : Z := Z.max min_int64 (Z.min max_int64 z).

(** ** time *)
Abbreviation Time := Z (only parsing).
Abbreviation Duration := Z (only parsing).

Definition Nanosecond : Duration := 1.
Definition Millisecond : Duration := 1000000.
Definition Second : Duration := 1000000000.
Definition Minute : Duration := 60 * Second.
Definition Hour : Duration := 60 * Minute.

(** The year-1 instant [time.Time{}]. *)
Definition zero_time : Time := 0.
Definition IsZero (t : Time) : bool := Z.eqb t 0.

(** [t.Sub(u)] saturates at the range of [Duration]. *)
Definition Sub (t u : Time) : Duration := clamp64 (t - u).
Definition Add (t : Time) (d : Duration) : Time := t + d.
Definition Before (t u : Time) : bool := t <? u.
Definition After (t u : Time) : bool := u <? t.

Lemma clamp64_id z : in_int64 z = true → clamp64 z = z.
Proof. unfold in_int64, clamp64. intros H. bool_to_prop. lia. Qed.

Lemma Sub_le_iff t u d : min_int64 <= d < max_int64 → Sub t u <= d ↔ t - u <= d.
Proof. unfold Sub, clamp64. lia. Qed.

Lemma Sub_ge_iff t u d : min_int64 < d <= max_int64 → d <= Sub t u ↔ d <= t - u.
Proof. unfold Sub, clamp64. lia. Qed.

(** ** strings *)
Fixpoint str_take (n : nat) (s : string) : string :=
  match n, s with
  | O, _ => ""
  | S n, EmptyString => ""
  | S n, String a s => String a (str_take n s)
  end.

Fixpoint str_drop (n : nat) (s : string) : string :=
  match n, s with
  | O, _ => s
  | S n, EmptyString => ""
  | S n, String a s => str_drop n s
  end.

#[global] Arguments str_take !n !s /.
#[global] Arguments str_drop !n !s /.

Fixpoint IndexByte (c : ascii) (s : string) : option nat :=
  match s with
  | EmptyString => None
  | String a s => if bool_decide (a = c) then Some O else S <$> IndexByte c s
  end.

Fixpoint LastIndexByte (c : ascii) (s : string) : option nat :=
  match s with
  | EmptyString => None
  | String a s =>
      match LastIndexByte c s with
      | Some i => Some (S i)
      | None => if bool_decide (a = c) then Some O else None
      end
  end.

Definition has_byte (c : ascii) (s : string) : bool :=
  match IndexByte c s with Some _ => true | None => false end.

Definition HasPrefix (s pre : string) : bool := String.prefix pre s.

Fixpoint Contains (s sub : string) : bool :=
  String.prefix sub s ||
  match s with
  | EmptyString => false
  | String _ s => Contains s sub
  end.

Definition lower_byte (c : ascii) : ascii :=
  let n := nat_of_ascii c in
  if (Nat.leb 65 n && Nat.leb n 90)%bool then ascii_of_nat (n + 32) else c.

(** [strings.ToLower] on ASCII input. *)
Fixpoint ToLower (s : string) : string :=
  match s with
  | EmptyString => ""
  | String c s => String (lower_byte c) (ToLower s)
  end.

(** [strings.Fields] on ASCII input: the runs of non-space bytes. *)
Definition Fields (s : string) : list string := String.words s.

(** [strings.Split(s, sep)] for a one-byte separator. *)
Fixpoint Split (s : string) (sep : ascii) : list string :=
  match s with
  | EmptyString => [""]
  | String c s =>
      if bool_decide (c = sep) then "" :: Split s sep
      else match Split s sep with
           | [] => [String c ""]
           | w :: ws => String c w :: ws
           end
  end.

Definition Join (elems : list string) (sep : string) : string := String.concat sep elems.

(** [strings.TrimRight(s, "\r\n")]. *)
Definition is_crlf (c : ascii) : bool :=
  bool_decide (c = "013"%char) || bool_decide (c = "010"%char).

Fixpoint TrimRightCRLF (s : string) : string :=
  match s with
  | EmptyString => ""
  | String c s =>
      match TrimRightCRLF s with
      | EmptyString => if is_crlf c then "" else String c ""
      | t => String c t
      end
  end.

(** ** strconv *)
Definition digit_val (c : ascii) : option Z :=
  Z.of_nat <$> Ascii.is_nat c.

Fixpoint digits_from (acc : Z) (s : string) : option Z :=
  match s with
  | EmptyString => Some acc
  | String c s => d ← digit_val c; digits_from (10 * acc + d) s
  end.

Definition parse_digits (s : string) : option Z :=
  match s with EmptyString => None | _ => digits_from 0 s end.

(** [strconv.ParseInt(s, 10, 64)] and, [int] being 64 bits wide,
    [strconv.Atoi(s)]: an optional sign, at least one digit, nothing else, and
    a value in range. *)
Definition ParseInt64 (s : string) : option Z :=
  v ← match s with
      | String "-" s' => Z.opp <$> parse_digits s'
      | String "+" s' => parse_digits s'
      | _ => parse_digits s
      end;
  if in_int64 v then Some v else None.

Definition Atoi (s : string) : option Z := ParseInt64 s.

Definition Itoa (n : Z) : string := pretty n.

(** ** net *)
Definition JoinHostPort (host port : string) : string :=
  if has_byte ":" host then "[" +:+ host +:+ "]:" +:+ port
  else host +:+ ":" +:+ port.

Definition head_is (c : ascii) (s : string) : bool :=
  match s with String a _ => bool_decide (a = c) | EmptyString => false end.

Definition SplitHostPort (hostport : string) : option (string * string) :=
  i ← LastIndexByte ":" hostport;
  '(host, j, k) ←
    (if head_is "[" hostport then
       e ← IndexByte "]" hostport;
       if Nat.eqb (S e) (String.length hostport) then None
       else if Nat.eqb (S e) i then
         Some (str_drop 1 (str_take e hostport), 1%nat, S e)
       else None
     else
       if has_byte ":" (str_take i hostport) then None
       else Some (str_take i hostport, 0%nat, 0%nat));
  if has_byte "[" (str_drop j hostport) then None
  else if has_byte "]" (str_drop k hostport) then None
  else Some (host, str_drop (S i) hostport).

Example split_v4 : SplitHostPort "10.0.0.7:6379" = Some ("10.0.0.7", "6379").
Proof. reflexivity. Qed.
Example split_v6 : SplitHostPort "[fd00::7]:6379" = Some ("fd00::7", "6379").
Proof. reflexivity. Qed.
Example split_bad : SplitHostPort "fd00::7" = None.
Proof. reflexivity. Qed.
Example join_v6 : JoinHostPort "fd00::7" "6379" = "[fd00::7]:6379".
Proof. reflexivity. Qed.
Example atoi_bad : Atoi "12x" = None ∧ Atoi "" = None ∧ Atoi "-" = None
  ∧ Atoi "9223372036854775808" = None ∧ Atoi "-9223372036854775808" = Some (- 2 ^ 63).
Proof. repeat split. Qed.
Example fields_ex : Fields " a  bc d" = ["a"; "bc"; "d"].
Proof. reflexivity. Qed.
Example split_ex : Split "master,s_down" "," = ["master"; "s_down"].
Proof. reflexivity. Qed.

(** ** Lemmas: byte search *)
Lemma str_take_length_app s t : str_take (String.length s) (s +:+ t) = s.
Proof.
  induction s as [|c s IH]; [by destruct t|].
  rewrite str_app_cons. simpl. by rewrite IH.
Qed.

Lemma str_drop_length_app s t : str_drop (String.length s) (s +:+ t) = t.
Proof. induction s as [|c s IH]; [by destruct t|]. by rewrite str_app_cons. Qed.

Lemma has_byte_app c s t : has_byte c (s +:+ t) = has_byte c s || has_byte c t.
Proof.
  induction s as [|a s IH]; [done|]. rewrite str_app_cons. unfold has_byte in *. simpl.
  case_bool_decide; [done|].
  destruct (IndexByte c (s +:+ t)), (IndexByte c s); simpl in *; done.
Qed.

Lemma has_byte_cons c a s : has_byte c (String a s) = bool_decide (a = c) || has_byte c s.
Proof. unfold has_byte. simpl. case_bool_decide; [done|]. by destruct (IndexByte c s). Qed.

Lemma LastIndexByte_None c s : has_byte c s = false → LastIndexByte c s = None.
Proof.
  induction s as [|a s IH]; [done|]. rewrite has_byte_cons. intros [Ha Hs]%orb_false_iff.
  simpl. rewrite (IH Hs). by rewrite Ha.
Qed.

Lemma LastIndexByte_app c s t :
  has_byte c t = false → LastIndexByte c (s +:+ String c t) = Some (String.length s).
Proof.
  intros Ht. induction s as [|a s IH].
  - rewrite str_app_nil_l. simpl. rewrite LastIndexByte_None by done.
    by rewrite bool_decide_true.
  - rewrite str_app_cons. simpl. by rewrite IH.
Qed.

Lemma IndexByte_app c s t :
  has_byte c s = false → IndexByte c (s +:+ String c t) = Some (String.length s).
Proof.
  induction s as [|a s IH].
  - intros _. rewrite str_app_nil_l. simpl. by rewrite bool_decide_true.
  - rewrite has_byte_cons. intros [Ha Hs]%orb_false_iff. rewrite str_app_cons. simpl.
    rewrite Ha, (IH Hs). done.
Qed.

Lemma has_byte_take c n s : has_byte c s = false → has_byte c (str_take n s) = false.
Proof.
  revert s. induction n as [|n IH]; intros [|a s]; try done.
  simpl. rewrite !has_byte_cons. intros [-> H]%orb_false_iff. by rewrite IH.
Qed.

(** ** Round trips *)
Lemma digits_pretty_go x s : (0 <= x)%N →
  digits_from 0 (pretty_N_go x s) = digits_from (Z.of_N x) s.
Proof.
  intros _. revert s. induction (N.lt_wf_0 x) as [x _ IH]; intros s.
  destruct (decide (x = 0%N)) as [->|Hx]; [done|].
  rewrite pretty_N_go_step by lia. rewrite IH by (apply N.div_lt; lia). simpl.
  assert (digit_val (pretty_N_char (x `mod` 10)) = Some (Z.of_N (x `mod` 10))) as ->.
  { assert (x `mod` 10 < 10)%N as Hm by (apply N.mod_lt; done).
    destruct (x `mod` 10)%N as [|p]; [done|].
    do 4 (destruct p as [p|p|]; try done; try lia). }
  simpl. f_equal. pose proof (N.div_mod x 10 ltac:(done)). lia.
Qed.

Lemma pretty_N_go_nonempty x s : (0 < x)%N → pretty_N_go x s ≠ "".
Proof.
  revert s. induction (N.lt_wf_0 x) as [x _ IH]; intros s Hx.
  rewrite pretty_N_go_step by done.
  destruct (decide ((x `div` 10)%N = 0%N)) as [->|Hd]; [done|].
  apply IH; [apply N.div_lt; lia|by apply N.neq_0_lt_0].
Qed.

Lemma parse_digits_pretty_N (x : N) : parse_digits (pretty x) = Some (Z.of_N x).
Proof.
  unfold pretty, pretty_N. case_decide; [by subst|].
  unfold parse_digits. destruct (pretty_N_go x "") eqn:E.
  - exfalso. eapply pretty_N_go_nonempty; [|exact E]. lia.
  - rewrite <-E, digits_pretty_go by lia. done.
Qed.

Lemma digits_from_first c s acc v : digits_from acc (String c s) = Some v → is_Some (digit_val c).
Proof. simpl. destruct (digit_val c); [by eauto|done]. Qed.

(** [strconv.Atoi] is a left inverse of [strconv.Itoa] on [int]. *)
Lemma Atoi_Itoa n : in_int64 n = true → Atoi (Itoa n) = Some n.
Proof.
  intros Hn. unfold Atoi, ParseInt64, Itoa, pretty, pretty_Z.
  destruct n as [|p|p].
  - done.
  - unfold pretty, pretty_positive. pose proof (parse_digits_pretty_N (Npos p)) as H.
    destruct (pretty (Npos p)) as [|c s] eqn:E; [done|].
    assert (is_Some (digit_val c)) as Hd by (by eapply digits_from_first).
    assert (c ≠ "-"%char ∧ c ≠ "+"%char) as [Hm Hp].
    { split; intros ->; by destruct Hd. }
    replace (match c with "-"%char => _ | "+"%char => _ | _ => parse_digits (String c s) end)
      with (parse_digits (String c s)).
    + rewrite H. simpl. by rewrite Hn.
    + destruct c as [[] [] [] [] [] [] [] []]; done.
  - rewrite str_app_cons, str_app_nil_l. unfold pretty, pretty_positive.
    rewrite parse_digits_pretty_N. simpl.
    change (- Z.pos p) with (Z.neg p). by rewrite Hn.
Qed.

Lemma has_byte_pretty_go c x s :
  (∀ d, (d < 10)%N → pretty_N_char d ≠ c) → has_byte c s = false →
  has_byte c (pretty_N_go x s) = false.
Proof.
  intros Hc. revert s. induction (N.lt_wf_0 x) as [x _ IH]; intros s Hs.
  destruct (decide (x = 0%N)) as [->|Hx]; [done|].
  rewrite pretty_N_go_step by lia. apply IH; [apply N.div_lt; lia|].
  rewrite has_byte_cons, Hs, orb_false_r. apply bool_decide_eq_false.
  apply Hc. by apply N.mod_lt.
Qed.

(** A decimal rendering contains only digits and the sign. *)
Lemma has_byte_Itoa c n :
  (∀ d, (d < 10)%N → pretty_N_char d ≠ c) → c ≠ "-"%char → has_byte c (Itoa n) = false.
Proof.
  intros Hc Hm. assert (∀ p, has_byte c (pretty (Npos p)) = false) as Hp.
  { intros p. unfold pretty, pretty_N. case_decide; [done|]. by apply has_byte_pretty_go. }
  unfold Itoa, pretty, pretty_Z. destruct n as [|p|p].
  - change "0" with (String "0" ""). rewrite has_byte_cons, orb_false_r.
    apply bool_decide_eq_false. by apply (Hc 0%N).
  - apply Hp.
  - rewrite str_app_cons, has_byte_cons. rewrite bool_decide_false by done. apply Hp.
Qed.

Section hostport.
Context (h p : string).
Context (Hhl : has_byte "[" h = false) (Hhr : has_byte "]" h = false).
Context (Hpc : has_byte ":" p = false) (Hpl : has_byte "[" p = false) (Hpr : has_byte "]" p = false).

Let bracketed : string := String "[" (h +:+ String "]" (String ":" p)).

Lemma bracketed_split s t : String "[" h +:+ String "]" (String ":" p) = s +:+ t →
  bracketed = s +:+ t.
Proof. intros <-. unfold bracketed. by autorewrite with gostr. Qed.

Lemma bracketed_last_colon : LastIndexByte ":" bracketed = Some (S (S (String.length h))).
Proof.
  rewrite (bracketed_split (String "[" (h +:+ "]")) (String ":" p)) by (by autorewrite with gostr).
  rewrite LastIndexByte_app by done. simpl. rewrite str_length_app. simpl. do 2 f_equal. lia.
Qed.

Lemma bracketed_close : IndexByte "]" bracketed = Some (S (String.length h)).
Proof.
  rewrite (bracketed_split (String "[" h) (String "]" (String ":" p))) by done.
  rewrite IndexByte_app; [done|]. by rewrite has_byte_cons.
Qed.

Lemma bracketed_drop : str_drop (S (S (String.length h))) bracketed = String ":" p.
Proof.
  rewrite (bracketed_split (String "[" (h +:+ "]")) (String ":" p)) by (by autorewrite with gostr).
  replace (S (S (String.length h))) with (String.length (String "[" (h +:+ "]")))
    by (simpl; rewrite str_length_app; simpl; lia).
  apply str_drop_length_app.
Qed.

Lemma str_drop_S n s : str_drop (S n) s = str_drop 1 (str_drop n s).
Proof. revert s. induction n as [|n IH]; intros [|c s]; try done. apply IH. Qed.

Lemma SplitHostPort_bracketed : SplitHostPort bracketed = Some (h, p).
Proof.
  unfold SplitHostPort. rewrite bracketed_last_colon. cbn [mbind option_bind].
  change (head_is "[" bracketed) with true. cbv iota.
  rewrite bracketed_close. cbn [mbind option_bind].
  assert (String.length bracketed = S (S (S (String.length h + String.length p)))) as ->.
  { unfold bracketed. simpl. rewrite str_length_app. simpl. lia. }
  rewrite (proj2 (Nat.eqb_neq _ _)) by lia. rewrite Nat.eqb_refl. cbn [mbind option_bind].
  change (str_drop 1 (str_take (S (String.length h)) bracketed))
    with (str_take (String.length h) (h +:+ String "]" (String ":" p))).
  change (str_drop 1 bracketed) with (h +:+ String "]" (String ":" p)).
  rewrite str_take_length_app, has_byte_app, !has_byte_cons, Hhl, Hpl.
  rewrite bracketed_drop, has_byte_cons, Hpr.
  rewrite !bool_decide_false by done. cbn [orb].
  by rewrite str_drop_S, bracketed_drop.
Qed.

(** [net.SplitHostPort] inverts [net.JoinHostPort] for every host, bracketed
    (IPv6) or not. *)
Lemma SplitHostPort_JoinHostPort : SplitHostPort (JoinHostPort h p) = Some (h, p).
Proof.
  unfold JoinHostPort. destruct (has_byte ":" h) eqn:Hc.
  { autorewrite with gostr. apply SplitHostPort_bracketed. }
  autorewrite with gostr. unfold SplitHostPort.
  rewrite LastIndexByte_app by done. cbn [mbind option_bind].
  assert (head_is "[" (h +:+ String ":" p) = false) as ->.
  { destruct h as [|c h']; [done|]. rewrite has_byte_cons in Hhl.
    by apply orb_false_iff in Hhl as [? _]. }
  rewrite str_take_length_app, Hc. cbn [mbind option_bind].
  change (str_drop 0 (h +:+ String ":" p)) with (h +:+ String ":" p).
  rewrite !has_byte_app, !has_byte_cons, Hhl, Hpl, Hhr, Hpr.
  rewrite !bool_decide_false by done. cbn [orb].
  by rewrite str_drop_S, str_drop_length_app.
Qed.
End hostport.

(** ** [sort.Slice]: insertion by the caller's [less] *)
Section sort.
Context {A : Type} (less : A → A → bool).

Fixpoint insert_by (x : A) (l : list A) : list A :=
  match l with
  | [] => [x]
  | y :: l => if less y x then y :: insert_by x l else x :: y :: l
  end.
Definition sort_by (l : list A) : list A := foldr insert_by [] l.

Lemma insert_by_perm x l : insert_by x l ≡ₚ x :: l.
Proof.
  induction l as [|y l IH]; [done|]. simpl. destruct (less y x); [|done].
  rewrite IH. apply Permutation_swap.
Qed.

Lemma sort_by_perm l : sort_by l ≡ₚ l.
Proof. induction l as [|x l IH]; [done|]. simpl. by rewrite insert_by_perm, IH. Qed.

Lemma insert_by_elem x y l : y ∈ insert_by x l ↔ y = x ∨ y ∈ l.
Proof. rewrite insert_by_perm. apply elem_of_cons. Qed.

(** Sorted for any transitive relation the comparison decides in one direction or the other. *)
Lemma sort_by_sorted (R : A → A → Prop) (HT : Transitive R) l :
  (∀ x y, less y x = true → R y x) → (∀ x y, less y x = false → R x y) →
  Sorted.StronglySorted R (sort_by l).
Proof.
  intros H1 H2. induction l as [|x l IH]; simpl; [constructor|].
  revert IH. generalize (sort_by l) as s. clear l. intros s.
  induction s as [|y s IHs]; simpl; intros Hs; [repeat constructor|].
  inversion Hs as [|? ? Hss Hall]; subst. destruct (less y x) eqn:E.
  - constructor; [by apply IHs|]. apply List.Forall_forall. intros z Hz.
    apply list_elem_of_In, insert_by_elem in Hz as [->|Hz]; [by apply H1|].
    rewrite List.Forall_forall in Hall. apply Hall. by apply list_elem_of_In.
  - constructor; [done|]. apply List.Forall_forall. intros z Hz. apply H2 in E.
    destruct Hz as [<-|Hz]; [done|]. etrans; [exact E|].
    rewrite List.Forall_forall in Hall. by apply Hall.
Qed.
End sort.

(** [sort.Strings]. *)
Definition sort_strings : list string → list string := sort_by String.ltb.
