(* ===== verification/GoFmt.v ===== *)
(** * Formatting: the verbs and layouts of [fmt], [time] and [strconv] the
    operator's messages use

    [%q] quotes and escapes ASCII and leaves bytes from 0x80 as they are, which is
    what it does to printable text. *)
From S2P Require Import Prelude GoStd.
Local Open Scope Z_scope.

Definition dquote : ascii := ascii_of_nat 34.
Definition backslash : ascii := ascii_of_nat 92.

Definition hex_digit (n : nat) : ascii :=
  ascii_of_nat (if Nat.ltb n 10 then 48 + n else 87 + n).

Definition quote_byte (a : ascii) : string :=
  let n := nat_of_ascii a in
  if Nat.eqb n 34 || Nat.eqb n 92 then String backslash (String a "")
  else if Nat.eqb n 10 then String backslash "n"
  else if Nat.eqb n 13 then String backslash "r"
  else if Nat.eqb n 9 then String backslash "t"
  else if Nat.ltb n 32 || Nat.eqb n 127 then
    String backslash (String "x" (String (hex_digit (n / 16)) (String (hex_digit (n mod 16)) "")))
  else String a "".

Fixpoint quote_body (s : string) : string :=
  match s with EmptyString => "" | String a s => quote_byte a +:+ quote_body s end.

Definition Quote (s : string) : string := String dquote (quote_body s +:+ String dquote "").

Fixpoint repeat_zero (n : nat) : string :=
  match n with O => "" | S n => String "0" (repeat_zero n) end.

Definition pad (w : nat) (n : Z) : string :=
  let s := Itoa n in repeat_zero (w - String.length s) +:+ s.

(** Year, month and day of a count of days from the zero time's 0001-01-01, in
    the proleptic Gregorian calendar; years are counted from March. *)
Definition civil (days : Z) : Z * Z * Z :=
  let z := days + 306 in
  let era := z / 146097 in
  let doe := z mod 146097 in
  let yoe := (doe - doe / 1460 + doe / 36524 - doe / 146096) / 365 in
  let doy := doe - (365 * yoe + yoe / 4 - yoe / 100) in
  let mp := (5 * doy + 2) / 153 in
  let d := doy - (153 * mp + 2) / 5 + 1 in
  let mo := if mp <? 10 then mp + 3 else mp - 9 in
  (yoe + era * 400 + (if mo <=? 2 then 1 else 0), mo, d).

(** [t.UTC().Format("2006-01-02T15:04:05Z")] *)
Definition FormatUTC (t : Time) : string :=
  let secs := t / Second in
  let '(y, mo, d) := civil (secs / 86400) in
  let s := secs mod 86400 in
  pad 4 y +:+ "-" +:+ pad 2 mo +:+ "-" +:+ pad 2 d +:+ "T" +:+
  pad 2 (s / 3600) +:+ ":" +:+ pad 2 (s / 60 mod 60) +:+ ":" +:+ pad 2 (s mod 60) +:+ "Z".

(** [time.Duration]'s %v for a non-negative whole number of seconds. *)
Definition DurationString (d : Duration) : string :=
  let s := d / Second in
  if s <? 60 then Itoa s +:+ "s"
  else if s <? 3600 then Itoa (s / 60) +:+ "m" +:+ Itoa (s mod 60) +:+ "s"
  else Itoa (s / 3600) +:+ "h" +:+ Itoa (s / 60 mod 60) +:+ "m" +:+ Itoa (s mod 60) +:+ "s".

(** [d.Round(time.Second)] for a non-negative duration: halves round up. *)
Definition RoundSecond (d : Duration) : Duration := (d + 500 * Millisecond) / Second * Second.

Example format_epoch : FormatUTC (719162 * 86400 * Second) = "1970-01-01T00:00:00Z".
Proof. vm_compute. reflexivity. Qed.
Example format_leap : FormatUTC ((719162 * 86400 + 1709251199) * Second) = "2024-02-29T23:59:59Z".
Proof. vm_compute. reflexivity. Qed.

Example duration_ten : DurationString (10 * Minute) = "10m0s".
Proof. vm_compute. reflexivity. Qed.
Example duration_hour : DurationString (RoundSecond (3723 * Second + 600 * Millisecond)) = "1h2m4s".
Proof. vm_compute. reflexivity. Qed.
Example quote_name : String.length (Quote "vk-0") = 6%nat.
Proof. reflexivity. Qed.
