(* ===== verification/Sha256.v ===== *)
(** * SHA-256 and hexadecimal text: [crypto/sha256.Sum256] and [encoding/hex.EncodeToString]

    The digest of FIPS 180-4 on 32-bit words kept as [Z], executable, with its
    test vectors; callers use it to detect that a text changed. *)
From S2P Require Import Prelude GoStd GoFmt.
Local Open Scope Z_scope.

Definition w32 (x : Z) : Z := Z.land x 0xffffffff.
Definition add32 (x y : Z) : Z := w32 (x + y).
Definition rotr (n x : Z) : Z := Z.lor (Z.shiftr x n) (w32 (Z.shiftl x (32 - n))).

(** The constants: the first 32 bits of the fractional parts of the cube roots of
    the first 64 primes and of the square roots of the first eight. *)
Definition primes : list Z :=
  filter (λ p, forallb (λ d, negb (p mod d =? 0)) (seqZ 2 (p - 2)) = true) (seqZ 2 310).
(** The cube root of [x], bit by bit from [2 ^ n] down. *)
Fixpoint cbrt_from (n : nat) (r x : Z) : Z :=
  let r := let c := r + 2 ^ Z.of_nat n in if c * c * c <=? x then c else r in
  match n with O => r | S n => cbrt_from n r x end.

Definition sha_k : list Z := Eval vm_compute in (λ p, w32 (cbrt_from 36 0 (p * 2 ^ 96))) <$> primes.
Definition sha_init : list Z := Eval vm_compute in (λ p, w32 (Z.sqrt (p * 2 ^ 64))) <$> take 8 primes.

(** ** Padding: the bytes, 0x80, zeros, and the length in bits as 64 bits *)
Fixpoint bytes_of (s : string) : list Z :=
  match s with
  | EmptyString => []
  | String a s => Z.of_nat (nat_of_ascii a) :: bytes_of s
  end.

Definition be64 (n : Z) : list Z := (λ i, Z.land (Z.shiftr n (8 * Z.of_nat i)) 0xff) <$> reverse (seq 0 8).

Definition sha_pad (m : list Z) : list Z :=
  let l := length m in
  m ++ [0x80] ++ replicate ((119 - l mod 64) mod 64)%nat 0 ++ be64 (8 * Z.of_nat l).

(** Big-endian words of a byte string whose length is a multiple of 4. *)
Fixpoint words (m : list Z) : list Z :=
  match m with
  | a :: b :: c :: d :: m =>
      Z.lor (Z.lor (Z.shiftl a 24) (Z.shiftl b 16)) (Z.lor (Z.shiftl c 8) d) :: words m
  | _ => []
  end.

(** ** The compression function *)
Definition nthZ (l : list Z) (i : nat) : Z := default 0 (l !! i).

(** The schedule, newest word first. *)
Definition sched_next (w : list Z) : Z :=
  let s0 x := Z.lxor (Z.lxor (rotr 7 x) (rotr 18 x)) (Z.shiftr x 3) in
  let s1 x := Z.lxor (Z.lxor (rotr 17 x) (rotr 19 x)) (Z.shiftr x 10) in
  add32 (add32 (s1 (nthZ w 1)) (nthZ w 6)) (add32 (s0 (nthZ w 14)) (nthZ w 15)).

Definition schedule (block : list Z) : list Z :=
  reverse (Nat.iter 48 (λ w, sched_next w :: w) (reverse block)).

Definition sha_round (st : list Z) (kw : Z * Z) : list Z :=
  match st with
  | [a; b; c; d; e; f; g; h] =>
      let S1 := Z.lxor (Z.lxor (rotr 6 e) (rotr 11 e)) (rotr 25 e) in
      let ch := Z.lxor (Z.land e f) (Z.land (Z.lxor e 0xffffffff) g) in
      let t1 := w32 (h + S1 + ch + kw.1 + kw.2) in
      let S0 := Z.lxor (Z.lxor (rotr 2 a) (rotr 13 a)) (rotr 22 a) in
      let maj := Z.lxor (Z.lxor (Z.land a b) (Z.land a c)) (Z.land b c) in
      [add32 t1 (add32 S0 maj); a; b; c; add32 d t1; e; f; g]
  | _ => st
  end.

Definition sha_block (st block : list Z) : list Z :=
  zip_with add32 st (foldl sha_round st (zip sha_k (schedule block))).

Fixpoint chunks (n : nat) (l : list Z) : list (list Z) :=
  match n with
  | O => []
  | S n => take 16 l :: chunks n (drop 16 l)
  end.

Definition Sum256 (m : string) : list Z :=
  let ws := words (sha_pad (bytes_of m)) in
  foldl sha_block sha_init (chunks (length ws / 16) ws).

(** [hex.EncodeToString] of the digest: eight digits per word. *)
Definition hex_word (w : Z) : list ascii :=
  (λ i, hex_digit (Z.to_nat (Z.land (Z.shiftr w (4 * Z.of_nat i)) 0xf))) <$> reverse (seq 0 8).

Definition sha256_hex (m : string) : string :=
  String.string_of_list_ascii (Sum256 m ≫= hex_word).

(** ** Length *)
Lemma sha_round_length st kw : length st = 8%nat → length (sha_round st kw) = 8%nat.
Proof. intros H. do 9 (destruct st as [|? st]; try done). Qed.

Lemma sha_block_length st block : length st = 8%nat → length (sha_block st block) = 8%nat.
Proof.
  intros H. unfold sha_block. rewrite length_zip_with.
  assert (∀ l s, length s = 8%nat → length (foldl sha_round s l) = 8%nat) as Hr.
  { induction l as [|kw l IH]; intros s Hs; [done|]. simpl. by apply IH, sha_round_length. }
  rewrite Hr by done. lia.
Qed.

Lemma Sum256_length m : length (Sum256 m) = 8%nat.
Proof.
  unfold Sum256. assert (∀ l s, length s = 8%nat → length (foldl sha_block s l) = 8%nat) as Hb.
  { induction l as [|b l IH]; intros s Hs; [done|]. simpl. by apply IH, sha_block_length. }
  by apply Hb.
Qed.

Lemma sha256_hex_nonempty m : sha256_hex m ≠ "".
Proof.
  unfold sha256_hex. pose proof (Sum256_length m). destruct (Sum256 m) as [|w l]; [done|]. done.
Qed.

(** The standard's vectors: the empty text, one block, and a text of two blocks. *)
Example sha256_empty :
  sha256_hex "" = "e3b0c44298fc1c149afbf4c8996fb92427ae41e4649b934ca495991b7852b855".
Proof. by vm_compute. Qed.

Example sha256_abc :
  sha256_hex "abc" = "ba7816bf8f01cfea414140de5dae2223b00361a396177a9cb410ff61f20015ad".
Proof. by vm_compute. Qed.

Example sha256_two_blocks :
  sha256_hex "abcdbcdecdefdefgefghfghighijhijkijkljklmklmnlmnomnopnopq" =
  "248d6a61d20638b8e5c026930c3e6039a33ce45964ff2167f6ecedd419db06c1".
Proof. by vm_compute. Qed.

#[global] Opaque sha256_hex.
