(* ===== verification/Redaction.v ===== *)
(** * Redaction of secrets from logs: [internal/logging/{registry,redact}.go]

    [Registry] counts, per token, the scopes that registered it; the logging
    core scrubs the tokens of a snapshot of it from the message and from every
    field that carries text.  Methods run under the registry's lock, so each is
    one step; the order of a snapshot is that of a Go map. *)
From S2P Require Import Prelude GoStd.
Local Open Scope Z_scope.

Definition MinTokenLen : Z := 8.
Definition RedactedPlaceholder : string := "[REDACTED]".
Definition slen (s : string) : Z := Z.of_nat (String.length s).

(** ** The registry *)
Abbreviation Registry := (gmap string Z).
Definition NewRegistry : Registry := ∅.

Definition Register (token : string) (r : Registry) : Registry :=
  if slen token <? MinTokenLen then r
  else <[token := default 0 (r !! token) + 1]> r.

Definition Forget (token : string) (r : Registry) : Registry :=
  if slen token <? MinTokenLen then r
  else match r !! token with
       | None => r
       | Some c => if c <=? 1 then delete token r else <[token := c - 1]> r
       end.

(** The registration and the cleanup the caller defers. *)
Definition RegisterScoped (token : string) (r : Registry) : Registry * (Registry → Registry) :=
  if slen token <? MinTokenLen then (r, λ r, r)
  else (Register token r, Forget token).

Definition Snapshot `{!MapRange} (r : Registry) : list string := (range_of r).*1.

Definition Len (r : Registry) : Z := Z.of_nat (size r).

(** ** Scrubbing *)

(** [strings.ReplaceAll] for a non-empty [old]: [skip] bytes of a match are
    still to be dropped. *)
Fixpoint replace_from (skip : nat) (s old new : string) : string :=
  match s with
  | EmptyString => ""
  | String c s' =>
      match skip with
      | S k => replace_from k s' old new
      | O =>
          if String.prefix old s then new +:+ replace_from (String.length old - 1) s' old new
          else String c (replace_from 0 s' old new)
      end
  end.
Definition ReplaceAll (s old new : string) : string := replace_from 0 s old new.

Definition redactString (s : string) (tokens : list string) : string :=
  foldl (λ s t, if Contains s t then ReplaceAll s t RedactedPlaceholder else s) s tokens.

(** A log field, by the type tag the core switches on.  An error or Stringer
    carries the text its method returns ([None]: a nil or mistyped interface);
    a reflected value the JSON the encoder gives ([None]: marshalling failed);
    an object marshaler nothing when the interface is nil, else the same.  The types the
    switch does not name carry what the encoder prints for them: the elements of an array,
    the fields of an inlined object, the bytes of a byte string or of a binary value, and
    the digits of numbers, booleans and times. *)
Inductive Field : Type :=
  | StringType (s : string)
  | ErrorType (text : option string)
  | StringerType (text : option string)
  | ReflectType (json : option string)
  | ObjectMarshalerType (obj : option (option string))
  | ArrayMarshalerType (text : string)
  | InlineMarshalerType (text : string)
  | ByteStringType (text : string)
  | BinaryType (text : string)
  | NumberType (text : string).

Definition redactToString (body : option string) (tokens : list string) : Field :=
  match body with
  | None => StringType (RedactedPlaceholder +:+ ":marshal-failed")
  | Some body => StringType (redactString body tokens)
  end.

Definition redactField (f : Field) (tokens : list string) : Field :=
  match f with
  | StringType s => StringType (redactString s tokens)
  | ErrorType (Some e) => ErrorType (Some (redactString e tokens))
  | StringerType (Some s) => StringerType (Some (redactString s tokens))
  | ReflectType json => redactToString json tokens
  | ObjectMarshalerType (Some obj) => redactToString obj tokens
  | _ => f
  end.

Definition redactFields (fields : list Field) (tokens : list string) : list Field :=
  if (len tokens =? 0) || (len fields =? 0) then fields
  else (λ f, redactField f tokens) <$> fields.

(** What [redactingCore.Write] hands to the inner core. *)
Definition Write `{!MapRange} (r : Registry) (message : string) (fields : list Field) :
    string * list Field :=
  let tokens := Snapshot r in
  if len tokens =? 0 then (message, fields)
  else (redactString message tokens, redactFields fields tokens).

(** The fields [redactingCore.With] binds. *)
Definition With `{!MapRange} (r : Registry) (fields : list Field) : list Field :=
  redactFields fields (Snapshot r).

(** The text a field carries to the output, if it carries any. *)
Definition field_text (f : Field) : string :=
  match f with
  | StringType s | ErrorType (Some s) | StringerType (Some s) | ReflectType (Some s)
  | ObjectMarshalerType (Some (Some s))
  | ArrayMarshalerType s | InlineMarshalerType s | ByteStringType s | BinaryType s | NumberType s => s
  | _ => ""
  end.
(** The types whose text the scrub is meant to reach. *)
Definition string_bearing (f : Field) : bool :=
  match f with
  | StringType _ | ErrorType _ | StringerType _ | ReflectType _ | ObjectMarshalerType _ => true
  | ArrayMarshalerType _ | InlineMarshalerType _ | ByteStringType _ | BinaryType _ | NumberType _ => false
  end.

(** ** Occurrences *)
Definition occurs (u s : string) : Prop := ∃ a b, s = a +:+ (u +:+ b).

Lemma str_app_inv a b c d : a +:+ b = c +:+ d →
  (∃ k, c = a +:+ k ∧ b = k +:+ d) ∨ (∃ k, a = c +:+ k ∧ d = k +:+ b).
Proof.
  revert c. induction a as [|x a IH]; intros c H; simpl in H.
  - left. by exists c.
  - destruct c as [|y c]; [right; by exists (String x a)|].
    change (String x (a +:+ b) = String y (c +:+ d)) in H. injection H as -> H.
    apply IH in H as [(k & -> & ->)|(k & -> & ->)]; [left|right]; by exists k.
Qed.

Lemma prefix_cons x u y s :
  String.prefix (String x u) (String y s) = bool_decide (x = y) && String.prefix u s.
Proof.
  change (String.prefix (String x u) (String y s))
    with (if Ascii.ascii_dec x y then String.prefix u s else false).
  destruct (Ascii.ascii_dec x y); by case_bool_decide.
Qed.

Lemma prefix_spec u s : String.prefix u s = true ↔ ∃ b, s = u +:+ b.
Proof.
  revert s. induction u as [|x u IH]; intros s; [split; [by exists s|by destruct s]|].
  destruct s as [|y s]; [split; [done|by intros (b & ?)]|].
  rewrite prefix_cons, andb_true_iff, bool_decide_eq_true, IH. split.
  - intros [-> [b ->]]. by exists b.
  - intros [b Hb]. rewrite str_app_cons in Hb. injection Hb as -> ->. eauto.
Qed.

Lemma Contains_occurs s u : Contains s u = true ↔ occurs u s.
Proof.
  induction s as [|c s IH].
  - change (Contains "" u) with (String.prefix u "" || false). rewrite orb_false_r, prefix_spec. split.
    + intros [b Hb]. by exists "", b.
    + intros (a & b & H). exists b. destruct a; [done|by rewrite str_app_cons in H].
  - change (Contains (String c s) u) with (String.prefix u (String c s) || Contains s u).
    rewrite orb_true_iff, IH, prefix_spec. split.
    + intros [[b Hb]|(a & b & ->)]; [by exists "", b|by exists (String c a), b].
    + intros ([|x a] & b & H); [left; by exists b|right]. rewrite str_app_cons in H.
      injection H as -> ->. by exists a, b.
Qed.

Lemma occurs_app_l u x y : occurs u x → occurs u (x +:+ y).
Proof. intros (a & b & ->). exists a, (b +:+ y). by autorewrite with gostr. Qed.

Lemma occurs_app_r u x y : occurs u y → occurs u (x +:+ y).
Proof. intros (a & b & ->). exists (x +:+ a), b. by autorewrite with gostr. Qed.

Lemma has_byte_mid c x y : has_byte c (x +:+ String c y) = true.
Proof. rewrite has_byte_app, has_byte_cons, bool_decide_eq_true_2 by done. by rewrite orb_true_r. Qed.

(** A byte the needle does not have separates its occurrences. *)
Lemma occurs_sep u c x y :
  has_byte c u = false → occurs u (x +:+ String c y) → occurs u x ∨ occurs u y.
Proof.
  intros Hc (a & b & H). apply str_app_inv in H as [(k & -> & Hk)|(k & -> & Hk)].
  - destruct k as [|z k]; rewrite ?str_app_nil_l, ?str_app_cons in Hk.
    + destruct u as [|z u]; [left; exists x, ""; by autorewrite with gostr|].
      rewrite str_app_cons in Hk. injection Hk as <- _.
      by rewrite has_byte_cons, bool_decide_eq_true_2 in Hc.
    + injection Hk as <- ->. right. by exists k, b.
  - symmetry in Hk. apply str_app_inv in Hk as [(j & -> & Hj)|(j & -> & Hj)].
    + destruct j as [|z j]; rewrite ?str_app_nil_l, ?str_app_cons in Hj.
      * left. exists a, "". by autorewrite with gostr.
      * injection Hj as <- ->. by rewrite has_byte_mid in Hc.
    + left. by exists a, j.
Qed.

(** ** Replacement *)
Lemma replace_from_app k x s old new :
  String.length x = k → replace_from k (x +:+ s) old new = replace_from 0 s old new.
Proof.
  revert k. induction x as [|c x IH]; intros k <-; [done|].
  rewrite str_app_cons. simpl. by apply IH.
Qed.

Lemma ReplaceAll_match old rest new :
  old ≠ "" → ReplaceAll (old +:+ rest) old new = new +:+ ReplaceAll rest old new.
Proof.
  intros Hne. destruct old as [|c old]; [done|]. unfold ReplaceAll. rewrite str_app_cons.
  change (replace_from 0 (String c (old +:+ rest)) (String c old) new) with
    (if String.prefix (String c old) (String c (old +:+ rest))
     then new +:+ replace_from (String.length (String c old) - 1) (old +:+ rest) (String c old) new
     else String c (replace_from 0 (old +:+ rest) (String c old) new)).
  rewrite (proj2 (prefix_spec _ _)) by (by exists rest).
  f_equal. apply replace_from_app. simpl. lia.
Qed.

Lemma ReplaceAll_skip c s old new :
  String.prefix old (String c s) = false →
  ReplaceAll (String c s) old new = String c (ReplaceAll s old new).
Proof.
  intros H. unfold ReplaceAll.
  change (replace_from 0 (String c s) old new) with
    (if String.prefix old (String c s)
     then new +:+ replace_from (String.length old - 1) s old new
     else String c (replace_from 0 s old new)).
  by rewrite H.
Qed.

(** A token the placeholders cannot fake: no brackets, and no word of theirs. *)
Definition plain_token (t : string) : Prop :=
  MinTokenLen <= slen t ∧ has_byte "[" t = false ∧ has_byte "]" t = false ∧ t ≠ "REDACTED" ∧
  Contains ":marshal-failed" t = false.

Lemma plain_token_nonempty t : plain_token t → t ≠ "".
Proof. intros (Hl & _) ->. unfold slen, MinTokenLen in Hl. simpl in Hl. lia. Qed.

Lemma not_in_placeholder u x y :
  plain_token u → occurs u (x +:+ (RedactedPlaceholder +:+ y)) → occurs u x ∨ occurs u y.
Proof.
  intros (Hl & Ho & Hc & Hne & _) H.
  change (RedactedPlaceholder +:+ y) with (String "[" ("REDACTED" +:+ String "]" y)) in H.
  apply occurs_sep in H as [H|H]; [by left| |done].
  apply occurs_sep in H as [(a & b & H)|H]; [|by right|done].
  destruct Hne. pose proof (f_equal String.length H) as HL. rewrite !str_length_app in HL.
  unfold slen, MinTokenLen in Hl. simpl in HL.
  destruct a; [|simpl in HL; lia]. destruct b; [|simpl in HL; lia].
  by autorewrite with gostr in H.
Qed.

(** Scrubbing one token makes no new occurrence of another ... *)
Lemma ReplaceAll_no_new t u s pre :
  t ≠ "" → plain_token u →
  occurs u (pre +:+ ReplaceAll s t RedactedPlaceholder) → occurs u (pre +:+ s).
Proof.
  intros Ht Hu. remember (String.length s) as n eqn:Hn. revert s pre Hn.
  induction n as [n IH] using lt_wf_ind. intros s pre -> H.
  destruct s as [|c s]; [done|].
  destruct (String.prefix t (String c s)) eqn:Hp.
  - apply prefix_spec in Hp as [rest Hr]. rewrite Hr in H |- *.
    rewrite ReplaceAll_match in H by done.
    apply not_in_placeholder in H as [H|H]; [by apply occurs_app_l| |done].
    do 2 apply occurs_app_r. apply (IH (String.length rest)) with (pre := ""); [|done|done].
    rewrite Hr, str_length_app. destruct t; [done|simpl; lia].
  - rewrite ReplaceAll_skip in H by done.
    replace (pre +:+ String c s) with ((pre +:+ String c "") +:+ s) by (by rewrite str_app_assoc).
    apply (IH (String.length s)); [simpl; lia|done|by rewrite str_app_assoc].
Qed.

(** ... and leaves none of its own. *)
Lemma ReplaceAll_removes t s pre :
  plain_token t →
  (∀ a b, pre +:+ s = a +:+ (t +:+ b) → String.length pre ≤ String.length a)%nat →
  ¬ occurs t (pre +:+ ReplaceAll s t RedactedPlaceholder).
Proof.
  intros Ht. pose proof (plain_token_nonempty t Ht) as Hne.
  remember (String.length s) as n eqn:Hn. revert s pre Hn.
  induction n as [n IH] using lt_wf_ind. intros s pre -> Hpre H.
  assert (Hnot : ¬ occurs t pre).
  { intros (a & b & ->). specialize (Hpre a (b +:+ s)). rewrite !str_app_assoc in Hpre.
    specialize (Hpre eq_refl). rewrite !str_length_app in Hpre.
    destruct t; [done|simpl in Hpre; lia]. }
  destruct s as [|c s]; [by rewrite str_app_nil_r in H|].
  destruct (String.prefix t (String c s)) eqn:Hp.
  - apply prefix_spec in Hp as [rest Hr]. rewrite Hr, ReplaceAll_match in H by done.
    apply not_in_placeholder in H as [H|H]; [done| |done].
    apply (IH (String.length rest)) with (s := rest) (pre := ""); [|done| |done].
    + rewrite Hr, str_length_app. destruct t; [done|simpl; lia].
    + intros. simpl. lia.
  - rewrite ReplaceAll_skip in H by done.
    apply (IH (String.length s)) with (s := s) (pre := pre +:+ String c "");
      [simpl; lia|done| |by rewrite str_app_assoc].
    intros a b Hab. rewrite str_app_assoc in Hab. pose proof (Hpre _ _ Hab) as Hle.
    rewrite str_length_app. simpl. destruct (decide (String.length a = String.length pre)) as [E|]; [|lia].
    apply str_app_inv in Hab as [(k & -> & Hk)|(k & -> & Hk)]; rewrite str_length_app in E;
      (destruct k; [|simpl in E; lia]); rewrite str_app_nil_l in Hk;
      (assert (String.prefix t (String c s) = true); [|congruence]);
      apply prefix_spec; exists b; by rewrite ?str_app_nil_l, <- ?Hk, ?Hk.
Qed.

Lemma redactString_absent tokens s u :
  (∀ t, t ∈ tokens → plain_token t) → plain_token u →
  ¬ occurs u s ∨ u ∈ tokens → ¬ occurs u (redactString s tokens).
Proof.
  intros Ht Hu. unfold redactString. revert s. induction tokens as [|t tokens IH]; intros s Ho.
  - simpl. destruct Ho as [?|Hin]; [done|by apply not_elem_of_nil in Hin].
  - simpl. assert (Hpt : plain_token t) by (apply Ht; left). apply IH; [set_solver|].
    destruct Ho as [Ho|[->|Hin]%elem_of_cons]; [left|left|by right].
    + case_match; [|done]. intros Hoc. apply Ho.
      by apply (ReplaceAll_no_new t u s "" (plain_token_nonempty t Hpt) Hu).
    + case_match eqn:Hc; [|by rewrite <- Contains_occurs, Hc].
      apply (ReplaceAll_removes t s "" Hpt). intros. simpl. lia.
Qed.

Lemma redactField_absent f tokens u :
  (∀ t, t ∈ tokens → plain_token t) → u ∈ tokens → string_bearing f = true →
  ¬ occurs u (field_text (redactField f tokens)).
Proof.
  intros Ht Hu Hf. pose proof (Ht u Hu) as Hpu.
  assert (He : ¬ occurs u "").
  { intros (a & b & H). apply (plain_token_nonempty u Hpu). by destruct a, u. }
  assert (Hr : ∀ s, ¬ occurs u (redactString s tokens)) by (intros s; apply redactString_absent; auto).
  assert (Hb : ∀ body, ¬ occurs u (field_text (redactToString body tokens))).
  { intros [body|]; simpl; [apply Hr|]. intros H.
    apply (not_in_placeholder u "") in H as [H|H]; [by apply He| |done].
    apply Contains_occurs in H. destruct Hpu as (_ & _ & _ & _ & Hm). by rewrite Hm in H. }
  destruct f as [s|[s|]|[s|]|j|[o|]| | | | |]; simpl; auto; discriminate.
Qed.

(** ** Sequences of registry operations *)
Inductive op : Type := OpRegister (t : string) | OpForget (t : string).

Definition apply_op (r : Registry) (o : op) : Registry :=
  match o with OpRegister t => Register t r | OpForget t => Forget t r end.
Definition run_ops (ops : list op) : Registry := foldl apply_op NewRegistry ops.

Definition registers (t : string) (o : op) : bool :=
  match o with OpRegister u => bool_decide (u = t) | _ => false end.
Definition forgets (t : string) (o : op) : bool :=
  match o with OpForget u => bool_decide (u = t) | _ => false end.

(** Every cleanup runs after the registration it belongs to. *)
Definition scoped (t : string) (ops : list op) : Prop :=
  ∀ k, (count (forgets t) (take k ops) ≤ count (registers t) (take k ops))%nat.

Lemma scoped_prefix t ops o : scoped t (ops ++ [o]) → scoped t ops.
Proof.
  intros H k. specialize (H (k `min` length ops)%nat).
  rewrite take_app_le in H by lia. by rewrite <- firstn_firstn, firstn_all in H.
Qed.

Definition live (t : string) (ops : list op) : Z :=
  Z.of_nat (count (registers t) ops) - Z.of_nat (count (forgets t) ops).

Lemma Register_lookup t u r :
  Register u r !! t =
    if bool_decide (u = t) && (MinTokenLen <=? slen t) then Some (default 0 (r !! t) + 1) else r !! t.
Proof.
  unfold Register. case_bool_decide as E; simpl.
  - subst u. rewrite Z.leb_antisym. destruct (slen t <? MinTokenLen); simpl; [done|].
    by rewrite lookup_insert_eq.
  - case_match; [done|]. by rewrite lookup_insert_ne.
Qed.

Lemma Forget_lookup t u r :
  Forget u r !! t =
    if bool_decide (u = t) && (MinTokenLen <=? slen t) then
      match r !! t with Some c => if c <=? 1 then None else Some (c - 1) | None => None end
    else r !! t.
Proof.
  unfold Forget. case_bool_decide as E; simpl.
  - subst u. rewrite Z.leb_antisym. destruct (slen t <? MinTokenLen); simpl; [done|].
    destruct (r !! t) as [c|] eqn:Hr; [|done].
    case_match; by rewrite ?lookup_delete_eq, ?lookup_insert_eq.
  - case_match; [done|]. destruct (r !! u); [|done].
    case_match; by rewrite ?lookup_delete_ne, ?lookup_insert_ne.
Qed.

Lemma live_app t ops o :
  live t (ops ++ [o]) = live t ops + (if registers t o then 1 else 0) - (if forgets t o then 1 else 0).
Proof. unfold live. rewrite !count_app. simpl. destruct (registers t o), (forgets t o); lia. Qed.

Lemma scoped_live t ops : scoped t ops → 0 <= live t ops.
Proof. intros H. specialize (H (length ops)). rewrite firstn_all in H. unfold live. lia. Qed.

Lemma run_ops_lookup t ops :
  scoped t ops →
  run_ops ops !! t =
    if (MinTokenLen <=? slen t) && (0 <? live t ops) then Some (live t ops) else None.
Proof.
  induction ops as [|o ops IH] using rev_ind; intros Hs.
  { unfold live. simpl. rewrite andb_false_r. apply lookup_empty. }
  pose proof (scoped_live _ _ Hs) as Hfull. pose proof (scoped_live _ _ (scoped_prefix _ _ _ Hs)).
  specialize (IH (scoped_prefix _ _ _ Hs)). rewrite live_app in *.
  unfold run_ops in *. rewrite foldl_app. simpl.
  destruct o as [u|u]; simpl in *; rewrite ?Register_lookup, ?Forget_lookup, IH;
    destruct (MinTokenLen <=? slen t); rewrite ?andb_false_r, ?andb_true_r; simpl; try done;
    destruct (bool_decide (u = t)); simpl; rewrite ?Z.add_0_r, ?Z.sub_0_r in *; try done;
    destruct (Z.ltb_spec 0 (live t ops)); simpl; go_crush; f_equal; lia.
Qed.

Lemma run_ops_dom ops t c :
  run_ops ops !! t = Some c → OpRegister t ∈ ops ∧ MinTokenLen <= slen t.
Proof.
  revert c. induction ops as [|o ops IH] using rev_ind; intros c H;
    [unfold run_ops, NewRegistry in H; simpl in H; by rewrite lookup_empty in H|].
  unfold run_ops in *. rewrite foldl_app in H. simpl in H.
  destruct o as [u|u]; simpl in H; rewrite ?Register_lookup, ?Forget_lookup in H;
    destruct (bool_decide (u = t) && (MinTokenLen <=? slen t)) eqn:E; bool_to_prop; subst.
  - set_solver.
  - apply IH in H. set_solver.
  - destruct (foldl apply_op NewRegistry ops !! t) as [c'|] eqn:Hc; [|done].
    destruct (IH c' eq_refl). set_solver.
  - apply IH in H. set_solver.
Qed.

Lemma Snapshot_elem `{!MapRange} r t : t ∈ Snapshot r ↔ is_Some (r !! t).
Proof.
  unfold Snapshot. rewrite list_elem_of_fmap. split.
  - intros ([k c] & -> & Hr). apply elem_of_range_of in Hr. eauto.
  - intros [c Hc]. exists (t, c). split; [done|]. by apply elem_of_range_of.
Qed.

(** ** Scopes *)
Definition reg_wf (r : Registry) : Prop := ∀ t c, r !! t = Some c → 1 <= c.

Lemma NewRegistry_wf : reg_wf NewRegistry.
Proof. intros t c Hc. unfold NewRegistry in Hc. by rewrite lookup_empty in Hc. Qed.

Lemma Register_wf t r : reg_wf r → reg_wf (Register t r).
Proof.
  intros H u c. rewrite Register_lookup. case_match; [|apply H]. intros [= <-].
  destruct (r !! u) as [c'|] eqn:E; simpl; [apply H in E|]; lia.
Qed.

Lemma RegisterScoped_wf t r : reg_wf r → reg_wf (RegisterScoped t r).1.
Proof. unfold RegisterScoped. intros H. case_match; [done|]. by apply Register_wf. Qed.

(** A cleanup run on the registry its scope left behind undoes the registration. *)
Lemma scope_restores t r : reg_wf r → (RegisterScoped t r).2 (RegisterScoped t r).1 = r.
Proof.
  intros H. unfold RegisterScoped. case_match; [done|]. simpl. apply map_eq. intros u.
  rewrite Forget_lookup, Register_lookup. case_match; [|done]. bool_to_prop. subst u.
  destruct (r !! t) as [c|] eqn:E; simpl; [apply H in E|]; go_crush. f_equal. lia.
Qed.

(** C33: A secret is scrubbed from every log record while anyone uses it.  Let [t] be a token of
    at least eight bytes ([MinTokenLen]; shorter ones are never registered), and let no
    registered token contain a square bracket, be the word REDACTED or be a piece of
    ":marshal-failed" (the texts of the placeholders).  After any interleaving
    of [Register] and [Forget] calls of all scopes, in which the cleanups of [t] follow their
    registrations and at least one of its scopes is still open, [redactingCore.Write] hands on
    as many fields as it was given, in their order; the message does not contain [t], nor does
    the text of any field that came as a string, an error, a Stringer, a reflected value or
    an object, whatever the order of the token snapshot, and although other scopes of the
    same token have been closed.  Fields of the other types (arrays, byte strings, binary
    values, inlined objects, numbers) are handed on as they came, unscrubbed. *)
Theorem live_secret_never_logged `{!MapRange} ops t message fields :
  (∀ u, OpRegister u ∈ ops → MinTokenLen <= slen u → plain_token u) →
  scoped t ops → MinTokenLen <= slen t → 0 < live t ops →
  let out := Write (run_ops ops) message fields in
  Contains out.1 t = false ∧
  Forall2 (λ f f', if string_bearing f then Contains (field_text f') t = false else f' = f) fields out.2.
Proof.
  intros Hplain Hs Hl Hlive.
  assert (Hin : t ∈ Snapshot (run_ops ops)).
  { apply Snapshot_elem. rewrite run_ops_lookup by done.
    rewrite (proj2 (Z.leb_le _ _) Hl), (proj2 (Z.ltb_lt _ _) Hlive). by eexists. }
  assert (Hall : ∀ u, u ∈ Snapshot (run_ops ops) → plain_token u).
  { intros u [c Hu]%Snapshot_elem. apply run_ops_dom in Hu as [??]. auto. }
  assert (Hno : ∀ s, ¬ occurs t s → Contains s t = false).
  { intros s Hs'. apply not_true_iff_false. by rewrite Contains_occurs. }
  unfold Write. destruct (len (Snapshot (run_ops ops)) =? 0) eqn:E.
  { apply Z.eqb_eq in E. unfold len in E. destruct (Snapshot (run_ops ops)); [|done].
    by apply not_elem_of_nil in Hin. }
  split; simpl.
  - apply Hno, redactString_absent; auto.
  - unfold redactFields. rewrite E. simpl. destruct (len fields =? 0) eqn:E2.
    + apply Z.eqb_eq in E2. unfold len in E2. by destruct fields.
    + apply Forall2_fmap_r, Forall_Forall2_diag, Forall_true. intros f.
      destruct (string_bearing f) eqn:Ef; [by apply Hno, redactField_absent|by destruct f].
Qed.

Definition demo_ops : list op :=
  [OpRegister "s3cret-password"; OpRegister "other-tenant-pw"; OpRegister "s3cret-password";
   OpForget "s3cret-password"; OpRegister "short"].

Definition demo_fields : list Field :=
  [StringType "s3cret-password"; ErrorType (Some "bad: s3cret-password"); ReflectType None; NumberType "7"].
Lemma live_secret_never_logged_witness :
  let out := @Write range_backward (run_ops demo_ops) "AUTH s3cret-password failed"
               demo_fields in
  Contains out.1 "s3cret-password" = false ∧
  Forall2 (λ f f', if string_bearing f then Contains (field_text f') "s3cret-password" = false else f' = f) demo_fields out.2.
Proof.
  apply live_secret_never_logged.
  - intros u Hu Hl. unfold demo_ops in Hu.
    repeat (apply elem_of_cons in Hu as [Hu|Hu];
      [try discriminate Hu; injection Hu as ->; vm_compute in Hl; first [by destruct Hl|by repeat split]|]).
    by apply not_elem_of_nil in Hu.
  - intros k. do 6 (destruct k as [|k]; [vm_compute; lia|]). vm_compute. lia.
  - by vm_compute.
  - by vm_compute.
Defined.

(** The scrub does not reach every field shape: a secret that is an element of a logged list
    of strings, or a byte string, is written as it is. *)
Theorem array_field_unscrubbed `{!MapRange} r message text :
  (Write r message [ArrayMarshalerType text; ByteStringType text]).2 = [ArrayMarshalerType text; ByteStringType text].
Proof. unfold Write, redactFields. by destruct (len (Snapshot r) =? 0). Qed.

(** The result of a scrub depends on the order of the snapshot when one token is a
    prefix of another, and in one order the rest of the longer secret stays readable:
    with the same registry, [Write] gives two different messages under two iteration
    orders of the same map, and one of them still shows the tail of the longer token. *)
Theorem redact_order_leaks_tail :
  ∃ (r : Registry) (m secret tail : string),
    is_Some (r !! secret) ∧ Contains secret tail = true ∧
    (@Write range_forward r m []).1 ≠ (@Write range_backward r m []).1 ∧
    (Contains (@Write range_forward r m []).1 tail = true ∨
     Contains (@Write range_backward r m []).1 tail = true).
Proof.
  exists (Register "tenant-pw" (Register "tenant-pw-0451-rotated" NewRegistry)),
    "AUTH tenant-pw-0451-rotated", "tenant-pw-0451-rotated", "-0451-rotated".
  split; [by eexists; vm_compute|]. split; [by vm_compute|].
  split; [vm_compute; congruence|]. vm_compute. tauto.
Qed.
