(* ===== verification/Resp.v ===== *)
(** * RESP-2 wire format: [internal/resp/resp.go] and the reader of
    [internal/sentinel/conn.go]

    The reader consumes a byte stream (the bytes the peer has sent before the
    connection ends or its deadline passes).  Its recursion is on fuel; each
    reply consumes at least its header's newline, so the stream's length plus
    one is always enough ([decode] and [readReply_total]). *)
From S2P Require Import Prelude GoStd.
Local Open Scope Z_scope.

(** ** Encoding *)
Definition CRLF : string := String "013" (String "010" "").
Definition MaxBulkSize : Z := Z.shiftl 1 20.

Definition slen (s : string) : Z := Z.of_nat (String.length s).

Definition encode_bulk (a : string) : string :=
  "$" +:+ Itoa (slen a) +:+ CRLF +:+ a +:+ CRLF.

Definition EncodeCommand (args : list string) : string :=
  "*" +:+ Itoa (len args) +:+ CRLF +:+ foldr (λ a b, encode_bulk a +:+ b) "" args.

(** ** Replies, as the dynamic types [readReply] returns in an [any] *)
#[warning="-register-all"]
Inductive reply : Type :=
  | RStr (s : string)
  | RInt (n : Z)
  | RArr (l : list reply).

Inductive rerr : Type :=
  | EEof                        (* the stream ended inside a header *)
  | EEmptyHeader
  | EServer (body : string)     (* "server: <body>" *)
  | EBadInteger (body : string)
  | EBadBulkLen (body : string)
  | EBulkCap (n : Z)
  | EBulkBody
  | EBulkTrailer
  | EBadArrayLen (body : string)
  | EElem (i : Z) (e : rerr)    (* "array element <i>: ..." *)
  | EPrefix (c : ascii) (line : string).

(** [Panic] is a run-time panic of the reading goroutine; [OutOfFuel] belongs
    to the model only. *)
Inductive outcome (A : Type) : Type :=
  | Done (a : A)
  | Fail (e : rerr)
  | Panic
  | OutOfFuel.
Arguments Done {A} a.
Arguments Fail {A} e.
Arguments Panic {A}.
Arguments OutOfFuel {A}.

(** [make([]any, n)] panics when the backing array (16 bytes an element) would
    exceed the runtime's [maxAlloc], 2^48 bytes on a 64-bit platform. *)
Definition maxSliceLen : Z := 2 ^ 44.

(** [rd.ReadString('\n')]: the line with its newline, and what follows it. *)
Fixpoint ReadLine (s : string) : option (string * string) :=
  match s with
  | EmptyString => None
  | String c s =>
      if bool_decide (c = "010"%char) then Some (String c "", s)
      else '(l, r) ← ReadLine s; Some (String c l, r)
  end.

Section elems.
Context (rd : string → outcome (reply * string)).

(** The loop [for i := range n] over the elements of an array. *)
Fixpoint readElems (fuel : nat) (i n : Z) (s : string) (acc : list reply) :
    outcome (reply * string) :=
  if i <? n then
    match fuel with
    | O => OutOfFuel
    | S fuel =>
        match rd s with
        | Done (el, s') => readElems fuel (i + 1) n s' (acc ++ [el])
        | Fail e => Fail (EElem i e)
        | Panic => Panic
        | OutOfFuel => OutOfFuel
        end
    end
  else Done (RArr acc, s).
End elems.

(** The bulk-string arm: the declared length is capped before allocation. *)
Definition readBulk (body rest : string) : outcome (reply * string) :=
  match Atoi body with
  | None => Fail (EBadBulkLen body)
  | Some n =>
      if n <? 0 then Done (RStr "", rest)
      else if MaxBulkSize <? n then Fail (EBulkCap n)
      else if slen rest <? n then Fail EBulkBody
      else
        let buf := str_take (Z.to_nat n) rest in
        let rest' := str_drop (Z.to_nat n) rest in
        if slen rest' <? 2 then Fail EBulkTrailer
        else Done (RStr buf, str_drop 2 rest')
  end.

Fixpoint readReply (fuel : nat) (s : string) : outcome (reply * string) :=
  match fuel with
  | O => OutOfFuel
  | S fuel =>
      match ReadLine s with
      | None => Fail EEof
      | Some (line, rest) =>
          match TrimRightCRLF line with
          | EmptyString => Fail EEmptyHeader
          | String prefix body =>
              if bool_decide (prefix = "+"%char) then Done (RStr body, rest)
              else if bool_decide (prefix = "-"%char) then Fail (EServer body)
              else if bool_decide (prefix = ":"%char) then
                match ParseInt64 body with
                | None => Fail (EBadInteger body)
                | Some n => Done (RInt n, rest)
                end
              else if bool_decide (prefix = "$"%char) then readBulk body rest
              else if bool_decide (prefix = "*"%char) then
                match Atoi body with
                | None => Fail (EBadArrayLen body)
                | Some n =>
                    if n <? 0 then Done (RArr [], rest)
                    else if maxSliceLen <? n then Panic
                    else readElems (readReply fuel) fuel 0 n rest []
                end
              else Fail (EPrefix prefix (String prefix body))
          end
      end
  end.

(** The reader with the fuel that always suffices. *)
Definition decode (s : string) : outcome (reply * string) :=
  readReply (S (String.length s)) s.

Definition nl : string := String "010" "".
Example decode_simple : decode ("+OK" +:+ CRLF +:+ "x") = Done (RStr "OK", "x").
Proof. vm_compute. reflexivity. Qed.
Example decode_err : decode ("-NOQUORUM 1 usable" +:+ CRLF) = Fail (EServer "NOQUORUM 1 usable").
Proof. vm_compute. reflexivity. Qed.
Example decode_nested : decode ("*2" +:+ CRLF +:+ ":7" +:+ CRLF +:+ "*1" +:+ CRLF +:+ "$-1" +:+ CRLF)
  = Done (RArr [RInt 7; RArr [RStr ""]], "").
Proof. vm_compute. reflexivity. Qed.
Example decode_cap : decode ("$1048577" +:+ CRLF) = Fail (EBulkCap 1048577).
Proof. vm_compute. reflexivity. Qed.
Example encode_ping : EncodeCommand ["PING"] = "*1" +:+ CRLF +:+ "$4" +:+ CRLF +:+ "PING" +:+ CRLF.
Proof. vm_compute. reflexivity. Qed.

(** ** Subscription frames: [readPubsubMessage] *)
Record pubsubMessage := { Channel : string; Payload : string }.
Definition noMessage : pubsubMessage := {| Channel := ""; Payload := "" |}.

(** The type assertion [x, _ := v.(string)]. *)
Definition as_string (r : reply) : string := match r with RStr s => s | _ => "" end.

Definition pubsubOfReply (r : reply) : result pubsubMessage :=
  match r with
  | RArr [] => Ok noMessage
  | RArr (k :: _ as arr) =>
      if bool_decide (as_string k = "pmessage") then
        match arr with
        | _ :: _ :: channel :: payload :: _ =>
            Ok {| Channel := as_string channel; Payload := as_string payload |}
        | _ => Err "short pmessage reply"
        end
      else if bool_decide (as_string k = "message") then
        match arr with
        | _ :: channel :: payload :: _ =>
            Ok {| Channel := as_string channel; Payload := as_string payload |}
        | _ => Err "short message reply"
        end
      else Ok noMessage
  | _ => Ok noMessage
  end.

(** ** Lemmas: the stream *)
Lemma ReadLine_length s l r :
  ReadLine s = Some (l, r) → (String.length l + String.length r = String.length s ∧ 0 < String.length l)%nat.
Proof.
  revert l r. induction s as [|c s IH]; simpl; [done|]. intros l r.
  case_bool_decide; [intros [= <- <-]; simpl; lia|].
  destruct (ReadLine s) as [[l' r']|]; simpl; [|done].
  intros [= <- <-]. destruct (IH l' r' eq_refl). simpl. lia.
Qed.

Lemma str_length_drop n s : String.length (str_drop n s) = (String.length s - n)%nat.
Proof. revert s. induction n as [|n IH]; intros [|c s]; simpl; [done..|]. by rewrite IH. Qed.

Lemma readBulk_shrinks body rest r s' :
  readBulk body rest = Done (r, s') → (String.length s' ≤ String.length rest)%nat.
Proof.
  unfold readBulk. intros H. go_cases; [lia|]. rewrite !str_length_drop. lia.
Qed.

Lemma readBulk_fuel body rest : readBulk body rest ≠ OutOfFuel ∧ readBulk body rest ≠ Panic.
Proof. unfold readBulk. split; repeat case_match; done. Qed.

(** One reply, read with fuel above the stream's length: it is read within the
    fuel and leaves a strictly shorter stream. *)
Definition reads_within (fuel : nat) (o : outcome (reply * string)) (s : string) : Prop :=
  o ≠ OutOfFuel ∧ ∀ r s', o = Done (r, s') → (String.length s' < String.length s)%nat.

Lemma readElems_within rd bound :
  (∀ s, (String.length s < bound)%nat → reads_within bound (rd s) s) →
  ∀ fuel i n s acc, (String.length s < fuel)%nat → (fuel ≤ bound)%nat →
    readElems rd fuel i n s acc ≠ OutOfFuel ∧
    ∀ r s', readElems rd fuel i n s acc = Done (r, s') → (String.length s' ≤ String.length s)%nat.
Proof.
  intros Hrd. induction fuel as [|fuel IH]; intros i n s acc Hs Hb; [lia|].
  simpl. destruct (i <? n); [|split; [done|by intros ?? [= <- <-]]].
  destruct (Hrd s) as [Hf Hd]; [lia|].
  destruct (rd s) as [[el s1]|e| |] eqn:E; [|done..].
  specialize (Hd _ _ eq_refl).
  destruct (IH (i + 1) n s1 (acc ++ [el])) as [H1 H2]; [lia..|].
  split; [done|]. intros r s' H. specialize (H2 _ _ H). lia.
Qed.

Lemma readReply_within fuel s :
  (String.length s < fuel)%nat → reads_within fuel (readReply fuel s) s.
Proof.
  revert s. induction fuel as [|fuel IH]; intros s Hs; [lia|]. unfold reads_within. simpl.
  destruct (ReadLine s) as [[line rest]|] eqn:EL; [|done].
  apply ReadLine_length in EL as [EL1 EL2].
  destruct (TrimRightCRLF line) as [|prefix body]; [done|].
  case_bool_decide; [split; [done|intros ?? [= <- <-]; lia]|].
  case_bool_decide; [done|].
  case_bool_decide; [destruct (ParseInt64 body); split; try done; intros ?? [= <- <-]; lia|].
  case_bool_decide.
  { split; [apply readBulk_fuel|]. intros r s' Hb%readBulk_shrinks. lia. }
  case_bool_decide; [|done].
  destruct (Atoi body) as [n|]; [|done].
  destruct (n <? 0); [split; [done|intros ?? [= <- <-]; lia]|].
  destruct (maxSliceLen <? n); [done|].
  destruct (readElems_within (readReply fuel) fuel (λ s Hs, IH s Hs) fuel 0 n rest [])
    as [Hf Hd]; [lia..|].
  split; [done|]. intros r s' Hr. specialize (Hd _ _ Hr). lia.
Qed.

(** Fuel is only a bound: once a reply is read, more of it changes nothing. *)
Lemma readElems_mono rd1 rd2 fuel1 fuel2 i n s acc :
  (∀ s, rd1 s ≠ OutOfFuel → rd2 s = rd1 s) → (fuel1 ≤ fuel2)%nat →
  readElems rd1 fuel1 i n s acc ≠ OutOfFuel →
  readElems rd2 fuel2 i n s acc = readElems rd1 fuel1 i n s acc.
Proof.
  intros Hrd. revert fuel2 i s acc.
  induction fuel1 as [|f1 IH]; intros [|f2] i s acc Hle; simpl;
    destruct (i <? n); try done; try lia.
  intros H. rewrite Hrd by (by destruct (rd1 s)).
  destruct (rd1 s) as [[el s']|e| |]; try done. apply IH; [lia|done].
Qed.

Lemma readReply_mono fuel1 fuel2 s :
  (fuel1 ≤ fuel2)%nat → readReply fuel1 s ≠ OutOfFuel → readReply fuel2 s = readReply fuel1 s.
Proof.
  revert fuel2 s. induction fuel1 as [|f1 IH]; intros [|f2] s Hle; simpl; try done; try lia.
  destruct (ReadLine s) as [[line rest]|]; [|done].
  destruct (TrimRightCRLF line) as [|prefix body]; [done|].
  do 4 (case_bool_decide; [done|]). case_bool_decide; [|done].
  destruct (Atoi body) as [n|]; [|done].
  destruct (n <? 0); [done|]. destruct (maxSliceLen <? n); [done|].
  apply readElems_mono; [|lia]. intros s'. apply IH. lia.
Qed.

Lemma decode_eq fuel s :
  (String.length s < fuel)%nat → readReply fuel s = decode s.
Proof.
  intros H. unfold decode. apply readReply_mono; [lia|].
  apply readReply_within. lia.
Qed.

(** ** Lemmas: a header line *)
Lemma ReadLine_app s rest :
  has_byte "010" s = false → ReadLine (s +:+ CRLF +:+ rest) = Some (s +:+ CRLF, rest).
Proof.
  induction s as [|c s IH]; [done|]. rewrite has_byte_cons. intros [Hc Hs]%orb_false_iff.
  rewrite str_app_cons. simpl. rewrite Hc. by rewrite IH.
Qed.

Lemma TrimRightCRLF_app s :
  has_byte "010" s = false → has_byte "013" s = false → TrimRightCRLF (s +:+ CRLF) = s.
Proof.
  induction s as [|c s IH]; [done|]. rewrite !has_byte_cons.
  intros [Hn Hs]%orb_false_iff [Hr Hs']%orb_false_iff.
  rewrite str_app_cons. simpl. rewrite IH by done.
  destruct s; [|done]. unfold is_crlf. by rewrite Hn, Hr.
Qed.

Lemma Itoa_no_nl n : has_byte "010" (Itoa n) = false ∧ has_byte "013" (Itoa n) = false.
Proof.
  split; apply has_byte_Itoa; try done; intros d Hd;
    (destruct d as [|p]; [done|]); do 4 (destruct p as [p|p|]; try done; try lia).
Qed.

(** What reading a header [c<n>\r\n] does, for any reader of the rest. *)
Lemma header_line c n rest :
  c ≠ "010"%char → c ≠ "013"%char →
  ReadLine (String c (Itoa n +:+ CRLF +:+ rest)) = Some (String c (Itoa n) +:+ CRLF, rest)
  ∧ TrimRightCRLF (String c (Itoa n) +:+ CRLF) = String c (Itoa n).
Proof.
  intros Hn Hr. destruct (Itoa_no_nl n) as [H1 H2].
  rewrite <-str_app_cons. split; [apply ReadLine_app|apply TrimRightCRLF_app];
    rewrite has_byte_cons, bool_decide_false by done; done.
Qed.

Lemma slen_in_int64 s : slen s <= MaxBulkSize → in_int64 (slen s) = true.
Proof.
  unfold slen, MaxBulkSize, in_int64, min_int64, max_int64. intros H.
  apply andb_true_iff. split; apply Z.leb_le; [lia|]. etrans; [exact H|]. done.
Qed.

Lemma slen_app s t : slen (s +:+ t) = slen s + slen t.
Proof. unfold slen. rewrite str_length_app. lia. Qed.

Lemma slen_nonneg s : 0 <= slen s.
Proof. unfold slen. lia. Qed.

Lemma readBulk_app a rest :
  slen a <= MaxBulkSize →
  readBulk (Itoa (slen a)) (a +:+ CRLF +:+ rest) = Done (RStr a, rest).
Proof.
  intros Ha. unfold readBulk. rewrite Atoi_Itoa by (by apply slen_in_int64).
  pose proof (slen_nonneg a). pose proof (slen_nonneg rest).
  replace (Z.to_nat (slen a)) with (String.length a) by (unfold slen; lia).
  rewrite str_take_length_app, str_drop_length_app, !slen_app.
  change (slen CRLF) with 2.
  rewrite !(proj2 (Z.ltb_ge _ _)) by lia.
  change 2%nat with (String.length CRLF). by rewrite str_drop_length_app.
Qed.

Lemma decode_bulk fuel a rest :
  slen a <= MaxBulkSize →
  readReply (S fuel) (encode_bulk a +:+ rest) = Done (RStr a, rest).
Proof.
  intros Ha. unfold encode_bulk. autorewrite with gostr.
  destruct (header_line "$" (slen a) (a +:+ CRLF +:+ rest)) as [H1 H2]; [done..|].
  cbn [readReply]. rewrite H1, H2.
  do 3 rewrite bool_decide_false by done. rewrite bool_decide_true by done.
  by apply readBulk_app.
Qed.

Lemma readElems_encoded fuel k i args rest acc :
  Forall (λ a, slen a <= MaxBulkSize) args → (length args ≤ k)%nat →
  readElems (readReply (S fuel)) k i (i + len args)
    (foldr (λ a b, encode_bulk a +:+ b) "" args +:+ rest) acc
  = Done (RArr (acc ++ (RStr <$> args)), rest).
Proof.
  intros Hargs. revert k i acc.
  induction Hargs as [|a args Ha Hargs IH]; intros k i acc Hk.
  - unfold len. simpl. rewrite app_nil_r.
    destruct k; simpl; rewrite (proj2 (Z.ltb_ge _ _)) by lia; done.
  - destruct k as [|k]; simpl in Hk; [lia|]. unfold len in *. cbn [readElems].
    rewrite (proj2 (Z.ltb_lt _ _)) by (simpl; lia).
    simpl foldr. rewrite str_app_assoc, decode_bulk by done.
    replace (i + Z.of_nat (length (a :: args))) with (i + 1 + Z.of_nat (length args))
      by (simpl; lia).
    rewrite IH by lia. by rewrite <-app_assoc.
Qed.

Lemma encoded_args_length args :
  (length args ≤ String.length (foldr (λ a b, encode_bulk a +:+ b) "" args))%nat.
Proof.
  induction args as [|a args IH]; [simpl; lia|].
  assert (0 < String.length (encode_bulk a))%nat as H.
  { unfold encode_bulk. rewrite str_length_app. simpl. lia. }
  cbn [foldr length]. rewrite str_length_app. lia.
Qed.

(** ** Properties *)

(** Reading a reply terminates on every byte stream: the fuel [decode] gives
    (the stream's length plus one) never runs out, however arrays nest, because
    each reply consumes its header line.  The outcome is a reply, an error or the
    allocation panic, never divergence. *)
Theorem readReply_total s : decode s ≠ OutOfFuel.
Proof. apply readReply_within. lia. Qed.

(** C39: Encoding and reading are inverse: a command encoded by EncodeCommand,
    followed by any further bytes, is read back by readReply as the array of exactly
    its arguments with exactly those bytes left in the stream, whatever bytes (CR,
    LF, digits, prefix characters) the arguments contain, as long as each is within
    the bulk cap. *)
Theorem EncodeCommand_decode args rest :
  Forall (λ a, slen a <= MaxBulkSize) args → len args <= maxSliceLen →
  decode (EncodeCommand args +:+ rest) = Done (RArr (RStr <$> args), rest).
Proof.
  intros Hargs Hlen. unfold decode, EncodeCommand. autorewrite with gostr.
  set (body := foldr _ _ _ +:+ rest).
  destruct (header_line "*" (len args) body) as [H1 H2]; [done..|].
  assert (in_int64 (len args) = true) as Hin.
  { unfold in_int64, min_int64, max_int64, maxSliceLen, len in *.
    apply andb_true_iff. split; apply Z.leb_le; lia. }
  cbn [readReply]. rewrite H1, H2. do 4 rewrite bool_decide_false by done.
  rewrite bool_decide_true by done. rewrite Atoi_Itoa by done.
  rewrite (proj2 (Z.ltb_ge _ _)) by (unfold len; lia).
  rewrite (proj2 (Z.ltb_ge _ _)) by done.
  pose proof (encoded_args_length args) as Hl.
  assert (length args ≤ String.length body)%nat as Hl'
    by (unfold body; rewrite str_length_app; lia).
  cbn [String.length]. rewrite !str_length_app. cbn [String.length].
  rewrite <-(Z.add_0_l (len args)) at 1.
  apply (readElems_encoded _ _ 0 args rest []); [done|lia].
Qed.

Lemma EncodeCommand_decode_witness :
  decode (EncodeCommand ["SENTINEL"; CRLF; ""] +:+ "+OK") =
    Done (RArr [RStr "SENTINEL"; RStr CRLF; RStr ""], "+OK").
Proof.
  apply (EncodeCommand_decode ["SENTINEL"; CRLF; ""] "+OK").
  - repeat constructor; vm_compute; discriminate.
  - vm_compute; discriminate.
Defined.

(** A hostile array header crashes the reader: the bulk length is capped
    before allocation but the array length is not, so a peer announcing more
    elements than a slice can hold makes [make] panic on the header alone, with no
    element bytes sent. *)
Theorem readReply_array_panic n rest :
  maxSliceLen < n <= max_int64 → decode (String "*" (Itoa n +:+ CRLF +:+ rest)) = Panic.
Proof.
  intros [Hn Hm]. unfold decode.
  destruct (header_line "*" n rest) as [H1 H2]; [done..|].
  cbn [readReply]. rewrite H1, H2. do 4 rewrite bool_decide_false by done.
  rewrite bool_decide_true by done. rewrite Atoi_Itoa.
  2:{ unfold in_int64, min_int64. unfold maxSliceLen in Hn. apply andb_true_iff.
      split; apply Z.leb_le; lia. }
  rewrite (proj2 (Z.ltb_ge _ _)) by (unfold maxSliceLen in Hn; lia).
  by rewrite (proj2 (Z.ltb_lt _ _)).
Qed.

Lemma readReply_array_panic_witness :
  decode (String "*" (Itoa 9223372036854775807 +:+ CRLF +:+ "")) = Panic.
Proof. apply readReply_array_panic. split; vm_compute; [reflexivity|discriminate]. Defined.
