(* ===== verification/Fsm.v ===== *)
(** * The rollout state machine: [internal/orchestration/{states,events,transitions}.go]

    States and events are the closed string enums of the source; the empty
    [State] (the exit sentinel of the delete rows, and the "no prior
    observation" value of the per-CR tracker) is [StateNone].  The machine is
    its transition table; [Apply] walks it in declaration order. *)
From S2P Require Import Prelude GoStd.
Local Open Scope Z_scope.

Inductive State : Type :=
  | StateBootstrap | StateSteady | StateRolloutPending | StateRolloutReplicas
  | StateRolloutPrimary | StateFailoverInFlight | StateRolloutComplete
  | StateDegraded | StateDegradedQuorumLost
  | StateNone (* "" *).

#[global] Instance State_eq_dec : EqDecision State.
Proof. solve_decision. Defined.

Definition AllStates : list State :=
  [StateBootstrap; StateSteady; StateRolloutPending; StateRolloutReplicas;
   StateRolloutPrimary; StateFailoverInFlight; StateRolloutComplete;
   StateDegraded; StateDegradedQuorumLost].

Inductive Event : Type :=
  | EventCRCreated | EventQuorumPrimaryAgreed | EventReconcileTick
  | EventRolloutTrigger | EventSwitchMaster | EventSplitBrainDetected
  | EventReplicaSelected | EventReplicaRolled | EventAllReplicasRolled
  | EventQuorumLost | EventQuorumLostSustained | EventQuorumReached
  | EventSpecChanged | EventFailoverEnd | EventFailoverEndForTimeout
  | EventFailoverAbort | EventFailoverTimeoutExceeded | EventOldPrimaryReady
  | EventRecovered | EventCRDeleted.

#[global] Instance Event_eq_dec : EqDecision Event.
Proof. solve_decision. Defined.

Definition AllEvents : list Event :=
  [EventCRCreated; EventQuorumPrimaryAgreed; EventReconcileTick; EventRolloutTrigger;
   EventSwitchMaster; EventSplitBrainDetected; EventReplicaSelected; EventReplicaRolled;
   EventAllReplicasRolled; EventQuorumLost; EventQuorumLostSustained; EventQuorumReached;
   EventSpecChanged; EventFailoverEnd; EventFailoverEndForTimeout; EventFailoverAbort;
   EventFailoverTimeoutExceeded; EventOldPrimaryReady; EventRecovered; EventCRDeleted].

Record GuardCtx := {
  QuorumOK : bool;
  SplitBrain : bool;
  QuorumPrimaryAgreed : bool;
  Pod0LabeledPrimary : bool;
  CandidateReplicaReady : bool;
  HasMoreReplicas : bool;
  NewPrimaryStable : bool;
  OldPrimaryNowReplica : bool;
  OldPrimaryReplicaReady : bool;
  RolloutSuspendedFromPending : bool;
  CKQUORUMOKHysteresisPassed : bool
}.

(** Go's zero value [GuardCtx{}]. *)
Definition guards_zero : GuardCtx :=
  Build_GuardCtx false false false false false false false false false false false.

Record SideEffect := { EventReason : string; RequeueAfter : Duration }.
Definition no_effect : SideEffect := {| EventReason := ""; RequeueAfter := 0 |}.

#[global] Instance SideEffect_eq_dec : EqDecision SideEffect.
Proof. solve_decision. Defined.

(** A row; [Guard := None] is the nil guard, which always matches. *)
Record Transition := {
  Tag : string;
  From : State;
  On : Event;
  Guard : option (GuardCtx → bool);
  NextState : State;
  Effect : SideEffect
}.

Definition emit (reason : string) : SideEffect := {| EventReason := reason; RequeueAfter := 0 |}.

Definition rows_bootstrap_steady : list Transition := [
  {| Tag := "T1"; From := StateBootstrap; On := EventCRCreated;
     Guard := Some (λ c, negb (QuorumPrimaryAgreed c));
     NextState := StateBootstrap;
     Effect := {| EventReason := ""; RequeueAfter := 5 * Second |} |};
  {| Tag := "T2"; From := StateBootstrap; On := EventQuorumPrimaryAgreed;
     Guard := Some (λ c, QuorumPrimaryAgreed c && Pod0LabeledPrimary c);
     NextState := StateSteady; Effect := emit "BootstrapCompleted" |};
  {| Tag := "T3"; From := StateSteady; On := EventRolloutTrigger;
     Guard := Some (λ c, QuorumOK c);
     NextState := StateRolloutPending; Effect := emit "RolloutStarted" |};
  {| Tag := "T4"; From := StateSteady; On := EventRolloutTrigger;
     Guard := Some (λ c, negb (QuorumOK c));
     NextState := StateSteady;
     Effect := {| EventReason := "RolloutDeferred"; RequeueAfter := 10 * Second |} |};
  {| Tag := "T5"; From := StateSteady; On := EventSwitchMaster; Guard := None;
     NextState := StateFailoverInFlight; Effect := emit "UnexpectedFailover" |};
  {| Tag := "T6"; From := StateSteady; On := EventSplitBrainDetected; Guard := None;
     NextState := StateDegraded; Effect := emit "SplitBrainDetected" |} ].

Definition rows_pending_replicas : list Transition := [
  {| Tag := "T7"; From := StateRolloutPending; On := EventReconcileTick;
     Guard := Some (λ c, QuorumOK c && QuorumPrimaryAgreed c && CandidateReplicaReady c);
     NextState := StateRolloutReplicas; Effect := no_effect |};
  {| Tag := "T8"; From := StateRolloutPending; On := EventReconcileTick;
     Guard := Some (λ c, negb (QuorumOK c) || SplitBrain c);
     NextState := StateDegraded; Effect := emit "RolloutAbortedQuorumLost" |};
  {| Tag := "T9"; From := StateRolloutReplicas; On := EventReplicaSelected; Guard := None;
     NextState := StateRolloutReplicas; Effect := no_effect |};
  {| Tag := "T10"; From := StateRolloutReplicas; On := EventReplicaRolled;
     Guard := Some (λ c, HasMoreReplicas c);
     NextState := StateRolloutReplicas; Effect := no_effect |};
  {| Tag := "T11"; From := StateRolloutReplicas; On := EventAllReplicasRolled; Guard := None;
     NextState := StateRolloutPrimary; Effect := emit "ReplicasRolled" |};
  {| Tag := "T12"; From := StateRolloutReplicas; On := EventQuorumLost; Guard := None;
     NextState := StateDegraded; Effect := emit "RolloutAbortedQuorumLost" |};
  {| Tag := "T13"; From := StateRolloutReplicas; On := EventSpecChanged; Guard := None;
     NextState := StateRolloutReplicas; Effect := emit "SpecChangeDeferred" |} ].

Definition rows_primary_failover : list Transition := [
  {| Tag := "T14"; From := StateRolloutPrimary; On := EventReconcileTick;
     Guard := Some (λ c, QuorumOK c && CandidateReplicaReady c);
     NextState := StateFailoverInFlight; Effect := emit "FailoverInitiated" |};
  {| Tag := "T15"; From := StateRolloutPrimary; On := EventReconcileTick;
     Guard := Some (λ c, negb (QuorumOK c) || negb (CandidateReplicaReady c));
     NextState := StateDegraded; Effect := emit "PrimaryRolloutBlocked" |};
  {| Tag := "T16"; From := StateFailoverInFlight; On := EventFailoverEnd;
     Guard := Some (λ c, NewPrimaryStable c && QuorumPrimaryAgreed c && negb (SplitBrain c));
     NextState := StateRolloutComplete; Effect := emit "FailoverSucceeded" |};
  {| Tag := "T17"; From := StateFailoverInFlight; On := EventFailoverEndForTimeout; Guard := None;
     NextState := StateRolloutComplete; Effect := emit "FailoverSucceededWithTimeout" |};
  {| Tag := "T18"; From := StateFailoverInFlight; On := EventFailoverAbort; Guard := None;
     NextState := StateDegraded; Effect := emit "FailoverAborted" |};
  {| Tag := "T19"; From := StateFailoverInFlight; On := EventFailoverTimeoutExceeded; Guard := None;
     NextState := StateDegraded; Effect := emit "FailoverStalled" |};
  {| Tag := "T20"; From := StateRolloutComplete; On := EventReconcileTick;
     Guard := Some (λ c, OldPrimaryNowReplica c);
     NextState := StateRolloutComplete; Effect := no_effect |};
  {| Tag := "T21"; From := StateRolloutComplete; On := EventOldPrimaryReady;
     Guard := Some (λ c, OldPrimaryReplicaReady c);
     NextState := StateSteady; Effect := emit "RolloutCompleted" |} ].

Definition rows_degraded : list Transition := [
  {| Tag := "T22"; From := StateDegraded; On := EventRecovered;
     Guard := Some (λ c, QuorumOK c && negb (SplitBrain c) && negb (RolloutSuspendedFromPending c));
     NextState := StateSteady; Effect := emit "DegradedResolved" |};
  {| Tag := "T23"; From := StateDegraded; On := EventRecovered;
     Guard := Some (λ c, QuorumOK c && negb (SplitBrain c) && RolloutSuspendedFromPending c);
     NextState := StateRolloutPending; Effect := emit "RolloutResumed" |} ].

Definition absorb (tag : string) (from : State) : Transition :=
  {| Tag := tag; From := from; On := EventQuorumLostSustained; Guard := None;
     NextState := StateDegradedQuorumLost; Effect := emit "QuorumLost" |}.

Definition rows_quorum_lost : list Transition := [
  absorb "T25-Bootstrap" StateBootstrap;
  absorb "T26-Steady" StateSteady;
  absorb "T27-RolloutPending" StateRolloutPending;
  absorb "T28-RolloutReplicas" StateRolloutReplicas;
  absorb "T29-RolloutPrimary" StateRolloutPrimary;
  absorb "T30-FailoverInFlight" StateFailoverInFlight;
  absorb "T31-RolloutComplete" StateRolloutComplete;
  absorb "T32-Degraded" StateDegraded;
  {| Tag := "T33"; From := StateDegradedQuorumLost; On := EventQuorumReached;
     Guard := Some (λ c, CKQUORUMOKHysteresisPassed c && negb (RolloutSuspendedFromPending c));
     NextState := StateSteady; Effect := emit "QuorumReached" |};
  {| Tag := "T34"; From := StateDegradedQuorumLost; On := EventQuorumReached;
     Guard := Some (λ c, CKQUORUMOKHysteresisPassed c && RolloutSuspendedFromPending c);
     NextState := StateRolloutPending; Effect := emit "QuorumReached" |} ].

Definition exit_row (tag : string) (from : State) : Transition :=
  {| Tag := tag; From := from; On := EventCRDeleted; Guard := None;
     NextState := StateNone; Effect := no_effect |}.

Definition rows_deleted : list Transition := [
  exit_row "T24-Bootstrap" StateBootstrap;
  exit_row "T24-Steady" StateSteady;
  exit_row "T24-RolloutPending" StateRolloutPending;
  exit_row "T24-RolloutReplicas" StateRolloutReplicas;
  exit_row "T24-RolloutPrimary" StateRolloutPrimary;
  exit_row "T24-FailoverInFlight" StateFailoverInFlight;
  exit_row "T24-RolloutComplete" StateRolloutComplete;
  exit_row "T24-Degraded" StateDegraded;
  exit_row "T24-DegradedQuorumLost" StateDegradedQuorumLost ].

Definition defaultTransitions : list Transition :=
  rows_bootstrap_steady ++ rows_pending_replicas ++ rows_primary_failover ++
  rows_degraded ++ rows_quorum_lost ++ rows_deleted.

Definition matches (s : State) (e : Event) (c : GuardCtx) (t : Transition) : bool :=
  bool_decide (From t = s) && bool_decide (On t = e) &&
  match Guard t with None => true | Some g => g c end.

(** [Machine.Apply]: the first matching row; [None] is [ok=false], on which the
    state is left unchanged. *)
Fixpoint Apply (m : list Transition) (s : State) (e : Event) (c : GuardCtx) :
    State * SideEffect * bool :=
  match m with
  | [] => (s, no_effect, false)
  | t :: m =>
      if negb (bool_decide (From t = s)) || negb (bool_decide (On t = e)) then Apply m s e c
      else if match Guard t with None => true | Some g => g c end
      then (NextState t, Effect t, true)
      else Apply m s e c
  end.

Definition NewMachine : list Transition := defaultTransitions.

(** The state [Apply] answers for one event.  The reconciler asks from a state it has
    derived or from a fixed one, uses the event and the match, and drops this answer. *)
Definition fire (s : State) (ec : Event * GuardCtx) : State :=
  (Apply NewMachine s ec.1 ec.2).1.1.

(** The row [Apply] selects. *)
Definition selected (m : list Transition) (s : State) (e : Event) (c : GuardCtx) : option Transition :=
  head (List.filter (matches s e c) m).

(** The relation the reconciler keeps between two guards: a suspected
    split-brain is never reported together with a healthy quorum. *)
Definition coherent (c : GuardCtx) : bool := implb (SplitBrain c) (negb (QuorumOK c)).

(** ** Lemmas *)
Lemma Apply_selected m s e c :
  Apply m s e c =
  match selected m s e c with
  | Some t => (NextState t, Effect t, true)
  | None => (s, no_effect, false)
  end.
Proof.
  unfold selected. induction m as [|t m IH]; simpl; [done|]. unfold matches at 1.
  destruct (bool_decide (From t = s)), (bool_decide (On t = e)); simpl; try apply IH.
  destruct (Guard t) as [g|]; [|done]. by destruct (g c).
Qed.

(** Evaluates the table on a guard context with symbolic fields, then splits
    on the fields the result still depends on. *)
Ltac split_guards :=
  repeat match goal with
    | |- context [match ?b with true => _ | false => _ end] => is_var b; destruct b
    end.
Ltac eval_table s e c :=
  destruct s, e; destruct c; vm_compute; split_guards.

Lemma at_most_one_row s e c :
  coherent c = true → (length (List.filter (matches s e c) NewMachine) ≤ 1)%nat.
Proof.
  eval_table s e c; try lia; done.
Qed.

Lemma filter_bool_perm {A} (p : A → bool) l1 l2 :
  l1 ≡ₚ l2 → List.filter p l1 ≡ₚ List.filter p l2.
Proof.
  induction 1 as [|x l1 l2 _ IH|x y l|l1 l2 l3 _ IH1 _ IH2]; simpl; [done| | |by etrans].
  - destruct (p x); [by constructor|done].
  - destruct (p x), (p y); try done. constructor.
Qed.

Lemma short_perm_eq {A} (l1 l2 : list A) : l1 ≡ₚ l2 → (length l2 ≤ 1)%nat → l1 = l2.
Proof.
  intros H Hl. destruct l2 as [|x [|y l2]]; simpl in Hl; [| |lia].
  - by apply Permutation_nil_r in H.
  - by apply Permutation_singleton_r in H.
Qed.

(** Inverting one event: which rows can lead into a state. *)
Lemma fire_into_replicas s e c :
  fire s (e, c) = StateRolloutReplicas → s ≠ StateRolloutReplicas →
  s = StateRolloutPending ∧ e = EventReconcileTick ∧
  QuorumOK c = true ∧ QuorumPrimaryAgreed c = true ∧ CandidateReplicaReady c = true.
Proof. eval_table s e c; naive_solver. Qed.

Lemma fire_into_primary s e c :
  fire s (e, c) = StateRolloutPrimary → s ≠ StateRolloutPrimary →
  s = StateRolloutReplicas ∧ e = EventAllReplicasRolled.
Proof. eval_table s e c; naive_solver. Qed.

Lemma fire_into_failover s e c :
  fire s (e, c) = StateFailoverInFlight → s ≠ StateFailoverInFlight →
  (s = StateSteady ∧ e = EventSwitchMaster) ∨
  (s = StateRolloutPrimary ∧ e = EventReconcileTick ∧
   QuorumOK c = true ∧ CandidateReplicaReady c = true).
Proof. eval_table s e c; naive_solver. Qed.

Lemma fire_quorum_lost_stays e c :
  e ≠ EventCRDeleted → ¬ (e = EventQuorumReached ∧ CKQUORUMOKHysteresisPassed c = true) →
  fire StateDegradedQuorumLost (e, c) = StateDegradedQuorumLost.
Proof.
  destruct e, c; vm_compute; split_guards; intros He Hh; try done; exfalso; auto.
Qed.

(** ** Properties *)

(** Under coherent guards at most one row of the table matches, so the
    declaration order of the rows is irrelevant: any permutation of the table
    gives the same next state, side effect and match verdict. *)
Theorem Apply_order_irrelevant (m : list Transition) s e c :
  m ≡ₚ NewMachine → coherent c = true → Apply m s e c = Apply NewMachine s e c.
Proof.
  intros Hm Hc. rewrite !Apply_selected. unfold selected.
  rewrite (short_perm_eq _ _ (filter_bool_perm (matches s e c) _ _ Hm)); [done|].
  by apply at_most_one_row.
Qed.

Lemma Apply_order_irrelevant_witness :
  Apply (reverse NewMachine) StateRolloutPending EventReconcileTick guards_zero
  = Apply NewMachine StateRolloutPending EventReconcileTick guards_zero.
Proof. apply Apply_order_irrelevant; [apply reverse_Permutation|reflexivity]. Defined.

(** Guard contexts in which some row of each pair of rows is enabled. *)
Definition ctx_quiet (suspended : bool) : GuardCtx :=
  Build_GuardCtx true false true true true true true true true suspended true.

(** No row of the table is dead: every row is the one [Apply] selects, for
    its own source state and event, under some coherent guard context. *)
Theorem every_row_selected :
  Forall (λ t, ∃ c, coherent c = true ∧ selected NewMachine (From t) (On t) c = Some t) NewMachine.
Proof.
  repeat constructor;
    first [ exists guards_zero; split; reflexivity
          | exists (ctx_quiet false); split; reflexivity
          | exists (ctx_quiet true); split; reflexivity ].
Qed.

(** Sustained quorum loss is absorbed from every live state, and the absorbing state is
    observation-only: from Degraded+QuorumLost every event answers the same state, except
    the deletion of the resource and a quorum-reached event with the two-poll hysteresis
    passed. *)
Theorem quorum_lost_absorbs s c e c' :
  s ∈ AllStates →
  fire s (EventQuorumLostSustained, c) = StateDegradedQuorumLost ∧
  (e ≠ EventCRDeleted → ¬ (e = EventQuorumReached ∧ CKQUORUMOKHysteresisPassed c' = true) →
   fire StateDegradedQuorumLost (e, c') = StateDegradedQuorumLost).
Proof.
  intros Hs. split; [|apply fire_quorum_lost_stays].
  unfold AllStates in Hs. repeat (apply elem_of_cons in Hs as [->|Hs]; [reflexivity|]). by apply not_elem_of_nil in Hs.
Qed.

(** How the rollout states are entered: RolloutReplicas only from RolloutPending, by a tick
    that finds quorum, an agreed primary and a caught-up candidate; RolloutPrimary only from
    RolloutReplicas, when all replicas are rolled; FailoverInFlight only from Steady by an
    observed switch, or from RolloutPrimary by a tick that finds quorum and a caught-up
    candidate. *)
Theorem rollout_entries_guarded s e c s' :
  fire s (e, c) = s' → s ≠ s' →
  (s' = StateRolloutReplicas → s = StateRolloutPending ∧ e = EventReconcileTick ∧
     QuorumOK c = true ∧ QuorumPrimaryAgreed c = true ∧ CandidateReplicaReady c = true) ∧
  (s' = StateRolloutPrimary → s = StateRolloutReplicas ∧ e = EventAllReplicasRolled) ∧
  (s' = StateFailoverInFlight →
     (s = StateSteady ∧ e = EventSwitchMaster) ∨
     (s = StateRolloutPrimary ∧ e = EventReconcileTick ∧ QuorumOK c = true ∧ CandidateReplicaReady c = true)).
Proof.
  intros H Hne. split_and!; intros ->; [by apply fire_into_replicas|by apply (fire_into_primary s e c)|by apply fire_into_failover].
Qed.

(** A failover that ends by timeout is declared a success whatever the
    guards say, suspected split-brain included: the only success transition
    out of FailoverInFlight that consults the split-brain guard is the one for
    the plain failover-end event. *)
Theorem failover_success_split_brain c :
  Apply NewMachine StateFailoverInFlight EventFailoverEndForTimeout c
    = (StateRolloutComplete, emit "FailoverSucceededWithTimeout", true) ∧
  (SplitBrain c = true →
   Apply NewMachine StateFailoverInFlight EventFailoverEnd c = (StateFailoverInFlight, no_effect, false)).
Proof.
  split; [reflexivity|]. intros Hs. destruct c. simpl in Hs. subst.
  vm_compute. split_guards; reflexivity.
Qed.

Lemma failover_success_split_brain_witness :
  Apply NewMachine StateFailoverInFlight EventFailoverEnd
    (Build_GuardCtx true true true true true true true true true true true)
  = (StateFailoverInFlight, no_effect, false).
Proof. apply failover_success_split_brain. reflexivity. Defined.
