(* ===== verification/SentinelParse.v ===== *)
(** * Decoding what sentinels say: [internal/sentinel/parse.go], the reply
    parsers of [peers.go] and [surgery_guard.go], the option list of [tuning.go] *)
From S2P Require Import Prelude GoStd Resp.
Local Open Scope Z_scope.

Inductive EventKind : Type :=
  | KindSwitchMaster | KindFailoverEnd | KindFailoverEndTimeout
  | KindODown | KindODownClear | KindTilt | KindTiltClear | KindOther.

#[global] Instance EventKind_eq_dec : EqDecision EventKind.
Proof. solve_decision. Defined.

Definition ParseEventKind (channel : string) : EventKind :=
  if bool_decide (channel = "+switch-master") then KindSwitchMaster
  else if bool_decide (channel = "+failover-end") then KindFailoverEnd
  else if bool_decide (channel = "+failover-end-for-timeout") then KindFailoverEndTimeout
  else if bool_decide (channel = "+odown") then KindODown
  else if bool_decide (channel = "-odown") then KindODownClear
  else if bool_decide (channel = "+tilt") then KindTilt
  else if bool_decide (channel = "-tilt") then KindTiltClear
  else KindOther.

Record SwitchMasterEvent := { sw_MasterName : string; OldAddr : string; NewAddr : string }.
Record MasterEvent := { me_MasterName : string; me_Addr : string }.

(** A port field: [strconv.Atoi] succeeds with a positive value. *)
Definition positive_port (s : string) : option Z :=
  n ← Atoi s; if n <=? 0 then None else Some n.

Definition ParseSwitchMaster (payload : string) : option SwitchMasterEvent :=
  match Fields payload with
  | name :: oldHost :: oldP :: newHost :: newP :: _ =>
      oldPort ← positive_port oldP;
      newPort ← positive_port newP;
      Some {| sw_MasterName := name;
              OldAddr := JoinHostPort oldHost (Itoa oldPort);
              NewAddr := JoinHostPort newHost (Itoa newPort) |}
  | _ => None
  end.

Definition ParseMasterEvent (payload : string) : option MasterEvent :=
  match Fields payload with
  | kw :: name :: host :: portStr :: _ =>
      if bool_decide (kw = "master") then
        port ← positive_port portStr;
        Some {| me_MasterName := name; me_Addr := JoinHostPort host (Itoa port) |}
      else None
  | _ => None
  end.

(** ** Replies to SENTINEL commands *)
Definition ParseGetMasterAddr (r : reply) : option string :=
  match r with
  | RArr (RStr host :: RStr portStr :: _) =>
      if bool_decide (host = "") then None
      else match Atoi portStr with
           | None => None
           | Some _ => Some (JoinHostPort host portStr)
           end
  | _ => None
  end.

(** The scan [for i := 0; i+1 < len(arr); i += 2] for the first pair whose key
    is [key]. *)
Fixpoint kv_find (key : string) (arr : list reply) : option reply :=
  match arr with
  | k :: v :: rest => if bool_decide (as_string k = key) then Some v else kv_find key rest
  | _ => None
  end.

Definition master_field (key : string) (r : reply) : option reply :=
  match r with
  | RArr arr => if len arr <? 2 then None else kv_find key arr
  | _ => None
  end.

Definition ParseSentinelMasterEpoch (r : reply) : option Z :=
  v ← master_field "config-epoch" r; ParseInt64 (as_string v).

Definition ParseSentinelMasterAuthPass (r : reply) : option string :=
  v ← master_field "auth-pass" r; Some (as_string v).

Definition ParseSentinelMasterNumOtherSentinels (r : reply) : option Z :=
  v ← master_field "num-other-sentinels" r; Atoi (as_string v).

Definition ParseSentinelMasterNumSlaves (r : reply) : option Z :=
  v ← master_field "num-slaves" r; Atoi (as_string v).

Definition flagsField : string := "flags".

Definition masterReplyFlags (r : reply) : option string :=
  match r with
  | RArr arr =>
      v ← kv_find flagsField arr;
      match v with RStr s => Some s | _ => None end
  | _ => None
  end.

Record MasterFlags := { SDown : bool; mf_ODown : bool }.

Definition ParseSentinelMasterFlags (r : reply) : option MasterFlags :=
  v ← masterReplyFlags r;
  let toks := Split v "," in
  Some {| SDown := bool_decide ("s_down" ∈ toks); mf_ODown := bool_decide ("o_down" ∈ toks) |}.

(** A reply error never reaches here as a value: [readReply] turns it into an
    [error], so only the string shapes remain. *)
Definition ParseCKQuorum (r : reply) : bool :=
  match r with
  | RStr s => HasPrefix s "OK " || bool_decide (s = "OK")
  | _ => false
  end.

(** ** Peer and replica tables *)
Record PeerInfo := { pi_Name : string; RunID : string; pi_IP : string; pi_Port : Z }.
Record ReplicaInfo := { ri_IP : string; ri_Port : Z; ri_Flags : string }.

#[global] Instance PeerInfo_eq_dec : EqDecision PeerInfo.
Proof. solve_decision. Defined.

Definition port_or (old : Z) (v : string) : Z := default old (Atoi v).

Fixpoint peer_fields (inner : list reply) (p : PeerInfo) : PeerInfo :=
  match inner with
  | k :: v :: rest =>
      let s := as_string v in
      peer_fields rest
        (if bool_decide (as_string k = "name") then
           {| pi_Name := s; RunID := RunID p; pi_IP := pi_IP p; pi_Port := pi_Port p |}
         else if bool_decide (as_string k = "runid") then
           {| pi_Name := pi_Name p; RunID := s; pi_IP := pi_IP p; pi_Port := pi_Port p |}
         else if bool_decide (as_string k = "ip") then
           {| pi_Name := pi_Name p; RunID := RunID p; pi_IP := s; pi_Port := pi_Port p |}
         else if bool_decide (as_string k = "port") then
           {| pi_Name := pi_Name p; RunID := RunID p; pi_IP := pi_IP p;
              pi_Port := port_or (pi_Port p) s |}
         else p)
  | _ => p
  end.

Definition peer_zero : PeerInfo := {| pi_Name := ""; RunID := ""; pi_IP := ""; pi_Port := 0 |}.

Definition peer_complete (p : PeerInfo) : bool :=
  negb (bool_decide (RunID p = "") || bool_decide (pi_IP p = "") || (pi_Port p <=? 0)).

Definition ParseSentinelsReply (r : reply) : list PeerInfo :=
  match r with
  | RArr outer =>
      omap (λ item, match item with
                    | RArr inner =>
                        let p := peer_fields inner peer_zero in
                        if peer_complete p then Some p else None
                    | _ => None
                    end) outer
  | _ => []
  end.

Fixpoint replica_fields (inner : list reply) (p : ReplicaInfo) : ReplicaInfo :=
  match inner with
  | k :: v :: rest =>
      let s := as_string v in
      replica_fields rest
        (if bool_decide (as_string k = "ip") then
           {| ri_IP := s; ri_Port := ri_Port p; ri_Flags := ri_Flags p |}
         else if bool_decide (as_string k = "port") then
           {| ri_IP := ri_IP p; ri_Port := port_or (ri_Port p) s; ri_Flags := ri_Flags p |}
         else if bool_decide (as_string k = flagsField) then
           {| ri_IP := ri_IP p; ri_Port := ri_Port p; ri_Flags := s |}
         else p)
  | _ => p
  end.

Definition replica_zero : ReplicaInfo := {| ri_IP := ""; ri_Port := 0; ri_Flags := "" |}.

Definition ParseReplicasReply (r : reply) : list ReplicaInfo :=
  match r with
  | RArr outer =>
      omap (λ item, match item with
                    | RArr inner =>
                        let p := replica_fields inner replica_zero in
                        if bool_decide (ri_IP p = "") then None else Some p
                    | _ => None
                    end) outer
  | _ => []
  end.

(** ** Election markers and error classification ([surgery_guard.go]) *)
Definition flagsIndicateElection (flags : string) : bool :=
  Contains flags "failover_in_progress" || Contains flags "o_down" || Contains flags "s_down".

Definition isNoSuchMasterErr (err : string) : bool :=
  Contains (ToLower err) "no such master with that name".

(** ** SENTINEL SET options ([tuning.go]) *)
Record MasterTuning := {
  DownAfterMilliseconds : Z; FailoverTimeout : Z; ParallelSyncs : Z }.

Definition tuningKVs (t : MasterTuning) : list (string * string) :=
  (if 0 <? DownAfterMilliseconds t
   then [("down-after-milliseconds", Itoa (DownAfterMilliseconds t))] else []) ++
  (if 0 <? FailoverTimeout t then [("failover-timeout", Itoa (FailoverTimeout t))] else []) ++
  (if 0 <? ParallelSyncs t then [("parallel-syncs", Itoa (ParallelSyncs t))] else []).

Example parse_switch : ParseSwitchMaster "mymaster 10.0.0.1 6379 10.0.0.2 6379"
  = Some {| sw_MasterName := "mymaster"; OldAddr := "10.0.0.1:6379"; NewAddr := "10.0.0.2:6379" |}.
Proof. vm_compute. reflexivity. Qed.
Example parse_odown_slave : ParseMasterEvent "slave x 10.0.0.1 6379 @ mymaster 10.0.0.2 6379" = None.
Proof. vm_compute. reflexivity. Qed.
Example parse_flags : ParseSentinelMasterFlags (RArr [RStr "flags"; RStr "master,s_down,o_down"])
  = Some {| SDown := true; mf_ODown := true |}.
Proof. vm_compute. reflexivity. Qed.
Example parse_ck : ParseCKQuorum (RStr "OK 3 usable Sentinels.") = true ∧ ParseCKQuorum (RStr "OKAY") = false.
Proof. vm_compute. split; reflexivity. Qed.
Example parse_peers : ParseSentinelsReply
    (RArr [RArr [RStr "name"; RStr "s1"; RStr "ip"; RStr "10.0.0.5"; RStr "port"; RStr "26379"; RStr "runid"; RStr "abc"];
           RArr [RStr "name"; RStr "s2"; RStr "ip"; RStr "10.0.0.6"]; RInt 4])
  = [ {| pi_Name := "s1"; RunID := "abc"; pi_IP := "10.0.0.5"; pi_Port := 26379 |} ].
Proof. vm_compute. reflexivity. Qed.

(** ** Lemmas: space-separated payloads *)
Fixpoint space_free (s : string) : bool :=
  match s with
  | EmptyString => true
  | String c s => negb (Ascii.is_space c) && space_free s
  end.

Definition token (s : string) : Prop := s ≠ "" ∧ space_free s = true.

Lemma rev_app_rev_app s1 s2 s3 :
  String.rev_app (String.rev_app s1 s2) s3 = String.rev_app s2 (s1 +:+ s3).
Proof.
  revert s2. induction s1 as [|c s1 IH]; intros s2; [done|].
  simpl. rewrite IH, str_app_cons. done.
Qed.

Lemma rev_rev_app s : String.rev (String.rev_app s "") = s.
Proof. unfold String.rev. rewrite rev_app_rev_app. apply str_app_nil_r. Qed.

Lemma words_go_some c w s :
  space_free w = true →
  String.words_go (Some c) (w +:+ s) = String.words_go (Some (String.rev_app w c)) s.
Proof.
  revert c. induction w as [|a w IH]; intros c; [done|].
  intros [Ha Hw]%andb_true_iff. rewrite str_app_cons. simpl.
  apply negb_true_iff in Ha. rewrite Ha. apply IH, Hw.
Qed.

Lemma words_go_token w s : token w →
  String.words_go None (w +:+ s) = String.words_go (Some (String.rev_app w "")) s.
Proof.
  intros [Hne Hw]. destruct w as [|a w]; [done|]. simpl in Hw.
  apply andb_true_iff in Hw as [Ha%negb_true_iff Hw].
  rewrite str_app_cons. simpl. rewrite Ha. by apply words_go_some.
Qed.

(** [strings.Fields] recovers the tokens of a space-joined payload. *)
Lemma Fields_Join ws : Forall token ws → Fields (Join ws " ") = ws.
Proof.
  unfold Fields, Join, String.words. induction 1 as [|w ws Hw Hws IH]; [done|].
  destruct ws as [|w' ws].
  - simpl. rewrite <-(str_app_nil_r w) at 1. rewrite words_go_token by done.
    simpl. by rewrite rev_rev_app.
  - change (String.concat " " (w :: w' :: ws)) with (w +:+ String " " (String.concat " " (w' :: ws))).
    rewrite words_go_token by done. cbn [String.words_go Ascii.is_space].
    rewrite IH. simpl. by rewrite rev_rev_app.
Qed.

Lemma pretty_N_go_space_free x s : space_free s = true → space_free (pretty_N_go x s) = true.
Proof.
  revert s. induction (N.lt_wf_0 x) as [x _ IH]; intros s Hs.
  destruct (decide (x = 0%N)) as [->|Hx]; [done|].
  rewrite pretty_N_go_step by lia. apply IH; [apply N.div_lt; lia|].
  simpl. rewrite Hs, andb_true_r. unfold pretty_N_char. by repeat case_match.
Qed.

Lemma Itoa_token n : 0 < n → token (Itoa n).
Proof.
  intros Hn. destruct n as [|p|p]; [lia| |lia].
  unfold Itoa, pretty, pretty_Z, pretty, pretty_positive, pretty, pretty_N. case_decide; [done|].
  split; [by apply pretty_N_go_nonempty|by apply pretty_N_go_space_free].
Qed.

Lemma positive_port_Itoa n : 0 < n <= max_int64 → positive_port (Itoa n) = Some n.
Proof.
  intros Hn. unfold positive_port. rewrite Atoi_Itoa.
  - simpl. by rewrite (proj2 (Z.leb_gt _ _)) by lia.
  - unfold in_int64, min_int64. apply andb_true_iff. split; apply Z.leb_le; lia.
Qed.

(** ** Properties *)

(** The +switch-master parser inverts the payload Sentinel prints: for any
    master name and hosts without white space and any positive port numbers,
    the parsed event carries that name and the two joined addresses. *)
Theorem ParseSwitchMaster_printed name oh op nh np :
  token name → token oh → token nh → 0 < op <= max_int64 → 0 < np <= max_int64 →
  ParseSwitchMaster (Join [name; oh; Itoa op; nh; Itoa np] " ")
  = Some {| sw_MasterName := name; OldAddr := JoinHostPort oh (Itoa op);
            NewAddr := JoinHostPort nh (Itoa np) |}.
Proof.
  intros Hn Ho Hh Hop Hnp. unfold ParseSwitchMaster. rewrite Fields_Join.
  - by rewrite !positive_port_Itoa.
  - repeat apply Forall_cons_2; try done; apply Itoa_token; lia.
Qed.

Lemma ParseSwitchMaster_printed_witness :
  ParseSwitchMaster (Join ["valkey"; "10.0.0.1"; Itoa 6379; "10.0.0.2"; Itoa 6379] " ")
  = Some {| sw_MasterName := "valkey"; OldAddr := JoinHostPort "10.0.0.1" (Itoa 6379);
            NewAddr := JoinHostPort "10.0.0.2" (Itoa 6379) |}.
Proof. apply ParseSwitchMaster_printed; vm_compute; split; congruence. Defined.

(** A key/value reply as the command's table prints it. *)
Definition flat (kvs : list (string * string)) : list reply :=
  concat ((λ kv, [RStr kv.1; RStr kv.2]) <$> kvs).

Lemma kv_find_flat key kvs rest v :
  key ∉ kvs.*1 → kv_find key (flat kvs ++ RStr key :: RStr v :: rest) = Some (RStr v).
Proof.
  unfold flat. induction kvs as [|[k w] kvs IH]; simpl.
  - intros _. by rewrite bool_decide_true.
  - intros Hk. rewrite bool_decide_false by set_solver. apply IH. set_solver.
Qed.

(** The config-epoch parser reads back the epoch a sentinel prints, wherever
    the pair stands in the reply and whatever follows it, an unpaired trailing
    element included: an odd-length reply is accepted. *)
Theorem ParseSentinelMasterEpoch_printed kvs (e : Z) rest :
  "config-epoch" ∉ kvs.*1 → in_int64 e = true →
  ParseSentinelMasterEpoch (RArr (flat kvs ++ RStr "config-epoch" :: RStr (Itoa e) :: rest)) = Some e.
Proof.
  intros Hk He. unfold ParseSentinelMasterEpoch, master_field.
  rewrite (proj2 (Z.ltb_ge _ _)).
  - rewrite kv_find_flat by done. by apply Atoi_Itoa.
  - unfold len. rewrite length_app. simpl. lia.
Qed.

Lemma ParseSentinelMasterEpoch_printed_witness :
  ParseSentinelMasterEpoch (RArr (flat [("name", "valkey")] ++
    [RStr "config-epoch"; RStr (Itoa 7); RStr "stray"])) = Some 7.
Proof. apply ParseSentinelMasterEpoch_printed; [vm_compute; set_solver|reflexivity]. Defined.
