(* ===== verification/Observer.v ===== *)
(** * The per-CR sentinel observer: [internal/sentinel/{types,observer}.go]

    The observer's goroutines share one record of state guarded by [o.mu]; every
    read-modify-write of the snapshot runs in one critical section, so the model
    is a sequence of atomic steps: a poll tick ([pollOnce]) or one decoded
    subscription frame ([dispatch]).  Wire I/O is an input of a step
    ([queryWire]: the outcome of each write and read of one exchange), as are the
    clock readings the step takes. *)
From S2P Require Import Prelude GoStd Resp SentinelParse.
Local Open Scope Z_scope.

Record Endpoint := { Name : string; ep_Addr : string }.
#[global] Instance Endpoint_eq_dec : EqDecision Endpoint.
Proof. solve_decision. Defined.

Inductive Source : Type := SourceZero | SourceNone | SourcePubsub | SourcePoll | SourceMerge.
#[global] Instance Source_eq_dec : EqDecision Source.
Proof. solve_decision. Defined.

Inductive QuorumStatus : Type := QuorumStatusUnknown | QuorumStatusOK | QuorumStatusLost.
#[global] Instance QuorumStatus_eq_dec : EqDecision QuorumStatus.
Proof. solve_decision. Defined.

Record ObservedPrimary := {
  Addr : string;
  Epoch : Z;
  Quorum : QuorumStatus;
  QuorumOK : bool;
  UpdatedAt : Time;
  LastPolledAt : Time;
  Src : Source;
  ODown : gmap string Time;
  ODownPull : gmap string Time
}.

(** Go's zero value. *)
Definition primary_zero : ObservedPrimary :=
  {| Addr := ""; Epoch := 0; Quorum := QuorumStatusUnknown; QuorumOK := false;
     UpdatedAt := zero_time; LastPolledAt := zero_time; Src := SourceZero;
     ODown := ∅; ODownPull := ∅ |}.

Record Snapshot := { Present : bool; Primary : ObservedPrimary }.
Definition snapshot_zero : Snapshot := {| Present := false; Primary := primary_zero |}.

Record EndpointObservation := {
  eo_Name : string;
  eo_PrimaryAddr : string;
  eo_QuorumReachable : bool;
  eo_Reachable : bool;
  eo_At : Time;
  eo_KnownReplicas : Z;
  eo_KnownSentinels : Z;
  eo_CountsValid : bool
}.

(** [o.holder] is the atomic value ([None] before the first store), [notifies]
    counts the calls of [notify] (whose send may be dropped). *)
Record observer := {
  masterName : string;
  endpoints : list Endpoint;
  odown : gmap string Time;
  odownPull : gmap string Time;
  holder : option ObservedPrimary;
  endpointObs : option (list EndpointObservation);
  notifies : nat
}.

Definition newObserver (master : string) (eps : list Endpoint) : observer :=
  {| masterName := master; endpoints := eps; odown := ∅; odownPull := ∅;
     holder := None; endpointObs := None; notifies := 0 |}.

Definition set_odown (m : gmap string Time) (o : observer) : observer :=
  {| masterName := masterName o; endpoints := endpoints o; odown := m;
     odownPull := odownPull o; holder := holder o; endpointObs := endpointObs o;
     notifies := notifies o |}.

Definition set_odownPull (m : gmap string Time) (o : observer) : observer :=
  {| masterName := masterName o; endpoints := endpoints o; odown := odown o;
     odownPull := m; holder := holder o; endpointObs := endpointObs o;
     notifies := notifies o |}.

Definition set_holder (p : ObservedPrimary) (o : observer) : observer :=
  {| masterName := masterName o; endpoints := endpoints o; odown := odown o;
     odownPull := odownPull o; holder := Some p; endpointObs := endpointObs o;
     notifies := notifies o |}.

Definition set_endpointObs (l : list EndpointObservation) (o : observer) : observer :=
  {| masterName := masterName o; endpoints := endpoints o; odown := odown o;
     odownPull := odownPull o; holder := holder o; endpointObs := Some l;
     notifies := notifies o |}.

Definition notify (o : observer) : observer :=
  {| masterName := masterName o; endpoints := endpoints o; odown := odown o;
     odownPull := odownPull o; holder := holder o; endpointObs := endpointObs o;
     notifies := S (notifies o) |}.

Definition load (o : observer) : ObservedPrimary := default primary_zero (holder o).

(** The placeholder [start] stores before any goroutine runs. *)
Definition start (now : Time) (o : observer) : observer :=
  set_holder {| Addr := ""; Epoch := 0; Quorum := QuorumStatusUnknown; QuorumOK := false;
                UpdatedAt := now; LastPolledAt := zero_time; Src := SourceNone;
                ODown := ∅; ODownPull := ∅ |} o.

Definition publishLocked (t : Time) (q : QuorumStatus) (addr : string) (epoch : Z)
    (src : Source) (lastPolledAt : Time) (o : observer) : observer :=
  set_holder {| Addr := addr; Epoch := epoch; Quorum := q;
                QuorumOK := bool_decide (q = QuorumStatusOK);
                UpdatedAt := t; LastPolledAt := lastPolledAt; Src := src;
                ODown := odown o; ODownPull := odownPull o |} o.

(** ** Push side *)
Record republishFields := {
  rf_quorum : QuorumStatus; rf_addr : string; rf_epoch : Z; rf_source : Source;
  rf_lastPolledAt : Time }.

(** [mutate] sees the prior snapshot, may change the +odown map, and gives the
    fields to publish, or [None] to abort without publishing or notifying. *)
Definition republish (t : Time)
    (mutate : ObservedPrimary → observer → observer * option republishFields)
    (o : observer) : observer :=
  let prev := load o in
  match mutate prev o with
  | (o', None) => o'
  | (o', Some f) =>
      notify (publishLocked t (rf_quorum f) (rf_addr f) (rf_epoch f) (rf_source f)
                (rf_lastPolledAt f) o')
  end.

(** The fields of an arm that keeps everything but the address and source. *)
Definition carry (prev : ObservedPrimary) (addr : string) (src : Source) : republishFields :=
  {| rf_quorum := Quorum prev; rf_addr := addr; rf_epoch := Epoch prev;
     rf_source := src; rf_lastPolledAt := LastPolledAt prev |}.

(** [tm] is the clock read for the +odown stamp, [t] the one for [UpdatedAt]. *)
Definition dispatch (tm t : Time) (ep : Endpoint) (msg : pubsubMessage) (o : observer) : observer :=
  match ParseEventKind (Channel msg) with
  | KindSwitchMaster =>
      match ParseSwitchMaster (Payload msg) with
      | None => o
      | Some ev =>
          if bool_decide (sw_MasterName ev ≠ masterName o) then o
          else republish t (λ prev o,
            if bool_decide (Addr prev ≠ "") && bool_decide (OldAddr ev ≠ Addr prev) then (o, None)
            else (o, Some (carry prev (NewAddr ev) SourcePubsub))) o
      end
  | KindODown =>
      match ParseMasterEvent (Payload msg) with
      | None => o
      | Some ev =>
          if bool_decide (me_MasterName ev ≠ masterName o) then o
          else republish t (λ prev o,
            (set_odown (<[Name ep := tm]> (odown o)) o, Some (carry prev (Addr prev) (Src prev)))) o
      end
  | KindODownClear =>
      match ParseMasterEvent (Payload msg) with
      | None => o
      | Some ev =>
          if bool_decide (me_MasterName ev ≠ masterName o) then o
          else republish t (λ prev o,
            (set_odown (delete (Name ep) (odown o)) o, Some (carry prev (Addr prev) (Src prev)))) o
      end
  | KindFailoverEnd | KindFailoverEndTimeout =>
      match ParseMasterEvent (Payload msg) with
      | None => o
      | Some ev =>
          if bool_decide (me_MasterName ev ≠ masterName o) then o
          else republish t (λ prev o, (o, Some (carry prev (me_Addr ev) SourcePubsub))) o
      end
  | KindTilt | KindTiltClear | KindOther => o
  end.

(** ** Pull side: one sentinel *)

(** The outcomes of one exchange's I/O, in order: dial, AUTH, then a write and a
    read for each of the three commands. *)
Record queryWire := {
  qw_dial : bool;
  qw_auth : bool;
  qw_writeAddr : bool;
  qw_readAddr : option reply;
  qw_writeMaster : bool;
  qw_readMaster : option reply;
  qw_writeQuorum : bool;
  qw_readQuorum : option reply
}.

Record queryResult := {
  r_addr : string;
  r_epoch : Z;
  r_quorumOK : bool;
  r_flags : option MasterFlags;
  r_knownReplicas : Z;
  r_knownSentinels : Z;
  r_countsValid : bool;
  r_err : bool
}.

Definition query_err (addr : string) (epoch : Z) : queryResult :=
  {| r_addr := addr; r_epoch := epoch; r_quorumOK := false; r_flags := None;
     r_knownReplicas := 0; r_knownSentinels := 0; r_countsValid := false; r_err := true |}.

Definition queryOne (w : queryWire) : queryResult :=
  if negb (qw_dial w) then query_err "" 0
  else if negb (qw_auth w) then query_err "" 0
  else if negb (qw_writeAddr w) then query_err "" 0
  else match qw_readAddr w with
  | None => query_err "" 0
  | Some addrReply =>
    let addr := default "" (ParseGetMasterAddr addrReply) in
    if negb (qw_writeMaster w) then query_err addr 0
    else
      let '(epoch, flags, nSlaves, nSent, valid) :=
        match qw_readMaster w with
        | None => (0, None, 0, 0, false)
        | Some masterReply =>
            (default 0 (ParseSentinelMasterEpoch masterReply),
             ParseSentinelMasterFlags masterReply,
             default 0 (ParseSentinelMasterNumSlaves masterReply),
             default 0 (ParseSentinelMasterNumOtherSentinels masterReply),
             bool_decide (is_Some (ParseSentinelMasterNumSlaves masterReply)) &&
             bool_decide (is_Some (ParseSentinelMasterNumOtherSentinels masterReply)))
        end in
      if negb (qw_writeQuorum w) then query_err addr epoch
      else {| r_addr := addr; r_epoch := epoch;
              r_quorumOK := match qw_readQuorum w with
                            | None => false
                            | Some q => ParseCKQuorum q
                            end;
              r_flags := flags; r_knownReplicas := nSlaves; r_knownSentinels := nSent;
              r_countsValid := valid; r_err := false |}
  end.

Definition QuorumThreshold (n : Z) : Z := if n <=? 2 then n else n / 2 + 1.

Definition breakAddrTie (x y incumbent : string) : string :=
  if bool_decide (x = incumbent) then x
  else if bool_decide (y = incumbent) then y
  else if String.ltb x y then x
  else y.

Record odownPullObs := { ob_name : string; ob_flags : option MasterFlags }.

Definition reconcile_one (now : Time) (m : gmap string Time) (ob : odownPullObs) : gmap string Time :=
  match ob_flags ob with
  | None => m
  | Some f =>
      if mf_ODown f then
        match m !! ob_name ob with Some _ => m | None => <[ob_name ob := now]> m end
      else delete (ob_name ob) m
  end.

Definition reconcileODownPull (m : gmap string Time) (obs : list odownPullObs) (now : Time) :
    gmap string Time :=
  foldl (reconcile_one now) m obs.

(** ** Pull side: the sweep *)
Definition reached (r : queryResult) : bool := negb (r_err r).

Definition addr_vote (r : queryResult) : option string :=
  if r_err r then None else if bool_decide (r_addr r = "") then None else Some (r_addr r).

Definition quorum_vote (r : queryResult) : option string :=
  if r_quorumOK r then addr_vote r else None.

Definition max_epoch (results : list queryResult) : Z :=
  foldl (λ m r, if r_err r then m else Z.max m (r_epoch r)) 0 results.

(** One turn of the loop that picks the winning address. *)
Definition winner_step (incumbent : string) (acc : string * nat) (an : string * nat) : string * nat :=
  if Nat.ltb acc.2 an.2 then an
  else if Nat.eqb an.2 acc.2 then (breakAddrTie acc.1 an.1 incumbent, acc.2)
  else acc.

Definition mk_endpointObs (now : Time) (ep : Endpoint) (r : queryResult) : EndpointObservation :=
  {| eo_Name := Name ep; eo_PrimaryAddr := r_addr r; eo_QuorumReachable := r_quorumOK r;
     eo_Reachable := negb (r_err r); eo_At := now; eo_KnownReplicas := r_knownReplicas r;
     eo_KnownSentinels := r_knownSentinels r; eo_CountsValid := r_countsValid r |}.

Definition mk_odownObs (ep : Endpoint) (r : queryResult) : odownPullObs :=
  {| ob_name := Name ep; ob_flags := if r_err r then None else r_flags r |}.

Section poll.
Context {R : MapRange}.

Definition pick_winner (addrCount : gmap string nat) (incumbent : string) : string * nat :=
  foldl (winner_step incumbent) ("", 0%nat) (range_of addrCount).

(** [wires] is the I/O of each endpoint's exchange; [now], [tl] and [tp] are the
    clock readings for the observations, [LastPolledAt] and [UpdatedAt]. *)
Definition pollOnce (wires : list queryWire) (now tl tp : Time) (o : observer) : observer :=
  let results := queryOne <$> wires in
  let o := set_endpointObs (zip_with (mk_endpointObs now) (endpoints o) results) o in
  let odownObs := zip_with mk_odownObs (endpoints o) results in
  let addrCount := tally addr_vote ∅ results in
  let addrQuorumCount := tally quorum_vote ∅ results in
  let reachable := Z.of_nat (count reached results) in
  let threshold := QuorumThreshold (len (endpoints o)) in
  let o := set_odownPull (reconcileODownPull (odownPull o) odownObs now) o in
  let prev := load o in
  let epoch := Z.max (Epoch prev) (max_epoch results) in
  if reachable <? threshold then
    publishLocked tp QuorumStatusUnknown (Addr prev) epoch SourcePoll tl o
  else
    let winner := (pick_winner addrCount (Addr prev)).1 in
    let quorumOK := threshold <=? Z.of_nat (default 0%nat (addrQuorumCount !! winner)) in
    let status := if quorumOK then QuorumStatusOK else QuorumStatusLost in
    let src := if bool_decide (Addr prev ≠ "") && bool_decide (Addr prev = winner)
               then SourceMerge else SourcePoll in
    let addr := if quorumOK then winner else Addr prev in
    publishLocked tp status addr epoch src tl o.

(** ** Steps and runs *)
Inductive obs_event : Type :=
  | EvPoll (wires : list queryWire) (now tl tp : Time)
  | EvMsg (ep : Endpoint) (msg : pubsubMessage) (tm t : Time).

Definition obs_step (o : observer) (ev : obs_event) : observer :=
  match ev with
  | EvPoll wires now tl tp => pollOnce wires now tl tp o
  | EvMsg ep msg tm t => dispatch tm t ep msg o
  end.

Definition obs_run (o : observer) (evs : list obs_event) : observer := foldl obs_step o evs.
End poll.

Definition snapshot (o : observer) : Snapshot :=
  match holder o with
  | None => snapshot_zero
  | Some p => {| Present := true; Primary := p |}
  end.

(** ** Lemmas: the tie break *)
Lemma ltb_le x y : String.ltb x y = true ↔ String.le x y ∧ x ≠ y.
Proof.
  unfold String.ltb, String.le, String.leb.
  destruct (String.compare x y) eqn:E.
  - apply String.compare_eq_iff in E. naive_solver.
  - split; [|done]. intros _. split; [done|]. intros ->.
    pose proof (String.compare_antisym y y) as H. by rewrite E in H.
  - split; [done|]. by intros [? _].
Qed.

Lemma ltb_false x y : String.ltb x y = false ↔ String.le y x.
Proof.
  split.
  - intros H. destruct (decide (x = y)) as [->|Hne]; [reflexivity|].
    destruct (total String.le x y) as [Hle|]; [|done].
    by rewrite (proj2 (ltb_le x y)) in H.
  - intros Hle. destruct (String.ltb x y) eqn:E; [|done].
    apply ltb_le in E as [? []]. by apply (anti_symm String.le).
Qed.

(** The order whose minimum the tie break takes: the incumbent first, the other
    addresses lexicographically. *)
Definition tie_le (inc x y : string) : Prop := x = inc ∨ (y ≠ inc ∧ String.le x y).

Lemma breakAddrTie_min x y inc :
  (breakAddrTie x y inc = x ∧ tie_le inc x y) ∨ (breakAddrTie x y inc = y ∧ tie_le inc y x).
Proof.
  unfold breakAddrTie, tie_le. case_bool_decide; [by auto|]. case_bool_decide; [by auto|].
  destruct (String.ltb x y) eqn:E.
  - apply ltb_le in E as [? _]. auto.
  - apply ltb_false in E. auto.
Qed.

Lemma tie_le_antisym inc x y : tie_le inc x y → tie_le inc y x → x = y.
Proof.
  unfold tie_le. intros [->|[Hy Hxy]] [->|[Hx Hyx]]; try done.
  by apply (anti_symm String.le).
Qed.

Lemma tie_le_trans inc x y z : tie_le inc x y → tie_le inc y z → tie_le inc x z.
Proof.
  unfold tie_le. intros [->|[Hy Hxy]] [->|[Hz Hyz]]; try by auto.
  right. split; [done|]. by trans y.
Qed.

Lemma breakAddrTie_comm x y inc : breakAddrTie x y inc = breakAddrTie y x inc.
Proof.
  destruct (breakAddrTie_min x y inc) as [[-> ?]|[-> ?]],
    (breakAddrTie_min y x inc) as [[-> ?]|[-> ?]]; try done;
    by apply (tie_le_antisym inc).
Qed.

Lemma breakAddrTie_assoc x y z inc :
  breakAddrTie (breakAddrTie x y inc) z inc = breakAddrTie x (breakAddrTie y z inc) inc.
Proof.
  destruct (breakAddrTie_min x y inc) as [[-> ?]|[-> ?]],
    (breakAddrTie_min y z inc) as [[-> ?]|[-> ?]];
  repeat match goal with |- context [breakAddrTie ?a ?b inc] =>
    destruct (breakAddrTie_min a b inc) as [[-> ?]|[-> ?]] end; try done;
    apply (tie_le_antisym inc); eauto using tie_le_trans.
Qed.

Lemma winner_step_comm inc acc x y :
  winner_step inc (winner_step inc acc x) y = winner_step inc (winner_step inc acc y) x.
Proof.
  destruct acc as [w v], x as [a n], y as [b k]. unfold winner_step. simpl.
  destruct (Nat.ltb_spec v n), (Nat.ltb_spec v k), (Nat.eqb_spec n v), (Nat.eqb_spec k v);
    simpl; try lia;
    repeat (match goal with
      | |- context [Nat.ltb ?p ?q] => destruct (Nat.ltb_spec p q)
      | |- context [Nat.eqb ?p ?q] => destruct (Nat.eqb_spec p q)
      end; simpl; try lia); subst; try done; f_equal; try lia.
  - apply breakAddrTie_comm.
  - by rewrite !breakAddrTie_assoc, (breakAddrTie_comm a b).
Qed.

(** ** Lemmas: the winning address *)
Lemma breakAddrTie_either x y inc : breakAddrTie x y inc = x ∨ breakAddrTie x y inc = y.
Proof. destruct (breakAddrTie_min x y inc) as [[-> _]|[-> _]]; auto. Qed.

Lemma winner_step_cases inc acc an :
  (winner_step inc acc an = acc ∨ winner_step inc acc an = an) ∧
  (acc.2 ≤ (winner_step inc acc an).2)%nat ∧ (an.2 ≤ (winner_step inc acc an).2)%nat.
Proof.
  destruct acc as [w v], an as [a n]. unfold winner_step. simpl.
  destruct (Nat.ltb_spec v n); simpl; [by auto with lia|].
  destruct (Nat.eqb_spec n v) as [->|]; simpl; [|by auto with lia].
  destruct (breakAddrTie_either w a inc) as [-> | ->]; auto with lia.
Qed.

Lemma winner_fold inc l acc :
  let r := foldl (winner_step inc) acc l in
  (r = acc ∨ r ∈ l) ∧ (acc.2 ≤ r.2)%nat ∧ ∀ an, an ∈ l → (an.2 ≤ r.2)%nat.
Proof.
  revert acc. induction l as [|an l IH]; intros acc; simpl.
  { split_and!; [by auto|lia|by intros ? ?%not_elem_of_nil]. }
  destruct (IH (winner_step inc acc an)) as (H1 & H2 & H3).
  destruct (winner_step_cases inc acc an) as (Hs & Ha & Hn).
  split_and!.
  - destruct H1 as [H1|H1]; [|by right; constructor].
    destruct Hs as [E|E]; rewrite E in H1 at 2; [by left|].
    right. rewrite H1. constructor.
  - lia.
  - intros b [->|Hin]%elem_of_cons; [lia|]. auto.
Qed.

Lemma addr_vote_nonempty r a : addr_vote r = Some a → a ≠ "" ∧ r_err r = false ∧ r_addr r = a.
Proof. unfold addr_vote. intros. go_crush. Qed.

Lemma quorum_vote_addr r a : quorum_vote r = Some a → addr_vote r = Some a.
Proof. unfold quorum_vote. intros. go_crush. Qed.

Lemma QuorumThreshold_majority n : 0 < n → n < 2 * QuorumThreshold n.
Proof. unfold QuorumThreshold. intros. destruct (Z.leb_spec n 2); [lia|].
  pose proof (Z.div_mod n 2). pose proof (Z.mod_pos_bound n 2). lia. Qed.

Lemma QuorumThreshold_pos n : 0 < n → 0 < QuorumThreshold n ≤ n.
Proof. unfold QuorumThreshold. intros. destruct (Z.leb_spec n 2); [lia|].
  pose proof (Z.div_mod n 2). pose proof (Z.mod_pos_bound n 2). lia. Qed.

Section poll_lemmas.
Context {R : MapRange}.

(** An address more than half of the sweep voted for is the winner, whatever
    the iteration order and the incumbent. *)
Lemma pick_winner_majority results inc a :
  (length results < 2 * count (votes_for addr_vote a) results)%nat →
  (pick_winner (tally addr_vote ∅ results) inc).1 = a.
Proof.
  intros Hmaj. set (c := count (votes_for addr_vote a) results) in *.
  unfold pick_winner.
  destruct (winner_fold inc (range_of (tally addr_vote ∅ results)) ("", 0%nat)) as (Hr & _ & Hmax).
  set (r := foldl _ _ _) in *.
  assert ((a, c) ∈ range_of (tally addr_vote ∅ results)) as Hac.
  { apply elem_of_range_of, tally_lookup. split; [done|lia]. }
  specialize (Hmax _ Hac). simpl in Hmax.
  destruct Hr as [Hr|Hr]; [rewrite Hr in Hmax; simpl in Hmax; lia|].
  destruct r as [b n]. apply elem_of_range_of, tally_lookup in Hr as [-> _]. simpl in *.
  destruct (majority_intersect (votes_for addr_vote a) (votes_for addr_vote b) results)
    as (x & _ & Hxa & Hxb); [done|lia|].
  unfold votes_for in *. bool_to_prop. congruence.
Qed.

Lemma load_publishLocked t q a e s lp o :
  load (publishLocked t q a e s lp o) =
  {| Addr := a; Epoch := e; Quorum := q; QuorumOK := bool_decide (q = QuorumStatusOK);
     UpdatedAt := t; LastPolledAt := lp; Src := s; ODown := odown o; ODownPull := odownPull o |}.
Proof. done. Qed.

Lemma count_votes_reached f a results :
  (∀ r b, f r = Some b → r_err r = false) →
  (count (votes_for f a) results ≤ count reached results)%nat.
Proof.
  intros Hf. apply count_mono. intros r _ Hr. unfold votes_for in Hr. bool_to_prop.
  unfold reached. by rewrite (Hf r a).
Qed.

Lemma pollOnce_quorum wires now tl tp o a :
  endpoints o ≠ [] → length wires = length (endpoints o) →
  let p := load (pollOnce wires now tl tp o) in
  (QuorumOK p = true ∧ Addr p = a) ↔
  QuorumThreshold (len (endpoints o)) ≤
    Z.of_nat (count (votes_for quorum_vote a) (queryOne <$> wires)).
Proof.
  intros Hne Hlen. unfold pollOnce.
  set (results := queryOne <$> wires).
  assert (Hpos : 0 < len (endpoints o)).
  { unfold len. destruct (endpoints o); [done|]. simpl. lia. }
  pose proof (QuorumThreshold_pos _ Hpos) as Ht.
  pose proof (QuorumThreshold_majority _ Hpos) as Hm.
  assert (Hl : Z.of_nat (length results) = len (endpoints o)).
  { unfold results, len. by rewrite length_fmap, Hlen. }
  cbv zeta. simpl endpoints. simpl load.
  set (w := (pick_winner _ _).1).
  rewrite !(tally_default quorum_vote results ∅). rewrite lookup_empty. simpl default.
  assert (Hq : ∀ b, (count (votes_for quorum_vote b) results ≤ count (votes_for addr_vote b) results)%nat).
  { intros b. apply count_mono. intros r _. unfold votes_for. rewrite !bool_decide_eq_true.
    apply quorum_vote_addr. }
  pose proof (count_votes_reached addr_vote a results) as Hreach.
  destruct (Z.ltb_spec (Z.of_nat (count reached results)) (QuorumThreshold (len (endpoints o)))).
  - rewrite load_publishLocked. simpl. split; [by intros [? _]|]. intros Hc. specialize (Hq a).
    assert (∀ r b, addr_vote r = Some b → r_err r = false) as Hv
      by (intros ?? ?%addr_vote_nonempty; tauto).
    specialize (Hreach Hv). lia.
  - rewrite load_publishLocked. simpl.
    destruct (Z.leb_spec (QuorumThreshold (len (endpoints o)))
      (Z.of_nat (count (votes_for quorum_vote w) results))) as [Hw|Hw]; simpl.
    + split; [by intros [_ <-]|]. intros Hc. split; [done|].
      apply pick_winner_majority. specialize (Hq a). lia.
    + split; [by intros [? _]|]. intros Hc. exfalso.
      assert (w = a) as Ewa; [|rewrite Ewa in Hw; lia].
      apply pick_winner_majority. specialize (Hq a). lia.
Qed.

(** ** Invariant of every reachable observer *)
Record obs_inv (o : observer) : Prop := {
  inv_stored : holder o ≠ None;
  inv_quorum : QuorumOK (load o) = bool_decide (Quorum (load o) = QuorumStatusOK);
  inv_odown : ODown (load o) = odown o;
  inv_odownPull : ODownPull (load o) = odownPull o;
  inv_addr : QuorumOK (load o) = true → Addr (load o) ≠ "";
  inv_endpoints : endpoints o ≠ []
}.

Lemma JoinHostPort_nonempty h p : JoinHostPort h p ≠ "".
Proof.
  unfold JoinHostPort. destruct (has_byte _ _); [done|]. destruct h; done.
Qed.

Lemma ParseSwitchMaster_nonempty s ev : ParseSwitchMaster s = Some ev → NewAddr ev ≠ "".
Proof. unfold ParseSwitchMaster. intros. go_cases. simplify_option_eq. apply JoinHostPort_nonempty. Qed.

Lemma ParseMasterEvent_nonempty s ev : ParseMasterEvent s = Some ev → me_Addr ev ≠ "".
Proof. unfold ParseMasterEvent. intros. go_cases. simplify_option_eq. apply JoinHostPort_nonempty. Qed.

(** A frame either leaves the observer alone or republishes the prior snapshot
    with another +odown map, address and source. *)
Lemma dispatch_cases tm t ep msg o :
  dispatch tm t ep msg o = o ∨
  ∃ m addr src, (addr = Addr (load o) ∨ addr ≠ "") ∧
    dispatch tm t ep msg o =
      notify (publishLocked t (Quorum (load o)) addr (Epoch (load o)) src
                (LastPolledAt (load o)) (set_odown m o)).
Proof.
  assert (Hs : set_odown (odown o) o = o) by (by destruct o).
  unfold dispatch. destruct (ParseEventKind (Channel msg)); try by left.
  - destruct (ParseSwitchMaster _) as [ev|] eqn:E; [|by left].
    case_bool_decide; [by left|]. unfold republish.
    destruct (bool_decide (Addr _ ≠ "") && _); [by left|]. right.
    exists (odown o), (NewAddr ev), SourcePubsub. rewrite Hs.
    split; [right; by eapply ParseSwitchMaster_nonempty|done].
  - destruct (ParseMasterEvent _) as [ev|] eqn:E; [|by left].
    case_bool_decide; [by left|]. right. exists (odown o), (me_Addr ev), SourcePubsub. rewrite Hs.
    split; [right; by eapply ParseMasterEvent_nonempty|done].
  - destruct (ParseMasterEvent _) as [ev|] eqn:E; [|by left].
    case_bool_decide; [by left|]. right. exists (odown o), (me_Addr ev), SourcePubsub. rewrite Hs.
    split; [right; by eapply ParseMasterEvent_nonempty|done].
  - destruct (ParseMasterEvent _) as [ev|]; [|by left]. case_bool_decide; [by left|].
    right. exists (<[Name ep:=tm]> (odown o)), (Addr (load o)), (Src (load o)). by split; [left|].
  - destruct (ParseMasterEvent _) as [ev|]; [|by left]. case_bool_decide; [by left|].
    right. exists (delete (Name ep) (odown o)), (Addr (load o)), (Src (load o)). by split; [left|].
Qed.

Lemma dispatch_fields tm t ep msg o :
  let o' := dispatch tm t ep msg o in
  Epoch (load o') = Epoch (load o) ∧ Quorum (load o') = Quorum (load o) ∧
  LastPolledAt (load o') = LastPolledAt (load o) ∧ endpoints o' = endpoints o ∧
  odownPull o' = odownPull o.
Proof. destruct (dispatch_cases tm t ep msg o) as [->|(m & addr & src & _ & ->)]; done. Qed.

Lemma dispatch_inv tm t ep msg o : obs_inv o → obs_inv (dispatch tm t ep msg o).
Proof.
  intros [H1 H2 H3 H4 H5 H6].
  destruct (dispatch_cases tm t ep msg o) as [->|(m & addr & src & Haddr & ->)]; [done|].
  split; try done. intros Hok. simpl in *. destruct Haddr as [->|]; [|done].
  apply H5. by rewrite H2.
Qed.

(** A poll publishes one snapshot over the reconciled pull-side map. *)
Lemma pollOnce_shape wires now tl tp o :
  ∃ q addr src,
    pollOnce wires now tl tp o =
      publishLocked tp q addr (Z.max (Epoch (load o)) (max_epoch (queryOne <$> wires))) src tl
        (set_odownPull
           (reconcileODownPull (odownPull o)
              (zip_with mk_odownObs (endpoints o) (queryOne <$> wires)) now)
           (set_endpointObs
              (zip_with (mk_endpointObs now) (endpoints o) (queryOne <$> wires)) o)) ∧
    (q = QuorumStatusOK → addr = "" → endpoints o = [] ∨ length wires ≠ length (endpoints o)).
Proof.
  destruct (decide (endpoints o = [] ∨ length wires ≠ length (endpoints o))) as [Hd|Hd].
  - unfold pollOnce. cbv zeta. destruct (_ <? _); do 3 eexists; (split; [reflexivity|]); auto.
  - assert (endpoints o ≠ [] ∧ length wires = length (endpoints o)) as [Hne Hlen]
      by (split; [tauto|destruct (decide (length wires = length (endpoints o))); tauto]).
    pose proof (pollOnce_quorum wires now tl tp o "" Hne Hlen) as Hiff. simpl in Hiff.
    assert (Hz : count (votes_for quorum_vote "") (queryOne <$> wires) = 0%nat).
    { destruct (count _ _) eqn:E; [done|].
      destruct (count_pos (votes_for quorum_vote "") (queryOne <$> wires)) as (r & _ & Hr); [lia|].
      unfold votes_for in Hr. bool_to_prop.
      by apply quorum_vote_addr, addr_vote_nonempty in Hr as [? _]. }
    rewrite Hz in Hiff.
    assert (¬ QuorumThreshold (len (endpoints o)) ≤ Z.of_nat 0) as Hthr.
    { assert (0 < len (endpoints o)) as Hp by (unfold len; destruct (endpoints o); [done|simpl; lia]).
      pose proof (QuorumThreshold_pos _ Hp). lia. }
    unfold pollOnce in *. cbv zeta in *.
    destruct (_ <? _).
    + do 3 eexists. split; [reflexivity|done].
    + do 3 eexists. split; [reflexivity|]. intros Hq Ha. exfalso.
      apply Hthr, Hiff. split; [exact (bool_decide_eq_true_2 _ Hq)|exact Ha].
Qed.

Lemma pollOnce_inv wires now tl tp o :
  length wires = length (endpoints o) → obs_inv o → obs_inv (pollOnce wires now tl tp o).
Proof.
  intros Hlen [H1 H2 H3 H4 H5 H6].
  destruct (pollOnce_shape wires now tl tp o) as (q & addr & src & -> & Hq).
  split; try done. simpl. intros Hok Ha. bool_to_prop. destruct (Hq Hok Ha); done.
Qed.
End poll_lemmas.

(** ** The pull-side +odown map *)
Lemma reconcile_one_other now m ob k :
  ob_name ob ≠ k → reconcile_one now m ob !! k = m !! k.
Proof.
  intros Hk. unfold reconcile_one. destruct (ob_flags ob) as [f|]; [|done].
  destruct (mf_ODown f); [destruct (m !! ob_name ob)|]; simpl_map; done.
Qed.

Lemma reconcile_absent now obs m k :
  k ∉ ob_name <$> obs → reconcileODownPull m obs now !! k = m !! k.
Proof.
  revert m. induction obs as [|ob obs IH]; intros m Hk; [done|].
  rewrite fmap_cons, not_elem_of_cons in Hk. destruct Hk as [Hk ?].
  unfold reconcileODownPull in *. simpl. rewrite IH by done. by apply reconcile_one_other.
Qed.

(** What one sentinel's reading does to its own stamp. *)
Definition odown_after (now : Time) (flags : option MasterFlags) (old : option Time) : option Time :=
  match flags with
  | None => old
  | Some f => if mf_ODown f then Some (default now old) else None
  end.

Lemma reconcile_one_self now m ob :
  reconcile_one now m ob !! ob_name ob = odown_after now (ob_flags ob) (m !! ob_name ob).
Proof.
  unfold reconcile_one, odown_after. destruct (ob_flags ob) as [f|]; [|done].
  destruct (mf_ODown f); [|by simpl_map]. destruct (m !! ob_name ob) eqn:E; by simpl_map.
Qed.

Lemma reconcile_present now obs m i ob :
  NoDup (ob_name <$> obs) → obs !! i = Some ob →
  reconcileODownPull m obs now !! ob_name ob = odown_after now (ob_flags ob) (m !! ob_name ob).
Proof.
  revert m i. induction obs as [|ob' obs IH]; intros m i Hnd Hi; [done|].
  rewrite fmap_cons, NoDup_cons in Hnd. destruct Hnd as [Hnin Hnd].
  unfold reconcileODownPull in *. destruct i as [|i]; simplify_eq/=.
  - fold (reconcileODownPull (reconcile_one now m ob) obs now).
    rewrite reconcile_absent by done. apply reconcile_one_self.
  - rewrite (IH _ i) by done. rewrite reconcile_one_other; [done|]. intros E. apply Hnin.
    rewrite E. apply list_elem_of_fmap_2. by eapply list_elem_of_lookup_2.
Qed.

Lemma odownObs_names eps results :
  length results = length eps → ob_name <$> zip_with mk_odownObs eps results = Name <$> eps.
Proof.
  revert results. induction eps as [|e eps IH]; intros [|r results] H; simplify_eq/=; [done|].
  f_equal. by apply IH.
Qed.

(** ** The properties *)
Definition sized (n : nat) (ev : obs_event) : bool :=
  match ev with EvPoll wires _ _ _ => Nat.eqb (length wires) n | EvMsg _ _ _ _ => true end.

Definition is_msg (ev : obs_event) : bool :=
  match ev with EvPoll _ _ _ _ => false | EvMsg _ _ _ _ => true end.

Lemma obs_run_app {R : MapRange} o l1 l2 : obs_run o (l1 ++ l2) = obs_run (obs_run o l1) l2.
Proof. apply foldl_app. Qed.

Lemma obs_step_epoch {R : MapRange} o ev : Epoch (load o) ≤ Epoch (load (obs_step o ev)).
Proof.
  destruct ev as [wires now tl tp|ep msg tm t]; simpl.
  - destruct (pollOnce_shape wires now tl tp o) as (q & addr & src & -> & _).
    rewrite load_publishLocked. cbn [Epoch]. lia.
  - destruct (dispatch_fields tm t ep msg o) as [-> _]. done.
Qed.

Lemma obs_step_inv {R : MapRange} o ev :
  sized (length (endpoints o)) ev = true → obs_inv o → obs_inv (obs_step o ev).
Proof.
  destruct ev; simpl; intros Hev Hi; [|by apply dispatch_inv].
  apply pollOnce_inv; [by apply Nat.eqb_eq|done].
Qed.

Lemma obs_step_endpoints {R : MapRange} o ev : endpoints (obs_step o ev) = endpoints o.
Proof.
  destruct ev as [wires now tl tp|ep msg tm t]; simpl.
  - by destruct (pollOnce_shape wires now tl tp o) as (q & addr & src & -> & _).
  - by destruct (dispatch_fields tm t ep msg o) as (_ & _ & _ & -> & _).
Qed.

(** The election epoch an observer reports never decreases: over any
    interleaving of poll ticks (with any wire outcomes) and subscription frames,
    a later snapshot's Epoch is at least an earlier one's, so a consumer never
    sees a failover "undone" by a partial sweep. *)
Theorem epoch_never_decreases {R : MapRange} o evs1 evs2 :
  Epoch (load (obs_run o evs1)) ≤ Epoch (load (obs_run o (evs1 ++ evs2))).
Proof.
  rewrite obs_run_app. generalize (obs_run o evs1). clear o evs1.
  induction evs2 as [|ev evs IH]; intros o; [done|].
  unfold obs_run in *. simpl. etrans; [apply (obs_step_epoch o ev)|apply IH].
Qed.

(** C27: One sweep of the observer publishes QuorumOK with primary address [a]
    exactly when at least QuorumThreshold sentinels of the whole endpoint list
    each answered without error, named [a] and passed CKQUORUM.  The sweep's
    winner-picking loop (any map order, any incumbent) therefore decides the same
    thing as counting corroborating votes. *)
Theorem poll_quorum_exact {R : MapRange} wires now tl tp o a :
  endpoints o ≠ [] → length wires = length (endpoints o) →
  let p := load (pollOnce wires now tl tp o) in
  (QuorumOK p = true ∧ Addr p = a) ↔
  QuorumThreshold (len (endpoints o)) ≤
    Z.of_nat (count (votes_for quorum_vote a) (queryOne <$> wires)).
Proof. apply pollOnce_quorum. Qed.

Definition wire_ok (host : string) (epoch : string) : queryWire :=
  {| qw_dial := true; qw_auth := true; qw_writeAddr := true;
     qw_readAddr := Some (RArr [RStr host; RStr "6379"]);
     qw_writeMaster := true;
     qw_readMaster := Some (RArr [RStr "config-epoch"; RStr epoch; RStr "flags"; RStr "master,o_down"]);
     qw_writeQuorum := true; qw_readQuorum := Some (RStr "OK 3 usable Sentinels") |}.

Definition wire_down : queryWire :=
  {| qw_dial := false; qw_auth := false; qw_writeAddr := false; qw_readAddr := None;
     qw_writeMaster := false; qw_readMaster := None; qw_writeQuorum := false;
     qw_readQuorum := None |}.

Definition three_eps : list Endpoint :=
  [{| Name := "s-0"; ep_Addr := "s-0:26379" |}; {| Name := "s-1"; ep_Addr := "s-1:26379" |};
   {| Name := "s-2"; ep_Addr := "s-2:26379" |}].

Lemma poll_quorum_exact_witness :
  let o := start 5 (newObserver "mymaster" three_eps) in
  let p := load (pollOnce (R := range_forward)
    [wire_ok "10.0.0.1" "7"; wire_down; wire_ok "10.0.0.1" "6"] 10 11 12 o) in
  QuorumOK p = true ∧ Addr p = "10.0.0.1:6379".
Proof.
  apply (poll_quorum_exact (R := range_forward)
    [wire_ok "10.0.0.1" "7"; wire_down; wire_ok "10.0.0.1" "6"] 10 11 12
    (start 5 (newObserver "mymaster" three_eps)) "10.0.0.1:6379");
    [discriminate|reflexivity|vm_compute; discriminate].
Defined.

(** A sweep's outcome does not depend on the order in which Go ranges over
    the vote map: for any two iteration orders, [pollOnce] produces the same
    observer state (the incumbent-first, then lexicographic tie break makes the
    winner deterministic even when addresses tie). *)
Theorem poll_range_order_irrelevant (R1 R2 : MapRange) wires now tl tp o :
  pollOnce (R := R1) wires now tl tp o = pollOnce (R := R2) wires now tl tp o.
Proof.
  unfold pollOnce, pick_winner.
  by rewrite (foldl_perm (winner_step _) _ _ ("", 0%nat)
    (λ b x y _ _, winner_step_comm _ b x y) (range_of_agree R1 R2 _)).
Qed.

(** Subscription frames alone can never manufacture or clear a quorum
    verdict: over any run of pub/sub messages, whatever their channel and payload,
    Quorum, QuorumOK, Epoch, LastPolledAt and the pull-side +odown map are those of
    the state before the run. *)
Theorem pubsub_keeps_quorum {R : MapRange} o evs :
  obs_inv o → Forall (λ ev, is_msg ev = true) evs →
  let p := load o in let p' := load (obs_run o evs) in
  Quorum p' = Quorum p ∧ QuorumOK p' = QuorumOK p ∧ Epoch p' = Epoch p ∧
  LastPolledAt p' = LastPolledAt p ∧ ODownPull p' = ODownPull p.
Proof.
  intros Hi Hm. revert o Hi. induction Hm as [|ev evs Hev _ IH]; intros o Hi; [done|].
  destruct ev as [|ep msg tm t]; [done|]. unfold obs_run in *. simpl in *.
  pose proof (dispatch_inv tm t ep msg o Hi) as Hi'.
  destruct (IH _ Hi') as (-> & -> & -> & -> & ->).
  destruct (dispatch_fields tm t ep msg o) as (E1 & E2 & E3 & _ & E5).
  by rewrite (inv_quorum _ Hi'), (inv_odownPull _ Hi'), (inv_quorum _ Hi), (inv_odownPull _ Hi), E1, E2, E3, E5.
Qed.

Lemma start_inv master eps now : eps ≠ [] → obs_inv (start now (newObserver master eps)).
Proof. intros. by split. Qed.

Lemma pubsub_keeps_quorum_witness :
  let o := start 5 (newObserver "mymaster" three_eps) in
  let p' := load (obs_run (R := range_forward) o
    [EvMsg {| Name := "s-0"; ep_Addr := "s-0:26379" |}
       {| Channel := "+switch-master"; Payload := "mymaster 10.0.0.1 6379 10.0.0.2 6379" |} 6 7]) in
  QuorumOK p' = false ∧ Addr p' = "10.0.0.2:6379".
Proof.
  intros o p'. split; [|reflexivity].
  destruct (pubsub_keeps_quorum (R := range_forward) o
    [EvMsg {| Name := "s-0"; ep_Addr := "s-0:26379" |}
       {| Channel := "+switch-master"; Payload := "mymaster 10.0.0.1 6379 10.0.0.2 6379" |} 6 7])
    as (_ & H & _).
  - by apply start_inv.
  - repeat constructor.
  - exact H.
Defined.

(** C37: Every observer state reachable from [start] by polls of the full
    endpoint list and by pub/sub frames is consistent: a snapshot is stored,
    QuorumOK is exactly Quorum = OK, the published +odown copies equal the
    observer's own maps (no torn publish), and QuorumOK is never reported with an
    empty primary address. *)
Theorem observer_reachable_inv {R : MapRange} master eps now evs :
  eps ≠ [] → Forall (λ ev, sized (length eps) ev = true) evs →
  obs_inv (obs_run (start now (newObserver master eps)) evs).
Proof.
  intros Hne Hs. pose proof (start_inv master eps now Hne) as Hi.
  assert (endpoints (start now (newObserver master eps)) = eps) as He by done.
  revert Hi He. generalize (start now (newObserver master eps)).
  induction Hs as [|ev evs Hev _ IH]; intros o Hi He; [done|].
  unfold obs_run in *. simpl. apply IH; [|by rewrite obs_step_endpoints].
  apply obs_step_inv; [by rewrite He|done].
Qed.

Lemma observer_reachable_inv_witness :
  obs_inv (obs_run (R := range_backward) (start 5 (newObserver "mymaster" three_eps))
    [EvPoll [wire_ok "10.0.0.1" "7"; wire_down; wire_ok "10.0.0.1" "6"] 10 11 12;
     EvMsg {| Name := "s-0"; ep_Addr := "s-0:26379" |}
       {| Channel := "+odown"; Payload := "master mymaster 10.0.0.1 6379" |} 13 14]).
Proof. apply (observer_reachable_inv (R := range_backward)); [discriminate|repeat constructor]. Defined.

(** The pull-side o_down stamp of each sentinel follows its own readings:
    an unreachable sentinel (or one whose flags did not parse) keeps its stamp, a
    reading of o_down keeps the first-seen time of the current run (so the age the
    triple-check debounces on is never refreshed), and a clear reading removes it.
    No other sentinel's reading touches it. *)
Theorem poll_odown_stamp {R : MapRange} wires now tl tp o i ep w :
  NoDup (Name <$> endpoints o) → length wires = length (endpoints o) →
  endpoints o !! i = Some ep → wires !! i = Some w →
  let r := queryOne w in
  ODownPull (load (pollOnce wires now tl tp o)) !! Name ep =
    odown_after now (if r_err r then None else r_flags r) (odownPull o !! Name ep).
Proof.
  intros Hnd Hlen Hep Hw. simpl.
  destruct (pollOnce_shape wires now tl tp o) as (q & addr & src & -> & _).
  rewrite load_publishLocked. cbn [ODownPull odownPull set_odownPull].
  apply (reconcile_present now _ _ i (mk_odownObs ep (queryOne w))).
  - rewrite odownObs_names; [done|]. by rewrite length_fmap.
  - apply lookup_zip_with_Some. exists ep, (queryOne w). split_and!; [done..|].
    by rewrite list_lookup_fmap, Hw.
Qed.

Lemma poll_odown_stamp_witness :
  ODownPull (load (pollOnce (R := range_forward)
    [wire_ok "10.0.0.1" "7"; wire_down; wire_ok "10.0.0.1" "6"] 10 11 12
    (start 5 (newObserver "mymaster" three_eps)))) !! "s-2" = Some 10.
Proof.
  apply (poll_odown_stamp (R := range_forward)
    [wire_ok "10.0.0.1" "7"; wire_down; wire_ok "10.0.0.1" "6"] 10 11 12
    (start 5 (newObserver "mymaster" three_eps)) 2
    {| Name := "s-2"; ep_Addr := "s-2:26379" |} (wire_ok "10.0.0.1" "6"));
    [|reflexivity..].
  refine (bool_decide_unpack _ _). vm_compute. exact I.
Defined.

(** With a single configured sentinel the threshold is one, so one
    corroborating answer publishes QuorumOK = true; a sweep of one endpoint is not
    always "no quorum". *)
Theorem single_sentinel_quorum {R : MapRange} master ep w now tl tp t a :
  quorum_vote (queryOne w) = Some a →
  let p := load (pollOnce [w] now tl tp (start t (newObserver master [ep]))) in
  QuorumOK p = true ∧ Addr p = a.
Proof.
  intros Hv. apply pollOnce_quorum; [done|done|].
  simpl. unfold votes_for. by rewrite bool_decide_eq_true_2.
Qed.

Lemma single_sentinel_quorum_witness :
  let p := load (pollOnce (R := range_forward) [wire_ok "10.0.0.1" "7"] 1 2 3
    (start 0 (newObserver "mymaster" [{| Name := "s-0"; ep_Addr := "s-0:26379" |}]))) in
  QuorumOK p = true ∧ Addr p = "10.0.0.1:6379".
Proof. apply (single_sentinel_quorum (R := range_forward)). reflexivity. Defined.
