(* ===== verification/TripleCheck.v ===== *)
(** * The failover triple-check: [internal/sentinel/triplecheck.go]

    [EvaluateTripleCheck] over a snapshot of the observer, and the rollout
    dispatcher's own freshness gate [snapshotStale]
    ([internal/controller/primary_rollout.go]).  The [Detail] text is kept as a
    constructor with the arguments the message prints. *)
From S2P Require Import Prelude GoStd Resp SentinelParse Observer.
Local Open Scope Z_scope.

Inductive TripleCheckReason : Type :=
  | TripleCheckReasonOK
  | TripleCheckReasonNoSnapshot
  | TripleCheckReasonNoQuorum
  | TripleCheckReasonNoODownConsensus
  | TripleCheckReasonPodReady
  | TripleCheckReasonStaleSnapshot.

Inductive TripleCheckDetail : Type :=
  | DetailNone
  | DetailNoSnapshot
  | DetailStale (age max : Duration)
  | DetailNoQuorum
  | DetailNoConsensus (consensus quorum : Z)
  | DetailPodReady.

Record TripleCheckInputs := {
  tc_Snapshot : Snapshot;
  tc_PodReady : bool;
  tc_Quorum : Z;
  tc_ODownStaleness : Duration;
  tc_MaxSnapshotAge : Duration;
  tc_Now : Time
}.

Record FailoverDecision := {
  Allow : bool;
  Reason : TripleCheckReason;
  Detail : TripleCheckDetail
}.

Definition block (r : TripleCheckReason) (d : TripleCheckDetail) : FailoverDecision :=
  {| Allow := false; Reason := r; Detail := d |}.

(** One entry's contribution to the consensus. *)
Definition odown_fresh (now : Time) (staleness : Duration) (t : Time) : bool :=
  if IsZero t then false
  else if staleness <=? 0 then true
  else let cutoff := Add now (- staleness) in After t cutoff || Z.eqb t cutoff.

Section triplecheck.
Context {R : MapRange}.

Definition ConsensusODown (odown : gmap string Time) (now : Time) (staleness : Duration) : Z :=
  if staleness <=? 0 then
    foldl (λ count '(_, t), if negb (IsZero t) then count + 1 else count) 0 (range_of odown)
  else
    let cutoff := Add now (- staleness) in
    foldl (λ count '(_, t),
      if IsZero t then count
      else if After t cutoff || Z.eqb t cutoff then count + 1 else count) 0 (range_of odown).

Definition EvaluateTripleCheck (inp : TripleCheckInputs) : FailoverDecision :=
  let snap := tc_Snapshot inp in
  if negb (Present snap) then block TripleCheckReasonNoSnapshot DetailNoSnapshot
  else
    let age := Sub (tc_Now inp) (UpdatedAt (Primary snap)) in
    if (0 <? tc_MaxSnapshotAge inp) && (tc_MaxSnapshotAge inp <? age) then
      block TripleCheckReasonStaleSnapshot (DetailStale age (tc_MaxSnapshotAge inp))
    else if negb (QuorumOK (Primary snap)) then block TripleCheckReasonNoQuorum DetailNoQuorum
    else
      let consensus := ConsensusODown (ODown (Primary snap)) (tc_Now inp) (tc_ODownStaleness inp) in
      if consensus <? tc_Quorum inp then
        block TripleCheckReasonNoODownConsensus (DetailNoConsensus consensus (tc_Quorum inp))
      else if tc_PodReady inp then block TripleCheckReasonPodReady DetailPodReady
      else {| Allow := true; Reason := TripleCheckReasonOK; Detail := DetailNone |}.
End triplecheck.

(** [controller.snapshotStale] *)
Definition snapshotStale (snap : Snapshot) (now : Time) (maxAge : Duration) : bool :=
  if maxAge <=? 0 then false else maxAge <? Sub now (LastPolledAt (Primary snap)).

(** ** Lemmas *)
Lemma foldl_count {A} (f : Z → A → Z) (p : A → bool) (l : list A) c :
  (∀ c x, f c x = if p x then c + 1 else c) → foldl f c l = c + Z.of_nat (count p l).
Proof.
  intros Hf. revert c. induction l as [|x l IH]; intros c; simpl; [lia|].
  rewrite IH, Hf. destruct (p x); lia.
Qed.

(** The set of sentinels whose stamp is fresh. *)
Definition fresh_sentinels (odown : gmap string Time) (now : Time) (staleness : Duration) : gset string :=
  dom (filter (λ kt : string * Time, odown_fresh now staleness kt.2 = true) odown).

Lemma count_map_filter {V : Type} (p : string * V → bool) (m : gmap string V) :
  count p (map_to_list m) = size (filter (λ kv, p kv = true) m).
Proof.
  induction m as [|k v m Hk IH] using map_ind.
  { rewrite map_to_list_empty, map_filter_empty, map_size_empty. done. }
  assert (count p (map_to_list (<[k:=v]> m)) = count p ((k, v) :: map_to_list m)) as ->.
  { rewrite !count_filter. apply Permutation_length.
    by rewrite (map_to_list_insert m k v Hk). }
  simpl. rewrite IH. destruct (p (k, v)) eqn:E.
  - rewrite map_filter_insert_True by done. rewrite map_size_insert_None; [lia|].
    apply map_lookup_filter_None. by left.
  - rewrite map_filter_insert_False by congruence. rewrite delete_id by done. done.
Qed.

Lemma ConsensusODown_size {R : MapRange} odown now st :
  ConsensusODown odown now st = Z.of_nat (size (fresh_sentinels odown now st)).
Proof.
  unfold fresh_sentinels. rewrite size_dom, <-(count_map_filter (λ kt, odown_fresh now st kt.2)).
  assert (∀ l1 l2 : list (string * Time), l1 ≡ₚ l2 →
    count (λ kt, odown_fresh now st kt.2) l1 = count (λ kt, odown_fresh now st kt.2) l2) as Hp.
  { intros l1 l2 Hl. rewrite !count_filter. by rewrite Hl. }
  rewrite <-(Hp _ _ (range_of_perm odown)).
  unfold ConsensusODown. cbv zeta. destruct (st <=? 0) eqn:E.
  - rewrite (foldl_count _ (λ kt, odown_fresh now st kt.2)); [done|].
    intros c [k t]. unfold odown_fresh. rewrite E. simpl. by destruct (IsZero t).
  - rewrite (foldl_count _ (λ kt, odown_fresh now st kt.2)); [done|].
    intros c [k t]. unfold odown_fresh. rewrite E. simpl. by destruct (IsZero t).
Qed.

Lemma elem_of_fresh odown now st s :
  s ∈ fresh_sentinels odown now st ↔ ∃ t, odown !! s = Some t ∧ odown_fresh now st t = true.
Proof.
  unfold fresh_sentinels. rewrite elem_of_dom. unfold is_Some.
  setoid_rewrite map_lookup_filter_Some. done.
Qed.

Lemma odown_fresh_spec now st t :
  0 < st → odown_fresh now st t = true ↔ t ≠ zero_time ∧ now - t ≤ st.
Proof.
  intros Hst. unfold odown_fresh, IsZero, After, Add, zero_time.
  rewrite (proj2 (Z.leb_gt _ _)) by lia. destruct (Z.eqb_spec t 0); [naive_solver|].
  rewrite orb_true_iff, Z.ltb_lt, Z.eqb_eq. lia.
Qed.

(** ** Properties *)

(** A failover is authorised exactly when every gate holds: a snapshot is
    present and its last update is no older than MaxSnapshotAge, CKQUORUM is OK,
    kubelet reports the primary not Ready, and there is a set of at least Quorum
    distinct sentinels each with a +odown seen within the staleness window.  The
    consensus count is the size of that set, whatever order Go ranges over the
    +odown map. *)
Theorem triplecheck_allow_iff {R : MapRange} (inp : TripleCheckInputs) :
  0 < tc_ODownStaleness inp → 0 < tc_MaxSnapshotAge inp < max_int64 →
  let p := Primary (tc_Snapshot inp) in
  Allow (EvaluateTripleCheck inp) = true ↔
    Present (tc_Snapshot inp) = true ∧
    tc_Now inp - UpdatedAt p ≤ tc_MaxSnapshotAge inp ∧
    QuorumOK p = true ∧ tc_PodReady inp = false ∧
    ∃ S : gset string, tc_Quorum inp ≤ Z.of_nat (size S) ∧
      ∀ s, s ∈ S → ∃ t, ODown p !! s = Some t ∧ t ≠ zero_time ∧
                        tc_Now inp - t ≤ tc_ODownStaleness inp.
Proof.
  intros Hst Hmax p. unfold EvaluateTripleCheck. fold p. cbv zeta.
  rewrite ConsensusODown_size, (proj2 (Z.ltb_lt _ _)) by lia. rewrite andb_true_l.
  assert ((tc_MaxSnapshotAge inp <? Sub (tc_Now inp) (UpdatedAt p)) = false ↔
    tc_Now inp - UpdatedAt p ≤ tc_MaxSnapshotAge inp) as Hage.
  { rewrite Z.ltb_ge. apply Sub_le_iff. unfold min_int64. lia. }
  assert (tc_Quorum inp ≤ Z.of_nat (size (fresh_sentinels (ODown p) (tc_Now inp) (tc_ODownStaleness inp)))
    ↔ ∃ S : gset string, tc_Quorum inp ≤ Z.of_nat (size S) ∧
      ∀ s, s ∈ S → ∃ t, ODown p !! s = Some t ∧ t ≠ zero_time ∧
                        tc_Now inp - t ≤ tc_ODownStaleness inp) as Hset.
  { setoid_rewrite <-(odown_fresh_spec _ _ _ Hst). setoid_rewrite <-elem_of_fresh. split.
    - intros. eexists. split; [done|]. done.
    - intros (S & HS & Hin). assert (S ⊆ fresh_sentinels (ODown p) (tc_Now inp) (tc_ODownStaleness inp))
        as Hsub by (intros s; apply Hin).
      apply subseteq_size in Hsub. lia. }
  rewrite <-Hset, <-Hage.
  destruct (Present _), (_ <? Sub _ _), (QuorumOK p), (tc_PodReady inp); simpl;
    destruct (Z.ltb_spec (Z.of_nat (size (fresh_sentinels (ODown p) (tc_Now inp) (tc_ODownStaleness inp)))) (tc_Quorum inp));
    simpl; naive_solver lia.
Qed.

Lemma triplecheck_allow_iff_witness :
  Allow (EvaluateTripleCheck (R := range_forward)
    {| tc_Snapshot := {| Present := true;
         Primary := {| Addr := "10.0.0.1:6379"; Epoch := 3; Quorum := QuorumStatusOK;
           QuorumOK := true; UpdatedAt := 90; LastPolledAt := 90; Src := SourcePoll;
           ODown := {["s-0" := 80; "s-1" := 95]}; ODownPull := ∅ |} |};
       tc_PodReady := false; tc_Quorum := 2; tc_ODownStaleness := 30; tc_MaxSnapshotAge := 30;
       tc_Now := 100 |}) = true.
Proof.
  apply triplecheck_allow_iff; simpl; [lia|unfold max_int64; lia|].
  split_and!; [done|lia|done|done|]. exists {["s-0"; "s-1"]}.
  split; [vm_compute; discriminate|].
  intros s [->%elem_of_singleton | ->%elem_of_singleton]%elem_of_union; eexists;
    (split; [reflexivity|]); unfold zero_time; lia.
Defined.

(** The frames that refresh a snapshot without a poll. *)
Definition odown_frames (payload : string) (now : Time) (eps : list Endpoint) : list obs_event :=
  (λ ep, EvMsg ep {| Channel := "+odown"; Payload := payload |} now now) <$> eps.

Lemma odown_frames_run {R : MapRange} payload ev now eps o :
  ParseMasterEvent payload = Some ev → me_MasterName ev = masterName o → eps ≠ [] →
  obs_inv o →
  let o' := obs_run o (odown_frames payload now eps) in
  odown o' = foldl (λ m ep, <[Name ep := now]> m) (odown o) eps ∧
  UpdatedAt (load o') = now ∧ LastPolledAt (load o') = LastPolledAt (load o) ∧
  QuorumOK (load o') = QuorumOK (load o) ∧ obs_inv o'.
Proof.
  intros Hp Hm. revert o Hm. induction eps as [|ep eps IH]; intros o Hm Hne Hi; [done|].
  unfold obs_run, odown_frames in *. simpl.
  assert (dispatch now now ep {| Channel := "+odown"; Payload := payload |} o =
    notify (publishLocked now (Quorum (load o)) (Addr (load o)) (Epoch (load o)) (Src (load o))
      (LastPolledAt (load o)) (set_odown (<[Name ep:=now]> (odown o)) o))) as Hd.
  { unfold dispatch. simpl. rewrite Hp. by case_bool_decide. }
  pose proof (dispatch_inv now now ep {| Channel := "+odown"; Payload := payload |} o Hi) as Hi'.
  rewrite Hd in *. set (o1 := notify _) in *.
  assert (QuorumOK (load o1) = QuorumOK (load o)) as Hq by (by rewrite (inv_quorum _ Hi)).
  destruct (decide (eps = [])) as [->|Hne']; [by simpl|].
  destruct (IH o1) as (E1 & E2 & E3 & E4 & E5); [done..|].
  split_and!; [exact E1|exact E2|exact E3|by rewrite <-Hq|exact E5].
Qed.

Lemma foldl_insert_keep (now : Time) eps (m : gmap string Time) s :
  m !! s = Some now → foldl (λ m ep, <[Name ep := now]> m) m eps !! s = Some now.
Proof.
  revert m. induction eps as [|ep eps IH]; intros m H; [done|]. simpl. apply IH.
  destruct (decide (Name ep = s)) as [->|]; by simpl_map.
Qed.

Lemma foldl_insert_lookup (now : Time) eps (m : gmap string Time) s :
  s ∈ Name <$> eps → foldl (λ m ep, <[Name ep := now]> m) m eps !! s = Some now.
Proof.
  revert m. induction eps as [|ep eps IH]; intros m; [by intros ?%not_elem_of_nil|].
  rewrite fmap_cons, elem_of_cons. simpl. intros [->|Hin]; [|by apply IH].
  apply foldl_insert_keep. by simpl_map.
Qed.

(** The triple-check's freshness gate reads UpdatedAt, which a pub/sub frame
    refreshes while carrying the old quorum verdict: once the observer has
    published QuorumOK, +odown frames from [Quorum] sentinels make the check allow
    a failover although no poll has run for longer than MaxSnapshotAge, however
    long ago the last poll was.  The rollout dispatcher's own gate
    [snapshotStale], which reads LastPolledAt, rejects the same snapshot. *)
Theorem triplecheck_stale_poll_allowed {R : MapRange} o payload ev eps q st maxAge now :
  obs_inv o → QuorumOK (load o) = true →
  ParseMasterEvent payload = Some ev → me_MasterName ev = masterName o →
  NoDup (Name <$> eps) → eps ≠ [] → q ≤ len eps →
  0 < st → 0 < maxAge < max_int64 → now ≠ zero_time →
  maxAge < now - LastPolledAt (load o) →
  let snap := snapshot (obs_run o (odown_frames payload now eps)) in
  Allow (EvaluateTripleCheck {| tc_Snapshot := snap; tc_PodReady := false; tc_Quorum := q;
    tc_ODownStaleness := st; tc_MaxSnapshotAge := maxAge; tc_Now := now |}) = true ∧
  snapshotStale snap now maxAge = true.
Proof.
  intros Hi Hok Hp Hm Hnd Hne Hq Hst Hmax Hnow Hstale.
  destruct (odown_frames_run payload ev now eps o Hp Hm Hne Hi) as (E1 & E2 & E3 & E4 & Hi').
  set (o' := obs_run _ _) in *.
  assert (snapshot o' = {| Present := true; Primary := load o' |}) as ->.
  { unfold snapshot, load. destruct (holder o') eqn:E; [done|]. by destruct (inv_stored _ Hi'). }
  split.
  - unfold EvaluateTripleCheck. cbn -[load ConsensusODown Sub Z.ltb].
    rewrite E2, E4, Hok, ConsensusODown_size, (inv_odown _ Hi'), E1.
    unfold Sub. rewrite Z.sub_diag. unfold clamp64, min_int64, max_int64.
    rewrite (proj2 (Z.ltb_ge maxAge _)) by lia. rewrite andb_false_r. simpl.
    rewrite (proj2 (Z.ltb_ge _ q)); [done|].
    assert (list_to_set (Name <$> eps) ⊆
      fresh_sentinels (foldl (λ m ep, <[Name ep := now]> m) (odown o) eps) now st) as Hsub.
    { intros s Hs%elem_of_list_to_set. apply elem_of_fresh. exists now.
      split; [by apply foldl_insert_lookup|]. apply odown_fresh_spec; [done|]. split; [done|lia]. }
    apply subseteq_size in Hsub. rewrite size_list_to_set, length_fmap in Hsub by done.
    unfold len in Hq. lia.
  - unfold snapshotStale. rewrite (proj2 (Z.leb_gt _ _)) by lia. apply Z.ltb_lt. cbn -[load].
    rewrite E3. unfold Sub, clamp64. lia.
Qed.

Lemma triplecheck_stale_poll_allowed_witness :
  let o := pollOnce (R := range_forward)
    [wire_ok "10.0.0.1" "7"; wire_ok "10.0.0.1" "7"; wire_ok "10.0.0.1" "7"] 1 1 1
    (start 1 (newObserver "mymaster" three_eps)) in
  let snap := snapshot (obs_run (R := range_forward) o
    (odown_frames "master mymaster 10.0.0.1 6379" (3600 * Second) (take 2 three_eps))) in
  Allow (EvaluateTripleCheck (R := range_forward)
    {| tc_Snapshot := snap; tc_PodReady := false; tc_Quorum := 2;
       tc_ODownStaleness := 30 * Second; tc_MaxSnapshotAge := 30 * Second;
       tc_Now := 3600 * Second |}) = true ∧
  snapshotStale snap (3600 * Second) (30 * Second) = true.
Proof.
  intros o snap.
  apply (triplecheck_stale_poll_allowed (R := range_forward) o "master mymaster 10.0.0.1 6379"
    {| me_MasterName := "mymaster"; me_Addr := "10.0.0.1:6379" |} (take 2 three_eps));
    try (vm_compute; reflexivity).
  - apply pollOnce_inv; [reflexivity|]. by apply start_inv.
  - refine (bool_decide_unpack _ _). vm_compute. exact I.
  - discriminate.
  - vm_compute; discriminate.
  - vm_compute; split; reflexivity.
  - vm_compute; discriminate.
Defined.
