(* ===== verification/SQAggregate.v ===== *)
(** * SentinelQuorum aggregation: [internal/sqaggregate/aggregate.go]

    Merges the per-sentinel SentinelQuorum records of one CR into the primary a
    strict majority of fresh records names and a tri-state quorum verdict. *)
From S2P Require Import Prelude GoStd Observer.
Local Open Scope Z_scope.

(** The fields of [SentinelQuorumStatus] the aggregator reads. *)
Record SentinelQuorumStatus := {
  LastObservedTime : option Time;
  sq_ObservedPrimary : string;
  QuorumReachable : option bool
}.

Record Result := {
  PrimaryPod : string;
  PrimaryConfirmed : bool;
  QuorumLost : bool;
  ag_Quorum : QuorumStatus;
  FreshCount : Z;
  StaleCount : Z
}.

Record tallies := { t_fresh : Z; t_stale : Z; t_votes : gmap string nat; t_quorumOK : Z }.

Definition tallies_zero : tallies := {| t_fresh := 0; t_stale := 0; t_votes := ∅; t_quorumOK := 0 |}.

(** One turn of the first loop. *)
Definition tally_sq (now : Time) (freshnessWindow : Duration) (a : tallies)
    (st : SentinelQuorumStatus) : tallies :=
  let drop := {| t_fresh := t_fresh a; t_stale := t_stale a + 1; t_votes := t_votes a;
                 t_quorumOK := t_quorumOK a |} in
  match LastObservedTime st with
  | None => drop
  | Some t =>
      if IsZero t then drop
      else if freshnessWindow <? Sub now t then drop
      else
        {| t_fresh := t_fresh a + 1;
           t_stale := t_stale a;
           t_votes := if bool_decide (sq_ObservedPrimary st ≠ "")
                      then bump (t_votes a) (sq_ObservedPrimary st) else t_votes a;
           t_quorumOK := match QuorumReachable st with
                         | Some true => t_quorumOK a + 1
                         | _ => t_quorumOK a
                         end |}
  end.

Section aggregate.
Context {R : MapRange}.

Definition Aggregate (now : Time) (freshnessWindow : Duration) (quorum : Z)
    (sqs : list SentinelQuorumStatus) : Result :=
  let a := foldl (tally_sq now freshnessWindow) tallies_zero sqs in
  let found := List.find (λ '(_, c), t_fresh a <? Z.of_nat c * 2) (range_of (t_votes a)) in
  let q :=
    if Nat.eqb (length sqs) 0 then QuorumStatusUnknown
    else if t_fresh a =? 0 then QuorumStatusLost
    else if t_quorumOK a <? quorum then QuorumStatusLost
    else QuorumStatusOK in
  {| PrimaryPod := match found with Some (pod, _) => pod | None => "" end;
     PrimaryConfirmed := bool_decide (is_Some found);
     QuorumLost := bool_decide (q = QuorumStatusLost);
     ag_Quorum := q;
     FreshCount := t_fresh a;
     StaleCount := t_stale a |}.
End aggregate.

(** ** The counts behind the tallies *)
Definition fresh (now : Time) (w : Duration) (st : SentinelQuorumStatus) : bool :=
  match LastObservedTime st with
  | None => false
  | Some t => negb (IsZero t) && (Sub now t <=? w)
  end.

Definition names_pod (now : Time) (w : Duration) (st : SentinelQuorumStatus) : option string :=
  if fresh now w st && bool_decide (sq_ObservedPrimary st ≠ "")
  then Some (sq_ObservedPrimary st) else None.

Definition reports_quorum (now : Time) (w : Duration) (st : SentinelQuorumStatus) : bool :=
  fresh now w st && match QuorumReachable st with Some true => true | _ => false end.

Lemma tally_sq_fresh now w a st :
  tally_sq now w a st =
  if fresh now w st then
    {| t_fresh := t_fresh a + 1; t_stale := t_stale a;
       t_votes := match names_pod now w st with Some k => bump (t_votes a) k | None => t_votes a end;
       t_quorumOK := t_quorumOK a + (if reports_quorum now w st then 1 else 0) |}
  else {| t_fresh := t_fresh a; t_stale := t_stale a + 1; t_votes := t_votes a;
          t_quorumOK := t_quorumOK a |}.
Proof.
  unfold tally_sq, names_pod, reports_quorum, fresh.
  destruct (LastObservedTime st) as [t|]; [|done].
  destruct (IsZero t); simpl; [done|]. rewrite Z.ltb_antisym.
  destruct (Sub now t <=? w); simpl; [|done].
  f_equal; [by case_bool_decide|]. destruct (QuorumReachable st) as [[]|]; lia.
Qed.

Lemma tallies_spec now w sqs a :
  let r := foldl (tally_sq now w) a sqs in
  t_fresh r = t_fresh a + Z.of_nat (count (fresh now w) sqs) ∧
  t_stale r = t_stale a + Z.of_nat (count (λ s, negb (fresh now w s)) sqs) ∧
  t_votes r = tally (names_pod now w) (t_votes a) sqs ∧
  t_quorumOK r = t_quorumOK a + Z.of_nat (count (reports_quorum now w) sqs).
Proof.
  revert a. induction sqs as [|st sqs IH]; intros a; [by simpl; split_and!; try lia|].
  simpl. destruct (IH (tally_sq now w a st)) as (-> & -> & -> & ->).
  rewrite tally_sq_fresh. unfold tally. simpl.
  destruct (fresh now w st) eqn:E; simpl; split_and!; try lia; try done.
  - destruct (reports_quorum now w st); lia.
  - assert (names_pod now w st = None) as -> by (unfold names_pod; by rewrite E). done.
  - assert (reports_quorum now w st = false) as -> by (unfold reports_quorum; by rewrite E). lia.
Qed.

Lemma votes_le_fresh now w pod sqs :
  (count (votes_for (names_pod now w) pod) sqs ≤ count (fresh now w) sqs)%nat.
Proof.
  apply count_mono. intros st _. unfold votes_for, names_pod. rewrite bool_decide_eq_true.
  by destruct (fresh now w st).
Qed.

(** The strict majority is unique among the fresh records. *)
Lemma strict_majority_unique now w sqs p1 p2 :
  (count (fresh now w) sqs < 2 * count (votes_for (names_pod now w) p1) sqs)%nat →
  (count (fresh now w) sqs < 2 * count (votes_for (names_pod now w) p2) sqs)%nat →
  p1 = p2.
Proof.
  set (l := filter (λ s, fresh now w s = true) sqs).
  assert (Hc : ∀ p, count (votes_for (names_pod now w) p) sqs = count (votes_for (names_pod now w) p) l).
  { intros p. unfold l. clear. induction sqs as [|st sqs IH]; [done|]. rewrite filter_cons.
    case_decide as E; simpl; rewrite IH; [done|].
    unfold votes_for, names_pod. destruct (fresh now w st); done. }
  rewrite count_filter, !Hc. fold l. intros H1 H2.
  destruct (majority_intersect _ _ _ H1 H2) as (x & _ & Hx1 & Hx2).
  unfold votes_for in *. bool_to_prop. congruence.
Qed.

Lemma found_iff {R : MapRange} now w sqs pod n :
  List.find (λ '(_, c), Z.of_nat (count (fresh now w) sqs) <? Z.of_nat c * 2)
    (range_of (tally (names_pod now w) ∅ sqs)) = Some (pod, n) ↔
  n = count (votes_for (names_pod now w) pod) sqs ∧
  (count (fresh now w) sqs < 2 * count (votes_for (names_pod now w) pod) sqs)%nat.
Proof.
  split.
  - intros Hf. apply List.find_some in Hf as [Hin Hc]. apply list_elem_of_In in Hin.
    apply elem_of_range_of, tally_lookup in Hin as [-> _].
    bool_to_prop. split; [done|lia].
  - intros [-> Hmaj].
    destruct (List.find _ _) as [[pod' n']|] eqn:Hf.
    + apply List.find_some in Hf as [Hin Hc]. apply list_elem_of_In in Hin.
      apply elem_of_range_of, tally_lookup in Hin as [-> _]. bool_to_prop.
      rewrite (strict_majority_unique now w sqs pod pod'); [done..|lia].
    + exfalso. pose proof (List.find_none _ _ Hf (pod, count (votes_for (names_pod now w) pod) sqs)) as Hn.
      simpl in Hn. rewrite <-list_elem_of_In in Hn.
      rewrite (proj2 (Z.ltb_lt _ _)) in Hn by lia.
      discriminate Hn. apply elem_of_range_of, tally_lookup. split; [done|lia].
Qed.

(** ** Properties *)

(** The aggregator confirms pod [pod] as primary exactly when it is a
    non-empty name that a strict majority of the fresh records report; records
    that are stale, never observed or name no primary do not vote, and a tie or a
    plurality confirms nothing.  Go's map iteration order plays no part. *)
Theorem aggregate_primary_iff {R : MapRange} now w quorum sqs pod :
  let r := Aggregate now w quorum sqs in
  (PrimaryConfirmed r = true ∧ PrimaryPod r = pod) ↔
  pod ≠ "" ∧
  FreshCount r < 2 * Z.of_nat (count (λ st, fresh now w st && bool_decide (sq_ObservedPrimary st = pod)) sqs).
Proof.
  unfold Aggregate. cbn [PrimaryConfirmed PrimaryPod FreshCount].
  destruct (tallies_spec now w sqs tallies_zero) as (-> & _ & -> & _).
  cbn [tallies_zero t_fresh t_votes]. rewrite Z.add_0_l.
  assert (∀ p, p ≠ "" →
    count (λ st, fresh now w st && bool_decide (sq_ObservedPrimary st = p)) sqs =
    count (votes_for (names_pod now w) p) sqs) as Hc.
  { intros p Hp. apply count_ext. intros st _. unfold votes_for, names_pod.
    destruct (fresh now w st); simpl; [|done].
    repeat case_bool_decide; naive_solver. }
  split.
  - intros [Hs Hpod]. bool_to_prop. destruct Hs as [[p n] Hf]. rewrite Hf in Hpod. subst p.
    apply found_iff in Hf as [_ Hmaj].
    assert (pod ≠ "") as Hne.
    { intros ->. destruct (count_pos (votes_for (names_pod now w) "") sqs) as (x & _ & Hx); [lia|].
      unfold votes_for, names_pod in Hx. bool_to_prop. go_crush. }
    split; [done|]. rewrite Hc by done. lia.
  - intros [Hne Hmaj]. rewrite Hc in Hmaj by done.
    destruct (found_iff now w sqs pod (count (votes_for (names_pod now w) pod) sqs)) as [_ Hf].
    rewrite Hf by (split; [done|lia]). split; [by apply bool_decide_eq_true|done].
Qed.

Lemma count_perm {A} (p : A → bool) l1 l2 : l1 ≡ₚ l2 → count p l1 = count p l2.
Proof. intros H. rewrite !count_filter. by rewrite H. Qed.

(** The verdict is a function of the multiset of records: permuting the
    records (the API server's list order) and changing the map iteration order
    leave every field of the result unchanged. *)
Theorem aggregate_order_irrelevant (R1 R2 : MapRange) now w quorum sqs1 sqs2 :
  sqs1 ≡ₚ sqs2 →
  Aggregate (R := R1) now w quorum sqs1 = Aggregate (R := R2) now w quorum sqs2.
Proof.
  intros Hp. unfold Aggregate.
  destruct (tallies_spec now w sqs1 tallies_zero) as (-> & -> & -> & ->).
  destruct (tallies_spec now w sqs2 tallies_zero) as (-> & -> & -> & ->).
  cbn [tallies_zero t_fresh t_stale t_votes t_quorumOK]. rewrite !Z.add_0_l.
  rewrite (Permutation_length Hp), (count_perm (λ s, negb _) _ _ Hp),
    (count_perm (reports_quorum now w) _ _ Hp).
  set (f1 := List.find _ (@range_of R1 _ _)). set (f2 := List.find _ (@range_of R2 _ _)).
  assert (f1 = f2) as ->; [|by rewrite (count_perm (fresh now w) _ _ Hp)].
  apply option_eq. intros [pod n]. unfold f1, f2. rewrite !found_iff.
  by rewrite !(count_perm _ _ _ Hp).
Qed.

Definition sq_rec (t : Time) (pod : string) (q : option bool) : SentinelQuorumStatus :=
  {| LastObservedTime := Some t; sq_ObservedPrimary := pod; QuorumReachable := q |}.

Lemma aggregate_order_irrelevant_witness :
  Aggregate (R := range_forward) 100 30 2
    [sq_rec 90 "v-0" (Some true); sq_rec 90 "v-1" None; sq_rec 95 "v-0" (Some true)] =
  Aggregate (R := range_backward) 100 30 2
    [sq_rec 90 "v-1" None; sq_rec 90 "v-0" (Some true); sq_rec 95 "v-0" (Some true)].
Proof. apply aggregate_order_irrelevant. constructor. Defined.

(** The quorum verdict: Unknown only when there are no records at all; with
    records present it is OK exactly when at least one is fresh and the fresh
    records reporting QuorumReachable=true number at least the configured quorum,
    and Lost otherwise.  In particular input that has gone entirely stale is Lost,
    not the zero-value (Unknown) result. *)
Theorem aggregate_quorum_verdict {R : MapRange} now w quorum sqs :
  let r := Aggregate now w quorum sqs in
  (ag_Quorum r = QuorumStatusUnknown ↔ sqs = []) ∧
  (ag_Quorum r = QuorumStatusOK ↔
     0 < Z.of_nat (count (fresh now w) sqs) ∧
     quorum ≤ Z.of_nat (count (reports_quorum now w) sqs)) ∧
  (QuorumLost r = true ↔ ag_Quorum r = QuorumStatusLost) ∧
  FreshCount r + StaleCount r = len sqs ∧
  (sqs ≠ [] → FreshCount r = 0 → QuorumLost r = true).
Proof.
  unfold Aggregate. cbn [ag_Quorum QuorumLost FreshCount StaleCount].
  destruct (tallies_spec now w sqs tallies_zero) as (-> & -> & _ & ->).
  cbn [tallies_zero t_fresh t_stale t_quorumOK]. rewrite !Z.add_0_l, bool_decide_eq_true.
  assert (count (fresh now w) sqs + count (λ s, negb (fresh now w s)) sqs = length sqs)%nat.
  { clear. induction sqs as [|st sqs IH]; simpl; [done|]. destruct (fresh now w st); simpl; lia. }
  destruct sqs as [|st sqs]; [simpl in *; split_and!; naive_solver lia|].
  set (l := st :: sqs) in *. assert (l ≠ []) by done. clearbody l. unfold len.
  assert (length l ≠ 0%nat) by (by destruct l).
  destruct (Nat.eqb_spec (length l) 0); [done|].
  destruct (Z.eqb_spec (Z.of_nat (count (fresh now w) l)) 0);
    [|destruct (Z.ltb_spec (Z.of_nat (count (reports_quorum now w) l)) quorum)];
    split_and!; try lia; try (split; [discriminate|]); naive_solver lia.
Qed.
