(* ===== verification/SentinelWire.v ===== *)
(** * One exchange with one sentinel: the [*One] functions of
    [internal/sentinel/{conn,monitor,remove,peers,surgery_guard,auth,failover,tuning}.go]

    A dialled connection is the script of what its successive commands meet: each
    [io] is the outcome of one write-then-read.  The bodies run in a small
    state-and-error monad over the script; an error carries Go's error text, which
    some callers match on.  Timeouts and resets are error outcomes of the script. *)
From S2P Require Import Prelude GoStd Resp SentinelParse Observer.
Local Open Scope Z_scope.

Inductive io : Type :=
  | IOWrite (e : string)    (* the write failed *)
  | IORead (e : string)     (* the write went out, [readReply] gave an error *)
  | IOReply (r : reply).

(** [Err e] is a failed dial. *)
Definition conn : Type := result (list io).

(** ** The monad *)
Definition wire (A : Type) : Type := list io → result (A * list io).
Definition wret {A} (a : A) : wire A := λ s, Ok (a, s).
Definition wfail {A} (e : string) : wire A := λ _, Err e.
Definition wbind {A B} (m : wire A) (k : A → wire B) : wire B :=
  λ s, match m s with Ok (a, s') => k a s' | Err e => Err e end.

Declare Scope wire_scope.
Delimit Scope wire_scope with wire.
Notation "'let*' x ':=' m 'in' k" := (wbind m (λ x, k))
  (at level 10, x name, m at level 100, k at level 200) : wire_scope.
Local Open Scope wire_scope.

(** A connection whose script is used up is closed by the peer. *)
Definition pop (s : list io) : io * list io :=
  match s with [] => (IORead "EOF", []) | x :: s => (x, s) end.

(** Write a command and read its reply; [w] and [r] are the prefixes the caller
    wraps the two errors with. *)
Definition roundtrip (w r : string) : wire reply :=
  λ s, match pop s with
       | (IOWrite e, _) => Err (w +:+ e)
       | (IORead e, _) => Err (r +:+ e)
       | (IOReply x, s) => Ok (x, s)
       end.

(** [fmt]'s %v of a reply. *)
Fixpoint fmt_v (r : reply) : string :=
  match r with
  | RStr s => s
  | RInt n => Itoa n
  | RArr l => "[" +:+ Join (fmt_v <$> l) " " +:+ "]"
  end.

Definition is_reply (want : string) (r : reply) : bool :=
  match r with RStr s => bool_decide (s = want) | _ => false end.

Definition authIfNeeded (password : string) : wire unit :=
  if bool_decide (password = "") then wret tt
  else
    let* r := roundtrip "write AUTH: " "AUTH: " in
    if is_reply "OK" r then wret tt else wfail ("AUTH: unexpected reply " +:+ fmt_v r).

(** Dial, authenticate, run the body, close. *)
Definition with_conn {A} (password : string) (c : conn) (body : wire A) : result A :=
  match c with
  | Err e => Err ("dial: " +:+ e)
  | Ok s =>
      match (let* _ := authIfNeeded password in body) s with
      | Ok (a, _) => Ok a
      | Err e => Err e
      end
  end.

(** ** Read-only probes *)
Definition masterReachable (password : string) (c : conn) : result unit :=
  with_conn password c
    (let* r := roundtrip "write PING: " "read PING: " in
     if is_reply "PONG" r then wret tt else wfail ("PING: unexpected reply " +:+ fmt_v r)).

Definition sentinelsOne (password : string) (c : conn) : result (list PeerInfo) :=
  with_conn password c
    (let* r := roundtrip "write SENTINEL SENTINELS: " "read SENTINEL SENTINELS: " in
     wret (ParseSentinelsReply r)).

Definition replicasOne (password : string) (c : conn) : result (list ReplicaInfo) :=
  with_conn password c
    (let* r := roundtrip "write SENTINEL REPLICAS: " "read SENTINEL REPLICAS: " in
     wret (ParseReplicasReply r)).

Definition masterPeerCountOne (password : string) (c : conn) : result Z :=
  with_conn password c
    (let* r := roundtrip "write SENTINEL MASTER: " "read SENTINEL MASTER: " in
     match ParseSentinelMasterNumOtherSentinels r with
     | None => wfail "SENTINEL MASTER: num-other-sentinels field absent or malformed"
     | Some n => wret n
     end).

Definition failoverInProgressOne (password : string) (c : conn) : result bool :=
  with_conn password c
    (let* r := roundtrip "write SENTINEL master: " "read SENTINEL master: " in
     wret match masterReplyFlags r with
          | None => false
          | Some flags => Contains flags "failover_in_progress"
          end).

Definition masterFlagsOne (password : string) (c : conn) : result (option string) :=
  with_conn password c
    (let* r := roundtrip "write SENTINEL master: " "read SENTINEL master: " in
     wret (masterReplyFlags r)).

Definition masterFlagsEpochOne (password : string) (c : conn) :
    result (option string * option Z) :=
  with_conn password c
    (let* r := roundtrip "write SENTINEL master: " "read SENTINEL master: " in
     wret (masterReplyFlags r, ParseSentinelMasterEpoch r)).

(** Best effort: every failure of the second command is "unknown". *)
Definition probeMasterEpochFlags : wire (option Z * string) :=
  λ s, match pop s with
       | (IOReply r, s) =>
           Ok ((ParseSentinelMasterEpoch r, default "" (masterReplyFlags r)), s)
       | (_, s) => Ok ((None, ""), s)
       end.

(** The address (empty when the master is not monitored), the epoch with its OK
    bit, and the flags. *)
Definition probeOne (password : string) (c : conn) : result (string * option Z * string) :=
  with_conn password c
    (let* r := roundtrip "write SENTINEL get-master-addr-by-name: "
                         "read SENTINEL get-master-addr-by-name: " in
     match ParseGetMasterAddr r with
     | None => wret ("", None, "")
     | Some addr => let* ef := probeMasterEpochFlags in wret (addr, ef.1, ef.2)
     end).

(** ** Commands that change a sentinel *)
Definition removeOne (password : string) (c : conn) : result unit :=
  with_conn password c
    (λ s, match pop s with
          | (IOWrite e, _) => Err ("write SENTINEL REMOVE: " +:+ e)
          | (IORead e, s) =>
              if Contains (ToLower e) "no such master with that name" then Ok (tt, s)
              else Err ("read SENTINEL REMOVE: " +:+ e)
          | (IOReply r, s) =>
              if is_reply "OK" r then Ok (tt, s)
              else Err ("SENTINEL REMOVE: unexpected reply " +:+ fmt_v r)
          end).

Definition monitorOne (password : string) (c : conn) : result unit :=
  with_conn password c
    (let* r := roundtrip "write SENTINEL MONITOR: " "read SENTINEL MONITOR: " in
     if is_reply "OK" r then wret tt
     else wfail ("SENTINEL MONITOR: unexpected reply " +:+ fmt_v r)).

Inductive failover_err : Type :=
  | ErrFailoverInProgress
  | FailoverErr (e : string).

(** [None] is Go's nil error. *)
Definition FailoverOne (masterName password : string) (c : conn) : option failover_err :=
  if bool_decide (masterName = "") then Some (FailoverErr "masterName required")
  else match c with
  | Err e => Some (FailoverErr ("dial: " +:+ e))
  | Ok s =>
      match authIfNeeded password s with
      | Err e => Some (FailoverErr e)
      | Ok (_, s) =>
          match pop s with
          | (IOWrite e, _) => Some (FailoverErr ("write SENTINEL FAILOVER: " +:+ e))
          | (IORead e, _) =>
              if HasPrefix e "server: INPROG" then Some ErrFailoverInProgress
              else Some (FailoverErr ("SENTINEL FAILOVER: " +:+ e))
          | (IOReply r, _) =>
              if is_reply "OK" r then None
              else Some (FailoverErr ("SENTINEL FAILOVER: unexpected reply " +:+ fmt_v r))
          end
      end
  end.

(** [IssueFailover]: the first sentinel that accepts, or that reports a failover
    already running, ends the walk. *)
Fixpoint issue_walk (masterName password : string) (dialOf : Endpoint → conn)
    (eps : list Endpoint) (n : Z) (lastErr : string) : option failover_err :=
  match eps with
  | [] => Some (FailoverErr ("all " +:+ Itoa n +:+ " sentinel endpoint(s) failed; last: " +:+ lastErr))
  | ep :: eps =>
      match FailoverOne masterName password (dialOf ep) with
      | None => None
      | Some ErrFailoverInProgress => Some ErrFailoverInProgress
      | Some (FailoverErr e) =>
          issue_walk masterName password dialOf eps n ("sentinel " +:+ Name ep +:+ ": " +:+ e)
      end
  end.

Definition IssueFailover (masterName password : string) (dialOf : Endpoint → conn)
    (eps : list Endpoint) : option failover_err :=
  if bool_decide (masterName = "") then Some (FailoverErr "masterName required")
  else if len eps =? 0 then Some (FailoverErr "at least one sentinel endpoint required")
  else issue_walk masterName password dialOf eps (len eps) "".

(** ** Tuning ([tuning.go]) *)
Definition writeAndExpectOK : wire unit :=
  let* r := roundtrip "write: " "read: " in
  if is_reply "OK" r then wret tt else wfail ("unexpected reply " +:+ fmt_v r).

Fixpoint set_kvs (kvs : list (string * string)) : wire unit :=
  match kvs with
  | [] => wret tt
  | (field, _) :: kvs =>
      λ s, match writeAndExpectOK s with
           | Err e => Err ("SET " +:+ field +:+ ": " +:+ e)
           | Ok (_, s) => set_kvs kvs s
           end
  end.

Definition setTuningOne (t : MasterTuning) (password : string) (c : conn) : result unit :=
  with_conn password c (set_kvs (tuningKVs t)).

(** ** auth-pass propagation ([auth.go]) *)
Inductive auth_err : Type :=
  | errAuthPassMismatch
  | AuthErr (e : string).
#[global] Instance auth_err_eq_dec : EqDecision auth_err.
Proof. solve_decision. Defined.

Definition isWellFormedMultiBulk (r : reply) : bool :=
  match r with
  | RArr arr => negb ((len arr <? 2) || negb (len arr mod 2 =? 0))
  | _ => false
  end.

(** The body after authentication; [None] is success. *)
Definition setAndVerify_body (password : string) (s : list io) : option auth_err :=
  match roundtrip "write SENTINEL SET: " "read SENTINEL SET: " s with
  | Err e => Some (AuthErr e)
  | Ok (setReply, s) =>
      if negb (is_reply "OK" setReply) then
        Some (AuthErr ("SENTINEL SET: unexpected reply " +:+ fmt_v setReply))
      else match roundtrip "write SENTINEL MASTER: " "read SENTINEL MASTER: " s with
      | Err e => Some (AuthErr e)
      | Ok (masterReply, _) =>
          match ParseSentinelMasterAuthPass masterReply with
          | None =>
              if negb (isWellFormedMultiBulk masterReply)
              then Some (AuthErr "SENTINEL MASTER: malformed reply") else None
          | Some got => if bool_decide (got ≠ password) then Some errAuthPassMismatch else None
          end
      end
  end.

Definition setAndVerifyOne (password : string) (c : conn) : option auth_err :=
  match c with
  | Err e => Some (AuthErr ("dial: " +:+ e))
  | Ok s =>
      match authIfNeeded password s with
      | Err e => Some (AuthErr e)
      | Ok (_, s) => setAndVerify_body password s
      end
  end.

(** What the [i]-th attempt meets: whether the context ended during the backoff
    before it, and its connection. *)
Record auth_attempt := { at_cancelled : bool; at_conn : conn }.

Fixpoint retry_loop (password : string) (io_of : nat → auth_attempt) (attempt remaining : nat)
    (lastErr : option auth_err) : option auth_err :=
  match remaining with
  | O => lastErr
  | S remaining =>
      if Nat.ltb 0 attempt && at_cancelled (io_of attempt) then Some (AuthErr "context canceled")
      else match setAndVerifyOne password (at_conn (io_of attempt)) with
           | Some e => retry_loop password io_of (S attempt) remaining (Some e)
           | None => None
           end
  end.

Definition setAndVerifyWithRetry (password : string) (io_of : nat → auth_attempt) (attempts : Z) :
    option auth_err :=
  retry_loop password io_of 0 (Z.to_nat attempts) None.

Definition DefaultAuthRetryAttempts : Z := 3.

Record AuthResult := { ar_Name : string; ar_Err : option auth_err }.

Definition setAuthPassAllWithAttempts (password : string) (eps : list Endpoint) (attempts : Z)
    (io_of : Endpoint → nat → auth_attempt) : list AuthResult :=
  if bool_decide (password = "") || (len eps =? 0) then []
  else
    let attempts := if attempts <? 1 then DefaultAuthRetryAttempts else attempts in
    (λ ep, {| ar_Name := Name ep;
              ar_Err := setAndVerifyWithRetry password (io_of ep) attempts |}) <$> eps.

(** ** Fan-outs: one result per endpoint, in input order *)
Record SentinelsResult := { sr_Name : string; sr_Res : result (list PeerInfo) }.
Record ReplicasResult := { rr_Name : string; rr_Res : result (list ReplicaInfo) }.
Record MasterPeerCountResult := { pc_Name : string; pc_Res : result Z }.
Record ProbeResult := {
  pr_Name : string; pr_Addr : string; pr_Err : option string; pr_Epoch : Z; EpochOK : bool;
  pr_Flags : string }.
Record RemoveResult := { rm_Name : string; rm_Err : option string }.
Record MonitorResult := { mr_Name : string; mr_Err : option string }.
Record TuningResult := { tr_Name : string; tr_Err : option string }.

Definition err_of {A} (r : result A) : option string :=
  match r with Ok _ => None | Err e => Some e end.

Definition SentinelsAll (password : string) (dialOf : Endpoint → conn) (eps : list Endpoint) :
    list SentinelsResult :=
  (λ ep, {| sr_Name := Name ep; sr_Res := sentinelsOne password (dialOf ep) |}) <$> eps.

Definition ReplicasAll (password : string) (dialOf : Endpoint → conn) (eps : list Endpoint) :
    list ReplicasResult :=
  (λ ep, {| rr_Name := Name ep; rr_Res := replicasOne password (dialOf ep) |}) <$> eps.

Definition MasterPeerCountAll (password : string) (dialOf : Endpoint → conn) (eps : list Endpoint) :
    list MasterPeerCountResult :=
  (λ ep, {| pc_Name := Name ep; pc_Res := masterPeerCountOne password (dialOf ep) |}) <$> eps.

Definition probe_result (name : string) (r : result (string * option Z * string)) : ProbeResult :=
  match r with
  | Ok (addr, epoch, flags) =>
      {| pr_Name := name; pr_Addr := addr; pr_Err := None; pr_Epoch := default 0 epoch;
         EpochOK := bool_decide (is_Some epoch); pr_Flags := flags |}
  | Err e => {| pr_Name := name; pr_Addr := ""; pr_Err := Some e; pr_Epoch := 0;
                EpochOK := false; pr_Flags := "" |}
  end.

Definition ProbeAll (password : string) (dialOf : Endpoint → conn) (eps : list Endpoint) :
    list ProbeResult :=
  (λ ep, probe_result (Name ep) (probeOne password (dialOf ep))) <$> eps.

Definition RemoveAll (password : string) (dialOf : Endpoint → conn) (eps : list Endpoint) :
    list RemoveResult :=
  (λ ep, {| rm_Name := Name ep; rm_Err := err_of (removeOne password (dialOf ep)) |}) <$> eps.

Definition MonitorAll (password : string) (dialOf : Endpoint → conn) (eps : list Endpoint) :
    list MonitorResult :=
  (λ ep, {| mr_Name := Name ep; mr_Err := err_of (monitorOne password (dialOf ep)) |}) <$> eps.

Definition SetMasterTuningAll (t : MasterTuning) (password : string) (dialOf : Endpoint → conn)
    (eps : list Endpoint) : list TuningResult :=
  if (DownAfterMilliseconds t =? 0) && (FailoverTimeout t =? 0) && (ParallelSyncs t =? 0) then []
  else if len eps =? 0 then []
  else (λ ep, {| tr_Name := Name ep; tr_Err := err_of (setTuningOne t password (dialOf ep)) |}) <$> eps.

(** ** Properties *)
Definition plain_failure (o : option failover_err) : bool :=
  match o with Some (FailoverErr _) => true | _ => false end.

Lemma issue_walk_spec masterName password dialOf eps n e0 r :
  plain_failure r = false →
  issue_walk masterName password dialOf eps n e0 = r ↔
  ∃ pre ep post, eps = pre ++ ep :: post ∧
    Forall (λ ep, plain_failure (FailoverOne masterName password (dialOf ep)) = true) pre ∧
    FailoverOne masterName password (dialOf ep) = r.
Proof.
  intros Hr. revert e0. induction eps as [|ep eps IH]; intros e0; simpl.
  - split; [intros <-; done|]. intros (pre & ep & post & E & _). by destruct pre.
  - destruct (FailoverOne masterName password (dialOf ep)) as [[|e]|] eqn:E.
    + split.
      * intros <-. exists [], ep, eps. auto.
      * intros ([|p pre] & ep' & post & [= <- ->] & Hall & Hlast); [congruence|].
        apply Forall_cons in Hall as [H _]. by rewrite E in H.
    + rewrite IH. split.
      * intros (pre & ep' & post & -> & Hall & Hlast). exists (ep :: pre), ep', post.
        split_and!; [done|constructor; [by rewrite E|done]|done].
      * intros ([|p pre] & ep' & post & [= <- ->] & Hall & Hlast).
        { rewrite E in Hlast. by subst. }
        apply Forall_cons in Hall as [_ Hall]. eauto 10.
    + split.
      * intros <-. exists [], ep, eps. auto.
      * intros ([|p pre] & ep' & post & [= <- ->] & Hall & Hlast); [congruence|].
        apply Forall_cons in Hall as [H _]. by rewrite E in H.
Qed.

(** Dispatching a failover walks the sentinels in order and stops at the
    first one that does not fail outright: it succeeds exactly when some sentinel
    accepts after every earlier one failed, and reports "already in progress"
    exactly when some sentinel answers -INPROG after every earlier one failed.  So
    at most one sentinel is ever told to fail over, and no later sentinel is asked
    once one has accepted or reported a running failover. *)
Theorem IssueFailover_first_responder masterName password dialOf eps r :
  masterName ≠ "" → eps ≠ [] → plain_failure r = false →
  IssueFailover masterName password dialOf eps = r ↔
  ∃ pre ep post, eps = pre ++ ep :: post ∧
    Forall (λ ep, plain_failure (FailoverOne masterName password (dialOf ep)) = true) pre ∧
    FailoverOne masterName password (dialOf ep) = r.
Proof.
  intros Hm Hne Hr. unfold IssueFailover. rewrite bool_decide_eq_false_2 by done.
  rewrite (proj2 (Z.eqb_neq _ _)) by (unfold len; destruct eps; simpl; [done|lia]).
  by apply issue_walk_spec.
Qed.

Definition demo_dial (ep : Endpoint) : conn :=
  if bool_decide (Name ep = "s-0") then Err "i/o timeout"
  else if bool_decide (Name ep = "s-1") then Ok [IOReply (RStr "OK"); IOReply (RStr "OK")]
  else Ok [IOReply (RStr "OK"); IORead "server: INPROG Failover already in progress"].

Lemma IssueFailover_first_responder_witness :
  IssueFailover "mymaster" "secret-pass" demo_dial three_eps = None.
Proof.
  apply (IssueFailover_first_responder "mymaster" "secret-pass" demo_dial three_eps None);
    [discriminate|discriminate|reflexivity|].
  exists (take 1 three_eps), {| Name := "s-1"; ep_Addr := "s-1:26379" |}, (drop 2 three_eps).
  split; [reflexivity|]. split; [|reflexivity]. repeat constructor.
Defined.

Lemma retry_loop_none password io_of k n e0 :
  (0 < n)%nat ∨ e0 ≠ None →
  retry_loop password io_of k n e0 = None ↔
  ∃ i, (k ≤ i < k + n)%nat ∧ setAndVerifyOne password (at_conn (io_of i)) = None ∧
    ∀ j, (k ≤ j ≤ i)%nat → (0 < j)%nat → at_cancelled (io_of j) = false.
Proof.
  revert k e0. induction n as [|n IH]; intros k e0 Hn; simpl.
  { split; [intros ->; destruct Hn; [lia|done]|]. intros (i & ? & _). lia. }
  destruct (Nat.ltb 0 k && at_cancelled (io_of k)) eqn:Ec.
  { split; [done|]. intros (i & Hi & _ & Hj). apply andb_true_iff in Ec as [Hk Hc].
    apply Nat.ltb_lt in Hk. specialize (Hj k). rewrite Hj in Hc by lia. done. }
  assert ((0 < k)%nat → at_cancelled (io_of k) = false) as Hk.
  { intros Hk. apply andb_false_iff in Ec as [E|E]; [|done]. apply Nat.ltb_ge in E. lia. }
  destruct (setAndVerifyOne password (at_conn (io_of k))) as [e|] eqn:E.
  - rewrite IH by (by right). split.
    + intros (i & Hi & Hv & Hj). exists i. split_and!; [lia..|done|]. intros j Hj1 Hj2.
      destruct (decide (j = k)) as [->|]; [auto|apply Hj; lia].
    + intros (i & Hi & Hv & Hj). exists i. assert (i ≠ k) by congruence.
      split_and!; [lia..|done|]. intros j Hj1 Hj2. apply Hj; lia.
  - split; [intros _|done]. exists k. split_and!; [lia..|done|].
    intros j Hj1 Hj2. assert (j = k) as -> by lia. auto.
Qed.

(** Auth-pass propagation to a sentinel is reported applied exactly when
    some attempt within the budget set the password and verified it and the
    context had not ended before that attempt; a non-positive configured budget
    means the default of three, so every listed sentinel is always tried. *)
Theorem auth_propagation_spec password eps attempts io_of ep :
  password ≠ "" → ep ∈ eps →
  let budget := Z.to_nat (if attempts <? 1 then 3 else attempts) in
  let results := setAuthPassAllWithAttempts password eps attempts io_of in
  {| ar_Name := Name ep; ar_Err := setAndVerifyWithRetry password (io_of ep) (Z.of_nat budget) |} ∈ results ∧
  ar_Name <$> results = Name <$> eps ∧
  (setAndVerifyWithRetry password (io_of ep) (Z.of_nat budget) = None ↔
   ∃ i, (i < budget)%nat ∧ setAndVerifyOne password (at_conn (io_of ep i)) = None ∧
     ∀ j, (0 < j ≤ i)%nat → at_cancelled (io_of ep j) = false).
Proof.
  intros Hp Hep budget results. unfold results, setAuthPassAllWithAttempts.
  rewrite bool_decide_eq_false_2 by done.
  rewrite (proj2 (Z.eqb_neq _ _)) by (unfold len; destruct eps; [by apply not_elem_of_nil in Hep|simpl; lia]).
  simpl. unfold DefaultAuthRetryAttempts.
  assert (Hb : (if attempts <? 1 then 3 else attempts) = Z.of_nat budget).
  { unfold budget. destruct (Z.ltb_spec attempts 1); lia. }
  assert (0 < budget)%nat by (unfold budget; destruct (Z.ltb_spec attempts 1); lia).
  rewrite Hb. split_and!.
  - by apply (list_elem_of_fmap_2 (λ ep, {| ar_Name := Name ep;
      ar_Err := setAndVerifyWithRetry password (io_of ep) (Z.of_nat budget) |}) eps ep).
  - rewrite <-list_fmap_compose. done.
  - unfold setAndVerifyWithRetry. rewrite Nat2Z.id, retry_loop_none by (by left).
    split; intros (i & Hi & Hv & Hj); exists i; split_and?; try lia; try done;
      intros j Hj'; intros; apply Hj; lia.
Qed.

Definition demo_auth (ep : Endpoint) (i : nat) : auth_attempt :=
  {| at_cancelled := false;
     at_conn := if Nat.eqb i 0 then Err "connection reset"
                else Ok [IOReply (RStr "OK"); IOReply (RStr "OK");
                         IOReply (RArr [RStr "auth-pass"; RStr "secret-pass"])] |}.

Lemma auth_propagation_spec_witness :
  setAndVerifyWithRetry "secret-pass" (demo_auth {| Name := "s-0"; ep_Addr := "s-0:26379" |}) 3 = None.
Proof.
  destruct (auth_propagation_spec "secret-pass" three_eps 0 demo_auth
    {| Name := "s-0"; ep_Addr := "s-0:26379" |}) as (_ & _ & H).
  - discriminate.
  - constructor.
  - apply H. exists 1%nat. split; [vm_compute; lia|]. split; [reflexivity|]. intros; reflexivity.
Defined.
