(* ===== verification/Surgery.v ===== *)
(** * Sentinel surgery: classification, gates and the REMOVE + MONITOR pass of
    [internal/sentinel/{manager,surgery_guard}.go]

    One pass reads the ensemble through several fan-outs and may then change it.
    [pass_io] gives every connection of the pass, phase by phase, so a connection
    may answer differently when it is re-read later in the same pass.  The result
    carries the trace of state-changing commands the pass sends; the commands of
    one fan-out run concurrently and are listed in endpoint order.  A Go set
    ([map[string]struct{}]) is a [gset]; nil and empty are the same set. *)
From S2P Require Import Prelude GoStd Resp SentinelParse Observer SentinelWire.
Local Open Scope Z_scope.

Definition observerKey : Type := string * string.

Record InitialResetTarget := {
  CR : observerKey;
  t_MasterName : string;
  Endpoints : list Endpoint;
  Password : string;
  MasterIP : string;
  Port : Z;
  t_Quorum : Z;
  Tuning : MasterTuning;
  AllowGhostReap : bool;
  LiveValkeyIPs : gset string;
  AllowStaleEpochRepoint : bool;
  SkipStrandedAddrs : gset string
}.

Record pass_io := {
  io_sentinels : Endpoint → conn;
  io_probe : Endpoint → conn;
  io_replicas : Endpoint → conn;
  io_ping : conn;
  io_failover : Endpoint → conn;
  io_recheck : Endpoint → conn;
  io_cohort : Endpoint → conn;
  io_remove : Endpoint → conn;
  io_monitor : Endpoint → conn;
  io_auth : Endpoint → nat → auth_attempt;
  io_tuning : Endpoint → conn
}.

(** ** Empty-peer and ghost classification *)
Record GhostHolder := { gh_Endpoint : Endpoint; GhostIPs : list string }.

Record strandedClassification := {
  sc_Targets : list Endpoint;
  sc_Stranded : list string;
  sc_Reachable : Z;
  sc_QuorumReachable : bool;
  sc_GhostHolders : list GhostHolder
}.

Definition ghosts_of (liveSentinelIPs : gset string) (peers : list PeerInfo) : list string :=
  omap (λ p, if bool_decide (pi_IP p = "") then None
             else if bool_decide (pi_IP p ∈ liveSentinelIPs) then None
             else Some (pi_IP p)) peers.

Definition stranded_step (recoverErr : option (string → bool)) (liveSentinelIPs : gset string)
    (c : strandedClassification) (re : SentinelsResult * Endpoint) : strandedClassification :=
  let '(r, ep) := re in
  match sr_Res r with
  | Err e =>
      match recoverErr with
      | Some f =>
          if f e then
            {| sc_Targets := sc_Targets c ++ [ep]; sc_Stranded := sc_Stranded c ++ [Name ep];
               sc_Reachable := sc_Reachable c + 1; sc_QuorumReachable := sc_QuorumReachable c;
               sc_GhostHolders := sc_GhostHolders c |}
          else c
      | None => c
      end
  | Ok peers =>
      let c := {| sc_Targets := sc_Targets c; sc_Stranded := sc_Stranded c;
                  sc_Reachable := sc_Reachable c + 1; sc_QuorumReachable := sc_QuorumReachable c;
                  sc_GhostHolders := sc_GhostHolders c |} in
      if len peers =? 0 then
        {| sc_Targets := sc_Targets c ++ [ep]; sc_Stranded := sc_Stranded c ++ [sr_Name r];
           sc_Reachable := sc_Reachable c; sc_QuorumReachable := sc_QuorumReachable c;
           sc_GhostHolders := sc_GhostHolders c |}
      else if bool_decide (liveSentinelIPs = ∅) then c
      else
        let ghosts := ghosts_of liveSentinelIPs peers in
        if 0 <? len ghosts then
          {| sc_Targets := sc_Targets c; sc_Stranded := sc_Stranded c;
             sc_Reachable := sc_Reachable c; sc_QuorumReachable := sc_QuorumReachable c;
             sc_GhostHolders := sc_GhostHolders c ++ [{| gh_Endpoint := ep; GhostIPs := ghosts |}] |}
        else c
  end.

(** [peerView] has one entry per endpoint, as [SentinelsAll] returns it. *)
Definition classifyStrandedSentinels (peerView : list SentinelsResult) (endpoints : list Endpoint)
    (recoverErr : option (string → bool)) (liveSentinelIPs : gset string) :
    strandedClassification :=
  let c := foldl (stranded_step recoverErr liveSentinelIPs)
    {| sc_Targets := []; sc_Stranded := []; sc_Reachable := 0; sc_QuorumReachable := false;
       sc_GhostHolders := [] |} (zip peerView endpoints) in
  {| sc_Targets := sc_Targets c; sc_Stranded := sc_Stranded c; sc_Reachable := sc_Reachable c;
     sc_QuorumReachable := QuorumThreshold (len endpoints) <=? sc_Reachable c;
     sc_GhostHolders := sc_GhostHolders c |}.

Definition liveSentinelIPSet (endpoints : list Endpoint) : gset string :=
  foldl (λ s ep, match SplitHostPort (ep_Addr ep) with
                 | Some (host, _) => if bool_decide (host = "") then s else s ∪ {[host]}
                 | None => s
                 end) ∅ endpoints.

(** ** Re-point classification *)
Record repointClassification := {
  DeadMaster : list Endpoint;
  StaleEpoch : list Endpoint;
  StaleEpochCohort : list Endpoint;
  AgreeEpoch : Z
}.

Definition repoint_none : repointClassification :=
  {| DeadMaster := []; StaleEpoch := []; StaleEpochCohort := []; AgreeEpoch := 0 |}.

Definition replicaTableDoomed (replicas : list ReplicaInfo) (liveValkeyIPs : gset string) : bool :=
  forallb (λ r, negb (bool_decide (ri_IP r ∈ liveValkeyIPs))) replicas.

Fixpoint doomed_walk (views : list ReplicasResult) (live : gset string) (reachable : Z) : option Z :=
  match views with
  | [] => Some reachable
  | rv :: views =>
      match rr_Res rv with
      | Err _ => doomed_walk views live reachable
      | Ok replicas =>
          if negb (replicaTableDoomed replicas live) then None
          else doomed_walk views live (reachable + 1)
      end
  end.

Definition QuorumElectionDoomed (password : string) (dialOf : Endpoint → conn)
    (endpoints : list Endpoint) (liveValkeyIPs : gset string) : bool :=
  if (len endpoints =? 0) || bool_decide (liveValkeyIPs = ∅) then false
  else match doomed_walk (ReplicasAll password dialOf endpoints) liveValkeyIPs 0 with
       | None => false
       | Some reachable => QuorumThreshold (len endpoints) <=? reachable
       end.

(** The host of a probe that is reachable and monitoring. *)
Definition monitored_host (r : ProbeResult) : option string :=
  match pr_Err r with
  | Some _ => None
  | None =>
      if bool_decide (pr_Addr r = "") then None
      else match SplitHostPort (pr_Addr r) with
           | None => None
           | Some (host, _) => if bool_decide (host = "") then None else Some host
           end
  end.

(** The first loop of [classifyStaleEpochTargets]: the cohort, the cohort's
    epoch, the frontier and whether a cohort exists; [None] is a disarm. *)
Fixpoint stale_scan (masterIP : string) (view : list (ProbeResult * Endpoint))
    (cohort : list Endpoint) (agreeEpoch frontierEpoch : Z) (exists_ : bool) :
    option (list Endpoint * Z * Z * bool) :=
  match view with
  | [] => Some (cohort, agreeEpoch, frontierEpoch, exists_)
  | (r, ep) :: view =>
      match monitored_host r with
      | None => stale_scan masterIP view cohort agreeEpoch frontierEpoch exists_
      | Some host =>
          if negb (EpochOK r) then None
          else
            let frontier' := if frontierEpoch <? pr_Epoch r then pr_Epoch r else frontierEpoch in
            if bool_decide (host = masterIP) then
              if flagsIndicateElection (pr_Flags r) then None
              else stale_scan masterIP view (cohort ++ [ep])
                     (if agreeEpoch <? pr_Epoch r then pr_Epoch r else agreeEpoch) frontier' true
            else stale_scan masterIP view cohort agreeEpoch frontier' exists_
      end
  end.

(** The second loop's selection. *)
Definition stale_target (live : gset string) (masterIP : string) (agreeEpoch : Z)
    (r : ProbeResult) : bool :=
  match monitored_host r with
  | None => false
  | Some host =>
      EpochOK r && negb (bool_decide (host = masterIP)) && bool_decide (host ∈ live) &&
      negb (agreeEpoch <=? pr_Epoch r) && negb (flagsIndicateElection (pr_Flags r))
  end.

Definition classifyStaleEpochTargets (probeView : list ProbeResult) (endpoints : list Endpoint)
    (liveValkeyIPs : gset string) (masterIP : string) : list Endpoint * list Endpoint * Z :=
  match stale_scan masterIP (zip probeView endpoints) [] 0 0 false with
  | None => ([], [], 0)
  | Some (cohort, agreeEpoch, frontierEpoch, masterIPCohortExists) =>
      if negb masterIPCohortExists || negb (agreeEpoch =? frontierEpoch) then ([], [], 0)
      else
        (omap (λ '(r, ep), if stale_target liveValkeyIPs masterIP agreeEpoch r
                           then Some ep else None) (zip probeView endpoints),
         cohort, agreeEpoch)
  end.

Definition dead_master (live : gset string) (masterIP : string) (r : ProbeResult) : bool :=
  match monitored_host r with
  | None => false
  | Some host => negb (bool_decide (host = masterIP)) && negb (bool_decide (host ∈ live))
  end.

Definition classifyRepointTargets (probeView : list ProbeResult) (endpoints : list Endpoint)
    (liveValkeyIPs : gset string) (masterIP : string) (allowStaleEpoch : bool) :
    repointClassification :=
  if bool_decide (liveValkeyIPs = ∅) || bool_decide (masterIP = "") then repoint_none
  else
    let dead := omap (λ '(r, ep), if dead_master liveValkeyIPs masterIP r then Some ep else None)
                     (zip probeView endpoints) in
    let '(stale, cohort, agree) :=
      if allowStaleEpoch then classifyStaleEpochTargets probeView endpoints liveValkeyIPs masterIP
      else ([], [], 0) in
    {| DeadMaster := dead; StaleEpoch := stale; StaleEpochCohort := cohort; AgreeEpoch := agree |}.

Definition selectRepointTargets (io : pass_io) (endpoints : list Endpoint)
    (password masterIP : string) (liveValkeyIPs beingWiped : gset string)
    (allowStaleEpoch : bool) : repointClassification :=
  if bool_decide (liveValkeyIPs = ∅) then repoint_none
  else
    let probeView := ProbeAll password (io_probe io) endpoints in
    let classified :=
      classifyRepointTargets probeView endpoints liveValkeyIPs masterIP allowStaleEpoch in
    let replicaViews := ReplicasAll password (io_replicas io) (DeadMaster classified) in
    {| DeadMaster :=
         omap (λ '(rv, ep),
           if bool_decide (Name ep ∈ beingWiped) then None
           else match rr_Res rv with
                | Err _ => None
                | Ok replicas => if replicaTableDoomed replicas liveValkeyIPs then Some ep else None
                end) (zip replicaViews (DeadMaster classified));
       StaleEpoch :=
         omap (λ ep, if bool_decide (Name ep ∈ beingWiped) then None else Some ep)
           (StaleEpoch classified);
       StaleEpochCohort := StaleEpochCohort classified;
       AgreeEpoch := AgreeEpoch classified |}.

(** ** Ghost reap *)
Definition ghostReapDebounce : Duration := 30 * Second.

Definition detected_ghosts (holders : list GhostHolder) : gset string :=
  list_to_set (holders ≫= GhostIPs).

(** The debounce map after pruning what is live again or no longer detected and
    stamping what is new; the two loops touch each key once, so their order is
    immaterial. *)
Definition refresh_seen (now : Time) (liveIPs detected : gset string) (seen : gmap string Time) :
    gmap string Time :=
  filter (λ kt : string * Time, (kt.1 ∉ liveIPs) ∧ (kt.1 ∈ detected)) seen ∪ gset_to_gmap now detected.

Definition reapable (now : Time) (seen : gmap string Time) (h : GhostHolder) : bool :=
  existsb (λ ip, match seen !! ip with
                 | Some ts => ghostReapDebounce <=? Sub now ts
                 | None => false
                 end) (GhostIPs h).

Definition choose_lowest (chosen : option Endpoint) (ep : Endpoint) : option Endpoint :=
  match chosen with
  | None => Some ep
  | Some c => if String.ltb (Name ep) (Name c) then Some ep else Some c
  end.

(** The per-CR debounce state and the survivor to reap, if any. *)
Definition selectGhostReapTarget (ghostSeen : gmap observerKey (gmap string Time)) (now : Time)
    (cr : observerKey) (holders : list GhostHolder) (liveIPs : gset string) (allow : bool) :
    gmap observerKey (gmap string Time) * option Endpoint :=
  let seen := refresh_seen now liveIPs (detected_ghosts holders) (default ∅ (ghostSeen !! cr)) in
  let ghostSeen := if bool_decide (seen = ∅) then delete cr ghostSeen else <[cr := seen]> ghostSeen in
  (ghostSeen,
   if negb allow then None
   else foldl (λ chosen h, if reapable now seen h then choose_lowest chosen (gh_Endpoint h) else chosen)
          None holders).

(** ** The gates read immediately before surgery *)
Definition anyFailoverInProgress (password : string) (dialOf : Endpoint → conn)
    (endpoints : list Endpoint) : bool :=
  existsb (λ ep, match failoverInProgressOne password (dialOf ep) with
                 | Ok b => b
                 | Err _ => false
                 end) endpoints.

Definition election_quiet (password : string) (c : conn) : bool :=
  match masterFlagsOne password c with
  | Ok (Some flags) => negb (flagsIndicateElection flags)
  | _ => false
  end.

Definition recheckElectionQuiet (password : string) (dialOf : Endpoint → conn)
    (targets : list Endpoint) : list Endpoint :=
  filter (λ ep, election_quiet password (dialOf ep) = true) targets.

Definition cohortMasterRead : Type := result (option string * option Z).

(** [None]: some member cannot be proven not-electing; otherwise the maximum
    readable epoch ([None] inside when no member had one). *)
Fixpoint cohort_scan (reads : list cohortMasterRead) (maxEpoch : option Z) : option (option Z) :=
  match reads with
  | [] => Some maxEpoch
  | Ok (Some flags, epoch) :: reads =>
      if flagsIndicateElection flags then None
      else cohort_scan reads
             match epoch, maxEpoch with
             | Some e, None => Some e
             | Some e, Some m => if m <? e then Some e else Some m
             | None, _ => maxEpoch
             end
  | _ :: _ => None
  end.

Definition destinationCohortQuiet (password : string) (dialOf : Endpoint → conn)
    (cohort : list Endpoint) (agreeEpoch : Z) : bool :=
  if len cohort =? 0 then false
  else match cohort_scan ((λ ep, masterFlagsEpochOne password (dialOf ep)) <$> cohort) None with
       | Some (Some maxEpoch) => agreeEpoch <=? maxEpoch
       | _ => false
       end.

(** ** The pass *)
Record ResetResult := { rs_Name : string; rs_Err : option string }.

Record StrandedRecoveryResult := {
  Stranded : list string;
  EmptyPeerStranded : list string;
  SkippedStranded : list string;
  Repointed : list string;
  StaleEpochRepointed : list string;
  ResetResults : option (list ResetResult);
  MonitorResults : option (list MonitorResult);
  AuthFailures : list string;
  Healthy : bool;
  Probed : bool
}.

Definition recovery_zero : StrandedRecoveryResult :=
  {| Stranded := []; EmptyPeerStranded := []; SkippedStranded := []; Repointed := [];
     StaleEpochRepointed := []; ResetResults := None; MonitorResults := None;
     AuthFailures := []; Healthy := false; Probed := false |}.

Definition recovery_deferred : StrandedRecoveryResult :=
  {| Stranded := []; EmptyPeerStranded := []; SkippedStranded := []; Repointed := [];
     StaleEpochRepointed := []; ResetResults := None; MonitorResults := None;
     AuthFailures := []; Healthy := false; Probed := true |}.

Inductive surgery_cmd : Type :=
  | CmdRemove (ep : Endpoint)
  | CmdMonitor (ep : Endpoint) (masterIP : string) (port quorum : Z)
  | CmdAuth (ep : Endpoint)
  | CmdTune (ep : Endpoint).

Definition partitionEmptyPeerClass (targets : list Endpoint) (skip : gset string) :
    list Endpoint * list string * list string * gset string :=
  let wiped := filter (λ ep, ep_Addr ep ∉ skip) targets in
  let skipped := filter (λ ep, ep_Addr ep ∈ skip) targets in
  (wiped, Name <$> wiped, Name <$> skipped, list_to_set (Name <$> targets)).

(** The updated reset set, the stale-epoch subset, the updated [beingWiped] and
    the names the result reports for the two sub-classes. *)
Definition foldRepointClassification (c : repointClassification) (resetTargets : list Endpoint)
    (beingWiped : gset string) :
    list Endpoint * list Endpoint * gset string * list string * list string :=
  (resetTargets ++ DeadMaster c ++ StaleEpoch c, StaleEpoch c,
   beingWiped ∪ list_to_set (Name <$> DeadMaster c) ∪ list_to_set (Name <$> StaleEpoch c),
   Name <$> DeadMaster c, Name <$> StaleEpoch c).

Definition applyStaleTargetDrops (staleEpochTargets quiet resetTargets : list Endpoint)
    (staleNames : list string) : list Endpoint * list string :=
  let quietNames : gset string := list_to_set (Name <$> quiet) in
  let drop : gset string :=
    list_to_set (filter (λ n, n ∉ quietNames) (Name <$> staleEpochTargets)) in
  if bool_decide (drop = ∅) then (resetTargets, staleNames)
  else (filter (λ ep, Name ep ∉ drop) resetTargets, filter (λ n, n ∉ drop) staleNames).

Definition dropElectingStaleTargets (io : pass_io) (password : string)
    (staleEpochTargets resetTargets cohort : list Endpoint) (agreeEpoch : Z)
    (staleNames : list string) : list Endpoint * list string :=
  if len staleEpochTargets =? 0 then (resetTargets, staleNames)
  else
    let stillQuiet := recheckElectionQuiet password (io_recheck io) staleEpochTargets in
    let stillQuiet :=
      if (0 <? len stillQuiet) &&
         negb (destinationCohortQuiet password (io_cohort io) cohort agreeEpoch)
      then [] else stillQuiet in
    applyStaleTargetDrops staleEpochTargets stillQuiet resetTargets staleNames.

Definition untouchedSurvivors (peerView : list SentinelsResult) (endpoints : list Endpoint)
    (ghostTarget : option Endpoint) (beingWiped : gset string) : list Endpoint :=
  omap (λ '(r, ep),
    match sr_Res r with
    | Err _ => None
    | Ok peers =>
        if len peers =? 0 then None
        else if match ghostTarget with
                | Some g => bool_decide (Name ep = Name g)
                | None => false
                end then None
        else if bool_decide (Name ep ∈ beingWiped) then None
        else Some ep
    end) (zip peerView endpoints).

Definition authFailureNames (results : list AuthResult) : list string :=
  omap (λ ar, if bool_decide (ar_Err ar = Some errAuthPassMismatch) then Some (ar_Name ar) else None)
    results.

(** The endpoints whose REMOVE succeeded, in target order. *)
Definition successful (results : list RemoveResult) (targets : list Endpoint) : list Endpoint :=
  let ok : gset string :=
    list_to_set (omap (λ r, match rm_Err r with None => Some (rm_Name r) | Some _ => None end) results) in
  filter (λ ep, Name ep ∈ ok) targets.

Record surgery_state := {
  deferralPredicate : option (observerKey → bool);
  ghostSeen : gmap observerKey (gmap string Time);
  AuthRetryAttempts : Z
}.

Definition set_ghostSeen (g : gmap observerKey (gmap string Time)) (m : surgery_state) : surgery_state :=
  {| deferralPredicate := deferralPredicate m; ghostSeen := g; AuthRetryAttempts := AuthRetryAttempts m |}.

(** [m.IssueAuthPass] *)
Definition IssueAuthPass (m : surgery_state) (password : string) (eps : list Endpoint)
    (io_of : Endpoint → nat → auth_attempt) : list AuthResult :=
  if bool_decide (password = "") || (len eps =? 0) then []
  else setAuthPassAllWithAttempts password eps (AuthRetryAttempts m) io_of.

(** REMOVE, then MONITOR, auth and tuning on the sentinels whose REMOVE
    succeeded: the tail of the pass once every gate is passed. *)
Definition fire (m : surgery_state) (target : InitialResetTarget) (io : pass_io)
    (resetTargets : list Endpoint) (out : StrandedRecoveryResult) :
    StrandedRecoveryResult * list surgery_cmd :=
  let password := Password target in
  let removeResults := RemoveAll password (io_remove io) resetTargets in
  let resets := (λ r, {| rs_Name := rm_Name r; rs_Err := rm_Err r |}) <$> removeResults in
  let ok := successful removeResults resetTargets in
  let trace := CmdRemove <$> resetTargets in
  if 0 <? len ok then
    let monitors := MonitorAll password (io_monitor io) ok in
    let auths := if bool_decide (password = "") then []
                 else authFailureNames (IssueAuthPass m password ok (io_auth io)) in
    ({| Stranded := Stranded out; EmptyPeerStranded := EmptyPeerStranded out;
        SkippedStranded := SkippedStranded out; Repointed := Repointed out;
        StaleEpochRepointed := StaleEpochRepointed out; ResetResults := Some resets;
        MonitorResults := Some monitors; AuthFailures := auths; Healthy := Healthy out;
        Probed := Probed out |},
     trace ++ ((λ ep, CmdMonitor ep (MasterIP target) (Port target) (t_Quorum target)) <$> ok)
       ++ (if bool_decide (password = "") then [] else CmdAuth <$> ok)
       ++ (CmdTune <$> (if len (SetMasterTuningAll (Tuning target) password (io_tuning io) ok) =? 0
                        then [] else ok)))
  else
    ({| Stranded := Stranded out; EmptyPeerStranded := EmptyPeerStranded out;
        SkippedStranded := SkippedStranded out; Repointed := Repointed out;
        StaleEpochRepointed := StaleEpochRepointed out; ResetResults := Some resets;
        MonitorResults := None; AuthFailures := []; Healthy := Healthy out;
        Probed := Probed out |}, trace).

Definition RecoverStrandedSentinels (m : surgery_state) (now : Time) (target : InitialResetTarget)
    (bypassQuorumDeferral : bool) (io : pass_io) :
    surgery_state * StrandedRecoveryResult * list surgery_cmd :=
  let eps := Endpoints target in
  let password := Password target in
  let masterIP := MasterIP target in
  if (len eps =? 0) || bool_decide (masterIP = "") then (m, recovery_zero, [])
  else if match deferralPredicate m with Some p => p (CR target) | None => false end
          && negb bypassQuorumDeferral
  then (m, recovery_zero, [])
  else
    let liveSentinelIPs := liveSentinelIPSet eps in
    let peerView := SentinelsAll password (io_sentinels io) eps in
    let classified :=
      classifyStrandedSentinels peerView eps (Some isNoSuchMasterErr) liveSentinelIPs in
    let '(resetTargets, wipedNames, skippedNames, beingWiped) :=
      partitionEmptyPeerClass (sc_Targets classified) (SkipStrandedAddrs target) in
    let classification :=
      selectRepointTargets io eps password masterIP (LiveValkeyIPs target) beingWiped
        (AllowStaleEpochRepoint target) in
    let '(resetTargets, staleEpochTargets, beingWiped, repointed, staleRepointed) :=
      foldRepointClassification classification resetTargets beingWiped in
    let '(m, ghostTarget) :=
      if bool_decide (liveSentinelIPs = ∅) then (m, None)
      else
        let '(g, ghost) :=
          selectGhostReapTarget (ghostSeen m) now (CR target) (sc_GhostHolders classified)
            liveSentinelIPs (AllowGhostReap target) in
        (set_ghostSeen g m, ghost) in
    let ghostTarget :=
      match ghostTarget with
      | Some g => if bool_decide (Name g ∈ beingWiped) then None else Some g
      | None => None
      end in
    let out :=
      {| Stranded := wipedNames; EmptyPeerStranded := wipedNames; SkippedStranded := skippedNames;
         Repointed := repointed; StaleEpochRepointed := staleRepointed; ResetResults := None;
         MonitorResults := None; AuthFailures := []; Healthy := false; Probed := true |} in
    if (len resetTargets =? 0) && bool_decide (ghostTarget = None) then
      if 0 <? len skippedNames then (m, out, [])
      else (m, {| Stranded := wipedNames; EmptyPeerStranded := wipedNames;
                  SkippedStranded := skippedNames; Repointed := repointed;
                  StaleEpochRepointed := staleRepointed; ResetResults := None;
                  MonitorResults := None; AuthFailures := [];
                  Healthy := sc_QuorumReachable classified; Probed := true |}, [])
    else if negb (sc_QuorumReachable classified) then (m, recovery_deferred, [])
    else if negb (is_ok (masterReachable password (io_ping io))) then (m, recovery_deferred, [])
    else
      let healthy := untouchedSurvivors peerView eps ghostTarget beingWiped in
      if anyFailoverInProgress password (io_failover io) healthy then (m, recovery_deferred, [])
      else
        let '(resetTargets, staleRepointed) :=
          dropElectingStaleTargets io password staleEpochTargets resetTargets
            (StaleEpochCohort classification) (AgreeEpoch classification) staleRepointed in
        let ghosts := match ghostTarget with Some g => [g] | None => [] end in
        let out :=
          {| Stranded := wipedNames ++ (Name <$> ghosts); EmptyPeerStranded := wipedNames;
             SkippedStranded := skippedNames; Repointed := repointed;
             StaleEpochRepointed := staleRepointed; ResetResults := None;
             MonitorResults := None; AuthFailures := []; Healthy := false; Probed := true |} in
        if (len resetTargets =? 0) && bool_decide (ghostTarget = None) then (m, out, [])
        else
          let '(out, trace) := fire m target io (resetTargets ++ ghosts) out in
          (m, out, trace).

(** ** Startup pass *)
Definition reset_one (m : surgery_state) (t : InitialResetTarget) (io : pass_io) :
    option (observerKey * list string) * list surgery_cmd :=
  if len (Endpoints t) =? 0 then (None, [])
  else if bool_decide (MasterIP t = "") then (None, [])
  else
    let peerView := SentinelsAll (Password t) (io_sentinels io) (Endpoints t) in
    let classified := classifyStrandedSentinels peerView (Endpoints t) None ∅ in
    if len (sc_Targets classified) =? 0 then (None, [])
    else if negb (sc_QuorumReachable classified) then (None, [])
    else
      let results := RemoveAll (Password t) (io_remove io) (sc_Targets classified) in
      let ok := successful results (sc_Targets classified) in
      (Some (CR t, sc_Stranded classified),
       (CmdRemove <$> sc_Targets classified)
         ++ ((λ ep, CmdMonitor ep (MasterIP t) (Port t) (t_Quorum t)) <$> ok)
         ++ (CmdTune <$> (if len (SetMasterTuningAll (Tuning t) (Password t) (io_tuning io) ok) =? 0
                          then [] else ok))
         ++ (if bool_decide (Password t = "") then [] else CmdAuth <$> Endpoints t)).

Definition RunInitialReset (m : surgery_state) (targets : list (InitialResetTarget * pass_io)) :
    list (observerKey * list string) * list surgery_cmd :=
  let rs := (λ '(t, io), reset_one m t io) <$> targets in
  (omap fst rs, rs ≫= snd).

(** ** Lemmas: the classifiers against one endpoint at a time *)
Lemma zip_fmap_self {A B} (f : A → B) (l : list A) : zip (f <$> l) l = (λ x, (f x, x)) <$> l.
Proof. induction l as [|x l IH]; simpl; [done|]. f_equal. exact IH. Qed.

Lemma elem_of_omap_zip_self {A B} (f : A → B) (p : B → A → bool) (l : list A) x :
  x ∈ omap (λ '(b, a), if p b a then Some a else None) (zip (f <$> l) l) ↔ x ∈ l ∧ p (f x) x = true.
Proof.
  rewrite zip_fmap_self, list_elem_of_omap. setoid_rewrite list_elem_of_fmap. split.
  - intros ([b a] & (y & [= -> ->] & Hy) & Hp). destruct (p (f y) y) eqn:E; naive_solver.
  - intros [Hx Hp]. exists (f x, x). split; [eauto|]. by rewrite Hp.
Qed.

Definition answered (f : string → bool) (r : result (list PeerInfo)) : bool :=
  match r with Ok _ => true | Err e => f e end.

Definition stranded (f : string → bool) (r : result (list PeerInfo)) : bool :=
  match r with Ok peers => len peers =? 0 | Err e => f e end.

Definition holder_of (live : gset string) (re : result (list PeerInfo) * Endpoint) : option GhostHolder :=
  match re.1 with
  | Ok peers =>
      if (len peers =? 0) || bool_decide (live = ∅) then None
      else if 0 <? len (ghosts_of live peers)
      then Some {| gh_Endpoint := re.2; GhostIPs := ghosts_of live peers |} else None
  | Err _ => None
  end.

Section classify.
Context (pw : string) (dialOf : Endpoint → conn) (live : gset string).
Implicit Types eps : list Endpoint.

Definition no_recover (f : option (string → bool)) : string → bool := default (λ _, false) f.

Lemma stranded_fold f eps c :
  let r := foldl (stranded_step f live) c (zip (SentinelsAll pw dialOf eps) eps) in
  let tgts := filter (λ ep, stranded (no_recover f) (sentinelsOne pw (dialOf ep)) = true) eps in
  sc_Targets r = sc_Targets c ++ tgts ∧
  sc_Stranded r = sc_Stranded c ++ (Name <$> tgts) ∧
  sc_Reachable r = sc_Reachable c +
    Z.of_nat (count (λ ep, answered (no_recover f) (sentinelsOne pw (dialOf ep))) eps) ∧
  sc_GhostHolders r = sc_GhostHolders c ++
    omap (λ ep, holder_of live (sentinelsOne pw (dialOf ep), ep)) eps.
Proof.
  unfold SentinelsAll. revert c. induction eps as [|ep eps IH]; intros c.
  { simpl. rewrite !app_nil_r. split_and!; [done..|lia|done]. }
  cbn [fmap list_fmap zip zip_with foldl].
  destruct (IH (stranded_step f live c
    ({| sr_Name := Name ep; sr_Res := sentinelsOne pw (dialOf ep) |}, ep))) as (-> & -> & -> & ->).
  clear IH. simpl. rewrite filter_cons. unfold stranded_step. cbn [sr_Res sr_Name].
  destruct (sentinelsOne pw (dialOf ep)) as [peers|e].
  - unfold holder_of at 2. cbn [fst snd stranded answered].
    destruct (len peers =? 0); [|destruct (bool_decide (live = ∅)); [|
      destruct (0 <? len (ghosts_of live peers))]];
      try case_decide; try done; simpl; rewrite <-?app_assoc; split_and!; try done; lia.
  - destruct f as [f|]; simpl; [destruct (f e)|];
      try case_decide; try done; simpl; rewrite <-?app_assoc; split_and!; try done; lia.
Qed.

Lemma classifyStranded_spec f eps :
  let c := classifyStrandedSentinels (SentinelsAll pw dialOf eps) eps f live in
  sc_Targets c = filter (λ ep, stranded (no_recover f) (sentinelsOne pw (dialOf ep)) = true) eps ∧
  sc_Stranded c = Name <$> sc_Targets c ∧
  sc_Reachable c = Z.of_nat (count (λ ep, answered (no_recover f) (sentinelsOne pw (dialOf ep))) eps) ∧
  sc_QuorumReachable c = (QuorumThreshold (len eps) <=? sc_Reachable c) ∧
  sc_GhostHolders c = omap (λ ep, holder_of live (sentinelsOne pw (dialOf ep), ep)) eps.
Proof.
  unfold classifyStrandedSentinels.
  destruct (stranded_fold f eps {| sc_Targets := []; sc_Stranded := []; sc_Reachable := 0;
    sc_QuorumReachable := false; sc_GhostHolders := [] |}) as (H1 & H2 & H3 & H4).
  cbn [sc_Targets sc_Stranded sc_Reachable sc_QuorumReachable sc_GhostHolders] in *.
  rewrite H1, H2, H3, H4. done.
Qed.
End classify.

Lemma NoDup_name_inj (eps : list Endpoint) ep1 ep2 :
  NoDup (Name <$> eps) → ep1 ∈ eps → ep2 ∈ eps → Name ep1 = Name ep2 → ep1 = ep2.
Proof.
  intros Hnd [i Hi]%list_elem_of_lookup [j Hj]%list_elem_of_lookup E.
  assert (i = j) as ->; [|congruence].
  eapply (NoDup_lookup _ _ _ (Name ep1)); [done|..]; rewrite list_lookup_fmap.
  - by rewrite Hi.
  - by rewrite Hj, E.
Qed.

Lemma elem_of_successful pw dialOf (eps targets : list Endpoint) ep :
  NoDup (Name <$> eps) → (∀ e, e ∈ targets → e ∈ eps) →
  ep ∈ successful (RemoveAll pw dialOf targets) targets ↔
  ep ∈ targets ∧ is_ok (removeOne pw (dialOf ep)) = true.
Proof.
  intros Hnd Hsub. unfold successful, RemoveAll.
  rewrite list_elem_of_filter, elem_of_list_to_set, list_elem_of_omap. split.
  - intros [(r & (ep' & -> & Hep')%list_elem_of_fmap & H) Hep]. split; [done|]. simpl in H.
    destruct (removeOne pw (dialOf ep')) eqn:E; simpl in H; simplify_eq.
    by rewrite <-(NoDup_name_inj eps ep' ep), E by auto.
  - intros [Hep Hok]. split; [|done].
    exists {| rm_Name := Name ep; rm_Err := err_of (removeOne pw (dialOf ep)) |}.
    split; [apply list_elem_of_fmap; by exists ep|]. simpl.
    by destruct (removeOne pw (dialOf ep)).
Qed.

(** ** Lemmas: which commands a pass sends *)
Section pass.
Context (m : surgery_state) (now : Time) (target : InitialResetTarget) (bypass : bool) (io : pass_io).

Let eps := Endpoints target.
Let pw := Password target.
Let live := liveSentinelIPSet eps.
Let peers_of (ep : Endpoint) := sentinelsOne pw (io_sentinels io ep).
Let classified :=
  classifyStrandedSentinels (SentinelsAll pw (io_sentinels io) eps) eps (Some isNoSuchMasterErr) live.

(** The intermediate values of the pass, under their names in the code. *)
Definition pass_wiped : list Endpoint := filter (λ ep, ep_Addr ep ∉ SkipStrandedAddrs target) (sc_Targets classified).
Definition pass_empty : gset string := list_to_set (Name <$> sc_Targets classified).
Definition pass_repoint : repointClassification :=
  selectRepointTargets io eps pw (MasterIP target) (LiveValkeyIPs target) pass_empty
    (AllowStaleEpochRepoint target).
Definition pass_beingWiped : gset string :=
  pass_empty ∪ list_to_set (Name <$> DeadMaster pass_repoint) ∪ list_to_set (Name <$> StaleEpoch pass_repoint).
Definition pass_ghost_raw : option Endpoint :=
  if bool_decide (live = ∅) then None
  else (selectGhostReapTarget (ghostSeen m) now (CR target) (sc_GhostHolders classified) live
          (AllowGhostReap target)).2.
Definition pass_ghost : option Endpoint :=
  match pass_ghost_raw with
  | Some g => if bool_decide (Name g ∈ pass_beingWiped) then None else Some g
  | None => None
  end.
Definition pass_survivors : list Endpoint :=
  untouchedSurvivors (SentinelsAll pw (io_sentinels io) eps) eps pass_ghost pass_beingWiped.
Definition pass_reset : list Endpoint :=
  (dropElectingStaleTargets io pw (StaleEpoch pass_repoint)
     (pass_wiped ++ DeadMaster pass_repoint ++ StaleEpoch pass_repoint)
     (StaleEpochCohort pass_repoint) (AgreeEpoch pass_repoint)
     (Name <$> StaleEpoch pass_repoint)).1 ++ option_list pass_ghost.

Ltac no_cmd := simplify_eq/=; exfalso; eapply not_elem_of_nil; eassumption.

(** A pass that sends any command has passed every gate. *)
Lemma recover_fired m' out trace c :
  RecoverStrandedSentinels m now target bypass io = (m', out, trace) → c ∈ trace →
  MasterIP target ≠ "" ∧
  (match deferralPredicate m with Some p => p (CR target) | None => false end = true → bypass = true) ∧
  sc_QuorumReachable classified = true ∧
  is_ok (masterReachable pw (io_ping io)) = true ∧
  anyFailoverInProgress pw (io_failover io) pass_survivors = false ∧
  ∃ m1 out1, trace = (fire m1 target io pass_reset out1).2.
Proof.
  unfold RecoverStrandedSentinels. intros Hrun Hc.
  destruct (_ || _) eqn:E0; [no_cmd|]. apply orb_false_iff in E0 as [_ E0].
  apply bool_decide_eq_false in E0.
  destruct (match deferralPredicate m with Some p => p (CR target) | None => false end
    && negb bypass) eqn:Ed; [no_cmd|].
  assert (match deferralPredicate m with Some p => p (CR target) | None => false end = true →
    bypass = true) as Hdef by (intros Hp; rewrite Hp in Ed; by destruct bypass).
  cbv zeta in Hrun. unfold partitionEmptyPeerClass, foldRepointClassification in Hrun.
  fold eps pw live in Hrun. fold classified in Hrun.
  fold pass_wiped pass_empty in Hrun. fold pass_repoint in Hrun. fold pass_beingWiped in Hrun.
  assert (∃ m1, (if bool_decide (live = ∅) then (m, None)
    else let '(g, ghost) := selectGhostReapTarget (ghostSeen m) now (CR target)
           (sc_GhostHolders classified) live (AllowGhostReap target) in
         (set_ghostSeen g m, ghost)) = (m1, pass_ghost_raw)) as [m1 Em1].
  { unfold pass_ghost_raw. case_bool_decide; [by eexists|].
    destruct (selectGhostReapTarget _ _ _ _ _ _). by eexists. }
  rewrite Em1 in Hrun. cbv beta iota in Hrun. fold pass_ghost in Hrun. fold pass_survivors in Hrun.
  destruct (_ && bool_decide (pass_ghost = None)); [destruct (0 <? _); no_cmd|].
  destruct (sc_QuorumReachable classified); [|no_cmd].
  destruct (is_ok _); [|no_cmd].
  cbn [negb] in Hrun. destruct (anyFailoverInProgress _ _ _); [no_cmd|].
  assert (match pass_ghost with Some g => [g] | None => [] end = option_list pass_ghost) as Hg
    by (by destruct pass_ghost).
  rewrite Hg in Hrun. unfold pass_reset.
  destruct (dropElectingStaleTargets _ _ _ _ _ _ _) as [reset names].
  destruct ((len reset =? 0) && bool_decide (pass_ghost = None)); [no_cmd|]. cbn [fst].
  destruct (fire _ _ _ _ _) as [out2 trace2] eqn:Ef. simplify_eq.
  split_and!; try done. do 2 eexists. by rewrite Ef.
Qed.
End pass.

(** ** Lemmas: the config-epoch order *)
Definition scan_ok (masterIP : string) (agree frontier : Z) (re : ProbeResult * Endpoint) : Prop :=
  ∀ host, monitored_host re.1 = Some host →
    EpochOK re.1 = true ∧ pr_Epoch re.1 ≤ frontier ∧
    (host = masterIP → pr_Epoch re.1 ≤ agree ∧ flagsIndicateElection (pr_Flags re.1) = false).

Lemma stale_scan_mono masterIP view cohort0 a0 f0 x0 cohort a f x :
  stale_scan masterIP view cohort0 a0 f0 x0 = Some (cohort, a, f, x) → a0 ≤ a ∧ f0 ≤ f.
Proof.
  revert cohort0 a0 f0 x0. induction view as [|[r ep] view IH]; intros cohort0 a0 f0 x0; simpl.
  { intros [= -> -> -> ->]. lia. }
  destruct (monitored_host r) as [host|]; [|apply IH].
  destruct (EpochOK r); [simpl|done].
  case_bool_decide; [destruct (flagsIndicateElection _); [done|]|];
    intros Hrec%IH; destruct (Z.ltb_spec a0 (pr_Epoch r)), (Z.ltb_spec f0 (pr_Epoch r)); lia.
Qed.

Lemma stale_scan_spec masterIP view cohort0 a0 f0 x0 cohort a f x :
  stale_scan masterIP view cohort0 a0 f0 x0 = Some (cohort, a, f, x) →
  Forall (scan_ok masterIP a f) view ∧
  (a = a0 ∨ ∃ r e, (r, e) ∈ view ∧ monitored_host r = Some masterIP ∧ pr_Epoch r = a) ∧
  (∀ e, e ∈ cohort ↔ e ∈ cohort0 ∨ ∃ r, (r, e) ∈ view ∧ monitored_host r = Some masterIP).
Proof.
  revert cohort0 a0 f0 x0. induction view as [|[r ep] view IH]; intros cohort0 a0 f0 x0; simpl.
  { intros [= -> -> -> ->]. split_and!; [done|by left|]. intros e. split; [by left|].
    intros [?|(r & Hr & _)]; [done|]. by apply not_elem_of_nil in Hr. }
  destruct (monitored_host r) as [host|] eqn:Eh.
  - destruct (EpochOK r) eqn:Eo; [simpl|done]. case_bool_decide as Eip.
    + destruct (flagsIndicateElection (pr_Flags r)) eqn:Ef; [done|]. intros H.
      pose proof (stale_scan_mono _ _ _ _ _ _ _ _ _ _ H) as Hm. apply IH in H as (H1 & H2 & H3).
      subst host. split_and!.
      * constructor; [|done]. intros h Hh. simpl in *. revert Hm.
        destruct (Z.ltb_spec a0 (pr_Epoch r)), (Z.ltb_spec f0 (pr_Epoch r)); intros [? ?];
          (split_and!; [done|lia|intros _; split; [lia|done]]).
      * destruct H2 as [H2|(r' & e & Hin & ?)]; [|right; exists r', e; split; [by constructor|done]].
        revert H2. destruct (Z.ltb_spec a0 (pr_Epoch r)); intros H2; [|by left].
        right. exists r, ep. split_and!; [constructor|done|done].
      * intros e. rewrite H3, elem_of_app, list_elem_of_singleton. setoid_rewrite elem_of_cons. naive_solver.
    + intros H. pose proof (stale_scan_mono _ _ _ _ _ _ _ _ _ _ H) as Hm. apply IH in H as (H1 & H2 & H3).
      split_and!.
      * constructor; [|done]. intros h Hh. simpl in *. revert Hm.
        destruct (Z.ltb_spec f0 (pr_Epoch r)); intros [? ?]; split_and!; try done; try lia; congruence.
      * destruct H2 as [H2|(r' & e & Hin & ?)]; [by left|right; exists r', e; split; [by constructor|done]].
      * intros e. rewrite H3. setoid_rewrite elem_of_cons. naive_solver congruence.
  - intros H. apply IH in H as (H1 & H2 & H3). split_and!.
    + constructor; [|done]. intros h Hh. simpl in *. congruence.
    + destruct H2 as [H2|(r' & e & Hin & ?)]; [by left|right; exists r', e; split; [by constructor|done]].
    + intros e. rewrite H3. setoid_rewrite elem_of_cons. naive_solver congruence.
Qed.

Lemma classifyStale_spec view eps live masterIP targets cohort agree ep :
  classifyStaleEpochTargets view eps live masterIP = (targets, cohort, agree) → ep ∈ targets →
  ∃ r, (r, ep) ∈ zip view eps ∧ stale_target live masterIP agree r = true ∧
    Forall (scan_ok masterIP agree agree) (zip view eps) ∧
    (agree = 0 ∨ ∃ r e, (r, e) ∈ zip view eps ∧ monitored_host r = Some masterIP ∧ pr_Epoch r = agree) ∧
    (∀ e, e ∈ cohort ↔ ∃ r, (r, e) ∈ zip view eps ∧ monitored_host r = Some masterIP).
Proof.
  unfold classifyStaleEpochTargets.
  destruct (stale_scan _ _ _ _ _ _) as [[[[c a] f] x]|] eqn:Es;
    [|intros [= <- <- <-] H; by apply not_elem_of_nil in H].
  destruct (negb x || negb (a =? f)) eqn:Eg; [intros [= <- <- <-] H; by apply not_elem_of_nil in H|].
  bool_to_prop. apply Z.eqb_eq in H0. subst f.
  intros [= <- <- <-] Hin. apply list_elem_of_omap in Hin as ([r e] & Hin & Hsel).
  destruct (stale_target live masterIP a r) eqn:Et; simplify_eq.
  destruct (stale_scan_spec _ _ _ _ _ _ _ _ _ _ Es) as (H1 & H2 & H3).
  exists r. split_and!; try done. intros e. rewrite H3. split; [|by right].
  intros [H'|?]; [by apply not_elem_of_nil in H'|done].
Qed.

(** ** Lemmas: the targets of a pass *)
Lemma elem_of_repoint io eps pw masterIP live bw allow ep :
  let c := selectRepointTargets io eps pw masterIP live bw allow in
  let probe ep := probe_result (Name ep) (probeOne pw (io_probe io ep)) in
  (ep ∈ DeadMaster c → ep ∈ eps ∧ dead_master live masterIP (probe ep) = true ∧
     ∃ rs, replicasOne pw (io_replicas io ep) = Ok rs ∧ replicaTableDoomed rs live = true) ∧
  (ep ∈ StaleEpoch c → allow = true ∧
     ep ∈ (classifyStaleEpochTargets (ProbeAll pw (io_probe io) eps) eps live masterIP).1.1 ∧
     (classifyStaleEpochTargets (ProbeAll pw (io_probe io) eps) eps live masterIP).1.2 = StaleEpochCohort c ∧
     (classifyStaleEpochTargets (ProbeAll pw (io_probe io) eps) eps live masterIP).2 = AgreeEpoch c) ∧
  (ep ∈ DeadMaster c ∨ ep ∈ StaleEpoch c → Name ep ∉ bw).
Proof.
  simpl. unfold selectRepointTargets. case_bool_decide as El.
  { simpl. split_and!; [intros H|intros H|intros [H|H]]; by apply not_elem_of_nil in H. }
  unfold classifyRepointTargets. rewrite (bool_decide_eq_false_2 _ El). simpl.
  destruct (bool_decide (masterIP = "")) eqn:Em.
  { simpl. split_and!; [intros H|intros H|intros [H|H]]; by apply not_elem_of_nil in H. }
  assert (∀ x y, x ∈ omap (λ '(rv, ep), if bool_decide (Name ep ∈ bw) then None
      else match rr_Res rv with
           | Err _ => None
           | Ok replicas => if replicaTableDoomed replicas live then Some ep else None
           end) (zip (ReplicasAll pw (io_replicas io) y) y) →
    x ∈ y ∧ (Name x ∉ bw) ∧ ∃ rs, replicasOne pw (io_replicas io x) = Ok rs ∧ replicaTableDoomed rs live = true) as Hd.
  { intros x y. unfold ReplicasAll. rewrite zip_fmap_self, list_elem_of_omap.
    intros (z & (e & -> & He)%list_elem_of_fmap & Hz). simpl in Hz.
    case_bool_decide; [done|]. destruct (replicasOne pw (io_replicas io e)) as [rs|] eqn:Er; [|done].
    destruct (replicaTableDoomed rs live) eqn:Edm; [|done]. simplify_eq. eauto. }
  destruct (if allow then _ else _) as [[stale cohort] agree] eqn:Est. simpl.
  split_and!.
  - intros (H1 & _ & H2)%Hd. apply (elem_of_omap_zip_self _ (λ r _, dead_master live masterIP r)) in H1 as [? ?].
    done.
  - intros (e & He & Hs)%list_elem_of_omap. case_bool_decide; simplify_eq.
    destruct allow; [|simplify_eq; by apply not_elem_of_nil in He].
    by rewrite Est.
  - intros [(_ & ? & _)%Hd|(e & He & Hs)%list_elem_of_omap]; [done|]. case_bool_decide; by simplify_eq.
Qed.

Lemma ghost_choice now seen holders (chosen : option Endpoint) ep :
  foldl (λ chosen h, if reapable now seen h then choose_lowest chosen (gh_Endpoint h) else chosen)
    chosen holders = Some ep →
  chosen = Some ep ∨ ∃ h, h ∈ holders ∧ gh_Endpoint h = ep ∧ reapable now seen h = true.
Proof.
  revert chosen. induction holders as [|h holders IH]; intros chosen; simpl; [by left|].
  intros [H|(h' & Hin & ?)]%IH; [|right; exists h'; split; [by constructor|done]].
  destruct (reapable now seen h) eqn:E; [|by left].
  destruct chosen as [c|]; simpl in H; [destruct (String.ltb _ _)|]; simplify_eq; auto;
    right; exists h; (split; [constructor|done]).
Qed.

Lemma drop_stale_elem io pw stale reset cohort agree names ep (eps : list Endpoint) :
  NoDup (Name <$> eps) → (∀ e, e ∈ stale → e ∈ eps) → (∀ e, e ∈ reset → e ∈ eps) →
  ep ∈ (dropElectingStaleTargets io pw stale reset cohort agree names).1 →
  ep ∈ reset ∧
  (ep ∈ stale → election_quiet pw (io_recheck io ep) = true ∧
                destinationCohortQuiet pw (io_cohort io) cohort agree = true).
Proof.
  intros Hnd Hse Hre. unfold dropElectingStaleTargets.
  destruct (Z.eqb_spec (len stale) 0) as [E|_].
  { intros ?. split; [done|]. unfold len in E. destruct stale; [|done].
    intros H'. by apply not_elem_of_nil in H'. }
  set (q0 := recheckElectionQuiet _ _ _). set (q := if _ && _ then [] else q0).
  assert (∀ e, e ∈ q → election_quiet pw (io_recheck io e) = true ∧ e ∈ stale ∧
    destinationCohortQuiet pw (io_cohort io) cohort agree = true) as Hq.
  { intros e. unfold q. destruct (_ && _) eqn:E; [intros H; by apply not_elem_of_nil in H|].
    unfold q0, recheckElectionQuiet in *. intros He. pose proof He as [??]%list_elem_of_filter.
    split_and!; try done.
    apply andb_false_iff in E as [E|E]; [|by apply negb_false_iff].
    apply Z.ltb_ge in E. unfold len in E. destruct (filter _ _); [by apply not_elem_of_nil in He|simpl in E; lia]. }
  unfold applyStaleTargetDrops.
  set (drop := list_to_set _ : gset string).
  assert (∀ e, e ∈ eps → e ∈ stale → Name e ∉ drop → e ∈ q) as Hin.
  { intros e He Hs Hd. destruct (decide (e ∈ q)) as [|Hn]; [done|]. exfalso. apply Hd.
    apply elem_of_list_to_set, list_elem_of_filter. split; [|by apply list_elem_of_fmap_2].
    intros (e' & En & He')%elem_of_list_to_set%list_elem_of_fmap.
    apply Hn. rewrite (NoDup_name_inj eps e e'); [done..| |done]. apply Hse, (Hq e' He'). }
  case_bool_decide as Ed; simpl.
  - intros Hep. split; [done|]. intros Hs. apply Hin in Hs; [|by apply Hre|by rewrite Ed; apply not_elem_of_empty].
    split; apply (Hq _ Hs).
  - intros [Hnd' Hep]%list_elem_of_filter. split; [done|]. intros Hs.
    apply Hin in Hs; [|by apply Hre|done]. split; apply (Hq _ Hs).
Qed.
