(* ===== verification/SurgerySpec.v ===== *)
(** * What a sentinel-surgery pass guarantees

    Safety of [RecoverStrandedSentinels] and [RunInitialReset] (Surgery.v): the
    gates every destructive pass has passed, why each wiped sentinel was wiped,
    the order of REMOVE and MONITOR, re-wipe pacing, the config-epoch order behind
    a re-point, and the ghost-reap debounce across passes. *)
From S2P Require Import Prelude GoStd Resp SentinelParse Observer SentinelWire Surgery.
Local Open Scope Z_scope.

Lemma fire_trace m target io reset out c :
  c ∈ (fire m target io reset out).2 →
  let ok := successful (RemoveAll (Password target) (io_remove io) reset) reset in
  (∃ ep, c = CmdRemove ep ∧ ep ∈ reset) ∨
  (∃ ep, c = CmdMonitor ep (MasterIP target) (Port target) (t_Quorum target) ∧ ep ∈ ok) ∨
  (∃ ep, c = CmdAuth ep ∧ ep ∈ ok ∧ Password target ≠ "") ∨
  (∃ ep, c = CmdTune ep ∧ ep ∈ ok).
Proof.
  unfold fire. cbv zeta. destruct (0 <? _); cbn [snd].
  - rewrite !elem_of_app, !list_elem_of_fmap.
    intros [(ep & -> & ?)|[(ep & -> & ?)|[H|(ep & -> & H)]]]; [by eauto 10..| |].
    + destruct (bool_decide (Password target = "")) eqn:E; [by apply not_elem_of_nil in H|].
      apply list_elem_of_fmap in H as (ep & -> & ?). bool_to_prop. eauto 10.
    + destruct (len _ =? 0); [by apply not_elem_of_nil in H|]. eauto 10.
  - rewrite list_elem_of_fmap. naive_solver.
Qed.

Lemma fire_removes m target io reset out ep :
  CmdRemove ep ∈ (fire m target io reset out).2 ↔ ep ∈ reset.
Proof.
  split.
  - intros [(e & [= <-] & ?)|[(?&?&?)|[(?&?&?)|(?&?&?)]]]%fire_trace; done.
  - intros H. unfold fire. cbv zeta. destruct (0 <? _); cbn [snd]; rewrite ?elem_of_app;
      [left|]; by apply list_elem_of_fmap_2.
Qed.

Section pass.
Context (m : surgery_state) (now : Time) (target : InitialResetTarget) (bypass : bool) (io : pass_io).

Definition peers_of (ep : Endpoint) : result (list PeerInfo) :=
  sentinelsOne (Password target) (io_sentinels io ep).
Definition probe_of (ep : Endpoint) : ProbeResult :=
  probe_result (Name ep) (probeOne (Password target) (io_probe io ep)).

(** Why a sentinel may be wiped. *)
Definition wipe_empty (ep : Endpoint) : Prop :=
  stranded isNoSuchMasterErr (peers_of ep) = true ∧ ep_Addr ep ∉ SkipStrandedAddrs target.

Definition wipe_dead (ep : Endpoint) : Prop :=
  dead_master (LiveValkeyIPs target) (MasterIP target) (probe_of ep) = true ∧
  ∃ rs, replicasOne (Password target) (io_replicas io ep) = Ok rs ∧
    replicaTableDoomed rs (LiveValkeyIPs target) = true.

Definition wipe_stale (ep : Endpoint) : Prop :=
  AllowStaleEpochRepoint target = true ∧
  election_quiet (Password target) (io_recheck io ep) = true ∧
  ∃ cohort agree,
    stale_target (LiveValkeyIPs target) (MasterIP target) agree (probe_of ep) = true ∧
    (∀ e, e ∈ Endpoints target → scan_ok (MasterIP target) agree agree (probe_of e, e)) ∧
    destinationCohortQuiet (Password target) (io_cohort io) cohort agree = true ∧
    (∀ e, e ∈ cohort ↔ e ∈ Endpoints target ∧ monitored_host (probe_of e) = Some (MasterIP target)).

Definition wipe_ghost (ep : Endpoint) : Prop :=
  AllowGhostReap target = true ∧
  ∃ h, holder_of (liveSentinelIPSet (Endpoints target)) (peers_of ep, ep) = Some h ∧
    ∃ ip ts, ip ∈ GhostIPs h ∧ ghostReapDebounce ≤ Sub now ts ∧
      refresh_seen now (liveSentinelIPSet (Endpoints target))
        (detected_ghosts (omap (λ e, holder_of (liveSentinelIPSet (Endpoints target)) (peers_of e, e))
                            (Endpoints target)))
        (default ∅ (ghostSeen m !! CR target)) !! ip = Some ts.

Lemma zip_probe e r :
  (r, e) ∈ zip (ProbeAll (Password target) (io_probe io) (Endpoints target)) (Endpoints target) ↔
  e ∈ Endpoints target ∧ r = probe_of e.
Proof.
  unfold ProbeAll. rewrite zip_fmap_self, list_elem_of_fmap. split.
  - intros (x & [= -> ->] & ?). done.
  - intros [? ->]. by exists e.
Qed.

Lemma pass_empty_elem ep :
  ep ∈ Endpoints target → stranded isNoSuchMasterErr (peers_of ep) = true →
  Name ep ∈ pass_empty target io.
Proof.
  intros Hep Hs. apply elem_of_list_to_set, list_elem_of_fmap_2.
  destruct (classifyStranded_spec (Password target) (io_sentinels io)
    (liveSentinelIPSet (Endpoints target)) (Some isNoSuchMasterErr) (Endpoints target)) as (-> & _).
  by apply list_elem_of_filter.
Qed.

Lemma pass_ghost_elem ep :
  pass_ghost m now target io = Some ep →
  ep ∈ Endpoints target ∧ wipe_ghost ep ∧ Name ep ∉ pass_beingWiped target io.
Proof.
  unfold pass_ghost, pass_ghost_raw. case_bool_decide as El; [done|].
  destruct (classifyStranded_spec (Password target) (io_sentinels io)
    (liveSentinelIPSet (Endpoints target)) (Some isNoSuchMasterErr) (Endpoints target))
    as (_ & _ & _ & _ & Hh).
  unfold selectGhostReapTarget. cbv zeta. cbn [snd]. rewrite Hh.
  destruct (AllowGhostReap target) eqn:Ea; cbn [negb]; [|done].
  destruct (foldl _ _ _) as [g|] eqn:Ef; [|done]. case_bool_decide as Eb; [done|]. intros [= ->].
  apply ghost_choice in Ef as [?|(h & Hin & He & Hr)]; [done|].
  apply list_elem_of_omap in Hin as (e & Hin & Hho).
  assert (gh_Endpoint h = e) as Hhe.
  { revert Hho. unfold holder_of. simpl. repeat case_match; intros; by simplify_eq. }
  rewrite Hhe in He. subst e. split_and!; [done| |done].
  split; [done|]. exists h. split; [done|]. unfold reapable in Hr. apply existsb_exists in Hr as (ip & Hip & Hs).
  apply list_elem_of_In in Hip.
  destruct (_ !! ip) as [ts|] eqn:Et in Hs; [|done]. exists ip, ts. apply Z.leb_le in Hs. done.
Qed.

Hypothesis Hnd : NoDup (Name <$> Endpoints target).

Lemma pass_reset_elem ep :
  ep ∈ pass_reset m now target io →
  ep ∈ Endpoints target ∧
  (wipe_empty ep ∨ wipe_dead ep ∨ wipe_stale ep ∨ wipe_ghost ep) ∧
  (Name ep ∈ pass_empty target io → wipe_empty ep).
Proof.
  unfold pass_reset. rewrite elem_of_app. intros [Hep|Hep].
  - set (rp := pass_repoint target io) in *.
    destruct (elem_of_repoint io (Endpoints target) (Password target) (MasterIP target)
      (LiveValkeyIPs target) (pass_empty target io) (AllowStaleEpochRepoint target) ep) as (Hdead & Hstale & Hbw).
    fold (pass_repoint target io) in Hdead, Hstale, Hbw. fold rp in Hdead, Hstale, Hbw.
    assert (∀ e, e ∈ pass_wiped target io → e ∈ Endpoints target ∧ wipe_empty e) as Hw.
    { intros e [Hskip Ht]%list_elem_of_filter.
      destruct (classifyStranded_spec (Password target) (io_sentinels io)
        (liveSentinelIPSet (Endpoints target)) (Some isNoSuchMasterErr) (Endpoints target)) as (Et & _).
      rewrite Et in Ht. apply list_elem_of_filter in Ht as [Hs He]. done. }
    assert (∀ e, e ∈ StaleEpoch rp → e ∈ Endpoints target) as Hse.
    { intros e He. destruct (elem_of_repoint io (Endpoints target) (Password target) (MasterIP target)
        (LiveValkeyIPs target) (pass_empty target io) (AllowStaleEpochRepoint target) e) as (_ & Hst & _).
      fold (pass_repoint target io) in Hst. fold rp in Hst. destruct (Hst He) as (_ & Hin & _ & _).
      destruct (classifyStaleEpochTargets _ _ _ _) as [[tg co] ag] eqn:Ec. simpl in *.
      destruct (classifyStale_spec _ _ _ _ _ _ _ e Ec Hin) as (r & Hz & _). by apply zip_probe in Hz as [? _]. }
    assert (∀ e, e ∈ DeadMaster rp → e ∈ Endpoints target) as Hde.
    { intros e He. destruct (elem_of_repoint io (Endpoints target) (Password target) (MasterIP target)
        (LiveValkeyIPs target) (pass_empty target io) (AllowStaleEpochRepoint target) e) as (Hd & _).
      by apply Hd. }
    assert (∀ e, e ∈ pass_wiped target io ++ DeadMaster rp ++ StaleEpoch rp → e ∈ Endpoints target) as Hall0.
    { intros e. rewrite !elem_of_app. intros [He|[He|He]]; [apply (Hw e He)|auto..]. }
    destruct (drop_stale_elem io (Password target) (StaleEpoch rp)
      (pass_wiped target io ++ DeadMaster rp ++ StaleEpoch rp) (StaleEpochCohort rp) (AgreeEpoch rp)
      (Name <$> StaleEpoch rp) ep (Endpoints target) Hnd Hse Hall0 Hep) as [Hr Hq].
    rewrite !elem_of_app in Hr. destruct Hr as [Hr|[Hr|Hr]].
    + destruct (Hw _ Hr). auto.
    + destruct (Hdead Hr) as (? & ? & ?). split_and!; [done|by right; left|].
      intros Hn. by destruct (Hbw (or_introl Hr)).
    + split_and!; [auto| |intros Hn; by destruct (Hbw (or_intror Hr))].
      right; right; left. destruct (Hstale Hr) as (Ha & Hin & Hco & Hag). destruct (Hq Hr) as [Hq1 Hq2].
      destruct (classifyStaleEpochTargets _ _ _ _) as [[tg co] ag] eqn:Ec. simpl in *. subst co ag.
      destruct (classifyStale_spec _ _ _ _ _ _ _ ep Ec Hin) as (r & Hz & Ht & Hall & _ & Hc).
      apply zip_probe in Hz as [_ ->].
      split_and!; [done..|]. exists (StaleEpochCohort rp), (AgreeEpoch rp). split_and!; [done| |done|].
      * intros e He. rewrite Forall_forall in Hall. apply (Hall (probe_of e, e)), zip_probe. done.
      * intros e. rewrite Hc. setoid_rewrite zip_probe. naive_solver.
  - assert (pass_ghost m now target io = Some ep) as Hg0.
    { destruct (pass_ghost m now target io) as [g|]; simpl in Hep;
        [by apply list_elem_of_singleton in Hep as -> | by apply not_elem_of_nil in Hep]. }
    clear Hep. destruct (pass_ghost_elem ep Hg0) as (He & Hg & Hb).
    split_and!; [done|by auto|]. intros Hn. destruct Hb. unfold pass_beingWiped. set_solver.
Qed.
End pass.

(** ** A concrete ensemble for the witnesses *)
Definition sent (i : string) : Endpoint := {| Name := "s-" +:+ i; ep_Addr := "10.1.0." +:+ i +:+ ":26379" |}.
Definition demo_eps : list Endpoint := [sent "1"; sent "2"; sent "3"].

Definition peer_row (ip : string) : reply :=
  RArr [RStr "name"; RStr "p"; RStr "runid"; RStr "abc"; RStr "ip"; RStr ip; RStr "port"; RStr "26379"].

Definition answer (r : reply) : conn := Ok [IOReply r].

Definition master_row (epoch flags : string) : reply :=
  RArr [RStr "config-epoch"; RStr epoch; RStr "flags"; RStr flags].

Definition demo_target : InitialResetTarget :=
  {| CR := ("default", "vk"); t_MasterName := "mymaster"; Endpoints := demo_eps; Password := "";
     MasterIP := "10.0.0.1"; Port := 6379; t_Quorum := 2;
     Tuning := {| DownAfterMilliseconds := 5000; FailoverTimeout := 0; ParallelSyncs := 0 |};
     AllowGhostReap := true; LiveValkeyIPs := {["10.0.0.1"; "10.0.0.2"]};
     AllowStaleEpochRepoint := true; SkipStrandedAddrs := ∅ |}.

(** s-3 has lost its peers; s-1 and s-2 gossip; s-2 monitors the other live pod
    at an older epoch.  [late] is what s-2 answers when it is re-read. *)
Definition demo_io (late : string) : pass_io :=
  {| io_sentinels := λ ep, if bool_decide (Name ep = "s-3") then answer (RArr [])
                           else answer (RArr [peer_row "10.1.0.3"]);
     io_probe := λ ep,
       Ok [IOReply (RArr [RStr (if bool_decide (Name ep = "s-2") then "10.0.0.2" else "10.0.0.1");
                          RStr "6379"]);
           IOReply (master_row (if bool_decide (Name ep = "s-2") then "4" else "7") "master")];
     io_replicas := λ _, answer (RArr []);
     io_ping := answer (RStr "PONG");
     io_failover := λ _, answer (master_row "7" "master");
     io_recheck := λ _, answer (master_row "4" late);
     io_cohort := λ _, answer (master_row "7" "master");
     io_remove := λ _, answer (RStr "OK");
     io_monitor := λ _, answer (RStr "OK");
     io_auth := λ _ _, {| at_cancelled := false; at_conn := Err "unused" |};
     io_tuning := λ _, answer (RStr "OK") |}.

Definition demo_state : surgery_state :=
  {| deferralPredicate := None; ghostSeen := ∅; AuthRetryAttempts := 3 |}.

Definition demo_run (late : string) : surgery_state * StrandedRecoveryResult * list surgery_cmd :=
  RecoverStrandedSentinels demo_state 100 demo_target false (demo_io late).

Example demo_quiet : (demo_run "master").2 =
  [CmdRemove (sent "3"); CmdRemove (sent "2");
   CmdMonitor (sent "3") "10.0.0.1" 6379 2; CmdMonitor (sent "2") "10.0.0.1" 6379 2;
   CmdTune (sent "3"); CmdTune (sent "2")].
Proof. vm_compute. reflexivity. Qed.

Lemma demo_names : NoDup (Name <$> Endpoints demo_target).
Proof. refine (bool_decide_unpack _ _). vm_compute. exact I. Defined.

(** ** Properties *)

(** No destructive command leaves a recovery pass unless every gate held: the
    master address is known, the deferral predicate allows the pass or the caller
    bypassed it, a quorum of all configured sentinels answered the peer-list probe,
    the registration target answered PING with PONG, and no gossiping survivor
    outside the classified sets reports failover_in_progress.  Each failing gate
    yields an empty trace, whatever the other replies were. *)
Theorem surgery_gates m now target bypass io m' out trace :
  RecoverStrandedSentinels m now target bypass io = (m', out, trace) → trace ≠ [] →
  MasterIP target ≠ "" ∧
  (match deferralPredicate m with Some p => p (CR target) | None => false end = true → bypass = true) ∧
  QuorumThreshold (len (Endpoints target)) ≤
    Z.of_nat (count (λ ep, answered isNoSuchMasterErr (peers_of target io ep)) (Endpoints target)) ∧
  masterReachable (Password target) (io_ping io) = Ok tt ∧
  (∀ ep, ep ∈ pass_survivors m now target io →
     failoverInProgressOne (Password target) (io_failover io ep) ≠ Ok true).
Proof.
  intros Hrun Hne. destruct trace as [|c trace]; [done|].
  destruct (recover_fired _ _ _ _ _ _ _ _ c Hrun ltac:(constructor)) as (H1 & H2 & H3 & H4 & H5 & _).
  destruct (classifyStranded_spec (Password target) (io_sentinels io)
    (liveSentinelIPSet (Endpoints target)) (Some isNoSuchMasterErr) (Endpoints target))
    as (_ & _ & Hr & Hq & _).
  rewrite Hq, Hr in H3. apply Z.leb_le in H3. split_and!; [done..| |].
  - by destruct (masterReachable _ _) as [[]|].
  - intros ep Hep Hf. unfold anyFailoverInProgress in H5.
    assert (existsb (λ ep, match failoverInProgressOne (Password target) (io_failover io ep) with
      | Ok b => b | Err _ => false end) (pass_survivors m now target io) = true) as Ht; [|congruence].
    apply existsb_exists. exists ep. rewrite Hf. split; [by apply list_elem_of_In|done].
Qed.

Lemma surgery_gates_witness :
  QuorumThreshold (len (Endpoints demo_target)) ≤
    Z.of_nat (count (λ ep, answered isNoSuchMasterErr (peers_of demo_target (demo_io "master") ep))
                (Endpoints demo_target)).
Proof.
  apply (surgery_gates demo_state 100 demo_target false (demo_io "master")
    (demo_run "master").1.1 (demo_run "master").1.2 (demo_run "master").2);
    [reflexivity|vm_compute; discriminate].
Defined.

(** C6: A recovery pass never wipes a healthy sentinel: every REMOVE it sends
    goes to a configured sentinel that (a) answered with an empty peer list or "no
    such master" and is not paced, or (b) monitors an address that is no live pod
    and whose whole replica table is dead, or (c) monitors a live pod other than
    the master while strictly behind the config-epoch of the master's cohort, with
    no election on it or on the cohort when re-read just before, or (d) knows a
    ghost peer debounced for at least 30 seconds. *)
Theorem surgery_targets_justified m now target bypass io m' out trace ep :
  NoDup (Name <$> Endpoints target) →
  RecoverStrandedSentinels m now target bypass io = (m', out, trace) → CmdRemove ep ∈ trace →
  ep ∈ Endpoints target ∧
  (wipe_empty target io ep ∨ wipe_dead target io ep ∨ wipe_stale target io ep ∨
   wipe_ghost m now target io ep).
Proof.
  intros Hnd Hrun Hin.
  destruct (recover_fired _ _ _ _ _ _ _ _ _ Hrun Hin) as (_ & _ & _ & _ & _ & m1 & out1 & ->).
  apply fire_removes in Hin. by destruct (pass_reset_elem m now target io Hnd ep Hin) as (? & ? & _).
Qed.

Lemma surgery_targets_justified_witness :
  sent "2" ∈ Endpoints demo_target ∧
  (wipe_empty demo_target (demo_io "master") (sent "2") ∨
   wipe_dead demo_target (demo_io "master") (sent "2") ∨
   wipe_stale demo_target (demo_io "master") (sent "2") ∨
   wipe_ghost demo_state 100 demo_target (demo_io "master") (sent "2")).
Proof.
  apply (surgery_targets_justified demo_state 100 demo_target false (demo_io "master")
    (demo_run "master").1.1 (demo_run "master").1.2 (demo_run "master").2).
  - apply demo_names.
  - reflexivity.
  - vm_compute. by right; left.
Defined.

(** REMOVE precedes MONITOR and gates it: a pass sends MONITOR, auth and
    tuning commands only to sentinels it has sent REMOVE to and whose REMOVE
    succeeded, with the target's own master IP, port and quorum; and every
    sentinel whose REMOVE succeeded is re-monitored, so none is left without a
    master entry by a pass that could re-register it. *)
Theorem surgery_monitor_after_remove m now target bypass io m' out trace ep ip port q :
  NoDup (Name <$> Endpoints target) →
  RecoverStrandedSentinels m now target bypass io = (m', out, trace) →
  (CmdMonitor ep ip port q ∈ trace ↔
   CmdRemove ep ∈ trace ∧ removeOne (Password target) (io_remove io ep) = Ok tt ∧
   ip = MasterIP target ∧ port = Port target ∧ q = t_Quorum target) ∧
  (CmdAuth ep ∈ trace ∨ CmdTune ep ∈ trace →
   CmdRemove ep ∈ trace ∧ removeOne (Password target) (io_remove io ep) = Ok tt).
Proof.
  intros Hnd Hrun.
  assert (∀ x, CmdRemove x ∈ trace ∨ (∃ c, c ∈ trace) → ∃ m1 out1 reset,
    trace = (fire m1 target io reset out1).2 ∧ ∀ e, e ∈ reset → e ∈ Endpoints target) as Hfire.
  { intros x Hc. assert (∃ c, c ∈ trace) as [c Hc'] by (destruct Hc; eauto).
    destruct (recover_fired _ _ _ _ _ _ _ _ _ Hrun Hc') as (_ & _ & _ & _ & _ & m1 & out1 & ->).
    exists m1, out1, (pass_reset m now target io). split; [done|].
    intros e He. by destruct (pass_reset_elem m now target io Hnd e He). }
  assert (∀ reset, (∀ e, e ∈ reset → e ∈ Endpoints target) →
    ep ∈ successful (RemoveAll (Password target) (io_remove io) reset) reset ↔
    ep ∈ reset ∧ removeOne (Password target) (io_remove io ep) = Ok tt) as Hsucc.
  { intros reset Hsub. rewrite (elem_of_successful _ _ (Endpoints target)) by done.
    destruct (removeOne _ _) as [[]|]; simpl; naive_solver. }
  split.
  - split.
    + intros Hc. destruct (Hfire ep ltac:(eauto)) as (m1 & out1 & reset & -> & Hsub).
      rewrite fire_removes.
      apply fire_trace in Hc as [(?&?&?)|[(e & Ee & He)|[(?&?&?)|(?&?&?)]]]; try done.
      simplify_eq. by apply Hsucc in He as [? ?].
    + intros (Hc & Hok & -> & -> & ->). destruct (Hfire ep ltac:(eauto)) as (m1 & out1 & reset & -> & Hsub).
      apply fire_removes in Hc. assert (ep ∈ successful (RemoveAll (Password target) (io_remove io) reset) reset)
        as Hs by (by apply Hsucc).
      unfold fire. cbv zeta. rewrite (proj2 (Z.ltb_lt _ _)).
      2:{ unfold len. destruct (successful _ _); [by apply not_elem_of_nil in Hs|simpl; lia]. }
      cbn [snd]. rewrite !elem_of_app. right; left. rewrite list_elem_of_fmap. eauto.
  - intros Hc. destruct (Hfire ep ltac:(destruct Hc; eauto)) as (m1 & out1 & reset & -> & Hsub).
    rewrite fire_removes, <-Hsucc by done.
    destruct Hc as [Hc|Hc]; apply fire_trace in Hc as [(?&?&?)|[(?&?&?)|[(e&Ee&?)|(e&Ee&?)]]];
      simplify_eq; tauto.
Qed.

Lemma surgery_monitor_after_remove_witness :
  CmdMonitor (sent "3") "10.0.0.1" 6379 2 ∈ (demo_run "master").2.
Proof.
  apply (surgery_monitor_after_remove demo_state 100 demo_target false (demo_io "master")
    (demo_run "master").1.1 (demo_run "master").1.2 (demo_run "master").2).
  - apply demo_names.
  - reflexivity.
  - split_and!; [vm_compute; by left|reflexivity..].
Defined.

(** A stranded sentinel in the skip set is never removed. *)
Lemma skipped_never_removed m now target bypass io m' out trace ep :
  NoDup (Name <$> Endpoints target) →
  RecoverStrandedSentinels m now target bypass io = (m', out, trace) →
  stranded isNoSuchMasterErr (peers_of target io ep) = true →
  ep_Addr ep ∈ SkipStrandedAddrs target → ~ CmdRemove ep ∈ trace.
Proof.
  intros Hnd Hrun Hs Hskip Hin.
  destruct (recover_fired _ _ _ _ _ _ _ _ _ Hrun Hin) as (_ & _ & _ & _ & _ & m1 & out1 & ->).
  apply fire_removes in Hin. destruct (pass_reset_elem m now target io Hnd ep Hin) as (He & _ & Hw).
  by destruct (Hw (pass_empty_elem target io ep He Hs)) as [_ []].
Qed.

(** Re-wipe pacing holds against every class: a stranded sentinel whose
    address the caller put in the skip set is never sent REMOVE in that pass, even
    if it also monitors a dead master, lags the epoch order or holds a ghost. *)
Theorem surgery_pacing m now target bypass io m' out trace ep :
  NoDup (Name <$> Endpoints target) →
  RecoverStrandedSentinels m now target bypass io = (m', out, trace) →
  stranded isNoSuchMasterErr (peers_of target io ep) = true →
  ep_Addr ep ∈ SkipStrandedAddrs target → ~ CmdRemove ep ∈ trace.
Proof. apply skipped_never_removed. Qed.

Definition paced_target : InitialResetTarget :=
  {| CR := ("default", "vk"); t_MasterName := "mymaster"; Endpoints := demo_eps; Password := "";
     MasterIP := "10.0.0.1"; Port := 6379; t_Quorum := 2;
     Tuning := {| DownAfterMilliseconds := 5000; FailoverTimeout := 0; ParallelSyncs := 0 |};
     AllowGhostReap := true; LiveValkeyIPs := {["10.0.0.1"; "10.0.0.2"]};
     AllowStaleEpochRepoint := true; SkipStrandedAddrs := {["10.1.0.3:26379"]} |}.

Lemma surgery_pacing_witness :
  let r := RecoverStrandedSentinels demo_state 100 paced_target false (demo_io "master") in
  CmdRemove (sent "2") ∈ r.2 ∧ ~ CmdRemove (sent "3") ∈ r.2.
Proof.
  intros r. split; [vm_compute; by left|].
  apply (surgery_pacing demo_state 100 paced_target false (demo_io "master") r.1.1 r.1.2 r.2);
    [apply demo_names|reflexivity|reflexivity|].
  refine (bool_decide_unpack _ _). vm_compute. exact I.
Defined.

(** The stale-epoch class re-points only in the right direction.  When a
    target is selected, it monitors a live pod other than the master at an epoch
    strictly below the cohort's; every reachable monitoring sentinel has a known
    epoch and none is above the cohort's, so the operator's view is at the
    frontier; some sentinel monitoring the master holds that epoch; and neither
    the target nor any cohort member shows election flags. *)
Theorem stale_epoch_direction view eps live masterIP targets cohort agree ep :
  classifyStaleEpochTargets view eps live masterIP = (targets, cohort, agree) → ep ∈ targets →
  (∀ r e, (r, e) ∈ zip view eps → 0 ≤ pr_Epoch r) →
  (∃ r host, (r, ep) ∈ zip view eps ∧ monitored_host r = Some host ∧ host ≠ masterIP ∧ (host ∈ live) ∧
     pr_Epoch r < agree ∧ flagsIndicateElection (pr_Flags r) = false) ∧
  (∀ r e host, (r, e) ∈ zip view eps → monitored_host r = Some host →
     EpochOK r = true ∧ pr_Epoch r ≤ agree ∧
     (host = masterIP → e ∈ cohort ∧ flagsIndicateElection (pr_Flags r) = false)) ∧
  (∃ r e, (r, e) ∈ zip view eps ∧ monitored_host r = Some masterIP ∧ pr_Epoch r = agree).
Proof.
  intros Hc Hin Hpos.
  destruct (classifyStale_spec _ _ _ _ _ _ _ _ Hc Hin) as (r & Hz & Ht & Hall & Hagree & Hco).
  rewrite Forall_forall in Hall.
  assert (∃ host, monitored_host r = Some host ∧ host ≠ masterIP ∧ host ∈ live ∧
    pr_Epoch r < agree ∧ flagsIndicateElection (pr_Flags r) = false) as (host & Hh).
  { unfold stale_target in Ht. destruct (monitored_host r) as [host|]; [|done]. bool_to_prop. eauto 10. }
  split_and!.
  - exists r, host. tauto.
  - intros r' e h Hr' Hh'. destruct (Hall _ Hr' h Hh') as (H1 & H2 & H3). simpl in *.
    split_and!; [done..|]. intros ->. split; [apply Hco; eauto|by apply H3].
  - destruct Hagree as [->|?]; [|done]. pose proof (Hpos _ _ Hz). lia.
Qed.

Lemma stale_epoch_direction_witness :
  let view := ProbeAll "" (io_probe (demo_io "master")) demo_eps in
  ∃ r host, (r, sent "2") ∈ zip view demo_eps ∧ monitored_host r = Some host ∧ host ≠ "10.0.0.1" ∧
    (host ∈ LiveValkeyIPs demo_target) ∧ pr_Epoch r < 7 ∧ flagsIndicateElection (pr_Flags r) = false.
Proof.
  intros view.
  destruct (stale_epoch_direction view demo_eps (LiveValkeyIPs demo_target) "10.0.0.1"
    [sent "2"] [sent "1"; sent "3"] 7 (sent "2")) as (H & _).
  - vm_compute. reflexivity.
  - constructor.
  - vm_compute. intros r e H.
    repeat (apply elem_of_cons in H as [H|H]; [injection H as -> ->; discriminate|]).
    by apply not_elem_of_nil in H.
  - exact H.
Defined.

(** ** The ghost debounce across passes *)
Record gpass := { gp_now : Time; gp_holders : list GhostHolder; gp_live : gset string; gp_allow : bool }.

(** The debounce state of one CR after a sequence of passes, from none. *)
Definition ghost_passes (cr : observerKey) (ps : list gpass) : gmap observerKey (gmap string Time) :=
  foldl (λ g p, (selectGhostReapTarget g (gp_now p) cr (gp_holders p) (gp_live p) (gp_allow p)).1) ∅ ps.

Definition detects (ip : string) (p : gpass) : Prop := ip ∈ detected_ghosts (gp_holders p).

Lemma select_seen g now cr holders live allow :
  default ∅ ((selectGhostReapTarget g now cr holders live allow).1 !! cr) =
  refresh_seen now live (detected_ghosts holders) (default ∅ (g !! cr)).
Proof.
  unfold selectGhostReapTarget. cbv zeta. cbn [fst].
  set (s := refresh_seen _ _ _ _). case_bool_decide as E; simpl_map; [by rewrite E|done].
Qed.

Lemma refresh_seen_lookup now live det seen ip ts :
  refresh_seen now live det seen !! ip = Some ts →
  ip ∈ det ∧ (seen !! ip = Some ts ∨ ts = now).
Proof.
  unfold refresh_seen. rewrite lookup_union_Some_raw, map_lookup_filter_Some, lookup_gset_to_gmap_Some.
  naive_solver.
Qed.

Lemma ghost_stamp_run cr ps ip ts :
  default ∅ (ghost_passes cr ps !! cr) !! ip = Some ts →
  ∃ pre p mid, ps = pre ++ p :: mid ∧ gp_now p = ts ∧ Forall (detects ip) (p :: mid).
Proof.
  revert ts. induction ps as [|p ps IH] using rev_ind; intros ts.
  { unfold ghost_passes. simpl. rewrite lookup_empty. simpl. by rewrite lookup_empty. }
  unfold ghost_passes in *. rewrite foldl_app. cbn [foldl]. rewrite select_seen.
  intros [Hd [Hs|Hs]]%refresh_seen_lookup; [|subst ts].
  - destruct (IH _ Hs) as (pre & q & mid & -> & Hq & Hall). exists pre, q, (mid ++ [p]).
    split_and!; [by rewrite <-app_assoc|done|]. rewrite app_comm_cons. apply Forall_app. auto.
  - exists ps, p, []. split_and!; [done..|]. by repeat constructor.
Qed.

(** The ghost reap acts only on a sustained absence: over any sequence of
    passes on a CR, when the last one picks a survivor to reap, that survivor holds
    a peer IP that was detected as a ghost in every pass of an unbroken run ending
    now whose first pass lies at least 30 seconds back, and the reap was allowed.
    A single pass in which the IP is live again or not reported restarts the
    clock, and at most one survivor is picked per pass. *)
Theorem ghost_reap_debounced cr ps p ep :
  (selectGhostReapTarget (ghost_passes cr ps) (gp_now p) cr (gp_holders p) (gp_live p) (gp_allow p)).2
    = Some ep →
  gp_allow p = true ∧
  ∃ h ip, h ∈ gp_holders p ∧ gh_Endpoint h = ep ∧ ip ∈ GhostIPs h ∧
    ∃ pre q mid, ps ++ [p] = pre ++ q :: mid ∧ 30 * Second ≤ Sub (gp_now p) (gp_now q) ∧
      Forall (detects ip) (q :: mid).
Proof.
  pose proof (ghost_stamp_run cr (ps ++ [p])) as Hrun.
  unfold ghost_passes in Hrun. rewrite foldl_app in Hrun. cbn [foldl] in Hrun.
  setoid_rewrite select_seen in Hrun. fold (ghost_passes cr ps) in Hrun.
  unfold selectGhostReapTarget. cbv zeta. cbn [snd].
  destruct (gp_allow p); cbn [negb]; [|done].
  intros [?|(h & Hh & He & Hr)]%ghost_choice; [done|]. split; [done|].
  unfold reapable in Hr. apply existsb_exists in Hr as (ip & Hip & Hs). apply list_elem_of_In in Hip.
  destruct (refresh_seen _ _ _ _ !! ip) as [ts|] eqn:Et; [|done]. apply Z.leb_le in Hs.
  destruct (Hrun ip ts Et) as (pre & q & mid & E & <- & Hall).
  exists h, ip. split_and!; [done..|]. eauto 10.
Qed.

Definition ghost_demo (t : Time) : gpass :=
  {| gp_now := t; gp_holders := [{| gh_Endpoint := sent "1"; GhostIPs := ["10.1.0.9"] |}];
     gp_live := liveSentinelIPSet demo_eps; gp_allow := true |}.

Lemma ghost_reap_debounced_witness :
  (selectGhostReapTarget (ghost_passes ("default", "vk") [ghost_demo 1; ghost_demo (10 * Second)])
     (40 * Second) ("default", "vk") (gp_holders (ghost_demo 0)) (gp_live (ghost_demo 0)) true).2 = Some (sent "1") ∧
  ∃ h ip, h ∈ gp_holders (ghost_demo (40 * Second)) ∧ gh_Endpoint h = sent "1" ∧ ip ∈ GhostIPs h ∧
    ∃ pre q mid, [ghost_demo 1; ghost_demo (10 * Second)] ++ [ghost_demo (40 * Second)] = pre ++ q :: mid ∧
      30 * Second ≤ Sub (40 * Second) (gp_now q) ∧ Forall (detects ip) (q :: mid).
Proof.
  split; [vm_compute; reflexivity|].
  apply (ghost_reap_debounced ("default", "vk") [ghost_demo 1; ghost_demo (10 * Second)]
    (ghost_demo (40 * Second)) (sent "1")). vm_compute. reflexivity.
Defined.

(** The doomed-election verdict that licenses an operator-driven promotion is
    exact: it is true precisely when at least QuorumThreshold of all sentinels
    returned a replica table and no returned table names a live pod; an
    unreadable table never counts as doomed. *)
Theorem election_doomed_iff pw dialOf eps live :
  eps ≠ [] → live ≠ ∅ →
  QuorumElectionDoomed pw dialOf eps live = true ↔
  QuorumThreshold (len eps) ≤ Z.of_nat (count (λ ep, is_ok (replicasOne pw (dialOf ep))) eps) ∧
  ∀ ep rs r, ep ∈ eps → replicasOne pw (dialOf ep) = Ok rs → r ∈ rs → ri_IP r ∉ live.
Proof.
  intros Hne Hlive. unfold QuorumElectionDoomed.
  rewrite (proj2 (Z.eqb_neq _ _)) by (unfold len; destruct eps; simpl; [done|lia]).
  rewrite bool_decide_eq_false_2 by done. simpl.
  assert (Hd : ∀ rs, replicaTableDoomed rs live = true ↔ ∀ r, r ∈ rs → ri_IP r ∉ live).
  { intros rs. unfold replicaTableDoomed. rewrite forallb_forall. setoid_rewrite <-list_elem_of_In.
    setoid_rewrite negb_true_iff. by setoid_rewrite bool_decide_eq_false. }
  generalize (QuorumThreshold (len eps)). intros thr. clear Hne.
  assert (∀ c, match doomed_walk (ReplicasAll pw dialOf eps) live c with
               | None => false | Some reachable => thr <=? reachable end = true ↔
    thr ≤ c + Z.of_nat (count (λ ep, is_ok (replicasOne pw (dialOf ep))) eps) ∧
    ∀ ep rs r, ep ∈ eps → replicasOne pw (dialOf ep) = Ok rs → r ∈ rs → ri_IP r ∉ live) as H.
  { unfold ReplicasAll. induction eps as [|ep eps IH]; intros c; simpl.
    { rewrite Z.leb_le, Z.add_0_r. split; [intros; split; [done|]|tauto].
      intros ep rs r Hep. by apply not_elem_of_nil in Hep. }
    setoid_rewrite elem_of_cons.
    destruct (replicasOne pw (dialOf ep)) as [rs|e] eqn:E; simpl.
    - destruct (replicaTableDoomed rs live) eqn:Er; simpl.
      + rewrite IH. rewrite Hd in Er. split; intros [H1 H2]; (split; [lia|]); [|by eauto].
        intros ep' rs' r [->|Hep'] E' Hr; [|by eauto]. rewrite E in E'. simplify_eq. auto.
      + split; [done|]. intros [_ H2]. assert (replicaTableDoomed rs live = true) as Ht; [|congruence].
        apply Hd. intros r Hr. eapply (H2 ep); eauto.
    - rewrite IH. split; intros [H1 H2]; (split; [lia|]); [|by eauto].
      intros ep' rs' r [->|Hep'] E' Hr; [congruence|by eauto]. }
  by rewrite H.
Qed.

Lemma election_doomed_iff_witness :
  QuorumElectionDoomed "" (λ _, answer (RArr [RArr [RStr "ip"; RStr "10.0.0.9"; RStr "port"; RStr "6379"]]))
    demo_eps {["10.0.0.1"]} = true.
Proof.
  apply election_doomed_iff; [discriminate|discriminate|].
  split; [vm_compute; discriminate|]. intros ep rs r _ [= <-] Hr.
  apply elem_of_cons in Hr as [->|Hr]; [|by apply not_elem_of_nil in Hr].
  intros H%elem_of_singleton. discriminate H.
Defined.

(** The startup pass touches only sentinels that answered with an empty peer
    list, and only when a quorum of that CR's sentinels answered and the master is
    known: a sentinel that still gossips, or that could not be read, is never
    removed at leader acquisition. *)
Theorem startup_reset_safe m targets ep :
  CmdRemove ep ∈ (RunInitialReset m targets).2 →
  ∃ t io, (t, io) ∈ targets ∧ ep ∈ Endpoints t ∧ MasterIP t ≠ "" ∧
    sentinelsOne (Password t) (io_sentinels io ep) = Ok [] ∧
    QuorumThreshold (len (Endpoints t)) ≤
      Z.of_nat (count (λ e, is_ok (sentinelsOne (Password t) (io_sentinels io e))) (Endpoints t)).
Proof.
  unfold RunInitialReset. cbn [snd]. rewrite list_elem_of_bind.
  intros (r & Hin & ([t io] & -> & Ht)%list_elem_of_fmap). exists t, io. split; [done|].
  revert Hin. unfold reset_one.
  destruct (len (Endpoints t) =? 0); [intros H; by apply not_elem_of_nil in H|].
  case_bool_decide as Em; [intros H; by apply not_elem_of_nil in H|].
  destruct (classifyStranded_spec (Password t) (io_sentinels io) ∅ None (Endpoints t))
    as (Htg & _ & Hre & Hq & _).
  cbv zeta. rewrite Htg, Hq, Hre.
  destruct (len _ =? 0); [intros H; by apply not_elem_of_nil in H|].
  destruct (Z.leb_spec (QuorumThreshold (len (Endpoints t)))
    (Z.of_nat (count (λ ep, answered (no_recover None) (sentinelsOne (Password t) (io_sentinels io ep)))
       (Endpoints t)))) as [Hle|]; cbn [negb]; [|intros H'; by apply not_elem_of_nil in H'].
  cbn [snd]. rewrite !elem_of_app, !list_elem_of_fmap.
  intros [(e & [= <-] & [Hs He]%list_elem_of_filter)|[(?&?&?)|[(?&?&?)|H]]]; [|done..|].
  - split_and!; [done..| |].
    + destruct (sentinelsOne _ _) as [[|]|]; simpl in Hs; [done..|]. done.
    + exact Hle.
  - destruct (bool_decide (Password t = "")); [by apply not_elem_of_nil in H|].
    by apply list_elem_of_fmap in H as (? & ? & ?).
Qed.

Lemma startup_reset_safe_witness :
  ∃ t io, (t, io) ∈ [(demo_target, demo_io "master")] ∧ sent "3" ∈ Endpoints t ∧ MasterIP t ≠ "" ∧
    sentinelsOne (Password t) (io_sentinels io (sent "3")) = Ok [] ∧
    QuorumThreshold (len (Endpoints t)) ≤
      Z.of_nat (count (λ e, is_ok (sentinelsOne (Password t) (io_sentinels io e))) (Endpoints t)).
Proof. apply (startup_reset_safe demo_state). vm_compute. by left. Defined.

(** A stale-epoch candidate leaves the veto set when it is classified and is
    not put back when the re-check drops it: there is a pass in which a gossiping
    sentinel that the pass leaves untouched reports failover_in_progress and the
    pass still sends REMOVE and MONITOR to another sentinel. *)
Theorem dropped_candidate_does_not_veto :
  ∃ m now target io ep,
    let trace := (RecoverStrandedSentinels m now target false io).2 in
    NoDup (Name <$> Endpoints target) ∧ ep ∈ Endpoints target ∧
    failoverInProgressOne (Password target) (io_recheck io ep) = Ok true ∧
    (∃ p ps, peers_of target io ep = Ok (p :: ps)) ∧
    Forall (λ c, c ≠ CmdRemove ep) trace ∧ (∃ other, CmdRemove other ∈ trace).
Proof.
  exists demo_state, 100, demo_target, (demo_io "master,failover_in_progress"), (sent "2").
  split_and!.
  - apply demo_names.
  - by right; left.
  - vm_compute. reflexivity.
  - do 2 eexists. vm_compute. reflexivity.
  - vm_compute. repeat constructor; discriminate.
  - exists (sent "3"). vm_compute. by left.
Qed.
