(* ===== verification/Status.v ===== *)
(** * Status evaluation: [internal/orchestration/{status,degraded,ready,available,
    progressing,reconciled,replication_healthy,quorum_lost,primary_confirmed,
    sentinel_topology,bootstrap_complete,phase,watchdog}.go]

    One evaluator per condition over an [Observation], the phase derived from the
    ten conditions, and the replica-readiness watchdog.  A nil pointer is [None].
    Condition messages are modelled to the byte. *)
From S2P Require Import Prelude GoStd GoFmt Observer SQAggregate.
Local Open Scope Z_scope.

(** ** Watchdog ([watchdog.go]) *)
Module Watchdog.
Record MasterAwareRolloutStatus := {
  WaitingForPod : string;
  mars_Deadline : option Time;
  DeletedAt : option Time
}.

Record Result := { Active : bool; Expired : bool; PodName : string; Deadline : Time }.

Definition result_zero : Result :=
  {| Active := false; Expired := false; PodName := ""; Deadline := zero_time |}.

Definition Check (now : Time) (status : option MasterAwareRolloutStatus) : Result :=
  match status with
  | None => result_zero
  | Some st =>
      match mars_Deadline st with
      | None => result_zero
      | Some deadline =>
          if bool_decide (WaitingForPod st = "") then result_zero
          else {| Active := true; Expired := negb (Before now deadline);
                  PodName := WaitingForPod st; Deadline := deadline |}
      end
  end.

Definition Arm (now : Time) (podName : string) (timeoutSeconds : Z)
    (existing : option MasterAwareRolloutStatus) : MasterAwareRolloutStatus :=
  let fresh :=
    let clamped := Z.min 3600 (Z.max 60 timeoutSeconds) in
    {| WaitingForPod := podName; mars_Deadline := Some (Add now (clamped * Second));
       DeletedAt := Some now |} in
  match existing with
  | Some e =>
      if bool_decide (WaitingForPod e = podName) && bool_decide (is_Some (mars_Deadline e))
      then e else fresh
  | None => fresh
  end.

Definition Disarm : MasterAwareRolloutStatus :=
  {| WaitingForPod := ""; mars_Deadline := None; DeletedAt := None |}.
End Watchdog.

(** ** Observation and conditions ([status.go]) *)
Inductive ConditionStatus : Type := ConditionTrue | ConditionFalse | ConditionUnknown.
#[global] Instance ConditionStatus_eq_dec : EqDecision ConditionStatus.
Proof. solve_decision. Defined.

Record Condition := {
  Type_ : string;
  Status : ConditionStatus;
  ObservedGeneration : Z;
  c_Reason : string;
  c_Message : string
}.

Definition TypeReady : string := "Ready".
Definition TypeAvailable : string := "Available".
Definition TypeProgressing : string := "Progressing".
Definition TypeReconciled : string := "Reconciled".
Definition TypeDegraded : string := "Degraded".
Definition TypeReplicationHealthy : string := "ReplicationHealthy".
Definition TypeBootstrapComplete : string := "BootstrapComplete".
Definition TypePrimaryConfirmed : string := "PrimaryConfirmed".
Definition TypeQuorumLost : string := "QuorumLost".
Definition TypeSentinelTopologyReconciled : string := "SentinelTopologyReconciled".

Inductive Mode : Type := ModeStandalone | ModeReplication | ModeSentinel.
#[global] Instance Mode_eq_dec : EqDecision Mode.
Proof. solve_decision. Defined.

(** The fields of the CR the evaluators read. *)
Record Valkey := {
  Generation : Z;
  SpecMode : Mode;
  Replicas : Z;
  BootstrapNode : bool;
  Conditions : list Condition
}.

(** [Spec.Replicas] may be nil. *)
Record StatefulSet := { sts_Replicas : option Z; ReadyReplicas : Z }.

Record Observation := {
  o_CR : option Valkey;
  STS : option StatefulSet;
  ReconcileError : bool;
  Paused : bool;
  RolloutWatchdog : Watchdog.Result;
  SentinelQuorum : SQAggregate.Result;
  SplitBrainActive : bool;
  NoMasterAgreementActive : bool;
  MasterLostActive : bool;
  DualMasterActive : bool;
  SentinelPeerLinkupStuckActive : bool;
  QuorumSuppressionActive : bool;
  GateEnabled : bool;
  ReadyReplicaPeers : Z;
  SentinelTopologyMismatchActive : bool;
  SentinelTopologySentinelDeficit : Z;
  SentinelTopologyReplicaDeficit : Z
}.

Definition cond (t : string) (s : ConditionStatus) (reason msg : string) : Condition :=
  {| Type_ := t; Status := s; ObservedGeneration := 0; c_Reason := reason; c_Message := msg |}.

Definition in_mode (md : Mode) (cr : option Valkey) : bool :=
  match cr with Some v => bool_decide (SpecMode v = md) | None => false end.

Definition findCondition (conds : list Condition) (t : string) : option Condition :=
  List.find (λ c, bool_decide (Type_ c = t)) conds.

Definition findPriorCondition (o : Observation) (t : string) : option Condition :=
  v ← o_CR o; findCondition (Conditions v) t.

Definition statusOf (conds : list Condition) (t : string) : ConditionStatus :=
  match findCondition conds t with Some c => Status c | None => ConditionUnknown end.

Definition desired_of (s : StatefulSet) : Z := default 0 (sts_Replicas s).

(** ** The evaluators *)
Definition evalReady (o : Observation) : Condition :=
  let no := cond TypeReady ConditionFalse in
  if DualMasterActive o then
    no "DualMasterDivergence" "two or more valkey pods self-report role:master; writes are split across primaries"
  else if NoMasterAgreementActive o then
    no "NoMasterAgreement" "sentinel observer reports a primary address that matches no current valkey pod"
  else if MasterLostActive o then
    no "MasterLost" "pod labelled role=primary is not responding to INFO; awaiting Sentinel-driven promotion of a replacement primary"
  else match STS o with
  | None => no "StatefulSetMissing" "StatefulSet not yet created"
  | Some s =>
      if (desired_of s <=? ReadyReplicas s) && (0 <? desired_of s) then
        cond TypeReady ConditionTrue "Ready" "all desired replicas are Ready"
      else no "WaitingForReplicas" "waiting for replicas to become Ready"
  end.

Definition evalAvailable (o : Observation) : Condition :=
  let no := cond TypeAvailable ConditionFalse in
  match STS o with
  | None => no "StatefulSetMissing" "StatefulSet not yet created"
  | Some s =>
      if 1 <=? ReadyReplicas s then
        cond TypeAvailable ConditionTrue "Available" "at least one replica is Ready"
      else no "WaitingForReplicas" "no replicas are Ready yet"
  end.

Definition evalProgressing (o : Observation) : Condition :=
  let yes := cond TypeProgressing ConditionTrue in
  match STS o with
  | None => yes "StatefulSetMissing" "creating StatefulSet"
  | Some s =>
      if ReadyReplicas s <? desired_of s then
        yes "Progressing" "waiting for replicas to become Ready"
      else cond TypeProgressing ConditionFalse "AsExpected" "no rollout in progress"
  end.

Definition evalReconciled (o : Observation) : Condition :=
  if ReconcileError o then
    cond TypeReconciled ConditionFalse "ReconcileError" "reconcile returned an error; see the operator log"
  else cond TypeReconciled ConditionTrue "Reconciled" "reconcile pass completed without error".

Definition isSubHASentinel (cr : option Valkey) : bool :=
  match cr with
  | Some v => bool_decide (SpecMode v = ModeSentinel) && (Replicas v <? 2)
  | None => false
  end.

Definition evalDegraded (o : Observation) : Condition :=
  let yes := cond TypeDegraded ConditionTrue in
  let wd := RolloutWatchdog o in
  if Watchdog.Active wd && Watchdog.Expired wd then
    yes "RolloutStalled"
      ("replica-readiness watchdog expired waiting for pod " +:+ Quote (Watchdog.PodName wd) +:+
       " (deadline " +:+ FormatUTC (Watchdog.Deadline wd) +:+ ")")
  else if ReconcileError o then yes "ReconcileError" "reconcile returned an error"
  else if DualMasterActive o then
    yes "DualMasterDivergence" "two or more valkey pods self-report role:master; writes are landing on more than one primary and the diverging writes will be discarded when the split resolves"
  else if SentinelPeerLinkupStuckActive o then
    yes "SentinelPeerLinkupStuck" "a rebuilt sentinel still reports an empty peer-list after repeated REMOVE + MONITOR surgeries; gossip cannot rebuild (auth or NetworkPolicy). Operator surgery is backing off — manual intervention likely required"
  else if QuorumSuppressionActive o && in_mode ModeSentinel (o_CR o) then
    yes "QuorumUnreachable" "sentinel quorum suppression gate active: fewer than `spec.sentinel.quorum` sentinels reachable past the loss threshold; all sentinel commands suspended until quorum recovers"
  else if NoMasterAgreementActive o then
    yes "NoMasterAgreement" "sentinel observer reports a primary address that matches no current valkey pod; writes via the `<cr>` Service would land on a non-primary"
  else if SplitBrainActive o then
    yes "SplitBrain" "sentinel observer reports quorum lost: fewer than `spec.sentinel.quorum` sentinels agree on the primary; role-label writes suppressed until quorum recovers"
  else if isSubHASentinel (o_CR o) then
    yes "HANotMet"
      ("mode=sentinel with spec.valkey.replicas=" +:+
       Itoa match o_CR o with Some v => Replicas v | None => 0 end +:+
       " is sub-HA: at least 2 valkey replicas are required for sentinel to perform a failover")
  else cond TypeDegraded ConditionFalse "AsExpected" "no degradation observed".

Definition DegradedFlippedFalse (prior current : list Condition) : bool :=
  match findCondition prior TypeDegraded with
  | Some p =>
      if bool_decide (Status p = ConditionTrue) then
        match findCondition current TypeDegraded with
        | Some c => bool_decide (Status c = ConditionFalse)
        | None => false
        end
      else false
  | None => false
  end.

Definition expectedReplicaPeers (cr : option Valkey) : Z :=
  match cr with
  | Some v => if 0 <? Replicas v - 1 then Replicas v - 1 else 0
  | None => 0
  end.

Definition evalReplicationHealthy (o : Observation) : Condition :=
  let yes := cond TypeReplicationHealthy ConditionTrue in
  if in_mode ModeStandalone (o_CR o) then
    yes "NotApplicable" "standalone mode has no replication peer to track"
  else if negb (GateEnabled o) then
    yes "NotApplicable" "replication-lag readiness gate disabled (spec.valkey.readinessGate.enabled=false); replication health not tracked"
  else
    let expected := expectedReplicaPeers (o_CR o) in
    if expected =? 0 then
      yes "NotApplicable" "no replica peers configured (spec.valkey.replicas=1)"
    else if expected <=? ReadyReplicaPeers o then
      yes "AsExpected" ("all " +:+ Itoa expected +:+ " replica(s) replication-ready (master_link up, lag within budget)")
    else cond TypeReplicationHealthy ConditionFalse "WaitingForReplicas"
           (Itoa (ReadyReplicaPeers o) +:+ "/" +:+ Itoa expected +:+ " replica(s) replication-ready").

Definition evalBootstrapComplete (o : Observation) : Condition :=
  let derive :=
    if match o_CR o with Some v => BootstrapNode v | None => false end then
      cond TypeBootstrapComplete ConditionFalse "Replicating" "awaiting bootstrap import"
    else cond TypeBootstrapComplete ConditionTrue "BootstrapNotConfigured"
           "bootstrap not configured; CR starts self-sufficient" in
  match findPriorCondition o TypeBootstrapComplete with
  | Some prior =>
      if bool_decide (Status prior = ConditionTrue)
      then cond TypeBootstrapComplete ConditionTrue (c_Reason prior) (c_Message prior)
      else derive
  | None => derive
  end.

Definition evalPrimaryConfirmed (o : Observation) : Condition :=
  let mk := cond TypePrimaryConfirmed in
  let sq := SentinelQuorum o in
  if negb (in_mode ModeSentinel (o_CR o)) then
    mk ConditionTrue "NotApplicable" "PrimaryConfirmed is not applicable outside sentinel mode"
  else if PrimaryConfirmed sq then
    mk ConditionTrue "MajorityAgreed"
      ("strict majority of " +:+ Itoa (FreshCount sq) +:+ " fresh sentinel record(s) agree on primary " +:+
       Quote (PrimaryPod sq))
  else if FreshCount sq =? 0 then
    mk ConditionUnknown "NoFreshObservation" "no fresh SentinelQuorum records observed"
  else mk ConditionFalse "NoMajority"
         ("no strict majority on primary across " +:+ Itoa (FreshCount sq) +:+ " fresh sentinel record(s)").

Definition evalQuorumLost (o : Observation) : Condition :=
  let mk := cond TypeQuorumLost in
  if negb (in_mode ModeSentinel (o_CR o)) then
    mk ConditionFalse "NotApplicable" "QuorumLost is not applicable outside sentinel mode"
  else if QuorumSuppressionActive o then
    mk ConditionTrue "QuorumUnreachable" "sentinel quorum suppression gate active (sustained NOQUORUM past the configured threshold, awaiting recovery polls)"
  else if bool_decide (ag_Quorum (SentinelQuorum o) = QuorumStatusUnknown) then
    mk ConditionUnknown "NoFreshObservation" "no fresh SentinelQuorum records observed"
  else mk ConditionFalse "QuorumReachable" "sentinel quorum suppression gate inactive".

Definition SentinelTopologyDetail (sentinelDeficit replicaDeficit : Z) : string :=
  Join ((if 0 <? sentinelDeficit
         then ["sentinels short by " +:+ Itoa sentinelDeficit +:+ " (peer-gossip gap)"] else []) ++
        (if 0 <? replicaDeficit then ["replicas short by " +:+ Itoa replicaDeficit] else [])) "; ".

Definition evalSentinelTopology (o : Observation) : Condition :=
  let mk := cond TypeSentinelTopologyReconciled in
  if negb (in_mode ModeSentinel (o_CR o)) then
    mk ConditionTrue "NotApplicable" "sentinel topology reconciliation is not applicable outside sentinel mode"
  else if negb (SentinelTopologyMismatchActive o) then
    mk ConditionTrue "InSync" "sentinel-known peer and replica counts match spec"
  else mk ConditionFalse "SentinelTopologyMismatch"
         ("sentinel topology below spec: " +:+
          SentinelTopologyDetail (SentinelTopologySentinelDeficit o) (SentinelTopologyReplicaDeficit o)).

Inductive Phase : Type :=
  | PhasePending | PhaseProgressing | PhaseAvailable | PhaseReady | PhaseDegraded | PhasePaused.
#[global] Instance Phase_eq_dec : EqDecision Phase.
Proof. solve_decision. Defined.

Definition derivePhase (conds : list Condition) (o : Observation) : Phase :=
  if Paused o then PhasePaused
  else if bool_decide (statusOf conds TypeDegraded = ConditionTrue) then PhaseDegraded
  else if bool_decide (statusOf conds TypeReconciled = ConditionFalse) then PhaseDegraded
  else if bool_decide (statusOf conds TypeQuorumLost = ConditionTrue) then PhaseDegraded
  else
    let ready := bool_decide (statusOf conds TypeReady = ConditionTrue) in
    let available := bool_decide (statusOf conds TypeAvailable = ConditionTrue) in
    let progressing := bool_decide (statusOf conds TypeProgressing = ConditionTrue) in
    match STS o with
    | None => PhasePending
    | Some _ =>
        if ready then PhaseReady
        else if available && progressing then PhaseProgressing
        else if available then PhaseAvailable
        else PhaseProgressing
    end.

Definition stamp_generation (g : Z) (c : Condition) : Condition :=
  {| Type_ := Type_ c; Status := Status c; ObservedGeneration := g; c_Reason := c_Reason c;
     c_Message := c_Message c |}.

Definition Evaluate (o : Observation) : list Condition * Phase :=
  let conds :=
    [evalReady o; evalAvailable o; evalProgressing o; evalReconciled o; evalDegraded o;
     evalReplicationHealthy o; evalBootstrapComplete o; evalPrimaryConfirmed o; evalQuorumLost o;
     evalSentinelTopology o] in
  let conds := match o_CR o with
               | Some v => stamp_generation (Generation v) <$> conds
               | None => conds
               end in
  (conds, derivePhase conds o).

(** ** Lemmas *)
Definition evaluators : list (Observation → Condition) :=
  [evalReady; evalAvailable; evalProgressing; evalReconciled; evalDegraded;
   evalReplicationHealthy; evalBootstrapComplete; evalPrimaryConfirmed; evalQuorumLost;
   evalSentinelTopology].

Definition condition_types : list string :=
  [TypeReady; TypeAvailable; TypeProgressing; TypeReconciled; TypeDegraded;
   TypeReplicationHealthy; TypeBootstrapComplete; TypePrimaryConfirmed; TypeQuorumLost;
   TypeSentinelTopologyReconciled].

Lemma eval_types o : (λ e, Type_ (e o)) <$> evaluators = condition_types.
Proof.
  unfold evaluators, condition_types. cbn [fmap list_fmap].
  repeat f_equal;
    [unfold evalReady|unfold evalAvailable|unfold evalProgressing|unfold evalReconciled
    |unfold evalDegraded|unfold evalReplicationHealthy|unfold evalBootstrapComplete
    |unfold evalPrimaryConfirmed|unfold evalQuorumLost|unfold evalSentinelTopology];
    cbv zeta; repeat case_match; reflexivity.
Qed.

Lemma Evaluate_conds o :
  (Evaluate o).1 = (λ e, match o_CR o with
                         | Some v => stamp_generation (Generation v) (e o)
                         | None => e o
                         end) <$> evaluators.
Proof. unfold Evaluate. by destruct (o_CR o). Qed.

Lemma find_fmap_types (es : list (Observation → Condition)) (f : Condition → Condition) o i e t :
  (∀ c, Type_ (f c) = Type_ c) → NoDup ((λ e, Type_ (e o)) <$> es) →
  es !! i = Some e → Type_ (e o) = t →
  findCondition ((λ e, f (e o)) <$> es) t = Some (f (e o)).
Proof.
  intros Hf. revert i. induction es as [|e' es IH]; intros i Hnd Hi Ht; [done|].
  rewrite fmap_cons, NoDup_cons in Hnd. destruct Hnd as [Hnin Hnd].
  unfold findCondition in *. simpl. rewrite Hf. destruct i as [|i]; simplify_eq/=.
  - by rewrite bool_decide_eq_true_2.
  - rewrite bool_decide_eq_false_2; [by eapply IH|]. intros E. apply Hnin. rewrite E.
    apply (list_elem_of_fmap_2 (λ e, Type_ (e o))). by eapply list_elem_of_lookup_2.
Qed.

(** Each condition type is found with its own evaluator's verdict. *)
Lemma Evaluate_find o i e t :
  evaluators !! i = Some e → condition_types !! i = Some t →
  ∃ c, findCondition (Evaluate o).1 t = Some c ∧ Status c = Status (e o) ∧
    c_Reason c = c_Reason (e o) ∧ c_Message c = c_Message (e o).
Proof.
  intros Hi Ht.
  assert (Type_ (e o) = t) as Et.
  { rewrite <-(eval_types o), list_lookup_fmap, Hi in Ht. by simplify_eq/=. }
  assert (NoDup ((λ e, Type_ (e o)) <$> evaluators)) as Hnd.
  { rewrite eval_types. refine (bool_decide_unpack _ _). vm_compute. exact I. }
  rewrite Evaluate_conds. destruct (o_CR o) as [v|].
  - eexists. split; [by apply (find_fmap_types _ (stamp_generation (Generation v)) o i e t)|done].
  - eexists. split; [by apply (find_fmap_types _ (λ c, c) o i e t)|done].
Qed.

Lemma Evaluate_status o i e t :
  evaluators !! i = Some e → condition_types !! i = Some t →
  statusOf (Evaluate o).1 t = Status (e o).
Proof.
  intros Hi Ht. destruct (Evaluate_find o i e t Hi Ht) as (c & Hc & Hs & _).
  unfold statusOf. by rewrite Hc.
Qed.

Lemma Evaluate_phase o :
  (Evaluate o).2 =
  if Paused o then PhasePaused
  else if bool_decide (Status (evalDegraded o) = ConditionTrue) then PhaseDegraded
  else if bool_decide (Status (evalReconciled o) = ConditionFalse) then PhaseDegraded
  else if bool_decide (Status (evalQuorumLost o) = ConditionTrue) then PhaseDegraded
  else match STS o with
       | None => PhasePending
       | Some _ =>
           if bool_decide (Status (evalReady o) = ConditionTrue) then PhaseReady
           else if bool_decide (Status (evalAvailable o) = ConditionTrue) &&
                   bool_decide (Status (evalProgressing o) = ConditionTrue) then PhaseProgressing
           else if bool_decide (Status (evalAvailable o) = ConditionTrue) then PhaseAvailable
           else PhaseProgressing
       end.
Proof.
  change (Evaluate o).2 with (derivePhase (Evaluate o).1 o). unfold derivePhase.
  rewrite (Evaluate_status o 4 evalDegraded) by done.
  rewrite (Evaluate_status o 3 evalReconciled) by done.
  rewrite (Evaluate_status o 8 evalQuorumLost) by done.
  rewrite (Evaluate_status o 0 evalReady) by done.
  rewrite (Evaluate_status o 1 evalAvailable) by done.
  rewrite (Evaluate_status o 2 evalProgressing) by done.
  done.
Qed.

(** The faults that make the CR Degraded, in the order they are reported. *)
Definition faults (o : Observation) : list (bool * string) :=
  [(Watchdog.Active (RolloutWatchdog o) && Watchdog.Expired (RolloutWatchdog o), "RolloutStalled");
   (ReconcileError o, "ReconcileError");
   (DualMasterActive o, "DualMasterDivergence");
   (SentinelPeerLinkupStuckActive o, "SentinelPeerLinkupStuck");
   (QuorumSuppressionActive o && in_mode ModeSentinel (o_CR o), "QuorumUnreachable");
   (NoMasterAgreementActive o, "NoMasterAgreement");
   (SplitBrainActive o, "SplitBrain");
   (isSubHASentinel (o_CR o), "HANotMet")].

Definition first_fault (o : Observation) : option string :=
  snd <$> List.find fst (faults o).

Lemma evalDegraded_first_fault o :
  (Status (evalDegraded o), c_Reason (evalDegraded o)) =
  match first_fault o with
  | Some r => (ConditionTrue, r)
  | None => (ConditionFalse, "AsExpected")
  end.
Proof.
  unfold evalDegraded, first_fault, faults. cbv zeta. cbn [List.find fst].
  do 8 (match goal with |- context [if ?b then _ else _] => destruct b end; [reflexivity|]).
  reflexivity.
Qed.

Lemma evalQuorumLost_true o :
  Status (evalQuorumLost o) = ConditionTrue ↔
  QuorumSuppressionActive o && in_mode ModeSentinel (o_CR o) = true.
Proof.
  unfold evalQuorumLost. cbv zeta.
  destruct (in_mode ModeSentinel (o_CR o)), (QuorumSuppressionActive o); simpl; try done.
  by case_bool_decide.
Qed.

Lemma evalReady_true o :
  Status (evalReady o) = ConditionTrue ↔
  DualMasterActive o = false ∧ NoMasterAgreementActive o = false ∧ MasterLostActive o = false ∧
  ∃ s, STS o = Some s ∧ 0 < desired_of s ≤ ReadyReplicas s.
Proof.
  unfold evalReady. cbv zeta.
  destruct (DualMasterActive o), (NoMasterAgreementActive o), (MasterLostActive o); simpl;
    try (split; [done|]; by intros (? & ? & ? & _)).
  destruct (STS o) as [s|]; [|split; [done|]; by intros (_ & _ & _ & s & ? & _)].
  destruct (Z.leb_spec (desired_of s) (ReadyReplicas s)), (Z.ltb_spec 0 (desired_of s)); simpl.
  - split; [intros _|done]. split_and!; try done. exists s. split; [done|lia].
  - split; [done|]. intros (_ & _ & _ & s' & [= <-] & ?). lia.
  - split; [done|]. intros (_ & _ & _ & s' & [= <-] & ?). lia.
  - split; [done|]. intros (_ & _ & _ & s' & [= <-] & ?). lia.
Qed.

Lemma first_fault_none o :
  first_fault o = None ↔ Forall (λ bf : bool * string, bf.1 = false) (faults o).
Proof.
  unfold first_fault. generalize (faults o). intros l. induction l as [|[b f] l IH]; simpl.
  - done.
  - rewrite Forall_cons. destruct b; simpl; [split; [done|by intros [? _]]|]. rewrite IH. tauto.
Qed.

(** ** Properties *)

(** A CR is reported Ready exactly when everything is well: it is not paused,
    the reconcile succeeded, no degradation fault is present (stalled rollout,
    dual master, stuck peer link-up, quorum suppression in sentinel mode, no
    master agreement, split brain, sub-HA sizing), the labelled primary answers,
    and a StatefulSet exists whose ready replicas reach a positive desired count. *)
Theorem phase_ready_iff o :
  (Evaluate o).2 = PhaseReady ↔
  Paused o = false ∧ Forall (λ bf : bool * string, bf.1 = false) (faults o) ∧
  MasterLostActive o = false ∧ ∃ s, STS o = Some s ∧ 0 < desired_of s ≤ ReadyReplicas s.
Proof.
  rewrite Evaluate_phase, <-first_fault_none.
  pose proof (evalDegraded_first_fault o) as Hd.
  assert (first_fault o = None → ReconcileError o = false ∧ DualMasterActive o = false ∧
    NoMasterAgreementActive o = false ∧ (QuorumSuppressionActive o && in_mode ModeSentinel (o_CR o)) = false) as Hf.
  { rewrite first_fault_none. unfold faults. rewrite !Forall_cons. simpl. tauto. }
  destruct (Paused o); [split; [done|]; by intros [? _]|].
  destruct (first_fault o) as [r|]; injection Hd as Hs Hr; rewrite Hs; simpl.
  { split; [done|]. by intros (_ & ? & _). }
  destruct (Hf eq_refl) as (H1 & H2 & H3 & H4).
  assert (Status (evalReconciled o) = ConditionTrue) as -> by (unfold evalReconciled; by rewrite H1).
  rewrite (bool_decide_eq_false_2 (Status (evalQuorumLost o) = _)) by (rewrite evalQuorumLost_true; by rewrite H4).
  simpl. pose proof (evalReady_true o) as Hready. rewrite H2, H3 in Hready.
  destruct (STS o) as [s|] eqn:Es.
  - case_bool_decide as Er.
    + split; [intros _|done]. apply Hready in Er. tauto.
    + split; [by repeat case_match|]. intros (_ & _ & Hm & Hx). destruct Er. apply Hready. tauto.
  - split; [done|]. intros (_ & _ & _ & s & ? & _). done.
Qed.

(** The Degraded condition reports the first present fault in a fixed order
    of severity and is False with "AsExpected" exactly when none is present, and
    the phase agrees: an unpaused CR is in phase Degraded if and only if some fault
    is present, so a True QuorumLost or a failed reconcile never hides behind
    another phase. *)
Theorem degraded_first_fault o :
  (∃ c, findCondition (Evaluate o).1 TypeDegraded = Some c ∧
     (Status c, c_Reason c) = match first_fault o with
                              | Some r => (ConditionTrue, r)
                              | None => (ConditionFalse, "AsExpected")
                              end) ∧
  ((Evaluate o).2 = PhaseDegraded ↔ Paused o = false ∧ first_fault o ≠ None).
Proof.
  split.
  - destruct (Evaluate_find o 4 evalDegraded TypeDegraded eq_refl eq_refl) as (c & Hc & Hs & Hr & _).
    exists c. split; [done|]. by rewrite Hs, Hr, evalDegraded_first_fault.
  - rewrite Evaluate_phase. pose proof (evalDegraded_first_fault o) as Hd.
    assert (first_fault o = None → ReconcileError o = false ∧
      (QuorumSuppressionActive o && in_mode ModeSentinel (o_CR o)) = false) as Hf.
    { rewrite first_fault_none. unfold faults. rewrite !Forall_cons. simpl. tauto. }
    destruct (Paused o); [split; [done|]; by intros [? _]|].
    destruct (first_fault o) as [r|]; injection Hd as Hs Hr; rewrite Hs; simpl; [done|].
    destruct (Hf eq_refl) as (H1 & H4).
    assert (Status (evalReconciled o) = ConditionTrue) as -> by (unfold evalReconciled; by rewrite H1).
    rewrite (bool_decide_eq_false_2 (Status (evalQuorumLost o) = _)) by (rewrite evalQuorumLost_true; by rewrite H4).
    simpl. split; [by repeat case_match|by intros [_ []]].
Qed.

(** The observation of the next pass, whose CR carries the conditions the last
    pass wrote. *)
Definition with_conditions (cs : list Condition) (o : Observation) : Observation :=
  {| o_CR := (λ v, {| Generation := Generation v; SpecMode := SpecMode v; Replicas := Replicas v;
                      BootstrapNode := BootstrapNode v; Conditions := cs |}) <$> o_CR o;
     STS := STS o; ReconcileError := ReconcileError o; Paused := Paused o;
     RolloutWatchdog := RolloutWatchdog o; SentinelQuorum := SentinelQuorum o;
     SplitBrainActive := SplitBrainActive o; NoMasterAgreementActive := NoMasterAgreementActive o;
     MasterLostActive := MasterLostActive o; DualMasterActive := DualMasterActive o;
     SentinelPeerLinkupStuckActive := SentinelPeerLinkupStuckActive o;
     QuorumSuppressionActive := QuorumSuppressionActive o; GateEnabled := GateEnabled o;
     ReadyReplicaPeers := ReadyReplicaPeers o;
     SentinelTopologyMismatchActive := SentinelTopologyMismatchActive o;
     SentinelTopologySentinelDeficit := SentinelTopologySentinelDeficit o;
     SentinelTopologyReplicaDeficit := SentinelTopologyReplicaDeficit o |}.

Definition status_run (cs : list Condition) (os : list Observation) : list Condition :=
  foldl (λ cs o, (Evaluate (with_conditions cs o)).1) cs os.

Definition latched (reason msg : string) (cs : list Condition) : Prop :=
  ∃ c, findCondition cs TypeBootstrapComplete = Some c ∧ Status c = ConditionTrue ∧
    c_Reason c = reason ∧ c_Message c = msg.

(** BootstrapComplete latches: once a pass has written it True, every later
    pass over any sequence of observations (quorum loss, degradation, a bootstrap
    node added to the spec) writes it True again with the same reason and
    message. *)
Theorem bootstrap_latches cs os reason msg :
  latched reason msg cs → Forall (λ o, is_Some (o_CR o)) os → latched reason msg (status_run cs os).
Proof.
  intros Hl Hos. revert cs Hl. induction Hos as [|o os [v Hv] _ IH]; intros cs Hl; [done|].
  unfold status_run in *. simpl. apply IH. destruct Hl as (c & Hc & Hs & <- & <-).
  destruct (Evaluate_find (with_conditions cs o) 6 evalBootstrapComplete TypeBootstrapComplete
    eq_refl eq_refl) as (c' & Hc' & Hs' & Hr' & Hm').
  exists c'. rewrite Hs', Hr', Hm'. split; [done|].
  unfold evalBootstrapComplete, findPriorCondition. cbn [with_conditions o_CR]. rewrite Hv.
  cbn [fmap option_fmap option_map mbind option_bind Conditions].
  rewrite Hc, bool_decide_eq_true_2 by done. done.
Qed.

(** A healthy observation, for the witnesses. *)
Definition demo_cr : Valkey :=
  {| Generation := 4; SpecMode := ModeSentinel; Replicas := 3; BootstrapNode := true; Conditions := [] |}.
Definition demo_obs : Observation :=
  {| o_CR := Some demo_cr; STS := Some {| sts_Replicas := Some 3; ReadyReplicas := 3 |};
     ReconcileError := false; Paused := false; RolloutWatchdog := Watchdog.result_zero;
     SentinelQuorum := {| PrimaryPod := "v-0"; PrimaryConfirmed := true; QuorumLost := false;
                          ag_Quorum := QuorumStatusOK; FreshCount := 3; StaleCount := 0 |};
     SplitBrainActive := false; NoMasterAgreementActive := false; MasterLostActive := false;
     DualMasterActive := true; SentinelPeerLinkupStuckActive := false;
     QuorumSuppressionActive := true; GateEnabled := true; ReadyReplicaPeers := 2;
     SentinelTopologyMismatchActive := false; SentinelTopologySentinelDeficit := 0;
     SentinelTopologyReplicaDeficit := 0 |}.

Lemma bootstrap_latches_witness :
  latched "PromotedFromBootstrap" "done"
    (status_run [cond TypeBootstrapComplete ConditionTrue "PromotedFromBootstrap" "done"]
       [demo_obs; demo_obs]).
Proof.
  apply bootstrap_latches; [by eexists|]. repeat constructor; by eexists.
Defined.

Definition set_topology (b : bool) (sd rd : Z) (o : Observation) : Observation :=
  {| o_CR := o_CR o; STS := STS o; ReconcileError := ReconcileError o; Paused := Paused o;
     RolloutWatchdog := RolloutWatchdog o; SentinelQuorum := SentinelQuorum o;
     SplitBrainActive := SplitBrainActive o; NoMasterAgreementActive := NoMasterAgreementActive o;
     MasterLostActive := MasterLostActive o; DualMasterActive := DualMasterActive o;
     SentinelPeerLinkupStuckActive := SentinelPeerLinkupStuckActive o;
     QuorumSuppressionActive := QuorumSuppressionActive o; GateEnabled := GateEnabled o;
     ReadyReplicaPeers := ReadyReplicaPeers o; SentinelTopologyMismatchActive := b;
     SentinelTopologySentinelDeficit := sd; SentinelTopologyReplicaDeficit := rd |}.

(** The conditions of one pass are mutually consistent and topology is
    observability only: there is exactly one condition of each of the ten types,
    Ready implies Available and not Progressing, ReplicationHealthy is never
    Unknown, and a sentinel topology mismatch of any size changes the
    SentinelTopologyReconciled condition alone: neither another condition nor the
    phase. *)
Theorem conditions_consistent o b sd rd :
  Type_ <$> (Evaluate o).1 = condition_types ∧
  (statusOf (Evaluate o).1 TypeReady = ConditionTrue →
   statusOf (Evaluate o).1 TypeAvailable = ConditionTrue ∧
   statusOf (Evaluate o).1 TypeProgressing = ConditionFalse) ∧
  statusOf (Evaluate o).1 TypeReplicationHealthy ≠ ConditionUnknown ∧
  take 9 (Evaluate (set_topology b sd rd o)).1 = take 9 (Evaluate o).1 ∧
  (Evaluate (set_topology b sd rd o)).2 = (Evaluate o).2.
Proof.
  split_and!.
  - rewrite Evaluate_conds, <-(eval_types o), <-list_fmap_compose.
    apply list_fmap_ext. intros i e _. simpl. by destruct (o_CR o).
  - rewrite (Evaluate_status o 0 evalReady), (Evaluate_status o 1 evalAvailable),
      (Evaluate_status o 2 evalProgressing) by done.
    intros (_ & _ & _ & s & Es & Hs)%evalReady_true.
    unfold evalAvailable, evalProgressing. rewrite Es. cbv zeta.
    rewrite (proj2 (Z.leb_le _ _)), (proj2 (Z.ltb_ge _ _)) by lia. done.
  - rewrite (Evaluate_status o 5 evalReplicationHealthy) by done.
    unfold evalReplicationHealthy. cbv zeta. by repeat case_match.
  - unfold Evaluate. cbn [fst set_topology o_CR]. by destruct (o_CR o).
  - rewrite !Evaluate_phase. reflexivity.
Qed.

(** The rollout watchdog: arming for a pod sets a deadline between 60 and
    3600 seconds ahead whatever timeout is configured, re-arming for the same pod
    while a deadline is set changes nothing (so a crash loop cannot extend it),
    and from then on the check is active for that pod and expires exactly at the
    deadline; disarming clears it. *)
Theorem watchdog_arm_check now pod timeout existing :
  pod ≠ "" →
  let st := Watchdog.Arm now pod timeout existing in
  (∀ now' timeout', Watchdog.Arm now' pod timeout' (Some st) = st) ∧
  (∃ d, Watchdog.mars_Deadline st = Some d ∧
     (now + 60 * Second ≤ d ≤ now + 3600 * Second ∨ existing = Some st) ∧
     ∀ t, Watchdog.Check t (Some st) =
       {| Watchdog.Active := true; Watchdog.Expired := d <=? t; Watchdog.PodName := pod;
          Watchdog.Deadline := d |}) ∧
  (∀ t, Watchdog.Active (Watchdog.Check t (Some Watchdog.Disarm)) = false).
Proof.
  intros Hpod st.
  assert (Hst : Watchdog.WaitingForPod st = pod ∧ ∃ d, Watchdog.mars_Deadline st = Some d ∧
    (now + 60 * Second ≤ d ≤ now + 3600 * Second ∨ existing = Some st)).
  { unfold st, Watchdog.Arm. destruct existing as [e|].
    - case_bool_decide as E1; [case_bool_decide as E2; simpl|].
      + destruct E2 as [d Hd]. eauto.
      + split; [done|]. eexists. split; [done|]. left. unfold Add, Second. lia.
      + split; [done|]. eexists. split; [done|]. left. unfold Add, Second. lia.
    - split; [done|]. eexists. split; [done|]. left. unfold Add, Second. lia. }
  destruct Hst as (Hp & d & Hd & Hrange). split_and!.
  - intros now' timeout'. unfold Watchdog.Arm at 1.
    rewrite (bool_decide_eq_true_2 (Watchdog.WaitingForPod st = pod)) by done.
    by rewrite (bool_decide_eq_true_2 (is_Some _)) by (by rewrite Hd).
  - exists d. split_and!; [done..|]. intros t. unfold Watchdog.Check. rewrite Hd, Hp.
    rewrite bool_decide_eq_false_2 by done. unfold Before. by rewrite Z.leb_antisym.
  - done.
Qed.

Lemma watchdog_arm_check_witness :
  Watchdog.Check (60 * Second) (Some (Watchdog.Arm 0 "vk-1" 5 None)) =
    {| Watchdog.Active := true; Watchdog.Expired := true; Watchdog.PodName := "vk-1";
       Watchdog.Deadline := 60 * Second |}.
Proof.
  destruct (watchdog_arm_check 0 "vk-1" 5 None) as (_ & (d & Hd & _ & H) & _); [discriminate|].
  rewrite H. vm_compute in Hd. injection Hd as <-. reflexivity.
Defined.
