(* ===== verification/PvcResize.v ===== *)
(** * PVC resize: [internal/pvcresize/{detect,gating,transitions}.go] and its
    dispatcher [internal/controller/valkey_controller_pvcresize.go]

    The resize walks status.rollout.pvcResize through Validated, StsOrphaned,
    PVCsPatched, StsRecreated and Verified, deleting and re-creating the StatefulSet
    around a patch of the claims.  [cluster] is what the API server holds for the
    CR; [api] gives the error, if any, of each request of one reconcile.  One clock
    reading stands for the several a reconcile takes.

    [resource.Quantity] is not part of the repository; the model takes any type
    with its documented operations as the class [Quantity]. *)
From S2P Require Import Prelude GoStd GoFmt.
Local Open Scope Z_scope.

Class Quantity (Q : Type) := {
  amount : Q → Z;
  Cmp : Q → Q → comparison;
  q_IsZero : Q → bool;
  q_zero : Q;
  q_String : Q → string;
  Cmp_amount a b : Cmp a b = (amount a ?= amount b);
  q_IsZero_amount a : q_IsZero a = (amount a =? 0);
  q_zero_amount : amount q_zero = 0
}.

(** A concrete quantity, a number of bytes. *)
#[export] Instance bytes_quantity : Quantity Z :=
  {| amount q := q; Cmp := Z.compare; q_IsZero q := q =? 0; q_zero := 0; q_String := Itoa;
     Cmp_amount _ _ := eq_refl; q_IsZero_amount _ := eq_refl; q_zero_amount := eq_refl |}.

(** ** API errors *)
Inductive err_kind : Type := NotFound | Forbidden | Invalid | Conflict | OtherErr.
#[global] Instance err_kind_eq_dec : EqDecision err_kind.
Proof. solve_decision. Defined.
Record api_error := { e_kind : err_kind; e_text : string }.
Definition has_kind (k : err_kind) (e : api_error) : bool := bool_decide (e_kind e = k).

(** ** Gating ([gating.go]) *)
Definition StallThreshold : Duration := 10 * Minute.
Definition abortRetryBackoffs : list Duration := [1 * Minute; 5 * Minute; 15 * Minute; 1 * Hour].

Definition StallElapsed (lastTransition now : Time) : Duration :=
  if IsZero lastTransition then 0 else Sub now lastTransition.

Definition IsStalled (lastTransition now : Time) : bool :=
  StallThreshold <=? StallElapsed lastTransition now.

Definition BackoffForAttempt (attempt : Z) : Duration :=
  let idx := Z.max (attempt - 1) 0 in
  let idx := if len abortRetryBackoffs <=? idx then len abortRetryBackoffs - 1 else idx in
  default 0 (abortRetryBackoffs !! Z.to_nat idx).

Definition BackoffRemaining (lastTransition : Time) (attempt : Z) (now : Time) : Duration :=
  if IsZero lastTransition then 0
  else
    let wait := BackoffForAttempt attempt in
    let elapsed := Sub now lastTransition in
    if wait <=? elapsed then 0 else wait - elapsed.

Section resize.
Context {Q : Type} `{!Quantity Q}.

(** ** What the API server holds *)
Record PVC := { pvc_Name : string; pvc_Request : Q; pvc_Capacity : Q; pvc_Class : option string }.
Record VCT := { vct_Name : string; vct_Request : Q }.
Record STS := { sts_VCTs : list VCT; sts_SpecReplicas : option Z; sts_ReadyReplicas : Z }.

Record cluster := {
  cl_sts : option STS;
  cl_pvcs : list PVC;
  cl_classes : gmap string (option bool)   (* StorageClass name to allowVolumeExpansion *)
}.

Record api := {
  a_getSTS : option api_error;
  a_deleteSTS : option api_error;
  a_listPVCs : option api_error;
  a_patchPVC : string → option api_error;
  a_getClass : option api_error;
  a_statusPatch : string → option api_error   (* keyed by the phase written, or the field *)
}.

(** ** Detector ([detect.go]) *)
Inductive Outcome : Type :=
  | OutcomeNoChange | OutcomeShrinkRejected | OutcomeExpansionNotSupported | OutcomeResizeNeeded.

Record DetectResult := { d_Outcome : Outcome; d_Current : Q; d_Desired : Q }.

Fixpoint smallest (acc : Q) (pvcs : list PVC) : Q :=
  match pvcs with
  | [] => acc
  | p :: pvcs => smallest (if Cmp (pvc_Request p) acc is Lt then pvc_Request p else acc) pvcs
  end.

Definition smallestCurrentSize (pvcs : list PVC) : Q :=
  match pvcs with [] => q_zero | p :: pvcs => smallest (pvc_Request p) pvcs end.

(** [allow] is the StorageClass's flag: [None] when there is no class or it
    leaves the flag unset. *)
Definition Detect (desired : Q) (pvcs : list PVC) (allow : option bool) : DetectResult :=
  if q_IsZero desired || (len pvcs =? 0) then
    {| d_Outcome := OutcomeNoChange; d_Current := q_zero; d_Desired := q_zero |}
  else
    let current := smallestCurrentSize pvcs in
    let mk o := {| d_Outcome := o; d_Current := current; d_Desired := desired |} in
    match Cmp desired current with
    | Eq => mk OutcomeNoChange
    | Lt => mk OutcomeShrinkRejected
    | Gt => match allow with
            | Some true => mk OutcomeResizeNeeded
            | _ => mk OutcomeExpansionNotSupported
            end
    end.

(** ** Transitions ([transitions.go]) *)
Inductive Action : Type := ActionRequeue | ActionAdvance | ActionAbort | ActionComplete.

Record TransitionResult := {
  tr_Action : Action;
  NextPhase : string;
  tr_Reason : string;
  tr_Message : string;
  RequeueAfter : Duration;
  EventReason : string;
  EventMessage : string;
  EventWarning : bool
}.

Definition tr_plain (a : Action) (next msg : string) (after : Duration) : TransitionResult :=
  {| tr_Action := a; NextPhase := next; tr_Reason := ""; tr_Message := msg; RequeueAfter := after;
     EventReason := ""; EventMessage := ""; EventWarning := false |}.

(** The waits of [pvcResizeRequeueDefaults]. *)
Definition StsRequeueWait : Duration := 2 * Second.
Definition PvcRequeueWait : Duration := 5 * Second.
Definition PollInterval : Duration := 5 * Second.
Definition StsApplyWait : Duration := 1 * Second.

Definition not_found : api_error := {| e_kind := NotFound; e_text := "not found" |}.

Definition get_sts (a : api) (w : cluster) : STS + api_error :=
  match a_getSTS a with
  | Some e => inr e
  | None => match cl_sts w with Some s => inl s | None => inr not_found end
  end.

Definition set_sts (s : option STS) (w : cluster) : cluster :=
  {| cl_sts := s; cl_pvcs := cl_pvcs w; cl_classes := cl_classes w |}.
Definition set_pvcs (l : list PVC) (w : cluster) : cluster :=
  {| cl_sts := cl_sts w; cl_pvcs := l; cl_classes := cl_classes w |}.

Definition FromValidated (a : api) (w : cluster) : cluster * TransitionResult :=
  match get_sts a w with
  | inr e =>
      if has_kind NotFound e then
        (w, tr_plain ActionAdvance "StsOrphaned" "STS already absent; fast-forwarding to StsOrphaned" StsRequeueWait)
      else (w, tr_plain ActionRequeue "" ("read STS for orphan-delete: " +:+ e_text e) StsRequeueWait)
  | inl _ =>
      match a_deleteSTS a with
      | Some e =>
          if has_kind NotFound e then
            (set_sts None w, tr_plain ActionAdvance "StsOrphaned" "STS deleted by a concurrent actor" StsRequeueWait)
          else (w, tr_plain ActionRequeue "" ("orphan-delete STS: " +:+ e_text e) StsRequeueWait)
      | None =>
          (set_sts None w, tr_plain ActionAdvance "StsOrphaned"
             "StatefulSet orphan-deleted; PVCs preserved for resize" StsRequeueWait)
      end
  end.

Definition with_request (q : Q) (p : PVC) : PVC :=
  {| pvc_Name := pvc_Name p; pvc_Request := q; pvc_Capacity := pvc_Capacity p; pvc_Class := pvc_Class p |}.

Definition at_least (desired q : Q) : bool := match Cmp q desired with Lt => false | _ => true end.

(** The patch loop: the claims as the loop leaves them, and the early return if
    it takes one.  A claim whose patch answers NotFound is skipped. *)
Fixpoint patch_loop (a : api) (desired : Q) (pvcs : list PVC) : list PVC * option TransitionResult :=
  match pvcs with
  | [] => ([], None)
  | p :: rest =>
      if at_least desired (pvc_Request p) then
        let '(rest', r) := patch_loop a desired rest in (p :: rest', r)
      else match a_patchPVC a (pvc_Name p) with
      | None =>
          let '(rest', r) := patch_loop a desired rest in (with_request desired p :: rest', r)
      | Some e =>
          if has_kind NotFound e then
            let '(rest', r) := patch_loop a desired rest in (p :: rest', r)
          else if has_kind Forbidden e || has_kind Invalid e then
            (p :: rest,
             Some {| tr_Action := ActionAbort; NextPhase := ""; tr_Reason := "PVCExpansionFailed";
                     tr_Message := "PVC " +:+ Quote (pvc_Name p) +:+ " rejected resize patch: " +:+ e_text e;
                     RequeueAfter := 0; EventReason := "PVCExpansionFailed";
                     EventMessage := "PVC " +:+ Quote (pvc_Name p) +:+ " rejected the resize patch (" +:+
                       e_text e +:+ "); CSI driver may not support online expansion despite the StorageClass advertising it";
                     EventWarning := true |})
          else (p :: rest,
                Some (tr_plain ActionRequeue "" ("patching PVC " +:+ Quote (pvc_Name p) +:+ ": " +:+ e_text e)
                        PvcRequeueWait))
      end
  end.

Definition FromStsOrphaned (a : api) (desired : Q) (w : cluster) : cluster * TransitionResult :=
  match get_sts a w with
  | inl _ => (w, tr_plain ActionRequeue "" "waiting for orphan-deleted STS to clear cache" StsRequeueWait)
  | inr e =>
      if negb (has_kind NotFound e) then
        (w, tr_plain ActionRequeue "" ("read STS while waiting for clearance: " +:+ e_text e) StsRequeueWait)
      else match a_listPVCs a with
      | Some e => (w, tr_plain ActionRequeue "" ("listing PVCs for resize-patch: " +:+ e_text e) PvcRequeueWait)
      | None =>
          let '(pvcs', early) := patch_loop a desired (cl_pvcs w) in
          (set_pvcs pvcs' w,
           match early with
           | Some r => r
           | None => tr_plain ActionAdvance "PVCsPatched"
                       ("all PVCs patched to requested size " +:+ q_String desired) PollInterval
           end)
      end
  end.

Definition FromPVCsPatched (a : api) (desired : Q) (w : cluster) : cluster * TransitionResult :=
  (w,
   match a_listPVCs a with
   | Some e => tr_plain ActionRequeue "" ("listing PVCs while polling capacity: " +:+ e_text e) PollInterval
   | None =>
       if len (cl_pvcs w) =? 0 then
         {| tr_Action := ActionAbort; NextPhase := ""; tr_Reason := "PVCMissing";
            tr_Message := "no PVCs found while polling for capacity expansion; resize cannot proceed";
            RequeueAfter := 0; EventReason := "PVCMissing";
            EventMessage := "PVCs labelled for this Valkey CR are no longer present; aborting the resize substate machine. Re-create or restore the PVCs to retry.";
            EventWarning := true |}
       else match List.find (λ p, negb (at_least desired (pvc_Capacity p))) (cl_pvcs w) with
       | Some p => tr_plain ActionRequeue ""
           ("PVC " +:+ Quote (pvc_Name p) +:+ " status.capacity " +:+ q_String (pvc_Capacity p) +:+
            " < desired " +:+ q_String desired +:+ "; CSI expansion in flight") PollInterval
       | None => tr_plain ActionAdvance "StsRecreated"
           ("all PVCs report capacity ≥ " +:+ q_String desired +:+ "; ready for STS recreate") StsApplyWait
       end
   end).

Definition FromStsRecreated (a : api) (desired : Q) (w : cluster) : cluster * TransitionResult :=
  (w,
   match get_sts a w with
   | inr e =>
       if has_kind NotFound e then tr_plain ActionRequeue "" "awaiting Phase 2 STS recreation" StsApplyWait
       else tr_plain ActionRequeue "" ("read STS for recreate-check: " +:+ e_text e) StsApplyWait
   | inl s =>
       match List.find (λ v, negb (at_least desired (vct_Request v))) (sts_VCTs s) with
       | Some v => tr_plain ActionRequeue ""
           ("STS volumeClaimTemplate " +:+ Quote (vct_Name v) +:+ " has size " +:+ q_String (vct_Request v) +:+
            " < desired " +:+ q_String desired +:+ "; awaiting Phase 2 re-apply") StsApplyWait
       | None => tr_plain ActionAdvance "Verified"
           "StatefulSet recreated at the new size; awaiting pod readiness" PollInterval
       end
   end).

Definition FromVerified (a : api) (desired : Q) (w : cluster) : cluster * TransitionResult :=
  (w,
   match get_sts a w with
   | inr e => tr_plain ActionRequeue "" ("read STS for ready-check: " +:+ e_text e) PollInterval
   | inl s =>
       let want := default 0 (sts_SpecReplicas s) in
       if sts_ReadyReplicas s <? want then
         tr_plain ActionRequeue "" ("readyReplicas " +:+ Itoa (sts_ReadyReplicas s) +:+ " < spec.replicas " +:+ Itoa want)
           PollInterval
       else {| tr_Action := ActionComplete; NextPhase := ""; tr_Reason := "";
               tr_Message := "PVC resize complete; all pods Ready at the new size"; RequeueAfter := 0;
               EventReason := "PVCResizeComplete";
               EventMessage := "PVC resize complete; STS reattached to PVCs at capacity " +:+ q_String desired;
               EventWarning := false |}
   end).

(** ** Dispatcher ([valkey_controller_pvcresize.go]) *)
Record PVCResizeStatus := {
  Phase : string;
  Attempt : Z;
  StartedAt : option Time;
  LastTransitionAt : option Time;
  LastStuckEventAt : option Time;
  Message : string
}.

(** The CR's resize status, the cluster, the events recorded (newest last) and
    the in-progress gauge. *)
Record rstate := {
  r_status : option PVCResizeStatus;
  r_cluster : cluster;
  r_events : list string;
  r_gauge : bool
}.

Definition set_status (s : option PVCResizeStatus) (r : rstate) : rstate :=
  {| r_status := s; r_cluster := r_cluster r; r_events := r_events r; r_gauge := r_gauge r |}.
Definition set_cluster (w : cluster) (r : rstate) : rstate :=
  {| r_status := r_status r; r_cluster := w; r_events := r_events r; r_gauge := r_gauge r |}.
Definition record_event (e : string) (r : rstate) : rstate :=
  {| r_status := r_status r; r_cluster := r_cluster r; r_events := r_events r ++ [e]; r_gauge := r_gauge r |}.
Definition set_gauge (b : bool) (r : rstate) : rstate :=
  {| r_status := r_status r; r_cluster := r_cluster r; r_events := r_events r; r_gauge := b |}.

Definition currentPVCResizePhase (r : rstate) : string :=
  match r_status r with Some st => Phase st | None => "" end.

Definition isPVCResizeInFlight (phase : string) : bool :=
  bool_decide (phase ∈ ["Validated"; "StsOrphaned"; "PVCsPatched"; "StsRecreated"; "Verified"]).

Definition isPVCResizeGuardingPhase2 (phase : string) : bool :=
  bool_decide (phase ∈ ["Validated"; "StsOrphaned"; "PVCsPatched"]).

Definition wrap32 (z : Z) : Z := (z + 2 ^ 31) mod 2 ^ 32 - 2 ^ 31.

(** [None] is success (a lost conflict included, which leaves the view as it was). *)
Definition writePVCResizeStatus (a : api) (now : Time) (phase message : string) (r : rstate) :
    rstate * option string :=
  if bool_decide (currentPVCResizePhase r = phase) then (r, None)
  else
    let next :=
      match r_status r with
      | Some prior =>
          match StartedAt prior with
          | Some t =>
              {| Phase := phase;
                 Attempt := if bool_decide (phase = "Validated") && negb (bool_decide (Phase prior = phase))
                            then wrap32 (Attempt prior + 1) else Attempt prior;
                 StartedAt := Some t; LastTransitionAt := Some now; LastStuckEventAt := None;
                 Message := message |}
          | None => {| Phase := phase; Attempt := 1; StartedAt := Some now; LastTransitionAt := Some now;
                       LastStuckEventAt := None; Message := message |}
          end
      | None => {| Phase := phase; Attempt := 1; StartedAt := Some now; LastTransitionAt := Some now;
                   LastStuckEventAt := None; Message := message |}
      end in
    match a_statusPatch a phase with
    | None => (set_status (Some next) r, None)
    | Some e => if has_kind Conflict e then (r, None) else (r, Some (e_text e))
    end.

Definition clearPVCResizeStatus (a : api) (r : rstate) : rstate * option string :=
  let r := set_gauge false r in
  match r_status r with
  | None => (r, None)
  | Some _ =>
      match a_statusPatch a "" with
      | None => (set_status None r, None)
      | Some e => if has_kind Conflict e then (r, None) else (r, Some (e_text e))
      end
  end.

Definition pvcResizeIsStalled (now : Time) (r : rstate) : bool :=
  match r_status r with
  | None => false
  | Some st =>
      if negb (isPVCResizeInFlight (Phase st)) then false
      else match LastTransitionAt st with None => false | Some t => IsStalled t now end
  end.

Definition pvcResizeAbortedWaitRemaining (now : Time) (r : rstate) : Duration :=
  match r_status r with
  | None => 0
  | Some st =>
      match LastTransitionAt st with None => 0 | Some t => BackoffRemaining t (Attempt st) now end
  end.

Definition pvcResizeStallRequeue : Duration := 1 * Minute.

Definition stuck_event : string := "PVCExpansionStuck".

(** Called only when the substate is stalled, so the status and its transition
    time are set; without them the code would panic. *)
Definition maybeEmitPVCStuckEvent (a : api) (now : Time) (r : rstate) : rstate * option string :=
  match r_status r with
  | None => (r, None)
  | Some st =>
      let emitted :=
        match LastStuckEventAt st, LastTransitionAt st with
        | Some e, Some t => negb (Before e t)
        | _, _ => false
        end in
      if emitted then (r, None)
      else match a_statusPatch a "lastStuckEventAt" with
      | Some e => if has_kind Conflict e then (r, None) else (r, Some (e_text e))
      | None =>
          (record_event stuck_event
             (set_status (Some {| Phase := Phase st; Attempt := Attempt st; StartedAt := StartedAt st;
                                  LastTransitionAt := LastTransitionAt st; LastStuckEventAt := Some now;
                                  Message := Message st |}) r), None)
      end
  end.

Definition transition_of (a : api) (current : string) (desired : Q) (w : cluster) :
    option (cluster * TransitionResult) :=
  if bool_decide (current = "Validated") then Some (FromValidated a w)
  else if bool_decide (current = "StsOrphaned") then Some (FromStsOrphaned a desired w)
  else if bool_decide (current = "PVCsPatched") then Some (FromPVCsPatched a desired w)
  else if bool_decide (current = "StsRecreated") then Some (FromStsRecreated a desired w)
  else if bool_decide (current = "Verified") then Some (FromVerified a desired w)
  else None.

(** The requeue hint and the error. *)
Definition outcome : Type := Duration * option string.

Definition drivePVCResize (a : api) (now : Time) (current : string) (desired : Q) (r : rstate) :
    rstate * outcome :=
  match transition_of a current desired (r_cluster r) with
  | None => (r, (0, None))
  | Some (w, res) =>
      let r := set_cluster w r in
      let r := if bool_decide (EventReason res = "") then r else record_event (EventReason res) r in
      match tr_Action res with
      | ActionAdvance =>
          match writePVCResizeStatus a now (NextPhase res) (tr_Message res) r with
          | (r, None) => (r, (RequeueAfter res, None))
          | (r, Some e) => (r, (0, Some ("advancing pvcResize substate to " +:+ NextPhase res +:+ ": " +:+ e)))
          end
      | ActionRequeue => (r, (RequeueAfter res, None))
      | ActionAbort =>
          match writePVCResizeStatus a now "Aborted" (tr_Message res) r with
          | (r, None) => (r, (0, Some ("PVC resize aborted: " +:+ tr_Message res)))
          | (r, Some e) => (r, (0, Some ("aborting pvcResize substate: " +:+ e)))
          end
      | ActionComplete =>
          match clearPVCResizeStatus a r with
          | (r, None) => (r, (0, None))
          | (r, Some e) => (r, (0, Some ("clearing pvcResize status on complete: " +:+ e)))
          end
      end
  end.

(** The class named by the first claim: [inr] on a read error, and the name with
    the flag when it is found. *)
Definition lookupStorageClassForPVCs (a : api) (w : cluster) (pvcs : list PVC) :
    option (string * option bool) + api_error :=
  match pvcs with
  | [] => inl None
  | p :: _ =>
      let scName := default "" (pvc_Class p) in
      if bool_decide (scName = "") then inl None
      else match a_getClass a with
      | Some e => if has_kind NotFound e then inl None else inr e
      | None => match cl_classes w !! scName with
                | Some allow => inl (Some (scName, allow))
                | None => inl None
                end
      end
  end.

(** A rejected detection: Aborted is written, a warning recorded, an error
    returned. *)
Definition reject (a : api) (now : Time) (msg event wrap errPrefix : string) (r : rstate) :
    rstate * outcome :=
  match writePVCResizeStatus a now "Aborted" msg r with
  | (r, Some e) => (r, (0, Some (wrap +:+ e)))
  | (r, None) => (set_gauge false (record_event event r), (0, Some (errPrefix +:+ msg)))
  end.

(** [persistence] is spec.valkey.persistence.size when persistence is set. *)
Definition reconcilePVCResize (a : api) (now : Time) (persistence : option Q) (r : rstate) :
    rstate * outcome :=
  match persistence with
  | None => let '(r, e) := clearPVCResizeStatus a r in (r, (0, e))
  | Some size =>
      match a_listPVCs a with
      | Some e => (r, (0, Some ("listing PVCs for resize detect: " +:+ e_text e)))
      | None =>
          let pvcs := cl_pvcs (r_cluster r) in
          match lookupStorageClassForPVCs a (r_cluster r) pvcs with
          | inr e => (r, (0, Some ("looking up storage class: " +:+ e_text e)))
          | inl sc =>
              let res := Detect size pvcs (sc ≫= snd) in
              let current := currentPVCResizePhase r in
              match d_Outcome res with
              | OutcomeNoChange =>
                  if negb (bool_decide (current = "")) then drivePVCResize a now current size r
                  else let '(r, e) := clearPVCResizeStatus a r in (r, (0, e))
              | OutcomeShrinkRejected =>
                  reject a now
                    ("spec.valkey.persistence.size=" +:+ q_String (d_Desired res) +:+
                     " is smaller than current PVC capacity " +:+ q_String (d_Current res) +:+
                     "; shrinking not supported")
                    "PVCExpansionShrinkRejected" "writing shrink-rejected status: " "PVC shrink rejected: " r
              | OutcomeExpansionNotSupported =>
                  let scName := match sc with Some (n, _) => n | None => "<unset>" end in
                  reject a now
                    ("StorageClass " +:+ Quote scName +:+
                     " does not allow volume expansion; cannot grow PVCs from " +:+ q_String (d_Current res) +:+
                     " to " +:+ q_String (d_Desired res))
                    "PVCExpansionNotSupported" "writing expansion-not-supported status: "
                    "PVC expansion not supported: " r
              | OutcomeResizeNeeded =>
                  let wait := if bool_decide (current = "Aborted")
                              then pvcResizeAbortedWaitRemaining now r else 0 in
                  if 0 <? wait then (r, (wait, None))
                  else
                    let initiated :=
                      if isPVCResizeInFlight current then inl (r, current)
                      else
                        match writePVCResizeStatus a now "Validated"
                                ("PVC resize initiated: growing from " +:+ q_String (d_Current res) +:+
                                 " to " +:+ q_String (d_Desired res)) r with
                        | (r, None) => inl (record_event "PVCResizeInitiated" r, "Validated")
                        | (r, Some e) => inr (r, (0, Some ("writing resize-initiated status: " +:+ e)))
                        end in
                    match initiated with
                    | inr out => out
                    | inl (r, current) =>
                        if pvcResizeIsStalled now r then
                          match maybeEmitPVCStuckEvent a now r with
                          | (r, Some e) => (r, (0, Some ("recording stuck-event timestamp: " +:+ e)))
                          | (r, None) => (set_gauge true r, (pvcResizeStallRequeue, None))
                          end
                        else drivePVCResize a now current (d_Desired res) (set_gauge true r)
                    end
              end
          end
      end
  end.
End resize.

(** ** Lemmas *)
Section facts.
Context {Q : Type} `{!Quantity Q}.
Implicit Types (a : api) (w : cluster (Q := Q)) (r : rstate (Q := Q)) (desired size : Q).

Lemma at_least_spec desired q : at_least desired q = true ↔ amount desired ≤ amount q.
Proof.
  unfold at_least. rewrite Cmp_amount. destruct (Z.compare_spec (amount q) (amount desired)); split; lia || done.
Qed.

Lemma find_none_at_least {A} (f : A → Q) desired (l : list A) :
  List.find (λ x, negb (at_least desired (f x))) l = None → ∀ x, x ∈ l → amount desired ≤ amount (f x).
Proof.
  intros Hf x Hx%list_elem_of_In. pose proof (List.find_none _ _ Hf x Hx) as H.
  by apply at_least_spec, negb_false_iff.
Qed.

Definition same_claim (p p' : PVC (Q := Q)) : Prop :=
  pvc_Name p' = pvc_Name p ∧ pvc_Capacity p' = pvc_Capacity p ∧ pvc_Class p' = pvc_Class p ∧
  amount (pvc_Request p) ≤ amount (pvc_Request p').

Lemma same_claim_refl p : same_claim p p.
Proof. unfold same_claim. auto with lia. Qed.

Lemma same_claims_refl l : Forall2 same_claim l l.
Proof. induction l; constructor; auto using same_claim_refl. Qed.

Lemma patch_loop_spec a desired pvcs pvcs' early :
  patch_loop a desired pvcs = (pvcs', early) →
  Forall2 same_claim pvcs pvcs' ∧
  (early = None → ∀ p', p' ∈ pvcs' → amount desired ≤ amount (pvc_Request p') ∨
     ∃ e, a_patchPVC a (pvc_Name p') = Some e ∧ has_kind NotFound e = true) ∧
  (∀ res, early = Some res → tr_Action res = ActionAbort ∨ tr_Action res = ActionRequeue).
Proof.
  revert pvcs' early. induction pvcs as [|p pvcs IH]; intros pvcs' early; simpl.
  { intros [= <- <-]. split_and!; [constructor| |done]. intros _ p' H. by apply not_elem_of_nil in H. }
  destruct (patch_loop a desired pvcs) as [rest er] eqn:E. destruct (IH _ _ eq_refl) as (H1 & H2 & H3).
  destruct (at_least desired (pvc_Request p)) eqn:Ea.
  { intros [= <- <-]. split_and!; [by constructor; [apply same_claim_refl|]| |done].
    intros He p' [->|Hp']%elem_of_cons; [left; by apply at_least_spec|by auto]. }
  assert (amount (pvc_Request p) ≤ amount desired) as Hlt.
  { destruct (at_least_spec desired (pvc_Request p)) as [_ H]. apply Z.lt_le_incl, Z.nle_gt. intros Hle.
    by rewrite (H Hle) in Ea. }
  destruct (a_patchPVC a (pvc_Name p)) as [e|] eqn:Ep.
  - destruct (has_kind NotFound e) eqn:En.
    { intros [= <- <-]. split_and!; [by constructor; [apply same_claim_refl|]| |done].
      intros He p' [->|Hp']%elem_of_cons; [right; eauto|by auto]. }
    destruct (has_kind Forbidden e || has_kind Invalid e); intros [= <- <-];
      (split_and!; [constructor; [apply same_claim_refl|apply same_claims_refl]|done|]);
      intros res [= <-]; auto.
  - intros [= <- <-]. split_and!; [|by intros He p' [->|Hp']%elem_of_cons; [left; simpl; lia|auto]|done].
    constructor; [|done]. unfold same_claim. simpl. auto.
Qed.

(** What a transition may do to the cluster, and what an advance proves about it. *)
Definition gate a desired (w : cluster (Q := Q)) (next : string) : Prop :=
  (next = "StsOrphaned" → cl_sts w = None) ∧
  (next = "PVCsPatched" → cl_sts w = None ∧ ∀ p, p ∈ cl_pvcs w → amount desired ≤ amount (pvc_Request p) ∨
     ∃ e, a_patchPVC a (pvc_Name p) = Some e ∧ has_kind NotFound e = true) ∧
  (next = "StsRecreated" → cl_pvcs w ≠ [] ∧ ∀ p, p ∈ cl_pvcs w → amount desired ≤ amount (pvc_Capacity p)) ∧
  (next = "Verified" → ∃ s, cl_sts w = Some s ∧ ∀ v, v ∈ sts_VCTs s → amount desired ≤ amount (vct_Request v)).

(** The API server never reports NotFound for a StatefulSet it holds. *)
Definition honest a w : Prop := ∀ e, a_getSTS a = Some e → has_kind NotFound e = true → cl_sts w = None.

Lemma get_sts_absent a w e : honest a w → get_sts a w = inr e → has_kind NotFound e = true → cl_sts w = None.
Proof. unfold get_sts. intros Hh. destruct (a_getSTS a) eqn:E; [intros [= ->]; eauto|]. by destruct (cl_sts w). Qed.

Lemma get_sts_present a w s : get_sts a w = inl s → cl_sts w = Some s.
Proof. unfold get_sts. destruct (a_getSTS a); [done|]. destruct (cl_sts w); [by intros [= ->]|done]. Qed.

(** The phase after each phase of a resize; [""] if there is none. *)
Definition next_of (current : string) : string :=
  if bool_decide (current = "Validated") then "StsOrphaned"
  else if bool_decide (current = "StsOrphaned") then "PVCsPatched"
  else if bool_decide (current = "PVCsPatched") then "StsRecreated"
  else if bool_decide (current = "StsRecreated") then "Verified"
  else "".

Lemma transition_spec a current desired w w' res :
  honest a w → transition_of a current desired w = Some (w', res) →
  Forall2 same_claim (cl_pvcs w) (cl_pvcs w') ∧
  (tr_Action res = ActionAdvance → NextPhase res = next_of current ∧ next_of current ≠ "" ∧
     gate a desired w' (NextPhase res)) ∧
  (tr_Action res = ActionComplete → current = "Verified" ∧ ∃ s, cl_sts w' = Some s ∧
     default 0 (sts_SpecReplicas s) ≤ sts_ReadyReplicas s) ∧
  (cl_sts w' ≠ cl_sts w → current = "Validated" ∧ cl_sts w' = None) ∧
  (cl_pvcs w' ≠ cl_pvcs w → current = "StsOrphaned" ∧ cl_sts w = None).
Proof.
  intros Hh. unfold transition_of, next_of, gate.
  repeat case_bool_decide; simplify_eq; intros Ht; try discriminate Ht; apply (inj Some) in Ht.
  - revert Ht. unfold FromValidated. destruct (get_sts a w) as [s|e] eqn:E.
    + destruct (a_deleteSTS a) as [e|]; [destruct (has_kind NotFound e)|]; intros [= <- <-]; simpl;
        split_and!; intros; auto using same_claims_refl; try done; split_and!; done.
    + destruct (has_kind NotFound e) eqn:En; intros [= <- <-]; simpl.
      * pose proof (get_sts_absent a w e Hh E En).
        split_and!; intros; auto using same_claims_refl; try done; split_and!; done.
      * split_and!; intros; auto using same_claims_refl; done.
  - revert Ht. unfold FromStsOrphaned. destruct (get_sts a w) as [s|e] eqn:E.
    { intros [= <- <-]. split_and!; intros; auto using same_claims_refl; done. }
    destruct (has_kind NotFound e) eqn:En; simpl.
    2:{ intros [= <- <-]. split_and!; intros; auto using same_claims_refl; done. }
    pose proof (get_sts_absent a w e Hh E En) as Habs.
    destruct (a_listPVCs a); [intros [= <- <-]; split_and!; intros; auto using same_claims_refl; done|].
    destruct (patch_loop a desired (cl_pvcs w)) as [pvcs' early] eqn:Ep.
    destruct (patch_loop_spec _ _ _ _ _ Ep) as (H1 & H2 & H3).
    intros [= <- <-]. simpl. split_and!; try done.
    + destruct early as [res0|]; [destruct (H3 res0 eq_refl) as [-> | ->]; done|].
      intros _. split_and!; try done. intros _. split; [done|]. by apply H2.
    + destruct early as [res0|]; [destruct (H3 res0 eq_refl) as [-> | ->]; done|done].
  - revert Ht. unfold FromPVCsPatched. destruct (a_listPVCs a);
      [intros [= <- <-]; split_and!; intros; auto using same_claims_refl; done|].
    destruct (Z.eqb_spec (len (cl_pvcs w)) 0) as [|Hne];
      [intros [= <- <-]; split_and!; intros; auto using same_claims_refl; done|].
    destruct (List.find _ _) eqn:Ef; intros [= <- <-];
      [split_and!; intros; auto using same_claims_refl; done|].
    split_and!; simpl; intros; auto using same_claims_refl; try done. split_and!; try done.
    intros _. split; [by intros E0; rewrite E0 in Hne|]. by apply (find_none_at_least pvc_Capacity).
  - revert Ht. unfold FromStsRecreated. destruct (get_sts a w) as [s|e] eqn:E.
    2:{ destruct (has_kind NotFound e); intros [= <- <-]; split_and!; intros; auto using same_claims_refl; done. }
    destruct (List.find _ _) eqn:Ef; intros [= <- <-];
      [split_and!; intros; auto using same_claims_refl; done|].
    split_and!; simpl; intros; auto using same_claims_refl; try done. split_and!; try done.
    intros _. exists s. split; [by eapply get_sts_present|]. by apply (find_none_at_least vct_Request).
  - revert Ht. unfold FromVerified. destruct (get_sts a w) as [s|e] eqn:E.
    2:{ intros [= <- <-]. split_and!; intros; auto using same_claims_refl; done. }
    cbv zeta. destruct (Z.ltb_spec (sts_ReadyReplicas s) (default 0 (sts_SpecReplicas s))); intros [= <- <-];
      [split_and!; intros; auto using same_claims_refl; done|].
    split_and!; simpl; intros; auto using same_claims_refl; try done.
    split; [done|]. exists s. split; [by eapply get_sts_present|done].
Qed.

Lemma write_spec a now phase msg r r' e :
  writePVCResizeStatus a now phase msg r = (r', e) →
  r_cluster r' = r_cluster r ∧ r_events r' = r_events r ∧
  (currentPVCResizePhase r' = currentPVCResizePhase r ∨ currentPVCResizePhase r' = phase).
Proof.
  unfold writePVCResizeStatus. case_bool_decide; [intros [= <- <-]; auto|]. cbv zeta.
  destruct (a_statusPatch a phase) as [er|]; [destruct (has_kind Conflict er)|];
    intros [= <- <-]; auto. split_and!; [done..|right].
  unfold currentPVCResizePhase. simpl. destruct (r_status r) as [st|]; [destruct (StartedAt st)|]; done.
Qed.

Lemma clear_spec a r r' e :
  clearPVCResizeStatus a r = (r', e) →
  r_cluster r' = r_cluster r ∧ r_events r' = r_events r ∧
  (currentPVCResizePhase r' = currentPVCResizePhase r ∨ currentPVCResizePhase r' = "").
Proof.
  unfold clearPVCResizeStatus. cbn [r_status set_gauge]. unfold currentPVCResizePhase.
  destruct (r_status r) eqn:E; [|intros [= <- <-]; simpl; rewrite E; auto].
  destruct (a_statusPatch a "") as [er|]; [destruct (has_kind Conflict er)|];
    intros [= <- <-]; simpl; rewrite ?E; auto.
Qed.

Definition ready_sts (w : cluster (Q := Q)) : Prop :=
  ∃ s, cl_sts w = Some s ∧ default 0 (sts_SpecReplicas s) ≤ sts_ReadyReplicas s.

Lemma drive_spec a now current desired r r' out :
  honest a (r_cluster r) → drivePVCResize a now current desired r = (r', out) →
  Forall2 same_claim (cl_pvcs (r_cluster r)) (cl_pvcs (r_cluster r')) ∧
  (cl_sts (r_cluster r') ≠ cl_sts (r_cluster r) → current = "Validated" ∧ cl_sts (r_cluster r') = None) ∧
  (cl_pvcs (r_cluster r') ≠ cl_pvcs (r_cluster r) → current = "StsOrphaned" ∧ cl_sts (r_cluster r) = None) ∧
  let p := currentPVCResizePhase r in let p' := currentPVCResizePhase r' in
  (p' = p ∨ p' = "Aborted" ∨
   (next_of current ≠ "" ∧ p' = next_of current ∧ gate a desired (r_cluster r') p') ∨
   (current = "Verified" ∧ p' = "" ∧ ready_sts (r_cluster r'))).
Proof.
  intros Hh. unfold drivePVCResize.
  destruct (transition_of a current desired (r_cluster r)) as [[w res]|] eqn:Et.
  2:{ intros [= <- <-]. split_and!; [apply same_claims_refl|done|done|by left]. }
  destruct (transition_spec _ _ _ _ _ _ Hh Et) as (H1 & H2 & H3 & H4 & H5). cbv zeta.
  set (r1 := if bool_decide (EventReason res = "") then _ else _).
  assert (r_cluster r1 = w ∧ currentPVCResizePhase r1 = currentPVCResizePhase r) as [Hw Hp].
  { unfold r1. by case_bool_decide. }
  destruct (tr_Action res) eqn:Ea.
  - intros [= <- <-]. rewrite Hw, Hp. auto 10.
  - destruct (writePVCResizeStatus _ _ _ _ _) as [r2 e] eqn:Ew.
    destruct (write_spec _ _ _ _ _ _ _ Ew) as (Hw2 & _ & Hp2). destruct (H2 eq_refl) as (Hn & Hv & Hg).
    destruct e; intros [= <- <-]; rewrite Hw2, Hw; (split_and!; [done..|]);
      (destruct Hp2 as [-> | ->]; [left; done|]); right; right; left; rewrite <-Hn in *; done.
  - destruct (writePVCResizeStatus _ _ _ _ _) as [r2 e] eqn:Ew.
    destruct (write_spec _ _ _ _ _ _ _ Ew) as (Hw2 & _ & Hp2).
    destruct e; intros [= <- <-]; rewrite Hw2, Hw; (split_and!; [done..|]);
      (destruct Hp2 as [-> | ->]; [left; done|by right; left]).
  - destruct (clearPVCResizeStatus _ _) as [r2 e] eqn:Ew.
    destruct (clear_spec _ _ _ _ Ew) as (Hw2 & _ & Hp2). destruct (H3 eq_refl) as (Hc & Hr).
    destruct e; intros [= <- <-]; rewrite Hw2, Hw; (split_and!; [done..|]);
      (destruct Hp2 as [-> | ->]; [left; done|]); right; right; right; done.
Qed.

Lemma reject_spec a now msg ev wr pre r r' out :
  reject a now msg ev wr pre r = (r', out) →
  r_cluster r' = r_cluster r ∧
  (currentPVCResizePhase r' = currentPVCResizePhase r ∨ currentPVCResizePhase r' = "Aborted").
Proof.
  unfold reject. destruct (writePVCResizeStatus _ _ _ _ _) as [r2 e] eqn:Ew.
  destruct (write_spec _ _ _ _ _ _ _ Ew) as (Hw2 & _ & Hp2). by destruct e; intros [= <- <-].
Qed.

Lemma stuck_spec a now r r' e :
  maybeEmitPVCStuckEvent a now r = (r', e) →
  r_cluster r' = r_cluster r ∧ currentPVCResizePhase r' = currentPVCResizePhase r.
Proof.
  unfold maybeEmitPVCStuckEvent. unfold currentPVCResizePhase.
  destruct (r_status r) as [st|] eqn:E; [|intros [= <- <-]; by rewrite E]. cbv zeta.
  destruct (match LastStuckEventAt st with Some _ => _ | None => _ end); [intros [= <- <-]; by rewrite E|].
  destruct (a_statusPatch _ _) as [er|]; [destruct (has_kind Conflict er)|]; intros [= <- <-];
    simpl; by rewrite ?E.
Qed.

(** How a reconcile may move the recorded phase. *)
Definition phase_step a (size : Q) (w' : cluster) (p p' : string) : Prop :=
  p' = p ∨ p' = "Aborted" ∨
  (isPVCResizeInFlight p = false ∧ p' = "Validated") ∨
  (isPVCResizeInFlight p = false ∧ p' = "StsOrphaned" ∧ gate a size w' p') ∨
  (next_of p ≠ "" ∧ p' = next_of p ∧ gate a size w' p') ∨
  (p = "Verified" ∧ p' = "" ∧ ready_sts w').

Lemma reconcile_spec a now size r r' out :
  honest a (r_cluster r) → reconcilePVCResize a now (Some size) r = (r', out) →
  Forall2 same_claim (cl_pvcs (r_cluster r)) (cl_pvcs (r_cluster r')) ∧
  (cl_sts (r_cluster r') ≠ cl_sts (r_cluster r) →
     (currentPVCResizePhase r = "Validated" ∨ isPVCResizeInFlight (currentPVCResizePhase r) = false) ∧
     cl_sts (r_cluster r') = None) ∧
  (cl_pvcs (r_cluster r') ≠ cl_pvcs (r_cluster r) →
     currentPVCResizePhase r = "StsOrphaned" ∧ cl_sts (r_cluster r) = None) ∧
  phase_step a size (r_cluster r') (currentPVCResizePhase r) (currentPVCResizePhase r').
Proof.
  intros Hh. unfold reconcilePVCResize.
  assert (∀ r0 : rstate, r_cluster r0 = r_cluster r →
    (currentPVCResizePhase r0 = currentPVCResizePhase r ∨ currentPVCResizePhase r0 = "Aborted") →
    Forall2 same_claim (cl_pvcs (r_cluster r)) (cl_pvcs (r_cluster r0)) ∧
    (cl_sts (r_cluster r0) ≠ cl_sts (r_cluster r) →
     (currentPVCResizePhase r = "Validated" ∨ isPVCResizeInFlight (currentPVCResizePhase r) = false) ∧
     cl_sts (r_cluster r0) = None) ∧
    (cl_pvcs (r_cluster r0) ≠ cl_pvcs (r_cluster r) →
     currentPVCResizePhase r = "StsOrphaned" ∧ cl_sts (r_cluster r) = None) ∧
    phase_step a size (r_cluster r0) (currentPVCResizePhase r) (currentPVCResizePhase r0)) as Hid.
  { intros r0 -> Hp. split_and!; [apply same_claims_refl|done|done|]. unfold phase_step. tauto. }
  destruct (a_listPVCs a); [intros [= <- <-]; auto|].
  destruct (lookupStorageClassForPVCs _ _ _) as [sc|]; [|intros [= <- <-]; auto]. cbv zeta.
  assert (d_Outcome (Detect size (cl_pvcs (r_cluster r)) (sc ≫= snd)) = OutcomeResizeNeeded →
    d_Desired (Detect size (cl_pvcs (r_cluster r)) (sc ≫= snd)) = size) as Hd.
  { unfold Detect. destruct (_ || _); [done|]. by destruct (Cmp _ _); [..|destruct (sc ≫= snd) as [[]|]]. }
  destruct (d_Outcome _) eqn:Ed.
  - case_bool_decide as Ec; simpl.
    + destruct (clearPVCResizeStatus a r) as [r2 e] eqn:Ew. intros [= <- <-].
      destruct (clear_spec _ _ _ _ Ew) as (Hw & _ & Hp). apply Hid; [done|].
      rewrite Ec in Hp |- *. left. by destruct Hp.
    + intros Hdr. destruct (drive_spec _ _ _ _ _ _ _ Hh Hdr) as (H1 & H2 & H3 & H4).
      split_and!; [done|naive_solver|done|]. unfold phase_step. cbv zeta in H4. tauto.
  - intros Hr. destruct (reject_spec _ _ _ _ _ _ _ _ _ Hr). auto.
  - intros Hr. destruct (reject_spec _ _ _ _ _ _ _ _ _ Hr). auto.
  - rewrite (Hd eq_refl).
    destruct (0 <? _); [intros [= <- <-]; auto|].
    destruct (isPVCResizeInFlight (currentPVCResizePhase r)) eqn:Ef.
    + destruct (pvcResizeIsStalled now r).
      { destruct (maybeEmitPVCStuckEvent a now r) as [r2 e] eqn:Es.
        destruct (stuck_spec _ _ _ _ _ Es). destruct e; intros [= <- <-]; auto. }
      intros Hdr. destruct (drive_spec a now _ size (set_gauge true r) r' out Hh Hdr) as (H1 & H2 & H3 & H4).
      split_and!; [done|naive_solver|done|]. unfold phase_step. cbv zeta in H4.
      change (currentPVCResizePhase (set_gauge true r)) with (currentPVCResizePhase r) in H4. tauto.
    + destruct (writePVCResizeStatus _ _ _ _ _) as [r2 e] eqn:Ew.
      destruct (write_spec _ _ _ _ _ _ _ Ew) as (Hw2 & _ & Hp2).
      destruct e as [e|].
      { intros [= <- <-]. split_and!; [rewrite Hw2; apply same_claims_refl|by rewrite Hw2|by rewrite Hw2|].
        unfold phase_step. tauto. }
      set (r3 := record_event _ r2) in *.
      assert (r_cluster r3 = r_cluster r) as Hw3 by done.
      assert (currentPVCResizePhase r3 = currentPVCResizePhase r ∨ currentPVCResizePhase r3 = "Validated")
        as Hp3 by done.
      destruct (pvcResizeIsStalled now r3).
      { destruct (maybeEmitPVCStuckEvent a now r3) as [r4 e] eqn:Es.
        destruct (stuck_spec _ _ _ _ _ Es) as [Hw4 Hp4].
        destruct e; intros [= <- <-];
          change (r_cluster (set_gauge true r4)) with (r_cluster r4);
          change (currentPVCResizePhase (set_gauge true r4)) with (currentPVCResizePhase r4);
          rewrite Hw4, Hw3, Hp4;
          (split_and!; [apply same_claims_refl|done|done|]); unfold phase_step; tauto. }
      intros Hdr.
      assert (honest a (r_cluster (set_gauge true r3))) as Hh3 by (change (honest a (r_cluster r3)); by rewrite Hw3).
      destruct (drive_spec a now _ size (set_gauge true r3) r' out Hh3 Hdr) as (H1 & H2 & H3 & H4).
      change (r_cluster (set_gauge true r3)) with (r_cluster r3) in *. rewrite Hw3 in *.
      split_and!; [done|naive_solver|naive_solver|]. unfold phase_step. cbv zeta in H4.
      change (currentPVCResizePhase (set_gauge true r3)) with (currentPVCResizePhase r3) in H4.
      change (next_of "Validated") with "StsOrphaned" in H4.
      destruct H4 as [-> |[->|[(_ & Hn & Hg)|(? & _)]]]; [tauto|tauto| |done].
      right; right; right; left. by rewrite Hn in *.
Qed.
End facts.

(** ** Properties *)
Section props.
Context {Q : Type} `{!Quantity Q}.

(** C29: A resize never loses or shrinks data, step by step.  For any reconcile, whatever
    the API errors, as long as no read says NotFound for a StatefulSet that exists: the
    claims are the same claims in the same order with requests that never decrease; claims
    are patched only in phase StsOrphaned with the StatefulSet gone, and the StatefulSet is
    deleted only when the recorded phase is Validated or no resize is in flight.  With a
    size in the CR, the recorded phase either stays, becomes Aborted, starts, or moves to
    the next phase with its gate proven on the cluster: StatefulSet gone; every claim at
    the requested size or reported as vanished by its patch; every capacity grown;
    templates at the new size; and it is cleared only out of Verified with all pods Ready.
    When the CR has no persistence (any more), the cluster is left as it is and the phase,
    whatever it was, stays or is cleared. *)
Theorem resize_step_safe (a : api) now (persistence : option Q) (r r' : rstate) out :
  honest a (r_cluster r) → reconcilePVCResize a now persistence r = (r', out) →
  Forall2 same_claim (cl_pvcs (r_cluster r)) (cl_pvcs (r_cluster r')) ∧
  (cl_sts (r_cluster r') ≠ cl_sts (r_cluster r) →
     (currentPVCResizePhase r = "Validated" ∨ isPVCResizeInFlight (currentPVCResizePhase r) = false) ∧
     cl_sts (r_cluster r') = None) ∧
  (cl_pvcs (r_cluster r') ≠ cl_pvcs (r_cluster r) →
     currentPVCResizePhase r = "StsOrphaned" ∧ cl_sts (r_cluster r) = None) ∧
  match persistence with
  | Some size => phase_step a size (r_cluster r') (currentPVCResizePhase r) (currentPVCResizePhase r')
  | None => r_cluster r' = r_cluster r ∧
      (currentPVCResizePhase r' = currentPVCResizePhase r ∨ currentPVCResizePhase r' = "")
  end.
Proof.
  intros Hh. destruct persistence as [size|]; [by apply reconcile_spec|]. cbn.
  destruct (clearPVCResizeStatus a r) as [r2 e] eqn:Ec. intros [= <- _].
  destruct (clear_spec _ _ _ _ Ec) as (-> & _ & Hp). split_and!; [apply same_claims_refl|done..].
Qed.

Lemma BackoffForAttempt_bounds attempt : 1 * Minute ≤ BackoffForAttempt attempt ≤ 1 * Hour.
Proof.
  unfold BackoffForAttempt. cbv zeta. change (len abortRetryBackoffs) with 4.
  destruct (Z.leb_spec 4 (Z.max (attempt - 1) 0)) as [_|Hlt]; [vm_compute; split; discriminate|].
  assert (Z.max (attempt - 1) 0 = 0 ∨ Z.max (attempt - 1) 0 = 1 ∨ Z.max (attempt - 1) 0 = 2 ∨
    Z.max (attempt - 1) 0 = 3) as [->|[->|[->| ->]]] by lia; vm_compute; split; discriminate.
Qed.

(** Retries after an abort are paced: while a grow is wanted and the recorded
    phase is Aborted, a reconcile inside the attempt's backoff window changes
    nothing and asks to be called back exactly at the window's end, never more than
    an hour after the abort; once the window has passed the wait is zero. *)
Theorem aborted_retry_paced (a : api) now (size : Q) (r : rstate) st t sc :
  r_status r = Some st → Phase st = "Aborted" → LastTransitionAt st = Some t → t ≠ zero_time →
  a_listPVCs a = None → lookupStorageClassForPVCs a (r_cluster r) (cl_pvcs (r_cluster r)) = inl sc →
  d_Outcome (Detect size (cl_pvcs (r_cluster r)) (sc ≫= snd)) = OutcomeResizeNeeded →
  let wait := BackoffForAttempt (Attempt st) in
  1 * Minute ≤ wait ≤ 1 * Hour ∧
  (t ≤ now < t + wait → reconcilePVCResize a now (Some size) r = (r, (t + wait - now, None))) ∧
  (t + wait ≤ now → pvcResizeAbortedWaitRemaining now r = 0).
Proof.
  intros Hs Hp Ht Hz Hl Hsc Hd wait. pose proof (BackoffForAttempt_bounds (Attempt st)) as Hb.
  fold wait in Hb. split; [done|].
  assert (pvcResizeAbortedWaitRemaining now r =
    if wait <=? Sub now t then 0 else wait - Sub now t) as Hw.
  { unfold pvcResizeAbortedWaitRemaining, BackoffRemaining, IsZero. rewrite Hs, Ht.
    rewrite (proj2 (Z.eqb_neq _ _)) by done. done. }
  assert (Hour = 3600000000000) as Hh by reflexivity.
  assert (Minute = 60000000000) as Hmi by reflexivity.
  split.
  - intros Hn. unfold reconcilePVCResize. rewrite Hl, Hsc. cbv zeta. rewrite Hd.
    assert (currentPVCResizePhase r = "Aborted") as Hc by (unfold currentPVCResizePhase; by rewrite Hs).
    rewrite Hc, Hw, bool_decide_eq_true_2 by done.
    assert (Sub now t = now - t) as -> by (unfold Sub, clamp64, min_int64, max_int64; lia).
    rewrite (proj2 (Z.leb_gt _ _)) by lia. rewrite (proj2 (Z.ltb_lt _ _)) by lia.
    by replace (wait - (now - t)) with (t + wait - now) by lia.
  - intros Hn. rewrite Hw. destruct (Z.leb_spec wait (Sub now t)); [done|].
    unfold Sub, clamp64, min_int64, max_int64 in *. lia.
Qed.

(** An aborted resize is never cleared by reverting the size: when the claims
    match the requested size again and the recorded phase is Aborted, the
    reconcile leaves the status as it is (and requests no callback), because the
    no-change arm hands every non-empty phase to the dispatcher and the dispatcher
    ignores Aborted. *)
Theorem aborted_survives_revert (a : api) now (size : Q) (r : rstate) st sc :
  r_status r = Some st → Phase st = "Aborted" → a_listPVCs a = None →
  lookupStorageClassForPVCs a (r_cluster r) (cl_pvcs (r_cluster r)) = inl sc →
  d_Outcome (Detect size (cl_pvcs (r_cluster r)) (sc ≫= snd)) = OutcomeNoChange →
  reconcilePVCResize a now (Some size) r = (r, (0, None)).
Proof.
  intros Hs Hp Hl Hsc Hd. unfold reconcilePVCResize. rewrite Hl, Hsc. cbv zeta. rewrite Hd.
  assert (currentPVCResizePhase r = "Aborted") as -> by (unfold currentPVCResizePhase; by rewrite Hs).
  reflexivity.
Qed.

Lemma smallest_all (q acc : Q) pvcs :
  amount acc = amount q → (∀ p, p ∈ pvcs → amount (pvc_Request p) = amount q) →
  amount (smallest acc pvcs) = amount q.
Proof.
  revert acc. induction pvcs as [|p pvcs IH]; intros acc Ha Hall; [done|]. simpl.
  apply IH; [|intros p' ?; apply Hall; by constructor].
  destruct (Cmp _ _); [done| |done]. apply Hall. constructor.
Qed.

Lemma Detect_all_equal (size : Q) pvcs allow :
  (∀ p, p ∈ pvcs → amount (pvc_Request p) = amount size) →
  d_Outcome (Detect size pvcs allow) = OutcomeNoChange.
Proof.
  intros Hall. unfold Detect. destruct pvcs as [|p pvcs]; [by rewrite orb_true_r|].
  destruct (_ || _); [done|]. cbv zeta. rewrite Cmp_amount. simpl.
  rewrite (smallest_all size); [by rewrite Z.compare_refl|apply Hall; constructor|].
  intros p' ?. apply Hall. by constructor.
Qed.

(** The stall guard does not cover the phase it is sized for: once the claims
    carry the requested size (as leaving StsOrphaned makes them), a reconcile in
    phase PVCsPatched records no event, however long ago the phase was entered, so
    a CSI expansion that never completes is never reported as stuck. *)
Theorem stalled_expansion_unreported (a : api) now (size : Q) (r : rstate) st sc :
  r_status r = Some st → Phase st = "PVCsPatched" →
  pvcResizeIsStalled now r = true → cl_pvcs (r_cluster r) ≠ [] →
  (∀ p, p ∈ cl_pvcs (r_cluster r) → amount (pvc_Request p) = amount size) →
  lookupStorageClassForPVCs a (r_cluster r) (cl_pvcs (r_cluster r)) = inl sc →
  r_events (reconcilePVCResize a now (Some size) r).1 = r_events r.
Proof.
  intros Hs Hp _ Hne Hall Hsc. unfold reconcilePVCResize.
  destruct (a_listPVCs a) eqn:Hl; [done|]. rewrite Hsc. cbv zeta.
  rewrite Detect_all_equal by done.
  assert (currentPVCResizePhase r = "PVCsPatched") as -> by (unfold currentPVCResizePhase; by rewrite Hs).
  cbn [negb bool_decide decide_rel decide]. unfold drivePVCResize, transition_of.
  rewrite (bool_decide_eq_false_2 ("PVCsPatched" = "")) by done. simpl negb. cbv iota.
  rewrite !(bool_decide_eq_false_2 ("PVCsPatched" = _)) by done.
  rewrite (bool_decide_eq_true_2 ("PVCsPatched" = "PVCsPatched")) by done.
  unfold FromPVCsPatched. rewrite Hl.
  rewrite (proj2 (Z.eqb_neq _ _)) by (unfold len; destruct (cl_pvcs (r_cluster r)); simpl; [done|lia]).
  destruct (List.find _ _) as [p|]; cbn [tr_Action tr_plain EventReason];
    rewrite (bool_decide_eq_true_2 ("" = "")) by done; [done|].
  destruct (writePVCResizeStatus _ _ _ _ _) as [r2 e] eqn:Ew.
  destruct (write_spec _ _ _ _ _ _ _ Ew) as (_ & He & _). by destruct e.
Qed.
End props.

(** Witnesses, on quantities counted in bytes. *)
Definition demo_pvc (req cap : Z) : PVC (Q := Z) :=
  {| pvc_Name := "data-vk-0"; pvc_Request := req; pvc_Capacity := cap; pvc_Class := Some "fast" |}.
Definition quiet_api : api :=
  {| a_getSTS := None; a_deleteSTS := None; a_listPVCs := None; a_patchPVC := λ _, None;
     a_getClass := None; a_statusPatch := λ _, None |}.
Definition demo_cluster (req cap : Z) : cluster (Q := Z) :=
  {| cl_sts := None; cl_pvcs := [demo_pvc req cap]; cl_classes := {["fast" := Some true]} |}.
Definition demo_status (phase : string) (attempt : Z) (t : Time) : PVCResizeStatus :=
  {| Phase := phase; Attempt := attempt; StartedAt := Some t; LastTransitionAt := Some t;
     LastStuckEventAt := None; Message := "" |}.
Definition demo_rstate (phase : string) (attempt : Z) (req cap : Z) : rstate (Q := Z) :=
  {| r_status := Some (demo_status phase attempt 100); r_cluster := demo_cluster req cap;
     r_events := []; r_gauge := true |}.

Lemma resize_step_safe_witness :
  let r := demo_rstate "StsOrphaned" 1 10 10 in
  let r' := (reconcilePVCResize quiet_api 200 (Some 20) r).1 in
  currentPVCResizePhase r' = "PVCsPatched" ∧
  phase_step quiet_api 20 (r_cluster r') (currentPVCResizePhase r) (currentPVCResizePhase r').
Proof.
  intros r r'. split; [vm_compute; reflexivity|].
  apply (resize_step_safe quiet_api 200 (Some 20) r r' (reconcilePVCResize quiet_api 200 (Some 20) r).2).
  - intros e H. discriminate H.
  - vm_compute. reflexivity.
Defined.

Lemma aborted_retry_paced_witness :
  reconcilePVCResize quiet_api 200 (Some 20) (demo_rstate "Aborted" 2 10 10) =
    (demo_rstate "Aborted" 2 10 10, (100 + 5 * Minute - 200, None)).
Proof.
  apply (aborted_retry_paced quiet_api 200 20 (demo_rstate "Aborted" 2 10 10)
    (demo_status "Aborted" 2 100) 100 (Some ("fast", Some true)));
    [reflexivity|reflexivity|reflexivity|discriminate|reflexivity|vm_compute; reflexivity
    |vm_compute; reflexivity|vm_compute; split; [discriminate|reflexivity]].
Defined.

Lemma aborted_survives_revert_witness :
  reconcilePVCResize quiet_api (7200 * Second) (Some 10) (demo_rstate "Aborted" 1 10 10) =
    (demo_rstate "Aborted" 1 10 10, (0, None)).
Proof.
  apply (aborted_survives_revert quiet_api (7200 * Second) 10 (demo_rstate "Aborted" 1 10 10)
    (demo_status "Aborted" 1 100) (Some ("fast", Some true)));
    vm_compute; reflexivity.
Defined.

Lemma stalled_expansion_unreported_witness :
  r_events (reconcilePVCResize quiet_api (7200 * Second) (Some 20) (demo_rstate "PVCsPatched" 1 20 10)).1 = [].
Proof.
  apply (stalled_expansion_unreported quiet_api (7200 * Second) 20 (demo_rstate "PVCsPatched" 1 20 10)
    (demo_status "PVCsPatched" 1 100) (Some ("fast", Some true)));
    [reflexivity|reflexivity|vm_compute; reflexivity|discriminate| |vm_compute; reflexivity].
  intros p [->|H]%elem_of_cons; [reflexivity|by apply not_elem_of_nil in H].
Defined.
