(* ===== verification/DeriveState.v ===== *)
(** * Observation of the rollout state: [internal/controller/{derive_state,fsm,fsm_transitions,
    replicas_rolled,rollout_trigger,switch_master_observe,pod_helpers}.go], the failover
    latch of [primary_rollout.go] and [observeRolloutState] of [valkey_controller.go]

    One reconcile pass derives the rollout state from the pods, the StatefulSet
    and the sentinel snapshot, and runs the edge-triggered dispatches of the
    state machine.  The in-memory state of one CR is [perCRState] (an absent
    entry of the source's map reads as its zero value); the CR's status is kept
    twice, as the object the pass holds ([view]) and as the API server stores it
    ([stored]), because a failed status patch changes only the former.  Clock
    readings, the snapshots a pass loads and the outcome of each API call are
    inputs of the pass. *)
From S2P Require Import Prelude GoStd GoFmt Fsm Observer SQAggregate Status.
Local Open Scope Z_scope.

Definition RoleLabel : string := "velkir.ioxie.dev/role".
Definition roleValuePrimary : string := "primary".
Definition stsRevisionLabel : string := "controller-revision-hash".
Definition ReplicationReadyGate : string := "velkir.ioxie.dev/replication-ready".

Record Pod := {
  pod_Name : string;
  pod_Labels : gmap string string;
  pod_DeletionTimestamp : option Time;
  pod_IP : string;
  pod_NodeName : string;
  pod_Conditions : list (string * string); (* type, status *)
  pod_ReadinessGates : list string
}.

(** Go's map read: the zero value of an absent key. *)
Definition label (p : Pod) (k : string) : string := default "" (pod_Labels p !! k).
Definition isPrimary (p : Pod) : bool := bool_decide (label p RoleLabel = roleValuePrimary).

Record StatefulSet := { UpdateRevision : string; CurrentRevision : string }.

Fixpoint condition_true (absent : bool) (type : string) (cs : list (string * string)) : bool :=
  match cs with
  | [] => absent
  | (t, s) :: cs =>
      if bool_decide (t = type) then bool_decide (s = "True") else condition_true absent type cs
  end.

Definition podReplicationHealthy (p : Pod) : bool :=
  condition_true true ReplicationReadyGate (pod_Conditions p).
Definition podReady (p : Pod) : bool := condition_true false "Ready" (pod_Conditions p).

Definition podIPMatchesAny (host : string) (pods : list Pod) : bool :=
  if bool_decide (host = "") then false
  else existsb (λ p, negb (bool_decide (pod_IP p = "")) && bool_decide (pod_IP p = host)) pods.

Definition countPrimaryLabeledPods (pods : list Pod) : nat := count isPrimary pods.

Record CRSpec := { spec_Mode : Mode; spec_Replicas : Z; spec_MaxLagBytes : Z }.

(** ** Status and per-CR memory *)
Record FailoverDispatchStatus := {
  fd_PreStripAddr : string;
  fd_Deadline : option Time;
  fd_PreStripEpoch : Z
}.

Record RolloutStatus := {
  SuspendedFrom : option string;
  FailoverDispatch : option FailoverDispatchStatus
}.
Definition rollout_zero : RolloutStatus := {| SuspendedFrom := None; FailoverDispatch := None |}.

Record failoverInFlightLatch := {
  preStripAddr : string;
  deadline : Time;
  preStripEpoch : Z
}.

Record perCRState := {
  failoverLatch : option failoverInFlightLatch;
  lastState : State;
  lastWasReplicasRolled : bool;
  lastWasPending : bool;
  lastTarget : string;
  switchMasterEdge : string;
  suppressionActive : bool;
  manualRollout : option string
}.

Definition percr_zero : perCRState :=
  {| failoverLatch := None; lastState := StateNone; lastWasReplicasRolled := false;
     lastWasPending := false; lastTarget := ""; switchMasterEdge := "";
     suppressionActive := false; manualRollout := None |}.

Definition set_latch (l : option failoverInFlightLatch) (s : perCRState) : perCRState :=
  {| failoverLatch := l; lastState := lastState s; lastWasReplicasRolled := lastWasReplicasRolled s;
     lastWasPending := lastWasPending s; lastTarget := lastTarget s;
     switchMasterEdge := switchMasterEdge s; suppressionActive := suppressionActive s;
     manualRollout := manualRollout s |}.
Definition set_lastState (st : State) (s : perCRState) : perCRState :=
  {| failoverLatch := failoverLatch s; lastState := st; lastWasReplicasRolled := lastWasReplicasRolled s;
     lastWasPending := lastWasPending s; lastTarget := lastTarget s;
     switchMasterEdge := switchMasterEdge s; suppressionActive := suppressionActive s;
     manualRollout := manualRollout s |}.
Definition set_rolled (b : bool) (s : perCRState) : perCRState :=
  {| failoverLatch := failoverLatch s; lastState := lastState s; lastWasReplicasRolled := b;
     lastWasPending := lastWasPending s; lastTarget := lastTarget s;
     switchMasterEdge := switchMasterEdge s; suppressionActive := suppressionActive s;
     manualRollout := manualRollout s |}.
Definition set_trigger (b : bool) (t : string) (s : perCRState) : perCRState :=
  {| failoverLatch := failoverLatch s; lastState := lastState s; lastWasReplicasRolled := lastWasReplicasRolled s;
     lastWasPending := b; lastTarget := t;
     switchMasterEdge := switchMasterEdge s; suppressionActive := suppressionActive s;
     manualRollout := manualRollout s |}.
Definition set_edge (h : string) (s : perCRState) : perCRState :=
  {| failoverLatch := failoverLatch s; lastState := lastState s; lastWasReplicasRolled := lastWasReplicasRolled s;
     lastWasPending := lastWasPending s; lastTarget := lastTarget s;
     switchMasterEdge := h; suppressionActive := suppressionActive s;
     manualRollout := manualRollout s |}.

Definition set_manual (m : option string) (s : perCRState) : perCRState :=
  {| failoverLatch := failoverLatch s; lastState := lastState s; lastWasReplicasRolled := lastWasReplicasRolled s;
     lastWasPending := lastWasPending s; lastTarget := lastTarget s;
     switchMasterEdge := switchMasterEdge s; suppressionActive := suppressionActive s;
     manualRollout := m |}.

(** What the pass emits: events on the CR (the note of [FsmEvent] is printed from
    its arguments) and on pods, and audit-log records. *)
Inductive event : Type :=
  | FsmEvent (reason : string) (from : State) (on : Event) (next : State)
  | CREvent (warning : bool) (reason action note : string)
  | PodEvent (pod reason action : string)
  | AuditEvent (name : string) (attrs : list (string * string)).

(** What a pass threads through its phases. *)
Record ctl := {
  percr : perCRState;
  view : option RolloutStatus;
  stored : option RolloutStatus;
  recorded : list event
}.

Definition set_percr (s : perCRState) (c : ctl) : ctl :=
  {| percr := s; view := view c; stored := stored c; recorded := recorded c |}.
Definition set_status (vw st : option RolloutStatus) (c : ctl) : ctl :=
  {| percr := percr c; view := vw; stored := st; recorded := recorded c |}.
Definition record (e : event) (c : ctl) : ctl :=
  {| percr := percr c; view := view c; stored := stored c; recorded := recorded c ++ [e] |}.

(** ** The failover latch *)
Definition latch_active (l : failoverInFlightLatch) (now : Time) (observedAddr : string)
    (observedEpoch : Z) : bool :=
  if After now (deadline l) then false
  else if negb (bool_decide (observedAddr = "")) && negb (bool_decide (observedAddr = preStripAddr l)) then
    if (0 <? preStripEpoch l) && (observedEpoch <? preStripEpoch l) then true else false
  else true.

Definition failoverLatchActive (now : Time) (addr : string) (epoch : Z) (s : perCRState) :
    bool * perCRState :=
  match failoverLatch s with
  | None => (false, s)
  | Some l => if latch_active l now addr epoch then (true, s) else (false, set_latch None s)
  end.

Definition failoverLatchActivePure (now : Time) (addr : string) (epoch : Z) (s : perCRState) : bool :=
  match failoverLatch s with
  | None => false
  | Some l => latch_active l now addr epoch
  end.

Definition failoverLatchSetWithDeadline (addr : string) (epoch : Z) (dl : Time) (s : perCRState) :
    perCRState :=
  set_latch (Some {| preStripAddr := addr; deadline := dl; preStripEpoch := epoch |}) s.

Definition failoverLatchClear (s : perCRState) : perCRState := set_latch None s.

(** ** Derivation of the state *)
Record observedFacts := {
  IsStandalone : bool;
  PodCount : Z;
  f_QuorumOK : bool;
  FailoverInFlight : bool;
  PrimaryAtTargetRevision : bool;
  AllReplicasAtTargetRevision : bool;
  AllPodsAtTargetRevision : bool;
  ReplicasReadyForHandoff : bool
}.

Definition deriveStateFromFacts (f : observedFacts) : State :=
  if PodCount f =? 0 then StateBootstrap
  else if IsStandalone f then StateSteady
  else if negb (f_QuorumOK f) then StateDegraded
  else if FailoverInFlight f then StateFailoverInFlight
  else if AllPodsAtTargetRevision f then StateSteady
  else if AllReplicasAtTargetRevision f && negb (PrimaryAtTargetRevision f) then
    if negb (ReplicasReadyForHandoff f) then StateRolloutReplicas else StateRolloutPrimary
  else if PrimaryAtTargetRevision f && negb (AllReplicasAtTargetRevision f) then StateRolloutReplicas
  else StateRolloutReplicas.

(** The loop variables of [deriveState]. *)
Record scan := {
  primarySeen : bool;
  primaryAtTarget : bool;
  replicasAtTarget : bool;
  anyReplicaSeen : bool;
  replicaCount : Z;
  replicasSettled : bool
}.
Definition scan_init : scan :=
  {| primarySeen := false; primaryAtTarget := false; replicasAtTarget := true;
     anyReplicaSeen := false; replicaCount := 0; replicasSettled := true |}.

Definition pod_at (target : string) (p : Pod) : bool :=
  negb (bool_decide (target = "")) && bool_decide (label p stsRevisionLabel = target).
Definition pod_settled (p : Pod) : bool :=
  negb (bool_decide (is_Some (pod_DeletionTimestamp p)) || negb (podReady p) ||
        negb (podReplicationHealthy p)).

Definition scan_pod (target : string) (s : scan) (p : Pod) : scan :=
  if isPrimary p then
    {| primarySeen := true; primaryAtTarget := pod_at target p;
       replicasAtTarget := replicasAtTarget s; anyReplicaSeen := anyReplicaSeen s;
       replicaCount := replicaCount s; replicasSettled := replicasSettled s |}
  else
    {| primarySeen := primarySeen s; primaryAtTarget := primaryAtTarget s;
       replicasAtTarget := if negb (pod_at target p) then false else replicasAtTarget s;
       anyReplicaSeen := true; replicaCount := replicaCount s + 1;
       replicasSettled := if pod_settled p then replicasSettled s else false |}.

(** [snap] is the observer ([None]: a nil observer) read once. *)
Definition deriveState (cr : CRSpec) (snap : option Snapshot) (now : Time) (pods : list Pod)
    (sts : option StatefulSet) (s : perCRState) : State * observedFacts * perCRState :=
  let standalone := bool_decide (spec_Mode cr = ModeStandalone) in
  let '(quorumOK, addr, epoch) :=
    match snap with
    | Some sn =>
        if negb standalone && Present sn
        then (Observer.QuorumOK (Primary sn), Addr (Primary sn), Epoch (Primary sn))
        else (false, "", 0)
    | None => (false, "", 0)
    end in
  let '(inFlight, s) := failoverLatchActive now addr epoch s in
  let facts count pr ar al ready :=
    {| IsStandalone := standalone; PodCount := count; f_QuorumOK := quorumOK;
       FailoverInFlight := inFlight; PrimaryAtTargetRevision := pr;
       AllReplicasAtTargetRevision := ar; AllPodsAtTargetRevision := al;
       ReplicasReadyForHandoff := ready |} in
  match sts with
  | None => let f := facts 0 false false false false in (deriveStateFromFacts f, f, s)
  | Some sts =>
      if len pods =? 0 then
        let f := facts 0 false false false false in (deriveStateFromFacts f, f, s)
      else
        let sc := foldl (scan_pod (UpdateRevision sts)) scan_init pods in
        let pr := primarySeen sc && primaryAtTarget sc in
        let ar := negb (anyReplicaSeen sc) || replicasAtTarget sc in
        let expectedReplicas := Z.max (spec_Replicas cr - 1) 0 in
        let ready := replicasSettled sc && (replicaCount sc =? expectedReplicas) in
        let f := facts (len pods) pr ar (pr && ar) ready in
        if negb (primarySeen sc) && anyReplicaSeen sc then (StateBootstrap, f, s)
        else (deriveStateFromFacts f, f, s)
  end.

Definition isInRolloutState (s : State) : bool :=
  match s with
  | StateRolloutPending | StateRolloutReplicas | StateRolloutPrimary
  | StateFailoverInFlight | StateRolloutComplete => true
  | _ => false
  end.

Definition valkeyRollActive (s : State) : bool :=
  bool_decide (s = StateRolloutReplicas) || bool_decide (s = StateRolloutPrimary).

Definition observedPrimaryAddrEpoch (snap : option Snapshot) : string * Z :=
  match snap with
  | None => ("", 0)
  | Some sn => if negb (Present sn) then ("", 0) else (Addr (Primary sn), Epoch (Primary sn))
  end.

Definition IsFailoverInFlight (snap : option Snapshot) (now : Time) (s : perCRState) : bool :=
  let '(addr, epoch) := observedPrimaryAddrEpoch snap in
  if failoverLatchActivePure now addr epoch s then true
  else bool_decide (lastState s = StateFailoverInFlight).

Definition IsSentinelSuppressed (s : perCRState) : bool := suppressionActive s.

Definition DeferralPredicate (snap : option Snapshot) (now : Time) (s : perCRState) : bool :=
  IsSentinelSuppressed s || IsFailoverInFlight snap now s.

(** ** The state machine's effects *)
Section controller.
Context {R : MapRange}.
(** [r.FSM] ([None]: nil) and whether [r.Recorder] is set. *)
Context (FSM : option (list Transition)) (recorder : bool).

Definition recordEventf (e : event) (c : ctl) : ctl := if recorder then record e c else c.

Definition applyFSM (st : State) (ev : Event) (g : GuardCtx) (c : ctl) :
    (State * Duration * bool) * ctl :=
  match FSM with
  | None => ((st, 0, false), c)
  | Some m =>
      match Apply m st ev g with
      | (_, _, false) => ((st, 0, false), c)
      | (next, side, true) =>
          ((next, RequeueAfter side, true),
           if bool_decide (EventReason side = "") then c
           else recordEventf (FsmEvent (EventReason side) st ev next) c)
      end
  end.

Definition quorum_guards (q : bool) : GuardCtx :=
  {| Fsm.QuorumOK := q; SplitBrain := false; QuorumPrimaryAgreed := false; Pod0LabeledPrimary := false;
     CandidateReplicaReady := false; HasMoreReplicas := false; NewPrimaryStable := false;
     OldPrimaryNowReplica := false; OldPrimaryReplicaReady := false;
     RolloutSuspendedFromPending := false; CKQUORUMOKHysteresisPassed := false |}.
Definition with_suspended (b : bool) (g : GuardCtx) : GuardCtx :=
  {| Fsm.QuorumOK := Fsm.QuorumOK g; SplitBrain := SplitBrain g; QuorumPrimaryAgreed := QuorumPrimaryAgreed g;
     Pod0LabeledPrimary := Pod0LabeledPrimary g; CandidateReplicaReady := CandidateReplicaReady g;
     HasMoreReplicas := HasMoreReplicas g; NewPrimaryStable := NewPrimaryStable g;
     OldPrimaryNowReplica := OldPrimaryNowReplica g; OldPrimaryReplicaReady := OldPrimaryReplicaReady g;
     RolloutSuspendedFromPending := b; CKQUORUMOKHysteresisPassed := CKQUORUMOKHysteresisPassed g |}.

(** ** Edge trackers *)
Definition fsmTransitionEdge (current : State) (s : perCRState) : State * perCRState :=
  (lastState s, set_lastState current s).

Definition replicasRolledEdge (current : State) (s : perCRState) : bool * perCRState :=
  let pendingNow := bool_decide (current = StateRolloutPrimary) in
  (pendingNow && negb (lastWasReplicasRolled s), set_rolled pendingNow s).

Record rolloutTriggerSignal := { edge : bool; midRolloutChange : bool }.

(** [r.Get] of the StatefulSet: an object, NotFound, or another error. *)
Inductive get_result : Type := GetOk (sts : StatefulSet) | GetNotFound | GetErr (e : string).

Definition rolloutTriggerEdge (g : get_result) (s : perCRState) :
    result rolloutTriggerSignal * perCRState :=
  match g with
  | GetNotFound => (Ok {| edge := false; midRolloutChange := false |}, s)
  | GetErr e => (Err ("rollout-trigger: " +:+ e), s)
  | GetOk sts =>
      let target := UpdateRevision sts in
      let current := CurrentRevision sts in
      let pendingNow := negb (bool_decide (target = "")) && negb (bool_decide (target = current)) in
      (Ok {| edge := pendingNow && negb (lastWasPending s);
             midRolloutChange := pendingNow && lastWasPending s &&
               negb (bool_decide (lastTarget s = "")) && negb (bool_decide (target = lastTarget s)) |},
       set_trigger pendingNow (if pendingNow then target else "") s)
  end.

Definition switchMasterEdgeFire (host : string) (s : perCRState) : bool * perCRState :=
  if bool_decide (switchMasterEdge s = host) then (false, s) else (true, set_edge host s).
Definition switchMasterEdgeReset (s : perCRState) : perCRState := set_edge "" s.

(** ** [SuspendedFrom] *)
Definition suspendedFromRolloutPending : string := "RolloutPending".
Definition suspendedFromRolloutReplicas : string := "RolloutReplicas".

Definition suspended_of (r : option RolloutStatus) : option string := r ≫= SuspendedFrom.
Definition put_suspended (x : option string) (r : option RolloutStatus) : option RolloutStatus :=
  let r := default rollout_zero r in
  Some {| SuspendedFrom := x; FailoverDispatch := FailoverDispatch r |}.

Definition readSuspendedFromPending (c : ctl) : bool :=
  bool_decide (suspended_of (view c) = Some suspendedFromRolloutPending).

(** A merge patch of the one field [SuspendedFrom]: on success the server's
    object replaces the in-memory one, on failure the in-memory change stays. *)
Definition patch_suspended (ok : bool) (x : option string) (c : ctl) : ctl :=
  if ok then let st := put_suspended x (stored c) in set_status st st c
  else set_status (put_suspended x (view c)) (stored c) c.

(** [status_patch x]: whether the patch that writes [x] is accepted. *)
Definition stampSuspendedFrom (status_patch : option string → bool) (value : string) (c : ctl) : ctl :=
  if bool_decide (suspended_of (view c) = Some value) then c
  else patch_suspended (status_patch (Some value)) (Some value) c.

Definition clearSuspendedFrom (status_patch : option string → bool) (c : ctl) : ctl :=
  match suspended_of (view c) with
  | None => c
  | Some _ => patch_suspended (status_patch None) None c
  end.

Definition fsmAbortAndRecoveryDispatch (status_patch : option string → bool) (st : State)
    (quorumOK : bool) (c : ctl) : ctl :=
  let '(prev, s) := fsmTransitionEdge st (percr c) in
  let c := set_percr s c in
  let guards := quorum_guards quorumOK in
  let c :=
    if bool_decide (st = StateDegraded) then
      match prev with
      | StateRolloutPending =>
          let c := stampSuspendedFrom status_patch suspendedFromRolloutPending c in
          (applyFSM StateRolloutPending EventReconcileTick guards c).2
      | StateRolloutReplicas =>
          let c := stampSuspendedFrom status_patch suspendedFromRolloutReplicas c in
          (applyFSM StateRolloutReplicas EventQuorumLost guards c).2
      | StateRolloutPrimary => (applyFSM StateRolloutPrimary EventReconcileTick guards c).2
      | _ => c
      end
    else c in
  let c :=
    if bool_decide (prev = StateDegraded) &&
       (bool_decide (st = StateSteady) || bool_decide (st = StateRolloutPending)) then
      let guards := with_suspended (readSuspendedFromPending c) guards in
      match applyFSM StateDegraded EventRecovered guards c with
      | ((_, _, true), c) => clearSuspendedFrom status_patch c
      | ((_, _, false), c) => c
      end
    else c in
  if bool_decide (st = StateSteady) then clearSuspendedFrom status_patch c else c.

(** ** External failovers *)
Fixpoint elected_pod (host : string) (pods : list Pod) : option Pod :=
  match pods with
  | [] => None
  | p :: pods =>
      if negb (bool_decide (pod_IP p = "")) && bool_decide (pod_IP p = host) then Some p
      else elected_pod host pods
  end.

Definition observeExternalSwitchMaster (snap : Snapshot) (pods : list Pod) (latchActive : bool) :
    option string :=
  if negb (Present snap) || negb (Observer.QuorumOK (Primary snap)) || latchActive then None
  else match SplitHostPort (Addr (Primary snap)) with
  | None => None
  | Some (host, _) =>
      if bool_decide (host = "") then None
      else match elected_pod host pods with
      | None => None
      | Some p =>
          if isPrimary p then None
          else if (countPrimaryLabeledPods pods =? 0)%nat then None
          else Some (Addr (Primary snap))
      end
  end.

Definition fsmSwitchMasterDispatch (st : State) (snap : Snapshot) (now : Time) (pods : list Pod)
    (c : ctl) : ctl :=
  if negb (bool_decide (st = StateSteady)) then set_percr (switchMasterEdgeReset (percr c)) c
  else
    let '(latchActive, s) :=
      failoverLatchActive now (Addr (Primary snap)) (Epoch (Primary snap)) (percr c) in
    let c := set_percr s c in
    match observeExternalSwitchMaster snap pods latchActive with
    | None => set_percr (switchMasterEdgeReset (percr c)) c
    | Some electedAddr =>
        let '(fired, s) := switchMasterEdgeFire electedAddr (percr c) in
        let c := set_percr s c in
        if negb fired then c
        else (applyFSM StateSteady EventSwitchMaster
                (quorum_guards (Observer.QuorumOK (Primary snap))) c).2
    end.

(** ** The remaining observations of the pass *)
Definition maybeAuditManualRollout (cur : string) (c : ctl) : ctl :=
  let s := percr c in
  match manualRollout s with
  | None => set_percr (set_manual (Some cur) s) c
  | Some last =>
      if bool_decide (cur = last) then c
      else
        let c := set_percr (set_manual (Some cur) s) c in
        if bool_decide (cur = "") then c
        else record (AuditEvent "manual_rollout_triggered"
                       [("generation", cur); ("previous_generation", last)]) c
  end.

Definition node_counts (pods : list Pod) : gmap string nat :=
  foldl (λ m p, if bool_decide (pod_NodeName p = "") then m else bump m (pod_NodeName p)) ∅ pods.

Definition colocated_note (n : nat) (component node : string) (total : Z) : string :=
  pretty n +:+ " " +:+ component +:+ " pods scheduled on node " +:+ Quote node +:+
  "; the same-pod-set anti-affinity default is soft (preferred), so a single node failure can take down " +:+
  pretty n +:+ " of " +:+ Itoa total +:+ " " +:+ component +:+ " pods".

Definition warnOnSameNodeColocation (pods : list Pod) (component : string) (c : ctl) : ctl :=
  if len pods <? 2 then c
  else foldl (λ c '(node, n),
         if (n <? 2)%nat then c
         else recordEventf (CREvent true "PodsCoLocated" "AntiAffinityObserve"
                              (colocated_note n component node (len pods))) c)
       c (range_of (node_counts pods)).

Definition minRequeueFloor : Duration := 100 * Millisecond.

Definition mergeRequeue (current hint : Duration) : Duration :=
  if hint <=? 0 then current
  else
    let hint := if hint <? minRequeueFloor then minRequeueFloor else hint in
    if (current =? 0) || (hint <? current) then hint else current.

(** ** One pass of [observeRolloutState]

    The two loads of the observer's snapshot and the two clock readings of the
    pass are separate inputs; a nil observer is nil in both loads. *)
Record observation := {
  in_pods : list Pod;
  in_sts : option StatefulSet;
  in_get : get_result;
  in_annotation : string;
  in_observer : option (Snapshot * Snapshot);
  in_now : Time * Time;
  in_patch : option string → bool
}.

(** The rollout-trigger step of the pass. *)
Definition trigger_dispatch (st : State) (guards : GuardCtx) (sig : result rolloutTriggerSignal)
    (c : ctl) : Duration * ctl :=
  match sig with
  | Err _ => (0, c)
  | Ok sig =>
      let '(requeue, c) :=
        if edge sig then
          let '((_, rq, _), c) := applyFSM st EventRolloutTrigger guards c in (mergeRequeue 0 rq, c)
        else (0, c) in
      if midRolloutChange sig then
        let '((_, rq, _), c) := applyFSM st EventSpecChanged guards c in (mergeRequeue requeue rq, c)
      else (requeue, c)
  end.

Definition observeRolloutState (cr : CRSpec) (i : observation) (c : ctl) :
    (State * observedFacts * Duration) * ctl :=
  let '(st, facts, s) := deriveState cr (fst <$> in_observer i) (in_now i).1 (in_pods i) (in_sts i) (percr c) in
  let c := set_percr s c in
  let c := maybeAuditManualRollout (in_annotation i) c in
  let '(sig, s) := rolloutTriggerEdge (in_get i) (percr c) in
  let c := set_percr s c in
  let guards := quorum_guards (f_QuorumOK facts) in
  let '(requeue, c) := trigger_dispatch st guards sig c in
  let '(rolled, s) := replicasRolledEdge st (percr c) in
  let c := set_percr s c in
  let c := if rolled then (applyFSM StateRolloutReplicas EventAllReplicasRolled guards c).2 else c in
  let c := fsmAbortAndRecoveryDispatch (in_patch i) st (f_QuorumOK facts) c in
  let c :=
    match in_observer i with
    | Some (_, snap) => fsmSwitchMasterDispatch st snap (in_now i).2 (in_pods i) c
    | None => c
    end in
  let c := warnOnSameNodeColocation (in_pods i) "valkey" c in
  ((st, facts, requeue), c).

End controller.

#[global] Arguments applyFSM : simpl never.
#[global] Arguments recordEventf : simpl never.

(** ** Lemmas: the pod scan and the latch *)
Definition replica (p : Pod) : bool := negb (isPrimary p).

Lemma scan_spec target pods s :
  let s' := foldl (scan_pod target) s pods in
  primarySeen s' = primarySeen s || existsb isPrimary pods ∧
  anyReplicaSeen s' = anyReplicaSeen s || existsb replica pods ∧
  replicasAtTarget s' = replicasAtTarget s && forallb (λ p, isPrimary p || pod_at target p) pods ∧
  replicaCount s' = replicaCount s + Z.of_nat (count replica pods) ∧
  replicasSettled s' = replicasSettled s && forallb (λ p, isPrimary p || pod_settled p) pods ∧
  primaryAtTarget s' =
    match last (List.filter isPrimary pods) with
    | Some p => pod_at target p
    | None => primaryAtTarget s
    end.
Proof.
  revert s. induction pods as [|p pods IH]; intros s; simpl.
  { rewrite !orb_false_r, !andb_true_r, Z.add_0_r. done. }
  destruct (IH (scan_pod target s p)) as (-> & -> & -> & -> & -> & ->). clear IH.
  unfold scan_pod, replica. destruct (isPrimary p) eqn:Hp; simpl.
  - split_and!; rewrite ?orb_true_r, ?orb_false_r; try done; try lia.
    destruct (List.filter isPrimary pods) as [|y l]; [done|].
    change (last (p :: y :: l)) with (last (y :: l)).
    destruct (last (y :: l)) eqn:E; [done|]. by apply last_None in E.
  - split_and!; rewrite ?orb_true_r; try done; try lia.
    + destruct (pod_at target p); simpl; [done|]. by rewrite andb_false_r.
    + destruct (pod_settled p); simpl; [done|]. by rewrite andb_false_r.
Qed.

Lemma existsb_count {A} (f : A → bool) l : existsb f l = (0 <? count f l)%nat.
Proof. induction l as [|x l IH]; simpl; [done|]. by destruct (f x). Qed.

Lemma existsb_last_filter {A} (f : A → bool) l :
  existsb f l = bool_decide (is_Some (last (List.filter f l))).
Proof.
  induction l as [|x l IH]; [done|]. simpl. destruct (f x) eqn:Hx; simpl; [|done].
  symmetry. apply bool_decide_eq_true. destruct (List.filter f l) as [|y l']; [by eexists|].
  change (last (x :: y :: l')) with (last (y :: l')). rewrite last_is_Some. done.
Qed.

Lemma no_primary_replica pods :
  pods ≠ [] → existsb isPrimary pods = false → existsb replica pods = true.
Proof. destruct pods as [|p pods]; [done|]. simpl. unfold replica. by destruct (isPrimary p). Qed.

Lemma failoverLatchActive_pure now addr epoch s :
  (failoverLatchActive now addr epoch s).1 = failoverLatchActivePure now addr epoch s.
Proof. unfold failoverLatchActive, failoverLatchActivePure. by repeat case_match. Qed.

(** The latch is the only field the read may change, and only to drop it. *)
Lemma failoverLatchActive_state now addr epoch s :
  (failoverLatchActive now addr epoch s).2 =
    (if failoverLatchActivePure now addr epoch s then s else set_latch None s).
Proof.
  unfold failoverLatchActive, failoverLatchActivePure.
  destruct (failoverLatch s) as [l|] eqn:Hl; [by case_match|]. by destruct s; simpl in *; subst.
Qed.

(** The address and the epoch [deriveState] hands to the latch. *)
Definition derive_view (cr : CRSpec) (snap : option Snapshot) : bool * string * Z :=
  match snap with
  | Some sn =>
      if negb (bool_decide (spec_Mode cr = ModeStandalone)) && Present sn
      then (Observer.QuorumOK (Primary sn), Addr (Primary sn), Epoch (Primary sn))
      else (false, "", 0)
  | None => (false, "", 0)
  end.

Definition derive_latch (cr : CRSpec) (snap : option Snapshot) (now : Time) (s : perCRState) : bool :=
  let '(_, addr, epoch) := derive_view cr snap in failoverLatchActivePure now addr epoch s.

Definition state_of (x : State * observedFacts * perCRState) : State := x.1.1.
Definition facts_of (x : State * observedFacts * perCRState) : observedFacts := x.1.2.

Lemma handoff_decision standalone quorumOK inFlight pods target cr :
  pods ≠ [] →
  let sc := foldl (scan_pod target) scan_init pods in
  let pr := primarySeen sc && primaryAtTarget sc in
  let ar := negb (anyReplicaSeen sc) || replicasAtTarget sc in
  let ready := replicasSettled sc && (replicaCount sc =? Z.max (spec_Replicas cr - 1) 0) in
  (if negb (primarySeen sc) && anyReplicaSeen sc then StateBootstrap
   else deriveStateFromFacts
     {| IsStandalone := standalone; PodCount := len pods; f_QuorumOK := quorumOK;
        FailoverInFlight := inFlight; PrimaryAtTargetRevision := pr;
        AllReplicasAtTargetRevision := ar; AllPodsAtTargetRevision := pr && ar;
        ReplicasReadyForHandoff := ready |}) = StateRolloutPrimary ↔
  standalone = false ∧ quorumOK = true ∧ inFlight = false ∧
  (∃ p, last (List.filter isPrimary pods) = Some p ∧ pod_at target p = false) ∧
  forallb (λ p, isPrimary p || pod_at target p) pods = true ∧
  forallb (λ p, isPrimary p || pod_settled p) pods = true ∧
  Z.of_nat (count replica pods) = Z.max (spec_Replicas cr - 1) 0.
Proof.
  intros Hne. cbv zeta.
  destruct (scan_spec target pods scan_init) as (-> & -> & -> & -> & -> & ->). simpl.
  rewrite Z.add_0_l.
  assert ((len pods =? 0) = false) as Hlen.
  { apply Z.eqb_neq. unfold len. destruct pods; [done|]. simpl. lia. }
  unfold deriveStateFromFacts; simpl. rewrite Hlen.
  assert (existsb replica pods = false → forallb (λ p, isPrimary p || pod_at target p) pods = true) as Hvac.
  { clear. intros H. rewrite forallb_forall. intros p Hp.
    destruct (isPrimary p) eqn:E; [done|]. exfalso.
    assert (existsb replica pods = true) as Ht by
      (apply existsb_exists; exists p; unfold replica; rewrite E; done). congruence. }
  pose proof (no_primary_replica pods Hne) as Hrep.
  pose proof (existsb_last_filter isPrimary pods) as Hlast.
  destruct (last (List.filter isPrimary pods)) as [p|] eqn:El.
  - rewrite bool_decide_eq_true_2 in Hlast by by eexists. rewrite Hlast. simpl.
    destruct (Z.eqb_spec (Z.of_nat (count replica pods)) (Z.max (spec_Replicas cr - 1) 0)) as [Hc|Hc];
    destruct standalone, quorumOK, inFlight, (pod_at target p) eqn:Ep; simpl;
      destruct (existsb replica pods); simpl;
      destruct (forallb (λ p, isPrimary p || pod_at target p) pods);
      destruct (forallb (λ p, isPrimary p || pod_settled p) pods); simpl;
      first
        [ by discriminate (Hvac eq_refl)
        | by (split; [discriminate | intros (?&?&?&(q&[= <-]&?)&?&?&?); congruence])
        | by (split; [intros _; split_and!; eauto | done]) ].
  - rewrite bool_decide_eq_false_2 in Hlast by (intros [? ?]; done).
    rewrite Hlast, (Hrep Hlast). simpl.
    split; [discriminate|]. by intros (_ & _ & _ & (q & [=] & _) & _).
Qed.

(** Outside the two early returns [deriveState] is the decision table over the
    scan of a non-empty pod list. *)
Lemma deriveState_pods cr snap now pods sts s :
  pods ≠ [] →
  let '(q, _, _) := derive_view cr snap in
  let sc := foldl (scan_pod (UpdateRevision sts)) scan_init pods in
  let pr := primarySeen sc && primaryAtTarget sc in
  let ar := negb (anyReplicaSeen sc) || replicasAtTarget sc in
  let f :=
    {| IsStandalone := bool_decide (spec_Mode cr = ModeStandalone); PodCount := len pods;
       f_QuorumOK := q; FailoverInFlight := derive_latch cr snap now s;
       PrimaryAtTargetRevision := pr; AllReplicasAtTargetRevision := ar;
       AllPodsAtTargetRevision := pr && ar;
       ReplicasReadyForHandoff := replicasSettled sc && (replicaCount sc =? Z.max (spec_Replicas cr - 1) 0) |} in
  facts_of (deriveState cr snap now pods (Some sts) s) = f ∧
  state_of (deriveState cr snap now pods (Some sts) s) =
    (if negb (primarySeen sc) && anyReplicaSeen sc then StateBootstrap else deriveStateFromFacts f).
Proof.
  intros Hne. unfold deriveState, derive_latch. fold (derive_view cr snap).
  destruct (derive_view cr snap) as [[q addr] epoch].
  pose proof (failoverLatchActive_pure now addr epoch s) as Hl.
  destruct (failoverLatchActive now addr epoch s) as [b s'] eqn:E. simpl in Hl. subst b.
  assert ((len pods =? 0) = false) as ->.
  { apply Z.eqb_neq. unfold len. destruct pods; [done|]. simpl. lia. }
  by destruct (negb _ && _).
Qed.

Lemma deriveState_no_pods cr snap now pods sts s :
  sts = None ∨ pods = [] → state_of (deriveState cr snap now pods sts s) = StateBootstrap.
Proof.
  intros H. unfold deriveState. fold (derive_view cr snap).
  destruct (derive_view cr snap) as [[q addr] epoch].
  destruct (failoverLatchActive now addr epoch s) as [b s']. by destruct H as [-> | ->]; destruct sts || done.
Qed.

(** C26: The hand-off state is derived exactly when it is safe to hand off.  [deriveState]
    answers RolloutPrimary if and only if the CR is not standalone, the observer has a
    snapshot with quorum, no failover latch is active for it, the StatefulSet exists, the
    (last) pod labelled primary is not at the target revision, every pod not labelled
    primary is at the target revision, not terminating, Ready and replication-healthy, and there are
    exactly [replicas - 1] of them. *)
Theorem derive_rollout_primary_iff cr snap now pods sts s :
  state_of (deriveState cr snap now pods sts s) = StateRolloutPrimary ↔
  ∃ sn sset p,
    snap = Some sn ∧ sts = Some sset ∧ spec_Mode cr ≠ ModeStandalone ∧
    Present sn = true ∧ Observer.QuorumOK (Primary sn) = true ∧
    failoverLatchActivePure now (Addr (Primary sn)) (Epoch (Primary sn)) s = false ∧
    last (List.filter isPrimary pods) = Some p ∧ pod_at (UpdateRevision sset) p = false ∧
    (∀ r, r ∈ pods → isPrimary r = false →
       pod_at (UpdateRevision sset) r = true ∧ pod_DeletionTimestamp r = None ∧
       podReady r = true ∧ podReplicationHealthy r = true) ∧
    Z.of_nat (count replica pods) = Z.max (spec_Replicas cr - 1) 0.
Proof.
  destruct sts as [sset|].
  2: { rewrite deriveState_no_pods by auto. naive_solver. }
  destruct (decide (pods = [])) as [->|Hne].
  { rewrite deriveState_no_pods by auto. split; [done|]. naive_solver. }
  pose proof (deriveState_pods cr snap now pods sset s Hne) as H.
  unfold derive_latch in H.
  destruct (derive_view cr snap) as [[q addr] epoch] eqn:Hv. destruct H as [_ ->].
  rewrite (handoff_decision _ q _ pods (UpdateRevision sset) cr Hne).
  assert (∀ r, r ∈ pods → isPrimary r = false → pod_settled r = true ↔
    r ∈ pods ∧ pod_DeletionTimestamp r = None ∧ podReady r = true ∧ podReplicationHealthy r = true) as Hset.
  { intros r Hr _. unfold pod_settled. rewrite negb_true_iff, !orb_false_iff, !negb_false_iff.
    rewrite bool_decide_eq_false, <- eq_None_not_Some. naive_solver. }
  rewrite !forallb_forall. unfold derive_view in Hv. split.
  - intros (Hs & Hq & Hl & (p & Hp & Hat) & Ha & Hst & Hc).
    apply bool_decide_eq_false in Hs.
    destruct snap as [sn|]; [|simplify_eq].
    rewrite bool_decide_eq_false_2 in Hv by done. simpl in Hv.
    destruct (Present sn) eqn:Hpre; simplify_eq.
    exists sn, sset, p. split_and!; try done.
    intros r Hr Hnp. rewrite list_elem_of_In in Hr. specialize (Ha r Hr). specialize (Hst r Hr).
    rewrite Hnp in Ha, Hst. simpl in Ha, Hst. rewrite <- list_elem_of_In in Hr.
    apply (Hset r Hr Hnp) in Hst. naive_solver.
  - intros (sn & sset' & p & -> & [= <-] & Hs & Hpre & Hq & Hl & Hp & Hat & Hall & Hc).
    rewrite bool_decide_eq_false_2 in Hv by done. rewrite Hpre in Hv. simpl in Hv. simplify_eq.
    rewrite bool_decide_eq_false_2 by done. split_and!; try done; [by eauto|..];
      intros r Hr; destruct (isPrimary r) eqn:Hnp; try done; simpl;
      rewrite <- list_elem_of_In in Hr; [naive_solver|].
    apply (Hset r Hr Hnp). naive_solver.
Qed.

(** The decision table's range: the states entered only by transitions of the
    machine are never derived. *)
Lemma deriveState_range cr snap now pods sts s :
  state_of (deriveState cr snap now pods sts s) ∈
    [StateBootstrap; StateSteady; StateDegraded; StateFailoverInFlight;
     StateRolloutReplicas; StateRolloutPrimary].
Proof.
  assert (∀ f, deriveStateFromFacts f ∈ [StateBootstrap; StateSteady; StateDegraded;
    StateFailoverInFlight; StateRolloutReplicas; StateRolloutPrimary]) as Hf.
  { intros f. unfold deriveStateFromFacts. repeat case_match; rewrite list_elem_of_In; simpl; tauto. }
  destruct sts as [sset|].
  2: { rewrite deriveState_no_pods by auto. left. }
  destruct (decide (pods = [])) as [->|Hne].
  { rewrite deriveState_no_pods by auto. left. }
  pose proof (deriveState_pods cr snap now pods sset s Hne) as H.
  destruct (derive_view cr snap) as [[q addr] epoch]. destruct H as [_ ->].
  destruct (negb _ && _); [left | apply Hf].
Qed.

(** Between the strip of the primary label and the election's end no pod is labelled
    primary, and there the derived state is Bootstrap even though the failover latch is
    active and the facts say so: the latch keeps the critical section closed
    ([IsFailoverInFlight]) but does not turn the derived state into FailoverInFlight. *)
Theorem stripped_topology_derives_bootstrap cr sn now pods sset s :
  spec_Mode cr ≠ ModeStandalone → Present sn = true → pods ≠ [] →
  countPrimaryLabeledPods pods = 0%nat →
  failoverLatchActivePure now (Addr (Primary sn)) (Epoch (Primary sn)) s = true →
  let x := deriveState cr (Some sn) now pods (Some sset) s in
  state_of x = StateBootstrap ∧ FailoverInFlight (facts_of x) = true ∧
  IsFailoverInFlight (Some sn) now (set_lastState (state_of x) x.2) = true.
Proof.
  intros Hm Hp Hne Hc Hl x.
  pose proof (deriveState_pods cr (Some sn) now pods sset s Hne) as H.
  unfold derive_latch, derive_view in H. rewrite bool_decide_eq_false_2, Hp in H by done. simpl in H.
  fold x in H. destruct H as [Hf Hs].
  destruct (scan_spec (UpdateRevision sset) pods scan_init) as (Hps & Hrs & _).
  assert (existsb isPrimary pods = false) as Hex.
  { rewrite existsb_count. unfold countPrimaryLabeledPods in Hc. by rewrite Hc. }
  rewrite Hps, Hrs, Hex, (no_primary_replica pods Hne Hex) in Hs. simpl in Hs.
  rewrite Hs, Hf. split_and!; [done|exact Hl|].
  assert (x.2 = s) as ->.
  { unfold x, deriveState. rewrite bool_decide_eq_false_2, Hp by done. simpl.
    pose proof (failoverLatchActive_state now (Addr (Primary sn)) (Epoch (Primary sn)) s) as Hst.
    rewrite Hl in Hst.
    destruct (failoverLatchActive now (Addr (Primary sn)) (Epoch (Primary sn)) s) as [b s'].
    simpl in Hst. subst s'. by repeat case_match. }
  unfold IsFailoverInFlight, observedPrimaryAddrEpoch. rewrite Hp. simpl.
  change (failoverLatchActivePure now (Addr (Primary sn)) (Epoch (Primary sn))
            (set_lastState StateBootstrap s)) with
    (failoverLatchActivePure now (Addr (Primary sn)) (Epoch (Primary sn)) s).
  by rewrite Hl.
Qed.

(** ** Runs of passes

    Each pass starts from the CR as the API server stores it. *)
Section runs.
Context {R : MapRange} (cr : CRSpec).

Definition reload (c : ctl) : ctl := set_status (stored c) (stored c) c.

Definition pass (i : observation) (c : ctl) : (State * observedFacts * Duration) * ctl :=
  observeRolloutState (Some NewMachine) true cr i (reload c).

Fixpoint observe_run (ins : list observation) (c : ctl) : list State * ctl :=
  match ins with
  | [] => ([], c)
  | i :: ins =>
      let x := pass i c in
      let y := observe_run ins x.2 in
      (x.1.1.1 :: y.1, y.2)
  end.

(** The number of passes that derive RolloutPrimary right after one that did not. *)
Fixpoint entries (was : bool) (sts : list State) : nat :=
  match sts with
  | [] => 0
  | st :: sts =>
      let inside := bool_decide (st = StateRolloutPrimary) in
      ((if inside && negb was then 1 else 0) + entries inside sts)%nat
  end.

Definition has_reason (r : string) (e : event) : bool :=
  match e with FsmEvent r' _ _ _ => bool_decide (r' = r) | _ => false end.

Definition emitted (r : string) (c : ctl) : nat := count (has_reason r) (recorded c).

Lemma emitted_record r e c :
  emitted r (record e c) = (emitted r c + if has_reason r e then 1 else 0)%nat.
Proof. unfold emitted. simpl. rewrite count_app. simpl. by destruct (has_reason r e). Qed.

(** A row with a given reason fixes the event it is applied to. *)
Definition reason_only_on (r : string) (e : Event) : bool :=
  forallb (λ t, negb (bool_decide (EventReason (Effect t) = r)) || bool_decide (On t = e)) NewMachine.

Lemma Apply_row m st ev g next side :
  Apply m st ev g = (next, side, true) → ∃ t, t ∈ m ∧ From t = st ∧ On t = ev ∧ Effect t = side.
Proof.
  induction m as [|t m IH]; simpl; [done|].
  destruct (bool_decide (From t = st)) eqn:H1, (bool_decide (On t = ev)) eqn:H2; simpl;
    try (intros H; apply IH in H; destruct H as (t' & ? & ?); exists t'; split; [by right|done]).
  apply bool_decide_eq_true in H1, H2.
  destruct (match Guard t with None => true | Some g0 => g0 g end).
  - intros [= <- <-]. exists t. split; [left|done].
  - intros H. apply IH in H. destruct H as (t' & ? & ?). exists t'. split; [by right|done].
Qed.

Lemma applyFSM_emitted r st ev g c e0 :
  reason_only_on r e0 = true → ev ≠ e0 →
  emitted r (applyFSM (Some NewMachine) true st ev g c).2 = emitted r c.
Proof.
  intros Hr Hne. unfold applyFSM.
  destruct (Apply NewMachine st ev g) as [[next side] [|]] eqn:E; [|done]. simpl.
  case_bool_decide as Hs; [done|]. rewrite emitted_record. simpl.
  case_bool_decide as Heq; [|lia].
  apply Apply_row in E as (t & Ht & _ & Hon & Heff).
  unfold reason_only_on in Hr. rewrite forallb_forall in Hr.
  apply list_elem_of_In in Ht. specialize (Hr t Ht). rewrite Heff in Hr.
  rewrite bool_decide_eq_true_2 in Hr by done. simpl in Hr.
  apply bool_decide_eq_true in Hr. congruence.
Qed.

(** *** What each dispatch leaves alone *)
Lemma applyFSM_frame m b st ev g c :
  let c' := (applyFSM m b st ev g c).2 in
  percr c' = percr c ∧ view c' = view c ∧ stored c' = stored c.
Proof.
  unfold applyFSM, recordEventf. destruct m as [m|]; [|done].
  destruct (Apply m st ev g) as [[next side] [|]]; [|done]. simpl.
  case_bool_decide; [done|]. by destruct b.
Qed.

Lemma clearSuspendedFrom_frame p c :
  percr (clearSuspendedFrom p c) = percr c ∧ recorded (clearSuspendedFrom p c) = recorded c.
Proof. unfold clearSuspendedFrom, patch_suspended. by repeat case_match. Qed.

Lemma stampSuspendedFrom_frame p v c :
  percr (stampSuspendedFrom p v c) = percr c ∧ recorded (stampSuspendedFrom p v c) = recorded c.
Proof. unfold stampSuspendedFrom, patch_suspended. by repeat case_match. Qed.

Lemma warn_frame pods comp c :
  let c' := warnOnSameNodeColocation true pods comp c in
  percr c' = percr c ∧ view c' = view c ∧ stored c' = stored c ∧ ∀ r, emitted r c' = emitted r c.
Proof.
  unfold warnOnSameNodeColocation. case_match; [done|]. clear.
  generalize (range_of (node_counts pods)) as l. intros l. revert c.
  induction l as [|[node n] l IH]; intros c; simpl; [done|].
  destruct (n <? 2)%nat; [apply IH|].
  destruct (IH (recordEventf true (CREvent true "PodsCoLocated" "AntiAffinityObserve"
    (colocated_note n comp node (len pods))) c)) as (H1 & H2 & H3 & H).
  split_and!; [exact H1|exact H2|exact H3|]. intros r. etrans; [apply H|].
  unfold recordEventf. rewrite emitted_record. simpl. lia.
Qed.

Lemma audit_frame cur c :
  let c' := maybeAuditManualRollout cur c in
  lastState (percr c') = lastState (percr c) ∧
  lastWasReplicasRolled (percr c') = lastWasReplicasRolled (percr c) ∧
  view c' = view c ∧ stored c' = stored c ∧ ∀ r, emitted r c' = emitted r c.
Proof.
  unfold maybeAuditManualRollout. repeat case_match; simpl; split_and!; try done.
  intros r. rewrite emitted_record. simpl. unfold emitted; simpl. lia.
Qed.

Lemma switch_frame st snap now pods c r e0 :
  reason_only_on r e0 = true → e0 ≠ EventSwitchMaster →
  let c' := fsmSwitchMasterDispatch (Some NewMachine) true st snap now pods c in
  lastState (percr c') = lastState (percr c) ∧
  lastWasReplicasRolled (percr c') = lastWasReplicasRolled (percr c) ∧
  view c' = view c ∧ stored c' = stored c ∧ emitted r c' = emitted r c.
Proof.
  intros Hr He. unfold fsmSwitchMasterDispatch. case_match; [done|].
  pose proof (failoverLatchActive_state now (Addr (Primary snap)) (Epoch (Primary snap)) (percr c)) as Hs.
  destruct (failoverLatchActive _ _ _ _) as [b s]. simpl in Hs.
  assert (lastState s = lastState (percr c) ∧
          lastWasReplicasRolled s = lastWasReplicasRolled (percr c)) as [Hl Hw]
    by (rewrite Hs; by case_match).
  destruct (observeExternalSwitchMaster snap pods b) as [a|]; [|by rewrite <- Hl, <- Hw].
  unfold switchMasterEdgeFire. change (percr (set_percr s c)) with s.
  destruct (bool_decide (switchMasterEdge s = a)); cbv beta iota zeta delta [negb];
    [by rewrite <- Hl, <- Hw|].
  match goal with |- context [applyFSM ?m ?b ?st ?e ?g ?c] =>
    destruct (applyFSM_frame m b st e g c) as (-> & -> & ->) end.
  rewrite (applyFSM_emitted r _ _ _ _ e0) by (done || congruence).
  by rewrite <- Hl, <- Hw.
Qed.

Lemma abort_percr p st q c :
  percr (fsmAbortAndRecoveryDispatch (Some NewMachine) true p st q c) = set_lastState st (percr c).
Proof.
  unfold fsmAbortAndRecoveryDispatch, fsmTransitionEdge.
  set (c1 := if bool_decide (st = StateDegraded) then _ else _).
  assert (percr c1 = set_lastState st (percr c)) as H1.
  { unfold c1. case_match; [|done]. case_match; try done;
      rewrite ?(proj1 (applyFSM_frame _ _ _ _ _ _)), ?(proj1 (stampSuspendedFrom_frame _ _ _)); done. }
  clearbody c1.
  set (c2 := if _ && _ then _ else _).
  assert (percr c2 = set_lastState st (percr c)) as H2.
  { unfold c2. case_match; [|done].
    pose proof (applyFSM_frame (Some NewMachine) true StateDegraded EventRecovered
      (with_suspended (readSuspendedFromPending c1) (quorum_guards q)) c1) as Hf.
    destruct (applyFSM _ _ _ _ _ _) as [[[x y] [|]] c3]; simpl in Hf; destruct Hf as [Hf _].
    - rewrite (proj1 (clearSuspendedFrom_frame _ _)). congruence.
    - congruence. }
  clearbody c2. case_match; [|done]. by rewrite (proj1 (clearSuspendedFrom_frame _ _)).
Qed.

Lemma emitted_recorded r c c' : recorded c' = recorded c → emitted r c' = emitted r c.
Proof. unfold emitted. by intros ->. Qed.

Lemma abort_emitted p st q c r e0 :
  reason_only_on r e0 = true →
  e0 ≠ EventReconcileTick → e0 ≠ EventQuorumLost → e0 ≠ EventRecovered →
  emitted r (fsmAbortAndRecoveryDispatch (Some NewMachine) true p st q c) = emitted r c.
Proof.
  intros Hr H1 H2 H3. unfold fsmAbortAndRecoveryDispatch, fsmTransitionEdge.
  set (c1 := if bool_decide (st = StateDegraded) then _ else _).
  assert (emitted r c1 = emitted r c) as E1.
  { unfold c1. case_match; [|done]. case_match; try done;
      rewrite (applyFSM_emitted r _ _ _ _ e0) by (done || congruence);
      rewrite ?(emitted_recorded r _ _ (proj2 (stampSuspendedFrom_frame _ _ _))); done. }
  clearbody c1.
  set (c2 := if _ && _ then _ else _).
  assert (emitted r c2 = emitted r c1) as E2.
  { unfold c2. case_match; [|done].
    pose proof (applyFSM_emitted r StateDegraded EventRecovered
      (with_suspended (readSuspendedFromPending c1) (quorum_guards q)) c1 e0 Hr ltac:(congruence)) as Hf.
    destruct (applyFSM _ _ _ _ _ _) as [[[x y] [|]] c3]; simpl in Hf; [|done].
    by rewrite (emitted_recorded r _ _ (proj2 (clearSuspendedFrom_frame _ _))). }
  clearbody c2. rewrite <- E1, <- E2. case_match; [|done].
  apply emitted_recorded, (proj2 (clearSuspendedFrom_frame _ _)).
Qed.

Lemma derive_percr snap now pods sts s :
  let s' := (deriveState cr snap now pods sts s).2 in
  lastState s' = lastState s ∧ lastWasReplicasRolled s' = lastWasReplicasRolled s.
Proof.
  unfold deriveState. fold (derive_view cr snap). destruct (derive_view cr snap) as [[q a] ep].
  pose proof (failoverLatchActive_state now a ep s) as Hs.
  destruct (failoverLatchActive now a ep s) as [b s']. simpl in Hs.
  assert (lastState s' = lastState s ∧ lastWasReplicasRolled s' = lastWasReplicasRolled s)
    by (rewrite Hs; by case_match).
  by repeat case_match.
Qed.

Lemma trigger_percr g s :
  let s' := (rolloutTriggerEdge g s).2 in
  lastState s' = lastState s ∧ lastWasReplicasRolled s' = lastWasReplicasRolled s.
Proof. unfold rolloutTriggerEdge. by destruct g. Qed.

(** The pass up to the abort/recovery dispatch, and what follows that dispatch. *)
Definition finish (i : observation) (st : State) (c : ctl) : ctl :=
  warnOnSameNodeColocation true (in_pods i) "valkey"
    match in_observer i with
    | Some (_, snap) => fsmSwitchMasterDispatch (Some NewMachine) true st snap (in_now i).2 (in_pods i) c
    | None => c
    end.

Lemma finish_frame i st c r e0 :
  reason_only_on r e0 = true → e0 ≠ EventSwitchMaster →
  let c' := finish i st c in
  lastState (percr c') = lastState (percr c) ∧
  lastWasReplicasRolled (percr c') = lastWasReplicasRolled (percr c) ∧
  view c' = view c ∧ stored c' = stored c ∧ emitted r c' = emitted r c.
Proof.
  intros Hr He. unfold finish.
  match goal with |- context [warnOnSameNodeColocation true ?p ?k ?c] =>
    destruct (warn_frame p k c) as (-> & -> & -> & ->) end.
  destruct (in_observer i) as [[sn1 sn2]|]; [|done]. by apply (switch_frame _ _ _ _ _ r e0).
Qed.

Lemma rolled_emitted r g c :
  emitted r (applyFSM (Some NewMachine) true StateRolloutReplicas EventAllReplicasRolled g c).2 =
    (emitted r c + if bool_decide ("ReplicasRolled" = r) then 1 else 0)%nat.
Proof.
  change (applyFSM (Some NewMachine) true StateRolloutReplicas EventAllReplicasRolled g c).2
    with (record (FsmEvent "ReplicasRolled" StateRolloutReplicas EventAllReplicasRolled StateRolloutPrimary) c).
  rewrite emitted_record. done.
Qed.

Lemma trigger_dispatch_frame st g sig c :
  let c' := (trigger_dispatch (Some NewMachine) true st g sig c).2 in
  percr c' = percr c ∧ view c' = view c ∧ stored c' = stored c ∧
  ∀ r e0, reason_only_on r e0 = true → e0 ≠ EventRolloutTrigger → e0 ≠ EventSpecChanged →
    emitted r c' = emitted r c.
Proof.
  unfold trigger_dispatch. destruct sig as [sig|e]; [|done].
  set (x := if edge sig then _ else _).
  assert (percr x.2 = percr c ∧ view x.2 = view c ∧ stored x.2 = stored c ∧
    ∀ r e0, reason_only_on r e0 = true → e0 ≠ EventRolloutTrigger → emitted r x.2 = emitted r c)
    as (F1 & F2 & F3 & E1).
  { unfold x. destruct (edge sig); [|done].
    pose proof (applyFSM_frame (Some NewMachine) true st EventRolloutTrigger g c) as (F1 & F2 & F3).
    pose proof (λ r, applyFSM_emitted r st EventRolloutTrigger g c) as E1.
    destruct (applyFSM _ _ _ _ _ _) as [[[n rq] b] c3]. simpl in *. split_and!; try done.
    intros r e0 Hr H1. apply (E1 r e0); congruence. }
  destruct x as [rq c1]. simpl in *. destruct (midRolloutChange sig); [|by eauto 10].
  pose proof (applyFSM_frame (Some NewMachine) true st EventSpecChanged g c1) as (G1 & G2 & G3).
  pose proof (λ r, applyFSM_emitted r st EventSpecChanged g c1) as E2.
  destruct (applyFSM _ _ _ _ _ _) as [[[n rq'] b] c3]. simpl in *.
  split_and!; [congruence..|]. intros r e0 Hr H1 H2.
  rewrite (E2 r e0) by (done || congruence). by apply (E1 r e0).
Qed.

Lemma observe_split i c :
  ∃ st facts rq c1,
    observeRolloutState (Some NewMachine) true cr i c =
      ((st, facts, rq),
       finish i st (fsmAbortAndRecoveryDispatch (Some NewMachine) true (in_patch i) st (f_QuorumOK facts) c1)) ∧
    st = state_of (deriveState cr (fst <$> in_observer i) (in_now i).1 (in_pods i) (in_sts i) (percr c)) ∧
    lastState (percr c1) = lastState (percr c) ∧
    lastWasReplicasRolled (percr c1) = bool_decide (st = StateRolloutPrimary) ∧
    view c1 = view c ∧ stored c1 = stored c ∧
    (∀ r e0, reason_only_on r e0 = true → e0 ≠ EventRolloutTrigger → e0 ≠ EventSpecChanged →
       emitted r c1 = (emitted r c +
         if bool_decide (st = StateRolloutPrimary) && negb (lastWasReplicasRolled (percr c)) &&
            bool_decide ("ReplicasRolled" = r) then 1 else 0)%nat).
Proof.
  unfold observeRolloutState.
  pose proof (derive_percr (fst <$> in_observer i) (in_now i).1 (in_pods i) (in_sts i) (percr c)) as Hd.
  destruct (deriveState _ _ _ _ _ _) as [[st facts] s1]. simpl in Hd. destruct Hd as [Hd1 Hd2].
  pose proof (audit_frame (in_annotation i) (set_percr s1 c)) as Ha.
  set (c1 := maybeAuditManualRollout (in_annotation i) (set_percr s1 c)) in *. clearbody c1.
  destruct Ha as (Ha1 & Ha2 & Ha3 & Ha4 & Ha5).
  pose proof (trigger_percr (in_get i) (percr c1)) as Ht.
  destruct (rolloutTriggerEdge (in_get i) (percr c1)) as [sig s2]. simpl in Ht. destruct Ht as [Ht1 Ht2].
  set (c2 := set_percr s2 c1) in *.
  pose proof (trigger_dispatch_frame st (quorum_guards (f_QuorumOK facts)) sig c2) as Hm.
  destruct (trigger_dispatch _ _ st _ sig c2) as [rq c3]. simpl in Hm.
  destruct Hm as (Hc3 & Hv3 & Hs3 & He3). change (percr c2) with s2 in Hc3.
  change (view c2) with (view c1) in Hv3. change (stored c2) with (stored c1) in Hs3.
  unfold replicasRolledEdge. cbv beta iota zeta.
  set (rolled := bool_decide (st = StateRolloutPrimary) && negb (lastWasReplicasRolled (percr c3))).
  set (c4 := set_percr (set_rolled (bool_decide (st = StateRolloutPrimary)) (percr c3)) c3).
  set (c5 := if rolled then _ else c4).
  assert (percr c5 = percr c4 ∧ view c5 = view c3 ∧ stored c5 = stored c3 ∧
    ∀ r, emitted r c5 = (emitted r c3 + if rolled && bool_decide ("ReplicasRolled" = r) then 1 else 0)%nat)
    as (P5 & V5 & S5 & E5).
  { unfold c5. destruct rolled; [|split_and!; try done; intros r; unfold emitted; simpl; lia].
    match goal with |- context [applyFSM ?m ?b ?st ?e ?g ?c] =>
      destruct (applyFSM_frame m b st e g c) as (-> & -> & ->) end.
    split_and!; try done. intros r. rewrite rolled_emitted. done. }
  clearbody c5. exists st, facts, rq, c5. rewrite P5, V5, S5. subst c4. simpl.
  split_and!; try (done || congruence).
  { rewrite Hc3, Ht1, Ha1. exact Hd1. }
  { rewrite Hv3. exact Ha3. }
  { rewrite Hs3. exact Ha4. }
  intros r e0 Hr H1 H2. rewrite E5, (He3 r e0 Hr H1 H2). change (emitted r c2) with (emitted r c1). rewrite Ha5.
  assert (lastWasReplicasRolled (percr c3) = lastWasReplicasRolled (percr c)) as Hw
    by (rewrite Hc3, Ht2, Ha2; exact Hd2).
  unfold rolled. rewrite Hw. done.
Qed.

(** Over any sequence of reconcile passes, whatever the passes observe, the event
    ReplicasRolled is recorded exactly once per entry into the hand-off state: once for
    each pass that derives RolloutPrimary right after one that did not, never again while
    the state lasts, and again after a later roll. *)
Theorem replicas_rolled_once (ins : list observation) (c : ctl) :
  let '(sts, c') := observe_run ins c in
  emitted "ReplicasRolled" c' =
    (emitted "ReplicasRolled" c + entries (lastWasReplicasRolled (percr c)) sts)%nat.
Proof.
  revert c. induction ins as [|i ins IH]; intros c; simpl; [lia|].
  destruct (observe_split i (reload c)) as (st & facts & rq & c1 & Hobs & _ & _ & Hw & _ & _ & He).
  specialize (He "ReplicasRolled" EventAllReplicasRolled eq_refl ltac:(done) ltac:(done)).
  set (c2 := fsmAbortAndRecoveryDispatch (Some NewMachine) true (in_patch i) st (f_QuorumOK facts) c1) in *.
  destruct (finish_frame i st c2 "ReplicasRolled" EventAllReplicasRolled eq_refl ltac:(done))
    as (_ & Fw & _ & _ & Fe).
  unfold pass. rewrite Hobs. simpl.
  specialize (IH (finish i st c2)). destruct (observe_run ins (finish i st c2)) as [sts c']. simpl.
  rewrite IH, Fe, Fw. unfold c2. rewrite abort_percr.
  rewrite (abort_emitted _ _ _ _ "ReplicasRolled" EventAllReplicasRolled) by done.
  rewrite He. simpl. rewrite Hw, andb_true_r. simpl.
  change (emitted "ReplicasRolled" (reload c)) with (emitted "ReplicasRolled" c). lia.
Qed.

(** The invariant behind the dead recovery arm: no pending rollout is on record. *)
Definition no_pending (c : ctl) : Prop :=
  lastState (percr c) ≠ StateRolloutPending ∧
  suspended_of (view c) ≠ Some suspendedFromRolloutPending ∧
  suspended_of (stored c) ≠ Some suspendedFromRolloutPending.

Lemma patch_no_pending ok x c :
  x ≠ Some suspendedFromRolloutPending → no_pending c → no_pending (patch_suspended ok x c).
Proof. intros Hx (H1 & H2 & H3). unfold patch_suspended. destruct ok; done. Qed.

Lemma clear_no_pending p c : no_pending c → no_pending (clearSuspendedFrom p c).
Proof. intros H. unfold clearSuspendedFrom. case_match; [by apply patch_no_pending|done]. Qed.

Lemma stamp_no_pending p v c :
  v ≠ suspendedFromRolloutPending → no_pending c → no_pending (stampSuspendedFrom p v c).
Proof.
  intros Hv H. unfold stampSuspendedFrom. case_bool_decide; [done|].
  apply patch_no_pending; [congruence|done].
Qed.

Lemma applyFSM_no_pending m b st ev g c : no_pending c → no_pending (applyFSM m b st ev g c).2.
Proof. unfold no_pending. by destruct (applyFSM_frame m b st ev g c) as (-> & -> & ->). Qed.

#[local] Hint Resolve patch_no_pending clear_no_pending stamp_no_pending applyFSM_no_pending : velkir.

Lemma recovered_not_resumed g c :
  RolloutSuspendedFromPending g = false →
  emitted "RolloutResumed" (applyFSM (Some NewMachine) true StateDegraded EventRecovered g c).2 =
    emitted "RolloutResumed" c.
Proof.
  intros H. unfold applyFSM.
  destruct (Apply NewMachine StateDegraded EventRecovered g) as [[n side] [|]] eqn:E; [|done]. simpl.
  case_bool_decide; [done|]. unfold recordEventf. rewrite emitted_record. simpl.
  case_bool_decide as Hr; [|lia]. exfalso.
  destruct g as [q sb x1 x2 x3 x4 x5 x6 x7 x8 x9]. simpl in H. subst x8.
  destruct q, sb; vm_compute in E; simplify_eq.
Qed.

(** The recovery arm's tail, for any outcome of the machine. *)
Lemma clear_on_match p (x : (State * Duration * bool) * ctl) r :
  no_pending x.2 →
  let c := match x with
           | ((_, _, true), c) => clearSuspendedFrom p c
           | ((_, _, false), c) => c
           end in
  no_pending c ∧ emitted r c = emitted r x.2.
Proof.
  destruct x as [[[? ?] [|]] c]; simpl; intros H; [|done].
  split; [by auto with velkir|]. apply emitted_recorded, (proj2 (clearSuspendedFrom_frame _ _)).
Qed.

Lemma abort_no_pending p st q c :
  no_pending c → st ≠ StateRolloutPending →
  let c' := fsmAbortAndRecoveryDispatch (Some NewMachine) true p st q c in
  no_pending c' ∧ emitted "RolloutResumed" c' = emitted "RolloutResumed" c.
Proof.
  intros Hinv Hst. unfold fsmAbortAndRecoveryDispatch, fsmTransitionEdge.
  set (c1 := if bool_decide (st = StateDegraded) then _ else _).
  assert (no_pending c1 ∧ emitted "RolloutResumed" c1 = emitted "RolloutResumed" c) as [I1 E1].
  { assert (no_pending (set_percr (set_lastState st (percr c)) c)) as I0 by by destruct Hinv.
    unfold c1. case_match; [|done]. destruct Hinv as [Hprev _].
    destruct (lastState (percr c)); try done; (split; [apply applyFSM_no_pending; try done|
      rewrite (applyFSM_emitted "RolloutResumed" _ _ _ _ EventRecovered) by done;
      rewrite ?(emitted_recorded "RolloutResumed" _ _ (proj2 (stampSuspendedFrom_frame _ _ _))); done]).
    by auto with velkir. }
  clearbody c1.
  set (c2 := if _ && _ then _ else _).
  assert (no_pending c2 ∧ emitted "RolloutResumed" c2 = emitted "RolloutResumed" c) as [I2 E2].
  { unfold c2. case_match; [|done].
    assert (readSuspendedFromPending c1 = false) as -> by (apply bool_decide_eq_false; apply I1).
    rewrite <- E1, <- (recovered_not_resumed (with_suspended false (quorum_guards q)) c1 eq_refl).
    apply clear_on_match. auto with velkir. }
  clearbody c2. case_match; [|by split]. split; [by auto with velkir|].
  by rewrite (emitted_recorded "RolloutResumed" _ _ (proj2 (clearSuspendedFrom_frame _ _))).
Qed.

(** A rollout suspended while pending is never resumed as such.  The derivation never
    yields RolloutPending, so starting from a CR with no such record no sequence of passes
    ever stamps SuspendedFrom=RolloutPending, in memory or in the API server, and the
    recovery transition RolloutResumed (Degraded to RolloutPending) never fires. *)
Theorem pending_rollout_never_resumed (ins : list observation) (c : ctl) :
  no_pending c →
  let c' := (observe_run ins c).2 in
  no_pending c' ∧ emitted "RolloutResumed" c' = emitted "RolloutResumed" c.
Proof.
  revert c. induction ins as [|i ins IH]; intros c Hinv; [done|]. simpl.
  destruct (observe_split i (reload c)) as (st & facts & rq & c1 & Hobs & Hst & Hl & _ & Hv & Hs & He).
  specialize (He "RolloutResumed" EventRecovered eq_refl ltac:(done) ltac:(done)).
  replace (bool_decide ("ReplicasRolled" = "RolloutResumed")) with false in He by done.
  rewrite andb_false_r in He.
  assert (st ≠ StateRolloutPending) as Hnp.
  { intros ->. pose proof (deriveState_range cr (fst <$> in_observer i) (in_now i).1 (in_pods i)
      (in_sts i) (percr (reload c))) as Hr. rewrite <- Hst in Hr. by rewrite list_elem_of_In in Hr; simpl in Hr; naive_solver. }
  assert (no_pending c1) as I1.
  { unfold no_pending. rewrite Hl, Hv, Hs. destruct Hinv as (H1 & _ & H3). done. }
  destruct (abort_no_pending (in_patch i) st (f_QuorumOK facts) c1 I1 Hnp) as [I2 E2].
  set (c2 := fsmAbortAndRecoveryDispatch _ _ _ _ _ _) in *.
  destruct (finish_frame i st c2 "RolloutResumed" EventRecovered eq_refl ltac:(done))
    as (Fl & _ & Fv & Fs & Fe).
  unfold pass. rewrite Hobs. simpl.
  destruct (IH (finish i st c2)) as [HI HE].
  { unfold no_pending. by rewrite Fl, Fv, Fs. }
  split; [done|]. rewrite HE, Fe, E2, He.
  change (emitted "RolloutResumed" (reload c)) with (emitted "RolloutResumed" c). lia.
Qed.
End runs.

(** ** Concrete passes *)
Definition demo_pod (name ip role rev : string) : Pod :=
  {| pod_Name := name;
     pod_Labels := <[stsRevisionLabel := rev]> (if bool_decide (role = "") then ∅ else {[RoleLabel := role]});
     pod_DeletionTimestamp := None; pod_IP := ip; pod_NodeName := "node-" +:+ name;
     pod_Conditions := [("Ready", "True")]; pod_ReadinessGates := [] |}.
Definition demo_spec : CRSpec :=
  {| spec_Mode := ModeSentinel; spec_Replicas := 3; spec_MaxLagBytes := 10000 |}.
Definition demo_snap (quorum : bool) (addr : string) (epoch : Z) : Snapshot :=
  {| Present := true;
     Primary := {| Addr := addr; Epoch := epoch; Quorum := if quorum then QuorumStatusOK else QuorumStatusLost;
                   Observer.QuorumOK := quorum; UpdatedAt := 100 * Second; LastPolledAt := 100 * Second;
                   Src := SourcePoll; ODown := ∅; ODownPull := ∅ |} |}.
Definition demo_sts : StatefulSet := {| UpdateRevision := "r2"; CurrentRevision := "r1" |}.
Definition demo_pass (quorum : bool) (r0 r1 r2 : string) : observation :=
  {| in_pods := [demo_pod "v-0" "10.0.0.1" "primary" r0; demo_pod "v-1" "10.0.0.2" "replica" r1;
                 demo_pod "v-2" "10.0.0.3" "replica" r2];
     in_sts := Some demo_sts; in_get := GetOk demo_sts; in_annotation := "";
     in_observer := Some (demo_snap quorum "10.0.0.1:6379" 7, demo_snap quorum "10.0.0.1:6379" 7);
     in_now := (101 * Second, 101 * Second); in_patch := λ _, true |}.
Definition demo_ctl : ctl := {| percr := percr_zero; view := None; stored := None; recorded := [] |}.

(** A roll interrupted by a quorum loss: the stamp appears, and the hand-off is
    announced on both entries. *)
Example demo_run :
  let '(sts, c) := @observe_run range_forward demo_spec
    [demo_pass true "r1" "r2" "r1"; demo_pass false "r1" "r2" "r1"; demo_pass true "r1" "r2" "r2";
     demo_pass true "r1" "r2" "r2"] demo_ctl in
  sts = [StateRolloutReplicas; StateDegraded; StateRolloutPrimary; StateRolloutPrimary] ∧
  suspended_of (stored c) = Some suspendedFromRolloutReplicas ∧
  emitted "ReplicasRolled" c = 1%nat ∧ emitted "RolloutAbortedQuorumLost" c = 1%nat.
Proof. vm_compute. done. Qed.

Lemma pending_rollout_never_resumed_witness :
  no_pending demo_ctl ∧
  no_pending (@observe_run range_forward demo_spec
    [demo_pass true "r1" "r2" "r1"; demo_pass false "r1" "r2" "r1"] demo_ctl).2.
Proof.
  assert (no_pending demo_ctl) as H by (split_and!; done).
  split; [exact H|].
  apply (@pending_rollout_never_resumed range_forward demo_spec
    [demo_pass true "r1" "r2" "r1"; demo_pass false "r1" "r2" "r1"] demo_ctl H).
Defined.

Lemma stripped_topology_derives_bootstrap_witness :
  let pods := [demo_pod "v-0" "10.0.0.1" "" "r1"; demo_pod "v-1" "10.0.0.2" "replica" "r2"] in
  let s := failoverLatchSetWithDeadline "10.0.0.1:6379" 7 (300 * Second) percr_zero in
  state_of (deriveState demo_spec (Some (demo_snap true "10.0.0.1:6379" 7)) (101 * Second) pods
    (Some demo_sts) s) = StateBootstrap.
Proof.
  intros pods s.
  apply (stripped_topology_derives_bootstrap demo_spec (demo_snap true "10.0.0.1:6379" 7) (101 * Second)
    pods demo_sts s); [discriminate|reflexivity|discriminate|reflexivity|reflexivity].
Defined.
