(* ===== verification/LagChecker.v ===== *)
(** * Replication lag of a data-plane pod: [internal/valkey/lagchecker.go]

    [parseInfoReplication] folds the [key:value] lines of an [INFO replication]
    reply; int64 subtraction keeps its wrap-around. *)
From S2P Require Import Prelude GoStd.
Local Open Scope Z_scope.

Definition RoleMaster : string := "master".

Record LagState := {
  Role : string;
  LinkUp : bool;
  LagBytes : Z;
  MasterReplOffset : Z;
  HaveMasterOffset : bool;
  MasterHost : string;
  SlaveReplOffset : Z;
  HaveSlaveOffset : bool
}.

(** int64 wrap-around. *)
Definition wrap64 (z : Z) : Z := (z + 2 ^ 63) mod 2 ^ 64 - 2 ^ 63.

(** [strings.Cut] at a byte. *)
Definition Cut (s : string) (c : ascii) : option (string * string) :=
  match IndexByte c s with
  | None => None
  | Some i => Some (str_take i s, str_drop (S i) s)
  end.

Definition CR : ascii := "013"%char.
Definition LF : ascii := "010"%char.

(** [strings.TrimRight(line, CR)]. *)
Fixpoint TrimRightCR (s : string) : string :=
  match s with
  | EmptyString => ""
  | String c s =>
      match TrimRightCR s with
      | EmptyString => if bool_decide (c = CR) then "" else String c ""
      | t => String c t
      end
  end.

(** The loop variables. *)
Record info_acc := {
  i_role : string;
  i_linkUp : bool;
  i_masterHost : string;
  i_masterOff : Z;
  i_slaveOff : Z;
  i_haveMasterOff : bool;
  i_haveSlave : bool
}.
Definition info_init : info_acc :=
  {| i_role := ""; i_linkUp := false; i_masterHost := ""; i_masterOff := 0; i_slaveOff := 0;
     i_haveMasterOff := false; i_haveSlave := false |}.

(** The switch on the key. *)
Definition info_field (a : info_acc) (k v : string) : info_acc :=
  if bool_decide (k = "role") then
    {| i_role := v; i_linkUp := i_linkUp a; i_masterHost := i_masterHost a; i_masterOff := i_masterOff a;
       i_slaveOff := i_slaveOff a; i_haveMasterOff := i_haveMasterOff a; i_haveSlave := i_haveSlave a |}
  else if bool_decide (k = "master_host") then
    {| i_role := i_role a; i_linkUp := i_linkUp a; i_masterHost := v; i_masterOff := i_masterOff a;
       i_slaveOff := i_slaveOff a; i_haveMasterOff := i_haveMasterOff a; i_haveSlave := i_haveSlave a |}
  else if bool_decide (k = "master_link_status") then
    {| i_role := i_role a; i_linkUp := bool_decide (v = "up"); i_masterHost := i_masterHost a;
       i_masterOff := i_masterOff a; i_slaveOff := i_slaveOff a;
       i_haveMasterOff := i_haveMasterOff a; i_haveSlave := i_haveSlave a |}
  else if bool_decide (k = "master_repl_offset") then
    match ParseInt64 v with
    | None => a
    | Some n =>
        {| i_role := i_role a; i_linkUp := i_linkUp a; i_masterHost := i_masterHost a; i_masterOff := n;
           i_slaveOff := i_slaveOff a; i_haveMasterOff := true; i_haveSlave := i_haveSlave a |}
    end
  else if bool_decide (k = "slave_repl_offset") then
    match ParseInt64 v with
    | None => a
    | Some n =>
        {| i_role := i_role a; i_linkUp := i_linkUp a; i_masterHost := i_masterHost a;
           i_masterOff := i_masterOff a; i_slaveOff := n;
           i_haveMasterOff := i_haveMasterOff a; i_haveSlave := true |}
    end
  else a.

Definition info_line (a : info_acc) (line : string) : info_acc :=
  let line := TrimRightCR line in
  if bool_decide (line = "") || HasPrefix line "#" then a
  else match Cut line ":" with
  | None => a
  | Some (k, v) => info_field a k v
  end.

Definition parseInfoReplication (body : string) : LagState :=
  let a := foldl info_line info_init (Split body LF) in
  if bool_decide (i_role a = RoleMaster) then
    {| Role := i_role a; LinkUp := false; LagBytes := 0; MasterReplOffset := i_masterOff a;
       HaveMasterOffset := i_haveMasterOff a; MasterHost := ""; SlaveReplOffset := 0;
       HaveSlaveOffset := false |}
  else
    {| Role := i_role a; LinkUp := i_linkUp a;
       LagBytes := if i_haveSlave a && (i_slaveOff a <=? i_masterOff a)
                   then wrap64 (i_masterOff a - i_slaveOff a) else 0;
       MasterReplOffset := i_masterOff a; HaveMasterOffset := i_haveMasterOff a;
       MasterHost := i_masterHost a; SlaveReplOffset := i_slaveOff a;
       HaveSlaveOffset := i_haveSlave a |}.

(** ** Printing a reply, and lemmas on the line scanner *)
Definition crlf : string := String CR (String LF "").

(** The text a server sends for a list of fields. *)
Fixpoint info_lines (fs : list (string * string)) : string :=
  match fs with
  | [] => ""
  | (k, v) :: fs => k +:+ ":" +:+ v +:+ crlf +:+ info_lines fs
  end.
Definition info_text (fs : list (string * string)) : string :=
  "# Replication" +:+ crlf +:+ info_lines fs.

(** Keys and values as servers send them: no line breaks, no colon in the key,
    no key that looks like a comment. *)
Definition plain (s : string) : bool := negb (has_byte CR s) && negb (has_byte LF s).
Definition field_ok (kv : string * string) : bool :=
  plain kv.1 && plain kv.2 && negb (has_byte ":" kv.1) && negb (HasPrefix kv.1 "#") &&
  negb (bool_decide (kv.1 = "")).

Lemma Split_app_sep s t c :
  has_byte c s = false → Split (s +:+ String c t) c = s :: Split t c.
Proof.
  induction s as [|a s IH]; intros H.
  { rewrite str_app_nil_l. simpl. by rewrite bool_decide_eq_true_2. }
  rewrite has_byte_cons in H. apply orb_false_iff in H as [Ha Hs].
  rewrite str_app_cons. simpl. rewrite Ha, (IH Hs). done.
Qed.

Lemma TrimRightCR_app_CR s : has_byte CR s = false → TrimRightCR (s +:+ String CR "") = s.
Proof.
  induction s as [|a s IH]; intros H; [done|].
  rewrite has_byte_cons in H. apply orb_false_iff in H as [Ha Hs].
  rewrite str_app_cons. simpl. rewrite (IH Hs). destruct s; [|done]. by rewrite Ha.
Qed.

Lemma has_byte_snoc_CR s : has_byte LF s = false → has_byte LF (s +:+ String CR "") = false.
Proof. intros H. by rewrite has_byte_app, H. Qed.

Lemma Cut_app k v : has_byte ":" k = false → Cut (k +:+ String ":" v) ":" = Some (k, v).
Proof.
  intros H. unfold Cut. rewrite (IndexByte_app ":" k v H).
  by rewrite str_take_length_app, str_drop_S, str_drop_length_app.
Qed.

Lemma info_line_field a k v :
  field_ok (k, v) = true → info_line a (k +:+ String ":" v +:+ String CR "") = info_field a k v.
Proof.
  unfold field_ok, plain. simpl. intros H. bool_to_prop.
  assert (has_byte CR (k +:+ String ":" v) = false) as Hcr.
  { rewrite has_byte_app, has_byte_cons. simpl. by apply orb_false_iff. }
  assert (k +:+ String ":" v +:+ String CR "" = (k +:+ String ":" v) +:+ String CR "") as ->
    by (by rewrite str_app_assoc, str_app_cons).
  unfold info_line. rewrite (TrimRightCR_app_CR _ Hcr), (Cut_app k v) by done.
  destruct k as [|b k]; [done|]. rewrite str_app_cons. rewrite bool_decide_eq_false_2 by done.
  assert (HasPrefix (String b (k +:+ String ":" v)) "#" = false) as ->; [|done].
  match goal with H : HasPrefix _ _ = false |- _ => revert H end.
  unfold HasPrefix. cbn [String.prefix]. case_match; [by destruct k | done].
Qed.

Lemma info_text_fold fs a :
  forallb field_ok fs = true →
  foldl info_line a (Split (info_text fs) LF) = foldl (λ a kv, info_field a kv.1 kv.2) a fs.
Proof.
  intros H. unfold info_text, crlf.
  assert ("# Replication" +:+ String CR (String LF "") +:+ info_lines fs =
          ("# Replication" +:+ String CR "") +:+ String LF (info_lines fs)) as -> by done.
  rewrite Split_app_sep by done. simpl.
  change (info_line a ("# Replication" +:+ String CR "")) with a.
  revert a. induction fs as [|[k v] fs IH]; intros a; [done|].
  simpl in H. apply andb_true_iff in H as [Hkv Hfs]. simpl.
  assert (k +:+ ":" +:+ v +:+ crlf +:+ info_lines fs =
          (k +:+ String ":" v +:+ String CR "") +:+ String LF (info_lines fs)) as ->.
  { unfold crlf. rewrite !str_app_assoc. done. }
  rewrite Split_app_sep.
  2: { unfold field_ok, plain in Hkv. simpl in Hkv. bool_to_prop.
       rewrite !has_byte_app, !has_byte_cons. by repeat (apply orb_false_iff; split). }
  simpl. rewrite info_line_field by done. by apply IH.
Qed.

(** *** One field of the accumulator depends on one key *)
Section project.
Context {A : Type} (pi : info_acc → A) (key : string) (g : A → string → A).
Hypothesis pi_other : ∀ a k v, k ≠ key → pi (info_field a k v) = pi a.
Hypothesis pi_key : ∀ a v, pi (info_field a key v) = g (pi a) v.

Lemma fold_absent fs a :
  key ∉ fs.*1 → pi (foldl (λ a kv, info_field a kv.1 kv.2) a fs) = pi a.
Proof.
  revert a. induction fs as [|[k v] fs IH]; intros a Hn; [done|]. simpl in *.
  rewrite not_elem_of_cons in Hn. destruct Hn as [Hk Hn]. rewrite (IH _ Hn). by apply pi_other.
Qed.

Lemma fold_present fs a v :
  NoDup fs.*1 → (key, v) ∈ fs →
  pi (foldl (λ a kv, info_field a kv.1 kv.2) a fs) = g (pi a) v.
Proof.
  revert a. induction fs as [|[k w] fs IH]; intros a Hnd Hin; [by apply not_elem_of_nil in Hin|].
  simpl in *. apply NoDup_cons in Hnd as [Hk Hnd]. apply elem_of_cons in Hin as [[= <- <-]|Hin].
  - rewrite (fold_absent fs _ Hk). apply pi_key.
  - rewrite (IH _ Hnd Hin). f_equal. apply pi_other. intros ->. apply Hk.
    apply list_elem_of_fmap. by exists (key, v).
Qed.
End project.

Ltac info_key := intros; unfold info_field; repeat case_bool_decide; simplify_eq; try case_match; try done.

Lemma info_role fs a v : NoDup fs.*1 → ("role", v) ∈ fs →
  i_role (foldl (λ a kv, info_field a kv.1 kv.2) a fs) = v.
Proof. intros. eapply (fold_present i_role "role" (λ _ v, v)); eauto; info_key. Qed.

Lemma info_link fs a v : NoDup fs.*1 → ("master_link_status", v) ∈ fs →
  i_linkUp (foldl (λ a kv, info_field a kv.1 kv.2) a fs) = bool_decide (v = "up").
Proof.
  intros Hnd Hin. pose proof (fold_present i_linkUp "master_link_status" (λ _ v, bool_decide (v = "up"))) as H.
  exact (H ltac:(info_key) ltac:(info_key) fs a v Hnd Hin).
Qed.

Lemma info_master fs a n : in_int64 n = true → NoDup fs.*1 → ("master_repl_offset", Itoa n) ∈ fs →
  let r := foldl (λ a kv, info_field a kv.1 kv.2) a fs in i_masterOff r = n ∧ i_haveMasterOff r = true.
Proof.
  intros Hn Hnd Hin.
  pose proof (fold_present (λ a, (i_masterOff a, i_haveMasterOff a)) "master_repl_offset"
    (λ o v, match ParseInt64 v with None => o | Some n => (n, true) end)) as H.
  assert (ParseInt64 (Itoa n) = Some n) as Hp by (by apply Atoi_Itoa).
  specialize (H ltac:(info_key) ltac:(info_key) fs a (Itoa n) Hnd Hin). cbv beta in H.
  rewrite Hp in H. by simplify_eq.
Qed.

Lemma info_slave fs a n : in_int64 n = true → NoDup fs.*1 → ("slave_repl_offset", Itoa n) ∈ fs →
  let r := foldl (λ a kv, info_field a kv.1 kv.2) a fs in i_slaveOff r = n ∧ i_haveSlave r = true.
Proof.
  intros Hn Hnd Hin.
  pose proof (fold_present (λ a, (i_slaveOff a, i_haveSlave a)) "slave_repl_offset"
    (λ o v, match ParseInt64 v with None => o | Some n => (n, true) end)) as H.
  assert (ParseInt64 (Itoa n) = Some n) as Hp by (by apply Atoi_Itoa).
  specialize (H ltac:(info_key) ltac:(info_key) fs a (Itoa n) Hnd Hin). cbv beta in H.
  rewrite Hp in H. by simplify_eq.
Qed.

Lemma info_slave_absent fs : "slave_repl_offset" ∉ fs.*1 →
  i_haveSlave (foldl (λ a kv, info_field a kv.1 kv.2) info_init fs) = false.
Proof. intros H. rewrite (fold_absent i_haveSlave "slave_repl_offset"); [done|info_key|done]. Qed.

(** The reply of a replica is read exactly.  For any reply whose fields are distinct and
    free of line breaks, in any order and with any further fields, a role other than master,
    the printed offsets [m >= s >= 0] and the link status come back as the role, the lag
    [m - s] and the link flag, with no wrap-around. *)
Theorem info_lag_exact fs role status m s :
  forallb field_ok fs = true → NoDup fs.*1 → role ≠ RoleMaster → 0 <= s <= m → m < 2 ^ 63 →
  ("role", role) ∈ fs → ("master_link_status", status) ∈ fs →
  ("master_repl_offset", Itoa m) ∈ fs → ("slave_repl_offset", Itoa s) ∈ fs →
  let st := parseInfoReplication (info_text fs) in
  Role st = role ∧ LinkUp st = bool_decide (status = "up") ∧ LagBytes st = m - s ∧
  HaveSlaveOffset st = true ∧ HaveMasterOffset st = true.
Proof.
  intros Hok Hnd Hr Hms Hm Hrole Hstat Hmo Hso. unfold parseInfoReplication.
  rewrite info_text_fold by done.
  assert (∀ z, 0 <= z < 2 ^ 63 → in_int64 z = true) as Hz.
  { intros z ?. unfold in_int64, min_int64, max_int64. rewrite andb_true_iff, !Z.leb_le. lia. }
  destruct (info_master fs info_init m ltac:(apply Hz; lia) Hnd Hmo) as [-> ->].
  destruct (info_slave fs info_init s ltac:(apply Hz; lia) Hnd Hso) as [-> ->].
  rewrite (info_role fs info_init role Hnd Hrole), (info_link fs info_init status Hnd Hstat).
  rewrite bool_decide_eq_false_2 by done. simpl.
  rewrite (proj2 (Z.leb_le s m)) by lia. unfold wrap64.
  rewrite (Z.mod_small (m - s + 2 ^ 63) (2 ^ 64)) by lia. split_and!; try done. lia.
Qed.

(** A reply that lost the replica's offset reads as no lag: with the link up and no
    [slave_repl_offset] line the state is the one of a replica that is fully caught up, so
    no bound on the lag can reject it. *)
Theorem truncated_info_reads_as_no_lag fs role :
  forallb field_ok fs = true → NoDup fs.*1 → role ≠ RoleMaster →
  ("role", role) ∈ fs → ("master_link_status", "up") ∈ fs → "slave_repl_offset" ∉ fs.*1 →
  let st := parseInfoReplication (info_text fs) in
  Role st = role ∧ LinkUp st = true ∧ LagBytes st = 0 ∧ HaveSlaveOffset st = false.
Proof.
  intros Hok Hnd Hr Hrole Hstat Hso. unfold parseInfoReplication. rewrite info_text_fold by done.
  rewrite (info_role fs info_init role Hnd Hrole), (info_link fs info_init "up" Hnd Hstat).
  rewrite (info_slave_absent fs Hso). by rewrite bool_decide_eq_false_2.
Qed.

Definition demo_fields : list (string * string) :=
  [("role", "slave"); ("master_host", "10.0.0.1"); ("master_link_status", "up");
   ("slave_repl_offset", Itoa 900); ("connected_slaves", "0"); ("master_repl_offset", Itoa 1234)].

Lemma info_lag_exact_witness :
  LagBytes (parseInfoReplication (info_text demo_fields)) = 334.
Proof.
  refine (proj1 (proj2 (proj2 (info_lag_exact demo_fields "slave" "up" 1234 900 _ _ _ _ _ _ _ _ _))));
    first [ reflexivity | discriminate | lia | by apply (bool_decide_unpack _); vm_compute
          | rewrite list_elem_of_In; vm_compute; tauto ].
Defined.

Lemma truncated_info_reads_as_no_lag_witness :
  LagBytes (parseInfoReplication (info_text [("role", "slave"); ("master_link_status", "up");
    ("master_repl_offset", Itoa 1234)])) = 0.
Proof.
  refine (proj1 (proj2 (proj2 (truncated_info_reads_as_no_lag _ "slave" _ _ _ _ _ _))));
    first [ reflexivity | discriminate | by apply (bool_decide_unpack _); vm_compute
          | rewrite list_elem_of_In; vm_compute; tauto ].
Defined.
