(* ===== verification/DataPlane.v ===== *)
(** * Commands sent to data-plane pods: [internal/valkey/{dial,lagchecker,replicaof,clientkill,rotate}.go]

    A pod seen through the network is a state [S] with two operations, those of
    the class [Peer]: opening a connection and being sent one command.  Both may
    change the pod and both may fail; a sent command leaves bytes in the
    connection's read buffer.  What the issuers rely on of a Valkey server is the
    class [ValkeyLaws]: replies are framed, and a positive reply to CONFIG SET
    means the parameter is set.  A command whose write or reply failed may or may
    not have been executed. *)
From S2P Require Import Prelude GoStd GoFmt Resp LagChecker.
Local Open Scope Z_scope.

(** What one write meets: an error, or bytes that become readable and the error a
    read gets once they are used up. *)
Inductive sent : Type :=
  | SendErr (e : string)
  | Sent (bytes stall : string).

Class Peer (S : Type) := {
  connect : S → S * option string;
  exec : list string → S → S * sent
}.

(** An open connection: the pod, the read buffer and the pending read error. *)
Record conn (S : Type) := mkConn { peer : S; buf : string; stall : string }.
Arguments mkConn {S} peer buf stall.
Arguments peer {S} c.
Arguments buf {S} c.
Arguments stall {S} c.

(** Go's [error]: its text and whether [errors.Is] finds [ErrRewriteFailed] in it. *)
Record error := mkError { e_text : string; e_rewrite : bool }.
Definition Errorf (text : string) : error := mkError text false.
Definition wrapf (prefix : string) (e : error) : error := mkError (prefix +:+ e_text e) (e_rewrite e).

(** ** The monad: a connection, threaded also through failures *)
Section monad.
Context {S : Type}.

Definition dp (A : Type) : Type := conn S → conn S * (A + error).
Definition dret {A} (a : A) : dp A := λ c, (c, inl a).
Definition dfail {A} (e : error) : dp A := λ c, (c, inr e).
Definition dbind {A B} (m : dp A) (k : A → dp B) : dp B :=
  λ c, match m c with (c, inl a) => k a c | (c, inr e) => (c, inr e) end.
(** Wrapping an error, and inspecting it. *)
Definition dwrap {A} (f : error → error) (m : dp A) : dp A :=
  λ c, match m c with (c, inl a) => (c, inl a) | (c, inr e) => (c, inr (f e)) end.
Definition dtry {A} (m : dp A) : dp (A + error) := λ c, let '(c, r) := m c in (c, inl r).
End monad.

Declare Scope dp_scope.
Delimit Scope dp_scope with dp.
Notation "'let*' x ':=' m 'in' k" := (dbind m (λ x, k))
  (at level 10, x name, m at level 100, k at level 200) : dp_scope.
Local Open Scope dp_scope.

(** ** Reading replies *)
Definition quoted_byte (a : ascii) : string := "'" +:+ quote_byte a +:+ "'".

Section issuers.
Context {S : Type} `{P : !Peer S}.

(** [io.WriteString(conn, resp.EncodeCommand(args...))]: the peer decodes the
    arguments back (see [Resp.EncodeCommand_decode]). *)
Definition write (args : list string) : @dp S unit :=
  λ c, match exec args (peer c) with
       | (s, SendErr e) => (mkConn s (buf c) (stall c), inr (Errorf e))
       | (s, Sent b e) => (mkConn s (buf c +:+ b) e, inl tt)
       end.

(** [rd.ReadString] up to a newline, then [strings.TrimRight(line, CRLF)]. *)
Definition read_line : @dp S string :=
  λ c, match IndexByte LF (buf c) with
       | None => (mkConn (peer c) "" (stall c), inr (Errorf (stall c)))
       | Some i => (mkConn (peer c) (str_drop (i + 1) (buf c)) (stall c),
                    inl (TrimRightCRLF (str_take i (buf c))))
       end.

Definition unexpected_prefix (a : ascii) (line : string) : error :=
  Errorf ("unexpected reply prefix " +:+ quoted_byte a +:+ " (line=" +:+ Quote line +:+ ")").

Definition readSimpleOrError : @dp S string :=
  let* line := read_line in
  match line with
  | EmptyString => dfail (Errorf "empty reply")
  | String a rest =>
      if bool_decide (a = "+"%char) then dret rest
      else if bool_decide (a = "-"%char) then dfail (Errorf ("server: " +:+ rest))
      else dfail (unexpected_prefix a line)
  end.

Definition readInteger : @dp S Z :=
  let* line := read_line in
  match line with
  | EmptyString => dfail (Errorf "empty reply")
  | String a rest =>
      if bool_decide (a = ":"%char) then
        match Atoi rest with
        | Some n => dret n
        | None => dfail (Errorf ("parse integer " +:+ Quote rest))
        end
      else if bool_decide (a = "-"%char) then dfail (Errorf ("server: " +:+ rest))
      else dfail (unexpected_prefix a line)
  end.

(** [io.ReadFull] of [n] bytes, then [rd.Discard] of the trailing CRLF. *)
Definition read_body (n : nat) : @dp S string :=
  λ c, if (String.length (buf c) <? n)%nat
       then (mkConn (peer c) "" (stall c), inr (Errorf ("read bulk body: " +:+ stall c)))
       else if (String.length (buf c) <? n + 2)%nat
       then (mkConn (peer c) "" (stall c), inr (Errorf ("read bulk trailer: " +:+ stall c)))
       else (mkConn (peer c) (str_drop (n + 2) (buf c)) (stall c), inl (str_take n (buf c))).

Definition readBulkString : @dp S string :=
  let* header := read_line in
  match header with
  | EmptyString => dfail (Errorf "empty bulk header")
  | String a rest =>
      if bool_decide (a = "-"%char) then dfail (Errorf ("server: " +:+ rest))
      else if negb (bool_decide (a = "$"%char)) then
        dfail (Errorf ("expected bulk string, got " +:+ quoted_byte a))
      else match Atoi rest with
      | None => dfail (Errorf ("bad bulk length " +:+ Quote rest))
      | Some n =>
          if n <? 0 then dret ""
          else if MaxBulkSize <? n then
            dfail (Errorf ("bulk string length " +:+ Itoa n +:+ " exceeds cap " +:+ Itoa MaxBulkSize))
          else read_body (Z.to_nat n)
      end
  end.

(** A command whose reply is a simple string: the two error prefixes. *)
Definition command (args : list string) (w r : string) : @dp S unit :=
  let* _ := dwrap (wrapf w) (write args) in
  let* _ := dwrap (wrapf r) readSimpleOrError in
  dret tt.

(** ** The shared preamble, and one function per issuer

    [until] is the time left to the context's deadline.  A function runs on the pod
    and returns it with the outcome; the connection is closed on every path. *)
Definition dialAndAuth {A} (password : string) (timeout : Duration) (until : option Duration)
    (body : @dp S A) (s : S) : S * (A + error) :=
  let timeout := match until with
                 | Some remaining => if remaining <? timeout then remaining else timeout
                 | None => timeout
                 end in
  if timeout <=? 0 then (s, inr (Errorf "context deadline exceeded before dial"))
  else match connect s with
  | (s, Some e) => (s, inr (Errorf e))
  | (s, None) =>
      let '(c, r) :=
        (let* _ := (if negb (bool_decide (password = ""))
                    then command ["AUTH"; password] "write AUTH: " "AUTH: " else dret tt) in
         body) (mkConn s "" "") in
      (peer c, r)
  end.

Definition or_default (timeout dflt : Duration) : Duration := if timeout <=? 0 then dflt else timeout.

Definition CheckLag (timeout : Duration) (until : option Duration) (password : string) (s : S) :
    S * (LagState + error) :=
  dialAndAuth password (or_default timeout (5 * Second)) until
    (let* _ := dwrap (wrapf "write INFO: ") (write ["INFO"; "replication"]) in
     let* body := dwrap (wrapf "read INFO reply: ") readBulkString in
     dret (parseInfoReplication body)) s.

Definition ReplicaOfTimeout : Duration := 5 * Second.

Definition IssueReplicaOf (timeout : Duration) (until : option Duration) (password masterIP : string)
    (masterPort : Z) (s : S) : S * (unit + error) :=
  dialAndAuth password (or_default timeout ReplicaOfTimeout) until
    (let* _ := (if negb (bool_decide (password = ""))
                then command ["CONFIG"; "SET"; "masterauth"; password]
                       "write CONFIG SET masterauth: " "CONFIG SET masterauth: "
                else dret tt) in
     command ["REPLICAOF"; masterIP; Itoa masterPort] "write REPLICAOF: " "REPLICAOF: ") s.

Definition IssuePromote (timeout : Duration) (until : option Duration) (password : string) (s : S) :
    S * (unit + error) :=
  dialAndAuth password (or_default timeout ReplicaOfTimeout) until
    (command ["REPLICAOF"; "NO"; "ONE"] "write REPLICAOF NO ONE: " "REPLICAOF NO ONE: ") s.

Definition ClientKillTimeout : Duration := 5 * Second.

Definition KillNormalClients (timeout : Duration) (until : option Duration) (password : string) (s : S) :
    S * (Z + error) :=
  dialAndAuth password (or_default timeout ClientKillTimeout) until
    (let* _ := dwrap (wrapf "write CLIENT KILL: ")
                 (write ["CLIENT"; "KILL"; "TYPE"; "normal"; "SKIPME"; "yes"]) in
     dwrap (wrapf "CLIENT KILL: ") readInteger) s.

(** ** Rotation of one pod's password *)
Definition RotateTimeout : Duration := 5 * Second.
Definition RotateRetryAttempts : nat := 3.
Definition rotateRetryBackoffs : list Duration := [250 * Millisecond; 500 * Millisecond].

(** AUTH with the old password, and with the new one when that is refused. *)
Definition rotate_auth (oldPwd newPwd : string) : @dp S unit :=
  if bool_decide (oldPwd = "") then dret tt
  else
    let* _ := dwrap (wrapf "write AUTH: ") (write ["AUTH"; oldPwd]) in
    let* r := dtry readSimpleOrError in
    match r with
    | inl _ => dret tt
    | inr err =>
        if bool_decide (newPwd = "") || bool_decide (newPwd = oldPwd) then dfail (wrapf "AUTH: " err)
        else
          let* _ := dwrap (wrapf "write AUTH (newPwd fallback): ") (write ["AUTH"; newPwd]) in
          let* r := dtry readSimpleOrError in
          match r with inl _ => dret tt | inr _ => dfail (wrapf "AUTH: " err) end
    end.

Definition rewrite_failed (prefix : string) (e : error) : error :=
  mkError ("CONFIG REWRITE failed: " +:+ prefix +:+ e_text e) true.

Definition rotateOne (until : option Duration) (oldPwd newPwd : string) (s : S) : S * (unit + error) :=
  dialAndAuth "" RotateTimeout until
    (let* _ := rotate_auth oldPwd newPwd in
     let* _ := command ["CONFIG"; "SET"; "masterauth"; newPwd]
                 "write CONFIG SET masterauth: " "CONFIG SET masterauth: " in
     let* _ := command ["CONFIG"; "SET"; "requirepass"; newPwd]
                 "write CONFIG SET requirepass: " "CONFIG SET requirepass: " in
     let* _ := dwrap (rewrite_failed "write: ") (write ["CONFIG"; "REWRITE"]) in
     let* _ := dwrap (rewrite_failed "") readSimpleOrError in
     dret tt) s.

(** The context while one pod is rotated: per attempt, the time left and, while
    backing off before it, the cancellation error. *)
Record attempt_ctx := { a_until : nat → option Duration; a_done : nat → option string }.

(** The loop from [attempt], with [n] attempts left and the last error. *)
Fixpoint rotate_loop (n attempt : nat) (ctx : attempt_ctx) (oldPwd newPwd : string)
    (lastErr : unit + error) (s : S) : S * (unit + error) :=
  match n with
  | O => (s, lastErr)
  | Datatypes.S n =>
      match (if (0 <? attempt)%nat then a_done ctx attempt else None) with
      | Some e => (s, inr (Errorf e))
      | None =>
          match rotateOne (a_until ctx attempt) oldPwd newPwd s with
          | (s, inl _) => (s, inl tt)
          | (s, inr err) => rotate_loop n (Datatypes.S attempt) ctx oldPwd newPwd (inr err) s
          end
      end
  end.

Definition rotateOneWithRetry (ctx : attempt_ctx) (oldPwd newPwd : string) (s : S) :
    S * (unit + error) :=
  rotate_loop RotateRetryAttempts 0 ctx oldPwd newPwd (inl tt) s.

(** ** The ordered rotation of all pods *)
Record Endpoint := mkEndpoint { Name : string; Addr : string }.
Definition no_endpoint : Endpoint := mkEndpoint "" "".

Inductive RotationPhase : Type := RotationPhaseReplica | RotationPhaseMaster.

Record PodResult := { pr_Endpoint : Endpoint; pr_Phase : RotationPhase; pr_Err : option error }.

(** The pods by dial address. *)
Definition world : Type := string → S.
Definition put (a : string) (s : S) (w : world) : world := λ b, if decide (b = a) then s else w b.

Definition err_of (r : unit + error) : option error := match r with inl _ => None | inr e => Some e end.

Definition rotate_pod (ctx : Endpoint → attempt_ctx) (oldPwd newPwd : string) (phase : RotationPhase)
    (ep : Endpoint) (w : world) : world * PodResult :=
  let '(s, r) := rotateOneWithRetry (ctx ep) oldPwd newPwd (w (Addr ep)) in
  (put (Addr ep) s w, {| pr_Endpoint := ep; pr_Phase := phase; pr_Err := err_of r |}).

(** The goroutines of [rotateMany] each work on a pod of their own; they are run
    here in the order of the slice ([rotateMany_any_order] shows that the order
    does not matter). *)
Fixpoint rotateMany (ctx : Endpoint → attempt_ctx) (oldPwd newPwd : string) (phase : RotationPhase)
    (eps : list Endpoint) (w : world) : world * list PodResult :=
  match eps with
  | [] => (w, [])
  | ep :: eps =>
      let '(w, r) := rotate_pod ctx oldPwd newPwd phase ep w in
      let '(w, rs) := rotateMany ctx oldPwd newPwd phase eps w in
      (w, r :: rs)
  end.

Definition RotateAuth (ctx : Endpoint → attempt_ctx) (replicas : list Endpoint) (master : Endpoint)
    (oldPassword newPassword : string) (w : world) : world * list PodResult :=
  if bool_decide (oldPassword = "") && bool_decide (newPassword = "") then (w, [])
  else
    let '(w, results) := rotateMany ctx oldPassword newPassword RotationPhaseReplica replicas w in
    if negb (bool_decide (Name master = "")) && negb (bool_decide (Addr master = "")) then
      let '(w, r) := rotate_pod ctx oldPassword newPassword RotationPhaseMaster master w in
      (w, results ++ [r])
    else (w, results).
End issuers.

Arguments world S : clear implicits.

(** ** What is relied on of a Valkey server *)
Definition set_requirepass (p : string) : list string := ["CONFIG"; "SET"; "requirepass"; p].
Definition set_masterauth (p : string) : list string := ["CONFIG"; "SET"; "masterauth"; p].

(** One reply per command: an incomplete line, or one line with its newline. *)
Definition framed (b : string) : Prop :=
  has_byte LF b = false ∨ ∃ l, b = l +:+ String LF "" ∧ has_byte LF l = false.

Class ValkeyLaws (S : Type) `{Peer S} := {
  requirepass : S → string;
  masterauth : S → string;
  connect_requirepass s : requirepass (connect s).1 = requirepass s;
  connect_masterauth s : masterauth (connect s).1 = masterauth s;
  exec_framed args s s' b e : exec args s = (s', Sent b e) → framed b;
  exec_requirepass args s :
    requirepass (exec args s).1 = requirepass s ∨
    ∃ p, args = set_requirepass p ∧ requirepass (exec args s).1 = p;
  exec_masterauth args s :
    masterauth (exec args s).1 = masterauth s ∨
    ∃ p, args = set_masterauth p ∧ masterauth (exec args s).1 = p;
  set_requirepass_ack p s s' b e :
    exec (set_requirepass p) s = (s', Sent (String "+" b) e) → requirepass s' = p;
  set_masterauth_ack p s s' b e :
    exec (set_masterauth p) s = (s', Sent (String "+" b) e) → masterauth s' = p
}.

(** ** Lemmas *)
Lemma framed_read b i :
  framed b → IndexByte LF b = Some i → str_drop (i + 1) b = "" ∧ b = str_take i b +:+ String LF "".
Proof.
  intros [Hn|(l & -> & Hl)] Hi.
  - unfold has_byte in Hn. by rewrite Hi in Hn.
  - rewrite (IndexByte_app LF l "" Hl) in Hi. injection Hi as <-.
    by rewrite str_take_length_app, Nat.add_1_r, str_drop_S, str_drop_length_app.
Qed.

Lemma TrimRightCRLF_first s a r : TrimRightCRLF s = String a r → ∃ t, s = String a t.
Proof.
  destruct s as [|c s]; simpl; [done|].
  destruct (TrimRightCRLF s); [destruct (is_crlf c)|]; intros H; simplify_eq; eauto.
Qed.

Section laws.
Context {S : Type} `{P : !Peer S}.
Implicit Types (s : S) (c : conn S).

Lemma readSimple_peer c : peer (readSimpleOrError c).1 = peer c.
Proof.
  unfold readSimpleOrError, dbind, read_line, dret, dfail.
  destruct (IndexByte LF (buf c)); [|done]. repeat (case_match; try done).
Qed.

Lemma write_peer args c : peer (write args c).1 = (exec args (peer c)).1.
Proof. unfold write. by destruct (exec args (peer c)) as [s [e|b e]]. Qed.

(** The pod after a command and its reply, whatever the reply was. *)
Lemma command_peer args w r c : peer (command args w r c).1 = (exec args (peer c)).1.
Proof.
  unfold command, dbind, dwrap, dret. rewrite <- write_peer.
  destruct (write args c) as [c1 [[]|e]]; [|done]. simpl. rewrite <- (readSimple_peer c1).
  by destruct (readSimpleOrError c1) as [c2 [x|e]].
Qed.

(** Errors of the transport and of the server are not rewrite failures. *)
Lemma readSimple_plain c c' e : readSimpleOrError c = (c', inr e) → e_rewrite e = false.
Proof. unfold readSimpleOrError, dbind, read_line, dret, dfail. intros. go_cases; done. Qed.

Lemma write_plain args c c' e : write args c = (c', inr e) → e_rewrite e = false.
Proof. unfold write. intros. go_cases; done. Qed.

Lemma command_plain args w r c c' e : command args w r c = (c', inr e) → e_rewrite e = false.
Proof.
  unfold command, dbind, dwrap, dret. destruct (write args c) as [c1 [[]|e1]] eqn:Hw.
  - destruct (readSimpleOrError c1) as [c2 [x|e2]] eqn:Hr; intros; simplify_eq.
    simpl. by eapply readSimple_plain.
  - intros; simplify_eq. simpl. by eapply write_plain.
Qed.

Context `{L : !ValkeyLaws S}.

(** The reply read is the reply to this command. *)
Lemma readSimple_framed c c' r b :
  buf c = b → framed b → readSimpleOrError c = (c', r) →
  (∀ x, r = inl x → buf c' = "" ∧ ∃ b', b = String "+" b') ∧
  (∀ err, r = inr err → buf c' = "").
Proof.
  intros Hb Hf Hr. unfold readSimpleOrError, dbind, read_line, dret, dfail in Hr.
  rewrite Hb in Hr. destruct (IndexByte LF b) as [i|] eqn:Hi.
  - destruct (framed_read b i Hf Hi) as [Hd Ht]. rewrite Hd in Hr.
    destruct (TrimRightCRLF (str_take i b)) as [|a rest] eqn:Htr; simplify_eq/=; [done|].
    apply TrimRightCRLF_first in Htr as [t Htt].
    case_bool_decide; simplify_eq/=; [split; [|done]|].
    + intros x _. split; [done|]. exists (t +:+ String LF ""). by rewrite Ht, Htt.
    + case_bool_decide; by simplify_eq/=.
  - simplify_eq/=. done.
Qed.

Lemma write_buf args c c' :
  buf c = "" → write args c = (c', inl tt) →
  ∃ b e, exec args (peer c) = (peer c', Sent b e) ∧ buf c' = b ∧ framed b.
Proof.
  unfold write. intros Hb Hw. destruct (exec args (peer c)) as [s [e|b e]] eqn:He; simplify_eq/=.
  exists b, e. rewrite Hb. split_and!; [done..|]. by eapply exec_framed.
Qed.

Lemma command_ok args w r c c' :
  buf c = "" → command args w r c = (c', inl tt) →
  buf c' = "" ∧ ∃ b e, exec args (peer c) = (peer c', Sent (String "+" b) e).
Proof.
  intros Hb. unfold command, dbind, dwrap, dret.
  destruct (write args c) as [c1 [[]|e]] eqn:Hw; [|done].
  destruct (write_buf _ _ _ Hb Hw) as (b & e & He & Hb1 & Hf).
  pose proof (readSimple_peer c1) as Hp.
  destruct (readSimpleOrError c1) as [c2 [x|e2]] eqn:Hr; intros; simplify_eq/=.
  destruct (proj1 (readSimple_framed _ _ _ _ eq_refl Hf Hr) x eq_refl) as [? [b' Hb']].
  split; [done|]. exists b', e. by rewrite Hp, <- Hb', He.
Qed.

(** The credentials a pod holds, and what a failed step may have done to them. *)
Definition creds (s : S) : string * string := (requirepass s, masterauth s).

Lemma exec_creds_other args s :
  (∀ p, args ≠ set_requirepass p) → (∀ p, args ≠ set_masterauth p) → creds (exec args s).1 = creds s.
Proof.
  intros H1 H2. unfold creds. f_equal.
  - destruct (exec_requirepass args s) as [?|(p & -> & _)]; [done|]. by destruct (H1 p).
  - destruct (exec_masterauth args s) as [?|(p & -> & _)]; [done|]. by destruct (H2 p).
Qed.

Lemma auth_write_keeps p c c1 r :
  write ["AUTH"; p] c = (c1, r) →
  creds (peer c1) = creds (peer c) ∧ ∀ e, r = inr e → e_rewrite e = false.
Proof.
  intros Hw. pose proof (write_peer ["AUTH"; p] c) as Hp. rewrite Hw in Hp. simpl in Hp.
  rewrite Hp, exec_creds_other by done. split; [done|]. intros e ->. by eapply write_plain.
Qed.

Lemma auth_read_keeps p c c1 c2 r :
  buf c = "" → write ["AUTH"; p] c = (c1, inl tt) → readSimpleOrError c1 = (c2, r) →
  creds (peer c2) = creds (peer c) ∧ buf c2 = "" ∧ ∀ e, r = inr e → e_rewrite e = false.
Proof.
  intros Hb Hw Hr. destruct (auth_write_keeps _ _ _ _ Hw) as [Hc _].
  destruct (write_buf _ _ _ Hb Hw) as (b & e & _ & Hb1 & Hf). rewrite <- Hb1 in Hf.
  destruct (readSimple_framed _ _ _ _ eq_refl Hf Hr) as [Hok Hko].
  pose proof (readSimple_peer c1) as Hp. rewrite Hr in Hp. simpl in Hp.
  rewrite Hp, Hc. split_and!; [done| |intros e' ->; by eapply readSimple_plain].
  destruct r as [x|x]; [by destruct (Hok x eq_refl)|by apply (Hko x)].
Qed.

Lemma rotate_auth_keeps o n c c' r :
  buf c = "" → rotate_auth o n c = (c', r) →
  creds (peer c') = creds (peer c) ∧ (r = inl tt → buf c' = "") ∧
  (∀ e, r = inr e → e_rewrite e = false).
Proof.
  intros Hb. unfold rotate_auth, dbind, dwrap, dtry, dret, dfail.
  case_bool_decide; [by intros [= <- <-]|].
  destruct (write ["AUTH"; o] c) as [c1 [[]|e]] eqn:Hw.
  2:{ destruct (auth_write_keeps _ _ _ _ Hw) as [Hc He]. intros [= <- <-].
      split_and!; [done..|]. intros ? [= <-]. by apply (He e). }
  destruct (readSimpleOrError c1) as [c2 r1] eqn:Hr.
  destruct (auth_read_keeps _ _ _ _ _ Hb Hw Hr) as (Hc & Hb2 & Hpl).
  destruct r1 as [x|err]; [by intros [= <- <-]|]. specialize (Hpl err eq_refl).
  destruct (bool_decide (n = "") || bool_decide (n = o)).
  { intros [= <- <-]. split_and!; [done|done|]. by intros ? [= <-]. }
  destruct (write ["AUTH"; n] c2) as [c3 [[]|e3]] eqn:Hw2.
  2:{ destruct (auth_write_keeps _ _ _ _ Hw2) as [Hc3 He]. intros [= <- <-].
      rewrite Hc3. split_and!; [done..|]. intros ? [= <-]. by apply (He e3). }
  destruct (readSimpleOrError c3) as [c4 r3] eqn:Hr3.
  destruct (auth_read_keeps _ _ _ _ _ Hb2 Hw2 Hr3) as (Hc4 & Hb4 & _). rewrite <- Hc, <- Hc4.
  destruct r3 as [x3|err3]; intros [= <- <-]; [done|].
  split_and!; [done|done|]. by intros ? [= <-].
Qed.

Lemma exec_requirepass_other args s :
  (∀ p, args ≠ set_requirepass p) → requirepass (exec args s).1 = requirepass s.
Proof. intros H. destruct (exec_requirepass args s) as [?|(p & -> & _)]; [done|by destruct (H p)]. Qed.

Lemma exec_masterauth_other args s :
  (∀ p, args ≠ set_masterauth p) → masterauth (exec args s).1 = masterauth s.
Proof. intros H. destruct (exec_masterauth args s) as [?|(p & -> & _)]; [done|by destruct (H p)]. Qed.

(** An attempt's effect on a pod and what its outcome tells: the conclusion of the
    lemmas on one attempt and on the retry loop. *)
Definition rotated (n : string) (s s' : S) (r : unit + error) : Prop :=
  (requirepass s' = requirepass s ∨ requirepass s' = n) ∧
  (masterauth s' = masterauth s ∨ masterauth s' = n) ∧
  ((r = inl tt ∨ ∃ e, r = inr e ∧ e_rewrite e = true) → creds s' = (n, n)).

Lemma rotated_plain n s s' e :
  creds s' = creds s → e_rewrite e = false → rotated n s s' (inr e).
Proof.
  intros [= Hr Hm] He. split_and!; [by left..|]. intros [?|(e' & [= <-] & ?)]; [done|congruence].
Qed.

Lemma set_masterauth_step n w r c c' x :
  buf c = "" → command (set_masterauth n) w r c = (c', x) →
  requirepass (peer c') = requirepass (peer c) ∧
  (masterauth (peer c') = masterauth (peer c) ∨ masterauth (peer c') = n) ∧
  (x = inl tt → buf c' = "" ∧ masterauth (peer c') = n) ∧
  (∀ e, x = inr e → e_rewrite e = false).
Proof.
  intros Hb Hc. pose proof (command_peer (set_masterauth n) w r c) as Hp. rewrite Hc in Hp. simpl in Hp.
  rewrite Hp. split_and!.
  - by apply exec_requirepass_other.
  - destruct (exec_masterauth (set_masterauth n) (peer c)) as [?|(p & [= <-] & ?)]; auto.
  - intros ->. destruct (command_ok _ _ _ _ _ Hb Hc) as (? & b & e & He).
    split; [done|]. rewrite <- Hp. by eapply set_masterauth_ack.
  - intros e ->. by eapply command_plain.
Qed.

Lemma set_requirepass_step n w r c c' x :
  buf c = "" → command (set_requirepass n) w r c = (c', x) →
  masterauth (peer c') = masterauth (peer c) ∧
  (requirepass (peer c') = requirepass (peer c) ∨ requirepass (peer c') = n) ∧
  (x = inl tt → buf c' = "" ∧ requirepass (peer c') = n) ∧
  (∀ e, x = inr e → e_rewrite e = false).
Proof.
  intros Hb Hc. pose proof (command_peer (set_requirepass n) w r c) as Hp. rewrite Hc in Hp. simpl in Hp.
  rewrite Hp. split_and!.
  - by apply exec_masterauth_other.
  - destruct (exec_requirepass (set_requirepass n) (peer c)) as [?|(p & [= <-] & ?)]; auto.
  - intros ->. destruct (command_ok _ _ _ _ _ Hb Hc) as (? & b & e & He).
    split; [done|]. rewrite <- Hp. by eapply set_requirepass_ack.
  - intros e ->. by eapply command_plain.
Qed.

(** The REWRITE changes no credential, so every outcome of it is an acknowledged pod. *)
Lemma rewrite_keeps c c' (x : unit + error) :
  (let* _ := dwrap (rewrite_failed "write: ") (write ["CONFIG"; "REWRITE"]) in
   let* _ := dwrap (rewrite_failed "") readSimpleOrError in dret tt) c = (c', x) →
  creds (peer c') = creds (peer c).
Proof.
  unfold dbind, dwrap, dret. pose proof (write_peer ["CONFIG"; "REWRITE"] c) as Hp.
  destruct (write ["CONFIG"; "REWRITE"] c) as [c1 [[]|e]]; simpl in Hp.
  - pose proof (readSimple_peer c1) as Hp1. destruct (readSimpleOrError c1) as [c2 [y|e]];
      simpl in Hp1; intros [= <- _]; by rewrite Hp1, Hp, exec_creds_other.
  - intros [= <- _]. by rewrite Hp, exec_creds_other.
Qed.

(** One attempt: a nil error and a rewrite failure both mean that the pod
    acknowledged the new password in both roles; after any other error each of the
    two is the old value or the new one. *)
Lemma rotateOne_spec until o n s s' r : rotateOne until o n s = (s', r) → rotated n s s' r.
Proof.
  unfold rotateOne, dialAndAuth. case_match; [by intros [= <- <-]; apply rotated_plain|].
  pose proof (connect_requirepass s) as Hrp. pose proof (connect_masterauth s) as Hma.
  destruct (connect s) as [s0 [e|]]; simpl in Hrp, Hma.
  { intros [= <- <-]. apply rotated_plain; [|done]. unfold creds. by rewrite Hrp, Hma. }
  match goal with |- (let '(_, _) := ?m in _) = _ → _ => destruct m as [c x] eqn:Hrun end.
  intros [= <- <-]. revert Hrun. unfold rotated. rewrite <- Hrp, <- Hma.
  unfold dbind at 1. simpl (if negb _ then _ else _). unfold dret at 1. unfold dbind at 1.
  destruct (rotate_auth o n (mkConn s0 "" "")) as [c1 r1] eqn:Ha.
  apply rotate_auth_keeps in Ha as ([= Hrp1 Hma1] & Hb1 & Hp1); [|done]. simpl in Hrp1, Hma1.
  rewrite <- Hrp1, <- Hma1. destruct r1 as [[]|e1].
  2:{ intros [= <- <-]. by apply rotated_plain, Hp1. }
  specialize (Hb1 eq_refl). unfold dbind at 1.
  destruct (command ["CONFIG"; "SET"; "masterauth"; n] _ _ c1) as [c2 r2] eqn:Hc2.
  apply (set_masterauth_step n) in Hc2 as (Hrp2 & Hma2 & Hok2 & Hp2); [|done].
  destruct r2 as [[]|e2].
  2:{ intros [= <- <-]. rewrite Hrp2. split_and!; [by left|done|].
      intros [?|(e & [= <-] & He)]; [done|]. by rewrite Hp2 in He. }
  destruct (Hok2 eq_refl) as [Hb2 Hn2]. unfold dbind at 1.
  destruct (command ["CONFIG"; "SET"; "requirepass"; n] _ _ c2) as [c3 r3] eqn:Hc3.
  apply (set_requirepass_step n) in Hc3 as (Hma3 & Hrp3 & Hok3 & Hp3); [|done].
  destruct r3 as [[]|e3].
  2:{ intros [= <- <-]. rewrite Hma3, Hn2, <- Hrp2. split_and!; [done|by right|].
      intros [?|(e & [= <-] & He)]; [done|]. by rewrite Hp3 in He. }
  destruct (Hok3 eq_refl) as [Hb3 Hn3]. intros Hrw%rewrite_keeps.
  assert (creds (peer c) = (n, n)) as Hc by (rewrite Hrw; unfold creds; by rewrite Hn3, Hma3, Hn2).
  split_and!; [| |done]; injection Hc as ??; by right.
Qed.

Lemma rotate_loop_spec k attempt ctx o n lastErr s0 s s' r :
  rotated n s0 s lastErr ∨ (creds s = creds s0 ∧ (0 < k)%nat) →
  rotate_loop k attempt ctx o n lastErr s = (s', r) → rotated n s0 s' r.
Proof.
  revert attempt lastErr s. induction k as [|k IH]; intros attempt lastErr s Hinv; simpl.
  { destruct Hinv as [?|[_ ?]]; [by intros [= <- <-]|lia]. }
  assert ((requirepass s = requirepass s0 ∨ requirepass s = n) ∧
          (masterauth s = masterauth s0 ∨ masterauth s = n)) as [Hr Hm].
  { destruct Hinv as [(?&?&_)|[[= -> ->] _]]; auto. }
  destruct (if (0 <? attempt)%nat then a_done ctx attempt else None) as [e|].
  { intros [= <- <-]. split_and!; [done..|]. intros [?|(e' & [= <-] & ?)]; done. }
  destruct (rotateOne (a_until ctx attempt) o n s) as [s1 r1] eqn:H1.
  apply rotateOne_spec in H1 as (Hr1 & Hm1 & Hok1).
  assert (rotated n s0 s1 r1) as Hrot.
  { split_and!; [| |done]; [destruct Hr1 as [->|]|destruct Hm1 as [->|]]; auto. }
  destruct r1 as [[]|e1]; [by intros [= <- <-]|]. apply IH. by left.
Qed.

Lemma rotateOneWithRetry_spec ctx o n s s' r :
  rotateOneWithRetry ctx o n s = (s', r) → rotated n s s' r.
Proof. apply rotate_loop_spec. right. split; [done|]. unfold RotateRetryAttempts. lia. Qed.
End laws.

(** ** The fan-out *)
Section fanout.
Context {S : Type} `{P : !Peer S}.
Context (ctx : Endpoint → attempt_ctx) (o n : string) (phase : RotationPhase).
Implicit Types (w : world S) (eps : list Endpoint).

(** What rotating [ep] alone gives. *)
Definition alone (w : world S) (ep : Endpoint) : S * (unit + error) :=
  rotateOneWithRetry (ctx ep) o n (w (Addr ep)).
Definition alone_result (w : world S) (ep : Endpoint) : PodResult :=
  {| pr_Endpoint := ep; pr_Phase := phase; pr_Err := err_of (alone w ep).2 |}.

Lemma rotateMany_alone eps w w' rs :
  NoDup (Addr <$> eps) → rotateMany ctx o n phase eps w = (w', rs) →
  rs = alone_result w <$> eps ∧
  (∀ ep, ep ∈ eps → w' (Addr ep) = (alone w ep).1) ∧
  (∀ a, a ∉ Addr <$> eps → w' a = w a).
Proof.
  revert w w' rs. induction eps as [|ep eps IH]; intros w w' rs Hnd; simpl.
  { intros [= <- <-]. split_and!; [done| |done]. intros ep H. by apply not_elem_of_nil in H. }
  unfold rotate_pod. fold (alone w ep).
  apply NoDup_cons in Hnd as [Hni Hnd]. destruct (alone w ep) as [s r] eqn:Ha.
  destruct (rotateMany ctx o n phase eps (put (Addr ep) s w)) as [w1 rs1] eqn:Hm.
  apply IH in Hm as (-> & Hin & Hout); [|done]. intros [= <- <-].
  assert (Hagree : ∀ e, e ∈ eps → put (Addr ep) s w (Addr e) = w (Addr e)).
  { intros e He. unfold put. case_decide as E; [|done]. destruct Hni. rewrite <- E.
    by apply list_elem_of_fmap_2. }
  assert (Hal : ∀ e, e ∈ eps → alone (put (Addr ep) s w) e = alone w e).
  { intros e He. unfold alone. by rewrite Hagree. }
  split_and!.
  - f_equal; [unfold alone_result; by rewrite Ha|]. apply list_fmap_ext. intros i e He.
    apply list_elem_of_lookup_2 in He. unfold alone_result. by rewrite Hal.
  - intros e [->|He]%elem_of_cons; [|rewrite Hin by done; by rewrite Hal].
    rewrite Hout by done. unfold put. by rewrite decide_True, Ha.
  - intros a Ha'. apply not_elem_of_cons in Ha' as [Hne Ha'].
    rewrite Hout by done. unfold put. by rewrite decide_False.
Qed.

(** The parallel legs of a rotation do not interfere.  Whatever order the goroutines
    of [rotateMany] run in, every pod ends in the same state and gets the same result,
    as long as no two endpoints share an address. *)
Theorem rotateMany_any_order eps eps2 w :
  NoDup (Addr <$> eps) → eps ≡ₚ eps2 →
  let a := rotateMany ctx o n phase eps w in
  let b := rotateMany ctx o n phase eps2 w in
  a.2 ≡ₚ b.2 ∧ ∀ addr, a.1 addr = b.1 addr.
Proof.
  intros Hnd Hp. simpl. assert (Hnd2 : NoDup (Addr <$> eps2)) by (by rewrite <- Hp).
  destruct (rotateMany ctx o n phase eps w) as [w1 r1] eqn:E1.
  destruct (rotateMany ctx o n phase eps2 w) as [w2 r2] eqn:E2.
  apply rotateMany_alone in E1 as (-> & Hin1 & Hout1); [|done].
  apply rotateMany_alone in E2 as (-> & Hin2 & Hout2); [|done].
  split; simpl; [by rewrite Hp|]. intros addr.
  destruct (decide (addr ∈ Addr <$> eps)) as [Hin|Hout].
  - apply list_elem_of_fmap in Hin as (ep & -> & Hin).
    rewrite Hin1, Hin2; [done| |done]. by rewrite <- Hp.
  - rewrite Hout1, Hout2; [done| |done]. by rewrite <- Hp.
Qed.
End fanout.

(** ** A concrete pod, for evaluation: faults are a script, one per command *)
Inductive fault : Type := Deliver | LoseReply | RefuseWrite | ReadOnlyConfig.

Record pod_state := {
  ps_requirepass : string;
  ps_masterauth : string;
  ps_faults : list fault;
  ps_dials : list bool
}.

Definition ok_line : string := "+OK" +:+ String "013" (String LF "").
Definition err_line : string := "-ERR" +:+ String "013" (String LF "").

(** A reply to [args]: AUTH checks the password, CONFIG SET sets. *)
Definition pod_reply (readonly : bool) (args : list string) (p : pod_state) : pod_state * string :=
  match args with
  | ["AUTH"; pw] => (p, if bool_decide (pw = ps_requirepass p) then ok_line else err_line)
  | ["CONFIG"; "SET"; "requirepass"; pw] =>
      ({| ps_requirepass := pw; ps_masterauth := ps_masterauth p; ps_faults := ps_faults p;
          ps_dials := ps_dials p |}, ok_line)
  | ["CONFIG"; "SET"; "masterauth"; pw] =>
      ({| ps_requirepass := ps_requirepass p; ps_masterauth := pw; ps_faults := ps_faults p;
          ps_dials := ps_dials p |}, ok_line)
  | ["CONFIG"; "REWRITE"] => (p, if readonly then err_line else ok_line)
  | _ => (p, ok_line)
  end.

Definition next_fault (p : pod_state) : fault * pod_state :=
  match ps_faults p with
  | [] => (Deliver, p)
  | f :: fs => (f, {| ps_requirepass := ps_requirepass p; ps_masterauth := ps_masterauth p;
                      ps_faults := fs; ps_dials := ps_dials p |})
  end.

Definition pod_exec (args : list string) (p : pod_state) : pod_state * sent :=
  match next_fault p with
  | (RefuseWrite, p) => (p, SendErr "broken pipe")
  | (LoseReply, p) => ((pod_reply false args p).1, Sent "" "i/o timeout")
  | (Deliver, p) => let '(p, b) := pod_reply false args p in (p, Sent b "EOF")
  | (ReadOnlyConfig, p) => let '(p, b) := pod_reply true args p in (p, Sent b "EOF")
  end.

(** [false]: the dial is refused. *)
Definition pod_connect (p : pod_state) : pod_state * option string :=
  match ps_dials p with
  | [] => (p, None)
  | d :: ds => ({| ps_requirepass := ps_requirepass p; ps_masterauth := ps_masterauth p;
                   ps_faults := ps_faults p; ps_dials := ds |},
                if d then None else Some "connection refused")
  end.

#[export] Instance pod_peer : Peer pod_state := { connect := pod_connect; exec := pod_exec }.

Lemma next_fault_creds p :
  ps_requirepass (next_fault p).2 = ps_requirepass p ∧ ps_masterauth (next_fault p).2 = ps_masterauth p.
Proof. unfold next_fault. by destruct (ps_faults p). Qed.

Lemma pod_reply_framed b args p : framed (pod_reply b args p).2.
Proof.
  assert (framed ok_line ∧ framed err_line) as [Hok Herr].
  { split; right; [exists ("+OK" +:+ String "013" "")|exists ("-ERR" +:+ String "013" "")]; done. }
  unfold pod_reply. repeat (case_match; try done).
Qed.

Lemma pod_reply_creds b args p :
  (ps_requirepass (pod_reply b args p).1 = ps_requirepass p ∨
   ∃ pw, args = set_requirepass pw ∧ ps_requirepass (pod_reply b args p).1 = pw) ∧
  (ps_masterauth (pod_reply b args p).1 = ps_masterauth p ∨
   ∃ pw, args = set_masterauth pw ∧ ps_masterauth (pod_reply b args p).1 = pw).
Proof.
  unfold pod_reply. repeat (case_match; simpl; try (by split; left)); simpl.
  - split; [left; done|right; eexists; done].
  - split; [right; eexists; done|left; done].
Qed.

Lemma pod_exec_cases args p :
  let p1 := (next_fault p).2 in
  pod_exec args p = (p1, SendErr "broken pipe") ∨
  pod_exec args p = ((pod_reply false args p1).1, Sent "" "i/o timeout") ∨
  ∃ b, pod_exec args p = ((pod_reply b args p1).1, Sent (pod_reply b args p1).2 "EOF").
Proof.
  unfold pod_exec. destruct (next_fault p) as [[] p1]; simpl; [|by auto|by auto|];
    right; right; [exists false|exists true]; by destruct (pod_reply _ args p1).
Qed.

#[export] Program Instance pod_laws : ValkeyLaws pod_state :=
  { requirepass := ps_requirepass; masterauth := ps_masterauth }.
Next Obligation. intros s. simpl. unfold pod_connect. by destruct (ps_dials s). Qed.
Next Obligation. intros s. simpl. unfold pod_connect. by destruct (ps_dials s). Qed.
Next Obligation.
  intros args s s' b e H. simpl in H.
  destruct (pod_exec_cases args s) as [E|[E|[x E]]]; rewrite E in H; simplify_eq; [by left|].
  apply pod_reply_framed.
Qed.
Next Obligation.
  intros args s. simpl. destruct (next_fault_creds s) as [Hr _].
  destruct (pod_exec_cases args s) as [E|[E|[x E]]]; rewrite E; simpl; [by left|..];
    rewrite <- Hr; apply pod_reply_creds.
Qed.
Next Obligation.
  intros args s. simpl. destruct (next_fault_creds s) as [_ Hm].
  destruct (pod_exec_cases args s) as [E|[E|[x E]]]; rewrite E; simpl; [by left|..];
    rewrite <- Hm; apply pod_reply_creds.
Qed.
Next Obligation.
  intros p s s' b e H. simpl in H.
  destruct (pod_exec_cases (set_requirepass p) s) as [E|[E|[x E]]]; rewrite E in H; by simplify_eq/=.
Qed.
Next Obligation.
  intros p s s' b e H. simpl in H.
  destruct (pod_exec_cases (set_masterauth p) s) as [E|[E|[x E]]]; rewrite E in H; by simplify_eq/=.
Qed.

Definition calm : Endpoint → attempt_ctx := λ _, {| a_until := λ _, None; a_done := λ _, None |}.
Definition pod_on (pw : string) (faults : list fault) (dials : list bool) : pod_state :=
  {| ps_requirepass := pw; ps_masterauth := pw; ps_faults := faults; ps_dials := dials |}.
Definition ep_a : Endpoint := mkEndpoint "vk-0" "10.0.0.1:6379".
Definition ep_b : Endpoint := mkEndpoint "vk-1" "10.0.0.2:6379".

Lemma rotateMany_any_order_witness :
  let w : world pod_state := λ a, pod_on "old" (if decide (a = Addr ep_a) then [LoseReply] else []) [] in
  let a := rotateMany calm "old" "new" RotationPhaseReplica [ep_a; ep_b] w in
  let b := rotateMany calm "old" "new" RotationPhaseReplica [ep_b; ep_a] w in
  a.2 ≡ₚ b.2 ∧ ∀ addr, a.1 addr = b.1 addr.
Proof.
  intros w. apply (rotateMany_any_order calm "old" "new" RotationPhaseReplica [ep_a; ep_b] [ep_b; ep_a] w).
  - repeat constructor; set_solver.
  - apply Permutation_swap.
Defined.
