(* ===== verification/PrimaryRollout.v ===== *)
(** * Hand-off of the primary during a rollout: [internal/controller/primary_rollout.go]

    [runPrimaryRolloutDispatch] picks a promotion candidate, records the strip in
    the CR's status, strips the primary's role label and issues SENTINEL
    FAILOVER, undoing the strip when the failover is refused.  The writes that
    other processes can see are kept, in order, as a trace of [effect]s: a crash
    of the operator leaves some prefix of it behind.  [maintainFailoverDispatchMarker]
    is the recovery side.  Every clock reading, API outcome and reply is an input. *)
From S2P Require Import Prelude GoStd GoFmt Fsm Resp SentinelParse Observer TripleCheck SQAggregate SentinelWire Status DeriveState LagChecker.
Local Open Scope Z_scope.

Definition failoverInFlightLatchTTL : Duration := 210 * Second.
Definition nogoodslaveCooldownTTL : Duration := 15 * Second.
Definition DefaultPollInterval : Duration := 10 * Second.
Definition maxRolloutSnapshotAge : Duration := 3 * DefaultPollInterval.
Definition DefaultPort : Z := 6379.
Definition roleLabelUnset : string := "<unset>".

(** ** Times in the stored object

    The API server stores a [metav1.Time] as RFC 3339 text with whole seconds. *)
Class MetaTime := {
  wire_time : Time → Time;
  wire_time_le t : wire_time t <= t;
  wire_time_gt t : t < wire_time t + Second
}.

Definition floor_second : MetaTime.
Proof.
  refine {| wire_time t := t / Second * Second |}; intros t; unfold Second.
  - pose proof (Z.mul_div_le t 1000000000). lia.
  - pose proof (Z.mod_pos_bound t 1000000000). pose proof (Z.div_mod t 1000000000). lia.
Defined.

(** ** Writes seen outside the process *)
Inductive effect : Type :=
  | PersistMarker (m : FailoverDispatchStatus)
  | StripLabel (pod : string)
  | FailoverCall (r : option failover_err)
  | RestoreLabel (pod : string)
  | ClearMarker.

(** ** Choice of the candidate *)
Definition rolloutMaxLagBytes (cr : CRSpec) : Z :=
  if spec_MaxLagBytes cr <=? 0 then 10000 else spec_MaxLagBytes cr.

(** The filter of [classifyPrimaryRolloutPods] on the pods that are not primary. *)
Definition viable (p : Pod) : bool :=
  if bool_decide (is_Some (pod_DeletionTimestamp p)) then false
  else if bool_decide (pod_IP p = "") then false
  else if negb (podReady p) then false
  else true.

Definition classify_pod (acc : option Pod * list Pod) (p : Pod) : option Pod * list Pod :=
  if isPrimary p then (Some p, acc.2)
  else if viable p then (acc.1, acc.2 ++ [p])
  else acc.

Definition classifyPrimaryRolloutPods (pods : result (list Pod)) : result (option Pod * list Pod) :=
  match pods with
  | Err e => Err ("listing valkey pods: " +:+ e)
  | Ok pods => Ok (foldl classify_pod (None, []) pods)
  end.

Record scored := { sc_pod : Pod; sc_lag : Z }.

(** The [less] of [sort.Slice]. *)
Definition scored_less (a b : scored) : bool :=
  if negb (sc_lag a =? sc_lag b) then sc_lag a <? sc_lag b
  else String.ltb (pod_Name (sc_pod a)) (pod_Name (sc_pod b)).

Fixpoint insert_sorted (x : scored) (l : list scored) : list scored :=
  match l with
  | [] => [x]
  | y :: l => if scored_less y x then y :: insert_sorted x l else x :: y :: l
  end.
Definition sort_scored (l : list scored) : list scored := foldr insert_sorted [] l.

(** [lag addr]: the checker's answer, [None] for an error. *)
Definition score (lag : string → option LagState) (maxLagBytes : Z) (p : Pod) : option scored :=
  match lag (JoinHostPort (pod_IP p) (Itoa DefaultPort)) with
  | None => None
  | Some st =>
      if bool_decide (Role st = "master") then Some {| sc_pod := p; sc_lag := 0 |}
      else if negb (LinkUp st) then None
      else if maxLagBytes <? LagBytes st then None
      else Some {| sc_pod := p; sc_lag := LagBytes st |}
  end.

Definition pickPromotionCandidate (lag : string → option LagState) (candidates : list Pod)
    (maxLagBytes : Z) : option Pod :=
  sc_pod <$> head (sort_scored (omap (score lag maxLagBytes) candidates)).

Section rollout.
Context {M : MetaTime}.
Context (FSM : option (list Transition)) (recorder : bool).

(** ** The durable marker *)
Definition put_marker (x : option FailoverDispatchStatus) (r : option RolloutStatus) : option RolloutStatus :=
  let r := default rollout_zero r in
  Some {| SuspendedFrom := SuspendedFrom r; FailoverDispatch := x |}.
Definition marker_of (r : option RolloutStatus) : option FailoverDispatchStatus := r ≫= FailoverDispatch.

(** What the server stores for a marker. *)
Definition wire_marker (m : FailoverDispatchStatus) : FailoverDispatchStatus :=
  {| fd_PreStripAddr := fd_PreStripAddr m; fd_Deadline := wire_time <$> fd_Deadline m;
     fd_PreStripEpoch := fd_PreStripEpoch m |}.

(** [true]: the patch succeeded. *)
Definition persistFailoverDispatch (ok : bool) (addr : string) (epoch : Z) (dl : Time)
    (x : ctl * list effect) : bool * (ctl * list effect) :=
  let '(c, tr) := x in
  let m := {| fd_PreStripAddr := addr; fd_Deadline := Some dl; fd_PreStripEpoch := epoch |} in
  if ok then
    let st := put_marker (Some (wire_marker m)) (stored c) in
    (true, (set_status st st c, tr ++ [PersistMarker (wire_marker m)]))
  else (false, (c, tr)).

Definition clearFailoverDispatch (ok : bool) (x : ctl * list effect) : ctl * list effect :=
  let '(c, tr) := x in
  match marker_of (view c) with
  | None => (c, tr)
  | Some _ =>
      if ok then let st := put_marker None (stored c) in (set_status st st c, tr ++ [ClearMarker])
      else (set_status (put_marker None (view c)) (stored c) c, tr)
  end.

Definition failoverLatchSetCooldown (addr : string) (now : Time) (s : perCRState) : perCRState :=
  set_latch (Some {| preStripAddr := addr; deadline := Add now nogoodslaveCooldownTTL; preStripEpoch := 0 |}) s.

(** ** The strip and its undo *)
Definition audit_role_label (pod from to trigger : string) : event :=
  AuditEvent "pod_label_reconciled" [("pod", pod); ("from", from); ("to", to); ("trigger", trigger)].

Definition set_label (k : string) (v : option string) (p : Pod) : Pod :=
  {| pod_Name := pod_Name p;
     pod_Labels := match v with Some v => <[k := v]> (pod_Labels p) | None => delete k (pod_Labels p) end;
     pod_DeletionTimestamp := pod_DeletionTimestamp p; pod_IP := pod_IP p;
     pod_NodeName := pod_NodeName p; pod_Conditions := pod_Conditions p;
     pod_ReadinessGates := pod_ReadinessGates p |}.

(** Both return the success flag and the in-memory pod. *)
Definition stripPrimaryLabel (ok : bool) (p : Pod) (x : ctl * list effect) :
    (bool * Pod) * (ctl * list effect) :=
  let '(c, tr) := x in
  match pod_Labels p !! RoleLabel with
  | None => ((true, p), x)
  | Some from =>
      let p' := set_label RoleLabel None p in
      if ok then
        let c := recordEventf recorder
                   (PodEvent (pod_Name p) "PodLabelReconciled" "PrimaryLabelStripBeforeFailover") c in
        ((true, p'), (record (audit_role_label (pod_Name p) from roleLabelUnset "switch-master") c,
                      tr ++ [StripLabel (pod_Name p)]))
      else ((false, p'), x)
  end.

Definition restorePrimaryLabel (ok : bool) (p : Pod) (x : ctl * list effect) :
    (bool * Pod) * (ctl * list effect) :=
  let '(c, tr) := x in
  if isPrimary p then ((true, p), x)
  else
    let p' := set_label RoleLabel (Some roleValuePrimary) p in
    if ok then
      let c := recordEventf recorder
                 (PodEvent (pod_Name p) "PodLabelReconciled" "PrimaryLabelRestoreAfterFailoverError") c in
      let from := if bool_decide (label p RoleLabel = "") then roleLabelUnset else label p RoleLabel in
      ((true, p'), (record (audit_role_label (pod_Name p) from roleValuePrimary "switch-master") c,
                    tr ++ [RestoreLabel (pod_Name p)]))
    else ((false, p'), x).

Definition emitNoSuitableReplica (detail : string) (c : ctl) : ctl :=
  recordEventf recorder (CREvent true "NoSuitableReplica" "PrimaryRolloutPreflight"
    ("failover refused: " +:+ detail)) c.

Definition emitFailoverDeferredStale (age : Duration) (c : ctl) : ctl :=
  recordEventf recorder (CREvent true "FailoverSuppressed" "PrimaryRolloutDispatch"
    ("deferring SENTINEL FAILOVER: observer snapshot is " +:+ DurationString (RoundSecond age) +:+
     " old (> max " +:+ DurationString maxRolloutSnapshotAge +:+
     "); the pull tick has not confirmed quorum recently — awaiting a fresh poll")) c.

Definition candidate_guards (ready : bool) : GuardCtx :=
  {| Fsm.QuorumOK := true; SplitBrain := false; QuorumPrimaryAgreed := false; Pod0LabeledPrimary := false;
     CandidateReplicaReady := ready; HasMoreReplicas := false; NewPrimaryStable := false;
     OldPrimaryNowReplica := false; OldPrimaryReplicaReady := false;
     RolloutSuspendedFromPending := false; CKQUORUMOKHysteresisPassed := false |}.

(** T15: the refusal of the hand-off. *)
Definition refuse (detail : string) (c : ctl) : ctl :=
  (applyFSM FSM recorder StateRolloutPrimary EventReconcileTick (candidate_guards false)
     (emitNoSuitableReplica detail c)).2.

(** ** One dispatch *)
Record dispatch_in := {
  d_observer : option Snapshot;
  d_nowStale : Time;      (* the four clock readings, in program order *)
  d_nowLatch : Time;
  d_nowDeadline : Time;
  d_nowCooldown : Time;
  d_list : result (list Pod);
  d_lag : string → option LagState;
  d_persist : bool;       (* outcomes of the API writes *)
  d_strip : bool;
  d_restore : bool;
  d_clear : bool;
  d_master : string;
  d_password : string;
  d_endpoints : list Endpoint;
  d_dial : Endpoint → conn
}.

Definition audit_failover (old new rolloutID : string) : event :=
  AuditEvent "sentinel_failover_issued"
    ([("old_primary", old); ("new_primary", new); ("reason", "rollout")] ++
     if bool_decide (rolloutID = "") then [] else [("rollout_id", rolloutID)]).

(** Steps 3 to 5, once the primary and the candidate are known. *)
Definition strip_and_failover (i : dispatch_in) (snap : Snapshot) (primary candidate : Pod)
    (c : ctl) : bool * (ctl * list effect) :=
  let addr := Addr (Primary snap) in
  let epoch := Epoch (Primary snap) in
  let dl := Add (d_nowDeadline i) failoverInFlightLatchTTL in
  match persistFailoverDispatch (d_persist i) addr epoch dl (c, []) with
  | (false, x) => (false, x)
  | (true, (c, tr)) =>
      let c := set_percr (failoverLatchSetWithDeadline addr epoch dl (percr c)) c in
      match stripPrimaryLabel (d_strip i) primary (c, tr) with
      | ((false, _), (c, tr)) =>
          (false, clearFailoverDispatch (d_clear i) (set_percr (failoverLatchClear (percr c)) c, tr))
      | ((true, primary), (c, tr)) =>
          let failErr := IssueFailover (d_master i) (d_password i) (d_dial i) (d_endpoints i) in
          let tr := tr ++ [FailoverCall failErr] in
          match failErr with
          | Some (FailoverErr _) =>
              let '(_, x) := restorePrimaryLabel (d_restore i) primary (c, tr) in
              let '(c, tr) := clearFailoverDispatch (d_clear i) x in
              (false, (set_percr (failoverLatchSetCooldown addr (d_nowCooldown i) (percr c)) c, tr))
          | None | Some ErrFailoverInProgress =>
              let '(_, c) := applyFSM FSM recorder StateRolloutPrimary EventReconcileTick
                               (candidate_guards true) c in
              (true, (record (audit_failover (pod_Name primary) (pod_Name candidate)
                                (label candidate stsRevisionLabel)) c, tr))
          end
      end
  end.

Definition runPrimaryRolloutDispatch (cr : CRSpec) (st : State) (i : dispatch_in) (c : ctl) :
    bool * (ctl * list effect) :=
  if negb (bool_decide (st = StateRolloutPrimary)) then (false, (c, []))
  else match d_observer i with
  | None => (false, (c, []))
  | Some snap =>
      if negb (Present snap) || negb (Observer.QuorumOK (Primary snap)) then (false, (c, []))
      else if snapshotStale snap (d_nowStale i) maxRolloutSnapshotAge then
        (false, (emitFailoverDeferredStale (Sub (d_nowStale i) (LastPolledAt (Primary snap))) c, []))
      else
        let '(active, s) :=
          failoverLatchActive (d_nowLatch i) (Addr (Primary snap)) (Epoch (Primary snap)) (percr c) in
        let c := set_percr s c in
        if active then (false, (c, []))
        else match classifyPrimaryRolloutPods (d_list i) with
        | Err _ => (false, (c, []))
        | Ok (None, _) => (false, (c, []))
        | Ok (Some primary, candidates) =>
            if len candidates =? 0 then (true, (refuse "no replica candidates available" c, []))
            else
              let maxLag := rolloutMaxLagBytes cr in
              match pickPromotionCandidate (d_lag i) candidates maxLag with
              | None =>
                  (true, (refuse ("no replica within " +:+ Itoa maxLag +:+
                     " bytes of primary offset (maxLagBytes); checked " +:+ Itoa (len candidates) +:+
                     " candidate(s)") c, []))
              | Some candidate => strip_and_failover i snap primary candidate c
              end
        end
  end.

(** ** Recovery of the marker *)
Definition maintainFailoverDispatchMarker (snap : option Snapshot) (now1 now2 : Time) (clear_ok : bool)
    (c : ctl) : ctl :=
  match marker_of (view c) with
  | None => c
  | Some marker =>
      let '(addr, epoch) := observedPrimaryAddrEpoch snap in
      let c :=
        match failoverLatch (percr c) with
        | None =>
            match fd_Deadline marker with
            | Some dl =>
                if Before now1 dl then
                  set_percr (failoverLatchSetWithDeadline (fd_PreStripAddr marker)
                               (fd_PreStripEpoch marker) dl (percr c)) c
                else c
            | None => c
            end
        | Some _ => c
        end in
      let '(active, s) := failoverLatchActive now2 addr epoch (percr c) in
      let c := set_percr s c in
      if negb active then (clearFailoverDispatch clear_ok (c, [])).1 else c
  end.
End rollout.

(** ** Lemmas: classification and choice *)
Lemma classify_fold pods acc :
  foldl classify_pod acc pods =
    (match last (List.filter isPrimary pods) with Some p => Some p | None => acc.1 end,
     acc.2 ++ List.filter (λ p, negb (isPrimary p) && viable p) pods).
Proof.
  revert acc. induction pods as [|p pods IH]; intros [pr cs]; simpl; [by rewrite app_nil_r|].
  rewrite IH. unfold classify_pod. destruct (isPrimary p) eqn:Hp; simpl.
  - f_equal. destruct (List.filter isPrimary pods) as [|y l]; [done|].
    change (last (p :: y :: l)) with (last (y :: l)).
    destruct (last (y :: l)) eqn:E; [done|]. by apply last_None in E.
  - destruct (viable p); simpl; [|done]. by rewrite <- app_assoc.
Qed.

Lemma last_filter_In {A} (f : A → bool) l x :
  last (List.filter f l) = Some x → x ∈ l ∧ f x = true.
Proof.
  intros H. apply last_Some_elem_of in H. rewrite list_elem_of_In in H.
  apply filter_In in H. by rewrite list_elem_of_In.
Qed.

Lemma viable_spec p :
  viable p = true ↔ pod_DeletionTimestamp p = None ∧ pod_IP p ≠ "" ∧ podReady p = true.
Proof.
  unfold viable. destruct (pod_DeletionTimestamp p) as [t|]; simpl.
  { by split; [|intros (? & _)]. }
  case_bool_decide as Hip; [by split; [|intros (_ & ? & _)]|].
  destruct (podReady p); simpl; split; [done..|]. by intros (_ & _ & ?).
Qed.

Lemma insert_sorted_perm x l : insert_sorted x l ≡ₚ x :: l.
Proof.
  induction l as [|y l IH]; simpl; [done|]. destruct (scored_less y x); [|done].
  rewrite IH. apply perm_swap.
Qed.

Lemma sort_scored_perm l : sort_scored l ≡ₚ l.
Proof. induction l as [|x l IH]; simpl; [done|]. by rewrite insert_sorted_perm, IH. Qed.

(** Go's order on strings is a strict weak order; so is [less]. *)
Lemma ltb_compare a b : String.ltb a b = true ↔ String.compare a b = Lt.
Proof. unfold String.ltb. by destruct (String.compare a b). Qed.

Lemma ltb_cotrans a b c :
  String.ltb a c = true → String.ltb a b = true ∨ String.ltb b c = true.
Proof.
  rewrite !ltb_compare. revert b c. induction a as [|x a IH]; intros [|y b] [|z c]; simpl; auto; try done.
  unfold Ascii.compare.
  destruct (N.compare_spec (Ascii.N_of_ascii x) (Ascii.N_of_ascii z)) as [H1|H1|H1];
    destruct (N.compare_spec (Ascii.N_of_ascii x) (Ascii.N_of_ascii y)) as [H2|H2|H2];
    destruct (N.compare_spec (Ascii.N_of_ascii y) (Ascii.N_of_ascii z)) as [H3|H3|H3];
    auto; try lia; done.
Qed.

Lemma scored_less_spec a b : scored_less a b = true ↔
  sc_lag a < sc_lag b ∨ sc_lag a = sc_lag b ∧ String.ltb (pod_Name (sc_pod a)) (pod_Name (sc_pod b)) = true.
Proof.
  unfold scored_less. destruct (Z.eqb_spec (sc_lag a) (sc_lag b)); simpl; [|rewrite Z.ltb_lt]; intuition lia.
Qed.

Lemma scored_less_cotrans a b c :
  scored_less a c = true → scored_less a b = true ∨ scored_less b c = true.
Proof.
  rewrite !scored_less_spec. intros [H|[H1 H2]].
  - destruct (Z.lt_trichotomy (sc_lag a) (sc_lag b)) as [|[]]; [auto|right; left; lia|right; left; lia].
  - destruct (ltb_cotrans _ (pod_Name (sc_pod b)) _ H2);
      destruct (Z.lt_trichotomy (sc_lag a) (sc_lag b)) as [|[]]; auto; right; [left; lia| |left; lia];
      right; split; [lia|done].
Qed.

Lemma scored_less_asym a b : scored_less a b = true → scored_less b a = false.
Proof.
  intros H. destruct (scored_less b a) eqn:E; [|done]. rewrite scored_less_spec in H, E.
  destruct H as [H|[H1 H2]], E as [E|[E1 E2]]; try lia.
  rewrite ltb_compare in H2, E2. by rewrite String.compare_antisym, E2 in H2.
Qed.

(** The first element of the sorted list is minimal. *)
Lemma head_sort_min l y :
  head (sort_scored l) = Some y → y ∈ l ∧ ∀ x, x ∈ l → scored_less x y = false.
Proof.
  revert y. induction l as [|x l IH]; intros y Hy; [done|]. simpl in Hy.
  assert (∀ z, scored_less z z = false) as Hirr.
  { intros z. destruct (scored_less z z) eqn:E; [|done]. by rewrite (scored_less_asym _ _ E) in E. }
  destruct (sort_scored l) as [|h t] eqn:El.
  - assert (l = []) as -> by (apply Permutation_nil; by rewrite <- El, sort_scored_perm).
    simpl in Hy. simplify_eq. split; [left|]. intros z [->|Hz]%elem_of_cons; [done|].
    by apply not_elem_of_nil in Hz.
  - destruct (IH h eq_refl) as [Hin Hmin]. simpl in Hy. destruct (scored_less h x) eqn:E; simplify_eq/=.
    + split; [by right|]. intros z [->|Hz]%elem_of_cons; [by apply scored_less_asym|auto].
    + split; [left|]. intros z [->|Hz]%elem_of_cons; [done|].
      destruct (scored_less z y) eqn:Ez; [|done].
      destruct (scored_less_cotrans z h y Ez) as [H|H]; [by rewrite Hmin in H|congruence].
Qed.

Definition eligible (lag : string → option LagState) (maxLag : Z) (p : Pod) : Prop :=
  ∃ st, lag (JoinHostPort (pod_IP p) (Itoa DefaultPort)) = Some st ∧
    (Role st = "master" ∨ LinkUp st = true ∧ LagBytes st <= maxLag).

Lemma score_eligible lag maxLag p s : score lag maxLag p = Some s → sc_pod s = p ∧ eligible lag maxLag p.
Proof.
  unfold score, eligible. destruct (lag _) as [st|]; [|done]. case_bool_decide; [intros [= <-]; eauto|].
  destruct (LinkUp st) eqn:Hl; simpl; [|done]. destruct (Z.ltb_spec maxLag (LagBytes st)); [done|].
  intros [= <-]. split; [done|]. exists st. auto.
Qed.

Lemma eligible_score lag maxLag p : eligible lag maxLag p → is_Some (score lag maxLag p).
Proof.
  unfold score, eligible. intros (st & -> & H). case_bool_decide; [by eexists|].
  destruct H as [?|[-> H]]; [done|]. simpl. rewrite (proj2 (Z.ltb_ge maxLag (LagBytes st)) H). by eexists.
Qed.

Lemma pick_eligible lag cs maxLag p :
  pickPromotionCandidate lag cs maxLag = Some p → p ∈ cs ∧ eligible lag maxLag p.
Proof.
  unfold pickPromotionCandidate. rewrite fmap_Some. intros (s & Hs & ->).
  apply head_sort_min in Hs as [Hin _]. apply list_elem_of_omap in Hin as (q & Hq & Hsc).
  apply score_eligible in Hsc as [-> He]. done.
Qed.

(** ** What a dispatch writes, case by case *)
Section dispatch.
Context {M : MetaTime}.
Context (FSM : option (list Transition)) (recorder : bool).

Definition intended_marker (i : dispatch_in) (snap : Snapshot) : FailoverDispatchStatus :=
  {| fd_PreStripAddr := Addr (Primary snap);
     fd_Deadline := Some (wire_time (Add (d_nowDeadline i) failoverInFlightLatchTTL));
     fd_PreStripEpoch := Epoch (Primary snap) |}.

Inductive strip_outcome (i : dispatch_in) (snap : Snapshot) (primary : Pod) :
    bool → list effect → option FailoverDispatchStatus → option failoverInFlightLatch → Prop :=
  | so_strip_failed :
      d_persist i = true → d_strip i = false →
      strip_outcome i snap primary false
        (PersistMarker (intended_marker i snap) :: if d_clear i then [ClearMarker] else [])
        (if d_clear i then None else Some (intended_marker i snap)) None
  | so_failover r :
      d_persist i = true → d_strip i = true →
      r = IssueFailover (d_master i) (d_password i) (d_dial i) (d_endpoints i) →
      (r = None ∨ r = Some ErrFailoverInProgress) →
      strip_outcome i snap primary true
        [PersistMarker (intended_marker i snap); StripLabel (pod_Name primary); FailoverCall r]
        (Some (intended_marker i snap))
        (Some {| preStripAddr := Addr (Primary snap);
                 deadline := Add (d_nowDeadline i) failoverInFlightLatchTTL;
                 preStripEpoch := Epoch (Primary snap) |})
  | so_refused e :
      d_persist i = true → d_strip i = true →
      Some (FailoverErr e) = IssueFailover (d_master i) (d_password i) (d_dial i) (d_endpoints i) →
      strip_outcome i snap primary false
        ([PersistMarker (intended_marker i snap); StripLabel (pod_Name primary);
          FailoverCall (Some (FailoverErr e))] ++
         (if d_restore i then [RestoreLabel (pod_Name primary)] else []) ++
         (if d_clear i then [ClearMarker] else []))
        (if d_clear i then None else Some (intended_marker i snap))
        (Some {| preStripAddr := Addr (Primary snap);
                 deadline := Add (d_nowCooldown i) nogoodslaveCooldownTTL; preStripEpoch := 0 |}).

Lemma recordEventf_frame b e c :
  percr (recordEventf b e c) = percr c ∧ view (recordEventf b e c) = view c ∧
  stored (recordEventf b e c) = stored c.
Proof. by destruct b. Qed.

Lemma strip_persist_refused i snap primary cand c :
  d_persist i = false →
  strip_and_failover FSM recorder i snap primary cand c = (false, (c, [])).
Proof. intros H. unfold strip_and_failover, persistFailoverDispatch. by rewrite H. Qed.

Lemma clear_marked b c m tr :
  marker_of (view c) = Some m →
  clearFailoverDispatch b (c, tr) =
    (if b then let st := put_marker None (stored c) in (set_status st st c, tr ++ [ClearMarker])
     else (set_status (put_marker None (view c)) (stored c) c, tr)).
Proof. intros H. unfold clearFailoverDispatch. by rewrite H. Qed.

Lemma strip_and_failover_outcome i snap primary cand c b c' tr :
  isPrimary primary = true → d_persist i = true →
  strip_and_failover FSM recorder i snap primary cand c = (b, (c', tr)) →
  strip_outcome i snap primary b tr (marker_of (stored c')) (failoverLatch (percr c')).
Proof.
  intros Hp Hper. unfold strip_and_failover, persistFailoverDispatch, stripPrimaryLabel. rewrite Hper.
  unfold isPrimary, label in Hp. apply bool_decide_eq_true in Hp.
  destruct (pod_Labels primary !! RoleLabel) as [from|] eqn:Hfrom; [|done].
  destruct (d_strip i) eqn:Hs.
  2: { rewrite (clear_marked _ _ (intended_marker i snap)) by done.
       destruct (d_clear i) eqn:Hc; intros [= <- <- <-];
       pose proof (so_strip_failed i snap primary Hper Hs) as H; by rewrite Hc in H. }
  destruct (IssueFailover _ _ _ _) as [[|e]|] eqn:Hf.
  - destruct (applyFSM _ _ _ _ _ _) as [x c1] eqn:Ha. intros [= <- <- <-].
    pose proof (applyFSM_frame FSM recorder StateRolloutPrimary EventReconcileTick (candidate_guards true)) as F.
    match type of Ha with applyFSM _ _ _ _ _ ?c0 = _ => specialize (F c0) end. rewrite Ha in F. simpl in F.
    destruct F as (F1 & _ & F3). simpl. rewrite F1, F3.
    rewrite (proj1 (recordEventf_frame _ _ _)), (proj2 (proj2 (recordEventf_frame _ _ _))).
    apply (so_failover i snap primary (Some ErrFailoverInProgress)); auto.
  - unfold restorePrimaryLabel.
    assert (isPrimary (set_label RoleLabel None primary) = false) as ->.
    { unfold isPrimary, label. simpl. by rewrite lookup_delete_eq. }
    pose proof (so_refused i snap primary e Hper Hs (eq_sym Hf)) as H.
    destruct (d_restore i) eqn:Hr; rewrite (clear_marked _ _ (intended_marker i snap))
      by (by destruct recorder);
      destruct (d_clear i) eqn:Hc; intros [= <- <- <-]; destruct recorder; exact H.
  - destruct (applyFSM _ _ _ _ _ _) as [x c1] eqn:Ha. intros [= <- <- <-].
    pose proof (applyFSM_frame FSM recorder StateRolloutPrimary EventReconcileTick (candidate_guards true)) as F.
    match type of Ha with applyFSM _ _ _ _ _ ?c0 = _ => specialize (F c0) end. rewrite Ha in F. simpl in F.
    destruct F as (F1 & _ & F3). simpl. rewrite F1, F3.
    rewrite (proj1 (recordEventf_frame _ _ _)), (proj2 (proj2 (recordEventf_frame _ _ _))).
    apply (so_failover i snap primary None); auto.
Qed.

(** The conditions under which a dispatch may write anything. *)
Record dispatch_gates (cr : CRSpec) (st : State) (i : dispatch_in) (c : ctl) (snap : Snapshot)
    (pods : list Pod) (primary candidate : Pod) : Prop := {
  g_state : st = StateRolloutPrimary;
  g_observer : d_observer i = Some snap;
  g_present : Present snap = true;
  g_quorum : Observer.QuorumOK (Primary snap) = true;
  g_fresh : Sub (d_nowStale i) (LastPolledAt (Primary snap)) <= maxRolloutSnapshotAge;
  g_latch : failoverLatchActivePure (d_nowLatch i) (Addr (Primary snap)) (Epoch (Primary snap)) (percr c) = false;
  g_list : d_list i = Ok pods;
  g_primary : primary ∈ pods ∧ isPrimary primary = true;
  g_candidate : candidate ∈ pods ∧ isPrimary candidate = false ∧ pod_DeletionTimestamp candidate = None ∧
                pod_IP candidate ≠ "" ∧ podReady candidate = true;
  g_lag : eligible (d_lag i) (rolloutMaxLagBytes cr) candidate;
  g_persist : d_persist i = true
}.

Lemma rollout_cases cr st i c b c' tr :
  runPrimaryRolloutDispatch FSM recorder cr st i c = (b, (c', tr)) →
  tr = [] ∨
  ∃ snap pods primary candidate,
    dispatch_gates cr st i c snap pods primary candidate ∧
    strip_outcome i snap primary b tr (marker_of (stored c')) (failoverLatch (percr c')).
Proof.
  unfold runPrimaryRolloutDispatch.
  case_bool_decide as Hst; simpl; [|intros [= <- <- <-]; by left].
  destruct (d_observer i) as [snap|] eqn:Ho; [|intros [= <- <- <-]; by left].
  destruct (Present snap) eqn:Hp, (Observer.QuorumOK (Primary snap)) eqn:Hq; simpl;
    try (intros [= <- <- <-]; by left).
  destruct (snapshotStale _ _ _) eqn:Hfresh; [intros [= <- <- <-]; by left|].
  pose proof (failoverLatchActive_pure (d_nowLatch i) (Addr (Primary snap)) (Epoch (Primary snap)) (percr c)) as Hl.
  destruct (failoverLatchActive _ _ _ _) as [active s]. simpl in Hl. subst active.
  destruct (failoverLatchActivePure _ _ _ _) eqn:Hlatch; [intros [= <- <- <-]; by left|].
  destruct (d_list i) as [pods|e] eqn:Hlist; simpl; [|intros [= <- <- <-]; by left].
  rewrite classify_fold. simpl.
  destruct (last (List.filter isPrimary pods)) as [primary|] eqn:Hprim; [|intros [= <- <- <-]; by left].
  set (cands := List.filter _ pods).
  destruct (len cands =? 0); [intros [= <- <- <-]; by left|].
  destruct (pickPromotionCandidate (d_lag i) cands (rolloutMaxLagBytes cr)) as [candidate|] eqn:Hpick;
    [|intros [= <- <- <-]; by left].
  apply last_filter_In in Hprim as [Hin Hisp].
  apply pick_eligible in Hpick as [Hc Hel]. unfold cands in Hc.
  rewrite list_elem_of_In in Hc. apply filter_In in Hc as [Hc Hv].
  rewrite <- list_elem_of_In in Hc. apply andb_true_iff in Hv as [Hnp Hv].
  apply negb_true_iff in Hnp. apply viable_spec in Hv.
  destruct (d_persist i) eqn:Hper.
  2: { rewrite strip_persist_refused by done. intros [= <- <- <-]. by left. }
  intros H. right. exists snap, pods, primary, candidate. split.
  - split; try done.
    unfold snapshotStale in Hfresh. by apply Z.ltb_ge in Hfresh.
  - by eapply strip_and_failover_outcome.
Qed.

(** C2: SENTINEL FAILOVER is issued only behind every gate, and in order.  Whenever a
    dispatch issues it, the machine is in RolloutPrimary, the observer's snapshot is
    present, has quorum and was polled at most 30 s ago, no earlier dispatch is still in
    flight, a pod is labelled primary, and some other pod that is Ready, not terminating
    and addressable is within the lag bound (or already reports itself master); and the
    first two outside effects were, in this order, the durable marker carrying the
    pre-strip address and epoch, and the strip of that primary's label. *)
Theorem failover_dispatch_guarded cr st i c b c' tr r :
  runPrimaryRolloutDispatch FSM recorder cr st i c = (b, (c', tr)) →
  FailoverCall r ∈ tr →
  ∃ snap pods primary candidate rest,
    dispatch_gates cr st i c snap pods primary candidate ∧
    tr = PersistMarker (intended_marker i snap) :: StripLabel (pod_Name primary) :: FailoverCall r :: rest.
Proof.
  intros H Hin. apply rollout_cases in H as [->|(snap & pods & primary & cand & Hg & Ho)].
  { by apply not_elem_of_nil in Hin. }
  exists snap, pods, primary, cand. inversion Ho; subst; clear Ho.
  - exfalso. rewrite list_elem_of_In in Hin. destruct (d_clear i); simpl in Hin; naive_solver.
  - exists []. split; [done|]. rewrite list_elem_of_In in Hin. simpl in Hin.
    destruct Hin as [?|[?|[?|[]]]]; congruence.
  - eexists. split; [done|]. rewrite list_elem_of_In in Hin. simpl in Hin.
    destruct Hin as [?|[?|[[= <-]|Hin]]]; [congruence|congruence|reflexivity|].
    exfalso. destruct (d_restore i), (d_clear i); simpl in Hin; naive_solver.
Qed.

(** The durable state a prefix of the trace leaves behind. *)
Definition replay_label (stripped : bool) (e : effect) : bool :=
  match e with StripLabel _ => true | RestoreLabel _ => false | _ => stripped end.
Definition replay_marker (m : option FailoverDispatchStatus) (e : effect) : option FailoverDispatchStatus :=
  match e with PersistMarker m => Some m | ClearMarker => None | _ => m end.

(** C10: At every point where the operator may crash inside a dispatch, a stripped primary is
    covered by the durable marker: each prefix of the writes that leaves the label stripped
    leaves the marker with the pre-strip address and epoch stored, except when sentinel
    refused the failover and the write that puts the label back also failed.  At the end of
    the dispatch the stored marker is the one the writes leave. *)
Theorem strip_covered_by_marker cr st i c b c' tr :
  runPrimaryRolloutDispatch FSM recorder cr st i c = (b, (c', tr)) →
  (∀ done rest, tr = done ++ rest → foldl replay_label false done = true →
     (∃ snap, d_observer i = Some snap ∧
        foldl replay_marker (marker_of (stored c)) done = Some (intended_marker i snap)) ∨
     d_restore i = false ∧ ∃ e, FailoverCall (Some (FailoverErr e)) ∈ done) ∧
  (tr ≠ [] → marker_of (stored c') = foldl replay_marker (marker_of (stored c)) tr).
Proof.
  intros H. apply rollout_cases in H as [->|(snap & pods & primary & cand & Hg & Ho)].
  { split; [|done]. intros done rest Hd Hl. symmetry in Hd. by apply app_eq_nil in Hd as [-> ->]. }
  assert (d_observer i = Some snap) as Hobs by apply Hg.
  split.
  2: { intros _. inversion Ho; subst; clear Ho; [by destruct (d_clear i)|done|].
       by destruct (d_restore i), (d_clear i). }
  intros done rest Hd Hl. inversion Ho; subst; clear Ho.
  - exfalso. destruct (d_clear i);
      destruct done as [|? [|? [|? ?]]]; simplify_eq/=; done.
  - left. exists snap. split; [done|].
    destruct done as [|? [|? [|? [|? ?]]]]; simplify_eq/=; done.
  - destruct (d_restore i) eqn:Hr; [left; exists snap; split; [done|]|];
      destruct (d_clear i);
      destruct done as [|? [|? [|? [|? [|? [|? ?]]]]]]; simplify_eq/=; try done;
      try (left; exists snap; split; done);
      right; (split; [done|]); eexists; rewrite list_elem_of_In; simpl; eauto.
Qed.

Lemma accepted_marker cr st i c c' tr :
  runPrimaryRolloutDispatch FSM recorder cr st i c = (true, (c', tr)) → tr ≠ [] →
  ∃ snap, d_observer i = Some snap ∧ marker_of (stored c') = Some (intended_marker i snap).
Proof.
  intros H Hne. apply rollout_cases in H as [?|(snap & pods & primary & cand & Hg & Ho)]; [done|].
  exists snap. split; [apply Hg|]. by inversion Ho.
Qed.

Lemma refused_latch cr st i c b c' tr e :
  runPrimaryRolloutDispatch FSM recorder cr st i c = (b, (c', tr)) →
  FailoverCall (Some (FailoverErr e)) ∈ tr →
  ∃ snap, d_observer i = Some snap ∧ foldl replay_label false tr = negb (d_restore i) ∧
    failoverLatch (percr c') =
      Some {| preStripAddr := Addr (Primary snap);
              deadline := Add (d_nowCooldown i) nogoodslaveCooldownTTL; preStripEpoch := 0 |}.
Proof.
  intros H Hin. apply rollout_cases in H as [->|(snap & pods & primary & cand & Hg & Ho)].
  { by apply not_elem_of_nil in Hin. }
  exists snap. split; [apply Hg|]. rewrite list_elem_of_In in Hin. inversion Ho; subst; clear Ho.
  - exfalso. destruct (d_clear i); simpl in Hin; naive_solver.
  - exfalso. simpl in Hin. naive_solver.
  - split; [|done]. by destruct (d_restore i), (d_clear i).
Qed.

(** A restart: the per-CR memory is gone, the CR is read back from the server. *)
Definition restart (c : ctl) : ctl :=
  {| percr := percr_zero; view := stored c; stored := stored c; recorded := recorded c |}.

(** The observer still shows the election undecided: no address, the old one, or
    a new one under an epoch older than the fence. *)
Definition undecided (addr : string) (epoch : Z) (addr' : string) (epoch' : Z) : bool :=
  bool_decide (addr' = "") || bool_decide (addr' = addr) || ((0 <? epoch) && (epoch' <? epoch)).

Lemma latch_active_undecided l now addr' epoch' :
  latch_active l now addr' epoch' =
    (now <=? deadline l) && undecided (preStripAddr l) (preStripEpoch l) addr' epoch'.
Proof.
  unfold latch_active, undecided, After. rewrite Z.ltb_antisym.
  destruct (now <=? deadline l); simpl; [|done].
  destruct (bool_decide (addr' = "")), (bool_decide (addr' = preStripAddr l)); simpl; try done.
  by destruct (_ && _).
Qed.

(** A failover in flight survives a restart of the operator.  After a dispatch that
    stripped the label and had its failover accepted, a new process that only has the stored
    CR rebuilds the critical section: up to one second before the original deadline it is
    closed exactly while the observer shows the election undecided under the same address and
    epoch fence, with the marker kept; and once a primary with a current epoch shows up, or
    the deadline has passed, the latch is gone and (the patch permitting) the marker too. *)
Theorem failover_survives_restart cr st i c c' tr snap now1 now2 ok :
  runPrimaryRolloutDispatch FSM recorder cr st i c = (true, (c', tr)) → tr ≠ [] → now1 <= now2 →
  let sn := default snapshot_zero (d_observer i) in
  let dl := Add (d_nowDeadline i) failoverInFlightLatchTTL in
  let '(addr', epoch') := observedPrimaryAddrEpoch snap in
  let open := undecided (Addr (Primary sn)) (Epoch (Primary sn)) addr' epoch' in
  let c2 := maintainFailoverDispatchMarker snap now1 now2 ok (restart c') in
  (now2 <= dl - Second →
     failoverLatchActivePure now2 addr' epoch' (percr c2) = open ∧
     IsFailoverInFlight snap now2 (percr c2) = open ∧
     marker_of (stored c2) = if open || negb ok then Some (intended_marker i sn) else None) ∧
  (dl <= now1 → failoverLatch (percr c2) = None ∧ (ok = true → marker_of (stored c2) = None)).
Proof.
  intros H Hne Hle sn dl.
  destruct (accepted_marker _ _ _ _ _ _ H Hne) as (snap0 & Hobs & Hm).
  assert (sn = snap0) as Hsn by (unfold sn; by rewrite Hobs).
  rewrite Hsn. clear sn Hsn H. unfold IsFailoverInFlight, maintainFailoverDispatchMarker, restart. simpl. rewrite Hm.
  destruct (observedPrimaryAddrEpoch snap) as [addr' epoch']. simpl.
  pose proof (wire_time_le dl) as Hw1. pose proof (wire_time_gt dl) as Hw2. fold dl.
  split.
  - intros Hdl. unfold Before. rewrite (proj2 (Z.ltb_lt now1 (wire_time dl))) by lia.
    unfold failoverLatchActive. simpl. rewrite latch_active_undecided. simpl.
    rewrite (proj2 (Z.leb_le now2 (wire_time dl))) by lia. simpl.
    destruct (undecided _ _ addr' epoch') eqn:Hu; simpl.
    + unfold failoverLatchActivePure. simpl. rewrite latch_active_undecided. simpl.
      rewrite (proj2 (Z.leb_le now2 (wire_time dl))) by lia. simpl. by rewrite Hu.
    + rewrite Hm. by destruct ok.
  - intros Hdl. unfold Before. rewrite (proj2 (Z.ltb_ge now1 (wire_time dl))) by lia.
    simpl. rewrite Hm. destruct ok; done.
Qed.
End dispatch.

(** ** Concrete dispatch *)
Definition demo_lag (addr : string) : option LagState :=
  if bool_decide (addr = "10.0.0.2:6379") then
    Some {| Role := "slave"; LinkUp := true; LagBytes := 12; MasterReplOffset := 100; HaveMasterOffset := true;
            MasterHost := "10.0.0.1"; SlaveReplOffset := 88; HaveSlaveOffset := true |}
  else None.

Definition demo_dispatch (failover : Endpoint → conn) (restore : bool) : dispatch_in :=
  {| d_observer := Some (demo_snap true "10.0.0.1:6379" 7);
     d_nowStale := 105 * Second; d_nowLatch := 105 * Second; d_nowDeadline := 106 * Second;
     d_nowCooldown := 107 * Second;
     d_list := Ok (in_pods (demo_pass true "r1" "r2" "r2")); d_lag := demo_lag;
     d_persist := true; d_strip := true; d_restore := restore; d_clear := true;
     d_master := "mymaster"; d_password := ""; d_endpoints := [{| Name := "s-0"; ep_Addr := "10.0.1.1:26379" |}];
     d_dial := failover |}.

Definition accept (_ : Endpoint) : conn := Ok [IOReply (RStr "OK")].
Definition no_good_slave (_ : Endpoint) : conn := Ok [IORead "NOGOODSLAVE No suitable replica to promote"].
Definition demo_run_dispatch (dial : Endpoint → conn) (restore : bool) : bool * (ctl * list effect) :=
  @runPrimaryRolloutDispatch floor_second (Some NewMachine) true demo_spec StateRolloutPrimary
    (demo_dispatch dial restore) demo_ctl.

Example demo_dispatch_trace :
  (demo_run_dispatch accept true).2.2 =
    [PersistMarker {| fd_PreStripAddr := "10.0.0.1:6379"; fd_Deadline := Some (316 * Second); fd_PreStripEpoch := 7 |};
     StripLabel "v-0"; FailoverCall None].
Proof. vm_compute. reflexivity. Qed.

Example demo_dispatch_undone :
  foldl replay_label false (demo_run_dispatch no_good_slave true).2.2 = false ∧
  foldl replay_label false (demo_run_dispatch no_good_slave false).2.2 = true ∧
  foldl replay_marker None (demo_run_dispatch no_good_slave false).2.2 = None.
Proof. vm_compute. done. Qed.

Lemma failover_dispatch_guarded_witness :
  ∃ snap pods primary candidate rest,
    dispatch_gates demo_spec StateRolloutPrimary (demo_dispatch accept true) demo_ctl snap pods primary candidate ∧
    (demo_run_dispatch accept true).2.2 =
      PersistMarker (@intended_marker floor_second (demo_dispatch accept true) snap) ::
      StripLabel (pod_Name primary) :: FailoverCall None :: rest.
Proof.
  eapply (@failover_dispatch_guarded floor_second (Some NewMachine) true demo_spec StateRolloutPrimary
    (demo_dispatch accept true) demo_ctl (demo_run_dispatch accept true).1
    (demo_run_dispatch accept true).2.1 (demo_run_dispatch accept true).2.2 None).
  - vm_compute. reflexivity.
  - rewrite list_elem_of_In. vm_compute. tauto.
Defined.

Lemma strip_covered_by_marker_witness :
  marker_of (stored (demo_run_dispatch no_good_slave true).2.1) = None.
Proof.
  refine (eq_trans (proj2 (@strip_covered_by_marker floor_second (Some NewMachine) true demo_spec
    StateRolloutPrimary (demo_dispatch no_good_slave true) demo_ctl
    (demo_run_dispatch no_good_slave true).1 (demo_run_dispatch no_good_slave true).2.1
    (demo_run_dispatch no_good_slave true).2.2 _) _) _); [vm_compute; reflexivity|discriminate|reflexivity].
Defined.

Lemma failover_survives_restart_witness :
  IsFailoverInFlight (Some (demo_snap true "10.0.0.1:6379" 7)) (200 * Second)
    (percr (@maintainFailoverDispatchMarker (Some (demo_snap true "10.0.0.1:6379" 7))
       (200 * Second) (200 * Second) true (restart (demo_run_dispatch accept true).2.1))) = true.
Proof.
  refine (proj1 (proj2 (proj1 (@failover_survives_restart floor_second (Some NewMachine) true demo_spec
    StateRolloutPrimary (demo_dispatch accept true) demo_ctl (demo_run_dispatch accept true).2.1
    (demo_run_dispatch accept true).2.2 (Some (demo_snap true "10.0.0.1:6379" 7))
    (200 * Second) (200 * Second) true _ _ _) _))); [vm_compute; reflexivity|discriminate|lia|].
  apply Z.leb_le. vm_compute. reflexivity.
Defined.
