(* ===== verification/RoleLabels.v ===== *)
(** * Role labels of the data-plane pods: [desiredRolesForCR], [reconcileRoleLabels] and their
    helpers in [internal/controller/valkey_controller.go], [observePrimaryStability] in
    [percrstate.go]

    The label [velkir.ioxie.dev/role=primary] selects the endpoints of the write
    Service.  A pass computes the wanted role of every pod and patches the pods
    that differ, first the ones that become primary, then the others.  The
    patches the API server accepted are kept in order as a trace of [leffect]s. *)
From S2P Require Import Prelude GoStd GoFmt Fsm Resp SentinelParse Observer TripleCheck SQAggregate SentinelWire Status DeriveState LagChecker PrimaryRollout.
Local Open Scope Z_scope.

Definition roleValueReplica : string := "replica".
Definition podIndexLabel : string := "apps.kubernetes.io/pod-index".
Definition newPrimaryStableMinPolls : Z := 2.

(** ** Settling of a newly observed primary *)
Record primaryStabilityState := {
  stab_addr : string;
  firstPolled : Time;
  lastPolled : Time;
  freshCount : Z
}.

Definition observePrimaryStability (addr : string) (polledAt : Time)
    (st : option primaryStabilityState) : (Z * Duration) * option primaryStabilityState :=
  if bool_decide (addr = "") then ((0, 0), None)
  else
    let fresh := ((1, 0), Some {| stab_addr := addr; firstPolled := polledAt; lastPolled := polledAt;
                                  freshCount := 1 |}) in
    match st with
    | None => fresh
    | Some st =>
        if negb (bool_decide (stab_addr st = addr)) then fresh
        else
          let st :=
            if After polledAt (lastPolled st)
            then {| stab_addr := stab_addr st; firstPolled := firstPolled st; lastPolled := polledAt;
                    freshCount := freshCount st + 1 |}
            else st in
          ((freshCount st, Sub (lastPolled st) (firstPolled st)), Some st)
    end.

(** ** Wanted roles *)
Definition desiredRoleForPod (crName : string) (p : Pod) : string :=
  match pod_Labels p !! podIndexLabel with
  | Some idx => if bool_decide (idx = "0") then roleValuePrimary else roleValueReplica
  | None => if bool_decide (pod_Name p = crName +:+ "-0") then roleValuePrimary else roleValueReplica
  end.

Definition roles_of (f : Pod → string) (pods : list Pod) : gmap string string :=
  foldl (λ m p, <[pod_Name p := f p]> m) ∅ pods.

Definition bootstrapRoles (crName : string) (pods : list Pod) : gmap string string :=
  roles_of (desiredRoleForPod crName) pods.

Definition anyValkeyPodLabelled (pods : list Pod) : bool :=
  existsb (λ p, bool_decide (label p RoleLabel = roleValuePrimary) ||
                bool_decide (label p RoleLabel = roleValueReplica)) pods.

Definition has_ip (host : string) (p : Pod) : bool :=
  negb (bool_decide (pod_IP p = "")) && bool_decide (pod_IP p = host).

(** The loop of the settling damp: the last match wins. *)
Definition primary_pods (host : string) (pods : list Pod) : string * string :=
  foldl (λ '(cur, want) p,
           (if isPrimary p then pod_Name p else cur, if has_ip host p then pod_Name p else want))
        ("", "") pods.

Section labels.
Context (recorder : bool).

(** The memory of the pass: the controller's and the settling tracker. *)
Definition lstate : Type := ctl * option primaryStabilityState.

Definition desiredRolesForCR (cr : CRSpec) (crName : string) (observer : option Snapshot) (now : Time)
    (pods : list Pod) (x : lstate) : (gmap string string * bool) * lstate :=
  let '(c, stab) := x in
  match (if bool_decide (spec_Mode cr = ModeSentinel) then observer else None) with
  | None => ((bootstrapRoles crName pods, false), x)
  | Some snap =>
      if negb (Present snap) then
        if anyValkeyPodLabelled pods then ((∅, false), x)
        else ((bootstrapRoles crName pods, false), x)
      else if negb (Observer.QuorumOK (Primary snap)) then ((∅, true), x)
      else
        let '(active, s) := failoverLatchActive now (Addr (Primary snap)) (Epoch (Primary snap)) (percr c) in
        let c := set_percr s c in
        if active then ((∅, true), (c, stab))
        else match SplitHostPort (Addr (Primary snap)) with
        | None => ((bootstrapRoles crName pods, false), (c, stab))
        | Some (primaryHost, _) =>
            if negb (podIPMatchesAny primaryHost pods) then
              ((∅, true),
               (recordEventf recorder (CREvent true "NoMasterAgreement" "NoMasterAgreementObserve"
                  ("sentinel observer reports primary=" +:+ Addr (Primary snap) +:+
                   " but no current valkey pod has that IP; suppressing role-label relabel until sentinels recover")) c,
                stab))
            else
              let '((freshPolls, _), stab) :=
                observePrimaryStability (Addr (Primary snap)) (LastPolledAt (Primary snap)) stab in
              let '(current, desired) := primary_pods primaryHost pods in
              if negb (bool_decide (current = "")) && negb (bool_decide (desired = "")) &&
                 negb (bool_decide (current = desired)) && (freshPolls <? newPrimaryStableMinPolls)
              then ((∅, true), (c, stab))
              else ((roles_of (λ p, if has_ip primaryHost p then roleValuePrimary else roleValueReplica) pods,
                     false), (c, stab))
        end
  end.

(** ** Patches *)
Inductive leffect : Type :=
  | LabelPatch (pod want : string)
  | GatePatch (pod : string) (gates : list string)
  | ConditionPatch (pod : string)
  | ClientKill (pod : string).

(** Outcomes of the writes of one pass, per pod: [None], or the error's text. *)
Record label_io := {
  io_label : string → option string;
  io_gate : string → option string;
  io_condition : string → option string;
  io_kill : string → result Z
}.

Definition replicationGateEnabled (cr : CRSpec) (enabled : option bool) : bool :=
  if bool_decide (spec_Mode cr = ModeStandalone) then false
  else match enabled with None => true | Some b => b end.

Definition podHasReadinessGate (p : Pod) (ct : string) : bool :=
  existsb (λ g, bool_decide (g = ct)) (pod_ReadinessGates p).
Definition stripReadinessGate (gates : list string) (ct : string) : list string :=
  List.filter (λ g, negb (bool_decide (g = ct))) gates.

Definition set_gates (g : list string) (p : Pod) : Pod :=
  {| pod_Name := pod_Name p; pod_Labels := pod_Labels p; pod_DeletionTimestamp := pod_DeletionTimestamp p;
     pod_IP := pod_IP p; pod_NodeName := pod_NodeName p; pod_Conditions := pod_Conditions p;
     pod_ReadinessGates := g |}.
Definition set_conditions (cs : list (string * string)) (p : Pod) : Pod :=
  {| pod_Name := pod_Name p; pod_Labels := pod_Labels p; pod_DeletionTimestamp := pod_DeletionTimestamp p;
     pod_IP := pod_IP p; pod_NodeName := pod_NodeName p; pod_Conditions := cs;
     pod_ReadinessGates := pod_ReadinessGates p |}.
Definition stripPodCondition (cs : list (string * string)) (ct : string) : list (string * string) :=
  List.filter (λ c, negb (bool_decide (c.1 = ct))) cs.

(** The error is only logged by the caller. *)
Definition applyRoleTransitionGate (io : label_io) (p : Pod) (desired : string) :
    option string * (Pod * list leffect) :=
  if bool_decide (desired = roleValuePrimary) then
    let '(err, (p, tr)) :=
      if podHasReadinessGate p ReplicationReadyGate then
        let p := set_gates (stripReadinessGate (pod_ReadinessGates p) ReplicationReadyGate) p in
        match io_gate io (pod_Name p) with
        | None => (None, (p, [GatePatch (pod_Name p) (pod_ReadinessGates p)]))
        | Some e => (Some ("strip gate from pod.spec: " +:+ e), (p, []))
        end
      else (None, (p, [])) in
    match err with
    | Some e => (Some e, (p, tr))
    | None =>
        let p := set_conditions (stripPodCondition (pod_Conditions p) ReplicationReadyGate) p in
        match io_condition io (pod_Name p) with
        | None => (None, (p, tr ++ [ConditionPatch (pod_Name p)]))
        | Some e => (Some ("clear gate condition from pod.status: " +:+ e), (p, tr))
        end
    end
  else if bool_decide (desired = roleValueReplica) then
    if podHasReadinessGate p ReplicationReadyGate then (None, (p, []))
    else
      let p := set_gates (pod_ReadinessGates p ++ [ReplicationReadyGate]) p in
      match io_gate io (pod_Name p) with
      | None => (None, (p, [GatePatch (pod_Name p) (pod_ReadinessGates p)]))
      | Some e => (Some ("add gate to pod.spec: " +:+ e), (p, []))
      end
  else (None, (p, [])).

Definition unset_or (role : string) : string := if bool_decide (role = "") then roleLabelUnset else role.

Definition patchOne (io : label_io) (gate : bool) (p : Pod) (want : string) (c : ctl) :
    option string * (Pod * ctl * list leffect) :=
  let current := label p RoleLabel in
  if bool_decide (current = want) then (None, (p, c, []))
  else
    let p := set_label RoleLabel (Some want) p in
    match io_label io (pod_Name p) with
    | Some e => (Some ("patching pod " +:+ Quote (pod_Name p) +:+ " role label: " +:+ e), (p, c, []))
    | None =>
      let c := recordEventf recorder (CREvent false "PodLabelReconciled" "PodLabelReconcile"
                 ("pod " +:+ pod_Name p +:+ " role " +:+ unset_or current +:+ " -> " +:+ want)) c in
      let c := record (audit_role_label (pod_Name p) (unset_or current) want "steady_state") c in
      let tr := [LabelPatch (pod_Name p) want] in
      if negb gate then (None, (p, c, tr))
      else let '(_, (p, tr')) := applyRoleTransitionGate io p want in (None, (p, c, tr ++ tr'))
    end.

(** Passes 1 and 2: the pods whose wanted role is ([promote]) or is not primary;
    the second list collects the pods that lost the primary role. *)
Fixpoint patch_pass (io : label_io) (gate promote : bool) (desired : gmap string string)
    (pods : list Pod) (c : ctl) : option string * (list Pod * list Pod * ctl * list leffect) :=
  match pods with
  | [] => (None, ([], [], c, []))
  | p :: ps =>
      match desired !! pod_Name p with
      | None =>
          let '(err, (ps, dem, c, tr)) := patch_pass io gate promote desired ps c in
          (err, (p :: ps, dem, c, tr))
      | Some want =>
          if negb (Bool.eqb (bool_decide (want = roleValuePrimary)) promote) then
            let '(err, (ps, dem, c, tr)) := patch_pass io gate promote desired ps c in
            (err, (p :: ps, dem, c, tr))
          else
            let wasPrimary := isPrimary p in
            match patchOne io gate p want c with
            | (Some e, (p, c, tr)) => (Some e, (p :: ps, [], c, tr))
            | (None, (p, c, tr)) =>
                let '(err, (ps, dem, c, tr')) := patch_pass io gate promote desired ps c in
                (err, (p :: ps, (if wasPrimary then [p] else []) ++ dem, c, tr ++ tr'))
            end
      end
  end.

(** Pass 3; every failure is reported and skipped. *)
Fixpoint issueClientKillOnDemoted (io : label_io) (demoted : list Pod) (c : ctl) : ctl * list leffect :=
  match demoted with
  | [] => (c, [])
  | p :: ps =>
      if bool_decide (pod_IP p = "") then issueClientKillOnDemoted io ps c
      else
        let '(c, tr) :=
          match io_kill io (JoinHostPort (pod_IP p) (Itoa DefaultPort)) with
          | Err e =>
              (recordEventf recorder (CREvent true "PrimaryClientsDropFailed" "ClientKillFail"
                 ("CLIENT KILL on demoted pod " +:+ pod_Name p +:+ " failed: " +:+ e +:+
                  "; pooled clients will see -READONLY until they reconnect on their own")) c, [])
          | Ok killed =>
              let c := if 0 <? killed
                       then record (AuditEvent "clients_killed"
                              [("pod", pod_Name p); ("count", Itoa killed); ("reason", "primary_demotion")]) c
                       else c in
              (recordEventf recorder (CREvent false "PrimaryClientsDropped" "ClientKillIssued"
                 ("CLIENT KILL on demoted pod " +:+ pod_Name p +:+ " dropped " +:+ Itoa killed +:+
                  " client connection(s)")) c, [ClientKill (pod_Name p)])
          end in
        let '(c, tr') := issueClientKillOnDemoted io ps c in
        (c, tr ++ tr')
  end.

(** The two loads of the snapshot, three clock readings, the pod list, the second
    list of primaries, the marker patch and the label writes. *)
Record relabel_in := {
  l_pods : result (list Pod);
  l_observer : option (Snapshot * Snapshot);
  l_now : Time * Time * Time;
  l_clear : bool;
  l_primaries : result Z;
  l_io : label_io;
  l_gate : option bool
}.

Definition observe_down (cr : CRSpec) (i : relabel_in) (pods : list Pod) (c : ctl) : ctl :=
  let c :=
    if (0 <? len pods) && negb (anyValkeyPodLabelled pods) then
      recordEventf recorder (CREvent true "AllValkeyPodsDown" "AllPodsDownObserve"
        (Itoa (len pods) +:+ " valkey pod(s) present but none carry a role=primary|replica label")) c
    else c in
  if negb (bool_decide (spec_Mode cr = ModeStandalone)) && (0 <? len pods) then
    match l_primaries i with
    | Ok n =>
        if n =? 0 then
          recordEventf recorder (CREvent true "ReplicationPrimaryLost" "PrimaryLostObserve"
            ("no pod labelled role=primary across " +:+ Itoa (len pods) +:+
             " valkey pod(s); replication mode does not auto-promote — restore the primary or migrate to mode=sentinel for HA")) c
        else c
    | Err _ => c
    end
  else c.

Definition reconcileRoleLabels (cr : CRSpec) (crName : string) (i : relabel_in) (x : lstate) :
    option string * (lstate * list leffect) :=
  match l_pods i with
  | Err e => (Some ("listing valkey pods: " +:+ e), (x, []))
  | Ok pods =>
      let '(c, stab) := x in
      let '(now1, now2, now3) := l_now i in
      let c := maintainFailoverDispatchMarker (fst <$> l_observer i) now1 now2 (l_clear i) c in
      let '((desired, suppress), (c, stab)) :=
        desiredRolesForCR cr crName (snd <$> l_observer i) now3 pods (c, stab) in
      if suppress then (None, ((c, stab), []))
      else
        let gate := replicationGateEnabled cr (l_gate i) in
        match patch_pass (l_io i) gate true desired pods c with
        | (Some e, (_, _, c, tr1)) => (Some e, ((c, stab), tr1))
        | (None, (pods, _, c, tr1)) =>
            match patch_pass (l_io i) gate false desired pods c with
            | (Some e, (_, _, c, tr2)) => (Some e, ((c, stab), tr1 ++ tr2))
            | (None, (pods, demoted, c, tr2)) =>
                let '(c, tr3) := issueClientKillOnDemoted (l_io i) demoted c in
                (None, ((observe_down cr i pods c, stab), tr1 ++ tr2 ++ tr3))
            end
        end
  end.
End labels.

(** ** Lemmas: the wanted roles *)
Definition names (pods : list Pod) : list string := pod_Name <$> pods.

Lemma roles_of_fold (f : Pod → string) pods (m : gmap string string) n :
  NoDup (names pods) →
  foldl (λ m p, <[pod_Name p := f p]> m) m pods !! n =
    match List.find (λ p, bool_decide (pod_Name p = n)) pods with
    | Some p => Some (f p)
    | None => m !! n
    end.
Proof.
  revert m. induction pods as [|p pods IH]; intros m Hnd; [done|]. simpl in *.
  apply NoDup_cons in Hnd as [Hp Hnd]. rewrite (IH _ Hnd).
  case_bool_decide as Hn; [|case_match; [done|by rewrite lookup_insert_ne]].
  subst n. destruct (List.find _ pods) as [q|] eqn:Hf; [|by rewrite lookup_insert_eq].
  apply find_some in Hf as [Hq Hqn]. apply bool_decide_eq_true in Hqn. exfalso. apply Hp.
  unfold names. rewrite list_elem_of_fmap. exists q. split; [done|]. by apply list_elem_of_In.
Qed.

Lemma roles_of_lookup (f : Pod → string) pods p :
  NoDup (names pods) → p ∈ pods → roles_of f pods !! pod_Name p = Some (f p).
Proof.
  intros Hnd Hp. unfold roles_of. rewrite (roles_of_fold f pods ∅ (pod_Name p) Hnd).
  induction pods as [|q pods IH]; [by apply not_elem_of_nil in Hp|]. simpl in *.
  apply NoDup_cons in Hnd as [Hq Hnd]. apply elem_of_cons in Hp as [->|Hp].
  - by rewrite bool_decide_eq_true_2.
  - rewrite bool_decide_eq_false_2; [by apply IH|]. intros Heq. apply Hq. rewrite Heq.
    unfold names. apply list_elem_of_fmap. eauto.
Qed.

(** ** Lemmas: one pass of patches *)
Definition is_label (e : leffect) : Prop := match e with LabelPatch _ _ => True | _ => False end.

Lemma gate_no_label io p want : Forall (λ e, ¬ is_label e) (applyRoleTransitionGate io p want).2.2.
Proof.
  unfold applyRoleTransitionGate. repeat case_match; simplify_eq/=;
    repeat (apply Forall_cons; split); auto; try (apply Forall_app; split); auto;
    repeat constructor; auto.
Qed.

Lemma gate_label io p want :
  pod_Name (applyRoleTransitionGate io p want).2.1 = pod_Name p ∧
  pod_Labels (applyRoleTransitionGate io p want).2.1 = pod_Labels p.
Proof. unfold applyRoleTransitionGate. repeat case_match; simplify_eq/=; done. Qed.

Lemma patchOne_spec recorder io gate p want c err p' c' tr :
  patchOne recorder io gate p want c = (err, (p', c', tr)) →
  pod_Name p' = pod_Name p ∧
  (∀ n w, LabelPatch n w ∈ tr → n = pod_Name p ∧ w = want) ∧
  (err = None → label p RoleLabel = want ∨ LabelPatch (pod_Name p) want ∈ tr).
Proof.
  unfold patchOne. case_bool_decide as Hcur.
  { intros [= <- <- <- <-]. split_and!; auto. intros n w H. by apply not_elem_of_nil in H. }
  simpl. destruct (io_label io (pod_Name p)) as [e|].
  { intros [= <- <- <- <-]. split_and!; auto; [|done]. intros n w H. by apply not_elem_of_nil in H. }
  destruct gate; simpl.
  2: { intros [= <- <- <- <-]. split_and!; auto.
       - intros n w [= -> ->]%list_elem_of_singleton. done.
       - intros _. right. by apply list_elem_of_singleton. }
  pose proof (gate_no_label io (set_label RoleLabel (Some want) p) want) as Hg.
  pose proof (gate_label io (set_label RoleLabel (Some want) p) want) as Hl.
  destruct (applyRoleTransitionGate _ _ _) as [ge [pg tg]]. simpl in *.
  intros [= <- <- <- <-]. split_and!.
  - apply Hl.
  - intros n w [[= -> ->]|Hin]%elem_of_cons; [done|]. rewrite Forall_forall in Hg. by apply Hg in Hin.
  - intros _. right. left.
Qed.

Lemma patch_pass_spec recorder io gate promote D pods c err pods' dem c' tr :
  patch_pass recorder io gate promote D pods c = (err, (pods', dem, c', tr)) →
  (∀ n w, LabelPatch n w ∈ tr → D !! n = Some w ∧ bool_decide (w = roleValuePrimary) = promote) ∧
  (err = None → ∀ p w, p ∈ pods → D !! pod_Name p = Some w → bool_decide (w = roleValuePrimary) = promote →
     label p RoleLabel = w ∨ LabelPatch (pod_Name p) w ∈ tr) ∧
  (err = None → ∀ p w, p ∈ pods → D !! pod_Name p = Some w → bool_decide (w = roleValuePrimary) ≠ promote →
     p ∈ pods').
Proof.
  revert c err pods' dem c' tr. induction pods as [|p pods IH]; intros c err pods' dem c' tr; simpl.
  { intros [= <- <- <- <- <-]. split_and!.
    - intros n w H. by apply not_elem_of_nil in H.
    - intros _ p w H. by apply not_elem_of_nil in H.
    - intros _ p w H. by apply not_elem_of_nil in H. }
  destruct (D !! pod_Name p) as [want|] eqn:HD.
  2: { destruct (patch_pass _ _ _ _ D pods c) as [err1 [[[ps1 dem1] c1] tr1]] eqn:E.
       apply IH in E as (H1 & H2 & H3). intros [= <- <- <- <- <-]. split_and!; [done|..].
       - intros He q w [->|Hq]%elem_of_cons; [congruence|eauto].
       - intros He q w [->|Hq]%elem_of_cons; [congruence|]. intros. right. eauto. }
  destruct (Bool.eqb _ promote) eqn:Hsel; simpl.
  2: { apply (proj1 (Bool.eqb_false_iff _ _)) in Hsel.
       destruct (patch_pass _ _ _ _ D pods c) as [err1 [[[ps1 dem1] c1] tr1]] eqn:E.
       apply IH in E as (H1 & H2 & H3). intros [= <- <- <- <- <-]. split_and!; [done|..].
       - intros He q w [->|Hq]%elem_of_cons Hw Hpw; [|eauto].
         rewrite HD in Hw. injection Hw as <-. done.
       - intros He q w [->|Hq]%elem_of_cons; [left|right; eauto]. }
  apply Bool.eqb_prop in Hsel.
  destruct (patchOne _ _ _ p want c) as [[e|] [[p1 c1] tr1]] eqn:Ep; apply patchOne_spec in Ep as (Hn & Ha & Hb).
  { intros [= <- <- <- <- <-]. split_and!; [|done..].
    intros n w Hin. apply Ha in Hin as [-> ->]. by split. }
  destruct (patch_pass _ _ _ _ D pods c1) as [err2 [[[ps2 dem2] c2] tr2]] eqn:E.
  apply IH in E as (H1 & H2 & H3). intros [= <- <- <- <- <-]. split_and!.
  - intros n w [Hin|Hin]%elem_of_app; [|eauto]. apply Ha in Hin as [-> ->]. by split.
  - intros He q w [->|Hq]%elem_of_cons Hw Hpw.
    + rewrite HD in Hw. simplify_eq. destruct (Hb eq_refl) as [?|?]; [by left|right]. apply elem_of_app. by left.
    + destruct (H2 He q w Hq Hw Hpw) as [?|?]; [by left|right]. apply elem_of_app. by right.
  - intros He q w [->|Hq]%elem_of_cons Hw Hpw; [|right; eauto].
    rewrite HD in Hw. injection Hw as <-. done.
Qed.

(** ** The labels the server holds *)
Definition server_roles (pods : list Pod) : gmap string string := roles_of (λ p, label p RoleLabel) pods.
Definition replay_role (m : gmap string string) (e : leffect) : gmap string string :=
  match e with LabelPatch n w => <[n := w]> m | _ => m end.

Lemma replay_agree (D : gmap string string) tr m n w :
  (∀ n' w', LabelPatch n' w' ∈ tr → D !! n' = Some w') → D !! n = Some w →
  m !! n = Some w ∨ LabelPatch n w ∈ tr →
  foldl replay_role m tr !! n = Some w.
Proof.
  revert m. induction tr as [|e tr IH]; intros m Hall Hn Hor; simpl.
  { destruct Hor as [?|H]; [done|]. by apply not_elem_of_nil in H. }
  apply IH; [intros; apply Hall; by right|done|].
  destruct Hor as [Hm|[He|Hin]%elem_of_cons]; [left| |by right].
  - destruct e as [n' w'| | |]; simpl; try done. destruct (decide (n' = n)) as [->|Hne].
    + assert (D !! n = Some w') as Hw' by (apply Hall; left). rewrite lookup_insert_eq. congruence.
    + by rewrite lookup_insert_ne.
  - left. subst e. simpl. by rewrite lookup_insert_eq.
Qed.

(** Patches that only promote keep every primary. *)
Lemma replay_promotions tr m n :
  (∀ n' w', LabelPatch n' w' ∈ tr → w' = roleValuePrimary) →
  m !! n = Some roleValuePrimary → foldl replay_role m tr !! n = Some roleValuePrimary.
Proof.
  revert m. induction tr as [|e tr IH]; intros m Hall Hn; simpl; [done|].
  apply IH; [intros; eapply Hall; by right|].
  destruct e as [n' w'| | |]; simpl; try done.
  assert (w' = roleValuePrimary) as -> by (eapply Hall; left).
  destruct (decide (n' = n)) as [->|Hne]; [by rewrite lookup_insert_eq|by rewrite lookup_insert_ne].
Qed.

Lemma kill_no_label recorder io dem c : Forall (λ e, ¬ is_label e) (issueClientKillOnDemoted recorder io dem c).2.
Proof.
  revert c. induction dem as [|p dem IH]; intros c; simpl; [constructor|].
  case_bool_decide; [apply IH|].
  destruct (match io_kill io _ with Ok _ => _ | Err _ => _ end) as [c1 tr1] eqn:E.
  specialize (IH c1). destruct (issueClientKillOnDemoted _ _ dem c1) as [c2 tr2]. simpl in *.
  apply Forall_app. split; [|done]. destruct (io_kill io _); simplify_eq; repeat constructor; auto.
Qed.

(** ** The writes of a whole pass *)
Section passes.
Context (recorder : bool) (cr : CRSpec) (crName : string).

Definition sentinel_role (host : string) (p : Pod) : string :=
  if has_ip host p then roleValuePrimary else roleValueReplica.

(** The writes of the two patch passes and the kills for a role map. *)
Inductive label_trace (io : label_io) (gate : bool) (D : gmap string string) (pods : list Pod) :
    option string → list leffect → Prop :=
  | lt_pass1 c e pods1 dem1 c1 tr1 :
      patch_pass recorder io gate true D pods c = (Some e, (pods1, dem1, c1, tr1)) →
      label_trace io gate D pods (Some e) tr1
  | lt_pass2 c pods1 dem1 c1 tr1 e pods2 dem2 c2 tr2 :
      patch_pass recorder io gate true D pods c = (None, (pods1, dem1, c1, tr1)) →
      patch_pass recorder io gate false D pods1 c1 = (Some e, (pods2, dem2, c2, tr2)) →
      label_trace io gate D pods (Some e) (tr1 ++ tr2)
  | lt_done c pods1 dem1 c1 tr1 pods2 dem2 c2 tr2 tr3 :
      patch_pass recorder io gate true D pods c = (None, (pods1, dem1, c1, tr1)) →
      patch_pass recorder io gate false D pods1 c1 = (None, (pods2, dem2, c2, tr2)) →
      Forall (λ e, ¬ is_label e) tr3 →
      label_trace io gate D pods None (tr1 ++ tr2 ++ tr3).

Lemma reconcile_trace i x err x' tr pods :
  l_pods i = Ok pods → reconcileRoleLabels recorder cr crName i x = (err, (x', tr)) →
  let '(now1, now2, now3) := l_now i in
  let c := maintainFailoverDispatchMarker (fst <$> l_observer i) now1 now2 (l_clear i) x.1 in
  let '((D, suppress), _) := desiredRolesForCR recorder cr crName (snd <$> l_observer i) now3 pods (c, x.2) in
  if suppress then tr = [] ∧ err = None
  else label_trace (l_io i) (replicationGateEnabled cr (l_gate i)) D pods err tr.
Proof.
  intros Hl. unfold reconcileRoleLabels. rewrite Hl. destruct x as [c stab].
  destruct (l_now i) as [[now1 now2] now3]. cbv zeta. cbn [fst snd].
  destruct (desiredRolesForCR _ _ _ _ _ _ _) as [[D suppress] [c1 stab1]].
  destruct suppress; [by intros [= <- _ <-]|].
  destruct (patch_pass _ _ _ true D pods c1) as [[e1|] [[[ps1 dem1] c2] tr1]] eqn:E1.
  { intros [= <- _ <-]. by eapply lt_pass1. }
  destruct (patch_pass _ _ _ false D ps1 c2) as [[e2|] [[[ps2 dem2] c3] tr2]] eqn:E2.
  { intros [= <- _ <-]. by eapply lt_pass2. }
  pose proof (kill_no_label recorder (l_io i) dem2 c3) as Hk.
  destruct (issueClientKillOnDemoted _ _ _ _) as [c4 tr3]. simpl in Hk.
  intros [= <- _ <-]. by eapply lt_done.
Qed.

(** With a usable snapshot the roles are the observed primary's, or nothing is done. *)
Lemma desired_sentinel snap now pods x host port :
  spec_Mode cr = ModeSentinel → Present snap = true → SplitHostPort (Addr (Primary snap)) = Some (host, port) →
  let '((D, suppress), _) := desiredRolesForCR recorder cr crName (Some snap) now pods x in
  suppress = true ∨ D = roles_of (sentinel_role host) pods ∧ podIPMatchesAny host pods = true.
Proof.
  intros Hm Hp Hs. unfold desiredRolesForCR. destruct x as [c stab].
  rewrite bool_decide_eq_true_2, Hp by done. simpl.
  destruct (Observer.QuorumOK (Primary snap)); simpl; [|by left].
  destruct (failoverLatchActive _ _ _ _) as [active s]. destruct active; [by left|]. rewrite Hs.
  destruct (podIPMatchesAny host pods) eqn:Hip; simpl; [|by left].
  destruct (observePrimaryStability _ _ _) as [[fp dw] stab1].
  destruct (primary_pods host pods) as [cur want].
  destruct (_ && _); [by left|by right].
Qed.

Lemma match_any_pod host pods : podIPMatchesAny host pods = true → ∃ p, p ∈ pods ∧ has_ip host p = true.
Proof.
  unfold podIPMatchesAny. case_bool_decide; [done|]. rewrite existsb_exists.
  intros (p & Hp & Hip). exists p. by rewrite list_elem_of_In.
Qed.

Lemma promotions_only io gate D pods c r :
  patch_pass recorder io gate true D pods c = r → ∀ n w, LabelPatch n w ∈ r.2.2 → w = roleValuePrimary.
Proof.
  destruct r as [err [[[ps dem] c'] tr]]. intros H n w Hin.
  apply patch_pass_spec in H as (H1 & _). apply H1 in Hin as [_ H]. by apply bool_decide_eq_true in H.
Qed.

Lemma lookup_server_roles pods p :
  NoDup (names pods) → p ∈ pods → server_roles pods !! pod_Name p = Some (label p RoleLabel).
Proof. apply (roles_of_lookup (λ p, label p RoleLabel)). Qed.

(** The target keeps the label once it has it: the second pass only touches others. *)
Lemma demotions_keep io gate D pods c err ps dem c' tr m t done rest :
  patch_pass recorder io gate false D pods c = (err, (ps, dem, c', tr)) → tr = done ++ rest →
  D !! t = Some roleValuePrimary → m !! t = Some roleValuePrimary →
  foldl replay_role m done !! t = Some roleValuePrimary.
Proof.
  intros H -> HD Hm. apply patch_pass_spec in H as (H1 & _).
  apply (replay_agree D); [|done|by left]. intros n w Hin. apply (H1 n w). apply elem_of_app. by left.
Qed.

Lemma replay_no_label tr m : Forall (λ e, ¬ is_label e) tr → foldl replay_role m tr = m.
Proof.
  revert m. induction tr as [|e tr IH]; intros m H; [done|]. simpl.
  apply Forall_cons in H as [He H]. rewrite IH by done. by destruct e.
Qed.

Lemma label_trace_never_empty io gate D pods err tr t q done rest :
  NoDup (names pods) → label_trace io gate D pods err tr → tr = done ++ rest →
  t ∈ pods → D !! pod_Name t = Some roleValuePrimary → q ∈ pods → isPrimary q = true →
  ∃ n, foldl replay_role (server_roles pods) done !! n = Some roleValuePrimary.
Proof.
  intros Hnd Ht Heq Hin HD Hq Hqp.
  assert (server_roles pods !! pod_Name q = Some roleValuePrimary) as Hqr.
  { rewrite lookup_server_roles by done. unfold isPrimary in Hqp. by apply bool_decide_eq_true in Hqp as ->. }
  assert (∀ c r done1 rest1, patch_pass recorder io gate true D pods c = r → r.2.2 = done1 ++ rest1 →
    foldl replay_role (server_roles pods) done1 !! pod_Name q = Some roleValuePrimary) as Hp1.
  { intros c r done1 rest1 Hr Hd. apply replay_promotions; [|done]. intros n w Hin'.
    eapply promotions_only; [exact Hr|]. rewrite Hd. apply elem_of_app. by left. }
  assert (∀ c ps dem c1 tr1, patch_pass recorder io gate true D pods c = (None, (ps, dem, c1, tr1)) →
    foldl replay_role (server_roles pods) tr1 !! pod_Name t = Some roleValuePrimary) as Hp2.
  { intros c ps dem c1 tr1 Hr. apply patch_pass_spec in Hr as (H1 & H2 & _).
    apply (replay_agree D); [intros n w Hn; by apply H1|done|].
    rewrite lookup_server_roles by done.
    destruct (H2 eq_refl t roleValuePrimary Hin HD eq_refl) as [->|?]; auto. }
  destruct Ht as [c e ps1 dem1 c1 tr1 E1|c ps1 dem1 c1 tr1 e ps2 dem2 c2 tr2 E1 E2|
                  c ps1 dem1 c1 tr1 ps2 dem2 c2 tr2 tr3 E1 E2 Hk].
  - exists (pod_Name q). by eapply (Hp1 c _ done rest E1).
  - apply app_eq_app in Heq as (mid & [[-> ->]|[-> ->]]).
    + exists (pod_Name q). by eapply (Hp1 c _ done mid E1).
    + exists (pod_Name t). rewrite foldl_app. by eapply demotions_keep; [exact E2| |exact HD|eapply Hp2].
  - apply app_eq_app in Heq as (mid & [[-> ->]|[-> Heq]]).
    + exists (pod_Name q). by eapply (Hp1 c _ done mid E1).
    + exists (pod_Name t). rewrite foldl_app.
      apply app_eq_app in Heq as (mid2 & [[-> ->]|[-> ->]]).
      * by eapply demotions_keep; [exact E2| |exact HD|eapply Hp2].
      * apply Forall_app in Hk as [Hk _]. rewrite foldl_app, (replay_no_label mid2) by done.
        eapply demotions_keep; [exact E2| |exact HD|by eapply Hp2]. by rewrite app_nil_r.
Qed.

(** C3: The write Service never loses its last endpoint to a relabel.  In sentinel mode with a
    snapshot that names an address, a role-label pass that starts with some pod labelled
    primary keeps one labelled primary at every point of its writes, also when a patch
    fails midway: the new primary is stamped before the old one is demoted. *)
Theorem relabel_never_drops_primary i x err x' tr pods s1 s2 host port q done rest :
  spec_Mode cr = ModeSentinel → l_pods i = Ok pods → NoDup (names pods) →
  l_observer i = Some (s1, s2) → Present s2 = true →
  SplitHostPort (Addr (Primary s2)) = Some (host, port) →
  q ∈ pods → isPrimary q = true →
  reconcileRoleLabels recorder cr crName i x = (err, (x', tr)) → tr = done ++ rest →
  ∃ n, foldl replay_role (server_roles pods) done !! n = Some roleValuePrimary.
Proof.
  intros Hm Hl Hnd Ho Hp Hs Hq Hqp Hr Heq.
  apply (reconcile_trace i x err x' tr pods Hl) in Hr. rewrite Ho in Hr.
  destruct (l_now i) as [[now1 now2] now3]. cbv zeta in Hr. cbn [fst snd fmap option_fmap option_map] in Hr.
  pose proof (desired_sentinel s2 now3 pods
    (maintainFailoverDispatchMarker (Some s1) now1 now2 (l_clear i) x.1, x.2) host port Hm Hp Hs) as Hd.
  destruct (desiredRolesForCR _ _ _ _ _ _ _) as [[D suppress] y].
  assert (∃ n, server_roles pods !! n = Some roleValuePrimary) as Hstart.
  { exists (pod_Name q). rewrite lookup_server_roles by done. unfold isPrimary in Hqp.
    by apply bool_decide_eq_true in Hqp as ->. }
  destruct suppress.
  { destruct Hr as [-> _]. symmetry in Heq. by apply app_eq_nil in Heq as [-> ->]. }
  destruct Hd as [?|[-> Hip]]; [done|]. apply match_any_pod in Hip as (t & Ht & Hti).
  eapply (label_trace_never_empty _ _ _ pods err tr t q done rest Hnd Hr Heq Ht); [|done|done].
  rewrite (roles_of_lookup (sentinel_role host)) by done. unfold sentinel_role. by rewrite Hti.
Qed.

(** When the labels are held: the sentinels have no quorum on a master; or a failover is in
    flight; or no pod has the master's address; or the label would move from one pod to
    another and the new address was polled fewer than two times. *)
Definition held (snap : Snapshot) (now : Time) (c : ctl) (stab : option primaryStabilityState) (host : string)
    (pods : list Pod) : Prop :=
  Observer.QuorumOK (Primary snap) = false ∨
  failoverLatchActivePure now (Addr (Primary snap)) (Epoch (Primary snap)) (percr c) = true ∨
  (∀ p, p ∈ pods → has_ip host p = false) ∨
  let '(cur, want) := primary_pods host pods in
  cur ≠ "" ∧ want ≠ "" ∧ cur ≠ want ∧
  (observePrimaryStability (Addr (Primary snap)) (LastPolledAt (Primary snap)) stab).1.1 < 2.

Lemma no_pod_matches host pods : podIPMatchesAny host pods = false → ∀ p, p ∈ pods → has_ip host p = false.
Proof.
  unfold podIPMatchesAny. intros H p Hp. destruct (has_ip host p) eqn:E; [|done]. exfalso. revert H.
  case_bool_decide as Eh.
  - intros _. subst host. unfold has_ip in E. apply andb_prop in E as [E1 E2]. by rewrite E2 in E1.
  - apply not_false_iff_true. apply existsb_exists. exists p. by rewrite <- list_elem_of_In.
Qed.

Lemma suppressed_iff_held snap now pods c stab host port :
  spec_Mode cr = ModeSentinel → Present snap = true → SplitHostPort (Addr (Primary snap)) = Some (host, port) →
  (desiredRolesForCR recorder cr crName (Some snap) now pods (c, stab)).1.2 = true ↔ held snap now c stab host pods.
Proof.
  intros Hm Hp Hs. unfold desiredRolesForCR, held. rewrite bool_decide_eq_true_2, Hp by done. cbn [negb].
  destruct (Observer.QuorumOK (Primary snap)); cbn [negb]; [|naive_solver].
  pose proof (failoverLatchActive_pure now (Addr (Primary snap)) (Epoch (Primary snap)) (percr c)) as Hf.
  destruct (failoverLatchActive _ _ _ _) as [active s]. cbn [fst] in Hf. rewrite <- Hf.
  destruct active; [naive_solver|]. rewrite Hs.
  destruct (podIPMatchesAny host pods) eqn:Hip; cbn [negb].
  2: { pose proof (no_pod_matches _ _ Hip). cbn. tauto. }
  apply match_any_pod in Hip as (q & Hq & Hqi).
  destruct (observePrimaryStability _ _ _) as [[fp dw] stab1]. cbn [fst snd].
  destruct (primary_pods host pods) as [cur want]. unfold newPrimaryStableMinPolls.
  destruct (_ && _) eqn:E; cbn [fst snd].
  - bool_to_prop. split; [|done]. intros _. do 3 right. naive_solver.
  - split; [done|]. intros [?|[?|[H|(H1 & H2 & H3 & H4)]]]; [done..|rewrite (H q Hq) in Hqi; done|].
    rewrite !bool_decide_eq_false_2, (proj2 (Z.ltb_lt _ _)) in E; done.
Qed.

(** C35: A pass that completes converges.  In sentinel mode, with the pods listed, all of
    different names, and a present snapshot whose address has a host and a port, a pass that
    reports no error does exactly one of two things.  If the labels are held (no quorum of
    the sentinels, a failover in flight, no pod with the address, or a move of the label
    to an address polled fewer than two times) it writes nothing.  Otherwise, after its
    writes every pod carries the role the observer's address gives it, primary for the pods
    with that address and replica for all others. *)
Theorem relabel_converges i x x' tr pods s1 s2 host port now1 now2 now3 :
  spec_Mode cr = ModeSentinel → l_pods i = Ok pods → NoDup (names pods) →
  l_observer i = Some (s1, s2) → Present s2 = true → l_now i = (now1, now2, now3) →
  SplitHostPort (Addr (Primary s2)) = Some (host, port) →
  reconcileRoleLabels recorder cr crName i x = (None, (x', tr)) →
  let hold := held s2 now3 (maintainFailoverDispatchMarker (Some s1) now1 now2 (l_clear i) x.1) x.2 host pods in
  (hold ∧ tr = []) ∨
  (¬ hold ∧ ∀ p, p ∈ pods → foldl replay_role (server_roles pods) tr !! pod_Name p = Some (sentinel_role host p)).
Proof.
  intros Hm Hl Hnd Ho Hp Hn Hs Hr hold.
  apply (reconcile_trace i x None x' tr pods Hl) in Hr. rewrite Ho, Hn in Hr.
  cbv zeta in Hr. cbn [fst snd fmap option_fmap option_map] in Hr.
  set (c := maintainFailoverDispatchMarker _ _ _ _ _) in *.
  pose proof (suppressed_iff_held s2 now3 pods c x.2 host port Hm Hp Hs) as Hheld. fold hold in Hheld.
  pose proof (desired_sentinel s2 now3 pods (c, x.2) host port Hm Hp Hs) as Hd.
  destruct (desiredRolesForCR _ _ _ _ _ _ _) as [[D suppress] y]. cbn [fst snd] in Hheld.
  destruct suppress; [left; split; [by apply Hheld|by destruct Hr]|]. right. split; [by intros ?%Hheld|]. intros p Hin.
  destruct Hd as [?|[-> _]]; [done|].
  set (D := roles_of (sentinel_role host) pods) in *.
  assert (D !! pod_Name p = Some (sentinel_role host p)) as HD by (by apply roles_of_lookup).
  inversion Hr as [| |c0 ps1 dem1 c1 tr1 ps2 dem2 c2 tr2 tr3 E1 E2 Hk]; subst. clear Hr.
  apply patch_pass_spec in E1 as (A1 & A2 & A3). apply patch_pass_spec in E2 as (B1 & B2 & _).
  rewrite app_assoc, foldl_app, (replay_no_label tr3) by done.
  apply (replay_agree D); [|done|].
  { intros n w [H|H]%elem_of_app; [by apply A1|by apply B1]. }
  rewrite lookup_server_roles, elem_of_app by done.
  destruct (bool_decide (sentinel_role host p = roleValuePrimary)) eqn:Hw.
  - destruct (A2 eq_refl p _ Hin HD Hw) as [->|?]; auto.
  - assert (p ∈ ps1) as Hin1 by (apply (A3 eq_refl p _ Hin HD); by rewrite Hw).
    destruct (B2 eq_refl p _ Hin1 HD Hw) as [->|?]; auto.
Qed.
End passes.

(** ** Relabelling around a failover *)
Section frozen.
Context {M : MetaTime} (FSM : option (list Transition)) (recorder : bool) (cr : CRSpec) (crName : string).

(** An active latch, or a snapshot that cannot be trusted, freezes the labels. *)
Lemma pass_frozen i x pods s1 s2 :
  spec_Mode cr = ModeSentinel → l_pods i = Ok pods → l_observer i = Some (s1, s2) →
  anyValkeyPodLabelled pods = true →
  (let '(now1, now2, now3) := l_now i in
   Present s2 = true → Observer.QuorumOK (Primary s2) = true →
   failoverLatchActivePure now3 (Addr (Primary s2)) (Epoch (Primary s2))
     (percr (maintainFailoverDispatchMarker (Some s1) now1 now2 (l_clear i) x.1)) = true) →
  (reconcileRoleLabels recorder cr crName i x).1 = None ∧
  (reconcileRoleLabels recorder cr crName i x).2.2 = [].
Proof.
  intros Hm Hl Ho Hlab Hact. unfold reconcileRoleLabels. rewrite Hl, Ho. destruct x as [c stab].
  destruct (l_now i) as [[now1 now2] now3]. cbv zeta. cbn [fst snd fmap option_fmap option_map] in *.
  set (c1 := maintainFailoverDispatchMarker _ _ _ _ _) in *. clearbody c1.
  unfold desiredRolesForCR. rewrite bool_decide_eq_true_2 by done.
  destruct (Present s2) eqn:Hp; simpl.
  2: { rewrite Hlab.
       assert (∀ io gate b c0, patch_pass recorder io gate b ∅ pods c0 = (None, (pods, [], c0, []))) as Hpp.
       { clear. intros io gate b c0. induction pods as [|p pods IH]; [done|]. simpl.
         by rewrite lookup_empty, IH. }
       by rewrite !Hpp. }
  destruct (Observer.QuorumOK (Primary s2)) eqn:Hq; simpl; [|done].
  specialize (Hact eq_refl eq_refl).
  pose proof (failoverLatchActive_pure now3 (Addr (Primary s2)) (Epoch (Primary s2)) (percr c1)) as Hf.
  destruct (failoverLatchActive _ _ _ _) as [b s]. simpl in Hf. by rewrite Hf, Hact.
Qed.

(** C28: A stripped primary is not relabelled behind a crash.  After a dispatch that stripped
    the label and had its failover accepted, the operator restarts with only the stored CR;
    until one second before the deadline, as long as the observer shows the election
    undecided, a role-label pass succeeds without patching any pod (some pod still carrying a
    role label, as the replicas do). *)
Theorem no_relabel_across_restart st i c c' tr j stab pods s1 s2 now1 now2 now3 :
  runPrimaryRolloutDispatch FSM recorder cr st i c = (true, (c', tr)) → tr ≠ [] →
  spec_Mode cr = ModeSentinel → l_pods j = Ok pods → anyValkeyPodLabelled pods = true →
  l_observer j = Some (s1, s2) → l_now j = (now1, now2, now3) → now1 <= now2 <= now3 →
  now3 <= Add (d_nowDeadline i) failoverInFlightLatchTTL - Second →
  let sn := default snapshot_zero (d_observer i) in
  let open s := let '(a, e) := observedPrimaryAddrEpoch (Some s) in
                undecided (Addr (Primary sn)) (Epoch (Primary sn)) a e in
  open s1 = true → open s2 = true →
  (reconcileRoleLabels recorder cr crName j (restart c', stab)).1 = None ∧
  (reconcileRoleLabels recorder cr crName j (restart c', stab)).2.2 = [].
Proof.
  intros Hd Hne Hm Hl Hlab Ho Hn Hle Hdl sn open H1 H2.
  apply (pass_frozen j _ pods s1 s2); try done. rewrite Hn. intros Hp Hq. simpl.
  destruct (accepted_marker FSM recorder _ _ _ _ _ _ Hd Hne) as (snap & Hobs & Hmk).
  assert (sn = snap) as -> by (unfold sn; by rewrite Hobs). clear Hobs Hd.
  unfold maintainFailoverDispatchMarker, restart. cbn [view]. rewrite Hmk.
  unfold open in H1, H2. destruct (observedPrimaryAddrEpoch (Some s1)) as [a1 e1].
  unfold observedPrimaryAddrEpoch in H2. rewrite Hp in H2. simpl in H2. simpl.
  set (dl := Add (d_nowDeadline i) failoverInFlightLatchTTL) in *.
  pose proof (wire_time_gt dl) as Hw. unfold Before.
  rewrite (proj2 (Z.ltb_lt now1 (wire_time dl))) by lia.
  unfold failoverLatchActive. simpl. rewrite latch_active_undecided. simpl. rewrite H1.
  rewrite (proj2 (Z.leb_le now2 (wire_time dl))) by lia. simpl.
  unfold failoverLatchActivePure. simpl. rewrite latch_active_undecided. simpl. rewrite H2.
  by rewrite (proj2 (Z.leb_le now3 (wire_time dl))) by lia.
Qed.

(** A refused failover whose label could not be put back leaves the old primary unlabelled
    for the cool-down: the cool-down latch makes every role-label pass up to its deadline,
    with the observer still naming the same address, patch nothing at all. *)
Theorem refused_unrestored_stays_unlabelled st i c b c' tr e j stab pods s1 s2 now1 now2 now3 :
  runPrimaryRolloutDispatch FSM recorder cr st i c = (b, (c', tr)) →
  FailoverCall (Some (FailoverErr e)) ∈ tr → d_restore i = false →
  spec_Mode cr = ModeSentinel → l_pods j = Ok pods → anyValkeyPodLabelled pods = true →
  l_observer j = Some (s1, s2) → l_now j = (now1, now2, now3) → now2 <= now3 →
  now3 <= Add (d_nowCooldown i) nogoodslaveCooldownTTL →
  (∀ snap, d_observer i = Some snap →
     Present s1 = true ∧ Addr (Primary s1) = Addr (Primary snap) ∧ Addr (Primary s2) = Addr (Primary snap)) →
  foldl replay_label false tr = true ∧
  (reconcileRoleLabels recorder cr crName j (reload c', stab)).1 = None ∧
  (reconcileRoleLabels recorder cr crName j (reload c', stab)).2.2 = [].
Proof.
  intros Hd Hin Hr Hm Hl Hlab Ho Hn Hle Hdl Haddr.
  destruct (refused_latch FSM recorder _ _ _ _ _ _ _ _ Hd Hin) as (snap & Hobs & Hlbl & Hlatch).
  destruct (Haddr snap Hobs) as (Hp1 & Ha1 & Ha2). rewrite Hlbl, Hr. split; [done|].
  apply (pass_frozen j _ pods s1 s2); try done. rewrite Hn. intros Hp Hq. simpl.
  assert (∀ t a e0, t <= Add (d_nowCooldown i) nogoodslaveCooldownTTL → a = Addr (Primary snap) →
    ∀ s, failoverLatch s = failoverLatch (percr c') → failoverLatchActivePure t a e0 s = true) as Hact.
  { intros t a e0 Ht -> s Hs. unfold failoverLatchActivePure. rewrite Hs, Hlatch, latch_active_undecided.
    simpl. rewrite (proj2 (Z.leb_le _ _) Ht). unfold undecided.
    rewrite (bool_decide_eq_true_2 (Addr (Primary snap) = Addr (Primary snap))) by done.
    by rewrite orb_true_r. }
  apply Hact; [done|done|].
  unfold maintainFailoverDispatchMarker, reload. cbn [view percr set_status].
  destruct (marker_of (stored c')) as [mk|]; [|done].
  unfold observedPrimaryAddrEpoch. rewrite Hp1, Hlatch. cbv zeta. cbn [negb].
  pose proof (failoverLatchActive_pure now2 (Addr (Primary s1)) (Epoch (Primary s1)) (percr c')) as Hf.
  pose proof (failoverLatchActive_state now2 (Addr (Primary s1)) (Epoch (Primary s1)) (percr c')) as Hs.
  rewrite (Hact now2) in Hf, Hs by (done || lia).
  cbn [percr set_status].
  destruct (failoverLatchActive now2 (Addr (Primary s1)) (Epoch (Primary s1)) (percr c')) as [bb ss].
  simpl in Hf, Hs. subst. simpl. done.
Qed.
End frozen.

(** ** Concrete passes *)
Definition demo_io : label_io :=
  {| io_label := λ _, None; io_gate := λ _, None; io_condition := λ _, None; io_kill := λ _, Ok 3 |}.
Definition demo_pods (r0 : string) : list Pod :=
  [demo_pod "v-0" "10.0.0.1" r0 "r1"; demo_pod "v-1" "10.0.0.2" "replica" "r2";
   demo_pod "v-2" "10.0.0.3" "replica" "r2"].
Definition demo_relabel (r0 addr : string) (epoch : Z) (t : Time) : relabel_in :=
  {| l_pods := Ok (demo_pods r0);
     l_observer := Some (demo_snap true addr epoch, demo_snap true addr epoch);
     l_now := (t, t, t); l_clear := true; l_primaries := Ok 1; l_io := demo_io; l_gate := None |}.
Definition demo_settled : option primaryStabilityState :=
  Some {| stab_addr := "10.0.0.2:6379"; firstPolled := 90 * Second; lastPolled := 90 * Second; freshCount := 1 |}.
Definition demo_move : option string * (lstate * list leffect) :=
  reconcileRoleLabels true demo_spec "v" (demo_relabel "primary" "10.0.0.2:6379" 8 (110 * Second))
    (demo_ctl, demo_settled).

Example demo_move_trace :
  List.filter (λ e, match e with LabelPatch _ _ | ClientKill _ => true | _ => false end) demo_move.2.2 =
    [LabelPatch "v-1" "primary"; LabelPatch "v-0" "replica"; ClientKill "v-0"].
Proof. vm_compute. reflexivity. Qed.

Lemma demo_pods_nodup r0 : NoDup (names (demo_pods r0)).
Proof. apply (bool_decide_unpack _). vm_compute. done. Qed.

Lemma relabel_never_drops_primary_witness :
  ∃ n, foldl replay_role (server_roles (demo_pods "primary")) (take 1 demo_move.2.2) !! n = Some roleValuePrimary.
Proof.
  apply (relabel_never_drops_primary true demo_spec "v" (demo_relabel "primary" "10.0.0.2:6379" 8 (110 * Second))
    (demo_ctl, demo_settled) demo_move.1 demo_move.2.1 demo_move.2.2 (demo_pods "primary")
    (demo_snap true "10.0.0.2:6379" 8) (demo_snap true "10.0.0.2:6379" 8) "10.0.0.2" "6379"
    (demo_pod "v-0" "10.0.0.1" "primary" "r1") (take 1 demo_move.2.2) (drop 1 demo_move.2.2));
    try reflexivity; [apply demo_pods_nodup|left].
Defined.

Lemma relabel_converges_witness :
  foldl replay_role (server_roles (demo_pods "primary")) demo_move.2.2 !! "v-0" = Some roleValueReplica.
Proof.
  assert (Hr : demo_move = (None, (demo_move.2.1, demo_move.2.2))) by (vm_compute; reflexivity).
  destruct (relabel_converges true demo_spec "v" (demo_relabel "primary" "10.0.0.2:6379" 8 (110 * Second))
    (demo_ctl, demo_settled) demo_move.2.1 demo_move.2.2 (demo_pods "primary")
    (demo_snap true "10.0.0.2:6379" 8) (demo_snap true "10.0.0.2:6379" 8) "10.0.0.2" "6379"
    (110 * Second) (110 * Second) (110 * Second) eq_refl eq_refl (demo_pods_nodup _) eq_refl eq_refl eq_refl eq_refl
    Hr) as [[_ H]|[_ H]].
  - exfalso. vm_compute in H. discriminate H.
  - apply (H (demo_pod "v-0" "10.0.0.1" "primary" "r1")). left.
Defined.

Lemma no_relabel_across_restart_witness :
  (reconcileRoleLabels true demo_spec "v" (demo_relabel "" "10.0.0.1:6379" 7 (200 * Second))
     (restart (demo_run_dispatch accept true).2.1, None)).2.2 = [].
Proof.
  refine (proj2 (@no_relabel_across_restart floor_second (Some NewMachine) true demo_spec "v"
    StateRolloutPrimary (demo_dispatch accept true) demo_ctl (demo_run_dispatch accept true).2.1
    (demo_run_dispatch accept true).2.2 (demo_relabel "" "10.0.0.1:6379" 7 (200 * Second)) None (demo_pods "")
    (demo_snap true "10.0.0.1:6379" 7) (demo_snap true "10.0.0.1:6379" 7)
    (200 * Second) (200 * Second) (200 * Second) _ _ _ _ _ _ _ _ _ _ _));
    try reflexivity; [discriminate|lia|].
  apply Z.leb_le. vm_compute. reflexivity.
Defined.

Definition demo_refusal : string :=
  match (demo_run_dispatch no_good_slave false).2.2 with
  | _ :: _ :: FailoverCall (Some (FailoverErr e)) :: _ => e
  | _ => ""
  end.

Lemma refused_unrestored_stays_unlabelled_witness :
  (reconcileRoleLabels true demo_spec "v" (demo_relabel "" "10.0.0.1:6379" 7 (115 * Second))
     (reload (demo_run_dispatch no_good_slave false).2.1, None)).2.2 = [].
Proof.
  refine (proj2 (proj2 (@refused_unrestored_stays_unlabelled floor_second (Some NewMachine) true demo_spec "v"
    StateRolloutPrimary (demo_dispatch no_good_slave false) demo_ctl false
    (demo_run_dispatch no_good_slave false).2.1 (demo_run_dispatch no_good_slave false).2.2
    demo_refusal
    (demo_relabel "" "10.0.0.1:6379" 7 (115 * Second)) None (demo_pods "")
    (demo_snap true "10.0.0.1:6379" 7) (demo_snap true "10.0.0.1:6379" 7)
    (115 * Second) (115 * Second) (115 * Second) _ _ _ _ _ _ _ _ _ _ _)));
    try reflexivity.
  - rewrite list_elem_of_In. vm_compute. tauto.
  - apply Z.leb_le. vm_compute. reflexivity.
  - intros snap [= <-]. done.
Defined.
