(* ===== verification/AuthRotation.v ===== *)
(** * Hot rotation of the auth password: [internal/controller/auth_rotation.go]

    [maybeRotateAuth] compares the hash of the Secret's password with the one in
    the CR's status and, on a change, [driveAuthRotation] rotates every data-plane
    pod ([DataPlane.RotateAuth]), reverting the ones that succeeded when others
    failed.  The state is what the controller keeps between passes: the CR's
    [AuthRotation] status, the password cache and the redaction registry.  Clock
    readings and outcomes of API calls are inputs; the pods are the world of
    [DataPlane]. *)
From S2P Require Import Prelude GoStd GoFmt Sha256 Redaction Fsm Observer Status DeriveState LagChecker PrimaryRollout RoleLabels DataPlane.
Local Open Scope Z_scope.

(** ** Data *)
Definition AuthRotationPhaseIdle : string := "Idle".
Definition AuthRotationPhaseInProgress : string := "InProgress".
Definition AuthRotationPhaseSucceeded : string := "Succeeded".
Definition AuthRotationPhaseFailed : string := "Failed".
Definition AuthRotationPhasePartial : string := "Partial".

Record AuthRotationStatus := {
  ar_Phase : string;
  ObservedSecretHash : string;
  ar_StartedAt : option Time;
  ar_LastTransitionAt : option Time;
  ar_Message : string
}.

Record authPasswordCacheEntry := { ca_password : string; ca_hash : string }.

(** A Secret's [Data]. *)
Definition Secret : Type := gmap string string.

Definition password_of (secret : Secret) : string := default "" (secret !! "password").

Definition hashAuthSecret (secret : option Secret) : string :=
  match secret with
  | None => ""
  | Some secret =>
      match secret !! "password" with
      | None => ""
      | Some pwd => if bool_decide (pwd = "") then "" else sha256_hex pwd
      end
  end.

Definition hashPrefix (hash : string) : string :=
  if slen hash <=? 12 then hash else str_take 12 hash.

Definition currentAuthRotationPhase (st : option AuthRotationStatus) : string :=
  match st with
  | None => AuthRotationPhaseIdle
  | Some st => if bool_decide (ar_Phase st = "") then AuthRotationPhaseIdle else ar_Phase st
  end.

Definition observedAuthSecretHash (st : option AuthRotationStatus) : string :=
  match st with None => "" | Some st => ObservedSecretHash st end.

(** ** Results and endpoints *)
Definition rotate_failed (r : PodResult) : bool :=
  match pr_Err r with
  | Some e => negb (e_rewrite e)
  | None => false
  end.

Definition classifyRotateResults (results : list PodResult) : list PodResult * list PodResult :=
  (List.filter rotate_failed results, List.filter (λ r, negb (rotate_failed r)) results).

(** The loop of [splitDataPlaneEndpoints]: replicas, master, number of primaries;
    [None] is the early refusal. *)
Fixpoint split_loop (pods : list Pod) (replicas : list Endpoint) (master : Endpoint) (primaryCount : Z) :
    option (list Endpoint * Endpoint * Z) :=
  match pods with
  | [] => Some (replicas, master, primaryCount)
  | p :: pods =>
      if bool_decide (pod_IP p = "") then None
      else
        let ep := mkEndpoint (pod_Name p) (pod_IP p +:+ ":" +:+ Itoa DefaultPort) in
        if bool_decide (label p RoleLabel = roleValuePrimary)
        then split_loop pods replicas ep (primaryCount + 1)
        else if bool_decide (label p RoleLabel = roleValueReplica)
        then split_loop pods (replicas ++ [ep]) master primaryCount
        else None
  end.

Definition name_less (a b : Endpoint) : bool := String.ltb (Name a) (Name b).

Definition splitDataPlaneEndpoints (pods : list Pod) : option (list Endpoint * Endpoint) :=
  match split_loop pods [] no_endpoint 0 with
  | None => None
  | Some (replicas, master, primaryCount) =>
      if negb (primaryCount =? 1) then None else Some (sort_by name_less replicas, master)
  end.

Definition split_revert (acc : list Endpoint * Endpoint) (r : PodResult) : list Endpoint * Endpoint :=
  match pr_Phase r with
  | RotationPhaseMaster => (acc.1, pr_Endpoint r)
  | RotationPhaseReplica => (acc.1 ++ [pr_Endpoint r], acc.2)
  end.

Definition splitRevertEndpoints (succeeded : list PodResult) : list Endpoint * Endpoint :=
  let '(replicas, master) := foldl split_revert ([], no_endpoint) succeeded in
  (sort_by name_less replicas, master).

Definition endpointNames (results : list PodResult) : string :=
  if len results =? 0 then ""
  else Join (sort_strings ((λ r, Name (pr_Endpoint r)) <$> results)) ",".

(** ** The controller's state *)
Record auth_ctl := {
  au_percr : perCRState;
  au_cache : option authPasswordCacheEntry;
  au_status : option AuthRotationStatus;
  au_registry : Registry;
  au_events : list event
}.

Definition set_cache (e : option authPasswordCacheEntry) (c : auth_ctl) : auth_ctl :=
  {| au_percr := au_percr c; au_cache := e; au_status := au_status c;
     au_registry := au_registry c; au_events := au_events c |}.
Definition set_arstatus (s : option AuthRotationStatus) (c : auth_ctl) : auth_ctl :=
  {| au_percr := au_percr c; au_cache := au_cache c; au_status := s;
     au_registry := au_registry c; au_events := au_events c |}.
Definition set_registry (r : Registry) (c : auth_ctl) : auth_ctl :=
  {| au_percr := au_percr c; au_cache := au_cache c; au_status := au_status c;
     au_registry := r; au_events := au_events c |}.
Definition au_record (es : list event) (c : auth_ctl) : auth_ctl :=
  {| au_percr := au_percr c; au_cache := au_cache c; au_status := au_status c;
     au_registry := au_registry c; au_events := au_events c ++ es |}.

Definition cacheAuthPassword (password hash : string) : auth_ctl → auth_ctl :=
  set_cache (Some {| ca_password := password; ca_hash := hash |}).

(** The outcome of one status patch and the clock reading it carries. *)
Inductive patch_outcome : Type := PatchOK | PatchConflict | PatchErr (e : string).
Record patch := { p_now : Time; p_outcome : patch_outcome }.

Section rotation.
Context {M : MetaTime} {S : Type} `{P : !Peer S}.
(** [v.Namespace], [v.Spec.Auth.SecretName], and whether [r.Recorder] is set. *)
Context (namespace secretName : string) (recorder : bool).

Definition same_substate (st : option AuthRotationStatus) (phase hash message : string) : bool :=
  match st with
  | Some st => bool_decide (ar_Phase st = phase) && bool_decide (ObservedSecretHash st = hash) &&
               bool_decide (ar_Message st = message)
  | None => false
  end.

Definition writeAuthRotationStatus (p : patch) (phase hash message : string) (c : auth_ctl) :
    result bool * auth_ctl :=
  if same_substate (au_status c) phase hash message then (Ok true, c)
  else
    let now := wire_time (p_now p) in
    let next :=
      {| ar_Phase := phase; ObservedSecretHash := hash; ar_Message := message;
         ar_LastTransitionAt := Some now;
         ar_StartedAt :=
           if bool_decide (phase = AuthRotationPhaseInProgress) then Some now
           else if negb (bool_decide (phase = AuthRotationPhaseIdle)) then au_status c ≫= ar_StartedAt
           else None |} in
    match p_outcome p with
    | PatchOK => (Ok true, set_arstatus (Some next) c)
    | PatchConflict => (Ok false, c)
    | PatchErr e => (Err e, c)
    end.

Definition clearAuthRotationStatus (o : patch_outcome) (c : auth_ctl) : result unit * auth_ctl :=
  match au_status c with
  | None => (Ok tt, c)
  | Some _ =>
      match o with
      | PatchOK => (Ok tt, set_arstatus None c)
      | PatchConflict => (Ok tt, c)
      | PatchErr e => (Err e, c)
      end
  end.

Definition emitAuthRotationAudit (outcome pre post : string) (onNew onOld : Z) (c : auth_ctl) : auth_ctl :=
  au_record [AuditEvent "auth_secret_rotated"
    [("secret", namespace +:+ "/" +:+ secretName); ("outcome", outcome);
     ("pre_hash", hashPrefix pre); ("post_hash", hashPrefix post);
     ("pods_on_new_credential", Itoa onNew); ("pods_on_old_credential", Itoa onOld)]] c.

Definition au_eventf (warning : bool) (reason action note : string) (c : auth_ctl) : auth_ctl :=
  if recorder then au_record [CREvent warning reason action note] c else c.

(** What one drive reads from outside, in program order. *)
Record drive_in := {
  dr_list : result (list Pod);
  dr_inprogress : patch;
  dr_ctx : Endpoint → attempt_ctx;
  dr_revert_ctx : Endpoint → attempt_ctx;
  dr_terminal : patch
}.

Definition rotated_msg (replicas : list Endpoint) : string :=
  Itoa (len replicas) +:+ " replica(s) + 1 master".

(** All pods accepted the new password. *)
Definition rotation_succeeded (i : drive_in) (replicas : list Endpoint) (succeeded : list PodResult)
    (newPwd currentHash observedHash : string) (c : auth_ctl) : option string * auth_ctl :=
  match writeAuthRotationStatus (dr_terminal i) AuthRotationPhaseSucceeded currentHash
          ("rotation succeeded across " +:+ rotated_msg replicas) c with
  | (Err e, c) => (Some e, c)
  | (Ok false, c) => (None, c)
  | (Ok true, c) =>
      let c := cacheAuthPassword newPwd currentHash c in
      let c := au_eventf false "SecretRotated" "SecretRotation"
                 ("auth password rotated across " +:+ rotated_msg replicas) c in
      (None, emitAuthRotationAudit "succeeded" observedHash currentHash (len succeeded) 0 c)
  end.

Definition failed_msg (failed : list PodResult) : string :=
  "rotation failed on " +:+ Itoa (len failed) +:+ " endpoint(s) [" +:+ endpointNames failed +:+ "]".

(** Some pod refused: the others have been sent the old password again. *)
Definition rotation_reverted (i : drive_in) (failed succeeded revertFailed : list PodResult)
    (observedHash : string) (c : auth_ctl) : option string * auth_ctl :=
  if len revertFailed =? 0 then
    let msg := failed_msg failed +:+ "; cluster reverted to previous credential" in
    match writeAuthRotationStatus (dr_terminal i) AuthRotationPhaseFailed observedHash msg c with
    | (Err e, c) => (Some e, c)
    | (Ok false, c) => (None, c)
    | (Ok true, c) =>
        (None, emitAuthRotationAudit "failed" observedHash observedHash 0 (len succeeded)
                 (au_eventf true "SecretRotationFailed" "SecretRotationFailed" msg c))
    end
  else
    let msg := failed_msg failed +:+ " AND revert failed on " +:+ Itoa (len revertFailed) +:+
               " endpoint(s) [" +:+ endpointNames revertFailed +:+
               "]; cluster is in mixed-credential state — operator intervention required" in
    match writeAuthRotationStatus (dr_terminal i) AuthRotationPhasePartial observedHash msg c with
    | (Err e, c) => (Some e, c)
    | (Ok false, c) => (None, c)
    | (Ok true, c) =>
        (None, emitAuthRotationAudit "partial" observedHash observedHash (len revertFailed)
                 (len succeeded - len revertFailed)
                 (au_eventf true "SecretRotationPartial" "SecretRotationPartial" msg c))
    end.

Definition driveAuthRotation (i : drive_in) (oldPwd newPwd currentHash observedHash : string)
    (x : auth_ctl * world S) : option string * (auth_ctl * world S) :=
  let '(c, w) := x in
  match dr_list i with
  | Err e => (Some ("listing valkey pods for rotation: " +:+ e), (c, w))
  | Ok pods =>
      match splitDataPlaneEndpoints pods with
      | None => (None, (c, w))
      | Some (replicas, master) =>
          let '(reg, cleanup) := RegisterScoped oldPwd (au_registry c) in
          let c := set_registry reg c in
          let '(_, c) := writeAuthRotationStatus (dr_inprogress i) AuthRotationPhaseInProgress observedHash
                           ("rotating " +:+ rotated_msg replicas) c in
          let '(w, results) := RotateAuth (dr_ctx i) replicas master oldPwd newPwd w in
          let '(failed, succeeded) := classifyRotateResults results in
          let '(err, (c, w)) :=
            if len failed =? 0 then
              (let '(err, c) := rotation_succeeded i replicas succeeded newPwd currentHash observedHash c in
               (err, (c, w)))
            else
              (let '(revertReplicas, revertMaster) := splitRevertEndpoints succeeded in
               let '(w, revertResults) :=
                 RotateAuth (dr_revert_ctx i) revertReplicas revertMaster newPwd oldPwd w in
               let '(revertFailed, _) := classifyRotateResults revertResults in
               let '(err, c) := rotation_reverted i failed succeeded revertFailed observedHash c in
               (err, (c, w))) in
          (err, (set_registry (cleanup (au_registry c)) c, w))
      end
  end.

(** ** One pass *)
Record rotate_in := {
  ri_clear : patch_outcome;
  ri_patch : patch;            (* the one status write of the branches without a drive *)
  ri_snap : option Observer.Snapshot;
  ri_nowLatch : Time;
  ri_drive : drive_in
}.

(** Stamp a hash and, once it is durable, remember the password it stands for. *)
Definition adopt (p : patch) (password hash message : string) (c : auth_ctl) : option string * auth_ctl :=
  match writeAuthRotationStatus p AuthRotationPhaseIdle hash message c with
  | (Err e, c) => (Some e, c)
  | (Ok true, c) => (None, cacheAuthPassword password hash c)
  | (Ok false, c) => (None, c)
  end.

(** The pass once the Secret has a password, inside the scope of its registration. *)
Definition rotate_pass (i : rotate_in) (pwd currentHash : string) (x : auth_ctl * world S) :
    option string * (auth_ctl * world S) :=
  let '(c, w) := x in
  let cur := currentAuthRotationPhase (au_status c) in
  let observed := observedAuthSecretHash (au_status c) in
  if bool_decide (cur = AuthRotationPhasePartial) then (None, x)
  else if bool_decide (observed = "") then
    let '(e, c) := adopt (ri_patch i) pwd currentHash "initial observation" c in (e, (c, w))
  else if bool_decide (cur = AuthRotationPhaseSucceeded) then
    match writeAuthRotationStatus (ri_patch i) AuthRotationPhaseIdle observed "" c with
    | (Err e, c) => (Some e, (c, w))
    | (Ok _, c) => (None, (c, w))
    end
  else if bool_decide (currentHash = observed) then (None, (cacheAuthPassword pwd currentHash c, w))
  else if IsFailoverInFlight (ri_snap i) (ri_nowLatch i) (au_percr c) then (None, x)
  else
    match au_cache c with
    | Some cached =>
        if bool_decide (ca_hash cached = observed)
        then driveAuthRotation (ri_drive i) (ca_password cached) pwd currentHash observed x
        else let '(e, c) := adopt (ri_patch i) pwd currentHash
               "rotation window missed; current Secret content adopted as observed credential" c in
             (e, (c, w))
    | None =>
        let '(e, c) := adopt (ri_patch i) pwd currentHash
          "rotation window missed; current Secret content adopted as observed credential" c in
        (e, (c, w))
    end.

Definition maybeRotateAuth (i : rotate_in) (secret : option Secret) (x : auth_ctl * world S) :
    option string * (auth_ctl * world S) :=
  let '(c, w) := x in
  let currentHash := hashAuthSecret secret in
  if bool_decide (currentHash = "") then
    match clearAuthRotationStatus (ri_clear i) (set_cache None c) with
    | (Err e, c) => (Some e, (c, w))
    | (Ok _, c) => (None, (c, w))
    end
  else
    let pwd := password_of (default ∅ secret) in
    let '(reg, cleanup) := if 0 <? slen pwd then RegisterScoped pwd (au_registry c)
                           else (au_registry c, λ r, r) in
    let '(err, (c, w)) := rotate_pass i pwd currentHash (set_registry reg c, w) in
    (err, (set_registry (cleanup (au_registry c)) c, w)).
End rotation.

#[global] Arguments driveAuthRotation : simpl never.
#[global] Arguments writeAuthRotationStatus : simpl never.

(** ** Endpoints *)
Definition pod_addr (p : Pod) : string := pod_IP p +:+ ":" +:+ Itoa DefaultPort.
Definition pod_ep (p : Pod) : Endpoint := mkEndpoint (pod_Name p) (pod_addr p).
Definition has_role (role : string) (p : Pod) : bool := bool_decide (label p RoleLabel = role).

Lemma pod_addr_nonempty p : pod_addr p ≠ "".
Proof. unfold pod_addr. by destruct (pod_IP p). Qed.

Lemma split_loop_spec pods rs m k rs' m' k' :
  split_loop pods rs m k = Some (rs', m', k') →
  ∃ prim repl, rs' = rs ++ repl ∧ k' = k + len prim ∧ m' = default m (last prim) ∧
    prim ++ repl ≡ₚ pod_ep <$> pods.
Proof.
  revert rs m k. induction pods as [|p pods IH]; intros rs m k H; simpl in H.
  { simplify_eq. exists [], []. rewrite app_nil_r. unfold len. simpl. split_and!; [done|lia|done|done]. }
  case_bool_decide; [done|]. case_bool_decide as Hp.
  - apply IH in H as (prim & repl & -> & -> & -> & Hperm).
    exists (pod_ep p :: prim), repl. unfold len. simpl. split_and!; [done|lia| |by rewrite Hperm].
    destruct prim as [|e prim]; [done|]. simpl. by destruct (last (e :: prim)) eqn:E;
      [|apply last_None in E].
  - case_bool_decide; [|done]. apply IH in H as (prim & repl & -> & -> & -> & Hperm).
    exists prim, (pod_ep p :: repl). split_and!; [by rewrite <- app_assoc|done|done|].
    rewrite <- Permutation_middle. simpl. by rewrite Hperm.
Qed.

Lemma splitDataPlaneEndpoints_perm pods replicas master :
  splitDataPlaneEndpoints pods = Some (replicas, master) →
  replicas ++ [master] ≡ₚ pod_ep <$> pods.
Proof.
  unfold splitDataPlaneEndpoints. destruct (split_loop pods [] no_endpoint 0) as [[[rs m] k]|] eqn:E; [|done].
  apply split_loop_spec in E as (prim & repl & -> & -> & -> & Hperm).
  destruct (negb (0 + len prim =? 1)) eqn:Hk; [done|]. intros [= <- <-].
  apply negb_false_iff, Z.eqb_eq in Hk. unfold len in Hk.
  destruct prim as [|x [|y prim]]; simpl in Hk; try lia. simpl.
  rewrite sort_by_perm, Permutation_app_comm. done.
Qed.

(** ** The whole rotation, pod by pod *)
Section results.
Context {S : Type} `{P : !Peer S}.
Implicit Types w : world S.

(** The master leg is skipped for an endpoint with an empty field. *)
Definition master_leg (m : Endpoint) : list Endpoint :=
  if negb (bool_decide (Name m = "")) && negb (bool_decide (Addr m = "")) then [m] else [].

Lemma RotateAuth_spec ctx replicas master o n w w' rs :
  n ≠ "" ∨ o ≠ "" → NoDup (Addr <$> replicas ++ master_leg master) →
  RotateAuth ctx replicas master o n w = (w', rs) →
  rs = (alone_result ctx o n RotationPhaseReplica w <$> replicas) ++
       (alone_result ctx o n RotationPhaseMaster w <$> master_leg master) ∧
  (∀ ep, ep ∈ replicas ++ master_leg master → w' (Addr ep) = (alone ctx o n w ep).1) ∧
  (∀ a, a ∉ Addr <$> replicas ++ master_leg master → w' a = w a).
Proof.
  intros Hne Hnd H. unfold RotateAuth in H.
  rewrite fmap_app in Hnd. apply NoDup_app in Hnd as (Hnd & Hdis & _).
  destruct (bool_decide (o = "") && bool_decide (n = "")) eqn:Hb.
  { bool_to_prop. destruct Hne; congruence. }
  clear Hb. destruct (rotateMany ctx o n RotationPhaseReplica replicas w) as [w1 rs1] eqn:Hm.
  apply rotateMany_alone in Hm as (-> & Hin & Hout); [|done].
  unfold master_leg in *. destruct (negb _ && negb _).
  2:{ simplify_eq. by rewrite !app_nil_r. }
  unfold rotate_pod in H.
  assert (Hni : Addr master ∉ Addr <$> replicas) by (intros Hx; apply (Hdis _ Hx); set_solver).
  rewrite (Hout _ Hni) in H. fold (alone ctx o n w master) in H.
  destruct (alone ctx o n w master) as [s r] eqn:Ha. simplify_eq.
  split_and!.
  - f_equal. simpl. unfold alone_result. by rewrite Ha.
  - intros ep [He| ->%list_elem_of_singleton]%elem_of_app; unfold put; case_decide as E.
    + destruct Hni. rewrite <- E. by apply list_elem_of_fmap_2.
    + by apply Hin.
    + by rewrite Ha.
    + done.
  - intros a Hna. unfold put. rewrite fmap_app in Hna. case_decide; [set_solver|].
    apply Hout. set_solver.
Qed.

Context `{L : !ValkeyLaws S}.

(** A result that does not count as failed is an acknowledged pod. *)
Lemma succeeded_creds ctx o n phase w ep :
  rotate_failed (alone_result ctx o n phase w ep) = false → creds (alone ctx o n w ep).1 = (n, n).
Proof.
  unfold rotate_failed, alone_result, alone. simpl.
  destruct (rotateOneWithRetry (ctx ep) o n (w (Addr ep))) as [s r] eqn:E. simpl.
  apply rotateOneWithRetry_spec in E as (_ & _ & Hok). intros Hf. apply Hok.
  destruct r as [[]|e]; [by left|]. simpl in Hf. right. exists e. by destruct (e_rewrite e).
Qed.
End results.

Lemma classify_nil rs :
  (len (classifyRotateResults rs).1 =? 0) = true ↔ Forall (λ r, rotate_failed r = false) rs.
Proof.
  unfold classifyRotateResults, len. simpl. rewrite Z.eqb_eq, Forall_forall. split.
  - intros H r Hr. destruct (rotate_failed r) eqn:E; [|done].
    assert (r ∈ List.filter rotate_failed rs) as Hin by (rewrite list_elem_of_In in *; by apply filter_In).
    destruct (List.filter rotate_failed rs); [by apply not_elem_of_nil in Hin|done].
  - intros H. destruct (List.filter rotate_failed rs) as [|r l] eqn:E; [done|].
    assert (r ∈ List.filter rotate_failed rs) as Hin by (rewrite E; by left).
    rewrite list_elem_of_In in Hin. apply filter_In in Hin as [Hin Hf].
    rewrite <- list_elem_of_In in Hin. by rewrite H in Hf.
Qed.

(** ** Reverting *)
Section revert.
Context {S : Type} `{P : !Peer S}.
Context (ctx : Endpoint → attempt_ctx) (o n : string) (w : world S).

(** The pod accepted the password (a failed REWRITE included). *)
Definition accepts (ep : Endpoint) : bool :=
  negb (rotate_failed (alone_result ctx o n RotationPhaseReplica w ep)).

Lemma filter_results phase eps :
  List.filter (λ r, negb (rotate_failed r)) (alone_result ctx o n phase w <$> eps) =
  alone_result ctx o n phase w <$> List.filter accepts eps.
Proof.
  induction eps as [|e eps IH]; [done|]. rewrite fmap_cons. cbn [List.filter].
  change (negb (rotate_failed (alone_result ctx o n phase w e))) with (accepts e).
  destruct (accepts e); [rewrite fmap_cons; by f_equal|done].
Qed.

Lemma split_revert_replicas eps rs m :
  foldl split_revert (rs, m) (alone_result ctx o n RotationPhaseReplica w <$> eps) = (rs ++ eps, m).
Proof.
  revert rs. induction eps as [|e eps IH]; intros rs; [by rewrite app_nil_r|].
  rewrite fmap_cons. cbn [foldl]. unfold split_revert at 2. simpl pr_Phase. cbv iota.
  simpl fst. simpl snd. rewrite IH. simpl. by rewrite <- app_assoc.
Qed.

Lemma splitRevertEndpoints_spec replicas master :
  master_leg master = [master] →
  splitRevertEndpoints (classifyRotateResults
    ((alone_result ctx o n RotationPhaseReplica w <$> replicas) ++
     (alone_result ctx o n RotationPhaseMaster w <$> master_leg master))).2 =
  (sort_by name_less (List.filter accepts replicas), if accepts master then master else no_endpoint).
Proof.
  intros Hm. unfold splitRevertEndpoints, classifyRotateResults. simpl.
  rewrite List.filter_app, !filter_results, Hm, foldl_app, split_revert_replicas. simpl.
  by destruct (accepts master).
Qed.

Lemma revert_targets replicas master :
  master_leg master = [master] →
  sort_by name_less (List.filter accepts replicas) ++
    master_leg (if accepts master then master else no_endpoint)
  ≡ₚ List.filter accepts (replicas ++ [master]).
Proof.
  intros Hm. rewrite sort_by_perm, List.filter_app. f_equiv. simpl.
  destruct (accepts master); [by rewrite Hm|done].
Qed.
End revert.

Lemma NoDup_fmap_filter {A B} (f : A → B) (g : A → bool) l : NoDup (f <$> l) → NoDup (f <$> List.filter g l).
Proof.
  induction l as [|x l IH]; [done|]. simpl. intros [Hni Hnd]%NoDup_cons.
  destruct (g x); simpl; [|auto]. apply NoDup_cons. split; [|auto]. intros Hin. apply Hni.
  apply list_elem_of_fmap in Hin as (y & -> & Hy). apply list_elem_of_fmap_2.
  rewrite list_elem_of_In in *. by apply filter_In in Hy as [? _].
Qed.

Lemma NoDup_fmap_same {A B} (f : A → B) l x y : NoDup (f <$> l) → x ∈ l → y ∈ l → f x = f y → x = y.
Proof.
  induction l as [|z l IH]; simpl; [by intros _ ?%not_elem_of_nil|].
  intros [Hni Hnd]%NoDup_cons [->|Hx]%elem_of_cons [->|Hy]%elem_of_cons Hf; [done|..|auto];
    destruct Hni; [rewrite Hf|rewrite <- Hf]; by apply list_elem_of_fmap_2.
Qed.

Lemma elem_of_filter_list {A} (g : A → bool) l x : x ∈ List.filter g l ↔ x ∈ l ∧ g x = true.
Proof. rewrite !list_elem_of_In. apply filter_In. Qed.

(** ** Status writes *)
Definition stamped (c : auth_ctl) (phase hash : string) : Prop :=
  ∃ st, au_status c = Some st ∧ ar_Phase st = phase ∧ ObservedSecretHash st = hash.

Section status.
Context {M : MetaTime}.

Lemma write_status p phase hash msg c r c' :
  writeAuthRotationStatus p phase hash msg c = (r, c') →
  au_cache c' = au_cache c ∧ au_registry c' = au_registry c ∧ au_events c' = au_events c ∧
  (r = Ok true → stamped c' phase hash) ∧ (r ≠ Ok true → c' = c).
Proof.
  unfold writeAuthRotationStatus. destruct (same_substate (au_status c) phase hash msg) eqn:Hs.
  - intros [= <- <-]. split_and!; [done..| |done]. intros _. unfold same_substate in Hs.
    destruct (au_status c) as [st|] eqn:E; [|done]. bool_to_prop. by exists st.
  - destruct (p_outcome p); intros [= <- <-]; split_and!; try done. intros _. by eexists.
Qed.

Lemma write_status_hash p phase hash msg c r c' :
  writeAuthRotationStatus p phase hash msg c = (r, c') →
  observedAuthSecretHash (au_status c') = observedAuthSecretHash (au_status c) ∨
  observedAuthSecretHash (au_status c') = hash.
Proof.
  intros H. apply write_status in H as (_ & _ & _ & Hok & Hko).
  destruct (decide (r = Ok true)) as [E|E].
  - destruct (Hok E) as (st & -> & _ & Hh). by right.
  - rewrite Hko by done. by left.
Qed.

Lemma write_status_ok p phase hash msg c r c' :
  p_outcome p = PatchOK → writeAuthRotationStatus p phase hash msg c = (r, c') → r = Ok true.
Proof. unfold writeAuthRotationStatus. intros ->. case_match; by intros [= <- _]. Qed.
End status.

(** ** One drive *)
Section drive.
Context {M : MetaTime} {S : Type} `{P : !Peer S} `{L : !ValkeyLaws S}.
Context (namespace secretName : string) (recorder : bool).
Implicit Types w : world S.

(** The pods of a data plane have addresses and names of their own. *)
Definition distinct_pods (pods : list Pod) : Prop :=
  NoDup (pod_addr <$> pods) ∧ ∀ p, p ∈ pods → pod_Name p ≠ "".

Lemma split_targets pods replicas master :
  distinct_pods pods → splitDataPlaneEndpoints pods = Some (replicas, master) →
  master_leg master = [master] ∧ NoDup (Addr <$> replicas ++ [master]) ∧
  replicas ++ [master] ≡ₚ pod_ep <$> pods.
Proof.
  intros [Hnd Hn] Hs. pose proof (splitDataPlaneEndpoints_perm _ _ _ Hs) as Hp.
  assert (master ∈ pod_ep <$> pods) as Hm by (rewrite <- Hp; set_solver).
  apply list_elem_of_fmap in Hm as (p & -> & Hin). split_and!.
  - unfold master_leg. simpl. rewrite !bool_decide_eq_false_2; [done|apply pod_addr_nonempty|auto].
  - rewrite Hp, <- list_fmap_compose. done.
  - done.
Qed.

(** What the pods hold after the forward leg, and after the revert of those that accepted. *)
Lemma forward_leg i pods replicas master o n w w1 rs :
  distinct_pods pods → splitDataPlaneEndpoints pods = Some (replicas, master) → n ≠ "" →
  RotateAuth (dr_ctx i) replicas master o n w = (w1, rs) →
  rs = (alone_result (dr_ctx i) o n RotationPhaseReplica w <$> replicas) ++
       (alone_result (dr_ctx i) o n RotationPhaseMaster w <$> master_leg master) ∧
  ∀ p, p ∈ pods → w1 (pod_addr p) = (alone (dr_ctx i) o n w (pod_ep p)).1.
Proof.
  intros Hd Hs Hn H. destruct (split_targets _ _ _ Hd Hs) as (Hm & Hnd & Hp).
  apply RotateAuth_spec in H as (-> & Hin & _); [|by left|by rewrite Hm]. split; [done|].
  intros p Hpin. apply (Hin (pod_ep p)). rewrite Hm, Hp. by apply list_elem_of_fmap_2.
Qed.

Lemma accepted_all ctx o n w replicas master :
  master_leg master = [master] →
  (len (classifyRotateResults ((alone_result ctx o n RotationPhaseReplica w <$> replicas) ++
     (alone_result ctx o n RotationPhaseMaster w <$> master_leg master))).1 =? 0) = true →
  ∀ ep, ep ∈ replicas ++ [master] → creds (alone ctx o n w ep).1 = (n, n).
Proof.
  intros Hm Hc ep Hep. apply classify_nil in Hc. rewrite Hm in Hc. apply Forall_app in Hc as [Hr Hma].
  apply elem_of_app in Hep as [Hin| ->%list_elem_of_singleton].
  - apply (succeeded_creds ctx o n RotationPhaseReplica w).
    rewrite Forall_fmap, Forall_forall in Hr. by apply Hr.
  - apply (succeeded_creds ctx o n RotationPhaseMaster w). by inversion Hma.
Qed.

Lemma revert_leg i pods replicas master o n w w1 w2 rs rs2 :
  distinct_pods pods → splitDataPlaneEndpoints pods = Some (replicas, master) → n ≠ "" →
  RotateAuth (dr_ctx i) replicas master o n w = (w1, rs) →
  (let '(rr, rm) := splitRevertEndpoints (classifyRotateResults rs).2 in
   RotateAuth (dr_revert_ctx i) rr rm n o w1 = (w2, rs2)) →
  ∀ p, p ∈ pods →
    if accepts (dr_ctx i) o n w (pod_ep p)
    then w2 (pod_addr p) = (alone (dr_revert_ctx i) n o w1 (pod_ep p)).1 ∧
         ((len (classifyRotateResults rs2).1 =? 0) = true → creds (w2 (pod_addr p)) = (o, o))
    else w2 (pod_addr p) = w1 (pod_addr p).
Proof.
  intros Hd Hs Hn Hf Hr p Hpin. destruct (split_targets _ _ _ Hd Hs) as (Hm & Hnd & Hp).
  destruct (forward_leg _ _ _ _ _ _ _ _ _ Hd Hs Hn Hf) as [-> _].
  rewrite splitRevertEndpoints_spec in Hr by done.
  set (acc := accepts (dr_ctx i) o n w) in *.
  pose proof (revert_targets (dr_ctx i) o n w replicas master Hm) as Ht. fold acc in Ht.
  apply RotateAuth_spec in Hr as (-> & Hin & Hout); [|by right|].
  2:{ rewrite Ht. by apply NoDup_fmap_filter. }
  assert (Hall : pod_ep p ∈ replicas ++ [master]) by (rewrite Hp; by apply list_elem_of_fmap_2).
  destruct (acc (pod_ep p)) eqn:Ha.
  - assert (Htgt : pod_ep p ∈ List.filter acc (replicas ++ [master])) by (by apply elem_of_filter_list).
    rewrite <- Ht in Htgt. pose proof (Hin _ Htgt) as Hw. simpl in Hw. split; [done|].
    intros Hc. rewrite Hw. apply classify_nil in Hc. apply elem_of_app in Htgt.
    rewrite Forall_app, !Forall_fmap, !Forall_forall in Hc. destruct Hc as [Hc1 Hc2].
    destruct Htgt as [Hx|Hx]; [apply Hc1 in Hx|apply Hc2 in Hx];
      [apply (succeeded_creds _ _ _ RotationPhaseReplica)|apply (succeeded_creds _ _ _ RotationPhaseMaster)]; done.
  - apply (Hout (pod_addr p)). rewrite Ht. intros Hx.
    apply list_elem_of_fmap in Hx as (ep & Haddr & [Hep Hacc]%elem_of_filter_list).
    assert (ep = pod_ep p) as ->; [|congruence].
    rewrite Hp in Hep. apply list_elem_of_fmap in Hep as (q & -> & Hq). f_equal.
    destruct Hd as [Hndp _]. by apply (NoDup_fmap_same pod_addr pods).
Qed.

Abbreviation drive := (driveAuthRotation (S := S) namespace secretName recorder).

(** The shapes of the tail of a drive: what it writes and that it keeps the registry. *)
Lemma succeeded_tail i replicas ok n cur obs c e c' :
  rotation_succeeded namespace secretName recorder i replicas ok n cur obs c = (e, c') →
  au_registry c' = au_registry c ∧
  (observedAuthSecretHash (au_status c') = observedAuthSecretHash (au_status c) ∨
   observedAuthSecretHash (au_status c') = cur) ∧
  (p_outcome (dr_terminal i) = PatchOK → e = None ∧ stamped c' AuthRotationPhaseSucceeded cur) ∧
  (au_cache c' = au_cache c ∨
   (au_cache c' = Some {| ca_password := n; ca_hash := cur |} ∧ stamped c' AuthRotationPhaseSucceeded cur)).
Proof.
  unfold rotation_succeeded. destruct (writeAuthRotationStatus _ _ _ _ c) as [r c1] eqn:Hw.
  pose proof (write_status_hash _ _ _ _ _ _ _ Hw) as Hh.
  pose proof (λ Ho, write_status_ok _ _ _ _ _ _ _ Ho Hw) as Hok.
  apply write_status in Hw as (Hca & Hre & _ & Hst & Hko).
  destruct r as [[]|er]; intros [= <- <-].
  - unfold au_eventf. destruct recorder; simpl; split_and!; try done; try (by right; split; [|apply Hst]);
      intros; (split; [done|by apply Hst]).
  - split_and!; [done|done| |by left]. intros Ho. by apply Hok in Ho.
  - split_and!; [done|done| |by left]. intros Ho. by apply Hok in Ho.
Qed.

Lemma reverted_tail i bad ok rbad obs c e c' :
  rotation_reverted namespace secretName recorder i bad ok rbad obs c = (e, c') →
  au_registry c' = au_registry c ∧ au_cache c' = au_cache c ∧
  (observedAuthSecretHash (au_status c') = observedAuthSecretHash (au_status c) ∨
   observedAuthSecretHash (au_status c') = obs) ∧
  (p_outcome (dr_terminal i) = PatchOK → e = None ∧
     stamped c' (if len rbad =? 0 then AuthRotationPhaseFailed else AuthRotationPhasePartial) obs).
Proof.
  unfold rotation_reverted. destruct (len rbad =? 0);
    (destruct (writeAuthRotationStatus _ _ _ _ c) as [r c1] eqn:Hw;
     pose proof (write_status_hash _ _ _ _ _ _ _ Hw) as Hh;
     pose proof (λ Ho, write_status_ok _ _ _ _ _ _ _ Ho Hw) as Hok;
     apply write_status in Hw as (Hca & Hre & _ & Hst & Hko);
     destruct r as [[]|er]; intros [= <- <-];
     [unfold au_eventf; destruct recorder; simpl; split_and!; try done;
      intros; (split; [done|by apply Hst])
     |split_and!; [done|done|done|]; intros Ho; by apply Hok in Ho
     |split_and!; [done|done|done|]; intros Ho; by apply Hok in Ho]).
Qed.

(** The terminal phase of a rotation tells the truth about the pods.  When a drive
    reaches its terminal status write and the write lands, then: Succeeded is recorded,
    with the new hash, exactly when no pod's final error was other than a failed REWRITE,
    and then every pod holds the new password in both roles; Failed is recorded, with the
    old hash, only if every pod that had accepted the new password holds the old one
    again, and pods that had not accepted were not touched by the revert; Partial is
    recorded, with the old hash, when some revert failed. *)
Theorem drive_outcome_truthful i pods replicas master o n cur obs c w e c' w' :
  dr_list i = Ok pods → distinct_pods pods →
  splitDataPlaneEndpoints pods = Some (replicas, master) → n ≠ "" →
  p_outcome (dr_terminal i) = PatchOK →
  drive i o n cur obs (c, w) = (e, (c', w')) →
  let accepted p := accepts (dr_ctx i) o n w (pod_ep p) in
  e = None ∧
  ((stamped c' AuthRotationPhaseSucceeded cur ∧
      ∀ p, p ∈ pods → creds (w' (pod_addr p)) = (n, n)) ∨
   (stamped c' AuthRotationPhaseFailed obs ∧
      ∀ p, p ∈ pods →
        if accepted p then creds (w' (pod_addr p)) = (o, o)
        else w' (pod_addr p) = (alone (dr_ctx i) o n w (pod_ep p)).1) ∨
   stamped c' AuthRotationPhasePartial obs).
Proof.
  intros Hl Hd Hs Hn Ho H. unfold driveAuthRotation in H. rewrite Hl, Hs in H.
  destruct (RegisterScoped o (au_registry c)) as [reg cleanup].
  destruct (writeAuthRotationStatus _ _ _ _ (set_registry reg c)) as [r1 c1].
  destruct (RotateAuth (dr_ctx i) replicas master o n w) as [w1 rs] eqn:Hf.
  destruct (forward_leg _ _ _ _ _ _ _ _ _ Hd Hs Hn Hf) as [Hrs Hw1].
  destruct (split_targets _ _ _ Hd Hs) as (Hm & Hnd & Hp).
  destruct (classifyRotateResults rs) as [bad ok] eqn:Hc. destruct (len bad =? 0) eqn:Hb.
  - destruct (rotation_succeeded _ _ _ _ _ _ _ _ _ _) as [er c2] eqn:Ht.
    apply succeeded_tail in Ht as (_ & _ & Hst & _). destruct (Hst Ho) as [-> Hstamp].
    injection H as <- <- <-. split; [done|]. left. split; [done|]. intros p Hpin. rewrite Hw1 by done.
    apply (accepted_all _ _ _ _ replicas master Hm); [by rewrite <- Hrs, Hc|].
    rewrite Hp. by apply list_elem_of_fmap_2.
  - pose proof (λ w2 rs2, revert_leg i pods replicas master o n w w1 w2 rs rs2 Hd Hs Hn Hf) as Hrev.
    rewrite Hc in Hrev. cbn [snd] in Hrev.
    destruct (splitRevertEndpoints ok) as [rr rm].
    destruct (RotateAuth (dr_revert_ctx i) rr rm n o w1) as [w2 rs2] eqn:Hr2.
    specialize (Hrev _ _ eq_refl). destruct (classifyRotateResults rs2) as [rbad rok] eqn:Hc2.
    destruct (rotation_reverted _ _ _ _ _ _ _ _ _) as [er c2] eqn:Ht.
    apply reverted_tail in Ht as (_ & _ & _ & Hst). destruct (Hst Ho) as [-> Hstamp].
    injection H as <- <- <-. split; [done|]. right. destruct (len rbad =? 0) eqn:Hrb; [left|by right].
    split; [done|]. intros p Hpin. specialize (Hrev p Hpin).
    destruct (accepts _ _ _ _ _); [|by rewrite Hrev, Hw1]. destruct Hrev as [_ Hrev]. by apply Hrev.
Qed.
End drive.

(** ** Passes *)
Section pass.
Context {M : MetaTime} {S : Type} `{P : !Peer S}.
Context (namespace secretName : string) (recorder : bool).
Implicit Types w : world S.
Abbreviation drive := (driveAuthRotation (S := S) namespace secretName recorder).
Abbreviation pass := (maybeRotateAuth (S := S) namespace secretName recorder).

(** What a drive leaves of the controller's state. *)
Lemma drive_effects i o n cur obs c w e c' w' :
  reg_wf (au_registry c) → drive i o n cur obs (c, w) = (e, (c', w')) →
  au_registry c' = au_registry c ∧
  (au_cache c' = au_cache c ∨ au_cache c' = Some {| ca_password := n; ca_hash := cur |}) ∧
  (observedAuthSecretHash (au_status c') = observedAuthSecretHash (au_status c) ∨
   observedAuthSecretHash (au_status c') = obs ∨ observedAuthSecretHash (au_status c') = cur).
Proof.
  intros Hwf H. unfold driveAuthRotation in H. destruct (dr_list i) as [pods|]; [|by simplify_eq; auto].
  destruct (splitDataPlaneEndpoints pods) as [[replicas master]|]; [|by simplify_eq; auto].
  pose proof (scope_restores o (au_registry c) Hwf) as Hsc.
  destruct (RegisterScoped o (au_registry c)) as [reg cleanup]. simpl in Hsc.
  destruct (writeAuthRotationStatus _ _ _ _ (set_registry reg c)) as [r1 c1] eqn:Hw.
  pose proof (write_status_hash _ _ _ _ _ _ _ Hw) as Hh1.
  apply write_status in Hw as (Hca1 & Hre1 & _). simpl in Hca1, Hre1, Hh1.
  destruct (RotateAuth (dr_ctx i) replicas master o n w) as [w1 rs].
  destruct (classifyRotateResults rs) as [bad ok]. destruct (len bad =? 0).
  - destruct (rotation_succeeded _ _ _ _ _ _ _ _ _ _) as [er c2] eqn:Ht.
    apply succeeded_tail in Ht as (Hre & Hh & _ & Hca). injection H as <- <- <-. simpl.
    rewrite Hre, Hre1. split_and!; [done| |].
    + destruct Hca as [->|[-> _]]; [left|by right]. done.
    + destruct Hh as [->| ->]; [|auto]. destruct Hh1 as [->| ->]; auto.
  - destruct (splitRevertEndpoints ok) as [rr rm].
    destruct (RotateAuth (dr_revert_ctx i) rr rm n o w1) as [w2 rs2].
    destruct (classifyRotateResults rs2) as [rbad rok].
    destruct (rotation_reverted _ _ _ _ _ _ _ _ _) as [er c2] eqn:Ht.
    apply reverted_tail in Ht as (Hre & Hca & Hh & _). injection H as <- <- <-. simpl.
    rewrite Hre, Hre1, Hca, Hca1. split_and!; [done|by left|].
    destruct Hh as [->| ->]; [|auto]. destruct Hh1 as [->| ->]; auto.
Qed.

Lemma adopt_effects p pwd hash msg c e c' :
  adopt p pwd hash msg c = (e, c') →
  au_registry c' = au_registry c ∧
  (au_cache c' = au_cache c ∨ au_cache c' = Some {| ca_password := pwd; ca_hash := hash |}).
Proof.
  unfold adopt. destruct (writeAuthRotationStatus _ _ _ _ c) as [r c1] eqn:Hw.
  apply write_status in Hw as (Hca & Hre & _). destruct r as [[]|]; intros [= <- <-]; simpl; auto.
Qed.

(** The cached password is the one its hash was computed from. *)
Definition cache_ok (c : auth_ctl) : Prop :=
  ∀ e, au_cache c = Some e → ca_hash e = sha256_hex (ca_password e) ∧ ca_password e ≠ "".
Definition pass_inv (c : auth_ctl) : Prop := cache_ok c ∧ reg_wf (au_registry c).

Lemma hash_password secret :
  hashAuthSecret secret ≠ "" →
  hashAuthSecret secret = sha256_hex (password_of (default ∅ secret)) ∧ password_of (default ∅ secret) ≠ "".
Proof.
  destruct secret as [m|]; [|done]. unfold hashAuthSecret, password_of. simpl.
  destruct (m !! "password") as [pwd|]; simpl; [|done]. case_bool_decide; [done|]. done.
Qed.

Lemma slen_pos s : s ≠ "" → (0 <? slen s) = true.
Proof. destruct s; [done|]. done. Qed.

Lemma cache_step c c' pwd hash :
  cache_ok c → hash = sha256_hex pwd → pwd ≠ "" →
  au_cache c' = au_cache c ∨ au_cache c' = Some {| ca_password := pwd; ca_hash := hash |} → cache_ok c'.
Proof. intros Hc -> Hp [E|E] e He; rewrite E in He; [by apply Hc|]. by simplify_eq/=. Qed.

(** The pass inside the scope of the Secret's password. *)
Lemma rotate_pass_effects i pwd hash c w e c' w' :
  reg_wf (au_registry c) →
  rotate_pass namespace secretName recorder i pwd hash (c, w) = (e, (c', w')) →
  au_registry c' = au_registry c ∧
  (au_cache c' = au_cache c ∨ au_cache c' = Some {| ca_password := pwd; ca_hash := hash |}).
Proof.
  intros Hwf H. unfold rotate_pass in H. repeat case_bool_decide; simplify_eq.
  - auto.
  - destruct (adopt _ _ _ _ c) as [e1 c1] eqn:Ha. apply adopt_effects in Ha. by simplify_eq.
  - destruct (writeAuthRotationStatus _ _ _ _ c) as [r c1] eqn:Hw.
    apply write_status in Hw as (Hca & Hre & _). destruct r; simplify_eq; auto.
  - by auto.
  - destruct (IsFailoverInFlight _ _ _); [by simplify_eq; auto|].
    destruct (au_cache c) as [cached|] eqn:Hc; [case_bool_decide|].
    + apply drive_effects in H as (? & Hx & _); [|done]. by rewrite Hc in Hx.
    + destruct (adopt _ _ _ _ c) as [e1 c1] eqn:Ha. apply adopt_effects in Ha. simplify_eq. by rewrite Hc in Ha.
    + destruct (adopt _ _ _ _ c) as [e1 c1] eqn:Ha. apply adopt_effects in Ha. simplify_eq. by rewrite Hc in Ha.
Qed.

(** Every pass of the rotation driver keeps the controller's memory sound and leaves
    no secret registered: the cached password stays the one whose hash is cached with it
    (so the password sent as the old one is the one the status records), and the redaction
    registry is exactly what it was before, on every return path. *)
Theorem rotation_pass_invariant i secret c w e c' w' :
  pass_inv c → pass i secret (c, w) = (e, (c', w')) →
  pass_inv c' ∧ au_registry c' = au_registry c.
Proof.
  intros [Hc Hwf] H. unfold maybeRotateAuth in H. case_bool_decide as Hh.
  - assert (au_registry c' = au_registry c ∧ au_cache c' = None) as [Hr Hn].
    { unfold clearAuthRotationStatus in H. simpl in H. repeat case_match; by simplify_eq. }
    rewrite Hr. split; [|done]. split; [|by rewrite Hr]. intros x Hx. by rewrite Hn in Hx.
  - destruct (hash_password secret Hh) as [Heq Hpw].
    revert Hpw Heq H. generalize (password_of (default ∅ secret)) as pwd. intros pwd Hpw Heq H.
    rewrite (slen_pos pwd Hpw) in H.
    pose proof (RegisterScoped_wf pwd _ Hwf) as Hwf1. pose proof (scope_restores pwd _ Hwf) as Hsc.
    destruct (RegisterScoped pwd (au_registry c)) as [reg cleanup]. simpl in Hwf1, Hsc.
    destruct (rotate_pass _ _ _ _ _ _ _) as [e1 [c1 w1]] eqn:Hp.
    apply rotate_pass_effects in Hp as [Hre Hca]; [|done]. injection H as <- <- <-. simpl in *.
    rewrite Hre, Hsc. split; [|done]. split; [|done].
    eapply (cache_step c); eauto.
Qed.

Context `{L : !ValkeyLaws S}.

Lemma drive_hash i pods o n cur obs c w e c' w' :
  dr_list i = Ok pods → distinct_pods pods → n ≠ "" → observedAuthSecretHash (au_status c) = obs →
  drive i o n cur obs (c, w) = (e, (c', w')) →
  observedAuthSecretHash (au_status c') = obs ∨
  (observedAuthSecretHash (au_status c') = cur ∧ ∀ p, p ∈ pods → creds (w' (pod_addr p)) = (n, n)).
Proof.
  intros Hl Hd Hn Hobs H. unfold driveAuthRotation in H. rewrite Hl in H.
  destruct (splitDataPlaneEndpoints pods) as [[replicas master]|] eqn:Hs; [|by simplify_eq; auto].
  destruct (RegisterScoped o (au_registry c)) as [reg cleanup].
  destruct (writeAuthRotationStatus _ _ _ _ (set_registry reg c)) as [r1 c1] eqn:Hw.
  apply write_status_hash in Hw. simpl in Hw. rewrite Hobs in Hw.
  assert (observedAuthSecretHash (au_status c1) = obs) as Hh1 by tauto. clear Hw.
  destruct (RotateAuth (dr_ctx i) replicas master o n w) as [w1 rs] eqn:Hf.
  destruct (forward_leg _ _ _ _ _ _ _ _ _ Hd Hs Hn Hf) as [Hrs Hw1].
  destruct (split_targets _ _ _ Hd Hs) as (Hm & Hnd & Hp).
  destruct (classifyRotateResults rs) as [bad ok] eqn:Hc. destruct (len bad =? 0) eqn:Hb.
  - destruct (rotation_succeeded _ _ _ _ _ _ _ _ _ _) as [er c2] eqn:Ht.
    apply succeeded_tail in Ht as (_ & Hh & _). injection H as <- <- <-. rewrite Hh1 in Hh. simpl.
    destruct Hh as [Hh|Hh]; [by left|]. right. split; [done|]. intros p Hpin. rewrite Hw1 by done.
    apply (accepted_all _ _ _ _ replicas master Hm); [by rewrite <- Hrs, Hc|].
    rewrite Hp. by apply list_elem_of_fmap_2.
  - destruct (splitRevertEndpoints ok) as [rr rm].
    destruct (RotateAuth (dr_revert_ctx i) rr rm n o w1) as [w2 rs2].
    destruct (classifyRotateResults rs2) as [rbad rok].
    destruct (rotation_reverted _ _ _ _ _ _ _ _ _) as [er c2] eqn:Ht.
    apply reverted_tail in Ht as (_ & _ & Hh & _). injection H as <- <- <-. simpl. left.
    rewrite Hh1 in Hh. tauto.
Qed.

(** C30: The recorded hash advances only when the password is in force.  In a pass over a
    CR that already has a recorded hash, with the password of that hash in the cache, a
    Secret that has a password, and a list of different pods, the hash in the status changes
    only to that of the current Secret, and then every data-plane pod of the list holds the
    Secret's password both as [requirepass] and as [masterauth]. *)
Theorem recorded_hash_is_applied i secret c w e c' w' pods cached :
  let h := observedAuthSecretHash (au_status c) in
  let h' := observedAuthSecretHash (au_status c') in
  let pwd := password_of (default ∅ secret) in
  dr_list (ri_drive i) = Ok pods → distinct_pods pods →
  h ≠ "" → hashAuthSecret secret ≠ "" → au_cache c = Some cached → ca_hash cached = h →
  pass i secret (c, w) = (e, (c', w')) → h' ≠ h →
  h' = hashAuthSecret secret ∧ ∀ p, p ∈ pods → creds (w' (pod_addr p)) = (pwd, pwd).
Proof.
  intros h h' pwd Hl Hd Hh Hsec Hca Hcached H Hne.
  destruct (hash_password secret Hsec) as [_ Hpw]. unfold maybeRotateAuth in H.
  rewrite bool_decide_eq_false_2 in H by done. fold pwd in H, Hpw.
  destruct (if 0 <? slen pwd then RegisterScoped pwd (au_registry c) else (au_registry c, λ r, r))
    as [reg cleanup].
  destruct (rotate_pass _ _ _ _ _ _ _) as [e1 [c1 w1]] eqn:Hp.
  injection H as <- <- <-. subst h'. simpl in Hne |- *.
  unfold rotate_pass in Hp. simpl in Hp. fold h in Hp. rewrite Hca in Hp.
  case_bool_decide; [by simplify_eq|]. rewrite bool_decide_eq_false_2 in Hp by done.
  case_bool_decide.
  { destruct (writeAuthRotationStatus _ _ _ _ _) as [r c2] eqn:Hw. apply write_status_hash in Hw.
    simpl in Hw. destruct r; simplify_eq; destruct Hne; by destruct Hw. }
  case_bool_decide; [by simplify_eq|].
  destruct (IsFailoverInFlight _ _ _); [by simplify_eq|]. rewrite bool_decide_eq_true_2 in Hp by done.
  apply (drive_hash _ pods) in Hp as [Hs|[Hs Hall]]; [by destruct Hne|done..].
Qed.

(** Partial is sticky: while the status says Partial and the Secret has a password, a
    pass sends no command, writes no status and keeps the cache. *)
Theorem partial_is_sticky i secret c w :
  reg_wf (au_registry c) → currentAuthRotationPhase (au_status c) = AuthRotationPhasePartial →
  hashAuthSecret secret ≠ "" → pass i secret (c, w) = (None, (c, w)).
Proof.
  intros Hwf Hp Hs. destruct (hash_password secret Hs) as [_ Hpw]. unfold maybeRotateAuth.
  rewrite bool_decide_eq_false_2 by done. rewrite (slen_pos _ Hpw).
  pose proof (scope_restores (password_of (default ∅ secret)) _ Hwf) as Hsc.
  destruct (RegisterScoped _ (au_registry c)) as [reg cleanup]. unfold rotate_pass. simpl in Hsc |- *.
  rewrite Hp, bool_decide_eq_true_2 by done. simpl. rewrite Hsc. by destruct c.
Qed.

(** After a drive that ended in Failed, the next pass over the same Secret drives again:
    the status still records the old hash. *)
Theorem failed_rotation_redrives i pwd hash c w cached :
  currentAuthRotationPhase (au_status c) = AuthRotationPhaseFailed →
  observedAuthSecretHash (au_status c) ≠ "" → hash ≠ observedAuthSecretHash (au_status c) →
  au_cache c = Some cached → ca_hash cached = observedAuthSecretHash (au_status c) →
  IsFailoverInFlight (ri_snap i) (ri_nowLatch i) (au_percr c) = false →
  rotate_pass namespace secretName recorder i pwd hash (c, w) =
  drive (ri_drive i) (ca_password cached) pwd hash (observedAuthSecretHash (au_status c)) (c, w).
Proof.
  intros Hp Ho Hne Hc Hh Hf. unfold rotate_pass.
  rewrite Hp, Hf, Hc. rewrite !(bool_decide_eq_false_2 _ Ho), (bool_decide_eq_false_2 _ Hne),
    (bool_decide_eq_true_2 _ Hh). done.
Qed.
End pass.

(** ** Concrete runs *)
Definition demo_pod (name ip role : string) : Pod :=
  {| pod_Name := name; pod_Labels := {[ RoleLabel := role ]}; pod_DeletionTimestamp := None;
     pod_IP := ip; pod_NodeName := ""; pod_Conditions := []; pod_ReadinessGates := [] |}.
Definition demo_pods : list Pod :=
  [demo_pod "vk-0" "10.0.0.1" "primary"; demo_pod "vk-2" "10.0.0.3" "replica";
   demo_pod "vk-1" "10.0.0.2" "replica"].

Definition demo_patch (o : patch_outcome) : patch := {| p_now := 5 * Second; p_outcome := o |}.
Definition demo_drive : drive_in :=
  {| dr_list := Ok demo_pods; dr_inprogress := demo_patch PatchOK; dr_ctx := calm;
     dr_revert_ctx := calm; dr_terminal := demo_patch PatchOK |}.
Definition demo_in : rotate_in :=
  {| ri_clear := PatchOK; ri_patch := demo_patch PatchOK; ri_snap := None; ri_nowLatch := 0;
     ri_drive := demo_drive |}.
Definition demo_ctl (phase : string) : auth_ctl :=
  {| au_percr := percr_zero;
     au_cache := Some {| ca_password := "old-password"; ca_hash := sha256_hex "old-password" |};
     au_status := Some {| ar_Phase := phase; ObservedSecretHash := sha256_hex "old-password";
                          ar_StartedAt := None; ar_LastTransitionAt := None; ar_Message := "" |};
     au_registry := NewRegistry; au_events := [] |}.
Definition demo_secret : option Secret := Some {[ "password" := "new-password" ]}.

Definition calm_world : world pod_state := λ _, pod_on "old-password" [] [].
(** vk-1's config is read-only, so its REWRITE fails, and it then refuses the retries. *)
Definition flaky_world : world pod_state :=
  λ a, if decide (a = "10.0.0.2:6379")
       then pod_on "old-password" [Deliver; Deliver; Deliver; ReadOnlyConfig] [true; false; false]
       else pod_on "old-password" [] [].

Lemma demo_distinct : distinct_pods demo_pods.
Proof.
  split.
  - apply (bool_decide_unpack _). by vm_compute.
  - intros p Hp. unfold demo_pods in Hp. rewrite !elem_of_cons, elem_of_nil in Hp.
    by destruct Hp as [->|[->|[->|?]]].
Qed.

Definition demo_run (w : world pod_state) :=
  @maybeRotateAuth floor_second pod_state pod_peer "ns" "auth" true demo_in demo_secret
    (demo_ctl AuthRotationPhaseIdle, w).

Lemma recorded_hash_is_applied_witness :
  observedAuthSecretHash (au_status (demo_run calm_world).2.1) = sha256_hex "new-password" ∧
  ∀ p, p ∈ demo_pods → creds ((demo_run calm_world).2.2 (pod_addr p)) = ("new-password", "new-password").
Proof.
  apply (@recorded_hash_is_applied floor_second pod_state pod_peer "ns" "auth" true pod_laws
           demo_in demo_secret (demo_ctl AuthRotationPhaseIdle) calm_world
           (demo_run calm_world).1 (demo_run calm_world).2.1 (demo_run calm_world).2.2
           demo_pods {| ca_password := "old-password"; ca_hash := sha256_hex "old-password" |}).
  - done.
  - apply demo_distinct.
  - apply sha256_hex_nonempty.
  - vm_compute. done.
  - done.
  - done.
  - unfold demo_run. by destruct (maybeRotateAuth _ _ _ _ _ _) as [? [? ?]].
  - vm_compute. done.
Defined.

Lemma drive_outcome_truthful_witness :
  let r := @driveAuthRotation floor_second pod_state pod_peer "ns" "auth" true demo_drive
             "old-password" "new-password" "h1" "h0" (demo_ctl AuthRotationPhaseIdle, flaky_world) in
  r.1 = None ∧
  ((stamped r.2.1 AuthRotationPhaseSucceeded "h1" ∧
      ∀ p, p ∈ demo_pods → creds (r.2.2 (pod_addr p)) = ("new-password", "new-password")) ∨
   (stamped r.2.1 AuthRotationPhaseFailed "h0" ∧
      ∀ p, p ∈ demo_pods →
        if accepts calm "old-password" "new-password" flaky_world (pod_ep p)
        then creds (r.2.2 (pod_addr p)) = ("old-password", "old-password")
        else r.2.2 (pod_addr p) = (alone calm "old-password" "new-password" flaky_world (pod_ep p)).1) ∨
   stamped r.2.1 AuthRotationPhasePartial "h0").
Proof.
  intros r.
  apply (@drive_outcome_truthful floor_second pod_state pod_peer pod_laws "ns" "auth" true demo_drive demo_pods
           (pod_ep <$> [demo_pod "vk-1" "10.0.0.2" "replica"; demo_pod "vk-2" "10.0.0.3" "replica"])
           (pod_ep (demo_pod "vk-0" "10.0.0.1" "primary"))
           "old-password" "new-password" "h1" "h0" (demo_ctl AuthRotationPhaseIdle) flaky_world r.1 r.2.1 r.2.2).
  - done.
  - apply demo_distinct.
  - by vm_compute.
  - done.
  - done.
  - subst r. by destruct (driveAuthRotation _ _ _ _ _ _ _ _ _) as [? [? ?]].
Defined.

Lemma rotation_pass_invariant_witness :
  pass_inv (demo_run flaky_world).2.1 ∧ au_registry (demo_run flaky_world).2.1 = NewRegistry.
Proof.
  apply (@rotation_pass_invariant floor_second pod_state pod_peer "ns" "auth" true demo_in demo_secret
           (demo_ctl AuthRotationPhaseIdle) flaky_world (demo_run flaky_world).1
           (demo_run flaky_world).2.1 (demo_run flaky_world).2.2).
  - split.
    + intros e [= <-]. done.
    + apply NewRegistry_wf.
  - unfold demo_run. by destruct (maybeRotateAuth _ _ _ _ _ _) as [? [? ?]].
Defined.

Lemma partial_is_sticky_witness :
  @maybeRotateAuth floor_second pod_state pod_peer "ns" "auth" true demo_in demo_secret
    (demo_ctl AuthRotationPhasePartial, calm_world) =
  (None, (demo_ctl AuthRotationPhasePartial, calm_world)).
Proof.
  apply (@partial_is_sticky floor_second pod_state pod_peer "ns" "auth" true demo_in demo_secret).
  - apply NewRegistry_wf.
  - done.
  - vm_compute. done.
Defined.

(** A rotation can be recorded as Failed, "cluster reverted to previous credential",
    while a pod stays on the new password.  The pod acknowledges both CONFIG SETs, its
    REWRITE fails, and the retries cannot reach it: the last error is then a plain one, so
    the pod counts as not updated and is left out of the revert. *)
Theorem failed_rotation_strands_pod :
  ∃ (w : world pod_state) (p : Pod),
    let r := @maybeRotateAuth floor_second pod_state pod_peer "ns" "auth" true demo_in demo_secret
               (demo_ctl AuthRotationPhaseIdle, w) in
    p ∈ demo_pods ∧ (∀ q, q ∈ demo_pods → creds (w (pod_addr q)) = ("old-password", "old-password")) ∧
    stamped r.2.1 AuthRotationPhaseFailed (sha256_hex "old-password") ∧
    creds (r.2.2 (pod_addr p)) = ("new-password", "new-password").
Proof.
  exists flaky_world, (demo_pod "vk-1" "10.0.0.2" "replica"). cbv zeta. split_and!.
  - unfold demo_pods. set_solver.
  - intros q Hq. unfold flaky_world. by destruct (decide _).
  - eexists. split_and!; [vm_compute; reflexivity|done|by vm_compute].
  - by vm_compute.
Qed.

(** Retrying after a status write that was lost: a pod already on the new password accepts
    the rotation through the second AUTH. *)
Example rotate_already_rotated :
  rotateOne None "old-password" "new-password" (pod_on "new-password" [] []) =
  (pod_on "new-password" [] [], inl tt).
Proof. by vm_compute. Qed.

(** The address of a pod with an IPv6 address is not one [net.Dial] can split. *)
Example rotation_address_ipv6 :
  SplitHostPort (pod_addr (demo_pod "vk-0" "fd00::1" "primary")) = None ∧
  SplitHostPort (JoinHostPort "fd00::1" (Itoa DefaultPort)) = Some ("fd00::1", "6379").
Proof. by vm_compute. Qed.
