(* ===== verification/OrphanMaster.v ===== *)
(** * Pods that run as master without being the primary: [internal/controller/orphan_master.go],
    [no_master_agreement_observe.go], [split_brain_observe.go] and the dual-master trackers
    of [percrstate.go]

    With a labelled primary, [reconcileOrphanMasters] points every replica-labelled
    pod that reports [role:master] at it.  Without one, replication mode only
    reports the split and sentinel mode hands over to the bounded self-heal, which
    elects the master with the highest offset and demotes the others.  A pass
    returns the new trackers, the events and the commands it sent, in order; the
    answers of pods, the clock and the observer's snapshots are inputs. *)
From S2P Require Import Prelude GoStd GoFmt Fsm Observer Status DeriveState LagChecker PrimaryRollout RoleLabels.
Local Open Scope Z_scope.

(** ** Trackers *)
Record dualMasterSelfHealState := { lastAttempt : Time; attemptCount : Z }.
Record dualMasterObservation := { observedAt : Time; ob_pods : list string }.

Record dual_state := {
  dualMasterSelfHeal : option dualMasterSelfHealState;
  dualMasterDeferEdge : string;
  dualMasterDeferLastAt : Time;
  dualMasterObserved : option dualMasterObservation;
  dualMasterObservedEdge : string;
  dualMasterEventUnion : list string
}.
Definition dual_zero : dual_state :=
  {| dualMasterSelfHeal := None; dualMasterDeferEdge := ""; dualMasterDeferLastAt := zero_time;
     dualMasterObserved := None; dualMasterObservedEdge := ""; dualMasterEventUnion := [] |}.

Definition set_selfHeal (x : option dualMasterSelfHealState) (s : dual_state) : dual_state :=
  {| dualMasterSelfHeal := x; dualMasterDeferEdge := dualMasterDeferEdge s;
     dualMasterDeferLastAt := dualMasterDeferLastAt s; dualMasterObserved := dualMasterObserved s;
     dualMasterObservedEdge := dualMasterObservedEdge s; dualMasterEventUnion := dualMasterEventUnion s |}.
Definition set_defer (sig : string) (t : Time) (s : dual_state) : dual_state :=
  {| dualMasterSelfHeal := dualMasterSelfHeal s; dualMasterDeferEdge := sig;
     dualMasterDeferLastAt := t; dualMasterObserved := dualMasterObserved s;
     dualMasterObservedEdge := dualMasterObservedEdge s; dualMasterEventUnion := dualMasterEventUnion s |}.
Definition set_observed (o : option dualMasterObservation) (edge : string) (u : list string)
    (s : dual_state) : dual_state :=
  {| dualMasterSelfHeal := dualMasterSelfHeal s; dualMasterDeferEdge := dualMasterDeferEdge s;
     dualMasterDeferLastAt := dualMasterDeferLastAt s; dualMasterObserved := o;
     dualMasterObservedEdge := edge; dualMasterEventUnion := u |}.

Definition selfHealAttemptAllowed (now : Time) (baseCooldown maxBackoff : Duration) (maxAttempts : Z)
    (s : dual_state) : bool :=
  match dualMasterSelfHeal s with
  | None => true
  | Some st =>
      if attemptCount st =? 0 then true
      else if maxAttempts <=? attemptCount st then false
      else
        let backoff := wrap64 (Z.shiftl baseCooldown (attemptCount st - 1)) in
        let backoff := if (backoff <=? 0) || (maxBackoff <? backoff) then maxBackoff else backoff in
        negb (Before now (Add (lastAttempt st) backoff))
  end.

Definition recordSelfHealAttempt (now : Time) (s : dual_state) : dual_state :=
  let n := match dualMasterSelfHeal s with Some st => attemptCount st | None => 0 end in
  set_selfHeal (Some {| lastAttempt := now; attemptCount := n + 1 |}) s.

Definition resetSelfHeal (s : dual_state) : dual_state := set_selfHeal None s.

Definition dualMasterDeferMinInterval : Duration := 60 * Second.

Definition fireDualMasterDeferEdge (sig : string) (now : Time) (s : dual_state) : bool * dual_state :=
  if bool_decide (dualMasterDeferEdge s = sig) then (false, s)
  else if negb (IsZero (dualMasterDeferLastAt s)) &&
          (Sub now (dualMasterDeferLastAt s) <? dualMasterDeferMinInterval) then (false, s)
  else (true, set_defer sig now s).

Definition resetDualMasterDeferEdge (s : dual_state) : dual_state :=
  set_defer "" (dualMasterDeferLastAt s) s.

Definition stampDualMasterObserved (pods : list string) (now : Time) (s : dual_state) : dual_state :=
  set_observed (Some {| observedAt := now; ob_pods := sort_strings pods |})
    (dualMasterObservedEdge s) (dualMasterEventUnion s) s.

Definition fireDualMasterObservedEdge (sig : string) (s : dual_state) : bool * dual_state :=
  if bool_decide (dualMasterObservedEdge s = sig) then (false, s)
  else (true, set_observed (dualMasterObserved s) sig (dualMasterEventUnion s) s).

(** [appendUnique] onto the output, kept reversed. *)
Definition appendUnique (out : list string) (v : string) : list string :=
  match out with
  | x :: _ => if bool_decide (x = v) then out else v :: out
  | [] => [v]
  end.

(** The merge loop; [out] is reversed, the measure is the length of both inputs. *)
Fixpoint merge_loop (fuel : nat) (a b out : list string) : list string :=
  match fuel with
  | O => out
  | Datatypes.S fuel =>
      match a, b with
      | x :: a', y :: b' =>
          if String.ltb x y then merge_loop fuel a' b (appendUnique out x)
          else if String.ltb y x then merge_loop fuel a b' (appendUnique out y)
          else merge_loop fuel a' b' (appendUnique out x)
      | a, [] => foldl appendUnique out a
      | [], b => foldl appendUnique out b
      end
  end.
Definition mergeSortedUnique (a b : list string) : list string :=
  reverse (merge_loop (length a + length b + 1) a b []).

Definition foldDualMasterEventUnion (pods : list string) (s : dual_state) : string * dual_state :=
  let u := mergeSortedUnique (dualMasterEventUnion s) (sort_strings pods) in
  (Join u ",", set_observed (dualMasterObserved s) (dualMasterObservedEdge s) u s).

Definition clearDualMasterObserved (s : dual_state) : dual_state := set_observed None "" [] s.

Definition strandedRecoveryCooldown : Duration := 30 * Second.
Definition dualMasterObservedFreshnessWindow : Duration := 2 * strandedRecoveryCooldown.

Definition dualMasterActiveFromStamp (obs : option dualMasterObservation) (now : Time) : bool :=
  match obs with
  | None => false
  | Some obs =>
      if len (ob_pods obs) <? 2 then false
      else Sub now (observedAt obs) <=? dualMasterObservedFreshnessWindow
  end.

Definition dualMasterActiveOrExpire (now : Time) (s : dual_state) : bool * dual_state :=
  if dualMasterActiveFromStamp (dualMasterObserved s) now then (true, s)
  else match dualMasterObserved s with
       | Some _ => (false, clearDualMasterObserved s)
       | None => (false, s)
       end.

(** ** The observer's verdicts *)
Definition snapshotReportsSplitBrain (snap : Snapshot) : bool :=
  Present snap && bool_decide (Quorum (Primary snap) = QuorumStatusLost).

Definition observeSplitBrain (mode : Mode) (observer : option Snapshot) : bool :=
  match observer with
  | None => false
  | Some snap => bool_decide (mode = ModeSentinel) && snapshotReportsSplitBrain snap
  end.

Definition observeNoMasterAgreement (mode : Mode) (observer : option Snapshot)
    (pods : option (list Pod)) : bool :=
  if negb (bool_decide (mode = ModeSentinel)) then false
  else match observer with
  | None => false
  | Some snap =>
      if negb (Present snap) || negb (QuorumOK (Primary snap)) then false
      else match SplitHostPort (Addr (Primary snap)) with
      | None => false
      | Some (host, _) =>
          if bool_decide (host = "") then false
          else match pods with
          | None => false
          | Some pods => negb (existsb (λ p, bool_decide (pod_IP p = host)) pods)
          end
      end
  end.

(** [snap] and [snap2] are the two reads of the observer. *)
Definition quorumViewUnusable (mode : Mode) (snap snap2 : option Snapshot) (pods : option (list Pod)) : bool :=
  match snap with
  | None => true
  | Some sn =>
      if negb (Present sn) || negb (QuorumOK (Primary sn)) then true
      else observeNoMasterAgreement mode snap2 pods
  end.

(** ** The passes *)
Inductive dm_cmd : Type := CmdReplicaOf (addr masterIP : string) | CmdKillClients (addr : string).

Record om_in := {
  om_check : string → option LagState;            (* [None]: the check failed *)
  om_replicaof : string → string → option string; (* the error of REPLICAOF *)
  om_latch_snap : option Snapshot;                (* the four reads of the observer *)
  om_quorum_snap : option Snapshot;
  om_agree_snap : option Snapshot;
  om_fence_snap : option Snapshot;
  om_list : option (list Pod);                    (* the pod list of the agreement check *)
  om_nowLatch : Time;
  om_nowStamp : Time;
  om_nowAttempt : Time;
  om_nowDefer : Time
}.

Definition dial_addr (p : Pod) : string := JoinHostPort (pod_IP p) (Itoa DefaultPort).

(** What a pass threads: trackers, events, commands. *)
Record om_out := { oo_state : dual_state; oo_events : list event; oo_cmds : list dm_cmd }.
Definition oo_put (s : dual_state) (o : om_out) : om_out :=
  {| oo_state := s; oo_events := oo_events o; oo_cmds := oo_cmds o |}.
Definition oo_cmd (c : dm_cmd) (o : om_out) : om_out :=
  {| oo_state := oo_state o; oo_events := oo_events o; oo_cmds := oo_cmds o ++ [c] |}.

Section passes.
Context (recorder : bool).

Definition oo_event (warning : bool) (reason action note : string) (o : om_out) : om_out :=
  {| oo_state := oo_state o;
     oo_events := if recorder then oo_events o ++ [CREvent warning reason action note] else oo_events o;
     oo_cmds := oo_cmds o |}.

Definition emitDualMasterDeferred (i : om_in) (sig note : string) (o : om_out) : om_out :=
  match fireDualMasterDeferEdge sig (om_nowDefer i) (oo_state o) with
  | (false, s) => oo_put s o
  | (true, s) => oo_event true "DualMasterSelfHealDeferred" "DualMasterSelfHealDeferred" note (oo_put s o)
  end.

(** *** With a labelled primary *)
Record orphan_scan := {
  os_masters : list string;
  os_complete : bool;
  os_out : om_out
}.

Definition divergence_note (replica primary : Pod) (st pst : LagState) : string :=
  "pod " +:+ pod_Name replica +:+ " (labelled role=replica) reports role=master with master_repl_offset=" +:+
  Itoa (MasterReplOffset st) +:+ ", exceeds elected primary " +:+ pod_Name primary +:+ " offset=" +:+
  Itoa (MasterReplOffset pst) +:+ " by " +:+ Itoa (wrap64 (MasterReplOffset st - MasterReplOffset pst)) +:+
  " bytes — these writes will be discarded by the upcoming REPLICAOF resync".

Definition orphan_step (i : om_in) (primary : Pod) (pst : LagState) (a : orphan_scan) (replica : Pod) :
    orphan_scan :=
  let addr := dial_addr replica in
  match om_check i addr with
  | None => {| os_masters := os_masters a; os_complete := false; os_out := os_out a |}
  | Some st =>
      if negb (bool_decide (Role st = RoleMaster)) then a
      else
        let o := os_out a in
        let o :=
          if negb (HaveMasterOffset st) || negb (HaveMasterOffset pst) then o
          else if MasterReplOffset pst <? MasterReplOffset st then
            oo_event true "OrphanMasterDataDivergence" "OrphanDataDivergence"
              (divergence_note replica primary st pst) o
          else o in
        let o := oo_cmd (CmdReplicaOf addr (pod_IP primary)) o in
        let o :=
          match om_replicaof i addr (pod_IP primary) with
          | Some e =>
              oo_event true "OrphanMasterDemotionFailed" "OrphanDemotionFail"
                ("REPLICAOF on orphan pod " +:+ pod_Name replica +:+ " failed: " +:+ e +:+
                 "; will retry next reconcile") o
          | None =>
              oo_event false "OrphanMasterDemoted" "OrphanDemoted"
                ("pod " +:+ pod_Name replica +:+
                 " (labelled role=replica but reporting role=master) demoted via REPLICAOF " +:+
                 pod_IP primary +:+ " " +:+ Itoa DefaultPort) o
          end in
        {| os_masters := os_masters a ++ [pod_Name replica]; os_complete := os_complete a; os_out := o |}
  end.

Definition has_ip_b (p : Pod) : bool := negb (bool_decide (pod_IP p = "")).
Definition labelled (role : string) (p : Pod) : bool := bool_decide (label p RoleLabel = role).

Definition orphan_scan_all (i : om_in) (pods : list Pod) (primary : Pod) (o : om_out) : om_out :=
  let replicas := List.filter (λ p, has_ip_b p && labelled roleValueReplica p) pods in
  let podsWithIP := len (List.filter has_ip_b pods) in
  let pendingPods := len (List.filter (λ p, negb (has_ip_b p)) pods) in
  let o := oo_put (resetDualMasterDeferEdge (resetSelfHeal (oo_state o))) o in
  if len replicas =? 0 then o
  else match om_check i (dial_addr primary) with
  | None => o
  | Some pst =>
      if negb (bool_decide (Role pst = RoleMaster)) then o
      else
        let a := foldl (orphan_step i primary pst)
                   {| os_masters := [pod_Name primary];
                      os_complete := (podsWithIP =? 1 + len replicas) && (pendingPods =? 0);
                      os_out := o |} replicas in
        let o := os_out a in
        if 2 <=? len (os_masters a)
        then oo_put (stampDualMasterObserved (os_masters a) (om_nowStamp i) (oo_state o)) o
        else if os_complete a then oo_put (clearDualMasterObserved (oo_state o)) o
        else o
  end.

(** *** Without one, in replication mode *)
Record noprim_scan := { np_names : list string; np_details : list string; np_complete : bool }.

Definition noprim_step (i : om_in) (a : noprim_scan) (p : Pod) : noprim_scan :=
  let incomplete := {| np_names := np_names a; np_details := np_details a; np_complete := false |} in
  if bool_decide (pod_IP p = "") then incomplete
  else match om_check i (dial_addr p) with
  | None => incomplete
  | Some st =>
      if negb (bool_decide (Role st = RoleMaster)) then a
      else
        let offset := if HaveMasterOffset st
                      then "master_repl_offset=" +:+ Itoa (MasterReplOffset st)
                      else "master_repl_offset=unknown" in
        {| np_names := np_names a ++ [pod_Name p];
           np_details := np_details a ++ [pod_Name p +:+ "(" +:+ offset +:+ ")"];
           np_complete := np_complete a |}
  end.

Definition observeDualMasterNoPrimary (i : om_in) (pods : list Pod) (o : om_out) : om_out :=
  let a := foldl (noprim_step i) {| np_names := []; np_details := []; np_complete := true |} pods in
  if 2 <=? len (np_names a) then
    let s := stampDualMasterObserved (np_names a) (om_nowStamp i) (oo_state o) in
    let '(sig, s) := foldDualMasterEventUnion (sort_strings (np_names a)) s in
    match fireDualMasterObservedEdge sig s with
    | (false, s) => oo_put s o
    | (true, s) =>
        oo_event true "DualMasterObserved" "DualMasterObserve"
          ("pods " +:+ Join (sort_strings (np_details a)) ", " +:+
           " all self-report role:master with no elected primary labelled — active data divergence in replication mode; no demotion is admitted without an elected primary to fence against, so the split persists until pod-0 rejoins as primary or it is resolved manually")
          (oo_put s o)
    end
  else if np_complete a then oo_put (clearDualMasterObserved (oo_state o)) o
  else o.

(** *** Without one, in sentinel mode: the bounded self-heal *)
Definition dualMasterOffsetEpsilon : Z := 4096.
Definition dualMasterSelfHealBaseCooldown : Duration := 30 * Second.
Definition dualMasterSelfHealMaxBackoff : Duration := 5 * Minute.
Definition dualMasterSelfHealMaxAttempts : Z := 5.

Record deFactoMaster := { df_pod : Pod; df_offset : Z }.
Definition df_addr (m : deFactoMaster) : string := dial_addr (df_pod m).

Record dualMasterScan := {
  sn_masters : list deFactoMaster;
  sn_masterNames : list string;
  sn_sawNoOffset : bool;
  sn_complete : bool;
  sn_pendingPods : Z
}.

Definition scan_step (check : string → option LagState) (a : dualMasterScan) (p : Pod) : dualMasterScan :=
  if bool_decide (pod_IP p = "") then
    {| sn_masters := sn_masters a; sn_masterNames := sn_masterNames a; sn_sawNoOffset := sn_sawNoOffset a;
       sn_complete := false; sn_pendingPods := sn_pendingPods a + 1 |}
  else match check (dial_addr p) with
  | None =>
      {| sn_masters := sn_masters a; sn_masterNames := sn_masterNames a; sn_sawNoOffset := sn_sawNoOffset a;
         sn_complete := false; sn_pendingPods := sn_pendingPods a |}
  | Some st =>
      if negb (bool_decide (Role st = RoleMaster)) then a
      else if negb (HaveMasterOffset st) then
        {| sn_masters := sn_masters a; sn_masterNames := sn_masterNames a ++ [pod_Name p];
           sn_sawNoOffset := true; sn_complete := sn_complete a; sn_pendingPods := sn_pendingPods a |}
      else
        {| sn_masters := sn_masters a ++ [{| df_pod := p; df_offset := MasterReplOffset st |}];
           sn_masterNames := sn_masterNames a ++ [pod_Name p];
           sn_sawNoOffset := sn_sawNoOffset a; sn_complete := sn_complete a;
           sn_pendingPods := sn_pendingPods a |}
  end.

Definition scanDeFactoMasters (check : string → option LagState) (pods : list Pod) : dualMasterScan :=
  foldl (scan_step check)
    {| sn_masters := []; sn_masterNames := []; sn_sawNoOffset := false; sn_complete := true;
       sn_pendingPods := 0 |} pods.

Definition survivor_less (preStripAddr : string) (a b : deFactoMaster) : bool :=
  if negb (df_offset a =? df_offset b) then df_offset b <? df_offset a
  else
    let li := bool_decide (df_addr a = preStripAddr) in
    let lj := bool_decide (df_addr b = preStripAddr) in
    if negb (bool_decide (li = lj)) then li
    else String.ltb (pod_Name (df_pod a)) (pod_Name (df_pod b)).

Definition failoverDispatchFence (r : option RolloutStatus) : string * Z :=
  match marker_of r with
  | None => ("", 0)
  | Some fd => (fd_PreStripAddr fd, fd_PreStripEpoch fd)
  end.

Definition lineage_of (preStripAddr : string) (survivor : deFactoMaster) : string :=
  if bool_decide (preStripAddr = "") then "no-prestrip-addr"
  else if bool_decide (df_addr survivor = preStripAddr) then "survivor-matches-prestrip-addr"
  else "survivor-differs-from-prestrip-addr".

(** One loser of the election. *)
Definition demote_loser (i : om_in) (survivor : deFactoMaster) (o : om_out) (loser : deFactoMaster) : om_out :=
  let ip := pod_IP (df_pod survivor) in
  let o := oo_cmd (CmdReplicaOf (df_addr loser) ip) o in
  match om_replicaof i (df_addr loser) ip with
  | Some e =>
      oo_event true "OrphanMasterDemotionFailed" "OrphanDemotionFail"
        ("dual-master self-heal: REPLICAOF on loser " +:+ pod_Name (df_pod loser) +:+ " → survivor " +:+
         pod_Name (df_pod survivor) +:+ " failed: " +:+ e +:+ "; will retry next reconcile") o
  | None =>
      oo_event false "DualMasterSelfHealDemoted" "DualMasterSelfHealDemoted"
        ("dual-master self-heal: demoted loser " +:+ pod_Name (df_pod loser) +:+ " (master_repl_offset=" +:+
         Itoa (df_offset loser) +:+ ") via REPLICAOF onto survivor " +:+ ip +:+ " " +:+ Itoa DefaultPort)
        (oo_cmd (CmdKillClients (df_addr loser)) o)
  end.

Definition stale_fence (fence_snap : option Snapshot) (preStripEpoch : Z) : option Z :=
  match fence_snap with
  | Some snap =>
      if (0 <? preStripEpoch) && Present snap && QuorumOK (Primary snap) &&
         (Epoch (Primary snap) <? preStripEpoch) then Some (Epoch (Primary snap)) else None
  | None => None
  end.

Definition epsilon_sig (a b : deFactoMaster) : string :=
  let x := pod_Name (df_pod a) in
  let y := pod_Name (df_pod b) in
  let '(lo, hi) := if String.ltb y x then (y, x) else (x, y) in
  "epsilon:" +:+ lo +:+ ":" +:+ hi.

Definition epsilon_note (a b : deFactoMaster) : string :=
  "dual-master self-heal deferred: top two master_repl_offsets within " +:+ Itoa dualMasterOffsetEpsilon +:+
  " bytes (" +:+ pod_Name (df_pod a) +:+ "=" +:+ Itoa (df_offset a) +:+ ", " +:+ pod_Name (df_pod b) +:+ "=" +:+
  Itoa (df_offset b) +:+ ") — no unambiguous survivor, refusing to demote the more-advanced master".

(** The pass once a split of at least two ranked masters is in view. *)
Definition heal_split (i : om_in) (fence : string * Z) (masters : list deFactoMaster) (o : om_out) : om_out :=
  if negb (selfHealAttemptAllowed (om_nowAttempt i) dualMasterSelfHealBaseCooldown
             dualMasterSelfHealMaxBackoff dualMasterSelfHealMaxAttempts (oo_state o)) then
    emitDualMasterDeferred i "cooldown"
      ("dual-master self-heal deferred: attempt budget exhausted or cooling down (max " +:+
       Itoa dualMasterSelfHealMaxAttempts +:+ " attempts, base cooldown " +:+
       DurationString dualMasterSelfHealBaseCooldown +:+ ")") o
  else match sort_by (survivor_less fence.1) masters with
  | survivor :: runnerUp :: rest =>
      if wrap64 (df_offset survivor - df_offset runnerUp) <=? dualMasterOffsetEpsilon then
        emitDualMasterDeferred i (epsilon_sig survivor runnerUp) (epsilon_note survivor runnerUp) o
      else match stale_fence (om_fence_snap i) fence.2 with
      | Some epoch =>
          emitDualMasterDeferred i ("epoch:" +:+ Itoa epoch +:+ ":" +:+ Itoa fence.2)
            ("dual-master self-heal deferred: observer config-epoch " +:+ Itoa epoch +:+
             " is below the failover fence " +:+ Itoa fence.2 +:+ " (stale view)") o
      | None =>
          let o := oo_put (resetDualMasterDeferEdge (recordSelfHealAttempt (om_nowAttempt i) (oo_state o))) o in
          let o := oo_event true "DualMasterSelfHealInitiated" "DualMasterSelfHealInitiated"
            ("dual-master split: " +:+ Itoa (len masters) +:+ " de-facto masters; electing survivor " +:+
             pod_Name (df_pod survivor) +:+ " (master_repl_offset=" +:+ Itoa (df_offset survivor) +:+
             ", lineage=" +:+ lineage_of fence.1 survivor +:+ ") and demoting the rest") o in
          foldl (demote_loser i survivor) o (runnerUp :: rest)
      end
  | _ => o
  end.

(** Record what the scan saw: a split, or its absence if every pod answered. *)
Definition stamp_scan (now : Time) (scan : dualMasterScan) (o : om_out) : om_out :=
  if 2 <=? len (sn_masterNames scan)
  then oo_put (stampDualMasterObserved (sn_masterNames scan) now (oo_state o)) o
  else if sn_complete scan then oo_put (clearDualMasterObserved (oo_state o)) o else o.

Definition reconcileDualMasterSelfHeal (i : om_in) (mode : Mode) (status : option RolloutStatus)
    (percr : perCRState) (pods : list Pod) (o : om_out) : om_out :=
  if negb (IsFailoverInFlight (om_latch_snap i) (om_nowLatch i) percr) then o
  else if negb (quorumViewUnusable mode (om_quorum_snap i) (om_agree_snap i) (om_list i)) then o
  else
    let scan := scanDeFactoMasters (om_check i) pods in
    let o := stamp_scan (om_nowStamp i) scan o in
    if 0 <? sn_pendingPods scan then
      if 2 <=? len (sn_masterNames scan) then
        emitDualMasterDeferred i "pending"
          ("dual-master self-heal deferred: " +:+ Itoa (sn_pendingPods scan) +:+
           " listed pod(s) have no IP yet (Pending / recreating); cannot prove the full de-facto master set, refusing to elect a survivor") o
      else o
    else if sn_sawNoOffset scan then
      emitDualMasterDeferred i "no-offset"
        "dual-master self-heal deferred: a pod reports role=master but INFO carried no master_repl_offset; cannot rank survivors safely" o
    else if len (sn_masters scan) <? 2 then o
    else heal_split i (failoverDispatchFence status) (sn_masters scan) o.

(** *** The phase *)
Definition reconcileOrphanMasters (i : om_in) (mode : Mode) (status : option RolloutStatus)
    (percr : perCRState) (pods : list Pod) (s : dual_state) : om_out :=
  let o := {| oo_state := s; oo_events := []; oo_cmds := [] |} in
  if bool_decide (mode = ModeStandalone) then o
  else match List.filter (λ p, has_ip_b p && labelled roleValuePrimary p) pods with
  | [] =>
      if bool_decide (mode = ModeReplication) then observeDualMasterNoPrimary i pods o
      else reconcileDualMasterSelfHeal i mode status percr pods o
  | primary :: _ => orphan_scan_all i pods primary o
  end.
End passes.

(** ** Lemmas: the scan *)
Definition as_master (check : string → option LagState) (p : Pod) : option deFactoMaster :=
  if bool_decide (pod_IP p = "") then None
  else match check (dial_addr p) with
  | Some st => if bool_decide (Role st = RoleMaster) && HaveMasterOffset st
               then Some {| df_pod := p; df_offset := MasterReplOffset st |} else None
  | None => None
  end.

(** A pod that says it is master but not how far it got. *)
Definition offsetless (check : string → option LagState) (p : Pod) : bool :=
  has_ip_b p &&
  match check (dial_addr p) with
  | Some st => bool_decide (Role st = RoleMaster) && negb (HaveMasterOffset st)
  | None => false
  end.

Lemma scan_fold check pods a :
  let r := foldl (scan_step check) a pods in
  sn_masters r = sn_masters a ++ omap (as_master check) pods ∧
  sn_sawNoOffset r = sn_sawNoOffset a || existsb (offsetless check) pods ∧
  sn_pendingPods r = sn_pendingPods a + Z.of_nat (count (λ p, negb (has_ip_b p)) pods).
Proof.
  revert a. induction pods as [|p pods IH]; intros a; simpl.
  { rewrite app_nil_r, orb_false_r. split_and!; [done|done|lia]. }
  destruct (IH (scan_step check a p)) as (Hm & Hs & Hp). rewrite Hm, Hs, Hp.
  unfold scan_step, as_master, offsetless, has_ip_b.
  destruct (bool_decide (pod_IP p = "")); simpl; [split_and!; [done|done|lia]|].
  destruct (check (dial_addr p)) as [st|]; simpl; [|split_and!; [done|done|lia]].
  destruct (bool_decide (Role st = RoleMaster)); simpl; [|split_and!; [done|done|lia]].
  destruct (HaveMasterOffset st); simpl; split_and!; try done; try lia;
    by rewrite <- ?app_assoc, ?orb_true_r.
Qed.

Lemma dual_scan_spec check pods :
  let r := scanDeFactoMasters check pods in
  sn_masters r = omap (as_master check) pods ∧
  sn_sawNoOffset r = existsb (offsetless check) pods ∧
  sn_pendingPods r = Z.of_nat (count (λ p, negb (has_ip_b p)) pods).
Proof. apply scan_fold. Qed.

(** A scan that refuses neither for a pending pod nor for a missing offset. *)
Lemma scan_clean check pods :
  (0 <? sn_pendingPods (scanDeFactoMasters check pods)) = false →
  sn_sawNoOffset (scanDeFactoMasters check pods) = false →
  Forall (λ p, pod_IP p ≠ "" ∧ offsetless check p = false) pods.
Proof.
  destruct (dual_scan_spec check pods) as (_ & -> & ->). intros Hp%Z.ltb_ge Hn.
  apply Forall_forall. intros p Hpin. split.
  - intros Hip. assert (count (λ p, negb (has_ip_b p)) pods = 0%nat) as Hc by lia.
    rewrite count_filter in Hc. apply length_zero_iff_nil in Hc.
    assert (p ∈ filter (λ p, negb (has_ip_b p) = true) pods) as Hf.
    { apply list_elem_of_filter. unfold has_ip_b. by rewrite bool_decide_eq_true_2. }
    rewrite Hc in Hf. by apply not_elem_of_nil in Hf.
  - destruct (offsetless check p) eqn:E; [|done]. rewrite <- Hn. symmetry.
    apply existsb_exists. exists p. by rewrite <- list_elem_of_In.
Qed.

Lemma as_master_spec check p m :
  as_master check p = Some m ↔
  df_pod m = p ∧ pod_IP p ≠ "" ∧
  ∃ st, check (dial_addr p) = Some st ∧ Role st = RoleMaster ∧ HaveMasterOffset st = true ∧
        df_offset m = MasterReplOffset st.
Proof.
  unfold as_master. case_bool_decide as Hip; [split; [done|by intros (_ & ? & _)]|].
  destruct (check (dial_addr p)) as [st|]; [|split; [done|by intros (_ & _ & ? & ? & _)]].
  destruct (bool_decide (Role st = RoleMaster) && HaveMasterOffset st) eqn:E.
  - bool_to_prop. split.
    + intros [= <-]. split_and!; [done|done|]. by exists st.
    + intros (<- & _ & st' & [= <-] & _ & _ & Ho). destruct m as [mp mo]. simpl in *. by subst.
  - split; [done|]. intros (_ & _ & st' & [= <-] & Hr & Ho & _).
    by rewrite bool_decide_eq_true_2, Ho in E.
Qed.

(** ** Lemmas: the ranking *)
Definition ahead (a b : deFactoMaster) : Prop := df_offset b <= df_offset a.

Lemma survivors_sorted addr l : Sorted.StronglySorted ahead (sort_by (survivor_less addr) l).
Proof.
  apply sort_by_sorted; unfold ahead, survivor_less.
  - intros x y z. lia.
  - intros x y. destruct (Z.eqb_spec (df_offset y) (df_offset x)); simpl; [lia|]. intros; bool_to_prop; lia.
  - intros x y. destruct (Z.eqb_spec (df_offset y) (df_offset x)); simpl; [lia|]. intros; bool_to_prop; lia.
Qed.

Lemma wrap64_le d : 0 <= d → wrap64 d <= d.
Proof.
  intros Hd. unfold wrap64. pose proof (Z.mod_le (d + 2 ^ 63) (2 ^ 64)). lia.
Qed.

(** The survivor is ahead of every other master by more than the tie window. *)
Lemma survivor_clear addr l m r rest :
  sort_by (survivor_less addr) l = m :: r :: rest →
  dualMasterOffsetEpsilon < wrap64 (df_offset m - df_offset r) →
  ∀ x, x ∈ r :: rest → df_offset x + dualMasterOffsetEpsilon < df_offset m.
Proof.
  intros Hs He x Hx. pose proof (survivors_sorted addr l) as Hsort. rewrite Hs in Hsort.
  inversion Hsort as [|? ? Hs2 Hall]; subst. inversion Hs2 as [|? ? _ Hall2]; subst.
  assert (Hmr : df_offset r <= df_offset m) by (inversion Hall; done).
  pose proof (wrap64_le (df_offset m - df_offset r) ltac:(lia)).
  apply elem_of_cons in Hx as [->|Hx]; [lia|].
  rewrite List.Forall_forall in Hall2. apply list_elem_of_In, Hall2 in Hx. unfold ahead in Hx. lia.
Qed.

(** ** Lemmas: what is sent *)
Section sends.
Context (recorder : bool).

Lemma deferred_cmds i sig note o : oo_cmds (emitDualMasterDeferred recorder i sig note o) = oo_cmds o.
Proof. unfold emitDualMasterDeferred. by destruct (fireDualMasterDeferEdge _ _ _) as [[] s]. Qed.

Lemma stamp_scan_cmds now scan o : oo_cmds (stamp_scan now scan o) = oo_cmds o.
Proof. unfold stamp_scan. by repeat case_match. Qed.

Lemma demote_cmds i m l o c :
  c ∈ oo_cmds (foldl (demote_loser recorder i m) o l) →
  c ∈ oo_cmds o ∨ ∃ x, x ∈ l ∧
    (c = CmdReplicaOf (df_addr x) (pod_IP (df_pod m)) ∨
     (c = CmdKillClients (df_addr x) ∧ om_replicaof i (df_addr x) (pod_IP (df_pod m)) = None)).
Proof.
  revert o. induction l as [|x l IH]; intros o; simpl; [by left|]. intros H.
  apply IH in H as [H|(y & Hy & Hc)]; [|right; exists y; split; [by right|done]].
  unfold demote_loser in H.
  destruct (om_replicaof i (df_addr x) (pod_IP (df_pod m))) eqn:E; simpl in H;
    rewrite ?elem_of_app, ?list_elem_of_singleton in H.
  - destruct H as [H| ->]; [by left|]. right. exists x. split; [by left|by left].
  - destruct H as [[H| ->]| ->]; [by left|..]; right; exists x; (split; [by left|]); [by left|by right].
Qed.
End sends.

(** C7: The self-heal of a dual-master split never demotes the more advanced master.  When
    a pass sends REPLICAOF to a pod, the CR is inside the failover critical section, the
    sentinel view is unusable, every listed pod has an address and every pod that reported [role:master] also reported its offset; the pod
    that receives the command reported [role:master], it is pointed at another pod that
    did, and that survivor's offset exceeds by more than 4096 bytes the offset of the
    demoted pod and of every other pod that answered as master. *)
Theorem self_heal_keeps_most_advanced recorder i mode status percr pods s addr ip :
  let o := {| oo_state := s; oo_events := []; oo_cmds := [] |} in
  let masterAt p off := ∃ st, om_check i (dial_addr p) = Some st ∧ Role st = RoleMaster ∧
                                HaveMasterOffset st = true ∧ MasterReplOffset st = off in
  CmdReplicaOf addr ip ∈ oo_cmds (reconcileDualMasterSelfHeal recorder i mode status percr pods o) →
  IsFailoverInFlight (om_latch_snap i) (om_nowLatch i) percr = true ∧
  quorumViewUnusable mode (om_quorum_snap i) (om_agree_snap i) (om_list i) = true ∧
  Forall (λ p, pod_IP p ≠ "" ∧ offsetless (om_check i) p = false) pods ∧
  ∃ survivor loser high low,
    survivor ∈ pods ∧ loser ∈ pods ∧ ip = pod_IP survivor ∧ addr = dial_addr loser ∧
    masterAt survivor high ∧ masterAt loser low ∧ low + dualMasterOffsetEpsilon < high ∧
    ∀ q off, q ∈ pods → masterAt q off → q = survivor ∨ off + dualMasterOffsetEpsilon < high.
Proof.
  intros o masterAt. unfold reconcileDualMasterSelfHeal.
  destruct (IsFailoverInFlight _ _ _); simpl; [|by intros ?%not_elem_of_nil].
  destruct (quorumViewUnusable _ _ _ _); simpl; [|by intros ?%not_elem_of_nil].
  destruct (dual_scan_spec (om_check i) pods) as (Hm & Hn & Hpend).
  pose proof (stamp_scan_cmds (om_nowStamp i) (scanDeFactoMasters (om_check i) pods) o) as Ho1.
  revert Ho1. generalize (stamp_scan (om_nowStamp i) (scanDeFactoMasters (om_check i) pods) o) as o1.
  subst o. simpl. intros o1 Ho1. destruct (0 <? sn_pendingPods (scanDeFactoMasters (om_check i) pods)) eqn:Hp.
  { case_match; rewrite ?deferred_cmds, Ho1; by intros ?%not_elem_of_nil. }
  destruct (sn_sawNoOffset (scanDeFactoMasters (om_check i) pods)) eqn:Hno.
  { rewrite deferred_cmds, Ho1. by intros ?%not_elem_of_nil. }
  case_match; [rewrite Ho1; by intros ?%not_elem_of_nil|].
  rewrite Hm. unfold heal_split. intros Hin. split; [done|]. split; [done|].
  pose proof (scan_clean (om_check i) pods Hp Hno) as Hall.
  split; [done|]. revert Hin. case_match; [by rewrite deferred_cmds, Ho1; intros ?%not_elem_of_nil|].
  pose proof (sort_by_perm (survivor_less (failoverDispatchFence status).1) (omap (as_master (om_check i)) pods)) as Hperm.
  destruct (sort_by _ (omap _ pods)) as [|sv [|ru rest]] eqn:Hsort; [by rewrite Ho1; intros ?%not_elem_of_nil..|].
  case_match eqn:Heps; [by rewrite deferred_cmds, Ho1; intros ?%not_elem_of_nil|].
  case_match; [by rewrite deferred_cmds, Ho1; intros ?%not_elem_of_nil|].
  intros Hin. apply demote_cmds in Hin as [Hin|(x & Hx & [[= -> ->]|[? _]])]; [|..|done].
  { simpl in Hin. rewrite Ho1 in Hin. by apply not_elem_of_nil in Hin. }
  apply Z.leb_gt in Heps. pose proof (survivor_clear _ _ _ _ _ Hsort Heps) as Hclear.
  assert (Hmem : ∀ y, y ∈ sv :: ru :: rest → df_pod y ∈ pods ∧ masterAt (df_pod y) (df_offset y)).
  { intros y Hy. rewrite Hperm in Hy. apply list_elem_of_omap in Hy as (p & Hpin & Hy).
    apply as_master_spec in Hy as (<- & _ & st & Hc & Hr & Ho & ->). split; [done|]. by exists st. }
  destruct (Hmem sv ltac:(by left)) as [Hsv1 Hsv2]. destruct (Hmem x ltac:(by right)) as [Hx1 Hx2].
  exists (df_pod sv), (df_pod x), (df_offset sv), (df_offset x). split_and!; try done; [by apply Hclear|].
  intros q off Hq (st & Hc & Hr & Ho & <-). rewrite Forall_forall in Hall.
  assert (Hqm : {| df_pod := q; df_offset := MasterReplOffset st |} ∈ sv :: ru :: rest).
  { rewrite Hperm. apply list_elem_of_omap. exists q. split; [done|]. apply as_master_spec.
    split_and!; [done|by apply Hall|]. by exists st. }
  apply elem_of_cons in Hqm as [<-|Hqm]; [by left|]. right. by apply Hclear in Hqm.
Qed.

(** ** The orphan scan *)
Lemma orphan_fold_cmds recorder i primary pst l a c :
  c ∈ oo_cmds (os_out (foldl (orphan_step recorder i primary pst) a l)) →
  c ∈ oo_cmds (os_out a) ∨
  ∃ r st, r ∈ l ∧ om_check i (dial_addr r) = Some st ∧ Role st = RoleMaster ∧
          c = CmdReplicaOf (dial_addr r) (pod_IP primary).
Proof.
  revert a. induction l as [|r l IH]; intros a; simpl; [by left|]. intros H.
  apply IH in H as [H|(r' & st & Hr & Hx)]; [|right; exists r', st; split; [by right|done]].
  unfold orphan_step in H. destruct (om_check i (dial_addr r)) as [st|] eqn:Hc; [|by left].
  case_bool_decide as Hrole; simpl in H; [|by left].
  assert (c ∈ oo_cmds (os_out a) ++ [CmdReplicaOf (dial_addr r) (pod_IP primary)]) as Hin.
  { revert H. by repeat case_match. }
  apply elem_of_app in Hin as [?| ->%list_elem_of_singleton]; [by left|].
  right. exists r, st. split; [by left|done].
Qed.

(** With a labelled primary, REPLICAOF goes only to pods that are labelled replica and
    report [role:master], and only towards a primary that itself reports [role:master]; no
    other command is sent, and none at all in standalone mode. *)
Theorem orphan_demotion_targets recorder i mode status percr pods s primary rest c :
  List.filter (λ p, has_ip_b p && labelled roleValuePrimary p) pods = primary :: rest →
  c ∈ oo_cmds (reconcileOrphanMasters recorder i mode status percr pods s) →
  mode ≠ ModeStandalone ∧
  ∃ pst r st, om_check i (dial_addr primary) = Some pst ∧ Role pst = RoleMaster ∧
    r ∈ pods ∧ label r RoleLabel = roleValueReplica ∧
    om_check i (dial_addr r) = Some st ∧ Role st = RoleMaster ∧
    c = CmdReplicaOf (dial_addr r) (pod_IP primary).
Proof.
  intros Hf. unfold reconcileOrphanMasters. case_bool_decide; simpl; [by intros ?%not_elem_of_nil|].
  rewrite Hf. unfold orphan_scan_all. intros Hin. split; [done|]. revert Hin.
  case_match; simpl; [by intros ?%not_elem_of_nil|].
  destruct (om_check i (dial_addr primary)) as [pst|] eqn:Hp; simpl; [|by intros ?%not_elem_of_nil].
  case_bool_decide as Hrole; simpl; [|by intros ?%not_elem_of_nil]. intros Hin.
  match type of Hin with context [foldl ?f ?a ?l] => set (sc := foldl f a l) in * end.
  assert (c ∈ oo_cmds (os_out sc)) as Hc by (revert Hin; by repeat case_match).
  subst sc. apply orphan_fold_cmds in Hc as [Hc|(r & st & Hr & Hck & Hst & ->)].
  { simpl in Hc. by apply not_elem_of_nil in Hc. }
  exists pst, r, st. apply list_elem_of_In, filter_In in Hr as [Hr Hl]. bool_to_prop.
  split_and!; try done; [by apply list_elem_of_In|]. unfold labelled in *. by bool_to_prop.
Qed.

(** ** The attempt budget *)
Definition attempts (s : dual_state) : Z :=
  match dualMasterSelfHeal s with Some st => attemptCount st | None => 0 end.

Lemma stamp_scan_budget now scan o :
  dualMasterSelfHeal (oo_state (stamp_scan now scan o)) = dualMasterSelfHeal (oo_state o).
Proof. unfold stamp_scan. by repeat case_match. Qed.

Lemma deferred_budget recorder i sig note o :
  dualMasterSelfHeal (oo_state (emitDualMasterDeferred recorder i sig note o)) =
  dualMasterSelfHeal (oo_state o).
Proof.
  unfold emitDualMasterDeferred, fireDualMasterDeferEdge. by repeat (case_match; simplify_eq/=).
Qed.

Lemma demote_loser_state recorder i m o x : oo_state (demote_loser recorder i m o x) = oo_state o.
Proof. unfold demote_loser. by case_match. Qed.

Lemma demote_budget recorder i m l o :
  oo_state (foldl (demote_loser recorder i m) o l) = oo_state o.
Proof.
  revert o. induction l as [|x l IH]; intros o; simpl; [done|]. by rewrite IH, demote_loser_state.
Qed.

(** A pass either sends nothing and keeps the budget, or was allowed and records an attempt. *)
Lemma self_heal_budget_step recorder i mode status percr pods s :
  let o := {| oo_state := s; oo_events := []; oo_cmds := [] |} in
  let o' := reconcileDualMasterSelfHeal recorder i mode status percr pods o in
  (oo_cmds o' = [] ∧ dualMasterSelfHeal (oo_state o') = dualMasterSelfHeal s) ∨
  (selfHealAttemptAllowed (om_nowAttempt i) dualMasterSelfHealBaseCooldown
     dualMasterSelfHealMaxBackoff dualMasterSelfHealMaxAttempts s = true ∧
   dualMasterSelfHeal (oo_state o') =
     Some {| lastAttempt := om_nowAttempt i; attemptCount := attempts s + 1 |}).
Proof.
  intros o o'. subst o'. unfold reconcileDualMasterSelfHeal.
  destruct (IsFailoverInFlight _ _ _); simpl; [|by left].
  destruct (quorumViewUnusable _ _ _ _); simpl; [|by left].
  set (scan := scanDeFactoMasters (om_check i) pods).
  pose proof (stamp_scan_cmds (om_nowStamp i) scan o) as Hc.
  pose proof (stamp_scan_budget (om_nowStamp i) scan o) as Hb. revert Hc Hb.
  generalize (stamp_scan (om_nowStamp i) scan o) as o1. subst o. simpl. intros o1 Hc Hb.
  case_match; [left; case_match; rewrite ?deferred_cmds, ?deferred_budget; done|].
  case_match; [left; by rewrite deferred_cmds, deferred_budget|]. case_match; [by left|].
  unfold heal_split.
  assert (Hal : ∀ n b m k, selfHealAttemptAllowed n b m k (oo_state o1) = selfHealAttemptAllowed n b m k s)
    by (intros; unfold selfHealAttemptAllowed; by rewrite Hb).
  rewrite Hal. destruct (selfHealAttemptAllowed _ _ _ _ s) eqn:Ha; simpl;
    [|left; by rewrite deferred_cmds, deferred_budget].
  destruct (sort_by _ _) as [|sv [|ru rest]]; [by left..|].
  case_match; [left; by rewrite deferred_cmds, deferred_budget|].
  case_match; [left; by rewrite deferred_cmds, deferred_budget|].
  right. split; [done|].
  rewrite demote_budget, demote_loser_state. simpl. unfold attempts. by rewrite Hb.
Qed.

(** A run of passes during which no primary label appears. *)
Record heal_pass := {
  hp_in : om_in; hp_mode : Mode; hp_status : option RolloutStatus; hp_percr : perCRState; hp_pods : list Pod
}.
Definition heal_step (recorder : bool) (s : dual_state) (h : heal_pass) : om_out :=
  reconcileDualMasterSelfHeal recorder (hp_in h) (hp_mode h) (hp_status h) (hp_percr h) (hp_pods h)
    {| oo_state := s; oo_events := []; oo_cmds := [] |}.

(** The final trackers and the number of passes that sent a command. *)
Fixpoint heal_run (recorder : bool) (s : dual_state) (hs : list heal_pass) : dual_state * Z :=
  match hs with
  | [] => (s, 0)
  | h :: hs =>
      let o := heal_step recorder s h in
      let '(s', n) := heal_run recorder (oo_state o) hs in
      (s', n + match oo_cmds o with [] => 0 | _ => 1 end)
  end.

Lemma allowed_below_max now b m k s :
  0 < k → selfHealAttemptAllowed now b m k s = true → attempts s < k.
Proof.
  unfold selfHealAttemptAllowed, attempts. destruct (dualMasterSelfHeal s) as [st|]; [|lia].
  destruct (Z.eqb_spec (attemptCount st) 0); [lia|]. case_match; [done|]. bool_to_prop. lia.
Qed.

(** The self-heal is bounded: however many passes run while no primary is labelled, at
    most five of them send commands (fewer if attempts were already recorded), and the
    recorded attempt count never exceeds five. *)
Theorem self_heal_budget recorder s hs :
  0 <= attempts s <= dualMasterSelfHealMaxAttempts →
  let '(s', n) := heal_run recorder s hs in
  n <= dualMasterSelfHealMaxAttempts - attempts s ∧ attempts s <= attempts s' <= dualMasterSelfHealMaxAttempts.
Proof.
  revert s. induction hs as [|h hs IH]; intros s Ha; simpl; [lia|].
  pose proof (self_heal_budget_step recorder (hp_in h) (hp_mode h) (hp_status h) (hp_percr h) (hp_pods h) s) as Hstep.
  cbv zeta in Hstep. fold (heal_step recorder s h) in Hstep. set (o := heal_step recorder s h) in *.
  destruct Hstep as [[Hc Hb]|[Hal Hb]].
  - assert (attempts (oo_state o) = attempts s) as He by (unfold attempts; by rewrite Hb).
    specialize (IH (oo_state o)). destruct (heal_run recorder (oo_state o) hs) as [s' n].
    rewrite Hc, He in *. lia.
  - apply allowed_below_max in Hal; [|done].
    assert (attempts (oo_state o) = attempts s + 1) as He by (unfold attempts at 1; by rewrite Hb).
    specialize (IH (oo_state o)). destruct (heal_run recorder (oo_state o) hs) as [s' n].
    rewrite He in IH. destruct (oo_cmds o); lia.
Qed.

(** ** The merge of two sorted lists *)
Definition slt (x y : string) : Prop := String.le x y ∧ x ≠ y.

#[export] Instance slt_trans : Transitive slt.
Proof.
  intros x y z [H1 N1] [H2 N2]. split; [by trans y|]. intros ->. apply N1. by apply (anti_symm String.le).
Qed.

(** The output so far, newest first, and what is still to come. *)
Definition desc (out : list string) : Prop := Sorted.StronglySorted (λ x y, slt y x) out.
Definition below (out l : list string) : Prop :=
  match out with [] => True | h :: _ => ∀ z, z ∈ l → String.le h z end.

Lemma appendUnique_spec out v :
  desc out → below out [v] →
  desc (appendUnique out v) ∧ (∀ z, z ∈ appendUnique out v ↔ z ∈ out ∨ z = v) ∧
  ∃ t, appendUnique out v = v :: t.
Proof.
  intros Hd Hb. destruct out as [|h t]; simpl.
  { split_and!; [repeat constructor|set_solver|by eexists]. }
  case_bool_decide as E; [subst h; split_and!; [done|set_solver|by eexists]|].
  split_and!; [|set_solver|by eexists]. constructor; [done|].
  assert (slt h v) as Hhv by (split; [apply Hb; set_solver|done]).
  inversion Hd as [|? ? _ Hall]; subst. constructor; [done|].
  eapply List.Forall_impl; [|exact Hall]. intros z Hz. by trans h.
Qed.

Lemma foldl_appendUnique l out :
  desc out → Sorted.StronglySorted String.le l → below out l →
  desc (foldl appendUnique out l) ∧ ∀ z, z ∈ foldl appendUnique out l ↔ z ∈ out ∨ z ∈ l.
Proof.
  revert out. induction l as [|x l IH]; intros out Hd Hs Hb; simpl; [split; [done|set_solver]|].
  inversion Hs as [|? ? Hs' Hall]; subst.
  destruct (appendUnique_spec out x) as (Hd' & Hm & t & Ht); [done|destruct out; [done|set_solver]|].
  destruct (IH (appendUnique out x)) as [Hd2 Hm2]; [done|done| |].
  { rewrite Ht. simpl. intros z Hz. rewrite List.Forall_forall in Hall. apply Hall. by apply list_elem_of_In. }
  split; [done|]. intros z. rewrite Hm2, Hm, elem_of_cons. tauto.
Qed.

Lemma merge_loop_spec fuel a b out :
  (length a + length b < fuel)%nat → desc out →
  Sorted.StronglySorted String.le a → Sorted.StronglySorted String.le b →
  below out a → below out b →
  desc (merge_loop fuel a b out) ∧ ∀ z, z ∈ merge_loop fuel a b out ↔ z ∈ out ∨ z ∈ a ∨ z ∈ b.
Proof.
  revert a b out. induction fuel as [|fuel IH]; intros a b out Hf Hd Ha Hb Hba Hbb; [lia|].
  destruct a as [|x a]; [|destruct b as [|y b]].
  - assert (merge_loop (Datatypes.S fuel) [] b out = foldl appendUnique out b) as -> by (by destruct b).
    destruct (foldl_appendUnique b out Hd Hb Hbb) as [? Hm]. split; [done|]. set_solver.
  - destruct (foldl_appendUnique (x :: a) out Hd Ha Hba) as [? Hm].
    change (merge_loop (Datatypes.S fuel) (x :: a) [] out) with (foldl appendUnique out (x :: a)).
    split; [done|]. set_solver.
  - change (merge_loop (Datatypes.S fuel) (x :: a) (y :: b) out) with
      (if String.ltb x y then merge_loop fuel a (y :: b) (appendUnique out x)
       else if String.ltb y x then merge_loop fuel (x :: a) b (appendUnique out y)
       else merge_loop fuel a b (appendUnique out x)).
    inversion Ha as [|? ? Ha' Hxa]; subst. inversion Hb as [|? ? Hb' Hyb]; subst.
    rewrite List.Forall_forall in Hxa, Hyb. setoid_rewrite <- list_elem_of_In in Hxa.
    setoid_rewrite <- list_elem_of_In in Hyb. simpl in Hf.
    assert (Hone : ∀ v, v = x ∨ v = y → below out [v]).
    { intros v Hv. destruct out; [done|]. destruct Hv; set_solver. }
    destruct (String.ltb x y) eqn:Exy; [|destruct (String.ltb y x) eqn:Eyx].
    + apply ltb_le in Exy as [Hxy _]. destruct (appendUnique_spec out x) as (Hd' & Hm & t & Ht); [by auto..|].
      destruct (IH a (y :: b) (appendUnique out x)) as [? Hm2]; try done; rewrite ?Ht; simpl; [lia|by auto| |].
      { intros z [->|Hz]%elem_of_cons; [done|]. trans y; auto. }
      split; [by rewrite <- Ht|]. intros z. rewrite <- Ht, Hm2, Hm. set_solver.
    + apply ltb_le in Eyx as [Hyx _]. destruct (appendUnique_spec out y) as (Hd' & Hm & t & Ht); [by auto..|].
      destruct (IH (x :: a) b (appendUnique out y)) as [? Hm2]; try done; rewrite ?Ht; simpl; [lia| |by auto|].
      { intros z [->|Hz]%elem_of_cons; [done|]. trans x; auto. }
      split; [by rewrite <- Ht|]. intros z. rewrite <- Ht, Hm2, Hm. set_solver.
    + apply ltb_false in Exy, Eyx. assert (x = y) as <- by (by apply (anti_symm String.le)).
      destruct (appendUnique_spec out x) as (Hd' & Hm & t & Ht); [by auto..|].
      destruct (IH a b (appendUnique out x)) as [? Hm2]; try done; rewrite ?Ht; simpl; [lia|by auto..|].
      split; [by rewrite <- Ht|]. intros z. rewrite <- Ht, Hm2, Hm. set_solver.
Qed.

Lemma sort_strings_sorted l : Sorted.StronglySorted String.le (sort_strings l).
Proof.
  apply sort_by_sorted; [apply _|..]; intros x y H; [by apply ltb_le in H as [? _]|by apply ltb_false].
Qed.

(** The hand-written merge computes the union, sorted and without repetition. *)
Lemma mergeSortedUnique_union a b :
  Sorted.StronglySorted String.le a → Sorted.StronglySorted String.le b →
  desc (reverse (mergeSortedUnique a b)) ∧ ∀ z, z ∈ mergeSortedUnique a b ↔ z ∈ a ∨ z ∈ b.
Proof.
  intros Ha Hb. unfold mergeSortedUnique. rewrite reverse_involutive.
  destruct (merge_loop_spec (length a + length b + 1) a b []) as [Hd Hm]; try done; [lia|constructor|].
  split; [done|]. intros z. rewrite elem_of_reverse, Hm. set_solver.
Qed.

(** ** Concrete runs *)
Definition om_pod (name ip role : string) : Pod :=
  {| pod_Name := name; pod_Labels := if bool_decide (role = "") then ∅ else {[ RoleLabel := role ]};
     pod_DeletionTimestamp := None; pod_IP := ip; pod_NodeName := ""; pod_Conditions := [];
     pod_ReadinessGates := [] |}.
Definition master_at (off : Z) : LagState :=
  {| Role := RoleMaster; LinkUp := false; LagBytes := 0; MasterReplOffset := off; HaveMasterOffset := true;
     MasterHost := ""; SlaveReplOffset := 0; HaveSlaveOffset := false |}.

(** vk-0 and vk-1 answer as masters; vk-2 does not answer. *)
Definition demo_check (addr : string) : option LagState :=
  if bool_decide (addr = "10.0.0.1:6379") then Some (master_at 90000)
  else if bool_decide (addr = "10.0.0.2:6379") then Some (master_at 100)
  else None.
Definition demo_om : om_in :=
  {| om_check := demo_check; om_replicaof := λ _ _, None; om_latch_snap := None; om_quorum_snap := None;
     om_agree_snap := None; om_fence_snap := None; om_list := None; om_nowLatch := 0;
     om_nowStamp := 1; om_nowAttempt := Second; om_nowDefer := Second |}.
Definition demo_percr : perCRState := set_lastState StateFailoverInFlight percr_zero.
Definition split_pods : list Pod := [om_pod "vk-0" "10.0.0.1" ""; om_pod "vk-1" "10.0.0.2" ""].

Lemma self_heal_keeps_most_advanced_witness :
  IsFailoverInFlight (om_latch_snap demo_om) (om_nowLatch demo_om) demo_percr = true ∧
  quorumViewUnusable ModeSentinel None None None = true ∧
  Forall (λ p, pod_IP p ≠ "" ∧ offsetless demo_check p = false) split_pods ∧
  ∃ survivor loser high low,
    survivor ∈ split_pods ∧ loser ∈ split_pods ∧ "10.0.0.1" = pod_IP survivor ∧
    "10.0.0.2:6379" = dial_addr loser ∧
    (∃ st, demo_check (dial_addr survivor) = Some st ∧ Role st = RoleMaster ∧
           HaveMasterOffset st = true ∧ MasterReplOffset st = high) ∧
    (∃ st, demo_check (dial_addr loser) = Some st ∧ Role st = RoleMaster ∧
           HaveMasterOffset st = true ∧ MasterReplOffset st = low) ∧
    low + dualMasterOffsetEpsilon < high ∧
    ∀ q off, q ∈ split_pods →
      (∃ st, demo_check (dial_addr q) = Some st ∧ Role st = RoleMaster ∧
             HaveMasterOffset st = true ∧ MasterReplOffset st = off) →
      q = survivor ∨ off + dualMasterOffsetEpsilon < high.
Proof.
  apply (self_heal_keeps_most_advanced true demo_om ModeSentinel None demo_percr split_pods dual_zero).
  assert (oo_cmds (reconcileDualMasterSelfHeal true demo_om ModeSentinel None demo_percr split_pods
            {| oo_state := dual_zero; oo_events := []; oo_cmds := [] |}) =
          [CmdReplicaOf "10.0.0.2:6379" "10.0.0.1"; CmdKillClients "10.0.0.2:6379"]) as -> by (by vm_compute).
  by left.
Defined.

Definition labelled_pods : list Pod :=
  [om_pod "vk-0" "10.0.0.1" "primary"; om_pod "vk-1" "10.0.0.2" "replica"].

Lemma orphan_demotion_targets_witness :
  ModeSentinel ≠ ModeStandalone ∧
  ∃ pst r st, demo_check (dial_addr (om_pod "vk-0" "10.0.0.1" "primary")) = Some pst ∧
    Role pst = RoleMaster ∧ r ∈ labelled_pods ∧ label r RoleLabel = roleValueReplica ∧
    demo_check (dial_addr r) = Some st ∧ Role st = RoleMaster ∧
    CmdReplicaOf "10.0.0.2:6379" "10.0.0.1" =
      CmdReplicaOf (dial_addr r) (pod_IP (om_pod "vk-0" "10.0.0.1" "primary")).
Proof.
  apply (orphan_demotion_targets true demo_om ModeSentinel None percr_zero labelled_pods dual_zero
           (om_pod "vk-0" "10.0.0.1" "primary") []).
  - by vm_compute.
  - assert (oo_cmds (reconcileOrphanMasters true demo_om ModeSentinel None percr_zero labelled_pods dual_zero) =
            [CmdReplicaOf "10.0.0.2:6379" "10.0.0.1"]) as -> by (by vm_compute).
    by left.
Defined.

Definition demo_heal : heal_pass :=
  {| hp_in := demo_om; hp_mode := ModeSentinel; hp_status := None; hp_percr := demo_percr; hp_pods := split_pods |}.

Lemma self_heal_budget_witness :
  let '(s', n) := heal_run true dual_zero [demo_heal; demo_heal] in
  n <= dualMasterSelfHealMaxAttempts - attempts dual_zero ∧
  attempts dual_zero <= attempts s' <= dualMasterSelfHealMaxAttempts.
Proof. apply (self_heal_budget true dual_zero [demo_heal; demo_heal]). by vm_compute. Defined.

(** A pod that has an address but does not answer does not stop the self-heal: the
    election goes ahead without knowing that pod's offset. *)
Theorem self_heal_ignores_unreachable :
  ∃ i pods p, p ∈ pods ∧ pod_IP p ≠ "" ∧ om_check i (dial_addr p) = None ∧
    oo_cmds (reconcileOrphanMasters true i ModeSentinel None demo_percr pods dual_zero) ≠ [].
Proof.
  exists demo_om, (split_pods ++ [om_pod "vk-2" "10.0.0.3" ""]), (om_pod "vk-2" "10.0.0.3" "").
  split_and!; [set_solver|done|by vm_compute|by vm_compute].
Qed.
