(* ===== verification/ObserverManager.v ===== *)
(** * The life cycle of the observers: [internal/sentinel/manager.go], [observer.go]

    The manager owns one observer per CR.  [Ensure], [Remove] and the end of [Start] run
    under its lock; the stop of an observer that left the registry, and the release of its
    password from the log redactor, run after it, in the caller's thread.  Each locked
    region is one step of a transition system here, except that [Ensure] starts the new
    goroutines before it registers their password, which are two steps; stops, releases,
    work of the goroutines and the redaction scopes of other code interleave freely. *)
From S2P Require Import Prelude GoStd SentinelParse Observer SQAggregate Redaction SentinelWire Surgery OrphanMaster.
From stdpp Require Import sorting.
Local Open Scope Z_scope.

(** ** State *)

(** An observer as the manager holds it; [h_id] is its identity. *)
Record handle := {
  h_id : nat;
  h_cr : observerKey;
  h_master : string;
  h_password : string;
  h_endpoints : list Endpoint
}.
#[export] Instance handle_eq_dec : EqDecision handle.
Proof. solve_decision. Defined.

Record mgr := {
  rootCtx : bool;                              (* between the begin and the end of [Start] *)
  observers : gmap observerKey handle;
  m_ghosts : gmap observerKey (gmap string Time);
  heap : gmap nat observer;                    (* what each observer knows *)
  running : list handle;                       (* those with goroutines *)
  installing : option (handle * option handle);  (* started by the [Ensure] that holds the lock, and the one it replaces *)
  stopping : list handle;                      (* out of the registry, to be stopped *)
  stopped : list handle;                       (* stopped, password to be released *)
  registry : Registry;
  scopes : list string;                        (* secrets other code holds registered *)
  next_id : nat
}.

Definition mgr_new : mgr :=
  {| rootCtx := false; observers := ∅; m_ghosts := ∅; heap := ∅; running := []; installing := None; stopping := [];
     stopped := []; registry := NewRegistry; scopes := []; next_id := 0 |}.

(** ** The operations *)
Definition sorted_endpoints (eps : list Endpoint) : list Endpoint := sort_by (λ a b, String.ltb (Name a) (Name b)) eps.

Definition observerConfigEqual (h : handle) (masterName password : string) (endpoints : list Endpoint) : bool :=
  bool_decide (h_master h = masterName) && bool_decide (h_password h = password) &&
  bool_decide (h_endpoints h = endpoints).

Definition ErrManagerNotStarted : string :=
  "sentinel observer manager not started — Ensure called before Start; transient at operator startup, retries on next reconcile".

Definition StartBegin (m : mgr) : mgr :=
  {| rootCtx := true; observers := observers m; m_ghosts := m_ghosts m; heap := heap m; running := running m;
     installing := installing m; stopping := stopping m; stopped := stopped m; registry := registry m; scopes := scopes m;
     next_id := next_id m |}.

(** The locked region of [Ensure] up to the registration of the password. *)
Definition Ensure (cr : observerKey) (masterName password : string) (endpoints : list Endpoint) (now : Time) (m : mgr) :
    option string * mgr :=
  if bool_decide (masterName = "") then (Some "masterName required", m)
  else if bool_decide (endpoints = []) then (Some "at least one sentinel endpoint required", m)
  else
    let eps := sorted_endpoints endpoints in
    if negb (rootCtx m) then (Some ErrManagerNotStarted, m)
    else
      let prev := observers m !! cr in
      if match prev with Some p => observerConfigEqual p masterName password eps | None => false end then (None, m)
      else
        let o := {| h_id := next_id m; h_cr := cr; h_master := masterName; h_password := password; h_endpoints := eps |} in
        (None,
         {| rootCtx := rootCtx m; observers := <[cr := o]> (observers m); m_ghosts := m_ghosts m;
            heap := <[next_id m := start now (newObserver masterName eps)]> (heap m);
            running := o :: running m; installing := Some (o, prev); stopping := stopping m;
            stopped := stopped m; registry := registry m; scopes := scopes m; next_id := S (next_id m) |}).

(** The rest of it: the registration, and the unlock, after which the old observer is stopped. *)
Definition EnsureRegister (o : handle) (prev : option handle) (m : mgr) : mgr :=
  {| rootCtx := rootCtx m; observers := observers m; m_ghosts := m_ghosts m; heap := heap m; running := running m;
     installing := None; stopping := option_list prev ++ stopping m; stopped := stopped m; registry := Register (h_password o) (registry m);
     scopes := scopes m; next_id := next_id m |}.

(** [Remove]: the debounce of the CR's ghosts, under the surgery lock, then the observer. *)
Definition RemoveGhosts (cr : observerKey) (m : mgr) : mgr :=
  {| rootCtx := rootCtx m; observers := observers m; m_ghosts := delete cr (m_ghosts m); heap := heap m; running := running m;
     installing := installing m; stopping := stopping m; stopped := stopped m; registry := registry m; scopes := scopes m;
     next_id := next_id m |}.
Definition Remove (cr : observerKey) (m : mgr) : mgr :=
  match observers m !! cr with
  | None => m
  | Some o =>
      {| rootCtx := rootCtx m; observers := delete cr (observers m); m_ghosts := m_ghosts m; heap := heap m; running := running m;
         installing := installing m; stopping := o :: stopping m; stopped := stopped m; registry := registry m;
         scopes := scopes m; next_id := next_id m |}
  end.

(** The end of [Start]. *)
Definition StartEnd (m : mgr) : mgr :=
  {| rootCtx := false; observers := ∅; m_ghosts := m_ghosts m; heap := heap m; running := running m; installing := installing m;
     stopping := (map_to_list (observers m)).*2 ++ stopping m; stopped := stopped m; registry := registry m;
     scopes := scopes m; next_id := next_id m |}.

Definition drop_handle (h : handle) (l : list handle) : list handle := filter (λ x, h_id x ≠ h_id h) l.

(** [o.stop()] returns when the goroutines have exited. *)
Definition Stop (h : handle) (m : mgr) : mgr :=
  {| rootCtx := rootCtx m; observers := observers m; m_ghosts := m_ghosts m; heap := heap m; running := drop_handle h (running m);
     installing := installing m; stopping := drop_handle h (stopping m); stopped := h :: stopped m; registry := registry m;
     scopes := scopes m; next_id := next_id m |}.
Definition Release (h : handle) (m : mgr) : mgr :=
  {| rootCtx := rootCtx m; observers := observers m; m_ghosts := m_ghosts m; heap := heap m; running := running m;
     installing := installing m; stopping := stopping m; stopped := drop_handle h (stopped m);
     registry := Forget (h_password h) (registry m); scopes := scopes m; next_id := next_id m |}.

Definition managerSnapshot (cr : observerKey) (m : mgr) : Observer.Snapshot :=
  match observers m !! cr with
  | None => snapshot_zero
  | Some h => match heap m !! h_id h with Some o => snapshot o | None => snapshot_zero end
  end.
Definition EndpointObservations (cr : observerKey) (m : mgr) : list EndpointObservation :=
  match observers m !! cr with
  | None => []
  | Some h => default [] (heap m !! h_id h ≫= endpointObs)
  end.
Definition Has (cr : observerKey) (m : mgr) : bool := bool_decide (is_Some (observers m !! cr)).

(** ** Interleavings *)
Definition work (id : nat) (o : observer) (m : mgr) : mgr :=
  {| rootCtx := rootCtx m; observers := observers m; m_ghosts := m_ghosts m; heap := <[id := o]> (heap m); running := running m;
     installing := installing m; stopping := stopping m; stopped := stopped m; registry := registry m; scopes := scopes m;
     next_id := next_id m |}.
Definition with_scopes (l : list string) (r : Registry) (m : mgr) : mgr :=
  {| rootCtx := rootCtx m; observers := observers m; m_ghosts := m_ghosts m; heap := heap m; running := running m;
     installing := installing m; stopping := stopping m; stopped := stopped m; registry := r; scopes := l;
     next_id := next_id m |}.

Inductive mstep : mgr → mgr → Prop :=
  | s_start m : installing m = None → mstep m (StartBegin m)
  | s_ensure m cr master password eps now : installing m = None → mstep m (Ensure cr master password eps now m).2
  | s_register m o prev : installing m = Some (o, prev) → mstep m (EnsureRegister o prev m)
  | s_ghosts m cr : mstep m (RemoveGhosts cr m)
  | s_remove m cr : installing m = None → mstep m (Remove cr m)
  | s_end m : installing m = None → mstep m (StartEnd m)
  | s_stop m h : h ∈ stopping m → mstep m (Stop h m)
  | s_release m h : h ∈ stopped m → mstep m (Release h m)
  | s_work m h o : h ∈ running m → mstep m (work (h_id h) o m)
  | s_scope m p : mstep m (with_scopes (p :: scopes m) (Register p (registry m)) m)
  | s_unscope m l1 p l2 : scopes m = l1 ++ p :: l2 → mstep m (with_scopes (l1 ++ l2) (Forget p (registry m)) m).

Inductive mreach : mgr → Prop :=
  | reach_new : mreach mgr_new
  | reach_step m m' : mreach m → mstep m m' → mreach m'.

(** ** Lemmas: handles and their passwords *)
Definition registered (m : mgr) : list handle := (map_to_list (observers m)).*2.
Definition replaced (m : mgr) : list handle := match installing m with Some (_, prev) => option_list prev | None => [] end.
Definition owned (m : mgr) : list handle := registered m ++ replaced m ++ stopping m.

Lemma vals_insert (m : gmap observerKey handle) k h :
  (map_to_list (<[k := h]> m)).*2 ++ option_list (m !! k) ≡ₚ h :: (map_to_list m).*2.
Proof.
  destruct (m !! k) as [p|] eqn:E; cbn [option_list].
  - rewrite <- (insert_delete_eq m k h), map_to_list_insert by apply lookup_delete_eq.
    rewrite <- (insert_delete_id m k p E) at 2. rewrite map_to_list_insert by apply lookup_delete_eq.
    cbn. by rewrite Permutation_app_comm.
  - rewrite map_to_list_insert by done. cbn. by rewrite app_nil_r.
Qed.

Lemma vals_delete (m : gmap observerKey handle) k h :
  m !! k = Some h → (map_to_list m).*2 ≡ₚ h :: (map_to_list (delete k m)).*2.
Proof. intros E. rewrite <- (insert_delete_id m k h E) at 1. by rewrite map_to_list_insert by apply lookup_delete_eq. Qed.

Lemma drop_absent h l : h_id h ∉ h_id <$> l → drop_handle h l = l.
Proof.
  intros Hn. unfold drop_handle. induction l as [|x l IH]; [done|]. rewrite fmap_cons in Hn.
  apply not_elem_of_cons in Hn as [Hx Hn]. rewrite filter_cons, decide_True by congruence. by rewrite IH.
Qed.

Lemma drop_present h l : NoDup (h_id <$> l) → h ∈ l → l ≡ₚ h :: drop_handle h l.
Proof.
  induction l as [|x l IH]; intros Hd Hin; [by apply not_elem_of_nil in Hin|]. rewrite fmap_cons, NoDup_cons in Hd.
  destruct Hd as [Hn Hd]. apply elem_of_cons in Hin as [->|Hin].
  - unfold drop_handle. rewrite filter_cons, decide_False by (intros H; by apply H). fold (drop_handle x l). by rewrite (drop_absent x l).
  - unfold drop_handle. rewrite filter_cons, decide_True.
    + fold (drop_handle h l). rewrite Permutation_swap. f_equiv. by apply IH.
    + intros E. apply Hn. rewrite E. by apply list_elem_of_fmap_2.
Qed.

Definition uses (t : string) (l : list handle) : nat := count (λ h, bool_decide (h_password h = t)) l.
Definition held (t : string) (l : list string) : nat := count (λ p, bool_decide (p = t)) l.
Definition unregistered (t : string) (m : mgr) : nat :=
  match installing m with Some (o, _) => uses t [o] | None => 0 end.

Arguments uses : simpl never.
Arguments held : simpl never.

Lemma uses_perm t l1 l2 : l1 ≡ₚ l2 → uses t l1 = uses t l2.
Proof. apply count_perm. Qed.

Lemma uses_app t l1 l2 : uses t (l1 ++ l2) = (uses t l1 + uses t l2)%nat.
Proof. apply count_app. Qed.

(** ** The invariant *)
Record minv (m : mgr) : Prop := {
  inv_ids : NoDup (h_id <$> owned m ++ stopped m);
  inv_fresh : ∀ h, h ∈ owned m ++ stopped m → (h_id h < next_id m)%nat;
  inv_running : running m ≡ₚ owned m;
  inv_key : ∀ cr h, observers m !! cr = Some h → h_cr h = cr;
  inv_root : rootCtx m = false → observers m = ∅;
  inv_installing : ∀ o prev, installing m = Some (o, prev) → observers m !! h_cr o = Some o;
  inv_registry : ∀ t, MinTokenLen <= slen t →
    default 0 (registry m !! t) + Z.of_nat (unregistered t m) = Z.of_nat (uses t (owned m ++ stopped m) + held t (scopes m));
  inv_counts : reg_wf (registry m)
}.

Lemma Forget_wf t r : reg_wf r → reg_wf (Forget t r).
Proof.
  intros H u c. rewrite Forget_lookup. case_match; [|apply H]. destruct (r !! u) as [c'|] eqn:E; [|done].
  apply H in E. case_match; [done|]. intros [= <-]. bool_to_prop. lia.
Qed.

Lemma Register_count t u r : MinTokenLen <= slen t →
  default 0 (Register u r !! t) = default 0 (r !! t) + (if bool_decide (u = t) then 1 else 0).
Proof.
  intros H. rewrite Register_lookup. rewrite (proj2 (Z.leb_le _ _) H), andb_true_r. case_bool_decide; cbn; lia.
Qed.

Lemma Forget_count t u r : reg_wf r → MinTokenLen <= slen t → (u = t → 1 <= default 0 (r !! t)) →
  default 0 (Forget u r !! t) = default 0 (r !! t) - (if bool_decide (u = t) then 1 else 0).
Proof.
  intros Hw H H1. rewrite Forget_lookup. rewrite (proj2 (Z.leb_le _ _) H), andb_true_r. case_bool_decide as E; cbn; [|lia].
  specialize (H1 E). destruct (r !! t) as [c|] eqn:Ec; cbn in *; [|lia]. apply Hw in Ec. case_match; bool_to_prop; cbn; lia.
Qed.

Lemma minv_new : minv mgr_new.
Proof.
  split; cbn; try done.
  - constructor.
  - by intros h ?%not_elem_of_nil.
Qed.

(** Steps that neither move a handle nor touch the registry of secrets. *)
Lemma minv_frame m m' :
  observers m' = observers m → installing m' = installing m → stopping m' = stopping m → stopped m' = stopped m →
  running m' = running m → registry m' = registry m → scopes m' = scopes m → next_id m' = next_id m →
  (rootCtx m' = false → observers m = ∅) → minv m → minv m'.
Proof.
  intros E1 E2 E3 E4 E5 E6 E7 E8 Hr H.
  assert (Ho : owned m' = owned m) by (unfold owned, registered, replaced; by rewrite E1, E2, E3).
  assert (Hu : ∀ t, unregistered t m' = unregistered t m) by (intros t; unfold unregistered; by rewrite E2).
  destruct H. split; rewrite ?Ho, ?E1, ?E4, ?E5, ?E6, ?E8; try done.
  - intros o prev. rewrite E2. eauto.
  - intros t Ht. rewrite Hu, E7. eauto.
Qed.

(** Steps that move handles around: the identities are a permutation of the old ones. *)
Lemma minv_move m m' :
  owned m' ++ stopped m' ≡ₚ owned m ++ stopped m → next_id m' = next_id m → running m' ≡ₚ owned m' →
  (∀ cr h, observers m' !! cr = Some h → observers m !! cr = Some h) → (rootCtx m' = false → observers m' = ∅) →
  installing m' = None →
  (∀ t, MinTokenLen <= slen t →
     default 0 (registry m' !! t) = Z.of_nat (uses t (owned m ++ stopped m) + held t (scopes m'))) →
  reg_wf (registry m') → minv m → minv m'.
Proof.
  intros Hp Hn Hr Ho Hroot Hi Hreg Hw []. split; rewrite ?Hp, ?Hn; try done.
  - intros h. rewrite Hp. eauto.
  - eauto.
  - intros o prev. by rewrite Hi.
  - intros t Ht. rewrite (uses_perm _ _ _ Hp). unfold unregistered. rewrite Hi, Hreg by done. lia.
Qed.

Lemma minv_ensure cr master password eps now m :
  installing m = None → minv m → minv (Ensure cr master password eps now m).2.
Proof.
  intros Hi H. unfold Ensure. cbv zeta. repeat (case_match; [done|]). cbn [snd].
  set (o := {| h_id := next_id m; h_cr := cr; h_master := master; h_password := password;
               h_endpoints := sorted_endpoints eps |}).
  assert (Hown : owned m = registered m ++ stopping m) by (unfold owned, replaced; by rewrite Hi).
  match goal with |- minv ?x => set (m' := x) end.
  assert (Hp : owned m' ≡ₚ o :: owned m).
  { rewrite Hown. unfold owned, registered, replaced. cbn. rewrite app_assoc, vals_insert. done. }
  destruct H as [Hids Hfresh Hrun Hkey Hroot Hinst Hreg Hw]. split.
  - rewrite Hp. cbn. apply NoDup_cons. split; [|done]. intros (h & Hh & Hin)%list_elem_of_fmap. apply Hfresh in Hin. lia.
  - intros h. rewrite Hp. cbn. rewrite elem_of_cons. intros [->|Hin]; cbn; [lia|]. apply Hfresh in Hin. lia.
  - rewrite Hp. cbn. by rewrite Hrun.
  - intros k h. cbn. rewrite lookup_insert_Some. intros [[<- <-]|[_ Hk]]; [done|eauto].
  - cbn. intros Hf. rewrite Hf in *. done.
  - intros o' prev'. cbn. intros [= <- <-]. apply lookup_insert_eq.
  - intros t Ht. specialize (Hreg t Ht). unfold unregistered in *. rewrite Hi in Hreg.
    rewrite (uses_perm t (owned m' ++ stopped m') (o :: owned m ++ stopped m)) by (by rewrite Hp).
    change (registry m') with (registry m). change (scopes m') with (scopes m). cbn [installing m'].
    unfold uses in *. cbn [count]. destruct (bool_decide (h_password o = t)); lia.
  - done.
Qed.

Lemma minv_register m o prev : installing m = Some (o, prev) → minv m → minv (EnsureRegister o prev m).
Proof.
  intros Hi H. pose proof H as [Hids Hfresh Hrun Hkey Hroot Hinst Hreg Hw].
  assert (Hp : owned (EnsureRegister o prev m) = owned m) by (unfold owned, registered, replaced; cbn; by rewrite Hi).
  apply (minv_move m); try done; rewrite ?Hp; try done.
  - intros t Ht. cbn. rewrite Register_count by done. specialize (Hreg t Ht). unfold unregistered, uses in Hreg. rewrite Hi in Hreg.
    cbn [count] in Hreg. unfold uses. case_bool_decide; lia.
  - cbn. by apply Register_wf.
Qed.

Lemma minv_remove m cr : installing m = None → minv m → minv (Remove cr m).
Proof.
  intros Hi H. unfold Remove. destruct (observers m !! cr) as [h|] eqn:E; [|done].
  pose proof H as [Hids Hfresh Hrun Hkey Hroot Hinst Hreg Hw].
  match goal with |- minv ?x => set (m' := x) end.
  assert (Hp : owned m' ≡ₚ owned m).
  { unfold owned, registered, replaced. cbn. rewrite Hi. cbn. rewrite (vals_delete _ _ _ E). cbn.
    by rewrite Permutation_middle. }
  apply (minv_move m); try done.
  - by rewrite Hp.
  - by rewrite Hp.
  - cbn. intros k h'. rewrite lookup_delete_Some. by intros [_ ?].
  - cbn. intros Hf. rewrite (Hroot Hf) in E. by rewrite lookup_empty in E.
  - intros t Ht. specialize (Hreg t Ht). unfold unregistered in Hreg. rewrite Hi in Hreg. cbn. lia.
Qed.

Lemma minv_end m : installing m = None → minv m → minv (StartEnd m).
Proof.
  intros Hi H. pose proof H as [Hids Hfresh Hrun Hkey Hroot Hinst Hreg Hw].
  assert (Hp : owned (StartEnd m) = owned m).
  { unfold owned, registered, replaced. cbn. rewrite Hi, map_to_list_empty. done. }
  apply (minv_move m); try done; rewrite ?Hp; try done.
  intros t Ht. specialize (Hreg t Ht). unfold unregistered in Hreg. rewrite Hi in Hreg. cbn. lia.
Qed.

Lemma NoDup_ids_part m l : minv m → (∃ l', owned m ++ stopped m ≡ₚ l ++ l') → NoDup (h_id <$> l).
Proof.
  intros [Hids _ _ _ _ _ _ _] [l' E]. rewrite E, fmap_app in Hids. by apply NoDup_app in Hids as [? _].
Qed.

Lemma minv_stop m h : h ∈ stopping m → minv m → minv (Stop h m).
Proof.
  intros Hin H. pose proof H as [Hids Hfresh Hrun Hkey Hroot Hinst Hreg Hw].
  assert (Hst : stopping m ≡ₚ h :: drop_handle h (stopping m)).
  { apply drop_present; [|done]. eapply NoDup_ids_part; [done|]. exists (registered m ++ replaced m ++ stopped m).
    unfold owned. rewrite <- !app_assoc. rewrite (Permutation_app_comm (registered m)), <- !app_assoc.
    rewrite (Permutation_app_comm (replaced m)), <- !app_assoc. do 1 f_equiv. solve_Permutation. }
  assert (Hru : running m ≡ₚ h :: drop_handle h (running m)).
  { apply drop_present.
    - rewrite Hrun. eapply NoDup_ids_part; [done|]. by exists (stopped m).
    - rewrite Hrun. unfold owned. set_solver. }
  assert (Hp : owned m ≡ₚ h :: owned (Stop h m)).
  { unfold owned. cbn. change (registered (Stop h m)) with (registered m). change (replaced (Stop h m)) with (replaced m).
    rewrite Hst at 1. solve_Permutation. }
  assert (Hq : owned (Stop h m) ++ stopped (Stop h m) ≡ₚ owned m ++ stopped m).
  { rewrite Hp. cbn. by rewrite Permutation_middle. }
  split; rewrite ?Hq; try done.
  - intros x. rewrite Hq. eauto.
  - cbn. apply (Permutation_cons_inv (a := h)). by rewrite <- Hru, <- Hp.
  - intros t Ht. rewrite (uses_perm _ _ _ Hq). apply Hreg; done.
Qed.

Lemma minv_release m h : h ∈ stopped m → minv m → minv (Release h m).
Proof.
  intros Hin H. pose proof H as [Hids Hfresh Hrun Hkey Hroot Hinst Hreg Hw].
  assert (Hst : stopped m ≡ₚ h :: drop_handle h (stopped m)).
  { apply drop_present; [|done]. eapply NoDup_ids_part; [done|]. exists (owned m). by rewrite Permutation_app_comm. }
  assert (Hq : owned m ++ stopped m ≡ₚ h :: owned (Release h m) ++ stopped (Release h m)).
  { change (owned (Release h m)) with (owned m). cbn. rewrite Hst at 1. by rewrite Permutation_middle. }
  split; try done.
  - rewrite Hq in Hids. by apply NoDup_cons in Hids as [_ ?].
  - intros x Hx. apply Hfresh. rewrite Hq. by constructor.
  - intros t Ht. specialize (Hreg t Ht). rewrite (uses_perm _ _ _ Hq) in Hreg. change (unregistered t (Release h m)) with (unregistered t m).
    change (scopes (Release h m)) with (scopes m). cbn [registry Release].
    assert (Hle : (unregistered t m ≤ uses t (owned (Release h m)))%nat).
    { unfold unregistered. destruct (installing m) as [[o prev]|] eqn:Ei; [|lia]. specialize (Hinst o prev eq_refl).
      unfold owned. rewrite !uses_app. unfold registered. cbn [observers Release]. rewrite (uses_perm _ _ _ (vals_delete _ _ _ Hinst)).
      unfold uses. cbn. lia. }
    unfold uses in *. cbn [count] in Hreg. rewrite Forget_count; [|done..|].
    + rewrite count_app in *. case_bool_decide; lia.
    + intros E. rewrite bool_decide_true in Hreg by done. rewrite count_app in *. lia.
  - cbn. by apply Forget_wf.
Qed.

Lemma minv_scope m l r :
  reg_wf r →
  (∀ t, MinTokenLen <= slen t → default 0 (r !! t) - Z.of_nat (held t l) = default 0 (registry m !! t) - Z.of_nat (held t (scopes m))) →
  minv m → minv (with_scopes l r m).
Proof.
  intros Hw Hc []. split; try done. intros t Ht. specialize (Hc t Ht). specialize (inv_registry0 t Ht).
  change (unregistered t (with_scopes l r m)) with (unregistered t m).
  change (owned (with_scopes l r m) ++ stopped (with_scopes l r m)) with (owned m ++ stopped m). cbn [registry scopes with_scopes]. lia.
Qed.

Lemma held_middle t l1 p l2 : held t (l1 ++ p :: l2) = (held t (l1 ++ l2) + (if bool_decide (p = t) then 1 else 0))%nat.
Proof. unfold held. rewrite !count_app. cbn. lia. Qed.

Lemma minv_unscope m l1 p l2 : scopes m = l1 ++ p :: l2 → minv m → minv (with_scopes (l1 ++ l2) (Forget p (registry m)) m).
Proof.
  intros Hs H. pose proof H as []. apply minv_scope; [by apply Forget_wf| |done]. intros t Ht. specialize (inv_registry0 t Ht).
  assert (Hle : (unregistered t m ≤ uses t (owned m ++ stopped m))%nat).
  { unfold unregistered. destruct (installing m) as [[o prev]|] eqn:Ei; [|lia]. specialize (inv_installing0 o prev eq_refl).
    unfold owned. rewrite !uses_app. unfold registered. rewrite (uses_perm _ _ _ (vals_delete _ _ _ inv_installing0)).
    unfold uses. cbn. lia. }
  rewrite Hs, held_middle in *. rewrite Forget_count; [|done..|].
  - case_bool_decide; lia.
  - intros ->. rewrite bool_decide_true in inv_registry0 by done. lia.
Qed.

Lemma mstep_inv m m' : mstep m m' → minv m → minv m'.
Proof.
  destruct 1; intros H'.
  - by apply (minv_frame m).
  - by apply minv_ensure.
  - by eapply minv_register.
  - apply (minv_frame m); try done. apply H'.
  - by apply minv_remove.
  - by apply minv_end.
  - by apply minv_stop.
  - by apply minv_release.
  - apply (minv_frame m); try done. apply H'.
  - apply minv_scope; [apply Register_wf, H'| |done]. intros t Ht. rewrite Register_count by done.
    unfold held. cbn [count]. case_bool_decide; lia.
  - by apply minv_unscope.
Qed.

Lemma mreach_inv m : mreach m → minv m.
Proof. induction 1 as [|m m' _ IH Hs]; [apply minv_new|by eapply mstep_inv]. Qed.

(** ** Properties *)

(** C20: no observer is orphaned, and none runs with a password of at least eight bytes that
    the logs would show.  In every interleaving of Ensure, Remove, shutdown, stops and other
    users of the redactor: an observer whose goroutines run is the one registered for its CR,
    or is being replaced by the Ensure in progress, or is on its way to be stopped; and if its
    password has the minimum length of the redactor (eight bytes; a shorter one is never
    registered), it is registered, except in the moment between the start of the
    observer's goroutines and the registration by the same Ensure. *)
Theorem no_orphan_observer m h :
  mreach m → h ∈ running m →
  (observers m !! h_cr h = Some h ∨ (∃ o, installing m = Some (o, Some h)) ∨ h ∈ stopping m) ∧
  (MinTokenLen <= slen (h_password h) →
     is_Some (registry m !! h_password h) ∨ ∃ prev, installing m = Some (h, prev)).
Proof.
  intros Hr Hin. pose proof (mreach_inv m Hr) as [Hids Hfresh Hrun Hkey Hroot Hinst Hreg Hw].
  rewrite Hrun in Hin. split.
  - unfold owned in Hin. rewrite !elem_of_app in Hin. destruct Hin as [Hin|[Hin|Hin]].
    + left. apply list_elem_of_fmap in Hin as ([k x] & -> & Hk). apply elem_of_map_to_list in Hk. cbn. by rewrite (Hkey _ _ Hk).
    + right; left. unfold replaced in Hin. destruct (installing m) as [[o [p|]]|]; [|by apply not_elem_of_nil in Hin..].
      apply list_elem_of_singleton in Hin as ->. by exists o.
    + by do 2 right.
  - intros Ht. specialize (Hreg _ Ht).
    assert (H : (uses (h_password h) [h] + match installing m with Some (o, _) => if decide (h = o) then 0 else uses (h_password h) [o]
                  | None => 0 end ≤ uses (h_password h) (owned m ++ stopped m))%nat).
    { rewrite uses_app. destruct (elem_of_Permutation (owned m) h) as [[k Hk] _]; [done|]. rewrite (uses_perm _ _ _ Hk).
      change (h :: k) with ([h] ++ k). rewrite uses_app. destruct (installing m) as [[o prev]|] eqn:Ei; [|lia].
      case_decide as E; [lia|]. assert (Ho : o ∈ k).
      { assert (Ho : o ∈ owned m); [|rewrite Hk in Ho; set_solver]. unfold owned, registered. apply elem_of_app. left.
        apply list_elem_of_fmap. exists (h_cr o, o). split; [done|]. apply elem_of_map_to_list. eauto. }
      destruct (elem_of_Permutation k o) as [[k' Hk'] _]; [done|]. rewrite (uses_perm _ _ _ Hk').
      change (o :: k') with ([o] ++ k'). rewrite uses_app. lia. }
    assert (Hone : uses (h_password h) [h] = 1%nat) by (unfold uses; cbn; by rewrite bool_decide_true).
    unfold unregistered in Hreg. destruct (installing m) as [[o prev]|].
    + case_decide as E; [subst o; right; by exists prev|]. left. destruct (registry m !! h_password h); [by eexists|]. cbn in Hreg. lia.
    + left. destruct (registry m !! h_password h); [by eexists|]. cbn in Hreg. lia.
Qed.

(** ** Shutdown *)
Inductive drain : mgr → mgr → Prop :=
  | d_stop m h : h ∈ stopping m → drain m (Stop h m)
  | d_release m h : h ∈ stopped m → drain m (Release h m).
Definition drain_left (m : mgr) : nat := 2 * length (stopping m) + length (stopped m).

Lemma drop_length h l : NoDup (h_id <$> l) → h ∈ l → length l = S (length (drop_handle h l)).
Proof. intros Hd Hin. by rewrite (drop_present h l Hd Hin) at 1. Qed.

(** Each stop and each release is progress. *)
Lemma drain_decreases m m' : minv m → drain m m' → drain_left m = S (drain_left m') ∧ minv m' ∧
  rootCtx m' = rootCtx m ∧ observers m' = observers m ∧ installing m' = installing m ∧ scopes m' = scopes m.
Proof.
  intros Hi Hd. assert (minv m') by (destruct Hd; [by apply minv_stop|by apply minv_release]).
  assert (Hn : NoDup (h_id <$> stopping m) ∧ NoDup (h_id <$> stopped m)).
  { destruct Hi as [Hids _ _ _ _ _ _ _]. unfold owned in Hids. rewrite !fmap_app in Hids.
    apply NoDup_app in Hids as (Ho & _ & Hs). apply NoDup_app in Ho as (_ & _ & Ho). apply NoDup_app in Ho as (_ & _ & Ho). done. }
  destruct Hn as [Hn1 Hn2]. split_and!; try done; destruct Hd as [m h Hin|m h Hin]; try done; unfold drain_left; cbn.
  - rewrite (drop_length h (stopping m)) by done. lia.
  - rewrite (drop_length h (stopped m)) by done. lia.
Qed.

Lemma drain_completes n m : minv m → drain_left m = n →
  ∃ m', nsteps drain n m m' ∧ stopping m' = [] ∧ stopped m' = [] ∧ minv m' ∧
    rootCtx m' = rootCtx m ∧ observers m' = observers m ∧ installing m' = installing m ∧ scopes m' = scopes m.
Proof.
  revert m. induction n as [|n IH]; intros m Hi Hn.
  - unfold drain_left in Hn. exists m. destruct (stopping m), (stopped m); cbn in *; try lia. split_and!; try done. constructor.
  - assert (∃ m1, drain m m1) as [m1 Hd].
    { unfold drain_left in Hn. destruct (stopping m) as [|h l] eqn:E; [destruct (stopped m) as [|h l] eqn:E'|]; cbn in Hn; [lia|..].
      - exists (Release h m). apply d_release. rewrite E'. constructor.
      - exists (Stop h m). apply d_stop. rewrite E. constructor. }
    destruct (drain_decreases m m1 Hi Hd) as (Hl & Hi1 & H1 & H2 & H3 & H4). destruct (IH m1) as (m' & Hr & ? & ? & ? & ? & ? & ? & ?); [done|lia|].
    exists m'. split_and!; try congruence. by econstructor.
Qed.

(** A shutdown leaves nothing behind.  From any reachable state, once [Start]'s context
    is cancelled, the pending stops and releases complete, in exactly as many steps as
    there are (whatever their order, each is progress); then no goroutine runs, no
    observer is registered, Ensure is refused, and the redactor holds exactly the secrets
    of the other scopes. *)
Theorem shutdown_drains m :
  mreach m → installing m = None →
  (∀ m1 m2, mreach m1 → drain m1 m2 → drain_left m1 = S (drain_left m2)) ∧
  ∃ m', nsteps drain (drain_left (StartEnd m)) (StartEnd m) m' ∧ running m' = [] ∧ observers m' = ∅ ∧
    (∀ t, MinTokenLen <= slen t → default 0 (registry m' !! t) = Z.of_nat (held t (scopes m))) ∧
    (∀ cr master password eps now, master ≠ "" → eps ≠ [] → Ensure cr master password eps now m' = (Some ErrManagerNotStarted, m')).
Proof.
  intros Hr Hi. pose proof (mreach_inv m Hr) as Hinv. split.
  { intros m1 m2 H1 H2. by apply drain_decreases; [apply mreach_inv|]. }
  destruct (drain_completes _ (StartEnd m) (minv_end m Hi Hinv) eq_refl) as (m' & Hn & Hs & Hs' & Hi' & Hroot & Hobs & Hinst & Hsc).
  cbn in Hroot, Hobs, Hinst, Hsc. rewrite Hi in Hinst. exists m'. split; [done|]. destruct Hi'.
  assert (Hown : owned m' = []).
  { unfold owned, registered, replaced. by rewrite Hobs, Hinst, Hs, map_to_list_empty. }
  split_and!; [|done|..].
  - rewrite Hown in inv_running0. by apply Permutation_nil_r in inv_running0.
  - intros t Ht. specialize (inv_registry0 t Ht). unfold unregistered in inv_registry0.
    rewrite Hinst, Hown, Hs', Hsc in inv_registry0. unfold uses in inv_registry0. cbn in inv_registry0. lia.
  - intros cr master password eps now Hm He. unfold Ensure. rewrite !bool_decide_false by done. by rewrite Hroot.
Qed.

(** ** Ensure again *)
Lemma sorted_unique l1 l2 : NoDup (Name <$> l1) → l1 ≡ₚ l2 → sorted_endpoints l1 = sorted_endpoints l2.
Proof.
  intros Hd Hp. unfold sorted_endpoints.
  apply (StronglySorted_unique_strong (λ a b, String.le (Name a) (Name b))).
  - intros x y Hx Hy H1 H2. assert (Name x = Name y) as E by (by apply (anti_symm String.le)).
    rewrite sort_by_perm in Hx, Hy. rewrite <- Hp in Hy.
    apply list_elem_of_lookup_1 in Hx as [i Hx]. apply list_elem_of_lookup_1 in Hy as [j Hy].
    assert (i = j) as ->; [|congruence].
    eapply (NoDup_lookup (Name <$> l1)); [done|rewrite list_lookup_fmap, Hx; done|rewrite list_lookup_fmap, Hy; cbn; by rewrite E].
  - apply sort_by_sorted; [intros x y z ??; by etrans|..]; intros x y H; [by apply ltb_le in H as [? _]|by apply ltb_false].
  - apply sort_by_sorted; [intros x y z ??; by etrans|..]; intros x y H; [by apply ltb_le in H as [? _]|by apply ltb_false].
  - by rewrite !sort_by_perm.
Qed.

(** An Ensure repeated, with the endpoints in any order, keeps the live observer. *)
Theorem ensure_idempotent cr master password eps eps' now now' m m' :
  Ensure cr master password eps now m = (None, m') → NoDup (Name <$> eps) → eps ≡ₚ eps' →
  Ensure cr master password eps' now' m' = (None, m').
Proof.
  intros H Hd Hp. assert (He : sorted_endpoints eps' = sorted_endpoints eps) by (symmetry; by apply sorted_unique).
  unfold Ensure in *. cbv zeta in *. rewrite He. destruct (bool_decide (master = "")); [done|].
  destruct (bool_decide (eps = [])) eqn:E0; [done|].
  rewrite bool_decide_false by (intros ->; apply Permutation_nil_r in Hp as ->; done).
  destruct (rootCtx m) eqn:Er; cbn [negb] in *; [|done].
  destruct (observers m !! cr) as [p|] eqn:Ep; [destruct (observerConfigEqual p _ _ _) eqn:Ec|]; injection H as <-; cbn;
    rewrite ?Er, ?Ep, ?Ec, ?lookup_insert_eq; cbn; try done.
  all: unfold observerConfigEqual; cbn; by rewrite !bool_decide_true.
Qed.

(** ** Concrete runs *)
Definition demo_eps : list Endpoint := [{| Name := "s-0"; ep_Addr := "10.1.0.1:26379" |}; {| Name := "s-1"; ep_Addr := "10.1.0.2:26379" |}].
Definition demo_key : observerKey := ("ns", "vk").
Definition demo_installed : mgr := (Ensure demo_key "mymaster" "s3cret-pw" demo_eps 5 (StartBegin mgr_new)).2.
Definition demo_handle : handle :=
  {| h_id := 0; h_cr := demo_key; h_master := "mymaster"; h_password := "s3cret-pw"; h_endpoints := demo_eps |}.
Definition demo_live : mgr := EnsureRegister demo_handle None demo_installed.

Lemma demo_live_reach : mreach demo_live.
Proof.
  apply (reach_step demo_installed); [|by apply s_register].
  apply (reach_step (StartBegin mgr_new)); [|by apply s_ensure]. apply (reach_step mgr_new); [constructor|by apply s_start].
Qed.

Lemma no_orphan_observer_witness :
  (observers demo_live !! demo_key = Some demo_handle ∨ (∃ o, installing demo_live = Some (o, Some demo_handle)) ∨
   demo_handle ∈ stopping demo_live) ∧
  (MinTokenLen <= slen "s3cret-pw" →
     is_Some (registry demo_live !! "s3cret-pw") ∨ ∃ prev, installing demo_live = Some (demo_handle, prev)).
Proof. apply (no_orphan_observer demo_live demo_handle demo_live_reach). constructor. Defined.

Lemma shutdown_drains_witness :
  ∃ m', nsteps drain (drain_left (StartEnd demo_live)) (StartEnd demo_live) m' ∧ running m' = [].
Proof. destruct (shutdown_drains demo_live demo_live_reach eq_refl) as (_ & m' & Hn & Hr & _). by exists m'. Defined.

Lemma ensure_idempotent_witness :
  Ensure demo_key "mymaster" "s3cret-pw" (reverse demo_eps) 9 demo_installed = (None, demo_installed).
Proof.
  apply (ensure_idempotent demo_key "mymaster" "s3cret-pw" demo_eps (reverse demo_eps) 5 9 (StartBegin mgr_new) demo_installed).
  - reflexivity.
  - by apply (bool_decide_unpack _); vm_compute.
  - symmetry. apply reverse_Permutation.
Defined.
