(* ===== verification/SubscribeLoop.v ===== *)
(** * The goroutines of an observer: [runSubscribe], [subscribeOnce], [runPoll] of
    [internal/sentinel/observer.go]

    One attempt to subscribe dials, authenticates, subscribes to seven patterns, and then
    serves frames until the connection fails.  An attempt is given by the outcome of each
    of these exchanges; the frames go to [Observer.dispatch].  The loop around it paces
    the attempts. *)
From S2P Require Import Prelude GoStd GoFmt Resp SentinelParse Observer.
Local Open Scope Z_scope.

Definition DefaultPollInterval : Duration := 10 * Second.
Definition DefaultPubsubReadDeadline : Duration := 30 * Second.
Definition DefaultPingTimeout : Duration := 5 * Second.
Definition DefaultAuthRetryAttempts : Z := 3.
Definition reconnectBackoffMin : Duration := 2 * Second.
Definition reconnectBackoffMax : Duration := 60 * Second.

Record Options := {
  op_PollInterval : Duration; op_PubsubReadDeadline : Duration; op_PingTimeout : Duration; op_AuthRetryAttempts : Z }.
Definition withDefaults (o : Options) : Options :=
  let pick x d := if x <=? 0 then d else x in
  {| op_PollInterval := pick (op_PollInterval o) DefaultPollInterval;
     op_PubsubReadDeadline := pick (op_PubsubReadDeadline o) DefaultPubsubReadDeadline;
     op_PingTimeout := pick (op_PingTimeout o) DefaultPingTimeout;
     op_AuthRetryAttempts := pick (op_AuthRetryAttempts o) DefaultAuthRetryAttempts |}.

(** ** Serving a connection *)

(** One turn of the read loop: a frame, a deadline that expired (with what the PING then
    read), a failed read, or a cancelled context; the two clock readings are [dispatch]'s. *)
Inductive read_outcome : Type :=
  | ReadMsg (m : pubsubMessage)
  | ReadTimeout (ping : result pubsubMessage)
  | ReadErr (e : string)
  | ReadCancelled.
Definition turn : Type := Time * Time * read_outcome.

(** How an attempt ended; [Serving] when the script is used up. *)
Inductive attempt_end : Type := Cancelled | Failed (e : string) | Serving.

Definition deliver (tm t : Time) (ep : Endpoint) (m : pubsubMessage) (o : observer) : observer :=
  if bool_decide (Channel m = "") then o else dispatch tm t ep m o.

Fixpoint serve (ep : Endpoint) (turns : list turn) (o : observer) : attempt_end * observer :=
  match turns with
  | [] => (Serving, o)
  | (tm, t, r) :: turns =>
      match r with
      | ReadCancelled => (Cancelled, o)
      | ReadErr e => (Failed ("read pubsub: " +:+ e), o)
      | ReadTimeout (Err e) => (Failed ("idle ping failed: " +:+ e), o)
      | ReadTimeout (Ok m) | ReadMsg m => serve ep turns (deliver tm t ep m o)
      end
  end.

Record attempt := {
  at_dial : option string;
  at_auth : option string;
  at_write : option string;
  at_acks : list (option string);      (* the outcomes of the seven reads *)
  at_turns : list turn
}.

Definition failed_ack (acks : list (option string)) : option string :=
  head (omap (λ '(i, a), match a with Some e => Some ("read psubscribe ack " +:+ Itoa (Z.of_nat i) +:+ ": " +:+ e) | None => None end)
          (zip (seq 0 7) acks)).

(** The error that ends an attempt before the subscription is up. *)
Definition setup_error (a : attempt) : option string :=
  match at_dial a with
  | Some e => Some ("dial: " +:+ e)
  | None =>
      match at_auth a with
      | Some e => Some e
      | None =>
          match at_write a with
          | Some e => Some ("write PSUBSCRIBE: " +:+ e)
          | None => failed_ack (at_acks a)
          end
      end
  end.

Inductive sub_event : Type :=
  | SentinelObserverReconnect (pod : string)
  | SentinelPubsubMessageLost (pod err : string) (backoff : Duration).

Section subscribe.
Context (recorder : bool) (ep : Endpoint).

(** The end, the observer, [first], [backoff] and the events. *)
Definition subscribeOnce (a : attempt) (first : bool) (backoff : Duration) (o : observer) :
    attempt_end * observer * bool * Duration * list sub_event :=
  match setup_error a with
  | Some e => (Failed e, o, first, backoff, [])
  | None =>
      let evs := if negb first && recorder then [SentinelObserverReconnect (Name ep)] else [] in
      let '(r, o) := serve ep (at_turns a) o in
      (r, o, false, reconnectBackoffMin, evs)
  end.

Record loop_state := {
  l_obs : observer;
  l_first : bool;
  l_backoff : Duration;
  l_waits : list Duration;             (* slept between attempts *)
  l_events : list sub_event
}.
Definition loop_start (o : observer) : loop_state :=
  {| l_obs := o; l_first := true; l_backoff := reconnectBackoffMin; l_waits := []; l_events := [] |}.

Definition next_backoff (b : Duration) : Duration :=
  if reconnectBackoffMax <? b * 2 then reconnectBackoffMax else b * 2.

(** One turn of [runSubscribe]; [None] when the goroutine returns or is still serving. *)
Definition subscribe_turn (a : attempt) (s : loop_state) : option loop_state * loop_state :=
  let '(r, o, first, backoff, evs) := subscribeOnce a (l_first s) (l_backoff s) (l_obs s) in
  match r with
  | Cancelled | Serving =>
      (None, {| l_obs := o; l_first := first; l_backoff := backoff; l_waits := l_waits s; l_events := l_events s ++ evs |})
  | Failed e =>
      let evs := evs ++ (if recorder then [SentinelPubsubMessageLost (Name ep) e backoff] else []) in
      let s := {| l_obs := o; l_first := first; l_backoff := next_backoff backoff; l_waits := l_waits s ++ [backoff];
                  l_events := l_events s ++ evs |} in
      (Some s, s)
  end.

Fixpoint runSubscribe (attempts : list attempt) (s : loop_state) : loop_state :=
  match attempts with
  | [] => s
  | a :: attempts =>
      match subscribe_turn a s with
      | (None, s) => s
      | (Some s, _) => runSubscribe attempts s
      end
  end.
End subscribe.

(** ** The pull tick *)
Record poll_in := { pi_wires : list queryWire; pi_now : Time; pi_tl : Time; pi_tp : Time; pi_cancelled : bool }.

Fixpoint poll_ticks {R : MapRange} (ticks : list poll_in) (o : observer) : observer :=
  match ticks with
  | [] => o
  | p :: ticks =>
      let o := pollOnce (pi_wires p) (pi_now p) (pi_tl p) (pi_tp p) o in
      if pi_cancelled p then o else poll_ticks ticks o
  end.
(** The first poll follows the initial wait; a tick whose poll was cancelled is the last.
    The first poll itself is not followed by that check. *)
Definition runPoll {R : MapRange} (cancelled : bool) (first : poll_in) (ticks : list poll_in) (o : observer) : observer :=
  if cancelled then o
  else poll_ticks ticks (pollOnce (pi_wires first) (pi_now first) (pi_tl first) (pi_tp first) o).

(** ** Lemmas *)
Definition established (a : attempt) : bool := bool_decide (setup_error a = None).

(** How a turn ends the connection, if it does. *)
Definition turn_end (r : read_outcome) : option attempt_end :=
  match r with
  | ReadCancelled => Some Cancelled
  | ReadErr e => Some (Failed ("read pubsub: " +:+ e))
  | ReadTimeout (Err e) => Some (Failed ("idle ping failed: " +:+ e))
  | ReadTimeout (Ok _) | ReadMsg _ => None
  end.
Definition serve_end (turns : list turn) : attempt_end := default Serving (head (omap (λ x : turn, turn_end x.2) turns)).

(** The frames read before the connection ended, from reads and from pings alike. *)
Fixpoint frames (turns : list turn) : list (Time * Time * pubsubMessage) :=
  match turns with
  | [] => []
  | (tm, t, r) :: turns =>
      match r with
      | ReadMsg m | ReadTimeout (Ok m) => (tm, t, m) :: frames turns
      | _ => []
      end
  end.

Definition deliver_all (ep : Endpoint) (l : list (Time * Time * pubsubMessage)) (o : observer) : observer :=
  foldl (λ o x, deliver x.1.1 x.1.2 ep x.2 o) o l.

Lemma serve_spec ep turns o : serve ep turns o = (serve_end turns, deliver_all ep (frames turns) o).
Proof.
  revert o. induction turns as [|[[tm t] r] turns IH]; intros o; [done|]. cbn. destruct r as [m|[m|e]|e|]; cbn; rewrite ?IH; done.
Qed.

(** What the attempt reads into the observer, and how it ends. *)
Definition attempt_frames (a : attempt) : list (Time * Time * pubsubMessage) := if established a then frames (at_turns a) else [].
Definition drops (a : attempt) : Prop :=
  match setup_error a with Some _ => True | None => ∃ e, serve_end (at_turns a) = Failed e end.

Section loop.
Context (recorder : bool) (ep : Endpoint).

(** Attempts since the subscription was last up, that one included. *)
Definition drought (l : list attempt) : nat := foldl (λ n a, if established a then 1%nat else S n) 0%nat l.

Definition wait_after (before : list attempt) (a : attempt) : Duration :=
  if established a then reconnectBackoffMin
  else Z.min reconnectBackoffMax (reconnectBackoffMin * 2 ^ Z.of_nat (drought before)).

Lemma next_backoff_pow n :
  next_backoff (Z.min reconnectBackoffMax (reconnectBackoffMin * 2 ^ Z.of_nat n)) =
  Z.min reconnectBackoffMax (reconnectBackoffMin * 2 ^ Z.of_nat (S n)).
Proof.
  rewrite Nat2Z.inj_succ, Z.pow_succ_r by lia. unfold next_backoff.
  destruct (Z.ltb_spec reconnectBackoffMax (Z.min reconnectBackoffMax (reconnectBackoffMin * 2 ^ Z.of_nat n) * 2)) as [H|H];
    revert H; unfold reconnectBackoffMin, reconnectBackoffMax, Second; lia.
Qed.

Lemma turn_drops a s before :
  drops a → l_backoff s = Z.min reconnectBackoffMax (reconnectBackoffMin * 2 ^ Z.of_nat (drought before)) →
  ∃ e, let s' := {| l_obs := deliver_all ep (attempt_frames a) (l_obs s);
               l_first := l_first s && negb (established a);
               l_backoff := Z.min reconnectBackoffMax (reconnectBackoffMin * 2 ^ Z.of_nat (drought (before ++ [a])));
               l_waits := l_waits s ++ [wait_after before a];
               l_events := l_events s ++
                 (if recorder && established a && negb (l_first s) then [SentinelObserverReconnect (Name ep)] else []) ++
                 (if recorder then [SentinelPubsubMessageLost (Name ep) e (wait_after before a)] else []) |} in
  subscribe_turn recorder ep a s = (Some s', s').
Proof.
  intros Hd Hb. unfold subscribe_turn, subscribeOnce, drops, attempt_frames, wait_after, established in *. unfold drought.
  rewrite foldl_app. cbn [foldl]. unfold established. destruct (setup_error a) as [e|] eqn:Es.
  - exists e. cbn. rewrite Hb, next_backoff_pow, !andb_true_r, !andb_false_r. done.
  - destruct Hd as [e He]. exists e. rewrite serve_spec, He. rewrite !bool_decide_true by done. cbn [negb].
    rewrite andb_true_r, andb_false_r, (andb_comm (negb (l_first s))). done.
Qed.

Lemma run_drops before l s :
  Forall drops l → l_backoff s = Z.min reconnectBackoffMax (reconnectBackoffMin * 2 ^ Z.of_nat (drought before)) →
  let s' := runSubscribe recorder ep l s in
  (∀ k a, l !! k = Some a → l_waits s' !! (length (l_waits s) + k)%nat = Some (wait_after (before ++ take k l) a)) ∧
  length (l_waits s') = (length (l_waits s) + length l)%nat ∧
  (∀ k, (k < length (l_waits s))%nat → l_waits s' !! k = l_waits s !! k) ∧
  l_obs s' = deliver_all ep (l ≫= attempt_frames) (l_obs s).
Proof.
  revert before s. induction l as [|a l IH]; intros before s Hf Hb; cbv zeta.
  { split_and!; try done; cbn; lia. }
  apply Forall_cons in Hf as [Ha Hf]. destruct (turn_drops a s before Ha Hb) as [e He]. cbv zeta in He. cbn [runSubscribe].
  rewrite He. clear He. match goal with |- context [runSubscribe _ _ l ?x] => set (s1 := x) end.
  destruct (IH (before ++ [a]) s1 Hf eq_refl) as (H1 & H2 & H3 & H4). cbv zeta in *.
  assert (Hl : length (l_waits s1) = S (length (l_waits s))) by (cbn; rewrite length_app; cbn; lia).
  split_and!.
  - intros [|k] b Hk; cbn in Hk.
    + simplify_eq. rewrite Nat.add_0_r, H3 by lia. cbn. rewrite app_nil_r, lookup_app_r, Nat.sub_diag by lia. done.
    + specialize (H1 k b Hk). rewrite Hl in H1. cbn [take]. rewrite <- app_assoc in H1. cbn in H1.
      by replace (length (l_waits s) + S k)%nat with (S (length (l_waits s)) + k)%nat by lia.
  - rewrite H2, Hl. cbn. lia.
  - intros k Hk. rewrite H3 by lia. cbn. by rewrite lookup_app_l.
  - rewrite H4. cbn. unfold deliver_all. by rewrite foldl_app.
Qed.
End loop.

(** ** Properties *)

(** Reconnection is paced and resets, and no frame is lost.  When every attempt ends in a
    failure, the loop sleeps once after each: two seconds if that attempt had got the
    subscription up, and otherwise doubling from there with every attempt since it was
    last up, to at most a minute.  The observer has then been given every frame that any
    attempt read, in order, including those that a PING after an idle period read. *)
Theorem reconnect_backoff recorder ep l o :
  Forall drops l →
  let s := runSubscribe recorder ep l (loop_start o) in
  length (l_waits s) = length l ∧
  (∀ k a, l !! k = Some a →
     l_waits s !! k = Some (wait_after (take k l) a) ∧ reconnectBackoffMin <= wait_after (take k l) a <= reconnectBackoffMax) ∧
  l_obs s = deliver_all ep (l ≫= attempt_frames) o.
Proof.
  intros Hf. destruct (run_drops recorder ep [] l (loop_start o) Hf) as (H1 & H2 & _ & H4); [by vm_compute|].
  cbv zeta in *. cbn in H1, H2. split_and!; [done| |done]. intros k a Hk. split; [by apply H1|].
  unfold wait_after. case_match; [split; by vm_compute|].
  assert (1 <= 2 ^ Z.of_nat (drought (take k l))) by (pose proof (Z.pow_pos_nonneg 2 (Z.of_nat (drought (take k l)))); lia).
  unfold reconnectBackoffMin, reconnectBackoffMax, Second. lia.
Qed.

Definition demo_drop (e : string) : attempt := {| at_dial := Some e; at_auth := None; at_write := None; at_acks := []; at_turns := [] |}.
Definition demo_up : attempt :=
  {| at_dial := None; at_auth := None; at_write := None; at_acks := replicate 7 None;
     at_turns := [(5, 5, ReadTimeout (Ok {| Channel := "+switch-master"; Payload := "mymaster 10.0.0.1 6379 10.0.0.2 6379" |})); (6, 6, ReadErr "EOF")] |}.

Lemma reconnect_backoff_witness :
  let l := [demo_drop "refused"; demo_drop "refused"; demo_drop "refused"; demo_up; demo_drop "refused"] in
  let s := runSubscribe true {| Name := "s-0"; ep_Addr := "10.1.0.1:26379" |} l (loop_start (newObserver "mymaster" [])) in
  l_waits s !! 2%nat = Some (8 * Second) ∧ l_waits s !! 4%nat = Some (4 * Second).
Proof.
  destruct (reconnect_backoff true {| Name := "s-0"; ep_Addr := "10.1.0.1:26379" |}
    [demo_drop "refused"; demo_drop "refused"; demo_drop "refused"; demo_up; demo_drop "refused"] (newObserver "mymaster" []))
    as (_ & H & _).
  - repeat constructor. by eexists.
  - split; [exact (proj1 (H 2%nat _ eq_refl))|exact (proj1 (H 4%nat _ eq_refl))].
Defined.
