(* ===== verification/QuorumGate.v ===== *)
(** * The per-CR quorum tracker: [crQuorumState] of [internal/controller/valkey_controller.go]

    One mutex guards the trackers the reconcile loop folds the observer's snapshot
    into: the suppression gate (no SENTINEL commands during sustained quorum loss),
    the split-brain duration, the pacing of sentinel surgery per address, the probe
    of the labelled primary and the debounce of topology deficits.  Each method is
    one atomic step on the record; the fields of one tracker are one sub-record.
    A gauge in seconds is kept as the [Duration] it is computed from. *)
From S2P Require Import Prelude GoStd GoFmt Fsm Observer DeriveState PrimaryRollout OrphanMaster.
Local Open Scope Z_scope.

(** ** State *)
Record suppression := {
  lastQuorum : QuorumStatus;
  quorumLostSince : option Time;
  quorumLostSincePoll : Time;
  quorumOKConsecutivePolls : Z;
  quorumOKLastCountedPoll : Time;
  suppressionActive : bool
}.
Definition suppression_zero : suppression :=
  {| lastQuorum := QuorumStatusUnknown; quorumLostSince := None; quorumLostSincePoll := zero_time;
     quorumOKConsecutivePolls := 0; quorumOKLastCountedPoll := zero_time; suppressionActive := false |}.

Record splitBrain := {
  splitBrainSince : option Time;
  splitBrainPollAt : Time;
  splitBrainConfirmedAt : Time;
  splitBrainExpiredPollAt : Time
}.
Definition splitBrain_zero : splitBrain :=
  {| splitBrainSince := None; splitBrainPollAt := zero_time; splitBrainConfirmedAt := zero_time;
     splitBrainExpiredPollAt := zero_time |}.

Record strandedAddrState := { noProgress : Z; lastWiped : Time }.
Definition strandedAddr_zero : strandedAddrState := {| noProgress := 0; lastWiped := zero_time |}.

Record strandedTracker := {
  strandedRecoveryLastFired : Time;
  strandedNoProgress : gmap string strandedAddrState;
  strandedLinkupStuck : bool;
  strandedLinkupStuckAt : Time;
  strandedLinkupStuckEdge : string
}.
Definition stranded_zero : strandedTracker :=
  {| strandedRecoveryLastFired := zero_time; strandedNoProgress := ∅; strandedLinkupStuck := false;
     strandedLinkupStuckAt := zero_time; strandedLinkupStuckEdge := "" |}.

Record topologyDimState := {
  since : option Time;
  active : bool;
  dim_edge : bool;
  deficit : Z
}.
Definition topologyDim_zero : topologyDimState :=
  {| since := None; active := false; dim_edge := false; deficit := 0 |}.

Record topologyTracker := {
  topologySentinel : topologyDimState;
  topologyReplica : topologyDimState;
  topologyMismatchObservedAt : Time
}.
Definition topology_zero : topologyTracker :=
  {| topologySentinel := topologyDim_zero; topologyReplica := topologyDim_zero;
     topologyMismatchObservedAt := zero_time |}.

Record masterInfo := {
  masterInfoTimeoutSince : option Time;
  masterInfoObservedAt : Time;
  masterInfoRoleDisclaimed : bool
}.
Definition masterInfo_zero : masterInfo :=
  {| masterInfoTimeoutSince := None; masterInfoObservedAt := zero_time; masterInfoRoleDisclaimed := false |}.

Record crQuorumState := {
  q_gate : suppression;
  q_split : splitBrain;
  lastOKAddr : string;
  q_stranded : strandedTracker;
  recoveryPromotionLastFired : Time;
  recoveryDetectionLastProbed : Time;
  q_master : masterInfo;
  q_topology : topologyTracker
}.
Definition quorum_zero : crQuorumState :=
  {| q_gate := suppression_zero; q_split := splitBrain_zero; lastOKAddr := ""; q_stranded := stranded_zero;
     recoveryPromotionLastFired := zero_time; recoveryDetectionLastProbed := zero_time;
     q_master := masterInfo_zero; q_topology := topology_zero |}.

Definition put_gate (g : suppression) (s : crQuorumState) : crQuorumState :=
  {| q_gate := g; q_split := q_split s; lastOKAddr := lastOKAddr s; q_stranded := q_stranded s;
     recoveryPromotionLastFired := recoveryPromotionLastFired s;
     recoveryDetectionLastProbed := recoveryDetectionLastProbed s;
     q_master := q_master s; q_topology := q_topology s |}.
Definition put_split (b : splitBrain) (ok : string) (s : crQuorumState) : crQuorumState :=
  {| q_gate := q_gate s; q_split := b; lastOKAddr := ok; q_stranded := q_stranded s;
     recoveryPromotionLastFired := recoveryPromotionLastFired s;
     recoveryDetectionLastProbed := recoveryDetectionLastProbed s;
     q_master := q_master s; q_topology := q_topology s |}.
Definition put_stranded (t : strandedTracker) (s : crQuorumState) : crQuorumState :=
  {| q_gate := q_gate s; q_split := q_split s; lastOKAddr := lastOKAddr s; q_stranded := t;
     recoveryPromotionLastFired := recoveryPromotionLastFired s;
     recoveryDetectionLastProbed := recoveryDetectionLastProbed s;
     q_master := q_master s; q_topology := q_topology s |}.
Definition put_recovery (fired probed : Time) (s : crQuorumState) : crQuorumState :=
  {| q_gate := q_gate s; q_split := q_split s; lastOKAddr := lastOKAddr s; q_stranded := q_stranded s;
     recoveryPromotionLastFired := fired; recoveryDetectionLastProbed := probed;
     q_master := q_master s; q_topology := q_topology s |}.
Definition put_master (m : masterInfo) (s : crQuorumState) : crQuorumState :=
  {| q_gate := q_gate s; q_split := q_split s; lastOKAddr := lastOKAddr s; q_stranded := q_stranded s;
     recoveryPromotionLastFired := recoveryPromotionLastFired s;
     recoveryDetectionLastProbed := recoveryDetectionLastProbed s;
     q_master := m; q_topology := q_topology s |}.
Definition put_topology (t : topologyTracker) (s : crQuorumState) : crQuorumState :=
  {| q_gate := q_gate s; q_split := q_split s; lastOKAddr := lastOKAddr s; q_stranded := q_stranded s;
     recoveryPromotionLastFired := recoveryPromotionLastFired s;
     recoveryDetectionLastProbed := recoveryDetectionLastProbed s;
     q_master := q_master s; q_topology := t |}.

(** ** The suppression gate *)
Definition quorumLossSuppressionThreshold : Duration := 60 * Second.
Definition quorumRecoveryHysteresisPolls : Z := 2.
Definition quorumSuppressedRequeue : Duration := DefaultPollInterval.
Definition phase11DefaultTimeout : Duration := 30 * Second.

Record QuorumSuppressionTunables := {
  LossThreshold : Duration;
  RecoveryPolls : Z;
  Phase11Timeout : Duration
}.
Definition lossThreshold (t : QuorumSuppressionTunables) : Duration :=
  if 0 <? LossThreshold t then LossThreshold t else quorumLossSuppressionThreshold.
Definition recoveryPolls (t : QuorumSuppressionTunables) : Z :=
  if 0 <? RecoveryPolls t then RecoveryPolls t else quorumRecoveryHysteresisPolls.
Definition phase11Timeout (t : QuorumSuppressionTunables) : Duration :=
  if 0 <? Phase11Timeout t then Phase11Timeout t else phase11DefaultTimeout.

(** The first result is [justEnteredSuppression], the second [justExitedSuppression]. *)
Definition updateQuorumSuppression (tunables : QuorumSuppressionTunables) (q : QuorumStatus)
    (polledAt now : Time) (g : suppression) : bool * bool * suppression :=
  let mk lost lostPoll n counted act :=
    {| lastQuorum := q; quorumLostSince := lost; quorumLostSincePoll := lostPoll;
       quorumOKConsecutivePolls := n; quorumOKLastCountedPoll := counted; suppressionActive := act |} in
  match q with
  | QuorumStatusUnknown =>
      (false, false, mk (quorumLostSince g) (quorumLostSincePoll g) (quorumOKConsecutivePolls g)
                        (quorumOKLastCountedPoll g) (suppressionActive g))
  | QuorumStatusOK =>
      let keep := mk None zero_time (quorumOKConsecutivePolls g) (quorumOKLastCountedPoll g)
                     (suppressionActive g) in
      if negb (suppressionActive g) then (false, false, keep)
      else if negb (After polledAt (quorumOKLastCountedPoll g)) then (false, false, keep)
      else
        let n := quorumOKConsecutivePolls g + 1 in
        if recoveryPolls tunables <=? n
        then (false, true, mk None zero_time 0 zero_time false)
        else (false, false, mk None zero_time n polledAt true)
  | QuorumStatusLost =>
      let keep act := mk (quorumLostSince g) (quorumLostSincePoll g) 0 zero_time act in
      if suppressionActive g then (false, false, keep true)
      else
        match quorumLostSince g with
        | None => (false, false, mk (Some now) polledAt 0 zero_time false)
        | Some t0 =>
            if (lossThreshold tunables <=? Sub now t0) && After polledAt (quorumLostSincePoll g)
            then (true, false, keep true)
            else (false, false, keep false)
        end
  end.

(** ** The split-brain duration and the failover observation *)
Definition topologyMismatchDebounce : Duration := 60 * Second.
Definition topologyObservationFreshnessWindow : Duration := 30 * Second.
Definition topologyMismatchFreshnessWindow : Duration := 2 * topologyMismatchDebounce.
Definition splitBrainConfirmationStaleness : Duration := 2 * topologyObservationFreshnessWindow.

Definition advanceSplitBrainConfirmation (polledAt now : Time) (b : splitBrain) : splitBrain :=
  if After polledAt (splitBrainPollAt b)
  then {| splitBrainSince := splitBrainSince b; splitBrainPollAt := polledAt;
          splitBrainConfirmedAt := now; splitBrainExpiredPollAt := splitBrainExpiredPollAt b |}
  else b.

Definition splitBrainEpisodeExpired (now : Time) (b : splitBrain) : bool * splitBrain :=
  if Sub now (splitBrainConfirmedAt b) <=? splitBrainConfirmationStaleness then (false, b)
  else (true, {| splitBrainSince := None; splitBrainPollAt := zero_time;
                 splitBrainConfirmedAt := zero_time; splitBrainExpiredPollAt := splitBrainPollAt b |}).

(** The reading of an episode in flight since [t0]. *)
Definition continue_episode (t0 polledAt now : Time) (b : splitBrain) : Duration * bool * splitBrain :=
  let b := advanceSplitBrainConfirmation polledAt now b in
  match splitBrainEpisodeExpired now b with
  | (true, b) => (0, false, b)
  | (false, b) => (Sub (splitBrainConfirmedAt b) t0, false, b)
  end.

(** The sustained duration, [episodeStarted], and the tracker. *)
Definition updateSplitBrainSustained (present : bool) (q : QuorumStatus) (polledAt now : Time)
    (b : splitBrain) : Duration * bool * splitBrain :=
  if present && bool_decide (q = QuorumStatusUnknown) then
    match splitBrainSince b with
    | None => (0, false, b)
    | Some t0 => continue_episode t0 polledAt now b
    end
  else if negb present || bool_decide (q ≠ QuorumStatusLost) then (0, false, splitBrain_zero)
  else
    match splitBrainSince b with
    | None =>
        if negb (IsZero (splitBrainExpiredPollAt b)) && negb (After polledAt (splitBrainExpiredPollAt b))
        then (0, false, b)
        else (0, true, {| splitBrainSince := Some now; splitBrainPollAt := polledAt;
                          splitBrainConfirmedAt := now;
                          splitBrainExpiredPollAt := splitBrainExpiredPollAt b |})
    | Some t0 => continue_episode t0 polledAt now b
    end.

(** The observed failover ([Some] of duration and trigger) and the new [lastOKAddr]. *)
Definition observeFailoverIfAddrChanged (present quorumOK : bool) (addr : string) (now : Time)
    (b : splitBrain) (lastOK : string) : option (Duration * string) * string :=
  if negb present || negb quorumOK then (None, lastOK)
  else
    match splitBrainSince b with
    | None => (None, addr)
    | Some t0 =>
        if bool_decide (lastOK = "") then (None, addr)
        else if bool_decide (lastOK = addr) then (None, addr)
        else (Some (Sub now t0, "sentinel_elected"), addr)
    end.

(** ** The probe of the labelled primary *)
Definition tracker_observeMasterInfoTimeout (ok : bool) (now : Time) (m : masterInfo) : Duration * masterInfo :=
  let mk s := {| masterInfoTimeoutSince := s; masterInfoObservedAt := now;
                 masterInfoRoleDisclaimed := masterInfoRoleDisclaimed m |} in
  if ok then (0, mk None)
  else match masterInfoTimeoutSince m with
       | None => (0, mk (Some now))
       | Some t0 => (Sub now t0, mk (Some t0))
       end.

(** ** The driver of a pass *)

(** What a pass of the gate emits: the gauge, counters, and events. *)
Inductive gate_effect : Type :=
  | GaugeSplitBrain (d : Duration)
  | CountSplitBrain
  | CountFailover (trigger : string) (d : Duration)
  | CountTransition (from to : string)
  | GateEvent (e : event).

Definition suppressionLabel (act : bool) : string := if act then "active" else "inactive".

Section gate.
Context (tunables : QuorumSuppressionTunables) (recorder : bool).

Definition gate_event (warning : bool) (reason action note : string) : list gate_effect :=
  if recorder then [GateEvent (CREvent warning reason action note)] else [].

Definition onSuppressionTransition (justEntered justExited : bool) : list gate_effect :=
  if justEntered then
    gate_event true "QuorumLost" "QuorumLossObserve"
      ("sentinel CKQUORUM has reported NOQUORUM continuously for ≥" +:+
       DurationString (lossThreshold tunables) +:+
       "; suppressing operator-issued SENTINEL MONITOR/REMOVE/SET until " +:+
       Itoa (recoveryPolls tunables) +:+ " consecutive CKQUORUM=OK polls observed")
  else if justExited then
    gate_event false "QuorumReached" "QuorumReachObserve"
      ("sentinel CKQUORUM recovered: " +:+ Itoa (recoveryPolls tunables) +:+
       " consecutive CKQUORUM=OK polls observed; releasing the SENTINEL command-suppression gate")
  else [].

Definition source_string (s : Source) : string :=
  match s with
  | SourceZero => "" | SourceNone => "none" | SourcePubsub => "pubsub"
  | SourcePoll => "poll" | SourceMerge => "merge"
  end.

(** [now] and [now2] are the clock readings of the two critical sections. *)
Definition updateQuorumSuppressionGate (snap : Snapshot) (now now2 : Time) (s : crQuorumState) :
    crQuorumState * list gate_effect :=
  let p := Primary snap in
  let '(sustained, started, b) :=
    updateSplitBrainSustained (Present snap) (Quorum p) (LastPolledAt p) now (q_split s) in
  let '(fo, ok) :=
    observeFailoverIfAddrChanged (Present snap) (QuorumOK p) (Addr p) now b (lastOKAddr s) in
  let s := put_split b ok s in
  let effs :=
    GaugeSplitBrain sustained ::
    (if started then
       CountSplitBrain ::
       gate_event true "SplitBrainDetected" "SplitBrainObserve"
         ("sentinel observer reports quorum lost (source=" +:+ source_string (Src p) +:+
          ") — suppressing role-label relabel until quorum recovers")
     else []) ++
    match fo with Some (d, trig) => [CountFailover trig d] | None => [] end in
  if negb (Present snap) then (s, effs)
  else
    let priorActive := suppressionActive (q_gate s) in
    let '(entered, exited, g) :=
      updateQuorumSuppression tunables (Quorum p) (LastPolledAt p) now2 (q_gate s) in
    (put_gate g s,
     effs ++ (if entered || exited
              then [CountTransition (suppressionLabel priorActive) (suppressionLabel (suppressionActive g))]
              else []) ++
     onSuppressionTransition entered exited).
End gate.

(** [tracker] is [None] before the CR has one. *)
Definition suppressionPaceHint (current : Duration) (tracker : option crQuorumState)
    (reachedSteadyState : bool) : Duration :=
  if negb reachedSteadyState then current
  else if negb (match tracker with Some s => suppressionActive (q_gate s) | None => false end) then current
  else mergeRequeue current quorumSuppressedRequeue.

(** ** Pacing of surgery per sentinel address *)
Definition strandedSurgeryStuckThreshold : Z := 3.
Definition strandedSurgeryMaxBackoffLevel : Z := 3.
Definition strandedLinkupStuckFreshnessWindow : Duration :=
  2 * Z.shiftl strandedRecoveryCooldown strandedSurgeryMaxBackoffLevel.

Definition strandedAddrBackoffLevel (n : Z) : Z :=
  if n <? strandedSurgeryStuckThreshold then 0
  else Z.min (n - strandedSurgeryStuckThreshold + 1) strandedSurgeryMaxBackoffLevel.

Definition strandedProbeCoolingDown (now : Time) (t : strandedTracker) : bool :=
  Sub now (strandedRecoveryLastFired t) <? strandedRecoveryCooldown.

(** The cadence of an address's re-wipes, and whether it is still to be skipped. *)
Definition rewipe_window (r : strandedAddrState) : Duration :=
  Z.shiftl strandedRecoveryCooldown (strandedAddrBackoffLevel (noProgress r)).
Definition skipped_now (now : Time) (r : strandedAddrState) : bool :=
  if strandedAddrBackoffLevel (noProgress r) <? 1 then false
  else negb (rewipe_window r <=? Sub now (lastWiped r)).
Definition strandedSkipSet (now : Time) (t : strandedTracker) : gset string :=
  dom (filter (λ kv, skipped_now now kv.2 = true) (strandedNoProgress t)).

Definition wiped_record (now : Time) (r : strandedAddrState) : strandedAddrState :=
  let n := if strandedLinkupStuckFreshnessWindow <? Sub now (lastWiped r) then 0 else noProgress r in
  {| noProgress := n + 1; lastWiped := now |}.

Definition auth_seed (next : gmap string strandedAddrState) (a : string) : gmap string strandedAddrState :=
  match next !! a with
  | Some r => if noProgress r <? strandedSurgeryStuckThreshold
              then <[a := {| noProgress := strandedSurgeryStuckThreshold; lastWiped := lastWiped r |}]> next
              else next
  | None => next
  end.

Definition carry_skipped (old : gmap string strandedAddrState) (next : gmap string strandedAddrState)
    (a : string) : gmap string strandedAddrState :=
  match old !! a with Some r => <[a := r]> next | None => next end.

Section stranded_tracker.
Context {R : MapRange}.

Definition next_records (wiped skipped authFailed : list string) (now : Time)
    (old : gmap string strandedAddrState) : gmap string strandedAddrState :=
  let next := foldl (λ m a, <[a := wiped_record now (default strandedAddr_zero (old !! a))]> m) ∅ wiped in
  let next := foldl auth_seed next authFailed in
  foldl (carry_skipped old) next skipped.

Definition stuck_addrs (next : gmap string strandedAddrState) : list string :=
  sort_strings (fst <$> filter (λ kv, 1 <= strandedAddrBackoffLevel (noProgress kv.2)) (range_of next)).

(** The stuck set, [fireEvent], the backoff level, and the tracker. *)
Definition detectStrandedPeerLinkupStuck (wiped skipped authFailed : list string) (now : Time)
    (t : strandedTracker) : list string * bool * Z * strandedTracker :=
  let next := next_records wiped skipped authFailed now (strandedNoProgress t) in
  let stuck := stuck_addrs next in
  let mk stuckb at_ edge :=
    {| strandedRecoveryLastFired := strandedRecoveryLastFired t; strandedNoProgress := next;
       strandedLinkupStuck := stuckb; strandedLinkupStuckAt := at_; strandedLinkupStuckEdge := edge |} in
  match stuck with
  | [] => ([], false, 0, mk false (strandedLinkupStuckAt t) "")
  | _ =>
      let level := foldl (λ l a, Z.max l (strandedAddrBackoffLevel
                     (noProgress (default strandedAddr_zero (next !! a))))) 0 stuck in
      let sig := Join stuck "," in
      (stuck, bool_decide (strandedLinkupStuckEdge t ≠ sig), level, mk true now sig)
  end.

Definition clearStrandedLinkupStuck (t : strandedTracker) : strandedTracker :=
  {| strandedRecoveryLastFired := strandedRecoveryLastFired t; strandedNoProgress := ∅;
     strandedLinkupStuck := false; strandedLinkupStuckAt := strandedLinkupStuckAt t;
     strandedLinkupStuckEdge := "" |}.

Definition strandedLinkupStuckActiveOrExpire (now : Time) (t : strandedTracker) : bool * strandedTracker :=
  if strandedLinkupStuck t &&
     (Sub now (strandedLinkupStuckAt t) <=? strandedLinkupStuckFreshnessWindow) then (true, t)
  else if strandedLinkupStuck t then
    (false, {| strandedRecoveryLastFired := strandedRecoveryLastFired t;
               strandedNoProgress := strandedNoProgress t; strandedLinkupStuck := false;
               strandedLinkupStuckAt := strandedLinkupStuckAt t; strandedLinkupStuckEdge := "" |})
  else (false, t).
End stranded_tracker.

Definition recoveryPromotionCooldown : Duration := 60 * Second.
Definition recoveryDetectionCooldown : Duration := 30 * Second.

Definition recoveryPromotionCooldownActive (now : Time) (s : crQuorumState) : bool :=
  negb (IsZero (recoveryPromotionLastFired s)) &&
  (Sub now (recoveryPromotionLastFired s) <? recoveryPromotionCooldown).

(** ** Topology deficits *)
Definition fold (deficit : Z) (eligible : bool) (now : Time) (debounce : Duration)
    (d : topologyDimState) : bool * bool * topologyDimState :=
  if negb eligible || (deficit <=? 0) then (false, false, topologyDim_zero)
  else
    let t0 := default now (since d) in
    if debounce <=? Sub now t0 then
      (true, negb (dim_edge d), {| since := Some t0; active := true; dim_edge := true; deficit := deficit |})
    else (false, false, {| since := Some t0; active := false; dim_edge := dim_edge d; deficit := deficit |}).

Definition foldTopologyMismatch (sentinelEligible : bool) (sentinelDeficit : Z)
    (replicaEligible : bool) (replicaDeficit : Z) (now : Time) (t : topologyTracker) :
    bool * bool * topologyTracker :=
  let '(_, sentFire, ds) := fold sentinelDeficit sentinelEligible now topologyMismatchDebounce (topologySentinel t) in
  let '(_, replFire, dr) := fold replicaDeficit replicaEligible now topologyMismatchDebounce (topologyReplica t) in
  (sentFire, replFire, {| topologySentinel := ds; topologyReplica := dr; topologyMismatchObservedAt := now |}).

Definition topologyMismatchActiveOrExpire (now : Time) (t : topologyTracker) :
    (bool * Z * Z) * topologyTracker :=
  if IsZero (topologyMismatchObservedAt t) ||
     (topologyMismatchFreshnessWindow <? Sub now (topologyMismatchObservedAt t))
  then ((false, 0, 0), {| topologySentinel := topologyDim_zero; topologyReplica := topologyDim_zero;
                          topologyMismatchObservedAt := topologyMismatchObservedAt t |})
  else
    let sd := if active (topologySentinel t) then deficit (topologySentinel t) else 0 in
    let rd := if active (topologyReplica t) then deficit (topologyReplica t) else 0 in
    (((0 <? sd) || (0 <? rd), sd, rd), t).

(** ** Runs of the gate *)
Record quorum_obs := { ob_q : QuorumStatus; ob_poll : Time; ob_now : Time }.

Definition gate_step (tun : QuorumSuppressionTunables) (g : suppression) (o : quorum_obs) : suppression :=
  (updateQuorumSuppression tun (ob_q o) (ob_poll o) (ob_now o) g).2.
Definition gate_run (tun : QuorumSuppressionTunables) (g : suppression) (l : list quorum_obs) : suppression :=
  foldl (gate_step tun) g l.
Definition never (q : QuorumStatus) (l : list quorum_obs) : Prop := Forall (λ o, ob_q o ≠ q) l.

(** The loss episode in flight is one Lost observation, with no OK since. *)
Definition loss_open (l : list quorum_obs) (t0 p0 : Time) : Prop :=
  ∃ pre mid, l = pre ++ {| ob_q := QuorumStatusLost; ob_poll := p0; ob_now := t0 |} :: mid ∧
             never QuorumStatusOK mid.

(** The polls counted towards the exit: strictly increasing, OK, and since the last Lost. *)
Definition ok_polls (l : list quorum_obs) (ps : list Time) (last : Time) : Prop :=
  ∃ pre suf, l = pre ++ suf ∧ never QuorumStatusLost suf ∧
    Sorted.StronglySorted Z.gt ps ∧ head ps = (if bool_decide (ps = []) then None else Some last) ∧
    (∀ p, p ∈ ps → zero_time < p ∧ ∃ o, o ∈ suf ∧ ob_q o = QuorumStatusOK ∧ ob_poll o = p).

Record gate_inv (l : list quorum_obs) (g : suppression) : Prop := {
  gi_lost t0 : quorumLostSince g = Some t0 → loss_open l t0 (quorumLostSincePoll g);
  gi_ok : ∃ ps, len ps = quorumOKConsecutivePolls g ∧
                (ps = [] → quorumOKLastCountedPoll g = zero_time) ∧
                ok_polls l ps (quorumOKLastCountedPoll g)
}.

Lemma gate_inv_zero : gate_inv [] suppression_zero.
Proof.
  split; [done|]. exists []. split_and!; [done|done|]. exists [], []. split_and!; try done; [apply Forall_nil; done|constructor|].
  intros p Hp. inversion Hp.
Qed.

Lemma loss_open_snoc l o t0 p0 : ob_q o ≠ QuorumStatusOK → loss_open l t0 p0 → loss_open (l ++ [o]) t0 p0.
Proof.
  intros Ho (pre & mid & -> & Hm). exists pre, (mid ++ [o]). split; [by rewrite <- app_assoc|].
  apply Forall_app. split; [done|by apply Forall_singleton].
Qed.

Lemma ok_polls_nil l last : ok_polls l [] last.
Proof. exists l, []. split_and!; [by rewrite app_nil_r|by apply Forall_nil|constructor|done|set_solver]. Qed.

Lemma ok_polls_snoc l o ps last : ob_q o ≠ QuorumStatusLost → ok_polls l ps last → ok_polls (l ++ [o]) ps last.
Proof.
  intros Ho (pre & suf & -> & Hs & Hps & Hh & Hall). exists pre, (suf ++ [o]).
  split_and!; [by rewrite <- app_assoc| |done|done|].
  - apply Forall_app. split; [done|by apply Forall_singleton].
  - intros p Hp. destruct (Hall p Hp) as (? & o' & ? & ?). split; [done|]. exists o'. set_solver.
Qed.

Lemma ok_polls_count l o ps last :
  ob_q o = QuorumStatusOK → (ps = [] → last = zero_time) → last < ob_poll o →
  ok_polls l ps last → zero_time <= last → ok_polls (l ++ [o]) (ob_poll o :: ps) (ob_poll o).
Proof.
  intros Hq Hnil Hlt H Hz. pose proof H as (pre & suf & -> & Hs & Hps & Hh & Hall).
  exists pre, (suf ++ [o]). split_and!.
  - by rewrite <- app_assoc.
  - apply Forall_app. split; [done|]. apply Forall_singleton. by rewrite Hq.
  - constructor; [done|]. apply List.Forall_forall. intros p Hp.
    destruct ps as [|x ps]; [done|]. rewrite bool_decide_false in Hh by done. injection Hh as ->.
    apply Sorted.StronglySorted_inv in Hps as [_ Hf]. rewrite List.Forall_forall in Hf.
    destruct Hp as [<-|Hp]; [lia|]. specialize (Hf _ Hp). lia.
  - by rewrite bool_decide_false.
  - intros p [->|Hp]%elem_of_cons.
    + split; [lia|]. exists o. set_solver.
    + destruct (Hall p Hp) as (? & o' & ? & ?). split; [done|]. exists o'. set_solver.
Qed.

Lemma ok_polls_nodup l ps last : ok_polls l ps last → NoDup ps.
Proof.
  intros (pre & suf & _ & _ & Hs & _). induction Hs as [|p ps _ IH Hf]; constructor; [|done].
  intros Hp%list_elem_of_In. rewrite List.Forall_forall in Hf. specialize (Hf _ Hp). lia.
Qed.

Lemma gate_inv_last l g : gate_inv l g → zero_time <= quorumOKLastCountedPoll g.
Proof.
  intros [_ (ps & _ & Hnil & pre & suf & _ & _ & _ & Hh & Hall)]. destruct ps as [|p ps].
  - by rewrite Hnil.
  - rewrite bool_decide_false in Hh by done. injection Hh as ->.
    destruct (Hall _ (list_elem_of_here _ _)) as [? _]. lia.
Qed.

Lemma gate_inv_step tun l g o : gate_inv l g → gate_inv (l ++ [o]) (gate_step tun g o).
Proof.
  intros Hi. pose proof (gate_inv_last _ _ Hi) as Hz. destruct Hi as [Hl (ps & Hn & Hnil & Hok)].
  unfold gate_step, updateQuorumSuppression. destruct o as [q p t]; cbn [ob_q ob_poll ob_now].
  destruct q.
  - split; cbn.
    + intros t0 Ht. by apply loss_open_snoc, Hl.
    + exists ps. split_and!; [done|done|]. by apply ok_polls_snoc.
  - destruct (negb (suppressionActive g)); [|destruct (After p _) eqn:Ha; cbn [negb]].
    + split; [done|]. exists ps. split_and!; [done|done|]. by apply ok_polls_snoc.
    + unfold After in Ha. apply Z.ltb_lt in Ha.
      destruct (recoveryPolls tun <=? _); split; cbn; try done.
      * exists []. split_and!; [done|done|apply ok_polls_nil].
      * exists (p :: ps). split_and!; [|done|].
        -- unfold len in *. simpl length. lia.
        -- by apply (ok_polls_count l {| ob_q := QuorumStatusOK; ob_poll := p; ob_now := t |} ps
             (quorumOKLastCountedPoll g)).
    + split; [done|]. exists ps. split_and!; [done|done|]. by apply ok_polls_snoc.
  - assert (Hok' : ∃ ps, len ps = 0 ∧ (ps = [] → zero_time = zero_time) ∧
              ok_polls (l ++ [{| ob_q := QuorumStatusLost; ob_poll := p; ob_now := t |}]) ps zero_time)
      by (exists []; split_and!; [done|done|apply ok_polls_nil]).
    destruct (suppressionActive g); [|destruct (quorumLostSince g) as [t0|] eqn:E; [destruct (_ && _)|]];
      split; cbn; try exact Hok'; intros t1 Ht1.
    1: by apply loss_open_snoc, Hl.
    1,2: injection Ht1 as <-; by apply loss_open_snoc, Hl.
    injection Ht1 as <-. exists l, []. split; [done|by apply Forall_nil].
Qed.

Lemma gate_run_inv tun l : gate_inv l (gate_run tun suppression_zero l).
Proof.
  induction l as [|o l IH] using rev_ind; [apply gate_inv_zero|].
  unfold gate_run in *. rewrite foldl_app. simpl. by apply gate_inv_step.
Qed.


Definition tun0 : QuorumSuppressionTunables :=
  {| LossThreshold := 0; RecoveryPolls := 0; Phase11Timeout := 0 |}.
Definition qobs (q : QuorumStatus) (poll now : Z) : quorum_obs :=
  {| ob_q := q; ob_poll := poll * Second; ob_now := now * Second |}.
Definition demo_loss : list quorum_obs :=
  [qobs QuorumStatusOK 100 101; qobs QuorumStatusLost 110 111; qobs QuorumStatusUnknown 120 121;
   qobs QuorumStatusLost 130 131].


(** The gate opens again only on distinct polls.  An observation that turns the
    gate off is OK, and at least the configured number of distinct polls reported
    OK with no Lost observation among them: reading one poll on many reconcile
    passes counts once. *)
Theorem suppression_exit_hysteresis tun l o :
  let r := updateQuorumSuppression tun (ob_q o) (ob_poll o) (ob_now o) (gate_run tun suppression_zero l) in
  r.1.2 = true →
  suppressionActive r.2 = false ∧
  ∃ ps, recoveryPolls tun <= len ps ∧ NoDup ps ∧ ok_polls (l ++ [o]) ps (ob_poll o).
Proof.
  pose proof (gate_run_inv tun l) as Hi. pose proof (gate_inv_last _ _ Hi) as Hz. revert Hi Hz.
  generalize (gate_run tun suppression_zero l) as g.
  intros g [_ (ps & Hn & Hnil & Hok)] Hz. unfold updateQuorumSuppression.
  destruct (ob_q o) eqn:Eq; cbn; [done| |by repeat case_match].
  destruct (suppressionActive g); [cbn|done]. destruct (After _ _) eqn:Ha; [cbn|done].
  destruct (recoveryPolls tun <=? _) eqn:Er; [|done]. intros _. split; [done|].
  apply Z.ltb_lt in Ha. apply Z.leb_le in Er.
  pose proof (ok_polls_count l o ps (quorumOKLastCountedPoll g) Eq Hnil Ha Hok Hz) as Hok'.
  exists (ob_poll o :: ps). split_and!; [|by apply (ok_polls_nodup _ _ _ Hok')|done].
  unfold len in *. simpl length. lia.
Qed.

Definition demo_suppressed : list quorum_obs :=
  demo_loss ++ [qobs QuorumStatusLost 170 171; qobs QuorumStatusOK 180 181; qobs QuorumStatusOK 180 182].

Lemma suppression_exit_hysteresis_witness :
  suppressionActive (gate_run tun0 suppression_zero demo_suppressed) = true ∧
  ∃ ps, 2 <= len ps ∧ NoDup ps ∧ ok_polls (demo_suppressed ++ [qobs QuorumStatusOK 190 191]) ps (190 * Second).
Proof.
  split; [vm_compute; reflexivity|].
  destruct (suppression_exit_hysteresis tun0 demo_suppressed (qobs QuorumStatusOK 190 191))
    as (_ & H); [vm_compute; reflexivity|]. exact H.
Defined.

(** Without a Lost observation an open gate stays open. *)
Lemma gate_stays_open tun g l :
  suppressionActive g = false → never QuorumStatusLost l → suppressionActive (gate_run tun g l) = false.
Proof.
  revert g. induction l as [|o l IH]; intros g Hg Hn; [done|]. apply Forall_cons in Hn as [Ho Hn].
  simpl. apply IH; [|done]. unfold gate_step, updateQuorumSuppression.
  destruct (ob_q o); [done|by rewrite Hg|done].
Qed.

Definition ok_of (l : list quorum_obs) : list Time := ob_poll <$> filter (λ o, ob_q o = QuorumStatusOK) l.

Lemma gate_counts_down tun g l n :
  suppressionActive g = true → quorumOKConsecutivePolls g = n → never QuorumStatusLost l →
  Sorted.StronglySorted Z.lt (quorumOKLastCountedPoll g :: ok_of l) →
  recoveryPolls tun <= n + len (ok_of l) → n < recoveryPolls tun →
  suppressionActive (gate_run tun g l) = false.
Proof.
  revert g n. induction l as [|o l IH]; intros g n Hg Hc Hn Hs Hle Hlt.
  - unfold ok_of, len in Hle. simpl in Hle. lia.
  - apply Forall_cons in Hn as [Ho Hn]. simpl. unfold ok_of in *. rewrite filter_cons in Hs, Hle.
    unfold gate_step at 1, updateQuorumSuppression. destruct (ob_q o) eqn:Eq; cbn; [| |done].
    + rewrite decide_False in Hs, Hle by done. apply IH with (n := n); cbn; auto.
    + rewrite decide_True in Hs, Hle by done. rewrite fmap_cons in Hs, Hle.
      apply Sorted.StronglySorted_inv in Hs as [Hs Hf]. apply List.Forall_inv in Hf.
      unfold After. apply Z.ltb_lt in Hf. rewrite Hg, Hf, Hc. cbn.
      destruct (recoveryPolls tun <=? n + 1) eqn:E; [by apply gate_stays_open|].
      apply Z.leb_gt in E. apply IH with (n := n + 1); cbn; auto.
      unfold len in *. simpl length in Hle. lia.
Qed.

(** While the gate is closed the counter is below the configured number. *)
Lemma gate_run_count tun l :
  let g := gate_run tun suppression_zero l in
  suppressionActive g = true → 0 <= quorumOKConsecutivePolls g < recoveryPolls tun.
Proof.
  assert (Hp : 0 < recoveryPolls tun).
  { unfold recoveryPolls. destruct (0 <? RecoveryPolls tun) eqn:E; [by apply Z.ltb_lt|done]. }
  induction l as [|o l IH] using rev_ind; [done|]. unfold gate_run in *. rewrite foldl_app. simpl in *.
  revert IH. generalize (foldl (gate_step tun) suppression_zero l) as g. intros g IH.
  unfold gate_step, updateQuorumSuppression. destruct (ob_q o); cbn; [done| |].
  - destruct (suppressionActive g); cbn; [|done]. specialize (IH eq_refl).
    destruct (After _ _); cbn; [|done]. destruct (recoveryPolls tun <=? _) eqn:E; cbn; [done|].
    apply Z.leb_gt in E. lia.
  - by repeat case_match; cbn.
Qed.

(** The gate cannot deadlock.  From any reachable suppressed state, as many
    strictly newer OK polls as configured, with any number of Unknown observations
    between them and no Lost one, release it, and it stays released for as long as
    no Lost observation arrives. *)
Theorem suppression_releases tun l l' :
  let g := gate_run tun suppression_zero l in
  suppressionActive g = true → never QuorumStatusLost l' →
  Sorted.StronglySorted Z.lt (quorumOKLastCountedPoll g :: ok_of l') →
  recoveryPolls tun <= len (ok_of l') →
  suppressionActive (gate_run tun g l') = false.
Proof.
  intros g Hg Hn Hs Hle.
  destruct (gate_run_count tun l Hg) as [H0 H1].
  apply (gate_counts_down tun g l' (quorumOKConsecutivePolls g)); auto; fold g in H0, H1; lia.
Qed.

Lemma suppression_releases_witness :
  suppressionActive (gate_run tun0 (gate_run tun0 suppression_zero
    (demo_loss ++ [qobs QuorumStatusLost 170 171]))
    [qobs QuorumStatusOK 180 181; qobs QuorumStatusUnknown 185 186; qobs QuorumStatusOK 190 191]) = false.
Proof.
  apply (suppression_releases tun0).
  - vm_compute. reflexivity.
  - repeat constructor; discriminate.
  - vm_compute. repeat constructor.
  - vm_compute. discriminate.
Defined.

(** ** Split-brain episodes *)

(** Observations replayed from one poll [p], none of them OK: the readings and the
    number of episodes started. *)
Fixpoint replay (p : Time) (l : list (QuorumStatus * Time)) (b : splitBrain) : list Duration * nat :=
  match l with
  | [] => ([], 0%nat)
  | (q, now) :: l =>
      let '(d, started, b) := updateSplitBrainSustained true q p now b in
      let '(ds, n) := replay p l b in
      (d :: ds, (if started then S n else n)%nat)
  end.

(** An episode opened by poll [p], or expired at it. *)
Definition at_poll (p : Time) (b : splitBrain) : Prop :=
  splitBrainPollAt b = p ∧ splitBrainSince b = Some (splitBrainConfirmedAt b) ∨
  splitBrainSince b = None ∧ splitBrainExpiredPollAt b = p.

Lemma at_poll_step p q now b :
  p ≠ zero_time → q ≠ QuorumStatusOK → at_poll p b →
  ∃ b', updateSplitBrainSustained true q p now b = (0, false, b') ∧ at_poll p b'.
Proof.
  intros Hp Hq Hat. unfold updateSplitBrainSustained. destruct Hat as [[E1 E2]|[E1 E2]]; rewrite ?E1, ?E2.
  - assert (Hc : ∃ b', continue_episode (splitBrainConfirmedAt b) p now b = (0, false, b') ∧ at_poll p b').
    { unfold continue_episode, advanceSplitBrainConfirmation, After. rewrite E1, Z.ltb_irrefl.
      unfold splitBrainEpisodeExpired. destruct (_ <=? _).
      - exists b. unfold Sub. rewrite Z.sub_diag. split; [done|by left].
      - eexists. split; [done|]. right. by rewrite <- E1. }
    destruct q; [done|done|exact Hc].
  - assert (Hz : IsZero p = false) by (unfold IsZero; by apply Z.eqb_neq).
    destruct q; cbn; [|done|]; [exists b; split; [done|by right]|].
    unfold After. rewrite Hz, Z.ltb_irrefl. cbn. exists b. split; [done|by right].
Qed.

Lemma replay_quiet p l b :
  p ≠ zero_time → Forall (λ x, x.1 ≠ QuorumStatusOK) l → at_poll p b →
  (replay p l b).2 = 0%nat ∧ Forall (eq 0) (replay p l b).1.
Proof.
  intros Hp Hl. revert b. induction Hl as [|[q now] l Hq _ IH]; intros b Hat; [done|].
  simpl. destruct (at_poll_step p q now b Hp Hq Hat) as (b' & -> & Hat').
  destruct (IH b' Hat') as [Hn Hd]. destruct (replay p l b') as [ds n]. simpl in *.
  split; [done|by constructor].
Qed.

(** A wedged observer pages at most once and never grows the alert.  However
    often, and over however long a time, the reconcile loop re-reads a snapshot
    whose last poll is [p], as Lost or Unknown, the SplitBrainDetected edge fires at
    most once and every sustained reading is zero, also across the expiry of the
    episode, which the replay does not re-arm. *)
Theorem frozen_observer_pages_once p l :
  p ≠ zero_time → Forall (λ x, x.1 ≠ QuorumStatusOK) l →
  ((replay p l splitBrain_zero).2 <= 1)%nat ∧ Forall (eq 0) (replay p l splitBrain_zero).1.
Proof.
  intros Hp Hl. induction Hl as [|[q now] l Hq Hl IH]; [simpl; split; [lia|done]|]. simpl.
  destruct q; [|done|].
  - change (updateSplitBrainSustained _ _ _ _ _) with (0, false, splitBrain_zero). cbv beta iota.
    destruct IH. destruct (replay p l splitBrain_zero) as [ds n]. split; [done|by constructor].
  - set (b := {| splitBrainSince := Some now; splitBrainPollAt := p;
      splitBrainConfirmedAt := now; splitBrainExpiredPollAt := zero_time |}).
    change (updateSplitBrainSustained _ _ _ _ _) with (0, true, b). cbv beta iota.
    destruct (replay_quiet p l b Hp Hl) as [Hn Hd]; [by left|].
    destruct (replay p l b) as [ds n]; simpl in *. subst n. split; [lia|by constructor].
Qed.

Lemma frozen_observer_pages_once_witness :
  let r := replay (100 * Second) [(QuorumStatusLost, 101 * Second); (QuorumStatusLost, 300 * Second);
             (QuorumStatusLost, 900 * Second)] splitBrain_zero in
  (r.2 <= 1)%nat.
Proof.
  apply (frozen_observer_pages_once (100 * Second)); [done|]. repeat constructor; discriminate.
Defined.

(** ** The failover counter *)
Definition is_failover (e : gate_effect) : bool :=
  match e with CountFailover _ _ => true | _ => false end.

Lemma split_ok_resets present polledAt now b :
  (updateSplitBrainSustained present QuorumStatusOK polledAt now b).2 = splitBrain_zero.
Proof. unfold updateSplitBrainSustained. destruct present; cbn; done. Qed.

Lemma gate_events_no_failover tun recorder entered exited :
  Forall (λ e, is_failover e = false) (onSuppressionTransition tun recorder entered exited).
Proof. unfold onSuppressionTransition, gate_event. by repeat case_match; repeat constructor. Qed.

Lemma gate_pass_no_failover tun recorder snap now now2 s :
  QuorumOK (Primary snap) = bool_decide (Quorum (Primary snap) = QuorumStatusOK) →
  Forall (λ e, is_failover e = false) (updateQuorumSuppressionGate tun recorder snap now now2 s).2.
Proof.
  intros Hq. unfold updateQuorumSuppressionGate.
  destruct (updateSplitBrainSustained _ _ _ _ _) as [[d st] b] eqn:Eb.
  assert (Hfo : (observeFailoverIfAddrChanged (Present snap) (QuorumOK (Primary snap))
                  (Addr (Primary snap)) now b (lastOKAddr s)).1 = None).
  { unfold observeFailoverIfAddrChanged. destruct (negb _ || negb _) eqn:E; [done|].
    apply orb_false_elim in E as [_ E]. rewrite Hq in E. apply negb_false_iff, bool_decide_eq_true in E.
    pose proof (split_ok_resets (Present snap) (LastPolledAt (Primary snap)) now (q_split s)) as Hz.
    rewrite <- E, Eb in Hz. simpl in Hz. by rewrite Hz. }
  destruct (observeFailoverIfAddrChanged _ _ _ _ _ _) as [fo ok]. simpl in Hfo. subst fo.
  destruct (negb (Present snap)).
  - simpl. rewrite app_nil_r. unfold gate_event. by repeat case_match; repeat constructor.
  - destruct (updateQuorumSuppression _ _ _ _ _) as [[en ex] g]. simpl. rewrite app_nil_r.
    constructor; [done|]. apply Forall_app. split; [|apply Forall_app; split; [|apply gate_events_no_failover]].
    + unfold gate_event. by repeat case_match; repeat constructor.
    + by case_match; repeat constructor.
Qed.

Lemma obs_run_inv {R : MapRange} evs o :
  obs_inv o → Forall (λ ev, sized (length (endpoints o)) ev = true) evs → obs_inv (obs_run o evs).
Proof.
  revert o. induction evs as [|ev evs IH]; intros o Hi Hf; [done|]. apply Forall_cons in Hf as [Hev Hf].
  simpl. apply IH; [by apply obs_step_inv|]. by rewrite obs_step_endpoints.
Qed.

(** No failover is ever counted.  For every snapshot an observer can publish and
    every state of the tracker, the pass emits neither the failover counter nor its
    duration: [updateSplitBrainSustained] runs first and, on the OK snapshot that
    ends the episode, has already cleared the onset that
    [observeFailoverIfAddrChanged] needs (the example [failover_missed] shows a pass
    that misses one). *)
Theorem failover_never_counted {R : MapRange} tun recorder master eps t0 evs now now2 s :
  eps ≠ [] → Forall (λ ev, sized (length eps) ev = true) evs →
  let snap := {| Present := true; Primary := load (obs_run (start t0 (newObserver master eps)) evs) |} in
  Forall (λ e, is_failover e = false) (updateQuorumSuppressionGate tun recorder snap now now2 s).2.
Proof.
  intros He Hs snap. apply gate_pass_no_failover. unfold snap. simpl.
  apply inv_quorum, obs_run_inv; [by apply start_inv|done].
Qed.

Definition lost_tracker : crQuorumState :=
  put_split {| splitBrainSince := Some (100 * Second); splitBrainPollAt := 99 * Second;
               splitBrainConfirmedAt := 100 * Second; splitBrainExpiredPollAt := zero_time |}
            "10.0.0.1:6379" quorum_zero.

(** The observation alone would have counted the failover the pass misses. *)
Example failover_missed :
  (observeFailoverIfAddrChanged true true "10.0.0.2:6379" (110 * Second) (q_split lost_tracker)
     (lastOKAddr lost_tracker)).1 = Some (10 * Second, "sentinel_elected") ∧
  (updateQuorumSuppressionGate tun0 true (demo_snap true "10.0.0.2:6379" 3) (110 * Second) (110 * Second)
     lost_tracker).2 = [GaugeSplitBrain 0].
Proof. vm_compute. split; reflexivity. Qed.

Lemma failover_never_counted_witness :
  let snap := {| Present := true; Primary := load (obs_run (R := range_forward)
    (start 5 (newObserver "mymaster" [{| Name := "s0"; ep_Addr := "10.1.0.1:26379" |}])) []) |} in
  Forall (λ e, is_failover e = false)
    (updateQuorumSuppressionGate tun0 true snap (110 * Second) (110 * Second) lost_tracker).2.
Proof.
  apply (failover_never_counted (R := range_forward) tun0 true "mymaster"); [done|by constructor].
Defined.

(** ** Topology episodes *)
Record topo_obs := { to_deficit : Z; to_eligible : bool; to_now : Time }.
Definition short (o : topo_obs) : bool := to_eligible o && (0 <? to_deficit o).
Definition topo_step (debounce : Duration) (d : topologyDimState) (o : topo_obs) :
    bool * bool * topologyDimState := fold (to_deficit o) (to_eligible o) (to_now o) debounce d.
Definition topo_run (debounce : Duration) (l : list topo_obs) : topologyDimState :=
  foldl (λ d o, (topo_step debounce d o).2) topologyDim_zero l.

(** The episode in flight is the suffix of the run that was short throughout, and
    its edge is set exactly when a pass of it has reached the debounce. *)
Definition topo_inv (debounce : Duration) (l : list topo_obs) (d : topologyDimState) : Prop :=
  match since d with
  | None => dim_edge d = false
  | Some t0 => ∃ pre o0 mid, l = pre ++ o0 :: mid ∧ to_now o0 = t0 ∧ Forall (λ o, short o = true) (o0 :: mid) ∧
                 (dim_edge d = false → Forall (λ o, Sub (to_now o) t0 < debounce) (o0 :: mid))
  end.

Lemma short_guard o : negb (to_eligible o) || (to_deficit o <=? 0) = negb (short o).
Proof. unfold short. destruct (to_eligible o); [|done]. simpl. by rewrite Z.leb_antisym. Qed.

Lemma topo_inv_step debounce l d o :
  topo_inv debounce l d → topo_inv debounce (l ++ [o]) (topo_step debounce d o).2.
Proof.
  unfold topo_step, fold. rewrite short_guard. destruct (short o) eqn:Hs; [simpl|done].
  unfold topo_inv. destruct (since d) as [t0|]; simpl.
  - intros (pre & o0 & mid & -> & Ht & Hall & Hlate). destruct (debounce <=? _) eqn:E; simpl;
      exists pre, o0, (mid ++ [o]); split_and!; try done; try by rewrite <- app_assoc.
    1,2: rewrite app_comm_cons; apply Forall_app; split; [done|by apply Forall_singleton].
    intros He. rewrite app_comm_cons. apply Forall_app. split; [by apply Hlate|].
    apply Forall_singleton. by apply Z.leb_gt.
  - intros He. destruct (debounce <=? _) eqn:E; simpl; exists l, o, []; split_and!; try done.
    1,2: by apply Forall_singleton.
    intros _. apply Forall_singleton. by apply Z.leb_gt.
Qed.

Lemma topo_run_inv debounce l : topo_inv debounce l (topo_run debounce l).
Proof.
  induction l as [|o l IH] using rev_ind; [done|]. unfold topo_run in *. rewrite foldl_app. simpl.
  by apply topo_inv_step.
Qed.

(** The topology warning is debounced and fires once per episode.  Whenever a
    pass fires it, every pass from some earlier one on was eligible and short of
    peers (or replicas), the first and the current of these are at least the
    debounce apart, and no pass in between was already that late, so none of them
    fired. *)
Theorem topology_fires_once_sustained debounce l o :
  0 < debounce →
  (topo_step debounce (topo_run debounce l) o).1.2 = true →
  short o = true ∧
  ∃ pre o0 mid, l = pre ++ o0 :: mid ∧ Forall (λ x, short x = true) (o0 :: mid) ∧
    debounce <= Sub (to_now o) (to_now o0) ∧
    Forall (λ x, Sub (to_now x) (to_now o0) < debounce) (o0 :: mid).
Proof.
  intros Hd. pose proof (topo_run_inv debounce l) as Hi. revert Hi. generalize (topo_run debounce l) as d.
  intros d Hi. unfold topo_step, fold. rewrite short_guard. destruct (short o); [simpl|done].
  unfold topo_inv in Hi. destruct (since d) as [t0|]; simpl.
  - destruct Hi as (pre & o0 & mid & -> & <- & Hall & Hlate). destruct (debounce <=? _) eqn:E; simpl; [|done].
    intros He%negb_true_iff. split; [done|]. exists pre, o0, mid. apply Z.leb_le in E. auto.
  - unfold Sub. rewrite Z.sub_diag. destruct (debounce <=? _) eqn:E; [|done].
    apply Z.leb_le in E. change (clamp64 0) with 0 in E. lia.
Qed.

Definition tobs (d now : Z) : topo_obs := {| to_deficit := d; to_eligible := true; to_now := now * Second |}.

Lemma topology_fires_once_sustained_witness :
  short (tobs 1 161) = true ∧
  ∃ pre o0 mid, [tobs 1 90; tobs 0 95; tobs 2 100; tobs 1 130] = pre ++ o0 :: mid ∧
    Forall (λ x, short x = true) (o0 :: mid).
Proof.
  destruct (topology_fires_once_sustained topologyMismatchDebounce
    [tobs 1 90; tobs 0 95; tobs 2 100; tobs 1 130] (tobs 1 161))
    as (H & pre & o0 & mid & H1 & H2 & _); [reflexivity|vm_compute; reflexivity|].
  split; [exact H|]. exists pre, o0, mid. split; [exact H1|exact H2].
Defined.
