(* ===== verification/Recovery.v ===== *)
(** * Recovery of the sentinels and of a lost master: [detectAndRecoverStrandedSentinels]
    and its helpers in [internal/controller/valkey_controller.go]

    A pass resolves the master (label, observer, dial sweep), promotes a replica
    when no master is left anywhere, and otherwise hands the master to the surgery
    of [Surgery] with the per-address pacing of [QuorumGate].  The clock and the
    observer are read at several call sites, which may see different values: both
    are functions of the site.  The commands a pass sends are recorded in order. *)
From S2P Require Import Prelude GoStd GoFmt Resp Fsm SentinelParse Observer TripleCheck SentinelWire Surgery SurgerySpec Status DeriveState LagChecker PrimaryRollout RoleLabels OrphanMaster QuorumGate.
Local Open Scope Z_scope.

(** ** The survey of the data plane *)
Record surveyedPod := { sp_name : string; sp_ip : string; sp_state : LagState }.
Record valkeyPodSurvey := {
  livePodIPs : gset string;
  pendingPods : Z;
  dialed : bool;
  sv_masters : list surveyedPod;
  sv_replicas : list surveyedPod;
  dialFailures : Z
}.

Definition survey_pod (s : valkeyPodSurvey) (p : Pod) : valkeyPodSurvey :=
  if negb (bool_decide (pod_IP p = "")) then
    {| livePodIPs := {[ pod_IP p ]} ∪ livePodIPs s; pendingPods := pendingPods s; dialed := dialed s;
       sv_masters := sv_masters s; sv_replicas := sv_replicas s; dialFailures := dialFailures s |}
  else
    {| livePodIPs := livePodIPs s; pendingPods := pendingPods s + 1; dialed := dialed s;
       sv_masters := sv_masters s; sv_replicas := sv_replicas s; dialFailures := dialFailures s |}.
Definition survey_zero : valkeyPodSurvey :=
  {| livePodIPs := ∅; pendingPods := 0; dialed := false; sv_masters := []; sv_replicas := [];
     dialFailures := 0 |}.
Definition newSurveyFromPods (pods : list Pod) : valkeyPodSurvey := foldl survey_pod survey_zero pods.

Definition dial_pod (check : string → option LagState) (s : valkeyPodSurvey) (p : Pod) : valkeyPodSurvey :=
  if bool_decide (pod_IP p = "") then s
  else
    let put ms rs f :=
      {| livePodIPs := livePodIPs s; pendingPods := pendingPods s; dialed := dialed s;
         sv_masters := ms; sv_replicas := rs; dialFailures := f |} in
    match check (dial_addr p) with
    | None => put (sv_masters s) (sv_replicas s) (dialFailures s + 1)
    | Some st =>
        let sp := {| sp_name := pod_Name p; sp_ip := pod_IP p; sp_state := st |} in
        if bool_decide (Role st = RoleMaster)
        then put (sv_masters s ++ [sp]) (sv_replicas s) (dialFailures s)
        else put (sv_masters s) (sv_replicas s ++ [sp]) (dialFailures s)
    end.
Definition dialValkeySurvey (check : string → option LagState) (pods : list Pod) (s : valkeyPodSurvey) :
    valkeyPodSurvey :=
  foldl (dial_pod check)
    {| livePodIPs := livePodIPs s; pendingPods := pendingPods s; dialed := true;
       sv_masters := sv_masters s; sv_replicas := sv_replicas s; dialFailures := dialFailures s |} pods.

Definition liveValkeyIPs (s : option valkeyPodSurvey) : gset string :=
  match s with None => ∅ | Some s => livePodIPs s end.

(** ** Verdicts on a snapshot *)
Definition freshSnapshotPrimaryIP (snap : Snapshot) (now : Time) : string :=
  if negb (Present snap) || negb (QuorumOK (Primary snap)) then ""
  else if snapshotStale snap now maxRolloutSnapshotAge then ""
  else match SplitHostPort (Addr (Primary snap)) with
  | None => ""
  | Some (host, _) => host
  end.

Definition roleDisclaimsMastership (role : string) : bool :=
  negb (bool_decide (role = "")) && negb (bool_decide (role = RoleMaster)).

Definition repointClassArmed (snap : Snapshot) (liveIPs : gset string) : bool :=
  if negb (Present snap) then false
  else if negb (QuorumOK (Primary snap)) then true
  else match SplitHostPort (Addr (Primary snap)) with
  | None => true
  | Some (host, _) => if bool_decide (host = "") then true else negb (bool_decide (host ∈ liveIPs))
  end.

Definition odown_blocks (now : Time) (ttl : Duration) (m : gmap string Time) : bool :=
  existsb (λ kt, Sub now kt.2 <? ttl) (map_to_list m).
Definition ghostReapAllowed (snap : Snapshot) (failoverTimeoutMS : Z) (now : Time) : bool :=
  if negb (Present snap) then false
  else
    let ttl := failoverTimeoutMS * Millisecond in
    let ttl := if ttl <=? 0 then 180 * Second else ttl in
    if odown_blocks now ttl (ODown (Primary snap)) then false
    else negb (odown_blocks now ttl (ODownPull (Primary snap))).

(** ** Inputs and outputs of a pass *)
Record SentinelSpec := {
  sen_MasterName : string;
  sen_Replicas : Z;
  sen_Quorum : Z;
  sen_Tuning : MasterTuning
}.

(** Where the pass reads the clock or the observer. *)
Inductive site : Type :=
  | SiteResolve | SiteProbeAge | SiteSurvey | SiteForced | SitePromote | SiteInFlight | SiteCooldown | SiteCooldown2
  | SiteStamp | SiteDetect | SiteProbe | SiteBypass | SiteGhost | SiteSkip | SiteSurgery | SiteOutcome.

Record recovery_in := {
  r_now : site → Time;
  r_snap : site → option Snapshot;           (* [None]: no observer *)
  r_list : result (list Pod);                (* the resolver's pod list *)
  r_forcedList : result (list Pod);          (* the list of the forced survey *)
  r_readerList : result (list Pod);          (* the uncached re-read *)
  r_confirm : string → option LagState;      (* the confirmation dial of a labelled pod *)
  r_sweep : string → option LagState;        (* the resolver's sweep *)
  r_forcedSweep : string → option LagState;
  r_replicas : Endpoint → conn;              (* SENTINEL REPLICAS of the discriminator *)
  r_promote : string → option string;        (* the error of REPLICAOF NO ONE *)
  r_io : pass_io
}.

Inductive rec_cmd : Type := CmdPromote (addr : string) | CmdSurgery (c : surgery_cmd).

(** What the pass threads; the failover latch and state are not changed by it. *)
Record rec_state := { rs_q : crQuorumState; rs_dual : dual_state; rs_surgery : surgery_state }.
Record rec_out := { ro_state : rec_state; ro_events : list event; ro_cmds : list rec_cmd }.

Definition put_q (q : crQuorumState) (o : rec_out) : rec_out :=
  {| ro_state := {| rs_q := q; rs_dual := rs_dual (ro_state o); rs_surgery := rs_surgery (ro_state o) |};
     ro_events := ro_events o; ro_cmds := ro_cmds o |}.
Definition put_dual (d : dual_state) (o : rec_out) : rec_out :=
  {| ro_state := {| rs_q := rs_q (ro_state o); rs_dual := d; rs_surgery := rs_surgery (ro_state o) |};
     ro_events := ro_events o; ro_cmds := ro_cmds o |}.
Definition put_surgery (m : surgery_state) (o : rec_out) : rec_out :=
  {| ro_state := {| rs_q := rs_q (ro_state o); rs_dual := rs_dual (ro_state o); rs_surgery := m |};
     ro_events := ro_events o; ro_cmds := ro_cmds o |}.
Definition send (c : list rec_cmd) (o : rec_out) : rec_out :=
  {| ro_state := ro_state o; ro_events := ro_events o; ro_cmds := ro_cmds o ++ c |}.
Definition emit (e : list event) (o : rec_out) : rec_out :=
  {| ro_state := ro_state o; ro_events := ro_events o ++ e; ro_cmds := ro_cmds o |}.

(** ** The election of a replica *)
Fixpoint lineage_walk (live : gset string) (lineageHost : string) (l : list surveyedPod) : bool :=
  match l with
  | [] => true
  | r :: l =>
      let st := sp_state r in
      if LinkUp st then false
      else if bool_decide (MasterHost st = "") then false
      else if bool_decide (MasterHost st ∈ live) then false
      else if negb (bool_decide (lineageHost = "")) && negb (bool_decide (MasterHost st = lineageHost)) then false
      else lineage_walk live (MasterHost st) l
  end.

Definition promotionSurveyAdmits (s : option valkeyPodSurvey) (endpoints : list Endpoint) : bool :=
  match s with
  | None => false
  | Some s =>
      if negb (dialed s) || (0 <? dialFailures s) || (0 <? pendingPods s) then false
      else if negb (len (sv_masters s) =? 0) || (len (sv_replicas s) =? 0) || (len endpoints =? 0) then false
      else lineage_walk (livePodIPs s) "" (sv_replicas s)
  end.

Definition promotionPodViewConfirmed (reader : result (list Pod)) (s : valkeyPodSurvey) : bool :=
  match reader with
  | Err _ => false
  | Ok pods =>
      (len pods =? Z.of_nat (size (livePodIPs s))) &&
      forallb (λ p, negb (bool_decide (pod_IP p = "")) && bool_decide (pod_IP p ∈ livePodIPs s)) pods
  end.

(** The better of two replicas that report an offset. *)
Definition candidate_less (a b : surveyedPod) : bool :=
  (SlaveReplOffset (sp_state b) <? SlaveReplOffset (sp_state a)) ||
  ((SlaveReplOffset (sp_state a) =? SlaveReplOffset (sp_state b)) && String.ltb (sp_name a) (sp_name b)).
Definition choose_step (best : option surveyedPod) (r : surveyedPod) : option surveyedPod :=
  if negb (HaveSlaveOffset (sp_state r)) then best
  else match best with
  | None => Some r
  | Some b => if candidate_less r b then Some r else Some b
  end.
(** The chosen replica; [None] for index -1. *)
Definition choosePromotionCandidate (replicas : list surveyedPod) : option surveyedPod :=
  foldl choose_step None replicas.

(** [fmt]'s [%v] of a string slice. *)
Definition fmt_strings (l : list string) : string := "[" +:+ Join l " " +:+ "]".

Definition joinSortedTargets (targets : list string) : string := Join (sort_strings targets) ",".
Definition auditSentinelReset (targets : list string) (reason : string) : event :=
  AuditEvent "sentinel_reset_issued" [("targets", joinSortedTargets targets); ("reason", reason)].

Section recovery.
Context {R : MapRange}.
Context (recorder : bool) (spec : option SentinelSpec) (crKey : observerKey) (password : string).
(** The failover latch and the last derived state of the CR. *)
Context (percr : perCRState).

Definition ev (warning : bool) (reason action note : string) : list event :=
  if recorder then [CREvent warning reason action note] else [].

Definition in_flight (i : recovery_in) (s : site) : bool := IsFailoverInFlight (r_snap i s) (r_now i s) percr.
Definition suppressed (o : rec_out) : bool := suppressionActive (q_gate (rs_q (ro_state o))).

Definition survey_detail (m : surveyedPod) : string :=
  sp_name m +:+ "(" +:+
  (if HaveMasterOffset (sp_state m) then "master_repl_offset=" +:+ Itoa (MasterReplOffset (sp_state m))
   else "master_repl_offset=unknown") +:+ ")".

Definition observeDualMasterFromSurvey (i : recovery_in) (at_ : site) (survey : option valkeyPodSurvey)
    (o : rec_out) : rec_out :=
  match survey with
  | None => o
  | Some s =>
      if negb (dialed s) then o
      else if len (sv_masters s) <? 2 then
        if (dialFailures s =? 0) && (pendingPods s =? 0)
        then put_dual (clearDualMasterObserved (rs_dual (ro_state o))) o else o
      else
        let pods := sp_name <$> sv_masters s in
        let d := stampDualMasterObserved pods (r_now i at_) (rs_dual (ro_state o)) in
        if in_flight i at_ then put_dual d o
        else
          let '(sig, d) := foldDualMasterEventUnion pods d in
          let '(fire, d) := fireDualMasterObservedEdge sig d in
          let o := put_dual d o in
          if fire then
            emit (ev true "DualMasterObserved" "DualMasterObserve"
              ("pods " +:+ Join (sort_strings (survey_detail <$> sv_masters s)) ", " +:+
               " all self-report role:master with no operator failover in flight — active data divergence; no demotion is admitted without a fencing epoch, so the split persists until resolved manually or a failover section opens")) o
          else o
  end.

Definition issueRecoveryPromotion (i : recovery_in) (chosen : surveyedPod) (quorumEvidence : string)
    (o : rec_out) : rec_out :=
  let addr := JoinHostPort (sp_ip chosen) (Itoa DefaultPort) in
  let o := send [CmdPromote addr] o in
  match r_promote i addr with
  | Some e =>
      emit (ev true "RecoveryPromotionFailed" "RecoveryPromotionFailed"
              ("REPLICAOF NO ONE on " +:+ sp_name chosen +:+ " failed: " +:+ e)) o
  | None =>
      emit (ev true "RecoveryPromotionInitiated" "RecoveryPromotionInitiated"
              ("zero live masters (" +:+ quorumEvidence +:+ "): promoted " +:+ sp_name chosen +:+
               " (applied offset " +:+ Itoa (SlaveReplOffset (sp_state chosen)) +:+
               ") via REPLICAOF NO ONE; sentinels re-point next pass")) o
  end.

Definition promotion_cooling (i : recovery_in) (s : site) (o : rec_out) : bool :=
  Sub (r_now i s) (recoveryPromotionLastFired (rs_q (ro_state o))) <? recoveryPromotionCooldown.

Definition maybeRecoveryPromote (i : recovery_in) (survey : option valkeyPodSurvey)
    (endpoints : list Endpoint) (o : rec_out) : rec_out :=
  match spec with
  | None => o
  | Some sen =>
  if bool_decide (sen_MasterName sen = "") then o
  else if negb (promotionSurveyAdmits survey endpoints) then o
  else match survey, r_snap i SitePromote with
  | Some s, Some snap =>
      if negb (Present snap) then o
      else
        let snapIP := freshSnapshotPrimaryIP snap (r_now i SitePromote) in
        if negb (bool_decide (snapIP = "")) && bool_decide (snapIP ∈ livePodIPs s) then o
        else if in_flight i SiteInFlight then o
        else if promotion_cooling i SiteCooldown o then o
        else match choosePromotionCandidate (sv_replicas s) with
        | None => o
        | Some best =>
            if negb (QuorumElectionDoomed password (r_replicas i) endpoints (livePodIPs s)) then o
            else if negb (promotionPodViewConfirmed (r_readerList i) s) then o
            else if promotion_cooling i SiteCooldown2 o then o
            else
              let q := rs_q (ro_state o) in
              let o := put_q (put_recovery (r_now i SiteStamp) (recoveryDetectionLastProbed q) q) o in
              issueRecoveryPromotion i best
                (if bool_decide (snapIP = "") then "no quorum-agreed primary address"
                 else "quorum-named dead address " +:+ snapIP) o
        end
  | _, _ => o
  end
  end.

Definition maybeRecoveryPromoteOnQuorumLoss (i : recovery_in) (survey : option valkeyPodSurvey)
    (endpoints : list Endpoint) (o : rec_out) : rec_out :=
  if negb (suppressed o) then o
  else
    let q := rs_q (ro_state o) in
    if Sub (r_now i SiteDetect) (recoveryDetectionLastProbed q) <? recoveryDetectionCooldown then o
    else
      let o := put_q (put_recovery (recoveryPromotionLastFired q) (r_now i SiteDetect) q) o in
      if match survey with Some s => dialed s | None => false end
      then maybeRecoveryPromote i survey endpoints o
      else match r_forcedList i with
      | Err _ => o
      | Ok pods =>
          let s := Some (dialValkeySurvey (r_forcedSweep i) pods (newSurveyFromPods pods)) in
          maybeRecoveryPromote i s endpoints (observeDualMasterFromSurvey i SiteForced s o)
      end.

(** ** Who is the master *)
Definition masterInfoSamePassReuseWindow : Duration := 15 * Second.

(** Step 1: the address of the first labelled pod, if it is confirmed. *)
Definition labelled_primary (i : recovery_in) (m : masterInfo) (pods : list Pod) : option string :=
  let probeFresh := negb (IsZero (masterInfoObservedAt m)) &&
    (Sub (r_now i SiteProbeAge) (masterInfoObservedAt m) <? masterInfoSamePassReuseWindow) in
  match List.find (λ p, isPrimary p && negb (bool_decide (pod_IP p = ""))) pods with
  | None => None
  | Some p =>
      if probeFresh then
        if bool_decide (masterInfoTimeoutSince m = None) && negb (masterInfoRoleDisclaimed m)
        then Some (pod_IP p) else None
      else match r_confirm i (dial_addr p) with
      | None => None
      | Some st => if roleDisclaimsMastership (Role st) then None else Some (pod_IP p)
      end
  end.

Definition snapshot_primary (i : recovery_in) (live : gset string) : option string :=
  match r_snap i SiteResolve with
  | None => None
  | Some snap =>
      let ip := freshSnapshotPrimaryIP snap (r_now i SiteResolve) in
      if negb (bool_decide (ip = "")) && bool_decide (ip ∈ live) then Some ip else None
  end.

Definition observedMasterIPForCR (i : recovery_in) (q : crQuorumState) : string * option valkeyPodSurvey :=
  match r_list i with
  | Err _ => ("", None)
  | Ok pods =>
      let survey := newSurveyFromPods pods in
      match labelled_primary i (q_master q) pods with
      | Some ip => (ip, Some survey)
      | None =>
          match snapshot_primary i (livePodIPs survey) with
          | Some ip => (ip, Some survey)
          | None =>
              let survey := dialValkeySurvey (r_sweep i) pods survey in
              match sv_masters survey with
              | [m] => (sp_ip m, Some survey)
              | _ => ("", Some survey)
              end
          end
      end
  end.

(** ** The dispatcher *)
Definition sentinelNamesToAddrs (names : list string) (addrByName : gmap string string) : list string :=
  omap (λ n, addrByName !! n) names.

Definition addr_by_name (endpoints : list Endpoint) : gmap string string :=
  foldl (λ m ep, <[Name ep := ep_Addr ep]> m) ∅ endpoints.

Definition stamp_probe (now : Time) (t : strandedTracker) : strandedTracker :=
  {| strandedRecoveryLastFired := now; strandedNoProgress := strandedNoProgress t;
     strandedLinkupStuck := strandedLinkupStuck t; strandedLinkupStuckAt := strandedLinkupStuckAt t;
     strandedLinkupStuckEdge := strandedLinkupStuckEdge t |}.

Definition surgery_events (out : StrandedRecoveryResult) (masterIP : string) : list event :=
  (if 0 <? len (Stranded out) then
     ev false "SentinelStrandedRecovery" "SentinelStrandedRecovery"
       ("stranded sentinel(s) " +:+ fmt_strings (Stranded out) +:+ " detected; fired REMOVE + MONITOR (masterIP=" +:+
        masterIP +:+ ")") ++ [auditSentinelReset (Stranded out) "degraded"] else []) ++
  (if 0 <? len (Repointed out) then
     ev true "SentinelDeadMasterRepoint" "SentinelDeadMasterRepoint"
       ("sentinel(s) " +:+ fmt_strings (Repointed out) +:+
        " were monitoring a master address matching no live pod; re-pointed at " +:+ masterIP +:+
        " via REMOVE + MONITOR") ++ [auditSentinelReset (Repointed out) "dead-master-repoint"] else []) ++
  (if 0 <? len (StaleEpochRepointed out) then
     ev true "SentinelStaleEpochRepoint" "SentinelStaleEpochRepoint"
       ("sentinel(s) " +:+ fmt_strings (StaleEpochRepointed out) +:+
        " were monitoring a live pod behind the config-epoch frontier; re-pointed at " +:+ masterIP +:+
        " via REMOVE + MONITOR") ++ [auditSentinelReset (StaleEpochRepointed out) "stale-epoch-repoint"] else []).

Definition linkup_note (stuck : list string) (backoff : Z) : string :=
  "sentinel(s) at " +:+ fmt_strings stuck +:+ " still report an empty peer-list after " +:+
  Itoa strandedSurgeryStuckThreshold +:+
  " consecutive REMOVE + MONITOR surgeries; gossip cannot rebuild (auth failure verifying, or a NetworkPolicy blocking __sentinel__:hello). Backing off surgery (level " +:+
  Itoa backoff +:+ "); manual intervention is likely required.".

Definition applyStrandedRecoveryOutcome (i : recovery_in) (out : StrandedRecoveryResult)
    (endpoints : list Endpoint) (masterIP : string) (o : rec_out) : rec_out :=
  let now := r_now i SiteOutcome in
  let q := rs_q (ro_state o) in
  let t := if Probed out then stamp_probe now (q_stranded q) else q_stranded q in
  if Healthy out then put_q (put_stranded (clearStrandedLinkupStuck t) q) o
  else if (len (Stranded out) =? 0) && (len (Repointed out) =? 0) && (len (SkippedStranded out) =? 0) &&
          (len (StaleEpochRepointed out) =? 0) then put_q (put_stranded t q) o
  else
    let addrs := addr_by_name endpoints in
    let '(stuck, fireStuck, backoff, t) :=
      detectStrandedPeerLinkupStuck (sentinelNamesToAddrs (EmptyPeerStranded out) addrs)
        (sentinelNamesToAddrs (SkippedStranded out) addrs) (sentinelNamesToAddrs (AuthFailures out) addrs) now t in
    let o := put_q (put_stranded t q) o in
    let o := if fireStuck then
               emit (ev true "SentinelPeerLinkupStuck" "SentinelPeerLinkupStuck" (linkup_note stuck backoff) ++
                     [auditSentinelReset stuck "linkup-stuck"]) o
             else o in
    emit (surgery_events out masterIP) o.

Definition shouldBypassQuorumDeferral (i : recovery_in) (o : rec_out) : bool :=
  suppressed o && negb (in_flight i SiteBypass).

Definition surgery_target (i : recovery_in) (sen : SentinelSpec) (endpoints : list Endpoint)
    (masterIP : string) (survey : option valkeyPodSurvey) (skip : gset string) : InitialResetTarget :=
  let snap := default snapshot_zero (r_snap i SiteGhost) in
  let allow := ghostReapAllowed snap (FailoverTimeout (sen_Tuning sen)) (r_now i SiteGhost) in
  {| Surgery.CR := crKey; t_MasterName := sen_MasterName sen; Endpoints := endpoints; Password := password;
     MasterIP := masterIP; Port := DefaultPort; t_Quorum := sen_Quorum sen; Tuning := sen_Tuning sen;
     AllowGhostReap := allow;
     LiveValkeyIPs := if repointClassArmed snap (liveValkeyIPs survey) then liveValkeyIPs survey else ∅;
     AllowStaleEpochRepoint := allow; SkipStrandedAddrs := skip |}.

Definition detectAndRecoverStrandedSentinels (i : recovery_in) (endpoints : list Endpoint) (o : rec_out) :
    rec_out :=
  match spec with
  | None => o
  | Some sen =>
      if bool_decide (sen_MasterName sen = "") || (len endpoints =? 0) then o
      else
        let '(masterIP, survey) := observedMasterIPForCR i (rs_q (ro_state o)) in
        let o := observeDualMasterFromSurvey i SiteSurvey survey o in
        if bool_decide (masterIP = "") then maybeRecoveryPromote i survey endpoints o
        else
          let o := maybeRecoveryPromoteOnQuorumLoss i survey endpoints o in
          let t := q_stranded (rs_q (ro_state o)) in
          if strandedProbeCoolingDown (r_now i SiteProbe) t then o
          else
            let target := surgery_target i sen endpoints masterIP survey
                            (strandedSkipSet (r_now i SiteSkip) t) in
            let '(m, out, trace) :=
              RecoverStrandedSentinels (rs_surgery (ro_state o)) (r_now i SiteSurgery) target
                (shouldBypassQuorumDeferral i o) (r_io i) in
            let o := send (CmdSurgery <$> trace) (put_surgery m o) in
            applyStrandedRecoveryOutcome i out endpoints masterIP o
  end.

(** ** The probe of the labelled primary *)
Definition observeMasterInfoTimeout (check : string → option LagState) (now : Time) (pods : list Pod)
    (q : crQuorumState) : Duration * crQuorumState :=
  let set_disclaimed b m :=
    {| masterInfoTimeoutSince := masterInfoTimeoutSince m; masterInfoObservedAt := masterInfoObservedAt m;
       masterInfoRoleDisclaimed := b |} in
  match List.find (λ p, isPrimary p && negb (bool_decide (pod_IP p = ""))) pods with
  | None =>
      let '(_, m) := tracker_observeMasterInfoTimeout true now (q_master q) in
      (0, put_master (set_disclaimed false m) q)
  | Some p =>
      let probe := check (dial_addr p) in
      let '(d, m) := tracker_observeMasterInfoTimeout (bool_decide (is_Some probe)) now (q_master q) in
      let disclaimed := match probe with Some st => roleDisclaimsMastership (Role st) | None => false end in
      (d, put_master (set_disclaimed disclaimed m) q)
  end.

(** ** Topology *)
Record topo_scan := { ts_newest : Time; ts_valid : Z; ts_minSentinels : Z; ts_maxReplicas : Z }.
Definition topo_scan_step (a : topo_scan) (ob : EndpointObservation) : topo_scan :=
  let newest := if After (eo_At ob) (ts_newest a) then eo_At ob else ts_newest a in
  if negb (eo_CountsValid ob) then
    {| ts_newest := newest; ts_valid := ts_valid a; ts_minSentinels := ts_minSentinels a;
       ts_maxReplicas := ts_maxReplicas a |}
  else if ts_valid a =? 0 then
    {| ts_newest := newest; ts_valid := ts_valid a + 1; ts_minSentinels := eo_KnownSentinels ob;
       ts_maxReplicas := eo_KnownReplicas ob |}
  else
    {| ts_newest := newest; ts_valid := ts_valid a + 1;
       ts_minSentinels := if eo_KnownSentinels ob <? ts_minSentinels a then eo_KnownSentinels ob
                          else ts_minSentinels a;
       ts_maxReplicas := if ts_maxReplicas a <? eo_KnownReplicas ob then eo_KnownReplicas ob
                         else ts_maxReplicas a |}.

Definition topology_eligible (st : State) (inFlight supp : bool) (endpoints : list Endpoint)
    (sen : SentinelSpec) (now : Time) (a : topo_scan) : bool :=
  negb (valkeyRollActive st) && negb inFlight && negb supp &&
  (len endpoints =? sen_Replicas sen) &&
  (negb (IsZero (ts_newest a)) && (Sub now (ts_newest a) <=? topologyObservationFreshnessWindow)) &&
  (1 <=? ts_valid a).

Definition observeSentinelTopology (st : State) (sen : SentinelSpec) (valkeyReplicas : Z)
    (obs : list EndpointObservation) (inFlight : bool) (now : Time) (endpoints : list Endpoint)
    (valkeyPods : list Pod) (q : crQuorumState) : crQuorumState * list event :=
  let a := foldl topo_scan_step
             {| ts_newest := zero_time; ts_valid := 0; ts_minSentinels := 0; ts_maxReplicas := 0 |} obs in
  let base := topology_eligible st inFlight (suppressionActive (q_gate q)) endpoints sen now a in
  let expS := sen_Replicas sen - 1 in
  let '(sentEligible, sDef) :=
    if 1 <=? expS then (base, Z.max 0 (expS - ts_minSentinels a)) else (false, 0) in
  let expR := valkeyReplicas - 1 in
  let '(replEligible, rDef) :=
    if 1 <=? expR
    then (base && (Z.of_nat (count podReady valkeyPods) =? valkeyReplicas), Z.max 0 (expR - ts_maxReplicas a))
    else (false, 0) in
  let '(sentFire, replFire, t) := foldTopologyMismatch sentEligible sDef replEligible rDef now (q_topology q) in
  if sentFire || replFire then
    let '((act, aS, aR), t) := topologyMismatchActiveOrExpire now t in
    (put_topology t q,
     if act then ev true "SentinelTopologyMismatch" "SentinelTopologyMismatch"
                   ("sentinel topology below spec: " +:+ SentinelTopologyDetail aS aR) else [])
  else (put_topology t q, []).
End recovery.

(** ** Lemmas: the survey *)
Definition has_addr (p : Pod) : bool := negb (bool_decide (pod_IP p = "")).
Definition survey_of (check : string → option LagState) (p : Pod) : option surveyedPod :=
  if has_addr p then (λ st, {| sp_name := pod_Name p; sp_ip := pod_IP p; sp_state := st |}) <$> check (dial_addr p)
  else None.
Definition is_master (sp : surveyedPod) : bool := bool_decide (Role (sp_state sp) = RoleMaster).
Definition unanswered (check : string → option LagState) (p : Pod) : bool :=
  has_addr p && bool_decide (check (dial_addr p) = None).

Lemma survey_fold pods s :
  let r := foldl survey_pod s pods in
  (∀ ip, ip ∈ livePodIPs r ↔ ip ∈ livePodIPs s ∨ (ip ≠ "" ∧ ∃ p, p ∈ pods ∧ pod_IP p = ip)) ∧
  pendingPods r = pendingPods s + Z.of_nat (count (λ p, negb (has_addr p)) pods) ∧
  dialed r = dialed s ∧ sv_masters r = sv_masters s ∧ sv_replicas r = sv_replicas s ∧
  dialFailures r = dialFailures s.
Proof.
  revert s. induction pods as [|p pods IH]; intros s; simpl.
  - split_and!; try done; [|lia]. intros ip. set_solver.
  - destruct (IH (survey_pod s p)) as (H1 & H2 & H3 & H4 & H5 & H6).
    assert (Hs : (∀ ip, ip ∈ livePodIPs (survey_pod s p) ↔ ip ∈ livePodIPs s ∨ (ip ≠ "" ∧ pod_IP p = ip)) ∧
      pendingPods (survey_pod s p) = pendingPods s + (if has_addr p then 0 else 1) ∧
      dialed (survey_pod s p) = dialed s ∧ sv_masters (survey_pod s p) = sv_masters s ∧
      sv_replicas (survey_pod s p) = sv_replicas s ∧ dialFailures (survey_pod s p) = dialFailures s).
    { unfold survey_pod, has_addr. case_bool_decide; simpl; split_and!; try done; try lia; set_solver. }
    destruct Hs as (G1 & G2 & G3 & G4 & G5 & G6). split_and!; try congruence.
    + intros ip. rewrite H1, G1. setoid_rewrite elem_of_cons. naive_solver.
    + rewrite H2, G2. destruct (has_addr p); simpl; lia.
Qed.

Lemma dial_fold check pods s :
  let r := foldl (dial_pod check) s pods in
  livePodIPs r = livePodIPs s ∧ pendingPods r = pendingPods s ∧ dialed r = dialed s ∧
  sv_masters r = sv_masters s ++ filter is_master (omap (survey_of check) pods) ∧
  sv_replicas r = sv_replicas s ++ filter (λ sp, negb (is_master sp)) (omap (survey_of check) pods) ∧
  dialFailures r = dialFailures s + Z.of_nat (count (unanswered check) pods).
Proof.
  revert s. induction pods as [|p pods IH]; intros s; cbn [foldl].
  - simpl. rewrite !app_nil_r, Z.add_0_r. done.
  - destruct (IH (dial_pod check s p)) as (-> & -> & -> & -> & -> & ->). clear IH.
    unfold dial_pod, unanswered. cbn [count].
    change (omap (survey_of check) (p :: pods)) with
      (match survey_of check p with Some y => y :: omap (survey_of check) pods | None => omap (survey_of check) pods end).
    destruct (survey_of check p) as [sp|] eqn:Es; revert Es; unfold survey_of, has_addr;
      case_bool_decide; cbn [negb andb]; try done;
      destruct (check (dial_addr p)) as [st|]; cbn [fmap option_fmap option_map]; try done.
    + intros [= <-]. rewrite !filter_cons. unfold is_master. cbn [sp_state].
      case_bool_decide; cbn; rewrite <- ?app_assoc; done.
    + intros _. cbn. split_and!; try done. lia.
Qed.

Lemma full_survey check pods :
  let s := dialValkeySurvey check pods (newSurveyFromPods pods) in
  (∀ ip, ip ∈ livePodIPs s ↔ ip ≠ "" ∧ ∃ p, p ∈ pods ∧ pod_IP p = ip) ∧
  pendingPods s = Z.of_nat (count (λ p, negb (has_addr p)) pods) ∧ dialed s = true ∧
  sv_masters s = filter is_master (omap (survey_of check) pods) ∧
  sv_replicas s = filter (λ sp, negb (is_master sp)) (omap (survey_of check) pods) ∧
  dialFailures s = Z.of_nat (count (unanswered check) pods).
Proof.
  destruct (survey_fold pods survey_zero) as (H1 & H2 & H3 & H4 & H5 & H6).
  fold (newSurveyFromPods pods) in *.
  destruct (dial_fold check pods
    {| livePodIPs := livePodIPs (newSurveyFromPods pods); pendingPods := pendingPods (newSurveyFromPods pods);
       dialed := true; sv_masters := sv_masters (newSurveyFromPods pods);
       sv_replicas := sv_replicas (newSurveyFromPods pods);
       dialFailures := dialFailures (newSurveyFromPods pods) |}) as (G1 & G2 & G3 & G4 & G5 & G6).
  unfold dialValkeySurvey. cbv zeta. rewrite G1, G2, G3, G4, G5, G6. cbn [livePodIPs pendingPods dialed sv_masters sv_replicas dialFailures].
  rewrite H2, H4, H5, H6. cbn. split_and!; try done. intros ip. rewrite H1. cbn. set_solver.
Qed.

Lemma count_zero {A} (f : A → bool) (l : list A) x : count f l = 0%nat → x ∈ l → f x = false.
Proof.
  intros Hc Hx. destruct (f x) eqn:E; [|done]. exfalso. revert Hc. induction Hx as [x l|x y l Hx IH]; simpl.
  - rewrite E. lia.
  - destruct (f y); [lia|auto].
Qed.

Lemma lineage_walk_spec live h l :
  lineage_walk live h l = true →
  ∀ r, r ∈ l → LinkUp (sp_state r) = false ∧ MasterHost (sp_state r) ≠ "" ∧ (MasterHost (sp_state r) ∉ live) ∧
    (h ≠ "" → MasterHost (sp_state r) = h) ∧
    (∀ r', r' ∈ l → MasterHost (sp_state r') = MasterHost (sp_state r)).
Proof.
  revert h. induction l as [|x l IH]; intros h Hw r Hr; [inversion Hr|]. simpl in Hw.
  destruct (LinkUp (sp_state x)) eqn:E1; [done|]. case_bool_decide as E2; [done|].
  case_bool_decide as E3; [done|]. destruct (_ && _) eqn:E4; [done|].
  assert (Hh : h ≠ "" → MasterHost (sp_state x) = h).
  { intros Hne. rewrite bool_decide_eq_false_2 in E4 by done. revert E4. by case_bool_decide. }
  assert (Hall : ∀ y, y ∈ x :: l → MasterHost (sp_state y) = MasterHost (sp_state x)).
  { intros y [->|Hy]%elem_of_cons; [done|]. destruct (IH _ Hw y Hy) as (_ & _ & _ & H & _). by apply H. }
  apply elem_of_cons in Hr as [->|Hr]; [split_and!; by auto|].
  destruct (IH _ Hw r Hr) as (G1 & G2 & G3 & G4 & G5). split_and!; try done.
  - intros Hne. rewrite (Hall r) by set_solver. auto.
  - intros y Hy. rewrite (Hall y Hy). symmetry. apply Hall. set_solver.
Qed.

Definition ranked (r : surveyedPod) : Prop := HaveSlaveOffset (sp_state r) = true.

Lemma choose_fold l best :
  (∀ b, best = Some b → ranked b) →
  match foldl choose_step best l with
  | Some b => (best = Some b ∨ b ∈ l) ∧ ranked b ∧
              (∀ r, best = Some r ∨ r ∈ l → ranked r → SlaveReplOffset (sp_state r) <= SlaveReplOffset (sp_state b))
  | None => best = None ∧ ∀ r, r ∈ l → ¬ ranked r
  end.
Proof.
  revert best. induction l as [|x l IH]; intros best Hb; simpl.
  - destruct best as [b|]; [|set_solver]. split_and!; auto. intros r [[= <-]|Hr]; [lia|inversion Hr].
  - assert (Hx : ∀ b, choose_step best x = Some b → ranked b).
    { intros b. unfold choose_step. destruct (HaveSlaveOffset (sp_state x)) eqn:E; simpl; [|apply Hb].
      destruct best as [b'|]; [case_match; intros [= <-]; [done|by apply Hb]|by intros [= <-]]. }
    specialize (IH (choose_step best x) Hx). unfold ranked in *.
    destruct (foldl choose_step (choose_step best x) l) as [b|].
    + destruct IH as (Hin & Hrb & Hmax).
      assert (Hstep : ∀ r, best = Some r ∨ r = x → HaveSlaveOffset (sp_state r) = true →
                SlaveReplOffset (sp_state r) <= SlaveReplOffset (sp_state b)).
      { intros r Hr Hh. destruct best as [b'|].
        - assert (Hb' : HaveSlaveOffset (sp_state b') = true) by (by apply Hb).
          unfold choose_step in Hmax. destruct (HaveSlaveOffset (sp_state x)) eqn:Ex; simpl in Hmax.
          + destruct (candidate_less x b') eqn:Ec; pose proof (Hmax _ (or_introl eq_refl)) as Hm;
              unfold candidate_less in Ec; destruct Hr as [[= <-]| ->]; try (by apply Hm);
              specialize (Hm ltac:(done)).
            * apply orb_prop in Ec as [Ec|Ec]; [apply Z.ltb_lt in Ec; lia|].
              apply andb_prop in Ec as [Ec _]. apply Z.eqb_eq in Ec. lia.
            * apply orb_false_elim in Ec as [Ec _]. apply Z.ltb_ge in Ec. lia.
          + destruct Hr as [[= <-]| ->]; [|congruence]. by apply Hmax; [left|].
        - destruct Hr as [?| ->]; [done|]. apply Hmax; [|done]. left. unfold choose_step. by rewrite Hh. }
      split_and!; [|done|].
      * destruct Hin as [Hin|Hin]; [|set_solver]. unfold choose_step in Hin.
        destruct (HaveSlaveOffset (sp_state x)); simpl in Hin; [|by left].
        destruct best as [b'|]; [|set_solver]. destruct (candidate_less x b'); set_solver.
      * intros r [Hr|[->|Hr]%elem_of_cons] Hh; [apply Hstep; auto|apply Hstep; auto|apply Hmax; auto].
    + destruct IH as [Hn Hall]. unfold choose_step in Hn.
      destruct (HaveSlaveOffset (sp_state x)) eqn:Ex; simpl in Hn; [by destruct best; [case_match|]|].
      split; [done|]. intros r [->|Hr]%elem_of_cons; [congruence|auto].
Qed.

Lemma choosePromotionCandidate_best l b :
  choosePromotionCandidate l = Some b →
  b ∈ l ∧ ranked b ∧ ∀ r, r ∈ l → ranked r → SlaveReplOffset (sp_state r) <= SlaveReplOffset (sp_state b).
Proof.
  intros H. pose proof (choose_fold l None ltac:(done)) as Hf. unfold choosePromotionCandidate in H.
  rewrite H in Hf. destruct Hf as ([?|Hin] & Hr & Hmax); [done|]. auto.
Qed.

(** ** Lemmas: when a promotion is sent *)
Section promotion.
Context {R : MapRange}.
Context (recorder : bool) (spec : option SentinelSpec) (crKey : observerKey) (password : string).
Context (percr : perCRState) (i : recovery_in).

(** What held of the survey [s] when [best] was promoted. *)
Record survey_evidence (endpoints : list Endpoint) (last : Time) (s : valkeyPodSurvey) (best : surveyedPod) : Prop := {
  se_admits : promotionSurveyAdmits (Some s) endpoints = true;
  se_best : choosePromotionCandidate (sv_replicas s) = Some best;
  se_snap : ∃ snap, r_snap i SitePromote = Some snap ∧ Present snap = true ∧
              (freshSnapshotPrimaryIP snap (r_now i SitePromote) = "" ∨
               freshSnapshotPrimaryIP snap (r_now i SitePromote) ∉ livePodIPs s);
  se_quiet : in_flight percr i SiteInFlight = false;
  se_doomed : QuorumElectionDoomed password (r_replicas i) endpoints (livePodIPs s) = true;
  se_reader : promotionPodViewConfirmed (r_readerList i) s = true;
  se_pace : recoveryPromotionCooldown <= Sub (r_now i SiteCooldown2) last
}.

Definition fired (o : rec_out) : Time := recoveryPromotionLastFired (rs_q (ro_state o)).

Lemma promote_cases survey endpoints o :
  let o' := maybeRecoveryPromote recorder spec password percr i survey endpoints o in
  o' = o ∨
  ∃ s best, survey = Some s ∧ survey_evidence endpoints (fired o) s best ∧
    ro_cmds o' = ro_cmds o ++ [CmdPromote (JoinHostPort (sp_ip best) (Itoa DefaultPort))] ∧
    fired o' = r_now i SiteStamp ∧ q_stranded (rs_q (ro_state o')) = q_stranded (rs_q (ro_state o)).
Proof.
  unfold maybeRecoveryPromote. cbv zeta. destruct spec as [sen|]; [|by left].
  case_bool_decide; [by left|]. destruct (promotionSurveyAdmits _ _) eqn:Ha; cbn [negb]; [|by left].
  destruct survey as [s|]; [|by left]. destruct (r_snap i SitePromote) as [snap|] eqn:Esn; [|by left].
  destruct (Present snap) eqn:Ep; cbn [negb]; [|by left].
  destruct (_ && _) eqn:El; [by left|]. destruct (in_flight _ _ _) eqn:Ef; [by left|].
  destruct (promotion_cooling i SiteCooldown o); [by left|].
  destruct (choosePromotionCandidate _) as [best|] eqn:Eb; [|by left].
  destruct (QuorumElectionDoomed _ _ _ _) eqn:Ed; cbn [negb]; [|by left].
  destruct (promotionPodViewConfirmed _ _) eqn:Er; cbn [negb]; [|by left].
  destruct (promotion_cooling i SiteCooldown2 o) eqn:Ec; [by left|].
  right. exists s, best. split; [done|]. split.
  - split; try done; [|by apply Z.ltb_ge in Ec]. exists snap. split_and!; [done|done|].
    apply andb_false_iff in El as [El|El]; [left|right].
    + apply negb_false_iff in El. by apply bool_decide_eq_true in El.
    + by apply bool_decide_eq_false in El.
  - unfold issueRecoveryPromotion. destruct (r_promote _ _); cbn; done.
Qed.

(** The commands of the rest of the pass. *)
Lemma observe_dual_cmds at_ survey o :
  let o' := observeDualMasterFromSurvey recorder percr i at_ survey o in
  ro_cmds o' = ro_cmds o ∧ rs_q (ro_state o') = rs_q (ro_state o).
Proof. unfold observeDualMasterFromSurvey, foldDualMasterEventUnion. by repeat case_match. Qed.

Lemma outcome_cmds out endpoints masterIP o :
  let o' := applyStrandedRecoveryOutcome (R := R) recorder i out endpoints masterIP o in
  ro_cmds o' = ro_cmds o ∧ fired o' = fired o.
Proof. unfold applyStrandedRecoveryOutcome. cbv zeta. by repeat case_match. Qed.

Definition no_promote (l : list rec_cmd) : Prop := ∀ addr, CmdPromote addr ∉ l.

Lemma no_promote_surgery trace : no_promote (CmdSurgery <$> trace).
Proof. intros addr (c & ? & _)%list_elem_of_fmap. done. Qed.

(** The promotions among the commands of a pass, in order. *)
Definition promotions (cmds : list rec_cmd) : list string :=
  omap (λ c, match c with CmdPromote a => Some a | _ => None end) cmds.

Lemma promotions_surgery cmds trace : promotions (cmds ++ (CmdSurgery <$> trace)) = promotions cmds.
Proof.
  unfold promotions. rewrite omap_app. replace (omap _ (CmdSurgery <$> trace)) with (@nil string); [apply app_nil_r|].
  induction trace as [|c l IH]; [done|]. exact IH.
Qed.

(** The surgery part of the dispatcher, from the probe gate on. *)
Definition surgery_part (sen : SentinelSpec) (endpoints : list Endpoint) (masterIP : string)
    (survey : option valkeyPodSurvey) (o : rec_out) : rec_out :=
  let t := q_stranded (rs_q (ro_state o)) in
  if strandedProbeCoolingDown (r_now i SiteProbe) t then o
  else
    let target := surgery_target crKey password i sen endpoints masterIP survey
                    (strandedSkipSet (r_now i SiteSkip) t) in
    let '(m, out, trace) :=
      RecoverStrandedSentinels (rs_surgery (ro_state o)) (r_now i SiteSurgery) target
        (shouldBypassQuorumDeferral percr i o) (r_io i) in
    applyStrandedRecoveryOutcome recorder i out endpoints masterIP
      (send (CmdSurgery <$> trace) (put_surgery m o)).

Lemma surgery_part_cmds sen endpoints masterIP survey o :
  let o' := surgery_part sen endpoints masterIP survey o in
  (o' = o ∨ strandedProbeCoolingDown (r_now i SiteProbe) (q_stranded (rs_q (ro_state o))) = false) ∧
  fired o' = fired o ∧
  ∃ trace, ro_cmds o' = ro_cmds o ++ (CmdSurgery <$> trace) ∧
    (trace ≠ [] → ∃ m out, RecoverStrandedSentinels (rs_surgery (ro_state o)) (r_now i SiteSurgery)
       (surgery_target crKey password i sen endpoints masterIP survey
          (strandedSkipSet (r_now i SiteSkip) (q_stranded (rs_q (ro_state o)))))
       (shouldBypassQuorumDeferral percr i o) (r_io i) = (m, out, trace)).
Proof.
  unfold surgery_part. cbv zeta. destruct (strandedProbeCoolingDown _ _) eqn:E.
  { split; [by left|]. split; [done|]. exists []. cbn. rewrite app_nil_r. done. }
  destruct (RecoverStrandedSentinels _ _ _ _ _) as [[m out] trace] eqn:Es.
  destruct (outcome_cmds out endpoints masterIP (send (CmdSurgery <$> trace) (put_surgery m o))) as [Hc Hf].
  cbv zeta in Hc, Hf. split; [by right|]. rewrite Hf, Hc. split; [done|]. exists trace. split; [done|]. eauto.
Qed.

Lemma quorum_loss_cases survey endpoints o :
  let o' := maybeRecoveryPromoteOnQuorumLoss recorder spec password percr i survey endpoints o in
  (ro_cmds o' = ro_cmds o ∨
   ∃ s best, (survey = Some s ∧ dialed s = true ∨
              ∃ pods, r_forcedList i = Ok pods ∧ s = dialValkeySurvey (r_forcedSweep i) pods (newSurveyFromPods pods)) ∧
     survey_evidence endpoints (fired o) s best ∧
     ro_cmds o' = ro_cmds o ++ [CmdPromote (JoinHostPort (sp_ip best) (Itoa DefaultPort))] ∧
     fired o' = r_now i SiteStamp) ∧
  q_stranded (rs_q (ro_state o')) = q_stranded (rs_q (ro_state o)).
Proof.
  unfold maybeRecoveryPromoteOnQuorumLoss. cbv zeta. destruct (negb (suppressed o)); [by split; [left|]|].
  destruct (_ <? _); [by split; [left|]|].
  set (o1 := put_q _ o). destruct (match survey with Some s => dialed s | None => false end) eqn:Ed.
  - destruct (promote_cases survey endpoints o1) as [->|(s & best & -> & Hev & Hc & Hf & Hs)];
      [by split; [left|]|]. split; [|done]. right. exists s, best. auto.
  - destruct (r_forcedList i) as [pods|] eqn:El; [|by split; [left|]].
    set (sv := dialValkeySurvey _ _ _). set (o2 := observeDualMasterFromSurvey _ _ _ _ _ o1).
    destruct (observe_dual_cmds SiteForced (Some sv) o1) as [Hd1 Hd2]. cbv zeta in Hd1, Hd2. fold o2 in Hd1, Hd2.
    destruct (promote_cases (Some sv) endpoints o2) as [->|(s & best & [= <-] & Hev & Hc & Hf & Hs)].
    + rewrite Hd1, Hd2. by split; [left|].
    + rewrite Hc, Hf, Hs, Hd1, Hd2. split; [right|done]. exists sv, best. unfold fired in Hev. rewrite Hd2 in Hev.
      split; [right; eauto|]. split; [exact Hev|done].
Qed.
End promotion.

(** ** Lemmas: resolving the master *)
Lemma find_some_in {A} (f : A → bool) l x : List.find f l = Some x → x ∈ l ∧ f x = true.
Proof. intros H. apply List.find_some in H as [H ?]. by rewrite list_elem_of_In. Qed.

Lemma new_survey_live pods ip :
  ip ∈ livePodIPs (newSurveyFromPods pods) ↔ ip ≠ "" ∧ ∃ p, p ∈ pods ∧ pod_IP p = ip.
Proof. destruct (survey_fold pods survey_zero) as (H & _). unfold newSurveyFromPods. rewrite H. set_solver. Qed.

Lemma new_survey_undialed pods : dialed (newSurveyFromPods pods) = false.
Proof. by destruct (survey_fold pods survey_zero) as (_ & _ & H & _). Qed.

(** Why an address is taken for the master's. *)
Inductive master_evidence (i : recovery_in) (m : masterInfo) (pods : list Pod) (ip : string) : Prop :=
  | EvLabel p : p ∈ pods → isPrimary p = true → pod_IP p = ip →
      (masterInfoTimeoutSince m = None ∧ masterInfoRoleDisclaimed m = false ∧
       Sub (r_now i SiteProbeAge) (masterInfoObservedAt m) < masterInfoSamePassReuseWindow ∨
       ∃ st, r_confirm i (dial_addr p) = Some st ∧ (Role st = "" ∨ Role st = RoleMaster)) →
      master_evidence i m pods ip
  | EvSnapshot snap p : p ∈ pods → pod_IP p = ip → r_snap i SiteResolve = Some snap →
      freshSnapshotPrimaryIP snap (r_now i SiteResolve) = ip → master_evidence i m pods ip
  | EvSweep p st : p ∈ pods → pod_IP p = ip → r_sweep i (dial_addr p) = Some st → Role st = RoleMaster →
      (∀ x st', x ∈ pods → pod_IP x ≠ "" → r_sweep i (dial_addr x) = Some st' → Role st' = RoleMaster →
         pod_IP x = ip) →
      master_evidence i m pods ip.

Lemma roleDisclaims_false role : roleDisclaimsMastership role = false → role = "" ∨ role = RoleMaster.
Proof. unfold roleDisclaimsMastership. repeat case_bool_decide; simpl; intros; auto; done. Qed.

Lemma labelled_primary_evidence i m pods ip :
  labelled_primary i m pods = Some ip → ip ≠ "" ∧ master_evidence i m pods ip.
Proof.
  unfold labelled_primary. destruct (List.find _ _) as [p|] eqn:Ef; [|done].
  apply find_some_in in Ef as [Hp Hlab]. apply andb_prop in Hlab as [Hprim Hip].
  case_bool_decide as Hip'; [done|]. destruct (_ && _) eqn:Efr.
  - destruct (bool_decide _ && _) eqn:E; [|done]. intros [= <-]. split; [done|].
    apply andb_prop in Efr as [_ Efr%Z.ltb_lt]. apply andb_prop in E as [E1 E2].
    apply bool_decide_eq_true in E1. apply negb_true_iff in E2.
    apply EvLabel with p; auto.
  - destruct (r_confirm _ _) as [st|] eqn:Ec; [|done]. destruct (roleDisclaimsMastership _) eqn:Er; [done|].
    intros [= <-]. split; [done|]. apply EvLabel with p; auto. right. exists st. split; [done|].
    by apply roleDisclaims_false.
Qed.

Lemma survey_of_inv check (pods : list Pod) sp :
  sp ∈ omap (survey_of check) pods ↔
  ∃ p st, p ∈ pods ∧ pod_IP p ≠ "" ∧ check (dial_addr p) = Some st ∧
          sp = {| sp_name := pod_Name p; sp_ip := pod_IP p; sp_state := st |}.
Proof.
  rewrite list_elem_of_omap. unfold survey_of, has_addr. split.
  - intros (p & Hp & H). case_bool_decide; [done|]. simpl in H.
    destruct (check (dial_addr p)) as [st|] eqn:E; [|done]. injection H as <-. exists p, st. auto.
  - intros (p & st & Hp & Hne & Hc & ->). exists p. split; [done|]. rewrite bool_decide_eq_false_2 by done.
    simpl. by rewrite Hc.
Qed.

Lemma resolve_evidence i q ip survey :
  observedMasterIPForCR i q = (ip, survey) → ip ≠ "" →
  ∃ pods, r_list i = Ok pods ∧ master_evidence i (q_master q) pods ip.
Proof.
  unfold observedMasterIPForCR. destruct (r_list i) as [pods|]; [|by intros [= <- <-]].
  intros H Hne. exists pods. split; [done|]. revert H. cbv zeta.
  destruct (labelled_primary _ _ _) as [ip1|] eqn:E1.
  { intros [= <- <-]. by apply labelled_primary_evidence in E1 as [_ ?]. }
  destruct (snapshot_primary _ _) as [ip2|] eqn:E2.
  { intros [= <- <-]. revert E2. unfold snapshot_primary. destruct (r_snap i SiteResolve) as [snap|] eqn:Es; [|done].
    destruct (_ && _) eqn:E; [|done]. intros [= <-]. apply andb_prop in E as [_ E].
    apply bool_decide_eq_true, new_survey_live in E as [_ (p & Hp & Hip)]. by apply EvSnapshot with snap p. }
  destruct (full_survey (r_sweep i) pods) as (_ & _ & _ & Hm & _). cbv zeta in Hm. rewrite Hm.
  destruct (filter is_master _) as [|m [|]] eqn:Ef; [by intros [= <- <-]| |by intros [= <- <-]].
  intros [= <- <-]. assert (Hin : m ∈ filter is_master (omap (survey_of (r_sweep i)) pods)) by (rewrite Ef; set_solver).
  apply list_elem_of_filter in Hin as [Hmas (p & st & Hp & Hpne & Hc & ->)%survey_of_inv].
  unfold is_master in Hmas. cbn in Hmas. apply Is_true_true, bool_decide_eq_true in Hmas.
  apply EvSweep with p st; auto. intros x st' Hx Hxne Hxc Hxr.
  assert (Hx' : {| sp_name := pod_Name x; sp_ip := pod_IP x; sp_state := st' |} ∈
             filter is_master (omap (survey_of (r_sweep i)) pods)).
  { apply list_elem_of_filter. split; [by apply Is_true_true, bool_decide_eq_true|]. apply survey_of_inv. eauto 10. }
  rewrite Ef in Hx'. apply list_elem_of_singleton in Hx'. by injection Hx' as _ -> _.
Qed.

Lemma resolve_dialed i q ip s :
  observedMasterIPForCR i q = (ip, Some s) → dialed s = true →
  ∃ pods, r_list i = Ok pods ∧ s = dialValkeySurvey (r_sweep i) pods (newSurveyFromPods pods).
Proof.
  unfold observedMasterIPForCR. destruct (r_list i) as [pods|]; [|done]. cbv zeta. intros H Hd.
  exists pods. split; [done|]. revert H. pose proof (new_survey_undialed pods) as Hu.
  repeat case_match; intros [= <- <-]; congruence.
Qed.

(** An address past the stuck threshold that is not skipped is due. *)
Lemma backoff_elapsed t a rec now :
  strandedNoProgress t !! a = Some rec → strandedSurgeryStuckThreshold <= noProgress rec →
  a ∉ strandedSkipSet now t →
  rewipe_window rec <= Sub now (lastWiped rec) ∧ 2 * strandedRecoveryCooldown <= rewipe_window rec.
Proof.
  intros Hrec Hlev Hns.
  assert (Hl : 1 <= strandedAddrBackoffLevel (noProgress rec) <= 3).
  { unfold strandedAddrBackoffLevel. destruct (Z.ltb_spec (noProgress rec) strandedSurgeryStuckThreshold); [lia|].
    unfold strandedSurgeryStuckThreshold, strandedSurgeryMaxBackoffLevel in *. lia. }
  split.
  - destruct (rewipe_window rec <=? Sub now (lastWiped rec)) eqn:E; [by apply Z.leb_le|]. exfalso. apply Hns.
    apply elem_of_dom. exists rec. apply map_lookup_filter_Some. split; [done|]. cbn. unfold skipped_now.
    rewrite E. destruct (Z.ltb_spec (strandedAddrBackoffLevel (noProgress rec)) 1); [lia|done].
  - unfold rewipe_window. rewrite Z.shiftl_mul_pow2 by lia.
    assert (2 ^ 1 <= 2 ^ strandedAddrBackoffLevel (noProgress rec)) by (apply Z.pow_le_mono_r; lia).
    unfold strandedRecoveryCooldown, Second. lia.
Qed.

(** ** Properties *)
Section dispatcher.
Context {R : MapRange}.
Context (recorder : bool) (spec : option SentinelSpec) (crKey : observerKey) (password : string).
Context (percr : perCRState) (i : recovery_in) (endpoints : list Endpoint).

Abbreviation dispatch := (detectAndRecoverStrandedSentinels recorder spec crKey password percr i endpoints).

(** The dispatcher is the resolution followed by one of the two branches. *)
Lemma dispatch_split o :
  (dispatch o = o) ∨
  ∃ sen ip survey o1, spec = Some sen ∧ observedMasterIPForCR i (rs_q (ro_state o)) = (ip, survey) ∧
    ro_cmds o1 = ro_cmds o ∧ rs_q (ro_state o1) = rs_q (ro_state o) ∧
    (ip = "" ∧ dispatch o = maybeRecoveryPromote recorder spec password percr i survey endpoints o1 ∨
     ip ≠ "" ∧ dispatch o = surgery_part recorder crKey password percr i sen endpoints ip survey
       (maybeRecoveryPromoteOnQuorumLoss recorder spec password percr i survey endpoints o1)).
Proof.
  unfold detectAndRecoverStrandedSentinels. destruct spec as [sen|] eqn:Esp; [|by left].
  destruct (_ || _); [by left|]. destruct (observedMasterIPForCR _ _) as [ip survey] eqn:Er. right.
  destruct (observe_dual_cmds recorder percr i SiteSurvey survey o) as [Hc Hq]. cbv zeta in Hc, Hq.
  exists sen, ip, survey, (observeDualMasterFromSurvey recorder percr i SiteSurvey survey o).
  split_and!; try done. case_bool_decide; [by left|by right].
Qed.

(** Every surgery command of a pass comes from one run of the surgery at the resolved master. *)
Lemma surgery_origin o c :
  ro_cmds o = [] → CmdSurgery c ∈ ro_cmds (dispatch o) →
  ∃ sen ip survey sm bypass m out trace,
    observedMasterIPForCR i (rs_q (ro_state o)) = (ip, survey) ∧ ip ≠ "" ∧
    RecoverStrandedSentinels sm (r_now i SiteSurgery)
      (surgery_target crKey password i sen endpoints ip survey
         (strandedSkipSet (r_now i SiteSkip) (q_stranded (rs_q (ro_state o))))) bypass (r_io i) = (m, out, trace) ∧
    c ∈ trace.
Proof.
  intros Ho Hin. destruct (dispatch_split o) as [E|(sen & ip & survey & o1 & _ & Hres & Hc1 & Hq1 & Hd)].
  { rewrite E, Ho in Hin. inversion Hin. }
  destruct Hd as [[_ Hd]|[Hne Hd]]; rewrite Hd in Hin.
  { destruct (promote_cases recorder spec password percr i survey endpoints o1) as [E|(s & best & _ & _ & Hc & _)].
    - rewrite E, Hc1, Ho in Hin. inversion Hin.
    - rewrite Hc, Hc1, Ho in Hin. by apply list_elem_of_singleton in Hin. }
  destruct (quorum_loss_cases recorder spec password percr i survey endpoints o1) as [Hq Hsame]. cbv zeta in Hq, Hsame.
  set (o2 := maybeRecoveryPromoteOnQuorumLoss _ _ _ _ _ _ _ o1) in *.
  destruct (surgery_part_cmds recorder crKey password percr i sen endpoints ip survey o2)
    as (_ & _ & trace & Hcs & Hrun). cbv zeta in Hcs, Hrun. rewrite Hcs in Hin.
  apply elem_of_app in Hin as [Hin|Hin].
  { destruct Hq as [Hq|(s & best & _ & _ & Hc & _)]; [rewrite Hq, Hc1, Ho in Hin; inversion Hin|].
    rewrite Hc, Hc1, Ho in Hin. by apply list_elem_of_singleton in Hin. }
  apply list_elem_of_fmap in Hin as (c' & [= <-] & Hin).
  destruct Hrun as (m & out & Hrun); [by intros ->; inversion Hin|].
  rewrite Hsame, Hq1 in Hrun. by eexists _, _, _, _, _, _, _, _.
Qed.

(** The evidence a promotion of pod [p] out of [pods] rests on. *)
Record promotion_evidence (last : Time) (pods : list Pod) (check : string → option LagState) (p : Pod) : Prop := {
  pe_masterless x : x ∈ pods → pod_IP x ≠ "" ∧
    ∃ st, check (dial_addr x) = Some st ∧ Role st ≠ RoleMaster ∧ LinkUp st = false;
  pe_lineage : ∃ host, (∀ x, x ∈ pods → pod_IP x ≠ host) ∧
    ∀ x st, x ∈ pods → check (dial_addr x) = Some st → MasterHost st = host;
  pe_candidate : p ∈ pods ∧ ∃ st, check (dial_addr p) = Some st ∧ HaveSlaveOffset st = true ∧
    ∀ x st', x ∈ pods → check (dial_addr x) = Some st' → HaveSlaveOffset st' = true →
      SlaveReplOffset st' <= SlaveReplOffset st;
  pe_election : ∃ live : gset string, (∀ ip, ip ∈ live ↔ ∃ x, x ∈ pods ∧ pod_IP x = ip) ∧
    QuorumElectionDoomed password (r_replicas i) endpoints live = true;
  pe_reader : ∃ l, r_readerList i = Ok l ∧ ∀ y, y ∈ l → ∃ x, x ∈ pods ∧ pod_IP x = pod_IP y;
  pe_quiet : in_flight percr i SiteInFlight = false;
  pe_pace : recoveryPromotionCooldown <= Sub (r_now i SiteCooldown2) last
}.

Lemma evidence_of_survey last pods check best :
  survey_evidence password percr i endpoints last (dialValkeySurvey check pods (newSurveyFromPods pods)) best →
  ∃ p, sp_ip best = pod_IP p ∧ promotion_evidence last pods check p.
Proof.
  intros [Ha Hb _ Hq Hd Hr Hp]. destruct (full_survey check pods) as (Hlive & Hpend & Hdial & Hmas & Hrep & Hfail).
  cbv zeta in Hlive, Hpend, Hmas, Hrep, Hfail. unfold promotionSurveyAdmits in Ha.
  destruct (_ || _) eqn:E1 in Ha; [done|]. destruct (_ || _) eqn:E2 in Ha; [done|].
  apply orb_false_elim in E1 as [E1 E1c%Z.ltb_ge]. apply orb_false_elim in E1 as [_ E1b%Z.ltb_ge].
  apply orb_false_elim in E2 as [E2 _]. apply orb_false_elim in E2 as [E2a _].
  apply negb_false_iff, Z.eqb_eq in E2a. rewrite Hpend in E1c. rewrite Hfail in E1b. rewrite Hmas in E2a.
  assert (Hall : ∀ x, x ∈ pods → pod_IP x ≠ "" ∧ ∃ st, check (dial_addr x) = Some st ∧ Role st ≠ RoleMaster).
  { intros x Hx.
    assert (Hhas : has_addr x = true).
    { pose proof (count_zero (λ p, negb (has_addr p)) pods x ltac:(lia) Hx) as H. by apply negb_false_iff in H. }
    pose proof (count_zero (unanswered check) pods x ltac:(lia) Hx) as Hu. unfold unanswered in Hu. rewrite Hhas in Hu.
    unfold has_addr in Hhas. apply negb_true_iff, bool_decide_eq_false in Hhas. split; [done|].
    destruct (check (dial_addr x)) as [st|] eqn:Ec; [|by rewrite bool_decide_eq_true_2 in Hu].
    exists st. split; [done|]. intros Hr'.
    assert (Hin : {| sp_name := pod_Name x; sp_ip := pod_IP x; sp_state := st |} ∈
               filter is_master (omap (survey_of check) pods)).
    { apply list_elem_of_filter. split; [by apply Is_true_true, bool_decide_eq_true|].
      apply survey_of_inv. eauto 10. }
    destruct (filter is_master _); [inversion Hin|]. unfold len in E2a. simpl in E2a. lia. }
  assert (Hrepl : ∀ sp, sp ∈ sv_replicas (dialValkeySurvey check pods (newSurveyFromPods pods)) ↔
            ∃ p st, p ∈ pods ∧ check (dial_addr p) = Some st ∧
                    sp = {| sp_name := pod_Name p; sp_ip := pod_IP p; sp_state := st |}).
  { intros sp. rewrite Hrep, list_elem_of_filter, survey_of_inv. split.
    - intros [_ (p & st & ? & ? & ? & ?)]. eauto.
    - intros (p & st & Hin & Hc & ->). destruct (Hall p Hin) as (Hne & st' & Hc' & Hnm).
      rewrite Hc in Hc'. injection Hc' as <-. split; [|eauto 10].
      apply Is_true_true, negb_true_iff, bool_decide_eq_false. done. }
  apply choosePromotionCandidate_best in Hb as (Hbin & Hbr & Hmax).
  apply Hrepl in Hbin as (p & st & Hin & Hc & ->). exists p. split; [done|].
  pose proof (lineage_walk_spec _ _ _ Ha) as Hlin.
  split; try done.
  - intros x Hx. destruct (Hall x Hx) as (Hne & st' & Hc' & Hnm). split; [done|]. exists st'.
    split_and!; try done. apply (Hlin {| sp_name := pod_Name x; sp_ip := pod_IP x; sp_state := st' |}), Hrepl. eauto.
  - destruct (Hlin {| sp_name := pod_Name p; sp_ip := pod_IP p; sp_state := st |}) as (_ & Hne & Hnl & _ & Hsame);
      [apply Hrepl; eauto|]. cbn in Hne, Hnl, Hsame. exists (MasterHost st). split.
    + intros x Hx Heq. apply Hnl. rewrite <- Heq. apply Hlive. split; [by apply Hall|eauto].
    + intros x st' Hx Hc'. apply (Hsame {| sp_name := pod_Name x; sp_ip := pod_IP x; sp_state := st' |}), Hrepl. eauto.
  - split; [done|]. exists st. split_and!; try done. intros x st' Hx Hc' Hh.
    apply (Hmax {| sp_name := pod_Name x; sp_ip := pod_IP x; sp_state := st' |}); [apply Hrepl; eauto|done].
  - eexists. split; [|exact Hd]. intros ip. rewrite Hlive. split; [naive_solver|].
    intros (x & Hx & <-). split; [by apply Hall|eauto].
  - unfold promotionPodViewConfirmed in Hr. destruct (r_readerList i) as [l|]; [|done]. exists l. split; [done|].
    apply andb_prop in Hr as [_ Hr]. rewrite forallb_forall in Hr. intros y Hy%list_elem_of_In.
    specialize (Hr y Hy). apply andb_prop in Hr as [_ Hr]. apply bool_decide_eq_true, Hlive in Hr. naive_solver.
Qed.

(** C1: A replica is promoted only when no master exists.  If a pass sends
    REPLICAOF NO ONE, then in one survey of the pass every listed pod had an address
    and answered, none as master and every one with its link down; all of them
    replicate from one host that is no listed pod; the promoted pod has the highest
    applied offset; a quorum of sentinels showed they can elect nobody; the
    uncached re-read found no other pod; no failover was in flight; and the last
    promotion lies at least the cooldown back.  It is the only promotion of the pass,
    and the pass records its time. *)
Theorem promotion_only_without_master o addr :
  ro_cmds o = [] → CmdPromote addr ∈ ro_cmds (dispatch o) →
  ∃ pods check p,
    (r_list i = Ok pods ∧ check = r_sweep i ∨ r_forcedList i = Ok pods ∧ check = r_forcedSweep i) ∧
    addr = dial_addr p ∧ promotion_evidence (fired o) pods check p ∧
    promotions (ro_cmds (dispatch o)) = [addr] ∧ fired (dispatch o) = r_now i SiteStamp.
Proof.
  intros Ho Hin. destruct (dispatch_split o) as [E|(sen & ip & survey & o1 & _ & Hres & Hc1 & Hq1 & Hd)].
  { rewrite E, Ho in Hin. inversion Hin. }
  assert (Hf1 : fired o1 = fired o) by (unfold fired; by rewrite Hq1).
  destruct Hd as [[_ Hd]|[_ Hd]]; rewrite Hd in *; clear Hd.
  - destruct (promote_cases recorder spec password percr i survey endpoints o1) as [E|(s & best & -> & Hev & Hc & Hf & _)].
    { rewrite E, Hc1, Ho in Hin. inversion Hin. }
    rewrite Hf1 in Hev. destruct (resolve_dialed _ _ _ _ Hres) as (pods & Hl & ->).
    { destruct Hev as [Ha _ _ _ _ _ _]. unfold promotionSurveyAdmits in Ha. by destruct (dialed s). }
    destruct (evidence_of_survey _ _ _ _ Hev) as (p & Hip & Hpe).
    rewrite Hc, Hc1, Ho in Hin |- *. apply list_elem_of_singleton in Hin. injection Hin as ->.
    exists pods, (r_sweep i), p. split_and!; auto. unfold dial_addr. by rewrite Hip.
  - destruct (quorum_loss_cases recorder spec password percr i survey endpoints o1) as [Hq _]. cbv zeta in Hq.
    set (o2 := maybeRecoveryPromoteOnQuorumLoss _ _ _ _ _ _ _ o1) in *.
    destruct (surgery_part_cmds recorder crKey password percr i sen endpoints ip survey o2)
      as (_ & Hfs & trace & Hcs & _). cbv zeta in Hfs, Hcs. rewrite Hcs in Hin |- *. rewrite promotions_surgery.
    apply elem_of_app in Hin as [Hin|Hin]; [|by apply no_promote_surgery in Hin].
    destruct Hq as [Hq|(s & best & Hs & Hev & Hc & Hf)]; [rewrite Hq, Hc1, Ho in Hin; inversion Hin|].
    rewrite Hc, Hc1, Ho in Hin |- *. apply list_elem_of_singleton in Hin. injection Hin as ->. rewrite Hf1 in Hev.
    assert (Hsv : ∃ pods check, (r_list i = Ok pods ∧ check = r_sweep i ∨
              r_forcedList i = Ok pods ∧ check = r_forcedSweep i) ∧
              s = dialValkeySurvey check pods (newSurveyFromPods pods)).
    { destruct Hs as [[-> Hdl]|(pods & Hl & ->)]; [|exists pods, (r_forcedSweep i); auto].
      destruct (resolve_dialed _ _ _ _ Hres Hdl) as (pods & Hl & ->). exists pods, (r_sweep i). auto. }
    destruct Hsv as (pods & check & Hor & ->). destruct (evidence_of_survey _ _ _ _ Hev) as (p & Hip & Hpe).
    exists pods, check, p. split_and!; auto; [unfold dial_addr; by rewrite Hip|]. by rewrite Hfs.
Qed.

Lemma monitor_evidence o ep ip port q :
  ro_cmds o = [] → CmdSurgery (CmdMonitor ep ip port q) ∈ ro_cmds (dispatch o) →
  ∃ pods, r_list i = Ok pods ∧ master_evidence i (q_master (rs_q (ro_state o))) pods ip.
Proof.
  intros Ho Hin. destruct (surgery_origin _ _ Ho Hin) as (sen & ip' & survey & sm & bp & m & out & trace & Hres & Hne & Hrun & Hc).
  destruct (recover_fired _ _ _ _ _ _ _ _ _ Hrun Hc) as (_ & _ & _ & _ & _ & m1 & out1 & Htr).
  rewrite Htr in Hc. apply fire_trace in Hc. destruct Hc as [(?&?&?)|[(ep' & Hm & _)|[(?&?&?)|(?&?&?)]]]; try done.
  injection Hm as -> -> _ _. cbn. by apply (resolve_evidence _ _ _ survey).
Qed.

(** Sentinels are only ever pointed at a live master.  Every MONITOR a pass sends
    names the address of a listed pod that is labelled primary and answered without
    disclaiming the role, or is named by a fresh quorum of the sentinels, or is the
    only pod that reports itself master in the sweep. *)
Theorem monitor_targets_live_master o ep ip port q :
  ro_cmds o = [] → CmdSurgery (CmdMonitor ep ip port q) ∈ ro_cmds (dispatch o) →
  ∃ pods, r_list i = Ok pods ∧ master_evidence i (q_master (rs_q (ro_state o))) pods ip.
Proof. apply monitor_evidence. Qed.

(** The back-off of a wedged sentinel is kept end to end.  If a pass removes a
    sentinel whose peer list is empty and the tracker holds a record of it with at
    least three fruitless wipes, then at least the base cooldown doubled once per
    back-off level has passed since its last wipe, whatever the state of the other
    sentinels. *)
Theorem rewipe_backoff_kept o ep rec :
  ro_cmds o = [] → NoDup (Name <$> endpoints) →
  CmdSurgery (CmdRemove ep) ∈ ro_cmds (dispatch o) →
  stranded isNoSuchMasterErr (sentinelsOne password (io_sentinels (r_io i) ep)) = true →
  strandedNoProgress (q_stranded (rs_q (ro_state o))) !! ep_Addr ep = Some rec →
  strandedSurgeryStuckThreshold <= noProgress rec →
  rewipe_window rec <= Sub (r_now i SiteSkip) (lastWiped rec) ∧
  2 * strandedRecoveryCooldown <= rewipe_window rec.
Proof.
  intros Ho Hnd Hin Hst Hrec Hlev.
  destruct (surgery_origin _ _ Ho Hin) as (sen & ip' & survey & sm & bp & m & out & trace & _ & _ & Hrun & Hc).
  apply backoff_elapsed with (t := q_stranded (rs_q (ro_state o))) (a := ep_Addr ep); auto.
  intros Hskip. by eapply skipped_never_removed; [..|exact Hc]; [|exact Hrun|exact Hst|exact Hskip].
Qed.
End dispatcher.

(** ** Witnesses *)
Definition rec_sen : SentinelSpec :=
  {| sen_MasterName := "mymaster"; sen_Replicas := 3; sen_Quorum := 2;
     sen_Tuning := {| DownAfterMilliseconds := 5000; FailoverTimeout := 0; ParallelSyncs := 0 |} |}.
Definition orphan_state (offset : Z) : LagState :=
  {| Role := "slave"; LinkUp := false; LagBytes := 0; MasterReplOffset := 0; HaveMasterOffset := false;
     MasterHost := "10.0.0.9"; SlaveReplOffset := offset; HaveSlaveOffset := true |}.
Definition wedge_check (addr : string) : option LagState :=
  if bool_decide (addr = "10.0.0.1:6379") then Some (orphan_state 100)
  else if bool_decide (addr = "10.0.0.2:6379") then Some (orphan_state 250) else None.
Definition wedge_pods : list Pod := [demo_pod "vk-0" "10.0.0.1" "replica" "r1"; demo_pod "vk-1" "10.0.0.2" "replica" "r1"].

(** Two orphaned replicas, and sentinels that only know the dead pods. *)
Definition wedge_in : recovery_in :=
  {| r_now := λ _, 1000 * Second; r_snap := λ _, Some (demo_snap false "" 1);
     r_list := Ok wedge_pods; r_forcedList := Ok wedge_pods; r_readerList := Ok wedge_pods;
     r_confirm := λ _, None; r_sweep := wedge_check; r_forcedSweep := wedge_check;
     r_replicas := λ _, SurgerySpec.answer (RArr [RArr [RStr "ip"; RStr "10.0.0.8"; RStr "port"; RStr "6379"]]);
     r_promote := λ _, None; r_io := SurgerySpec.demo_io "master" |}.
Definition rec_init (q : crQuorumState) : rec_out :=
  {| ro_state := {| rs_q := q; rs_dual := dual_zero; rs_surgery := demo_state |}; ro_events := []; ro_cmds := [] |}.
Definition wedge_run : rec_out :=
  detectAndRecoverStrandedSentinels (R := range_forward) true (Some rec_sen) ("default", "vk") "" percr_zero
    wedge_in demo_eps (rec_init quorum_zero).

Example wedge_promotes : ro_cmds wedge_run = [CmdPromote "10.0.0.2:6379"].
Proof. vm_compute. reflexivity. Qed.

Lemma promotion_only_without_master_witness :
  ∃ pods check p, dial_addr p = "10.0.0.2:6379" ∧
    promotion_evidence "" percr_zero wedge_in demo_eps zero_time pods check p ∧
    promotions (ro_cmds wedge_run) = ["10.0.0.2:6379"].
Proof.
  destruct (promotion_only_without_master (R := range_forward) true (Some rec_sen) ("default", "vk") "" percr_zero
    wedge_in demo_eps (rec_init quorum_zero) "10.0.0.2:6379") as (pods & check & p & _ & H1 & H2 & H3 & _).
  - reflexivity.
  - vm_compute. left.
  - exists pods, check, p. split_and!; [by symmetry|exact H2|exact H3].
Defined.

(** A labelled primary that answers; sentinel s-3 has lost its peers and was wiped
    three times, last a minute and more ago. *)
Definition healthy_in : recovery_in :=
  {| r_now := λ _, 1000 * Second; r_snap := λ _, Some (demo_snap true "10.0.0.1:6379" 1);
     r_list := Ok [demo_pod "vk-0" "10.0.0.1" "primary" "r1"]; r_forcedList := Err "unused";
     r_readerList := Err "unused"; r_confirm := λ _, Some {| Role := "master"; LinkUp := false; LagBytes := 0;
       MasterReplOffset := 5; HaveMasterOffset := true; MasterHost := ""; SlaveReplOffset := 0; HaveSlaveOffset := false |};
     r_sweep := λ _, None; r_forcedSweep := λ _, None; r_replicas := λ _, SurgerySpec.answer (RArr []);
     r_promote := λ _, None; r_io := SurgerySpec.demo_io "master" |}.
Definition stuck_record : strandedAddrState := {| noProgress := 3; lastWiped := 940 * Second |}.
Definition stuck_quorum : crQuorumState :=
  put_stranded {| strandedRecoveryLastFired := 960 * Second;
    strandedNoProgress := {[ "10.1.0.3:26379" := stuck_record ]}; strandedLinkupStuck := true;
    strandedLinkupStuckAt := 960 * Second; strandedLinkupStuckEdge := "10.1.0.3:26379" |} quorum_zero.
Definition stuck_run : rec_out :=
  detectAndRecoverStrandedSentinels (R := range_forward) true (Some rec_sen) ("default", "vk") "" percr_zero
    healthy_in demo_eps (rec_init stuck_quorum).

Lemma monitor_targets_live_master_witness :
  ∃ pods, r_list healthy_in = Ok pods ∧ master_evidence healthy_in masterInfo_zero pods "10.0.0.1".
Proof.
  apply (monitor_targets_live_master (R := range_forward) true (Some rec_sen) ("default", "vk") "" percr_zero
    healthy_in demo_eps (rec_init stuck_quorum) (sent "3") "10.0.0.1" 6379 2).
  - reflexivity.
  - vm_compute. right. left.
Defined.

Lemma rewipe_backoff_kept_witness :
  rewipe_window stuck_record <= Sub (1000 * Second) (940 * Second).
Proof.
  apply (rewipe_backoff_kept (R := range_forward) true (Some rec_sen) ("default", "vk") "" percr_zero
    healthy_in demo_eps (rec_init stuck_quorum) (sent "3") stuck_record).
  - reflexivity.
  - apply demo_names.
  - vm_compute. left.
  - reflexivity.
  - reflexivity.
  - vm_compute. discriminate.
Defined.
