(* ===== verification/ApiTypes.v ===== *)
(** * The Valkey custom resource: [api/v1beta1/valkey_types.go]

    The fields the webhooks, the defaults and the renderers read.  Fields the
    operator only copies into pod templates (tolerations, node selectors, DNS and
    security settings, service and auth settings) are left out.  A Go map that is
    only read is a [gmap] (nil is empty); a pointer or a map whose nil matters is an
    [option].  Resource quantities are those of [PvcResize.Quantity]. *)
From S2P Require Import Prelude GoStd Status PvcResize.
Local Open Scope Z_scope.

Record ContainerImage := { Repository : string; Tag : string }.
#[global] Instance ContainerImage_eq_dec : EqDecision ContainerImage.
Proof. solve_decision. Defined.
Definition image_zero : ContainerImage := {| Repository := ""; Tag := "" |}.

Record ImageSpec := { im_Valkey : ContainerImage; im_Sentinel : ContainerImage; im_Exporter : ContainerImage }.

Inductive IntOrString : Type := FromInt32 (n : Z) | FromString (s : string).
Definition ios_String (x : IntOrString) : string :=
  match x with FromInt32 n => Itoa n | FromString s => s end.

Record PDBSpec := { MinAvailable : option IntOrString; MaxUnavailable : option IntOrString }.

(** [corev1.Probe]: of an HTTP or gRPC handler only its presence matters. *)
Record Probe := {
  Exec : option (list string);
  HTTPGet : bool;
  GRPC : bool;
  TCPSocket : option IntOrString;
  InitialDelaySeconds : Z;
  PeriodSeconds : Z;
  TimeoutSeconds : Z;
  FailureThreshold : Z;
  SuccessThreshold : Z
}.

Inductive selector_op : Type := OpIn | OpNotIn | OpExists | OpDoesNotExist.
Record LabelSelectorRequirement := { lr_Key : string; lr_Operator : selector_op; lr_Values : list string }.
Record LabelSelector := {
  MatchLabels : gmap string string;
  MatchExpressions : list LabelSelectorRequirement
}.
Record PodAffinityTerm := { pt_LabelSelector : option LabelSelector; TopologyKey : string }.
Record PodAntiAffinity := {
  RequiredTerms : list PodAffinityTerm;
  PreferredTerms : list (Z * PodAffinityTerm) (* weight, term *)
}.
(** [corev1.Affinity]: [other] stands for the node and pod affinity, which is copied. *)
Record Affinity := { PodAntiAff : option PodAntiAffinity; other_affinity : option string }.

Record ReadinessGateSpec := { rg_Enabled : option bool; rg_MaxLagBytes : option Z }.
Record PodMonitorSpec := { pm_Enabled : option bool; ScrapeInterval : string }.
Record RolloutSpec := {
  ro_MaxUnavailable : Z;
  FailoverGracePeriodSeconds : Z;
  ReplicaReadyTimeoutSeconds : Z;
  ro_MaxLagBytes : Z
}.

Section spec.
Context {Q : Type}.

Record ResourceRequirements := {
  Requests : option (gmap string Q);
  Limits : option (gmap string Q)
}.

Record ValkeyPodSpec := {
  v_Replicas : Z;
  v_Resources : ResourceRequirements;
  v_Persistent : bool; (* [Persistence] is set *)
  v_LivenessProbe : option Probe;
  v_ReadinessProbe : option Probe;
  v_ReadinessGate : ReadinessGateSpec;
  v_Affinity : option Affinity;
  v_PodAnnotations : gmap string string;
  v_PodLabels : gmap string string;
  v_Configuration : string;
  v_ConfigurationOverrides : gmap string string;
  v_PDB : option PDBSpec;
  v_MinReplicasToWrite : option Z;
  v_MinReplicasMaxLag : option Z
}.

Record SentinelPodSpec := {
  s_MasterName : string;
  s_Replicas : Z;
  s_Quorum : Z;
  s_DownAfterMilliseconds : Z;
  s_FailoverTimeout : Z;
  s_ParallelSyncs : Z;
  s_PDB : option PDBSpec;
  s_Resources : ResourceRequirements;
  s_LivenessProbe : option Probe;
  s_ReadinessProbe : option Probe;
  s_Affinity : option Affinity;
  s_PodAnnotations : gmap string string;
  s_PodLabels : gmap string string
}.

Record MetricsSpec := { m_Enabled : option bool; m_PodMonitor : PodMonitorSpec }.

Record ValkeySpec := {
  sp_Mode : Mode;
  sp_Image : ImageSpec;
  sp_Valkey : ValkeyPodSpec;
  sp_Sentinel : option SentinelPodSpec;
  sp_Metrics : MetricsSpec;
  sp_Rollout : RolloutSpec;
  sp_FeatureGates : gmap string bool
}.

Record Valkey := {
  o_Name : string;
  o_Namespace : string;
  o_Labels : gmap string string;
  o_Annotations : gmap string string;
  Spec : ValkeySpec
}.
End spec.
Arguments ResourceRequirements : clear implicits.
Arguments ValkeyPodSpec : clear implicits.
Arguments SentinelPodSpec : clear implicits.
Arguments ValkeySpec : clear implicits.
Arguments Valkey : clear implicits.

(** ** Record updates *)
Section updates.
Context {Q : Type}.

Definition set_valkey (f : ValkeyPodSpec Q → ValkeyPodSpec Q) (s : ValkeySpec Q) : ValkeySpec Q :=
  {| sp_Mode := sp_Mode s; sp_Image := sp_Image s; sp_Valkey := f (sp_Valkey s);
     sp_Sentinel := sp_Sentinel s; sp_Metrics := sp_Metrics s; sp_Rollout := sp_Rollout s;
     sp_FeatureGates := sp_FeatureGates s |}.
Definition set_sentinel (f : SentinelPodSpec Q → SentinelPodSpec Q) (s : ValkeySpec Q) : ValkeySpec Q :=
  {| sp_Mode := sp_Mode s; sp_Image := sp_Image s; sp_Valkey := sp_Valkey s;
     sp_Sentinel := f <$> sp_Sentinel s; sp_Metrics := sp_Metrics s; sp_Rollout := sp_Rollout s;
     sp_FeatureGates := sp_FeatureGates s |}.
Definition set_image (x : ImageSpec) (s : ValkeySpec Q) : ValkeySpec Q :=
  {| sp_Mode := sp_Mode s; sp_Image := x; sp_Valkey := sp_Valkey s; sp_Sentinel := sp_Sentinel s;
     sp_Metrics := sp_Metrics s; sp_Rollout := sp_Rollout s; sp_FeatureGates := sp_FeatureGates s |}.
Definition set_metrics (x : MetricsSpec) (s : ValkeySpec Q) : ValkeySpec Q :=
  {| sp_Mode := sp_Mode s; sp_Image := sp_Image s; sp_Valkey := sp_Valkey s; sp_Sentinel := sp_Sentinel s;
     sp_Metrics := x; sp_Rollout := sp_Rollout s; sp_FeatureGates := sp_FeatureGates s |}.
Definition set_rollout (x : RolloutSpec) (s : ValkeySpec Q) : ValkeySpec Q :=
  {| sp_Mode := sp_Mode s; sp_Image := sp_Image s; sp_Valkey := sp_Valkey s; sp_Sentinel := sp_Sentinel s;
     sp_Metrics := sp_Metrics s; sp_Rollout := x; sp_FeatureGates := sp_FeatureGates s |}.
End updates.
