(* ===== verification/Defaults.v ===== *)
(** * Spec defaults: [internal/defaults/defaults.go] and the defaulting webhook
    [internal/webhook/v1beta1/valkey_defaulter.go]

    [ApplySpecDefaults] runs in the webhook and again in the reconciler's memory, so
    it has to be idempotent and must not touch what the user set. *)
From S2P Require Import Prelude GoStd Status PvcResize ApiTypes.
Local Open Scope Z_scope.

Definition CRLabelKey : string := "velkir.ioxie.dev/cr".
Definition ComponentLabelKey : string := "velkir.ioxie.dev/component".
Definition ComponentValkey : string := "valkey".
Definition ComponentSentinel : string := "sentinel".
Definition AntiAffinityTopologyKey : string := "kubernetes.io/hostname".
Definition default_valkey_image : ContainerImage := {| Repository := "valkey/valkey"; Tag := "8.1.6-alpine" |}.
Definition default_exporter_image : ContainerImage :=
  {| Repository := "oliver006/redis_exporter"; Tag := "v1.62.0" |}.

(** [if x == zero { x = d }] and its nil-pointer form. *)
Definition or_int (d x : Z) : Z := if x =? 0 then d else x.
Definition or_nil {A} (d : A) (x : option A) : option A := match x with None => Some d | Some _ => x end.
Definition or_image (d x : ContainerImage) : ContainerImage := if bool_decide (x = image_zero) then d else x.

Section defaults.
Context {Q : Type} (MustParse : string → Q).

Definition resource_list (cpu memory : string) : gmap string Q :=
  <["cpu" := MustParse cpu]> {["memory" := MustParse memory]}.

Definition stampImageDefaults (s : ValkeySpec Q) : ValkeySpec Q :=
  set_image {| im_Valkey := or_image default_valkey_image (im_Valkey (sp_Image s));
               im_Sentinel := or_image default_valkey_image (im_Sentinel (sp_Image s));
               im_Exporter := or_image default_exporter_image (im_Exporter (sp_Image s)) |} s.

Definition with_replicas (n : Z) (v : ValkeyPodSpec Q) : ValkeyPodSpec Q :=
  {| v_Replicas := n; v_Resources := v_Resources v; v_Persistent := v_Persistent v;
     v_LivenessProbe := v_LivenessProbe v; v_ReadinessProbe := v_ReadinessProbe v;
     v_ReadinessGate := v_ReadinessGate v; v_Affinity := v_Affinity v;
     v_PodAnnotations := v_PodAnnotations v; v_PodLabels := v_PodLabels v;
     v_Configuration := v_Configuration v; v_ConfigurationOverrides := v_ConfigurationOverrides v;
     v_PDB := v_PDB v; v_MinReplicasToWrite := v_MinReplicasToWrite v; v_MinReplicasMaxLag := v_MinReplicasMaxLag v |}.

Definition stampReplicasForMode (s : ValkeySpec Q) : ValkeySpec Q :=
  if negb (v_Replicas (sp_Valkey s) =? 0) then s
  else set_valkey (with_replicas (match sp_Mode s with
         | ModeReplication => 2 | ModeSentinel => 3 | ModeStandalone => 1 end)) s.

Definition valkey_ping : list string := ["valkey-cli"; "-h"; "127.0.0.1"; "-p"; "6379"; "ping"].
Definition probe (h : Probe) (initial period timeout failures : Z) : Probe :=
  {| Exec := Exec h; HTTPGet := HTTPGet h; GRPC := GRPC h; TCPSocket := TCPSocket h;
     InitialDelaySeconds := initial; PeriodSeconds := period; TimeoutSeconds := timeout;
     FailureThreshold := failures; SuccessThreshold := 1 |}.
Definition handler (exec : option (list string)) (tcp : option IntOrString) : Probe :=
  {| Exec := exec; HTTPGet := false; GRPC := false; TCPSocket := tcp; InitialDelaySeconds := 0;
     PeriodSeconds := 0; TimeoutSeconds := 0; FailureThreshold := 0; SuccessThreshold := 0 |}.

Definition stampValkeyProbes (s : ValkeySpec Q) : ValkeySpec Q :=
  set_valkey (λ v,
    {| v_Replicas := v_Replicas v; v_Resources := v_Resources v; v_Persistent := v_Persistent v;
       v_LivenessProbe := or_nil (probe (handler (Some valkey_ping) None) 30 10 3 6) (v_LivenessProbe v);
       v_ReadinessProbe := or_nil (probe (handler (Some valkey_ping) None) 5 10 3 3) (v_ReadinessProbe v);
       v_ReadinessGate := v_ReadinessGate v; v_Affinity := v_Affinity v;
       v_PodAnnotations := v_PodAnnotations v; v_PodLabels := v_PodLabels v;
       v_Configuration := v_Configuration v; v_ConfigurationOverrides := v_ConfigurationOverrides v;
       v_PDB := v_PDB v; v_MinReplicasToWrite := v_MinReplicasToWrite v;
       v_MinReplicasMaxLag := v_MinReplicasMaxLag v |}) s.

Definition stampValkeyResources (s : ValkeySpec Q) : ValkeySpec Q :=
  set_valkey (λ v,
    {| v_Replicas := v_Replicas v;
       v_Resources := {| Requests := or_nil (resource_list "100m" "256Mi") (Requests (v_Resources v));
                         Limits := or_nil (resource_list "500m" "512Mi") (Limits (v_Resources v)) |};
       v_Persistent := v_Persistent v; v_LivenessProbe := v_LivenessProbe v;
       v_ReadinessProbe := v_ReadinessProbe v; v_ReadinessGate := v_ReadinessGate v; v_Affinity := v_Affinity v;
       v_PodAnnotations := v_PodAnnotations v; v_PodLabels := v_PodLabels v;
       v_Configuration := v_Configuration v; v_ConfigurationOverrides := v_ConfigurationOverrides v;
       v_PDB := v_PDB v; v_MinReplicasToWrite := v_MinReplicasToWrite v;
       v_MinReplicasMaxLag := v_MinReplicasMaxLag v |}) s.

Definition stampReadinessGate (s : ValkeySpec Q) : ValkeySpec Q :=
  let on := match sp_Mode s with ModeStandalone => false | _ => true end in
  set_valkey (λ v,
    {| v_Replicas := v_Replicas v; v_Resources := v_Resources v; v_Persistent := v_Persistent v;
       v_LivenessProbe := v_LivenessProbe v; v_ReadinessProbe := v_ReadinessProbe v;
       v_ReadinessGate := {| rg_Enabled := or_nil on (rg_Enabled (v_ReadinessGate v));
                             rg_MaxLagBytes := or_nil (Z.shiftl 1 20) (rg_MaxLagBytes (v_ReadinessGate v)) |};
       v_Affinity := v_Affinity v; v_PodAnnotations := v_PodAnnotations v; v_PodLabels := v_PodLabels v;
       v_Configuration := v_Configuration v; v_ConfigurationOverrides := v_ConfigurationOverrides v;
       v_PDB := v_PDB v; v_MinReplicasToWrite := v_MinReplicasToWrite v;
       v_MinReplicasMaxLag := v_MinReplicasMaxLag v |}) s.

Definition stampMinReplicas (s : ValkeySpec Q) : ValkeySpec Q :=
  match sp_Mode s with
  | ModeStandalone => s
  | _ =>
      set_valkey (λ v,
        {| v_Replicas := v_Replicas v; v_Resources := v_Resources v; v_Persistent := v_Persistent v;
           v_LivenessProbe := v_LivenessProbe v; v_ReadinessProbe := v_ReadinessProbe v;
           v_ReadinessGate := v_ReadinessGate v; v_Affinity := v_Affinity v;
           v_PodAnnotations := v_PodAnnotations v; v_PodLabels := v_PodLabels v;
           v_Configuration := v_Configuration v; v_ConfigurationOverrides := v_ConfigurationOverrides v;
           v_PDB := v_PDB v; v_MinReplicasToWrite := or_nil 1 (v_MinReplicasToWrite v);
           v_MinReplicasMaxLag := or_nil 10 (v_MinReplicasMaxLag v) |}) s
  end.

Definition stampMetricsDefaults (s : ValkeySpec Q) : ValkeySpec Q :=
  let m := sp_Metrics s in
  set_metrics {| m_Enabled := or_nil false (m_Enabled m);
                 m_PodMonitor := {| pm_Enabled := or_nil false (pm_Enabled (m_PodMonitor m));
                   ScrapeInterval := if bool_decide (ScrapeInterval (m_PodMonitor m) = "") then "30s"
                                     else ScrapeInterval (m_PodMonitor m) |} |} s.

Definition mirrored (r : ResourceRequirements Q) : ResourceRequirements Q :=
  match Requests r, Limits r with
  | None, None => {| Requests := Some (resource_list "100m" "128Mi"); Limits := Some (resource_list "100m" "128Mi") |}
  | Some q, None => {| Requests := Some q; Limits := Some q |}
  | None, Some l => {| Requests := Some l; Limits := Some l |}
  | Some _, Some _ => r
  end.

Definition stampSentinelDefaults (s : ValkeySpec Q) : ValkeySpec Q :=
  set_sentinel (λ t,
    let replicas := or_int 3 (s_Replicas t) in
    {| s_MasterName := s_MasterName t; s_Replicas := replicas;
       s_Quorum := or_int (Z.quot (replicas + 2) 2) (s_Quorum t);
       s_DownAfterMilliseconds := or_int 3000 (s_DownAfterMilliseconds t);
       s_FailoverTimeout := or_int 180000 (s_FailoverTimeout t);
       s_ParallelSyncs := or_int 1 (s_ParallelSyncs t); s_PDB := s_PDB t;
       s_Resources := mirrored (s_Resources t); s_LivenessProbe := s_LivenessProbe t;
       s_ReadinessProbe := s_ReadinessProbe t; s_Affinity := s_Affinity t;
       s_PodAnnotations := s_PodAnnotations t; s_PodLabels := s_PodLabels t |}) s.

Definition stampSentinelProbes (s : ValkeySpec Q) : ValkeySpec Q :=
  let tcp := handler None (Some (FromInt32 26379)) in
  set_sentinel (λ t,
    {| s_MasterName := s_MasterName t; s_Replicas := s_Replicas t; s_Quorum := s_Quorum t;
       s_DownAfterMilliseconds := s_DownAfterMilliseconds t; s_FailoverTimeout := s_FailoverTimeout t;
       s_ParallelSyncs := s_ParallelSyncs t; s_PDB := s_PDB t; s_Resources := s_Resources t;
       s_LivenessProbe := or_nil (probe tcp 30 10 3 6) (s_LivenessProbe t);
       s_ReadinessProbe := or_nil (probe tcp 5 5 3 3) (s_ReadinessProbe t); s_Affinity := s_Affinity t;
       s_PodAnnotations := s_PodAnnotations t; s_PodLabels := s_PodLabels t |}) s.

Definition stampRolloutDefaults (s : ValkeySpec Q) : ValkeySpec Q :=
  let r := sp_Rollout s in
  set_rollout {| ro_MaxUnavailable := or_int 1 (ro_MaxUnavailable r);
                 FailoverGracePeriodSeconds := FailoverGracePeriodSeconds r;
                 ReplicaReadyTimeoutSeconds := or_int 300 (ReplicaReadyTimeoutSeconds r);
                 ro_MaxLagBytes := or_int 10000 (ro_MaxLagBytes r) |} s.

Definition derived_pdb (replicas : Z) (pdb : option PDBSpec) : option PDBSpec :=
  if 2 <=? replicas
  then or_nil {| MinAvailable := Some (FromInt32 (Z.max 1 (replicas - 1))); MaxUnavailable := None |} pdb
  else pdb.

Definition with_pdb (p : option PDBSpec) (a : option Affinity) (v : ValkeyPodSpec Q) : ValkeyPodSpec Q :=
  {| v_Replicas := v_Replicas v; v_Resources := v_Resources v; v_Persistent := v_Persistent v;
     v_LivenessProbe := v_LivenessProbe v; v_ReadinessProbe := v_ReadinessProbe v;
     v_ReadinessGate := v_ReadinessGate v; v_Affinity := a;
     v_PodAnnotations := v_PodAnnotations v; v_PodLabels := v_PodLabels v;
     v_Configuration := v_Configuration v; v_ConfigurationOverrides := v_ConfigurationOverrides v;
     v_PDB := p; v_MinReplicasToWrite := v_MinReplicasToWrite v; v_MinReplicasMaxLag := v_MinReplicasMaxLag v |}.
Definition with_pdb_sentinel (p : option PDBSpec) (a : option Affinity) (t : SentinelPodSpec Q) : SentinelPodSpec Q :=
  {| s_MasterName := s_MasterName t; s_Replicas := s_Replicas t; s_Quorum := s_Quorum t;
     s_DownAfterMilliseconds := s_DownAfterMilliseconds t; s_FailoverTimeout := s_FailoverTimeout t;
     s_ParallelSyncs := s_ParallelSyncs t; s_PDB := p; s_Resources := s_Resources t;
     s_LivenessProbe := s_LivenessProbe t; s_ReadinessProbe := s_ReadinessProbe t; s_Affinity := a;
     s_PodAnnotations := s_PodAnnotations t; s_PodLabels := s_PodLabels t |}.

Definition stampPDB (s : ValkeySpec Q) : ValkeySpec Q :=
  set_sentinel (λ t, with_pdb_sentinel (derived_pdb (s_Replicas t) (s_PDB t)) (s_Affinity t) t)
    (set_valkey (λ v, with_pdb (derived_pdb (v_Replicas v) (v_PDB v)) (v_Affinity v) v) s).

Definition ensureSoftPodAntiAffinity (component crName : string) (aff : option Affinity) : option Affinity :=
  let a := default {| PodAntiAff := None; other_affinity := None |} aff in
  match PodAntiAff a with
  | Some _ => Some a
  | None =>
      Some {| PodAntiAff := Some {| RequiredTerms := [];
                PreferredTerms := [(100, {| TopologyKey := AntiAffinityTopologyKey;
                  pt_LabelSelector := Some {| MatchLabels := <[CRLabelKey := crName]> {[ComponentLabelKey := component]};
                                              MatchExpressions := [] |} |})] |};
              other_affinity := other_affinity a |}
  end.

Definition spread (component crName : string) (replicas : Z) (aff : option Affinity) : option Affinity :=
  if 2 <=? replicas then ensureSoftPodAntiAffinity component crName aff else aff.

Definition stampAntiAffinity (crName : string) (s : ValkeySpec Q) : ValkeySpec Q :=
  set_sentinel (λ t, with_pdb_sentinel (s_PDB t) (spread ComponentSentinel crName (s_Replicas t) (s_Affinity t)) t)
    (set_valkey (λ v, with_pdb (v_PDB v) (spread ComponentValkey crName (v_Replicas v) (v_Affinity v)) v) s).

Definition apply_defaults (crName : string) (s : ValkeySpec Q) : ValkeySpec Q :=
  let s := stampImageDefaults s in
  let s := stampReplicasForMode s in
  let s := stampValkeyProbes s in
  let s := stampValkeyResources s in
  let s := stampReadinessGate s in
  let s := stampMinReplicas s in
  let s := stampMetricsDefaults s in
  let s := stampSentinelDefaults s in
  let s := stampSentinelProbes s in
  let s := stampRolloutDefaults s in
  let s := stampPDB s in
  stampAntiAffinity crName s.

Definition ApplySpecDefaults (o : Valkey Q) : Valkey Q :=
  {| o_Name := o_Name o; o_Namespace := o_Namespace o; o_Labels := o_Labels o;
     o_Annotations := o_Annotations o; Spec := apply_defaults (o_Name o) (Spec o) |}.

(** ** The defaulting webhook *)
Definition ManagedByLabel : string := "app.kubernetes.io/managed-by".
Definition ManagedByValue : string := "velkir".
Definition triggerTrueValue : string := "true".
Definition AllowAggressiveTimeoutsAnnotation : string := "velkir.ioxie.dev/allow-aggressive-timeouts".
Definition operatorTriggerAnnotations : list string :=
  ["velkir.ioxie.dev/accept-pvc-loss"; AllowAggressiveTimeoutsAnnotation;
   "velkir.ioxie.dev/force-rotate"; "velkir.ioxie.dev/paused"].
Definition requestorAnnotationSuffix : string := "-requestor".

Definition stampManagedByLabel (labels : gmap string string) : gmap string string :=
  match labels !! ManagedByLabel with Some _ => labels | None => <[ManagedByLabel := ManagedByValue]> labels end.

Definition stamp_requestor (username : string) (ann : gmap string string) (trigger : string) : gmap string string :=
  let sibling := trigger +:+ requestorAnnotationSuffix in
  if bool_decide (ann !! trigger = Some triggerTrueValue) then
    if bool_decide (username = "") then delete sibling ann else <[sibling := username]> ann
  else delete sibling ann.

(** [request] is the user of the admission request, [None] outside admission. *)
Definition stampOperatorTriggerRequestor (request : option string) (ann : gmap string string) : gmap string string :=
  match request with
  | None => ann
  | Some username => foldl (stamp_requestor username) ann operatorTriggerAnnotations
  end.

Definition Default (request : option string) (o : Valkey Q) : Valkey Q :=
  let o := ApplySpecDefaults
    {| o_Name := o_Name o; o_Namespace := o_Namespace o; o_Labels := stampManagedByLabel (o_Labels o);
       o_Annotations := o_Annotations o; Spec := Spec o |} in
  {| o_Name := o_Name o; o_Namespace := o_Namespace o; o_Labels := o_Labels o;
     o_Annotations := stampOperatorTriggerRequestor request (o_Annotations o); Spec := Spec o |}.
End defaults.

(** ** Lemmas *)
Lemma or_nil_idem {A} (d : A) x : or_nil d (or_nil d x) = or_nil d x.
Proof. by destruct x. Qed.
Lemma or_int_idem d x : or_int d (or_int d x) = or_int d x.
Proof. unfold or_int. destruct (x =? 0) eqn:E; [|by rewrite E]. by destruct (d =? 0). Qed.
Lemma or_image_idem d x : or_image d (or_image d x) = or_image d x.
Proof. unfold or_image. by repeat case_bool_decide. Qed.
Lemma derived_pdb_idem n p : derived_pdb n (derived_pdb n p) = derived_pdb n p.
Proof. unfold derived_pdb. destruct (2 <=? n); [apply or_nil_idem|done]. Qed.
Lemma spread_idem c cr n a : spread c cr n (spread c cr n a) = spread c cr n a.
Proof.
  unfold spread. destruct (2 <=? n); [|done]. unfold ensureSoftPodAntiAffinity.
  destruct a as [[[paa|] oth]|]; done.
Qed.

Section defaults_props.
Context {Q : Type} (MustParse : string → Q).

Lemma mirrored_idem r : mirrored MustParse (mirrored MustParse r) = mirrored MustParse r.
Proof. by destruct r as [[] []]. Qed.

Lemma spec_ext (a b : ValkeySpec Q) :
  sp_Mode a = sp_Mode b → sp_Image a = sp_Image b → sp_Valkey a = sp_Valkey b → sp_Sentinel a = sp_Sentinel b →
  sp_Metrics a = sp_Metrics b → sp_Rollout a = sp_Rollout b → sp_FeatureGates a = sp_FeatureGates b → a = b.
Proof. destruct a, b. cbn. by intros -> -> -> -> -> -> ->. Qed.

(** The two pod specs after all stamps. *)
Definition defaulted_valkey (mode : Mode) (crName : string) (v : ValkeyPodSpec Q) : ValkeyPodSpec Q :=
  let replicas := or_int (match mode with ModeReplication => 2 | ModeSentinel => 3 | ModeStandalone => 1 end)
                    (v_Replicas v) in
  let ha {A} (d : A) x := match mode with ModeStandalone => x | _ => or_nil d x end in
  {| v_Replicas := replicas;
     v_Resources := {| Requests := or_nil (resource_list MustParse "100m" "256Mi") (Requests (v_Resources v));
                       Limits := or_nil (resource_list MustParse "500m" "512Mi") (Limits (v_Resources v)) |};
     v_Persistent := v_Persistent v;
     v_LivenessProbe := or_nil (probe (handler (Some valkey_ping) None) 30 10 3 6) (v_LivenessProbe v);
     v_ReadinessProbe := or_nil (probe (handler (Some valkey_ping) None) 5 10 3 3) (v_ReadinessProbe v);
     v_ReadinessGate :=
       {| rg_Enabled := or_nil (match mode with ModeStandalone => false | _ => true end) (rg_Enabled (v_ReadinessGate v));
          rg_MaxLagBytes := or_nil (Z.shiftl 1 20) (rg_MaxLagBytes (v_ReadinessGate v)) |};
     v_Affinity := spread ComponentValkey crName replicas (v_Affinity v);
     v_PodAnnotations := v_PodAnnotations v; v_PodLabels := v_PodLabels v;
     v_Configuration := v_Configuration v; v_ConfigurationOverrides := v_ConfigurationOverrides v;
     v_PDB := derived_pdb replicas (v_PDB v);
     v_MinReplicasToWrite := ha 1 (v_MinReplicasToWrite v);
     v_MinReplicasMaxLag := ha 10 (v_MinReplicasMaxLag v) |}.

Definition defaulted_sentinel (crName : string) (t : SentinelPodSpec Q) : SentinelPodSpec Q :=
  let replicas := or_int 3 (s_Replicas t) in
  {| s_MasterName := s_MasterName t; s_Replicas := replicas;
     s_Quorum := or_int (Z.quot (replicas + 2) 2) (s_Quorum t);
     s_DownAfterMilliseconds := or_int 3000 (s_DownAfterMilliseconds t);
     s_FailoverTimeout := or_int 180000 (s_FailoverTimeout t);
     s_ParallelSyncs := or_int 1 (s_ParallelSyncs t); s_PDB := derived_pdb replicas (s_PDB t);
     s_Resources := mirrored MustParse (s_Resources t);
     s_LivenessProbe := or_nil (probe (handler None (Some (FromInt32 26379))) 30 10 3 6) (s_LivenessProbe t);
     s_ReadinessProbe := or_nil (probe (handler None (Some (FromInt32 26379))) 5 5 3 3) (s_ReadinessProbe t);
     s_Affinity := spread ComponentSentinel crName replicas (s_Affinity t);
     s_PodAnnotations := s_PodAnnotations t; s_PodLabels := s_PodLabels t |}.

Lemma apply_defaults_fields cr s :
  let r := apply_defaults MustParse cr s in
  sp_Mode r = sp_Mode s ∧ sp_FeatureGates r = sp_FeatureGates s ∧
  sp_Valkey r = defaulted_valkey (sp_Mode s) cr (sp_Valkey s) ∧
  sp_Sentinel r = defaulted_sentinel cr <$> sp_Sentinel s ∧
  sp_Image r = sp_Image (stampImageDefaults s) ∧ sp_Metrics r = sp_Metrics (stampMetricsDefaults s) ∧
  sp_Rollout r = sp_Rollout (stampRolloutDefaults s).
Proof.
  unfold apply_defaults, stampReplicasForMode, stampMinReplicas, defaulted_valkey, or_int.
  destruct s as [mode im v [t|] me ro fg]; cbn;
    destruct (v_Replicas v =? 0) eqn:E, mode; cbn; rewrite ?E; done.
Qed.

Lemma defaulted_valkey_idem mode cr v :
  defaulted_valkey mode cr (defaulted_valkey mode cr v) = defaulted_valkey mode cr v.
Proof.
  unfold defaulted_valkey. cbn. rewrite !or_int_idem, !or_nil_idem, derived_pdb_idem, spread_idem.
  by destruct mode; rewrite ?or_nil_idem.
Qed.

Lemma defaulted_sentinel_idem cr t :
  defaulted_sentinel cr (defaulted_sentinel cr t) = defaulted_sentinel cr t.
Proof.
  unfold defaulted_sentinel. cbn.
  by rewrite !or_int_idem, !or_nil_idem, derived_pdb_idem, spread_idem, mirrored_idem.
Qed.
End defaults_props.

(** Defaulting is idempotent: applying the defaults to a CR that already carries
    them changes nothing, for every spec and every parser of quantities.  The
    reconciler, which re-applies them to each CR it reads, therefore renders the
    same bytes for a CR the webhook defaulted and for one it never saw. *)
Theorem defaults_idempotent {Q} (MustParse : string → Q) (o : Valkey Q) :
  ApplySpecDefaults MustParse (ApplySpecDefaults MustParse o) = ApplySpecDefaults MustParse o.
Proof.
  unfold ApplySpecDefaults. cbn [o_Name o_Namespace o_Labels o_Annotations Spec]. f_equal.
  set (r := apply_defaults MustParse (o_Name o) (Spec o)).
  destruct (apply_defaults_fields MustParse (o_Name o) r) as (H1 & H2 & H3 & H4 & H5 & H6 & H7).
  destruct (apply_defaults_fields MustParse (o_Name o) (Spec o)) as (G1 & G2 & G3 & G4 & G5 & G6 & G7).
  fold r in G1, G2, G3, G4, G5, G6, G7. cbv zeta in H1, H2, H3, H4, H5, H6, H7. apply spec_ext.
  - by rewrite H1.
  - rewrite H5. unfold stampImageDefaults. cbn [sp_Image set_image]. rewrite G5. cbn. by rewrite !or_image_idem.
  - rewrite H3, G1, G3. apply defaulted_valkey_idem.
  - rewrite H4, G4. destruct (sp_Sentinel (Spec o)); cbn [fmap option_fmap option_map]; [|done].
    f_equal. apply defaulted_sentinel_idem.
  - rewrite H6. unfold stampMetricsDefaults. cbn [sp_Metrics set_metrics]. rewrite G6. cbn.
    rewrite !or_nil_idem. do 2 f_equal. by repeat case_bool_decide.
  - rewrite H7. unfold stampRolloutDefaults. cbn [sp_Rollout set_rollout]. rewrite G7. cbn.
    by rewrite !or_int_idem.
  - by rewrite H2.
Qed.

(** ** Who triggered a privileged action *)
Lemma append_suffix_inj (a b suf : string) : a +:+ suf = b +:+ suf → a = b.
Proof.
  intros H. assert (Hl : String.length a = String.length b).
  { apply (f_equal String.length) in H. rewrite !str_length_app in H. lia. }
  revert b H Hl. induction a as [|c a IH]; intros [|d b] H Hl; try done.
  rewrite !str_app_cons in H. injection H as -> H. f_equal. apply IH; [done|]. by injection Hl.
Qed.

Lemma stamp_fold user l ann t :
  (∀ a b, a ∈ l → b ∈ l → a ≠ b +:+ requestorAnnotationSuffix) → NoDup l → t ∈ l →
  foldl (stamp_requestor user) ann l !! (t +:+ requestorAnnotationSuffix) =
    (if bool_decide (ann !! t = Some triggerTrueValue) && negb (bool_decide (user = "")) then Some user else None).
Proof.
  intros Hdis Hnd Ht.
  assert (Hkeep : ∀ l' ann k, (∀ b, b ∈ l' → k ≠ b +:+ requestorAnnotationSuffix) →
            foldl (stamp_requestor user) ann l' !! k = ann !! k).
  { induction l' as [|b l' IH]; intros ann' k Hk; [done|]. cbn [foldl].
    rewrite IH by (intros; apply Hk; set_solver). unfold stamp_requestor.
    assert (Hne : b +:+ requestorAnnotationSuffix ≠ k) by (intros E; symmetry in E; revert E; apply Hk; set_solver).
    repeat case_bool_decide; by rewrite ?lookup_insert_ne, ?lookup_delete_ne. }
  apply list_elem_of_split in Ht as (l1 & l2 & ->). rewrite foldl_app. cbn [foldl].
  set (ann1 := foldl (stamp_requestor user) ann l1).
  assert (Hann : ann1 !! t = ann !! t) by (apply Hkeep; intros; apply Hdis; set_solver).
  rewrite Hkeep.
  - unfold stamp_requestor. rewrite Hann. repeat case_bool_decide; cbn;
      by rewrite ?lookup_insert_eq, ?lookup_delete_eq.
  - intros b Hb E%append_suffix_inj. subst b. apply NoDup_app in Hnd as (_ & _ & Hnd).
    apply NoDup_cons in Hnd as [Hnd _]. done.
Qed.

(** The recorded requestor of a privileged trigger cannot be forged.  After the
    defaulting webhook, the requestor annotation of each trigger is exactly the user
    of this request when the trigger is the literal true, and absent otherwise,
    whatever requestor annotations the submitted object carried. *)
Theorem requestor_not_forgeable {Q} (MustParse : string → Q) user (o : Valkey Q) trigger :
  trigger ∈ operatorTriggerAnnotations →
  o_Annotations (Default MustParse (Some user) o) !! (trigger +:+ requestorAnnotationSuffix) =
  (if bool_decide (o_Annotations o !! trigger = Some triggerTrueValue) && negb (bool_decide (user = ""))
   then Some user else None).
Proof.
  intros Ht. unfold Default, stampOperatorTriggerRequestor. cbn [o_Annotations ApplySpecDefaults].
  apply stamp_fold; [|refine (bool_decide_unpack _ _); vm_compute; exact I|done].
  assert (Hall : Forall (λ a, Forall (λ b, a ≠ b +:+ requestorAnnotationSuffix) operatorTriggerAnnotations)
            operatorTriggerAnnotations) by (refine (bool_decide_unpack _ _); vm_compute; exact I).
  intros a b Ha Hb. rewrite Forall_forall in Hall. specialize (Hall a Ha). rewrite Forall_forall in Hall. auto.
Qed.

Definition res_none {Q} : ResourceRequirements Q := {| Requests := None; Limits := None |}.
(** A minimal CR: only the mode, the name and what [f] sets. *)
Definition plain_valkey (conf : string) (overrides : gmap string string) : ValkeyPodSpec Z :=
  {| v_Replicas := 0; v_Resources := res_none; v_Persistent := false; v_LivenessProbe := None;
     v_ReadinessProbe := None; v_ReadinessGate := {| rg_Enabled := None; rg_MaxLagBytes := None |};
     v_Affinity := None; v_PodAnnotations := ∅; v_PodLabels := ∅; v_Configuration := conf;
     v_ConfigurationOverrides := overrides; v_PDB := None; v_MinReplicasToWrite := None;
     v_MinReplicasMaxLag := None |}.
Definition plain_sentinel : SentinelPodSpec Z :=
  {| s_MasterName := "mymaster"; s_Replicas := 0; s_Quorum := 0; s_DownAfterMilliseconds := 0;
     s_FailoverTimeout := 0; s_ParallelSyncs := 0; s_PDB := None; s_Resources := res_none;
     s_LivenessProbe := None; s_ReadinessProbe := None; s_Affinity := None; s_PodAnnotations := ∅; s_PodLabels := ∅ |}.
Definition plain_cr (ann : gmap string string) (conf : string) (overrides : gmap string string) : Valkey Z :=
  {| o_Name := "vk"; o_Namespace := "default"; o_Labels := ∅; o_Annotations := ann;
     Spec := {| sp_Mode := ModeSentinel;
                sp_Image := {| im_Valkey := image_zero; im_Sentinel := image_zero; im_Exporter := image_zero |};
                sp_Valkey := plain_valkey conf overrides; sp_Sentinel := Some plain_sentinel;
                sp_Metrics := {| m_Enabled := None; m_PodMonitor := {| pm_Enabled := None; ScrapeInterval := "" |} |};
                sp_Rollout := {| ro_MaxUnavailable := 0; FailoverGracePeriodSeconds := 0;
                                 ReplicaReadyTimeoutSeconds := 0; ro_MaxLagBytes := 0 |};
                sp_FeatureGates := ∅ |} |}.
(** Any parser of quantities will do for the examples. *)
Definition parse_len (s : string) : Z := Z.of_nat (String.length s).

Lemma requestor_not_forgeable_witness :
  o_Annotations (Default parse_len (Some "mallory")
    (plain_cr (<["velkir.ioxie.dev/paused" := "true"]> {["velkir.ioxie.dev/paused-requestor" := "alice"]}) "" ∅))
    !! ("velkir.ioxie.dev/paused" +:+ requestorAnnotationSuffix) = Some "mallory".
Proof. apply requestor_not_forgeable. refine (bool_decide_unpack _ _). vm_compute. exact I. Defined.
