(* ===== verification/Version.v ===== *)
(** * Image versions: [internal/version/compat.go] *)
From S2P Require Import Prelude GoStd GoFmt.
Local Open Scope Z_scope.

Record ValkeyVersion := { Major : Z; Minor : Z }.
#[global] Instance ValkeyVersion_eq_dec : EqDecision ValkeyVersion.
Proof. solve_decision. Defined.

Definition version_String (v : ValkeyVersion) : string := Itoa (Major v) +:+ "." +:+ Itoa (Minor v).
Definition SupportedMajors : list Z := [8; 9].
Definition IsSupportedMajor (v : ValkeyVersion) : bool := bool_decide (Major v ∈ SupportedMajors).
Definition IsDowngrade (from to : ValkeyVersion) : bool := Major to <? Major from.
Definition IsSkipMinor (from to : ValkeyVersion) : bool :=
  (Major to =? Major from) && (1 <? Minor to - Minor from).

Definition ErrNoTag : string := "image reference has no tag".
Definition ErrMalformedTag : string := "tag is not a Valkey semver shape".

(** [s] up to the first byte [c]. *)
Definition before (c : ascii) (s : string) : string :=
  match IndexByte c s with Some i => str_take i s | None => s end.

Definition ParseValkeyTag (ref : string) : result ValkeyVersion :=
  let ref := before "@" ref in
  match LastIndexByte ":" ref with
  | None => Err ErrNoTag
  | Some colon =>
      let tag := str_drop (S colon) ref in
      if Contains tag "/" then Err ErrNoTag
      else
        let tag := before "-" tag in
        match Split tag "." with
        | p0 :: p1 :: rest =>
            let bad what p := Err (ErrMalformedTag +:+ ": " +:+ what +:+ " " +:+ Quote p +:+
                                   " is not a non-negative integer") in
            match Atoi p0 with
            | Some major =>
                if major <? 0 then bad "major" p0
                else match Atoi p1 with
                | Some minor =>
                    if minor <? 0 then bad "minor" p1
                    else match rest with
                    | p2 :: _ =>
                        match Atoi p2 with
                        | None => bad "patch" p2
                        | Some _ => Ok {| Major := major; Minor := minor |}
                        end
                    | [] => Ok {| Major := major; Minor := minor |}
                    end
                | None => bad "minor" p1
                end
            | None => bad "major" p0
            end
        | _ => Err (ErrMalformedTag +:+ ": need at least major.minor, got " +:+ Quote tag)
        end
  end.

Example parse_variant : ParseValkeyTag "valkey:8.1.6-alpine" = Ok {| Major := 8; Minor := 1 |}.
Proof. reflexivity. Qed.
Example parse_port : ParseValkeyTag "registry.local:5000/valkey/valkey:8.2" = Ok {| Major := 8; Minor := 2 |}.
Proof. reflexivity. Qed.
Example parse_digest : ParseValkeyTag "valkey:8.0@sha256:abc" = Ok {| Major := 8; Minor := 0 |}.
Proof. reflexivity. Qed.
Example parse_untagged : ParseValkeyTag "registry.local:5000/valkey" = Err ErrNoTag.
Proof. reflexivity. Qed.

(** ** Round trip *)
Lemma before_absent c s : has_byte c s = false → before c s = s.
Proof. unfold before, has_byte. by destruct (IndexByte c s). Qed.

Lemma before_app c s t : has_byte c s = false → before c (s +:+ String c t) = s.
Proof. intros H. unfold before. rewrite IndexByte_app by done. by rewrite str_take_length_app. Qed.

Lemma Contains_byte s c : Contains s (String c "") = has_byte c s.
Proof.
  induction s as [|a s IH]; [done|]. rewrite has_byte_cons, <- IH.
  change (Contains (String a s) (String c "")) with (String.prefix (String c "") (String a s) || Contains s (String c "")).
  f_equal. cbn [String.prefix]. destruct (Stdlib.Strings.Ascii.ascii_dec c a) as [->|Hne].
  - rewrite bool_decide_eq_true_2 by done. by destruct s.
  - by rewrite bool_decide_eq_false_2 by congruence.
Qed.

(** No byte of a version is one of the separators of a reference. *)
Definition separator (c : ascii) : bool := bool_decide (c ∈ ["@"; ":"; "/"; "-"]%char).

Lemma digit_char d : (d < 10)%N → pretty_N_char d ∈ ["0"; "1"; "2"; "3"; "4"; "5"; "6"; "7"; "8"; "9"]%char.
Proof.
  intros Hd. assert (d = 0 ∨ d = 1 ∨ d = 2 ∨ d = 3 ∨ d = 4 ∨ d = 5 ∨ d = 6 ∨ d = 7 ∨ d = 8 ∨ d = 9)%N as H by lia.
  refine (bool_decide_unpack _ _). by repeat (destruct H as [->|H]; [done|]); subst.
Qed.

Lemma Itoa_no c n : 0 <= n → c ∉ ["0"; "1"; "2"; "3"; "4"; "5"; "6"; "7"; "8"; "9"]%char → has_byte c (Itoa n) = false.
Proof.
  intros Hn Hc. destruct (decide (c = "-"%char)) as [->|Hm].
  - destruct n as [|p|p]; [done| |lia]. change (has_byte "-" (pretty (Npos p)) = false).
    unfold pretty, pretty_N. case_decide; [done|]. apply has_byte_pretty_go; [|done]. intros d Hd E. apply Hc. rewrite <- E. by apply digit_char.
  - apply has_byte_Itoa; [|done]. intros d Hd E. apply Hc. rewrite <- E. by apply digit_char.
Qed.

Lemma version_no c v :
  0 <= Major v → 0 <= Minor v → separator c = true → has_byte c (version_String v) = false.
Proof.
  intros H1 H2 Hc. unfold separator in Hc. apply bool_decide_eq_true in Hc. unfold version_String.
  rewrite !has_byte_app, !Itoa_no by (done || (intros Hin; revert Hc Hin; set_solver)).
  change (has_byte c ".") with (has_byte c (String "." "")). rewrite has_byte_cons.
  rewrite bool_decide_eq_false_2; [done|]. intros <-. set_solver.
Qed.

Lemma Split_byte s c t : has_byte c s = false → Split (s +:+ String c t) c = s :: Split t c.
Proof.
  induction s as [|a s IH]; [intros _; rewrite str_app_nil_l; cbn [Split]; by rewrite bool_decide_eq_true_2|].
  rewrite has_byte_cons. intros [Ha Hs]%orb_false_elim. rewrite str_app_cons. cbn [Split]. rewrite Ha.
  by rewrite (IH Hs).
Qed.

Lemma Split_none s c : has_byte c s = false → Split s c = [s].
Proof.
  induction s as [|a s IH]; [done|]. rewrite has_byte_cons. intros [Ha Hs]%orb_false_elim. cbn [Split].
  by rewrite Ha, (IH Hs).
Qed.

(** An optional part of a reference, introduced by [c]. *)
Definition part (c : ascii) (s : string) : Prop := s = "" ∨ ∃ t, s = String c t.

Lemma before_part c s t : has_byte c s = false → part c t → before c (s +:+ t) = s.
Proof.
  intros Hs [->|(u & ->)]; [rewrite str_app_nil_r; by apply before_absent|by apply before_app].
Qed.

(** A printed version parses back.  For any repository without a digest, with or
    without a registry port, the reference built from it, a version, an optional
    variant suffix and an optional digest parses to that version. *)
Theorem version_roundtrip repo v suffix digest :
  has_byte "@" repo = false → part "-" suffix → part "@" digest →
  has_byte "@" suffix = false → has_byte ":" suffix = false → has_byte "/" suffix = false →
  0 <= Major v <= max_int64 → 0 <= Minor v <= max_int64 →
  ParseValkeyTag (repo +:+ ":" +:+ version_String v +:+ suffix +:+ digest) = Ok v.
Proof.
  intros Hr Hsuf Hdig H1 H2 H3 Hmaj Hmin. unfold ParseValkeyTag.
  assert (Hver : ∀ c, separator c = true → has_byte c (version_String v) = false)
    by (intros; apply version_no; lia || done).
  set (tag := version_String v +:+ suffix).
  assert (Eref : before "@" (repo +:+ ":" +:+ version_String v +:+ suffix +:+ digest) = repo +:+ String ":" tag).
  { replace (repo +:+ ":" +:+ version_String v +:+ suffix +:+ digest) with ((repo +:+ String ":" tag) +:+ digest).
    - apply before_part; [|done]. rewrite has_byte_app, has_byte_cons. unfold tag. by rewrite has_byte_app, Hr, Hver, H1.
    - unfold tag. rewrite !str_app_assoc, str_app_cons, !str_app_assoc. done. }
  rewrite Eref. assert (Htag : ∀ c, separator c = true → has_byte c suffix = false → has_byte c tag = false)
    by (intros c Hc Hs; unfold tag; by rewrite has_byte_app, Hver, Hs).
  rewrite LastIndexByte_app by (by apply Htag).
  assert (Edrop : str_drop (S (String.length repo)) (repo +:+ String ":" tag) = tag).
  { rewrite str_drop_S, str_drop_length_app. done. }
  rewrite Edrop, Contains_byte, (Htag "/"%char) by done. unfold tag.
  rewrite before_part by (done || by apply Hver). unfold version_String.
  rewrite str_app_cons, str_app_nil_l, Split_byte by (apply Itoa_no; [lia|set_solver]).
  rewrite Split_none by (apply Itoa_no; [lia|set_solver]).
  rewrite !Atoi_Itoa by (unfold in_int64, min_int64 in *; apply andb_true_intro; split; apply Z.leb_le; lia).
  destruct (Z.ltb_spec (Major v) 0); [lia|]. destruct (Z.ltb_spec (Minor v) 0); [lia|]. by destruct v.
Qed.

Lemma version_roundtrip_witness :
  ParseValkeyTag ("registry.local:5000/valkey/valkey" +:+ ":" +:+ version_String {| Major := 8; Minor := 1 |} +:+
                  "-alpine" +:+ "@sha256:0a") = Ok {| Major := 8; Minor := 1 |}.
Proof.
  apply version_roundtrip; try reflexivity; [by right; exists "alpine"|by right; exists "sha256:0a"|split; done|split; done].
Defined.
