(* ===== verification/ValkeyConf.v ===== *)
(** * Rendering the server configurations: [internal/valkeyconf]

    [Render] builds the valkey.conf of a CR from the operator's own directives, the
    user's snippet and the user's override map; [RenderSentinel] the sentinel.conf.
    Whitespace and case are those of ASCII input. *)
From S2P Require Import Prelude GoStd.
Local Open Scope Z_scope.

(** ** strings *)
Definition nl : ascii := "010"%char.
Definition nls : string := String nl "".
Definition NUL : ascii := "000"%char.

Fixpoint TrimLeftSpace (s : string) : string :=
  match s with
  | EmptyString => ""
  | String c s' => if Ascii.is_space c then TrimLeftSpace s' else s
  end.
Fixpoint TrimRightFunc (f : ascii → bool) (s : string) : string :=
  match s with
  | EmptyString => ""
  | String c s =>
      match TrimRightFunc f s with
      | EmptyString => if f c then "" else String c ""
      | t => String c t
      end
  end.
Definition TrimSpace (s : string) : string := TrimRightFunc Ascii.is_space (TrimLeftSpace s).

(** ** Directives *)
Definition PodIPPlaceholder : string := "_POD_IP_".
Definition ValkeyPort : Z := 6379.

Definition OperatorOwnedDirectives : list string :=
  ["bind"; "daemonize"; "masterauth"; "min-replicas-max-lag"; "min-replicas-to-write"; "port";
   "protected-mode"; "replica-announce-ip"; "replica-announce-port"; "replicaof"; "requirepass";
   "sentinel announce-hostnames"; "sentinel monitor"; "sentinel resolve-hostnames"; "slaveof"; "unixsocket"].

Definition ContainsNUL (s : string) : bool := has_byte NUL s.
Definition ContainsInjectionChars (s : string) : bool :=
  (has_byte nl s || has_byte "013"%char s) || ContainsNUL s.

Definition directive (line : string) : string :=
  let trimmed := TrimSpace line in
  if bool_decide (trimmed = "") || HasPrefix trimmed "#" then ""
  else match Fields trimmed with
  | [] => ""
  | w :: _ => ToLower w
  end.

Record Inputs := {
  Persistent : bool;
  Configuration : string;
  Overrides : gmap string string;
  MinReplicasToWrite : option Z;
  MinReplicasMaxLag : option Z
}.

Definition mandatoryDirectives (i : Inputs) : list string :=
  ["dir " +:+ (if Persistent i then "/data" else "/tmp");
   "port " +:+ Itoa ValkeyPort;
   "protected-mode no";
   "replica-announce-ip " +:+ PodIPPlaceholder;
   "replica-announce-port " +:+ Itoa ValkeyPort] ++
  match MinReplicasToWrite i with Some n => ["min-replicas-to-write " +:+ Itoa n] | None => [] end ++
  match MinReplicasMaxLag i with Some n => ["min-replicas-max-lag " +:+ Itoa n] | None => [] end.

(** The set of non-empty directives of the lines. *)
Definition directive_set (l : list string) : gset string :=
  list_to_set (filter (λ d, d ≠ "") (directive <$> l)).
Definition mandatoryKeyset (mandatory : list string) : gset string := directive_set mandatory.
Definition bannedDirectiveKeys : gset string := directive_set OperatorOwnedDirectives.
Definition NormalizeDirectiveKey (key : string) : string := directive key.

Definition keeps_override (mandatoryKeys bannedKeys : gset string) (kv : string * string) : bool :=
  if ContainsInjectionChars kv.1 || ContainsInjectionChars kv.2 then false
  else negb (bool_decide (directive kv.1 ∈ mandatoryKeys) || bool_decide (directive kv.1 ∈ bannedKeys)).
Definition filterOverrides (overrides : gmap string string) (mandatoryKeys bannedKeys : gset string) :
    gmap string string := filter (λ kv, keeps_override mandatoryKeys bannedKeys kv = true) overrides.

Definition mergeKeysets (mandatoryKeys : gset string) (overrides : gmap string string) : gset string :=
  mandatoryKeys ∪ set_map (λ k, ToLower (TrimSpace k)) (dom overrides).

(** Each line with its newline. *)
Definition unlines (l : list string) : string := foldr (λ x s, x +:+ nls +:+ s) "" l.

Definition keeps_line (skip : gset string) (line : string) : bool :=
  negb (negb (bool_decide (directive line = "")) && bool_decide (directive line ∈ skip)).
Definition stripUserDirectives (raw : string) (skip : gset string) : string :=
  if bool_decide (raw = "") then ""
  else
    let s := TrimRightFunc (λ c, bool_decide (c = nl))
               (unlines (List.filter (keeps_line skip) (Split raw nl))) in
    if bool_decide (s = "") then "" else s +:+ nls.

Definition header_lines : list string :=
  ["# Managed by velkir. Do not edit by hand; this ConfigMap is";
   "# overwritten on every reconcile."; "#";
   "# _POD_IP_ is substituted by the render-config init container at pod";
   "# start using $(POD_IP) from the Downward API."].
Definition headerComment : string := unlines header_lines.

Definition Render (i : Inputs) : string :=
  let mandatory := mandatoryDirectives i in
  let mandatoryKeys := mandatoryKeyset mandatory in
  let overrides := filterOverrides (Overrides i) mandatoryKeys bannedDirectiveKeys in
  let skip := mergeKeysets mandatoryKeys overrides ∪ bannedDirectiveKeys in
  let user := stripUserDirectives (Configuration i) skip in
  headerComment +:+ unlines mandatory +:+
  (if bool_decide (user = "") then "" else nls +:+ "# spec.valkey.configuration" +:+ nls +:+ user) +:+
  (if bool_decide (overrides = ∅) then ""
   else nls +:+ "# spec.valkey.configurationOverrides" +:+ nls +:+
        unlines ((λ k, k +:+ " " +:+ default "" (overrides !! k)) <$>
                 sort_strings (fst <$> map_to_list overrides))).

(** ** sentinel.conf *)
Definition SentinelSeedMasterIPPlaceholder : string := "_SEED_MASTER_IP_".
Definition SentinelAnnounceIPPlaceholder : string := "_POD_IP_".
Definition SentinelPort : Z := 26379.

Record SentinelInputs := {
  si_MasterName : string;
  si_Quorum : Z;
  si_DownAfterMilliseconds : Z;
  si_FailoverTimeout : Z;
  si_ParallelSyncs : Z
}.

Definition sentinel_header : list string :=
  ["# Managed by velkir. Do not edit by hand; this ConfigMap is";
   "# overwritten on every reconcile."; "#";
   "# Master name, quorum, and timing values are folded by the renderer.";
   "# _SEED_MASTER_IP_ is substituted at pod start from the per-CR";
   "# <cr>-sentinel-bootstrap ConfigMap. _POD_IP_ is substituted from";
   "# the Downward API ($POD_IP) on the init container."].

Definition RenderSentinel (i : SentinelInputs) : string :=
  unlines sentinel_header +:+
  unlines ["port " +:+ Itoa SentinelPort;
           "sentinel announce-hostnames no";
           "sentinel resolve-hostnames no";
           "sentinel announce-ip " +:+ SentinelAnnounceIPPlaceholder;
           "sentinel announce-port " +:+ Itoa SentinelPort;
           "sentinel monitor " +:+ si_MasterName i +:+ " " +:+ SentinelSeedMasterIPPlaceholder +:+ " " +:+
             Itoa ValkeyPort +:+ " " +:+ Itoa (si_Quorum i);
           "sentinel down-after-milliseconds " +:+ si_MasterName i +:+ " " +:+ Itoa (si_DownAfterMilliseconds i);
           "sentinel failover-timeout " +:+ si_MasterName i +:+ " " +:+ Itoa (si_FailoverTimeout i);
           "sentinel parallel-syncs " +:+ si_MasterName i +:+ " " +:+ Itoa (si_ParallelSyncs i)].

(** ** Lemmas: lines *)
Definition one_line (s : string) : bool := negb (has_byte nl s).

Lemma one_line_cons c s : one_line (String c s) = negb (bool_decide (c = nl)) && one_line s.
Proof. unfold one_line. rewrite has_byte_cons. by rewrite negb_orb. Qed.

Lemma one_line_app s t : one_line (s +:+ t) = one_line s && one_line t.
Proof. unfold one_line. by rewrite has_byte_app, negb_orb. Qed.

Lemma Split_nonempty s c : Split s c ≠ [].
Proof. destruct s as [|x s]; simpl; [done|]. case_bool_decide; [done|]. by destruct (Split s c). Qed.

Lemma Split_line s rest : one_line s = true → Split (s +:+ nls +:+ rest) nl = s :: Split rest nl.
Proof.
  induction s as [|c s IH]; intros Hs; [done|]. rewrite one_line_cons in Hs. apply andb_prop in Hs as [Hc Hs].
  rewrite str_app_cons. cbn [Split]. apply negb_true_iff in Hc. rewrite Hc. by rewrite (IH Hs).
Qed.

Lemma Split_unlines l rest :
  Forall (λ s, one_line s = true) l → Split (unlines l +:+ rest) nl = l ++ Split rest nl.
Proof.
  induction 1 as [|s l Hs _ IH]; [done|]. cbn [unlines foldr]. fold (unlines l).
  rewrite !str_app_assoc. rewrite Split_line by done. by rewrite IH.
Qed.

Lemma Split_one_line s : Forall (λ x, one_line x = true) (Split s nl).
Proof.
  induction s as [|c s IH]; [by repeat constructor|]. cbn [Split]. case_bool_decide as Hc.
  - by constructor.
  - pose proof (Split_nonempty s nl). destruct (Split s nl) as [|w ws]; [done|].
    apply Forall_cons in IH as [Hw Hws]. constructor; [|done]. rewrite one_line_cons, Hw.
    by rewrite bool_decide_eq_false_2.
Qed.

(** Trimming newlines off a block of lines drops whole lines, all of them empty. *)
Lemma Trim_unlines l :
  Forall (λ s, one_line s = true) l →
  ∃ l', l' `prefix_of` l ∧
    (let t := TrimRightFunc (λ c, bool_decide (c = nl)) (unlines l) in
     if bool_decide (t = "") then l' = [] else t +:+ nls = unlines l').
Proof.
  induction 1 as [|s l Hs _ (l' & Hpre & IH)]; [by exists []|]. cbn [unlines foldr]. fold (unlines l).
  cbv zeta in *. destruct (bool_decide (TrimRightFunc _ (unlines l) = "")) eqn:Et.
  - apply bool_decide_eq_true in Et.
    assert (Hsl : TrimRightFunc (λ c, bool_decide (c = nl)) (s +:+ nls +:+ unlines l) = s).
    { clear Hpre IH. induction s as [|c s IHs].
      { change ("" +:+ nls +:+ unlines l) with (String nl (unlines l)). cbn [TrimRightFunc]. by rewrite Et. }
      rewrite one_line_cons in Hs. apply andb_prop in Hs as [Hc Hs]. rewrite str_app_cons. cbn [TrimRightFunc].
      rewrite (IHs Hs). apply negb_true_iff in Hc. destruct s; [by rewrite Hc|done]. }
    rewrite Hsl. case_bool_decide as Hn; [by exists []; split; [apply prefix_nil|]|].
    exists [s]. split; [apply prefix_cons, prefix_nil|]. cbn. by rewrite str_app_nil_r.
  - set (t := TrimRightFunc _ (unlines l)) in *.
    assert (Hsl : TrimRightFunc (λ c, bool_decide (c = nl)) (s +:+ nls +:+ unlines l) = s +:+ nls +:+ t ∧ t ≠ "").
    { apply bool_decide_eq_false in Et. split; [|done]. clear IH Hpre Hs.
      induction s as [|c s IHs]; rewrite ?str_app_cons; cbn [TrimRightFunc].
      - change ("" +:+ nls +:+ unlines l) with (String nl (unlines l)). cbn [TrimRightFunc]. fold t. by destruct t.
      - rewrite IHs. by destruct s. }
    destruct Hsl as [-> Hne]. rewrite bool_decide_eq_false_2 by (destruct s; done).
    exists (s :: l'). split; [by apply prefix_cons|]. rewrite !str_app_assoc, IH. done.
Qed.

(** ** Lemmas: the first token *)
Fixpoint word (s : string) : string :=
  match s with
  | EmptyString => ""
  | String c s => if Ascii.is_space c then "" else String c (word s)
  end.

Lemma words_head cur s : head (String.words_go (Some cur) s) = Some (String.rev_app cur (word s)).
Proof.
  revert cur. induction s as [|c s IH]; intros cur; [done|]. cbn [String.words_go word].
  destruct (Ascii.is_space c); [done|]. cbn [from_option]. by rewrite IH.
Qed.

Lemma word_trim s : word (TrimRightFunc Ascii.is_space s) = word s.
Proof.
  induction s as [|c s IH]; [done|]. cbn [TrimRightFunc].
  destruct (TrimRightFunc _ s) as [|d t]; cbn [word]; destruct (Ascii.is_space c) eqn:E; cbn [word]; rewrite ?E.
  - done.
  - f_equal. exact IH.
  - done.
  - f_equal. exact IH.
Qed.

Lemma trim_cons c s : Ascii.is_space c = false →
  ∃ t, TrimRightFunc Ascii.is_space (String c s) = String c t ∧ word t = word s.
Proof.
  intros Hc. pose proof (word_trim s) as Hw. cbn [TrimRightFunc].
  destruct (TrimRightFunc _ s) as [|d t]; [rewrite Hc|]; by eexists.
Qed.

Lemma trim_left_head s c t : TrimLeftSpace s = String c t → Ascii.is_space c = false.
Proof.
  induction s as [|a s IH]; [done|]. cbn [TrimLeftSpace]. destruct (Ascii.is_space a) eqn:E; [done|].
  by intros [= <- _].
Qed.

Lemma directive_first s :
  directive s = match TrimLeftSpace s with
                | EmptyString => ""
                | String c t => if bool_decide (c = "#"%char) then "" else ToLower (String c (word t))
                end.
Proof.
  unfold directive, TrimSpace. destruct (TrimLeftSpace s) as [|c t] eqn:E; [done|].
  pose proof (trim_left_head _ _ _ E) as Hc. destruct (trim_cons c t Hc) as (t' & -> & Hw).
  rewrite bool_decide_eq_false_2 by done. cbn [orb].
  assert (Hp : HasPrefix (String c t') "#" = bool_decide (c = "#"%char)).
  { unfold HasPrefix. cbn [String.prefix]. destruct (Stdlib.Strings.Ascii.ascii_dec "#" c) as [<-|Hne].
    - rewrite bool_decide_eq_true_2 by done. by destruct t'.
    - rewrite bool_decide_eq_false_2 by congruence. done. }
  rewrite Hp. case_bool_decide; [done|]. unfold Fields, String.words. cbn [String.words_go]. rewrite Hc.
  pose proof (words_head (String c "") t') as Hh. cbn [from_option] in *.
  destruct (String.words_go (Some (String c "")) t') as [|w ws]; [done|]. injection Hh as ->.
  by rewrite <- Hw.
Qed.

Definition blank (s : string) : bool := bool_decide (TrimLeftSpace s = "").

Lemma directive_override k v : blank k = false → directive (k +:+ " " +:+ v) = directive k.
Proof.
  unfold blank. intros Hb%bool_decide_eq_false. rewrite !directive_first.
  assert (Hw : ∀ t, word (t +:+ " " +:+ v) = word t).
  { induction t as [|c t IH]; [done|]. rewrite str_app_cons. cbn [word]. destruct (Ascii.is_space c); [done|].
    by rewrite IH. }
  induction k as [|c k IH]; [done|]. rewrite str_app_cons. cbn [TrimLeftSpace] in *.
  destruct (Ascii.is_space c); [by apply IH|]. by rewrite Hw.
Qed.

(** ** What a line of the configuration sets, on its face *)
Definition owned_names : list string :=
  ["dir"; "bind"; "daemonize"; "masterauth"; "min-replicas-max-lag"; "min-replicas-to-write"; "port"; "protected-mode";
   "replica-announce-ip"; "replica-announce-port"; "replicaof"; "requirepass"; "sentinel"; "slaveof"; "unixsocket"].

Abbreviation chars_of := Stdlib.Strings.String.list_ascii_of_string.

(** The line is [key], up to case, after white space and before white space or the end. *)
Definition assigns (key line : string) : Prop :=
  ∃ pad name rest, line = pad +:+ name +:+ rest ∧ ToLower name = key ∧
    Forall (λ c, Ascii.is_space c = true) (chars_of pad) ∧
    Forall (λ c, Ascii.is_space c = false) (chars_of name) ∧
    match rest with "" => True | String c _ => Ascii.is_space c = true end.

Lemma trim_pad pad s : Forall (λ c, Ascii.is_space c = true) (chars_of pad) → TrimLeftSpace (pad +:+ s) = TrimLeftSpace s.
Proof.
  induction pad as [|c pad IH]; intros Hp; [done|]. apply Forall_cons in Hp as [Hc Hp].
  rewrite str_app_cons. cbn [TrimLeftSpace]. rewrite Hc. by apply IH.
Qed.

Lemma word_name name rest :
  Forall (λ c, Ascii.is_space c = false) (chars_of name) →
  match rest with "" => True | String c _ => Ascii.is_space c = true end → word (name +:+ rest) = name.
Proof.
  intros Hn Hr. induction name as [|c name IH].
  - destruct rest as [|c rest]; [done|]. change ("" +:+ String c rest) with (String c rest). cbn [word]. by rewrite Hr.
  - apply Forall_cons in Hn as [Hc Hn]. rewrite str_app_cons. cbn [word]. rewrite Hc. f_equal. by apply IH.
Qed.

Lemma assigns_directive key line : key ∈ owned_names → assigns key line → directive line = key.
Proof.
  intros Hk (pad & name & rest & -> & Hl & Hp & Hn & Hr). rewrite directive_first, trim_pad by done.
  assert (Hkey : match key with "" => false | String c _ => negb (bool_decide (c = "#"%char)) end = true).
  { clear Hl. revert key Hk. apply Forall_forall. by repeat constructor. }
  destruct name as [|c name]; [by rewrite <- Hl in Hkey|]. pose proof Hn as [Hc Hn']%Forall_cons. rewrite str_app_cons. cbn [TrimLeftSpace].
  rewrite Hc, word_name by done. case_bool_decide as Eh; [|exact Hl]. subst c. by rewrite <- Hl in Hkey.
Qed.

(** ** What a rendered configuration contains *)
Section render.
Context (i : Inputs).
Let mandatory : list string := mandatoryDirectives i.
Let overrides : gmap string string :=
  filterOverrides (Overrides i) (mandatoryKeyset mandatory) bannedDirectiveKeys.
Let skip : gset string := mergeKeysets (mandatoryKeyset mandatory) overrides ∪ bannedDirectiveKeys.
Let override_lines : list string :=
  (λ k, k +:+ " " +:+ default "" (overrides !! k)) <$> sort_strings (fst <$> map_to_list overrides).

Lemma Itoa_one_line n : one_line (Itoa n) = true.
Proof.
  unfold one_line. rewrite has_byte_Itoa; [done| |done]. intros d Hd.
  assert (d = 0 ∨ d = 1 ∨ d = 2 ∨ d = 3 ∨ d = 4 ∨ d = 5 ∨ d = 6 ∨ d = 7 ∨ d = 8 ∨ d = 9)%N by lia. naive_solver.
Qed.

Lemma mandatory_one_line : Forall (λ s, one_line s = true) mandatory.
Proof.
  unfold mandatory, mandatoryDirectives.
  destruct (Persistent i), (MinReplicasToWrite i), (MinReplicasMaxLag i); cbn [app];
    repeat (apply Forall_cons; split); try apply Forall_nil; try done;
    rewrite ?one_line_app, ?Itoa_one_line; done.
Qed.

Lemma override_entry k v :
  overrides !! k = Some v ↔
  Overrides i !! k = Some v ∧ keeps_override (mandatoryKeyset mandatory) bannedDirectiveKeys (k, v) = true.
Proof. unfold overrides, filterOverrides. by rewrite map_lookup_filter_Some. Qed.

Lemma override_line x :
  x ∈ override_lines → ∃ k v, overrides !! k = Some v ∧ x = k +:+ " " +:+ v.
Proof.
  unfold override_lines. intros (k & -> & Hk)%list_elem_of_fmap. unfold sort_strings in Hk. rewrite sort_by_perm in Hk.
  apply list_elem_of_fmap in Hk as ([k' v] & -> & Hk). apply elem_of_map_to_list in Hk. exists k', v.
  cbn [fst]. by rewrite Hk.
Qed.

Lemma kept_one_line k v : overrides !! k = Some v → one_line (k +:+ " " +:+ v) = true.
Proof.
  intros [_ Hk]%override_entry. unfold keeps_override in Hk. cbn [fst snd] in Hk.
  destruct (_ || _) eqn:E in Hk; [done|]. apply orb_false_elim in E as [E1 E2].
  unfold ContainsInjectionChars in E1, E2. rewrite !one_line_app. unfold one_line.
  destruct (has_byte nl k), (has_byte nl v); done.
Qed.

Lemma override_lines_one_line : Forall (λ s, one_line s = true) override_lines.
Proof. apply Forall_forall. intros x (k & v & Hkv & ->)%override_line. by apply kept_one_line. Qed.

Lemma strip_lines :
  ∃ l, l `prefix_of` List.filter (keeps_line skip) (Split (Configuration i) nl) ∧
       stripUserDirectives (Configuration i) skip = unlines l ∧
       (unlines l = "" → l = []).
Proof.
  unfold stripUserDirectives. case_bool_decide as Hc; [exists []; split; [apply prefix_nil|done]|].
  destruct (Trim_unlines (List.filter (keeps_line skip) (Split (Configuration i) nl))) as (l & Hpre & Hl).
  { apply Forall_forall. intros x [Hx _]%list_elem_of_In%filter_In. apply list_elem_of_In in Hx.
    pose proof (Split_one_line (Configuration i)) as Hs. rewrite Forall_forall in Hs. by apply Hs. }
  cbv zeta in *. case_bool_decide as Ht; exists l; (split; [done|]).
  - by rewrite Hl.
  - split; [done|]. destruct l as [|x l]; [done|]. intros Hu. by destruct x.
Qed.

(** Every line of the output, with where it comes from. *)
Lemma render_lines :
  ∃ user, user `prefix_of` List.filter (keeps_line skip) (Split (Configuration i) nl) ∧
    ∀ x, x ∈ Split (Render i) nl →
      directive x = "" ∨ x ∈ mandatory ∨ x ∈ user ∨ x ∈ override_lines.
Proof.
  destruct strip_lines as (user & Hpre & Hs & Hn). exists user. split; [done|]. intros x Hx.
  assert (Hone : Forall (λ s, one_line s = true) user).
  { apply Forall_forall. intros y Hy. destruct Hpre as [rest Hrest].
    assert (Hin : y ∈ List.filter (keeps_line skip) (Split (Configuration i) nl)) by (rewrite Hrest; set_solver).
    apply list_elem_of_In, filter_In in Hin as [Hin%list_elem_of_In _].
    pose proof (Split_one_line (Configuration i)) as Ho. rewrite Forall_forall in Ho. by apply Ho. }
  assert (Hh : Forall (λ s, one_line s = true) header_lines) by (repeat constructor).
  unfold Render in Hx. cbv zeta in Hx. fold mandatory in Hx. fold overrides in Hx. fold skip in Hx.
  unfold headerComment in Hx. rewrite Hs in Hx. fold override_lines in Hx.
  rewrite (Split_unlines header_lines) in Hx by done. apply elem_of_app in Hx as [Hx|Hx].
  { left. revert x Hx. apply Forall_forall. by repeat constructor. }
  rewrite (Split_unlines mandatory) in Hx by apply mandatory_one_line.
  apply elem_of_app in Hx as [Hx|Hx]; [by auto|].
  assert (Hov : ∀ y, y ∈ Split (if bool_decide (overrides = ∅) then "" else nls +:+
            "# spec.valkey.configurationOverrides" +:+ nls +:+ unlines override_lines) nl →
            directive y = "" ∨ y ∈ override_lines).
  { intros y. destruct (bool_decide (overrides = ∅)); [intros ->%list_elem_of_singleton; by left|].
    change (nls +:+ ?a) with ("" +:+ nls +:+ a). rewrite Split_line by done. rewrite Split_line by done.
    rewrite <- (str_app_nil_r (unlines override_lines)), Split_unlines by apply override_lines_one_line.
    intros [->|[->|[Hy|Hy]%elem_of_app]%elem_of_cons]%elem_of_cons; auto.
    cbn in Hy. apply list_elem_of_singleton in Hy as ->. by left. }
  destruct (bool_decide (unlines user = "")).
  - destruct (Hov x Hx); auto.
  - rewrite !str_app_assoc in Hx. change (nls +:+ ?a) with ("" +:+ nls +:+ a) in Hx at 1.
    rewrite Split_line in Hx by done. rewrite Split_line in Hx by done.
    rewrite (Split_unlines user) in Hx by done.
    apply elem_of_cons in Hx as [->|Hx]; [by auto|]. apply elem_of_cons in Hx as [->|Hx]; [by auto|].
    apply elem_of_app in Hx as [Hx|Hx]; [by auto|]. destruct (Hov x Hx); auto.
Qed.

Lemma mandatory_rendered x : x ∈ mandatoryDirectives i → x ∈ Split (Render i) nl.
Proof.
  intros Hx. unfold Render. cbv zeta. fold mandatory.
  unfold headerComment. rewrite (Split_unlines header_lines) by (repeat constructor).
  rewrite (Split_unlines mandatory) by apply mandatory_one_line.
  apply elem_of_app. right. apply elem_of_app. by left.
Qed.

Lemma owned_key key : key ∈ owned_names → key ∈ bannedDirectiveKeys ∪ mandatoryKeyset mandatory.
Proof.
  intros Hk. apply elem_of_union. destruct (decide (key = "dir")) as [->|Hd].
  - right. unfold mandatoryKeyset, directive_set. apply elem_of_list_to_set, list_elem_of_filter. split; [done|].
    apply list_elem_of_fmap. exists ("dir " +:+ (if Persistent i then "/data" else "/tmp")).
    split; [by destruct (Persistent i)|left].
  - left. unfold owned_names in Hk. apply elem_of_cons in Hk as [?|Hk]; [done|]. clear Hd. revert key Hk.
    apply Forall_forall. refine (bool_decide_unpack _ _). vm_compute. exact I.
Qed.

Lemma owned_line x :
  (∀ k, k ∈ dom (Overrides i) → blank k = false) →
  x ∈ Split (Render i) nl → directive x ∈ bannedDirectiveKeys ∪ mandatoryKeyset mandatory → x ∈ mandatory.
Proof.
  intros Hblank Hx Hd. destruct render_lines as (user & Hpre & Hall).
  assert (Hne : directive x ≠ "").
  { intros E. rewrite E in Hd. apply elem_of_union in Hd as [Hd|Hd];
      apply elem_of_list_to_set, list_elem_of_filter in Hd as [Hd _]; done. }
  destruct (Hall x Hx) as [?|[?|[Hu|Ho]]]; [done|done| |].
  - exfalso. destruct Hpre as [rest Hrest].
    assert (Hin : x ∈ List.filter (keeps_line skip) (Split (Configuration i) nl)) by (rewrite Hrest; apply elem_of_app; by left).
    apply list_elem_of_In, filter_In in Hin as [_ Hk]. unfold keeps_line in Hk.
    rewrite bool_decide_eq_false_2 in Hk by done. cbn [negb andb] in Hk. apply negb_true_iff, bool_decide_eq_false in Hk.
    apply Hk. unfold skip, mergeKeysets. rewrite !elem_of_union. apply elem_of_union in Hd as [?|?]; auto.
  - exfalso. apply override_line in Ho as (k & v & Hkv & ->). apply override_entry in Hkv as [Hk Hkeep].
    rewrite directive_override in Hd by (apply Hblank, elem_of_dom; eauto).
    unfold keeps_override in Hkeep. cbn [fst snd] in Hkeep. destruct (_ || _) in Hkeep; [done|].
    apply negb_true_iff, orb_false_elim in Hkeep as [H1 H2].
    apply bool_decide_eq_false in H1, H2. by apply elem_of_union in Hd as [?|?].
Qed.

(** C31: The user cannot set an operator-owned directive by its name.  Take the names the
    operator owns (dir, port, bind, requirepass, masterauth, replicaof, slaveof, the
    write-loss floor, every sentinel directive, ...), in any mix of upper and lower case,
    at the start of a line or after white space, followed by white space or the end.  Every
    line of the rendered valkey.conf that begins so is one of the operator's own lines,
    whatever the user's snippet and override values are, also if admission was bypassed, as
    long as no override has a blank key; and all of the operator's lines are there. *)
Theorem render_keeps_ownership :
  (∀ k, k ∈ dom (Overrides i) → blank k = false) →
  (∀ x key, x ∈ Split (Render i) nl → key ∈ owned_names → assigns key x → x ∈ mandatoryDirectives i) ∧
  (∀ x, x ∈ mandatoryDirectives i → x ∈ Split (Render i) nl).
Proof.
  intros Hblank. split; [|apply mandatory_rendered]. intros x key Hx Hk Ha. apply owned_line; [done..|].
  rewrite (assigns_directive key x) by done. by apply owned_key.
Qed.
End render.

Definition demo_inputs (k v : string) : Inputs :=
  {| Persistent := true; Configuration := "maxmemory 1gb" +:+ nls +:+ " ReplicaOf 10.0.0.9 6379" +:+ nls;
     Overrides := {[ k := v ]}; MinReplicasToWrite := Some 1; MinReplicasMaxLag := Some 10 |}.

Lemma render_keeps_ownership_witness :
  let lines := Split (Render (demo_inputs "appendonly" "yes")) nl in
  "maxmemory 1gb" ∈ lines ∧ "port 6379" ∈ lines ∧ " ReplicaOf 10.0.0.9 6379" ∉ lines.
Proof.
  intros lines.
  assert (H : "maxmemory 1gb" ∈ lines) by (refine (bool_decide_unpack _ _); vm_compute; exact I).
  destruct (render_keeps_ownership (demo_inputs "appendonly" "yes")) as [H1 H2].
  - intros k Hk. cbn in Hk. rewrite dom_singleton_L in Hk. apply elem_of_singleton in Hk as ->. reflexivity.
  - split; [exact H|]. split; [apply H2; right; left|]. intros Hx.
    assert (Hm : " ReplicaOf 10.0.0.9 6379" ∈ mandatoryDirectives (demo_inputs "appendonly" "yes")).
    { apply (H1 _ "replicaof" Hx); [refine (bool_decide_unpack _ _); vm_compute; exact I|].
      exists " ", "ReplicaOf", " 10.0.0.9 6379". split; [reflexivity|]. split; [reflexivity|].
      split; [repeat constructor|]. split; [repeat constructor|reflexivity]. }
    revert Hm. apply (bool_decide_unpack _). vm_compute. exact I.
Defined.

Definition dquoted (s : string) : string := String "034"%char (s +:+ String "034"%char "").

(** A name in quotes is not recognised: the line is rendered as the user wrote it. *)
Definition quoted_inputs : Inputs :=
  {| Persistent := true; Configuration := dquoted "requirepass" +:+ " mine" +:+ nls;
     Overrides := {[ "'replicaof'" := "10.0.0.9 6379" ]}; MinReplicasToWrite := None; MinReplicasMaxLag := None |}.
Theorem quoted_name_rendered :
  let lines := Split (Render quoted_inputs) nl in
  dquoted "requirepass" +:+ " mine" ∈ lines ∧ "'replicaof' 10.0.0.9 6379" ∈ lines.
Proof. split; refine (bool_decide_unpack _ _); vm_compute; exact I. Qed.
