(* ===== verification/Webhook.v ===== *)
(** * The validating webhook: [internal/webhook/v1beta1/{valkey_validator,deviations}.go]

    [validate] gives the warnings, the field errors (none: the CR is admitted) and
    the audit records.  Code that ranges over a Go map takes its order from
    [MapRange].  Regular expressions are written out for the two that are used. *)
From S2P Require Import Prelude GoStd GoFmt Status PvcResize ApiTypes Defaults Version ValkeyConf.
Local Open Scope Z_scope.

(** ** Field errors *)
Inductive ErrorType : Type := FieldValueRequired | FieldValueInvalid | FieldValueForbidden | FieldValueNotSupported.
Definition ErrorType_string (t : ErrorType) : string :=
  match t with
  | FieldValueRequired => "FieldValueRequired" | FieldValueInvalid => "FieldValueInvalid"
  | FieldValueForbidden => "FieldValueForbidden" | FieldValueNotSupported => "FieldValueNotSupported"
  end.
Record field_error := { e_Type : ErrorType; e_Field : string; e_BadValue : string; e_Detail : string }.
Definition Invalid (path value detail : string) : field_error :=
  {| e_Type := FieldValueInvalid; e_Field := path; e_BadValue := value; e_Detail := detail |}.
Definition Forbidden (path detail : string) : field_error :=
  {| e_Type := FieldValueForbidden; e_Field := path; e_BadValue := ""; e_Detail := detail |}.
Definition Required (path detail : string) : field_error :=
  {| e_Type := FieldValueRequired; e_Field := path; e_BadValue := ""; e_Detail := detail |}.
Definition NotSupported (path value : string) (allowed : list string) : field_error :=
  {| e_Type := FieldValueNotSupported; e_Field := path; e_BadValue := value;
     e_Detail := "supported values: " +:+ Join (Quote <$> allowed) ", " |}.
Definition at_key (path k : string) : string := path +:+ "[" +:+ k +:+ "]".

(** ** Reserved keys *)
Definition reservedLabels : list string :=
  ["app.kubernetes.io/component"; "app.kubernetes.io/instance"; "app.kubernetes.io/managed-by";
   "app.kubernetes.io/name"; "app.kubernetes.io/part-of"; "velkir.ioxie.dev/component";
   "velkir.ioxie.dev/cr"; "velkir.ioxie.dev/instance-name"; "velkir.ioxie.dev/role"].
Definition reservedAnnotationPrefixes : list string := ["velkir.ioxie.dev/"].
Definition reservedAnnotationKeys : list string := ["app.kubernetes.io/managed-by"].

Definition validateOperatorTriggerAnnotations (ann : gmap string string) : list field_error :=
  omap (λ key,
    match ann !! key with
    | None => None
    | Some val =>
        if bool_decide (val = triggerTrueValue) then None
        else Some (Invalid (at_key "metadata.annotations" key) val
          ("operator-trigger annotation " +:+ Quote key +:+ " must be the literal string " +:+ Quote "true" +:+ " (got " +:+
           Quote val +:+ "); " +:+ Quote "True" +:+ ", " +:+ Quote "1" +:+ ", " +:+ Quote "yes" +:+
           ", and other truthy synonyms are rejected on purpose"))
    end) operatorTriggerAnnotations.

Section webhook.
Context {R : MapRange}.

Definition validateReservedLabels (parent : string) (labels : gmap string string) : list field_error :=
  omap (λ '(k, v),
    if bool_decide (k ∈ reservedLabels) then
      Some (Forbidden (at_key parent k)
        ("label key " +:+ Quote k +:+ " is reserved for the operator (got value " +:+ Quote v +:+
         "); user-supplied values here would collide with operator-managed pod labels"))
    else None) (range_of labels).

Definition validateReservedAnnotations (parent : string) (ann : gmap string string) : list field_error :=
  omap (λ '(k, v),
    if bool_decide (k ∈ reservedAnnotationKeys) then
      Some (Forbidden (at_key parent k)
        ("annotation key " +:+ Quote k +:+ " is reserved for the operator (got value " +:+ Quote v +:+ ")"))
    else match List.find (λ p, HasPrefix k p) reservedAnnotationPrefixes with
    | Some p =>
        Some (Forbidden (at_key parent k)
          ("annotation prefix " +:+ Quote p +:+ " is reserved for the operator (got key " +:+ Quote k +:+ ")"))
    | None => None
    end) (range_of ann).

(** ** Configuration *)
Definition re_space (c : ascii) : bool :=
  bool_decide (c ∈ ["009"; "010"; "012"; "013"; " "]%char).
Definition is_letter (c : ascii) : bool :=
  let n := nat_of_ascii c in (Nat.leb 65 n && Nat.leb n 90) || (Nat.leb 97 n && Nat.leb n 122).
Definition is_digit (c : ascii) : bool := let n := nat_of_ascii c in Nat.leb 48 n && Nat.leb n 57.
Definition name_byte (c : ascii) : bool := is_letter c || is_digit c || bool_decide (c = "-"%char).

Fixpoint span (f : ascii → bool) (s : string) : string * string :=
  match s with
  | EmptyString => ("", "")
  | String c s' => if f c then let '(a, b) := span f s' in (String c a, b) else ("", s)
  end.
(** A directive-shaped name at the start of [s]: the longest match. *)
Definition name_at (s : string) : option (string * string) :=
  match s with
  | String c s' => if is_letter c then let '(a, b) := span name_byte s' in Some (String c a, b) else None
  | EmptyString => None
  end.

(** [configLineRegexp]: the group it captures. *)
Definition configLineRegexp (line : string) : option string :=
  match name_at (span re_space line).2 with
  | None => None
  | Some (first, rest) =>
      match span re_space rest with
      | (EmptyString, _) => Some first
      | (sp, rest') =>
          match name_at rest' with
          | Some (second, _) => Some (first +:+ sp +:+ second)
          | None => Some first
          end
      end
  end.

Definition extractDirective (line : string) : string :=
  match configLineRegexp line with
  | None => ""
  | Some m =>
      match Fields m with
      | [] => ""
      | [w] => w
      | w :: w2 :: _ => if bool_decide (w = "sentinel") then w +:+ " " +:+ w2 else w
      end
  end.

(** The directive of a line of the snippet, lower-cased; [None]: blank, comment, or no match. *)
Definition raw_directive (line : string) : option string :=
  let trimmed := TrimSpace line in
  if bool_decide (trimmed = "") || HasPrefix trimmed "#" then None
  else
    let d := extractDirective trimmed in
    if bool_decide (d = "") then None else Some (ToLower d).

Definition sorted_keys (m : gmap string string) : list string := sort_strings (fst <$> map_to_list m).

Definition conf_path : string := "spec.valkey.configuration".
Definition ov_path : string := "spec.valkey.configurationOverrides".

Definition validateConfigBanlist (raw : string) (overrides : gmap string string) : list field_error :=
  (if bool_decide (raw = "") then []
   else omap (λ '(n, line),
          match raw_directive line with
          | Some d =>
              if bool_decide (d ∈ OperatorOwnedDirectives) then
                Some (Invalid conf_path ("line " +:+ Itoa (Z.of_nat n + 1))
                  ("directive " +:+ Quote d +:+ " is operator-owned and may not be set in spec.valkey.configuration"))
              else None
          | None => None
          end) (zip (seq 0 (length (Split raw nl))) (Split raw nl))) ++
  omap (λ k,
    if bool_decide (NormalizeDirectiveKey k ∈ bannedDirectiveKeys) then
      Some (Forbidden (at_key ov_path k)
        ("directive " +:+ Quote (NormalizeDirectiveKey k) +:+
         " is operator-owned and may not be set as a configuration override (key " +:+ Quote k +:+ " normalises to it)"))
    else None) (sorted_keys overrides).

Definition validateConfigControlChars (raw : string) (overrides : gmap string string) : list field_error :=
  (if ContainsNUL raw then [Invalid conf_path "<control-char>" "must not contain a NUL byte"] else []) ++
  (sorted_keys overrides ≫= λ k,
    (if ContainsInjectionChars k then
       [Invalid (at_key ov_path k) "<control-char>" "key must not contain a newline, carriage return, or NUL byte (the renderer emits `<key> <value>`; a control char in the key would inject or truncate a directive in the rendered config)"]
     else []) ++
    (if ContainsInjectionChars (default "" (overrides !! k)) then
       [Invalid (at_key ov_path k) "<control-char>" "value must not contain a newline, carriage return, or NUL byte (config values are single-line; a newline here would inject a second directive)"]
     else [])).

Definition dedupStrings (l : list string) : list string :=
  foldl (λ out s, if bool_decide (s ∈ out) then out else out ++ [s]) [] l.
Definition reservedRenderTokens : list string := dedupStrings [PodIPPlaceholder; SentinelAnnounceIPPlaceholder].

Definition validateReservedRenderTokens (raw : string) (overrides : gmap string string) : list field_error :=
  reservedRenderTokens ≫= λ tok,
    (if negb (bool_decide (raw = "")) && Contains raw tok then
       [Invalid conf_path "<reserved-token>"
          ("contains reserved init-container placeholder " +:+ Quote tok +:+
           " (substituted with the pod IP at runtime); choose a different token")]
     else []) ++
    omap (λ '(k, v),
      if Contains v tok then
        Some (Invalid (at_key ov_path k) "<reserved-token>"
          ("value contains reserved init-container placeholder " +:+ Quote tok +:+
           " (substituted with the pod IP at runtime); choose a different token"))
      else None) (range_of overrides).

(** ** Images *)

(** [order] is the iteration order of the three-entry map literal. *)
Definition validateImageBanlist (order : list (string * ContainerImage)) : list field_error :=
  omap (λ '(name, ci),
    if Contains (ToLower (Repository ci)) "bitnami" then
      Some (Invalid ("spec.image." +:+ name +:+ ".repository") (Repository ci)
        ("image repository may not contain the substring " +:+ Quote "bitnami" +:+ "; pull the upstream image directly"))
    else None) order.

Definition tag_byte (c : ascii) : bool :=
  is_letter c || is_digit c || bool_decide (c ∈ ["_"; "."; "-"]%char).
Definition imageTagRegexp (tag : string) : bool :=
  match tag with
  | EmptyString => false
  | String c s => (is_letter c || is_digit c || bool_decide (c = "_"%char)) &&
                  forallb tag_byte (String.list_ascii_of_string s) && (Z.of_nat (String.length s) <=? 127)
  end.
Definition floatingTags : list string := ["latest"; "main"; "master"; "stable"; "edge"].

Definition check_tag (name : string) (ci : ContainerImage) : list string * list field_error :=
  let hasDigestPin := Contains (Repository ci) "@sha256:" in
  let path := "spec.image." +:+ name +:+ ".tag" in
  if bool_decide (Tag ci = "") && negb hasDigestPin then
    ([], [Required path ("image tag for " +:+ Quote name +:+
            " is required (or pin the digest via `repo@sha256:...` in repository)")])
  else if negb (bool_decide (Tag ci = "")) && negb (imageTagRegexp (Tag ci)) then
    ([], [Invalid path (Tag ci) "image tag must match [A-Za-z0-9_][A-Za-z0-9_.-]{0,127}"])
  else if bool_decide (ToLower (Tag ci) ∈ floatingTags) then
    (["image " +:+ Quote name +:+ " tag " +:+ Quote (Tag ci) +:+
      " is a floating reference; pin a versioned tag for reproducibility"], [])
  else ([], []).

(** The components in alphabetical order. *)
Definition validateImageTagFormat (img : ImageSpec) : list string * list field_error :=
  let rs := (λ '(n, ci), check_tag n ci) <$>
              [("exporter", im_Exporter img); ("sentinel", im_Sentinel img); ("valkey", im_Valkey img)] in
  (rs ≫= fst, rs ≫= snd).

Definition majorStrings (majors : list Z) : list string := (λ m, Itoa m +:+ ".x") <$> majors.

Definition validateValkeyImageMajorSupported (ci : ContainerImage) : list field_error :=
  if bool_decide (Tag ci = "") then []
  else match ParseValkeyTag (Repository ci +:+ ":" +:+ Tag ci) with
  | Err _ => []
  | Ok parsed =>
      if negb (IsSupportedMajor parsed)
      then [NotSupported "spec.image.valkey.tag" (version_String parsed) (majorStrings SupportedMajors)]
      else []
  end.

(** ** Probes and feature gates *)
Definition describeProbeHandler (p : Probe) : string :=
  if bool_decide (is_Some (Exec p)) then "exec"
  else if HTTPGet p then "httpGet"
  else if GRPC p then "grpc"
  else match TCPSocket p with Some _ => "tcpSocket" | None => "unset" end.

Definition validateProbeHandler (path : string) (p : option Probe) : list field_error :=
  match p with
  | None => []
  | Some p =>
      if negb (HTTPGet p) && negb (GRPC p) &&
         (match TCPSocket p with Some _ => true | None => false end || bool_decide (is_Some (Exec p))) then []
      else [Invalid (path +:+ ".handler") (describeProbeHandler p)
        "valkey liveness probe handler must be tcpSocket or exec; httpGet / grpc handlers reintroduce HTTP / DNS dependencies the operator's probe invariants exclude"]
  end.

Definition known_gates : list string := ["UpgradePreflight"].
Definition validateFeatureGates (gates : gmap string bool) : list string :=
  (if bool_decide (gates !! "UpgradePreflight" = Some false) then
     ["spec.featureGates.UpgradePreflight=false disables the major-version-downgrade preflight in the reconciler; cross-major data-format compatibility is not guaranteed. Intended for testbed / disaster-recovery only."]
   else []) ++
  (let unknown := sort_strings (List.filter (λ k, negb (bool_decide (k ∈ known_gates))) (fst <$> map_to_list gates)) in
   if 0 <? len unknown then
     ["featureGates: unknown keys [" +:+ Join unknown " " +:+ "]; the operator will log a warning for each at startup"]
   else []).

(** ** Warnings on the topology *)
Section cr.
Context {Q : Type} `{!Quantity Q}.
Implicit Types o : Valkey Q.

Definition validateReadinessGateMaxLagBytes o : list string :=
  if bool_decide (rg_MaxLagBytes (v_ReadinessGate (sp_Valkey (Spec o))) = Some 0) then
    ["spec.valkey.readinessGate.maxLagBytes=0 means a replica is only Ready when its replication offset matches the primary's exactly. On a steadily-written primary this never happens, so replicas would never join the read-only Service endpoints. The value is accepted (lab use), but you almost certainly want a small positive byte budget instead."]
  else [].

Definition downAfterFloor : Z := 1000.
Definition failoverTimeoutFloor : Z := 180000.
Definition downAfterRecommended : Z := 30000.

(** One timing value: warnings, errors, and whether the bypass accepted it. *)
Definition check_floor (bypass : bool) (value floor : Z) (fieldName friendlyName : string) :
    list string * list field_error * bool :=
  if floor <=? value then ([], [], false)
  else if bypass then
    (["spec.sentinel." +:+ fieldName +:+ "=" +:+ Itoa value +:+ " is below the recommended floor of " +:+ Itoa floor +:+
      " (" +:+ friendlyName +:+ "); accepting because " +:+ AllowAggressiveTimeoutsAnnotation +:+ "=" +:+
      Quote triggerTrueValue +:+
      " is set, but the operator may take longer to detect a failed primary or may abandon a failover prematurely"],
     [], true)
  else
    ([], [Invalid ("spec.sentinel." +:+ fieldName) (Itoa value)
       (friendlyName +:+ " must be >= " +:+ Itoa floor +:+ " (set " +:+ AllowAggressiveTimeoutsAnnotation +:+ "=" +:+
        Quote "true" +:+ " annotation to bypass at your own risk)")], false).

Definition validateSentinelTimingFloors o : list string * list field_error * bool :=
  match sp_Mode (Spec o), sp_Sentinel (Spec o) with
  | ModeSentinel, Some s =>
      let bypass := bool_decide (o_Annotations o !! AllowAggressiveTimeoutsAnnotation = Some triggerTrueValue) in
      let '(w1, e1, a1) := check_floor bypass (s_DownAfterMilliseconds s) downAfterFloor
                             "downAfterMilliseconds" "down-after-milliseconds" in
      let '(w2, e2, a2) := check_floor bypass (s_FailoverTimeout s) failoverTimeoutFloor
                             "failoverTimeout" "failover-timeout" in
      (w1 ++ w2, e1 ++ e2, a1 || a2)
  | _, _ => ([], [], false)
  end.

Definition qos_problem (r : ResourceRequirements Q) (name : string) : option string :=
  match Limits r ≫= lookup name with
  | None =>
      Some ("spec.sentinel.resources has no " +:+ name +:+ " limit; sentinel pods will not be Guaranteed QoS and are more likely to be evicted under node pressure — set requests==limits on cpu and memory, or omit both to accept the operator's Guaranteed defaults")
  | Some lim =>
      if q_IsZero lim then
        Some ("spec.sentinel.resources has no " +:+ name +:+ " limit; sentinel pods will not be Guaranteed QoS and are more likely to be evicted under node pressure — set requests==limits on cpu and memory, or omit both to accept the operator's Guaranteed defaults")
      else match Requests r ≫= lookup name with
      | Some req =>
          if bool_decide (Cmp req lim = Eq) then None
          else Some ("spec.sentinel.resources " +:+ name +:+ " request (" +:+ q_String req +:+ ") != limit (" +:+
                 q_String lim +:+ "); sentinel pods will be Burstable rather than Guaranteed QoS and are more likely to be evicted under node pressure")
      | None => None
      end
  end.

Definition validateSentinelQoS o : list string :=
  match sp_Mode (Spec o), sp_Sentinel (Spec o) with
  | ModeSentinel, Some s => take 1 (omap (qos_problem (s_Resources s)) ["cpu"; "memory"])
  | _, _ => []
  end.

Definition validateSentinelHA o : list string :=
  match sp_Mode (Spec o) with
  | ModeSentinel =>
      if 2 <=? v_Replicas (sp_Valkey (Spec o)) then []
      else ["mode=sentinel with spec.valkey.replicas=" +:+ Itoa (v_Replicas (sp_Valkey (Spec o))) +:+
            " is sub-HA: at least 2 valkey replicas are required for sentinel to perform a failover. The CR is accepted (lab use), but the reconciler will mark Degraded=True with reason=HANotMet."]
  | _ => []
  end.

Definition validateSentinelReplicaParity o : list string :=
  match sp_Mode (Spec o), sp_Sentinel (Spec o) with
  | ModeSentinel, Some s =>
      if (s_Replicas s <? 4) || negb (Z.rem (s_Replicas s) 2 =? 0) then []
      else ["spec.sentinel.replicas=" +:+ Itoa (s_Replicas s) +:+
            " is even; odd counts are preferred for sentinel quorum stability (split-vote risk on equal-sized factions). The CR is accepted, but consider 3, 5, or 7."]
  | _, _ => []
  end.

Definition validateSentinelQuorumSubMajority o : list string :=
  match sp_Mode (Spec o), sp_Sentinel (Spec o) with
  | ModeSentinel, Some s =>
      let majority := Z.quot (s_Replicas s + 2) 2 in
      if s_Quorum s <=? 0 then []
      else if majority <=? s_Quorum s then []
      else ["spec.sentinel.quorum=" +:+ Itoa (s_Quorum s) +:+ " is below the sentinel pool majority of " +:+
            Itoa majority +:+ " (replicas=" +:+ Itoa (s_Replicas s) +:+
            "): a sub-majority quorum lowers the +odown declaration threshold, letting a minority faction escalate a transient stall to objective-down faster. The CR is accepted, but consider quorum >= " +:+
            Itoa majority +:+ "."]
  | _, _ => []
  end.

(** ** Deviations *)
Record Deviation := { d_Reason : string; d_Field : string; d_Message : string }.

Definition pdbBelowDefault (fieldRef : string) (pdb : option PDBSpec) (replicas : Z) : list Deviation :=
  match pdb ≫= MinAvailable with
  | Some (FromInt32 n) =>
      let floor := Z.max 1 (replicas - 1) in
      if floor <=? n then []
      else [{| d_Reason := "PDBTooPermissive"; d_Field := fieldRef;
               d_Message := fieldRef +:+ ".minAvailable=" +:+ Itoa n +:+
                 " is below the best-practice floor of max(1, replicas-1)=" +:+ Itoa floor +:+ " for replicas=" +:+
                 Itoa replicas +:+ "; values below the floor bypass node-drain protection during rolling updates." |}]
  | _ => []
  end.

Definition pdbDeviations o : list Deviation :=
  pdbBelowDefault "spec.valkey.pdb" (v_PDB (sp_Valkey (Spec o))) (v_Replicas (sp_Valkey (Spec o))) ++
  match sp_Sentinel (Spec o) with
  | Some s => pdbBelowDefault "spec.sentinel.pdb" (s_PDB s) (s_Replicas s)
  | None => []
  end ++
  match v_PDB (sp_Valkey (Spec o)) with
  | Some {| MinAvailable := None; MaxUnavailable := Some m |} =>
      [{| d_Reason := "MaxUnavailableInsteadOfMin"; d_Field := "spec.valkey.pdb";
          d_Message := "spec.valkey.pdb sets maxUnavailable=" +:+ ios_String m +:+
            " but not minAvailable; minAvailable is preferred — the operator's rolling-update math reads minAvailable directly and falls back to maxUnavailable only when minAvailable is unset." |}]
  | _ => []
  end.

Definition termTargetsComponent (component : string) (term : PodAffinityTerm) : bool :=
  match pt_LabelSelector term with
  | None => false
  | Some sel =>
      bool_decide (MatchLabels sel !! ComponentLabelKey = Some component) ||
      existsb (λ req, bool_decide (lr_Key req = ComponentLabelKey) &&
        match lr_Operator req with
        | OpExists => true
        | OpIn => bool_decide (component ∈ lr_Values req)
        | _ => false
        end) (MatchExpressions sel)
  end.

Definition hasSamePodSetAntiAffinity (paa : PodAntiAffinity) (component : string) : bool :=
  existsb (termTargetsComponent component) (RequiredTerms paa) ||
  existsb (λ wt, termTargetsComponent component wt.2) (PreferredTerms paa).

Definition antiAffinityBelowDefault (fieldRef : string) (aff : option Affinity) (replicas : Z) (component : string) :
    list Deviation :=
  if replicas <? 2 then []
  else match aff ≫= PodAntiAff with
  | None => []
  | Some paa =>
      if hasSamePodSetAntiAffinity paa component then []
      else [{| d_Reason := "AntiAffinityTooPermissive"; d_Field := fieldRef;
               d_Message := fieldRef +:+ ".podAntiAffinity has no same-pod-set (component=" +:+ component +:+
                 ") term on topologyKey " +:+ Quote AntiAffinityTopologyKey +:+ ", so two " +:+ component +:+
                 " pods may share a node and a single node failure can take down the set; the defaulter stamps a soft preferred anti-affinity by default — restore a same-pod-set term (soft or hard) to keep cross-node spread." |}]
  end.

Definition antiAffinityDeviations o : list Deviation :=
  antiAffinityBelowDefault "spec.valkey.affinity" (v_Affinity (sp_Valkey (Spec o)))
    (v_Replicas (sp_Valkey (Spec o))) ComponentValkey ++
  match sp_Sentinel (Spec o) with
  | Some s => antiAffinityBelowDefault "spec.sentinel.affinity" (s_Affinity s) (s_Replicas s) ComponentSentinel
  | None => []
  end.

Definition rolloutDeviations o : list Deviation :=
  let r := sp_Rollout (Spec o) in
  (if 1 <? ro_MaxUnavailable r then
     [{| d_Reason := "RolloutFragileQuorum"; d_Field := "spec.rollout.maxUnavailable";
         d_Message := "spec.rollout.maxUnavailable=" +:+ Itoa (ro_MaxUnavailable r) +:+
           " exceeds the best-practice value 1; concurrent multi-pod rolls force the operator to re-derive CKQUORUM with a higher down-count, which is fragile on small sentinel pools (3-replica). The CR is accepted, but consider pinning to 1 unless the data plane carries enough headroom." |}]
   else []) ++
  match sp_Sentinel (Spec o) with
  | Some s =>
      let sec := Z.quot (s_FailoverTimeout s) 1000 in
      if (0 <? FailoverGracePeriodSeconds r) && (FailoverGracePeriodSeconds r <? sec) then
        [{| d_Reason := "RolloutGraceTooTight"; d_Field := "spec.rollout.failoverGracePeriodSeconds";
            d_Message := "spec.rollout.failoverGracePeriodSeconds=" +:+ Itoa (FailoverGracePeriodSeconds r) +:+
              " is below spec.sentinel.failoverTimeout=" +:+ Itoa (s_FailoverTimeout s) +:+ "ms (" +:+ Itoa sec +:+
              "s); the operator may declare FailoverStalled before sentinels themselves would have given up. The CR is accepted, but consider " +:+
              Itoa (sec + 30) +:+ "s (failoverTimeout + a 30s margin) or 0 (operator computes the grace at reconcile time)." |}]
      else []
  | None => []
  end.

Definition sentinelTimingDeviations o : list Deviation :=
  match sp_Mode (Spec o), sp_Sentinel (Spec o) with
  | ModeSentinel, Some s =>
      let da := s_DownAfterMilliseconds s in
      if (da <? downAfterFloor) || (downAfterRecommended <=? da) then []
      else [{| d_Reason := "WarnAggressiveTimeouts"; d_Field := "spec.sentinel.downAfterMilliseconds";
               d_Message := "spec.sentinel.downAfterMilliseconds=" +:+ Itoa da +:+ " is below the recommended " +:+
                 Itoa downAfterRecommended +:+
                 " ms; accepted, but increases spurious-failover risk on CPU-throttled or oversubscribed nodes where a transient stall can look like a crash" |}]
  | _, _ => []
  end.

Definition Deviations o : list Deviation :=
  pdbDeviations o ++ antiAffinityDeviations o ++ rolloutDeviations o ++ sentinelTimingDeviations o.
Definition renderDeviationWarnings o : list string :=
  (λ d, d_Reason d +:+ ": " +:+ d_Message d) <$> Deviations o.

(** ** The whole validation *)
Record audit_record := { au_name : string; au_requestor : string; au_attrs : list (string * string) }.

Definition config_errors o : list field_error :=
  let conf := v_Configuration (sp_Valkey (Spec o)) in
  let ovs := v_ConfigurationOverrides (sp_Valkey (Spec o)) in
  validateConfigBanlist conf ovs ++ validateConfigControlChars conf ovs ++ validateReservedRenderTokens conf ovs.

Definition overlay_errors o : list field_error :=
  validateReservedLabels "spec.valkey.podLabels" (v_PodLabels (sp_Valkey (Spec o))) ++
  validateReservedAnnotations "spec.valkey.podAnnotations" (v_PodAnnotations (sp_Valkey (Spec o))) ++
  match sp_Sentinel (Spec o) with
  | Some s => validateReservedLabels "spec.sentinel.podLabels" (s_PodLabels s) ++
              validateReservedAnnotations "spec.sentinel.podAnnotations" (s_PodAnnotations s)
  | None => []
  end.

(** [imageOrder] is the iteration order of the image banlist; [requestor] the user. *)
Definition validate (imageOrder : ImageSpec → list (string * ContainerImage)) (requestor : string) o :
    list string * list field_error * list audit_record :=
  let img := sp_Image (Spec o) in
  let '(tagWarn, tagErrs) := validateImageTagFormat img in
  let '(timingWarn, timingErrs, aggressiveAccepted) := validateSentinelTimingFloors o in
  let errs :=
    validateOperatorTriggerAnnotations (o_Annotations o) ++ overlay_errors o ++ config_errors o ++
    validateImageBanlist (imageOrder img) ++ tagErrs ++ validateValkeyImageMajorSupported (im_Valkey img) ++
    timingErrs ++
    validateProbeHandler "spec.valkey.customLivenessProbe" (v_LivenessProbe (sp_Valkey (Spec o))) in
  let warnings :=
    tagWarn ++ timingWarn ++ validateFeatureGates (sp_FeatureGates (Spec o)) ++ validateSentinelHA o ++
    validateSentinelReplicaParity o ++ validateSentinelQuorumSubMajority o ++ validateSentinelQoS o ++
    renderDeviationWarnings o ++ validateReadinessGateMaxLagBytes o in
  if 0 <? len errs then
    (warnings, errs,
     (λ e, {| au_name := "admission_rejected"; au_requestor := requestor;
              au_attrs := [("field", e_Field e); ("reason", ErrorType_string (e_Type e))] |}) <$> errs)
  else
    (warnings, [],
     match aggressiveAccepted, sp_Sentinel (Spec o) with
     | true, Some s =>
         [{| au_name := "aggressive_timeouts_accepted"; au_requestor := requestor;
             au_attrs := [("down_after_ms", Itoa (s_DownAfterMilliseconds s));
                          ("failover_timeout_ms", Itoa (s_FailoverTimeout s))] |}]
     | _, _ => []
     end).

Definition admitted (imageOrder : ImageSpec → list (string * ContainerImage)) o : bool :=
  bool_decide (length (validate imageOrder "" o).1.2 = 0%nat).
End cr.
End webhook.

(** ** Lemmas *)
Lemma omap_nil {A B} (f : A → option B) (l : list A) : omap f l = [] ↔ ∀ x, x ∈ l → f x = None.
Proof.
  induction l as [|y l IH]; [split; [intros _ x Hx; inversion Hx|done]|].
  change (omap f (y :: l)) with (match f y with Some z => z :: omap f l | None => omap f l end).
  split.
  - intros H x [->|Hx]%elem_of_cons; [by destruct (f y)|]. destruct (f y); [done|]. by apply IH.
  - intros H. rewrite (H y) by set_solver. apply IH. intros x Hx. apply H. set_solver.
Qed.

Lemma bind_nil {A B} (f : A → list B) (l : list A) : l ≫= f = [] ↔ ∀ x, x ∈ l → f x = [].
Proof.
  induction l as [|y l IH]; [split; [intros _ x Hx; inversion Hx|done]|]. cbn. split.
  - intros [H1 H2]%app_eq_nil x [->|Hx]%elem_of_cons; [done|]. by apply IH.
  - intros H. rewrite (H y) by set_solver. apply IH. intros x Hx. apply H. set_solver.
Qed.

Lemma elem_sorted_keys (m : gmap string string) k : k ∈ sorted_keys m ↔ is_Some (m !! k).
Proof.
  unfold sorted_keys, sort_strings. rewrite sort_by_perm, list_elem_of_fmap. split.
  - intros ([k' v] & -> & Hk%elem_of_map_to_list). eauto.
  - intros [v Hk]. exists (k, v). split; [done|]. by apply elem_of_map_to_list.
Qed.

(** An override the webhook accepts. *)
Definition override_ok (k v : string) : Prop :=
  (directive k ∉ bannedDirectiveKeys) ∧ ContainsInjectionChars k = false ∧ ContainsInjectionChars v = false.

Lemma config_admits `{R : MapRange} {Q} (o : Valkey Q) k v :
  config_errors o = [] → v_ConfigurationOverrides (sp_Valkey (Spec o)) !! k = Some v → override_ok k v.
Proof.
  unfold config_errors. intros [Hb [Hc _]%app_eq_nil]%app_eq_nil Hk.
  assert (Hin : k ∈ sorted_keys (v_ConfigurationOverrides (sp_Valkey (Spec o)))) by (apply elem_sorted_keys; eauto).
  unfold validateConfigBanlist in Hb. apply app_eq_nil in Hb as [_ Hb].
  pose proof (proj1 (omap_nil _ _) Hb k Hin) as Hban. cbv beta in Hban.
  unfold validateConfigControlChars in Hc. apply app_eq_nil in Hc as [_ Hc].
  pose proof (proj1 (bind_nil _ _) Hc k Hin) as Hch. cbv beta in Hch. rewrite Hk in Hch. cbn [from_option id] in Hch.
  apply app_eq_nil in Hch as [H1 H2]. split_and!.
  - intros Hd. unfold NormalizeDirectiveKey in Hban. by rewrite bool_decide_eq_true_2 in Hban.
  - destruct (ContainsInjectionChars k); [discriminate H1|done].
  - destruct (ContainsInjectionChars v); [discriminate H2|done].
Qed.

(** The directives of the operator's lines are the banned ones and [dir]. *)
Lemma mandatory_keys i d :
  d ∈ mandatoryKeyset (mandatoryDirectives i) → d = "dir" ∨ d ∈ bannedDirectiveKeys.
Proof.
  intros Hd. unfold mandatoryKeyset, directive_set in Hd. apply elem_of_list_to_set, list_elem_of_filter in Hd as [_ Hd].
  apply list_elem_of_fmap in Hd as (x & -> & Hx).
  assert (Hb : ∀ w n, w ∈ ["min-replicas-to-write"; "min-replicas-max-lag"] →
            directive (w +:+ " " +:+ Itoa n) ∈ bannedDirectiveKeys).
  { intros w n Hw. rewrite directive_override.
    - apply elem_of_cons in Hw as [->|Hw]; [|apply list_elem_of_singleton in Hw as ->];
        refine (bool_decide_unpack _ _); vm_compute; exact I.
    - apply elem_of_cons in Hw as [->|Hw]; [|apply list_elem_of_singleton in Hw as ->]; reflexivity. }
  unfold mandatoryDirectives in Hx. apply elem_of_app in Hx as [Hx|[Hx|Hx]%elem_of_app].
  - destruct (Persistent i); revert x Hx; apply Forall_forall; repeat constructor;
      refine (bool_decide_unpack _ _); vm_compute; exact I.
  - destruct (MinReplicasToWrite i) as [n|]; [|inversion Hx]. apply list_elem_of_singleton in Hx as ->. right.
    apply (Hb "min-replicas-to-write" n). set_solver.
  - destruct (MinReplicasMaxLag i) as [n|]; [|inversion Hx]. apply list_elem_of_singleton in Hx as ->. right.
    apply (Hb "min-replicas-max-lag" n). set_solver.
Qed.

Lemma dir_mandatory i : "dir" ∈ mandatoryKeyset (mandatoryDirectives i).
Proof.
  apply elem_of_list_to_set, list_elem_of_filter. split; [done|]. apply list_elem_of_fmap.
  exists ("dir " +:+ (if Persistent i then "/data" else "/tmp")). split; [by destruct (Persistent i)|].
  unfold mandatoryDirectives. set_solver.
Qed.

(** C32: Admission and rendering agree on overrides, with one exception.  For every CR
    whose configuration is admitted, the renderer keeps every override except those
    of the [dir] directive, which admission accepts and the renderer drops without a
    word. *)
Theorem admitted_overrides_rendered `{R : MapRange} {Q} (o : Valkey Q) i :
  config_errors o = [] → Overrides i = v_ConfigurationOverrides (sp_Valkey (Spec o)) →
  filterOverrides (Overrides i) (mandatoryKeyset (mandatoryDirectives i)) bannedDirectiveKeys =
  filter (λ kv, directive kv.1 ≠ "dir") (v_ConfigurationOverrides (sp_Valkey (Spec o))).
Proof.
  intros Hc Hi. rewrite Hi. unfold filterOverrides. apply map_filter_ext. intros k v Hk. cbn [fst].
  destruct (config_admits o k v Hc Hk) as (H1 & H2 & H3). unfold keeps_override. cbn [fst snd].
  rewrite H2, H3. cbn [orb]. rewrite (bool_decide_eq_false_2 (directive k ∈ bannedDirectiveKeys)) by done.
  rewrite orb_false_r. split.
  - intros Hn E. apply negb_true_iff, bool_decide_eq_false in Hn. apply Hn. rewrite E. apply dir_mandatory.
  - intros Hn. apply negb_true_iff, bool_decide_eq_false. intros [?|?]%mandatory_keys; done.
Qed.

Definition image_order (img : ImageSpec) : list (string * ContainerImage) :=
  [("valkey", im_Valkey img); ("sentinel", im_Sentinel img); ("exporter", im_Exporter img)].
Definition render_inputs (o : Valkey Z) : Inputs :=
  let v := sp_Valkey (Spec o) in
  {| Persistent := v_Persistent v; Configuration := v_Configuration v; Overrides := v_ConfigurationOverrides v;
     MinReplicasToWrite := v_MinReplicasToWrite v; MinReplicasMaxLag := v_MinReplicasMaxLag v |}.
Definition one_override (k v : string) : Valkey Z := ApplySpecDefaults parse_len (plain_cr ∅ "" {[ k := v ]}).

Lemma admitted_overrides_rendered_witness :
  filterOverrides {[ "appendonly" := "yes" ]}
    (mandatoryKeyset (mandatoryDirectives (render_inputs (one_override "appendonly" "yes")))) bannedDirectiveKeys =
  filter (λ kv, directive kv.1 ≠ "dir") ({[ "appendonly" := "yes" ]} : gmap string string).
Proof.
  apply (admitted_overrides_rendered (R := range_forward) (one_override "appendonly" "yes")
           (render_inputs (one_override "appendonly" "yes"))); [vm_compute; reflexivity|reflexivity].
Defined.

(** An override of [dir] is admitted and dropped. *)
Example dir_override_dropped :
  admitted (R := range_forward) image_order (one_override "dir" "/data/x") = true ∧
  filterOverrides {[ "dir" := "/data/x" ]}
    (mandatoryKeyset (mandatoryDirectives (render_inputs (one_override "dir" "/data/x")))) bannedDirectiveKeys = ∅.
Proof. vm_compute. split; reflexivity. Qed.

(** The ban on [sentinel monitor] in the snippet is case-sensitive in its first word. *)
Example sentinel_case_admitted :
  admitted (R := range_forward) image_order
    (ApplySpecDefaults parse_len (plain_cr ∅ "SENTINEL monitor mymaster 10.0.0.9 6379 2" ∅)) = true ∧
  admitted (R := range_forward) image_order
    (ApplySpecDefaults parse_len (plain_cr ∅ "sentinel monitor mymaster 10.0.0.9 6379 2" ∅)) = false.
Proof. vm_compute. split; reflexivity. Qed.

(** A blank override key smuggles an operator-owned directive through both
    layers.  The CR whose overrides map the empty key to a requirepass line is
    admitted, and its rendered valkey.conf has a line whose directive is requirepass
    and which is not one of the operator's own. *)
Theorem blank_override_key_leaks :
  let o := one_override "" "requirepass evil" in
  admitted (R := range_forward) image_order o = true ∧
  ∃ x, x ∈ Split (Render (render_inputs o)) nl ∧ directive x = "requirepass" ∧
       directive x ∈ bannedDirectiveKeys ∧ x ∉ mandatoryDirectives (render_inputs o).
Proof.
  intros o. split; [vm_compute; reflexivity|]. exists " requirepass evil". split_and!.
  - refine (bool_decide_unpack _ _). vm_compute. exact I.
  - reflexivity.
  - refine (bool_decide_unpack _ _). vm_compute. exact I.
  - refine (bool_decide_unpack _ _). vm_compute. exact I.
Qed.

(** ** Defaults never cause a rejection *)
Section admission.
Context `{R : MapRange} {Q : Type} `{!Quantity Q} (MustParse : string → Q).
Context (order : ImageSpec → list (string * ContainerImage)).
Hypothesis order_perm : ∀ img, order img ≡ₚ image_order img.

Lemma admitted_iff (o : Valkey Q) :
  admitted order o = true ↔
  validateOperatorTriggerAnnotations (o_Annotations o) = [] ∧ overlay_errors o = [] ∧ config_errors o = [] ∧
  validateImageBanlist (order (sp_Image (Spec o))) = [] ∧ (validateImageTagFormat (sp_Image (Spec o))).2 = [] ∧
  validateValkeyImageMajorSupported (im_Valkey (sp_Image (Spec o))) = [] ∧
  (validateSentinelTimingFloors o).1.2 = [] ∧
  validateProbeHandler "spec.valkey.customLivenessProbe" (v_LivenessProbe (sp_Valkey (Spec o))) = [].
Proof.
  unfold admitted, validate. destruct (validateImageTagFormat _) as [tw te].
  destruct (validateSentinelTimingFloors o) as [[sw se] acc]. cbn [fst snd]. rewrite bool_decide_eq_true.
  destruct (0 <? len _) eqn:E; cbn [fst snd].
  - rewrite length_zero_iff_nil. split.
    + intros [H1 [H2 [H3 [H4 [H5 [H6 [H7 H8]%app_eq_nil]%app_eq_nil]%app_eq_nil]%app_eq_nil]%app_eq_nil]%app_eq_nil]%app_eq_nil.
      done.
    + by intros (-> & -> & -> & -> & -> & -> & -> & ->).
  - apply Z.ltb_ge in E. rewrite length_zero_iff_nil. split; [intros _|done]. unfold len in E.
    match type of E with Z.of_nat (length ?l) <= 0 => assert (Hn : l = []) by (destruct l; [done|simpl in E; lia]) end.
    apply app_eq_nil in Hn as [H1 [H2 [H3 [H4 [H5 [H6 [H7 H8]%app_eq_nil]%app_eq_nil]%app_eq_nil]%app_eq_nil]%app_eq_nil]%app_eq_nil].
    done.
Qed.

Definition image_clean (ci : ContainerImage) : bool := negb (Contains (ToLower (Repository ci)) "bitnami").

Lemma banlist_iff img :
  validateImageBanlist (order img) = [] ↔
  image_clean (im_Valkey img) = true ∧ image_clean (im_Sentinel img) = true ∧ image_clean (im_Exporter img) = true.
Proof.
  unfold validateImageBanlist. rewrite omap_nil. setoid_rewrite order_perm. unfold image_order, image_clean. split.
  - intros H. split_and!;
      [specialize (H ("valkey", im_Valkey img))|specialize (H ("sentinel", im_Sentinel img))
      |specialize (H ("exporter", im_Exporter img))]; cbv beta iota in H;
      destruct (Contains _ _); (done || (specialize (H ltac:(set_solver)); done)).
  - intros (H1 & H2 & H3) [n ci] Hx. repeat (apply elem_of_cons in Hx as [[= -> ->]|Hx];
      [by apply negb_true_iff in H1, H2, H3; rewrite ?H1, ?H2, ?H3|]). inversion Hx.
Qed.

Lemma tags_iff img :
  (validateImageTagFormat img).2 = [] ↔
  (check_tag "exporter" (im_Exporter img)).2 = [] ∧ (check_tag "sentinel" (im_Sentinel img)).2 = [] ∧
  (check_tag "valkey" (im_Valkey img)).2 = [].
Proof.
  unfold validateImageTagFormat. cbn [snd fmap list_fmap]. cbn [mbind list_bind]. rewrite app_nil_r. split.
  - intros [H1 [H2 H3]%app_eq_nil]%app_eq_nil. done.
  - by intros (-> & -> & ->).
Qed.

Lemma or_image_cases d x (P : ContainerImage → Prop) : P d → P x → P (or_image d x).
Proof. unfold or_image. by case_bool_decide. Qed.

Lemma floor_ok bypass d v floor f n :
  floor <= d → (check_floor bypass v floor f n).1.2 = [] → (check_floor bypass (or_int d v) floor f n).1.2 = [].
Proof.
  intros Hd. unfold or_int. destruct (v =? 0); [|done]. unfold check_floor.
  by rewrite (proj2 (Z.leb_le floor d) Hd).
Qed.

(** Defaulting never turns an admissible CR into a rejected one: whatever CR the
    validating webhook would admit as submitted, it also admits with the operator's
    defaults applied. *)
Theorem defaults_preserve_admission (o : Valkey Q) :
  admitted order o = true → admitted order (ApplySpecDefaults MustParse o) = true.
Proof.
  rewrite !admitted_iff. intros (H1 & H2 & H3 & H4 & H5 & H6 & H7 & H8).
  destruct (apply_defaults_fields MustParse (o_Name o) (Spec o)) as (G1 & _ & G3 & G4 & G5 & _). cbv zeta in *.
  unfold ApplySpecDefaults. cbn [o_Annotations Spec]. split_and!.
  - done.
  - unfold overlay_errors in *. cbn [Spec]. rewrite G3, G4. destruct (sp_Sentinel (Spec o)); exact H2.
  - unfold config_errors in *. cbn [Spec]. rewrite G3. exact H3.
  - rewrite G5. apply banlist_iff. apply banlist_iff in H4 as (K1 & K2 & K3).
    unfold stampImageDefaults. cbn [sp_Image set_image im_Valkey im_Sentinel im_Exporter].
    split_and!; apply or_image_cases; done.
  - rewrite G5. apply tags_iff. apply tags_iff in H5 as (K1 & K2 & K3).
    unfold stampImageDefaults. cbn [sp_Image set_image im_Valkey im_Sentinel im_Exporter].
    split_and!; apply (or_image_cases _ _ (λ c, (check_tag _ c).2 = [])); done.
  - rewrite G5. unfold stampImageDefaults. cbn [sp_Image set_image im_Valkey].
    by apply (or_image_cases _ _ (λ c, validateValkeyImageMajorSupported c = [])).
  - unfold validateSentinelTimingFloors in *. cbn [Spec o_Annotations]. rewrite G1, G4.
    destruct (sp_Mode (Spec o)); [done|done|]. destruct (sp_Sentinel (Spec o)) as [s|]; [|done].
    cbn [fmap option_fmap option_map defaulted_sentinel s_DownAfterMilliseconds s_FailoverTimeout].
    set (bypass := bool_decide _) in *.
    pose proof (floor_ok bypass 3000 (s_DownAfterMilliseconds s) downAfterFloor "downAfterMilliseconds"
      "down-after-milliseconds" ltac:(done)) as F1.
    pose proof (floor_ok bypass 180000 (s_FailoverTimeout s) failoverTimeoutFloor "failoverTimeout"
      "failover-timeout" ltac:(done)) as F2.
    destruct (check_floor bypass (s_DownAfterMilliseconds s) _ _ _) as [[w1 e1] a1].
    destruct (check_floor bypass (s_FailoverTimeout s) _ _ _) as [[w2 e2] a2].
    destruct (check_floor bypass (or_int 3000 _) _ _ _) as [[w3 e3] a3].
    destruct (check_floor bypass (or_int 180000 _) _ _ _) as [[w4 e4] a4].
    cbn [fst snd] in *. apply app_eq_nil in H7 as [-> ->]. by rewrite F1, F2.
  - rewrite G3. cbn [defaulted_valkey v_LivenessProbe]. destruct (v_LivenessProbe (sp_Valkey (Spec o))); [exact H8|done].
Qed.
End admission.

Definition small_cr : Valkey Z :=
  let o := plain_cr ∅ "maxmemory 1gb" ∅ in
  {| o_Name := o_Name o; o_Namespace := o_Namespace o; o_Labels := ∅; o_Annotations := ∅;
     Spec := set_sentinel (λ s, {| s_MasterName := "mymaster"; s_Replicas := 3; s_Quorum := 2;
               s_DownAfterMilliseconds := 1000; s_FailoverTimeout := 180000; s_ParallelSyncs := 1; s_PDB := None;
               s_Resources := res_none; s_LivenessProbe := None; s_ReadinessProbe := None; s_Affinity := None;
               s_PodAnnotations := ∅; s_PodLabels := ∅ |})
             (set_image {| im_Valkey := default_valkey_image; im_Sentinel := default_valkey_image;
                           im_Exporter := default_exporter_image |} (Spec o)) |}.

Lemma defaults_preserve_admission_witness :
  admitted (R := range_forward) image_order small_cr = true ∧
  admitted (R := range_forward) image_order (ApplySpecDefaults parse_len small_cr) = true.
Proof.
  assert (H : admitted (R := range_forward) image_order small_cr = true) by (vm_compute; reflexivity).
  split; [exact H|].
  apply (defaults_preserve_admission (R := range_forward) parse_len image_order (λ _, reflexivity _) small_cr H).
Defined.
