(* ===== verification/ScaleGuard.v ===== *)
(** * The data-plane StatefulSet: scaling guards and the replica roll

    From [internal/controller/valkey_controller.go]: [reconcileStatefulSet]
    with the checks it runs before it applies the object
    ([checkValkeyImageTransition], [findPrimaryOrdinal],
    [scaleDownPrimaryRefusal]), and [reconcilePodRollout], which deletes stale
    replicas one pass at a time.  Of the object [buildValkeySTS] builds the two
    fields the guards are about are kept, the replica count and the image of the
    container [valkey].  API outcomes and clock readings are inputs. *)
From S2P Require Import Prelude GoStd GoFmt Fsm Observer SQAggregate Status DeriveState PrimaryRollout RoleLabels PvcResize ApiTypes Defaults Version.
Local Open Scope Z_scope.

(** ** Ordinals *)
Fixpoint CutPrefix (s pre : string) : option string :=
  match pre, s with
  | EmptyString, _ => Some s
  | String a pre, String b s => if bool_decide (a = b) then CutPrefix s pre else None
  | String _ _, EmptyString => None
  end.

Definition parseOrdinal (s : string) : Z :=
  match Atoi s with
  | None => -1
  | Some n => if (n <? 0) || (2 ^ 31 - 1 <? n) then -1 else n
  end.

Definition ordinalFromPodName (podName crName : string) : Z :=
  match CutPrefix podName (crName +:+ "-") with
  | None => -1
  | Some suffix => parseOrdinal suffix
  end.

Definition ordinalFromPod (p : Pod) (crName : string) : Z :=
  match pod_Labels p !! podIndexLabel with
  | Some idx => if 0 <=? parseOrdinal idx then parseOrdinal idx else ordinalFromPodName (pod_Name p) crName
  | None => ordinalFromPodName (pod_Name p) crName
  end.

(** One turn of the loop of [findPrimaryOrdinal] over the pod names the label selector matched. *)
Definition min_step (crName : string) (minOrd : Z) (name : string) : Z :=
  match CutPrefix name (crName +:+ "-") with
  | None => minOrd
  | Some suffix =>
      let ord := parseOrdinal suffix in
      if ord <? 0 then minOrd
      else if (minOrd <? 0) || (ord <? minOrd) then ord
      else minOrd
  end.

(** The error is returned beside the ordinal [-1]. *)
Definition findPrimaryOrdinal (crName : string) (listed : result (list string)) : Z * option string :=
  match listed with
  | Err e => (-1, Some e)
  | Ok names => (foldl (min_step crName) (-1) names, None)
  end.

Definition scaleDownPrimaryRefusal (desired current primaryOrd : Z) (primaryErr : option string) : bool :=
  if current <=? desired then false
  else if bool_decide (is_Some primaryErr) then true
  else (0 <=? primaryOrd) && (desired <=? primaryOrd).

(** ** The object *)
Record existing_sts := { ex_Containers : list (string * string); (* name, image *) ex_Replicas : option Z }.
Record applied_sts := { ap_Replicas : Z; ap_Image : string }.

Inductive sts_get : Type := StsFound (e : existing_sts) | StsNotFound | StsReadErr (e : string).

Fixpoint findValkeyContainerImage (cs : list (string * string)) : string :=
  match cs with
  | [] => ""
  | (name, image) :: cs => if bool_decide (name = "valkey") then image else findValkeyContainerImage cs
  end.

Definition FeatureGateUpgradePreflight : string := "UpgradePreflight".

Definition state_name (s : State) : string :=
  match s with
  | StateBootstrap => "Bootstrap" | StateSteady => "Steady" | StateRolloutPending => "RolloutPending"
  | StateRolloutReplicas => "RolloutReplicas" | StateRolloutPrimary => "RolloutPrimary"
  | StateFailoverInFlight => "FailoverInFlight" | StateRolloutComplete => "RolloutComplete"
  | StateDegraded => "Degraded" | StateDegradedQuorumLost => "Degraded+QuorumLost" | StateNone => ""
  end.

Section scale.
Context {Q : Type} (recorder : bool).
Abbreviation recordEventf := (recordEventf recorder).

Definition desiredImage (v : Valkey Q) : string :=
  Repository (im_Valkey (sp_Image (Spec v))) +:+ ":" +:+ Tag (im_Valkey (sp_Image (Spec v))).

Definition checkValkeyImageTransition (v : Valkey Q) (existing : existing_sts) (c : ctl) : bool * ctl :=
  let currentImage := findValkeyContainerImage (ex_Containers existing) in
  if bool_decide (currentImage = "") then (true, c)
  else match ParseValkeyTag currentImage, ParseValkeyTag (desiredImage v) with
  | Ok from, Ok to =>
      let move := version_String from +:+ " → " +:+ version_String to in
      if bool_decide (from = to) then (true, c)
      else if IsDowngrade from to then
        if bool_decide (sp_FeatureGates (Spec v) !! FeatureGateUpgradePreflight = Some false)
        then (true, recordEventf (CREvent true "ValkeyImageTransitionOverridden" "ValkeyImageTransitionOverride"
                ("major-version downgrade " +:+ move +:+ " would be rejected by the version-compat preflight, " +:+
                 "but spec.featureGates.UpgradePreflight=false bypasses the rejection. " +:+
                 "Continuing with the apply; cross-major data-format compatibility is the user's responsibility.")) c)
        else (false, recordEventf (CREvent true "ValkeyImageTransitionRejected" "ValkeyImageTransitionReject"
                ("refusing major-version downgrade " +:+ move +:+
                 " (Valkey does not guarantee cross-major data-format compatibility); " +:+
                 "keeping existing image " +:+ Quote currentImage +:+
                 ". Revert spec.image.valkey.tag to a tag with major " +:+ Itoa (Major from) +:+
                 " to clear this rejection, " +:+
                 "or set spec.featureGates.UpgradePreflight=false to bypass the preflight (testbed only).")) c)
      else if IsSkipMinor from to
        then (true, recordEventf (CREvent true "ValkeyImageTransitionWarning" "ValkeyImageTransitionWarn"
                ("transition " +:+ move +:+ " skips minor versions; per docs/versions.md skip-version policy, " +:+
                 "two-or-more-minor skips are best-effort during alpha (validated only on current-1 → current). " +:+
                 "Continuing with the apply.")) c)
        else (true, c)
  | _, _ => (true, c)
  end.

(** The replica count the guards leave in the object, with their events. *)
Definition guarded_replicas (v : Valkey Q) (existing : existing_sts) (listed : result (list string))
    (st : State) (c : ctl) : Z * ctl :=
  let currentReplicas := default 0 (ex_Replicas existing) in
  let desiredReplicas := v_Replicas (sp_Valkey (Spec v)) in
  let '(structuralRefuse, c) :=
    if desiredReplicas <? currentReplicas then
      let '(primaryOrd, primaryErr) := findPrimaryOrdinal (o_Name v) listed in
      if scaleDownPrimaryRefusal desiredReplicas currentReplicas primaryOrd primaryErr then
        (true, recordEventf (CREvent true "ScaleRefused" "ScaleRefuse"
           match primaryErr with
           | Some e => "scale-down to " +:+ Itoa desiredReplicas +:+
               " replicas refused: could not determine primary ordinal (" +:+ e +:+
               "); retry once the apiserver is reachable"
           | None => "scale-down to " +:+ Itoa desiredReplicas +:+ " replicas would remove primary at ordinal " +:+
               Itoa primaryOrd +:+ "; failover first or restore " +:+ Itoa currentReplicas
           end) c)
      else (false, c)
    else (false, c) in
  if structuralRefuse then (currentReplicas, c)
  else if negb (desiredReplicas =? currentReplicas) && isInRolloutState st
  then (currentReplicas, recordEventf (CREvent false "ScaleDeferred" "ScaleDeferred"
          ("scale from " +:+ Itoa currentReplicas +:+ " to " +:+ Itoa desiredReplicas +:+
           " replicas deferred while state=" +:+ state_name st +:+ "; applies on return to Steady")) c)
  else (desiredReplicas, c).

(** Outcome of a pass: the object applied, if any, and the error returned.
    [listed] is the List of the pods labelled primary, [apply] the outcome of the
    server-side apply. *)
Definition reconcileStatefulSet (resizePhase : string) (v : Valkey Q) (got : sts_get)
    (listed : result (list string)) (apply : option string) (st : State) (c : ctl) :
    (option applied_sts * option string) * ctl :=
  if isPVCResizeGuardingPhase2 resizePhase then ((None, None), c)
  else
    let submit n c :=
      ((Some {| ap_Replicas := n; ap_Image := desiredImage v |},
        match apply with
        | Some e => Some ("applying STS " +:+ Quote (o_Name v) +:+ ": " +:+ e)
        | None => None
        end), c) in
    match got with
    | StsFound existing =>
        let '(allowed, c) := checkValkeyImageTransition v existing c in
        if negb allowed then ((None, None), c)
        else let '(n, c) := guarded_replicas v existing listed st c in submit n c
    | StsNotFound => submit (v_Replicas (sp_Valkey (Spec v))) c
    | StsReadErr e =>
        ((None, Some ("scale-down precheck: STS read failed: " +:+ e)),
         recordEventf (CREvent true "ScalePrecheckFailed" "ScalePrecheckFail"
           ("could not read existing StatefulSet for scale-down safety check: " +:+ e)) c)
    end.

(** ** The replica roll ([reconcilePodRollout]) *)
Definition rolloutQuorumDeferRequeue : Duration := 10 * Second.

(** What a pass leaves: the Delete it issued, and the readiness watchdog. *)
Record rolled := { ro_delete : option string; ro_watchdog : option Watchdog.MasterAwareRolloutStatus }.

Definition stale_replica (target : string) (p : Pod) : bool :=
  negb (bool_decide (label p stsRevisionLabel = target)) && negb (isPrimary p).
Definition stale_primary (target : string) (p : Pod) : bool :=
  negb (bool_decide (label p stsRevisionLabel = target)) && isPrimary p.

(** [sort.Slice] leaves the order of equal ordinals open; the model takes one of them. *)
Definition by_ordinal (crName : string) (a b : Pod) : bool :=
  ordinalFromPod b crName <? ordinalFromPod a crName.

Definition reconcilePodRollout (v : Valkey Q) (quorumOK : bool) (pods : list Pod)
    (sts : option DeriveState.StatefulSet) (delete : string → option api_error) (now : Time)
    (wd : option Watchdog.MasterAwareRolloutStatus) (c : ctl) :
    (Duration * option string) * rolled * ctl :=
  let idle c := ((0, None), {| ro_delete := None; ro_watchdog := wd |}, c) in
  if bool_decide (sp_Mode (Spec v) = ModeStandalone) then idle c
  else match sts with
  | None => idle c
  | Some sts =>
      let target := UpdateRevision sts in
      let current := CurrentRevision sts in
      if bool_decide (target = "") || bool_decide (target = current) then idle c
      else if negb (forallb pod_settled pods) then idle c
      else
        match sort_by (by_ordinal (o_Name v)) (List.filter (stale_replica target) pods) with
        | [] =>
            idle (if existsb (stale_primary target) pods
                  then recordEventf (CREvent false "RolloutDeferred" "RolloutDefer"
                         "primary pod still at old revision; master-aware recreation deferred") c
                  else c)
        | victim :: _ =>
            if bool_decide (sp_Mode (Spec v) = ModeSentinel) && negb quorumOK then
              ((rolloutQuorumDeferRequeue, None), {| ro_delete := None; ro_watchdog := wd |},
               recordEventf (CREvent false "RolloutDeferred" "RolloutDeferQuorum"
                 "replica rollout deferred: sentinel quorum not OK; deleting a replica now risks dropping the pool below quorum mid-roll") c)
            else
              let fatal :=
                match delete (pod_Name victim) with
                | Some e => if has_kind NotFound e then None else Some (e_text e)
                | None => None
                end in
              match fatal with
              | Some e =>
                  ((0, Some ("deleting stale pod " +:+ Quote (pod_Name victim) +:+ ": " +:+ e)),
                   {| ro_delete := Some (pod_Name victim); ro_watchdog := wd |}, c)
              | None =>
                  let timeout := ReplicaReadyTimeoutSeconds (sp_Rollout (Spec v)) in
                  let timeout := if timeout =? 0 then 300 else timeout in
                  ((0, None),
                   {| ro_delete := Some (pod_Name victim);
                      ro_watchdog := Some (Watchdog.Arm now (pod_Name victim) timeout wd) |},
                   recordEventf (CREvent false "PodRolledForConfig" "PodRollForConfig"
                     ("recreating pod " +:+ pod_Name victim +:+ " for STS revision " +:+ target +:+
                      " (was " +:+ current +:+ ")")) c)
              end
        end
  end.

(** ** Properties of the ordinal scan *)
Lemma min_step_eq crName m name :
  min_step crName m name =
    let ord := ordinalFromPodName name crName in
    if ord <? 0 then m else if (m <? 0) || (ord <? m) then ord else m.
Proof. unfold min_step, ordinalFromPodName. by destruct (CutPrefix _ _). Qed.

Lemma fold_min crName names m :
  let r := foldl (min_step crName) m names in
  (r = m ∨ 0 <= r ∧ ∃ n, n ∈ names ∧ ordinalFromPodName n crName = r) ∧
  (0 <= m → 0 <= r <= m) ∧
  (∀ n, n ∈ names → 0 <= ordinalFromPodName n crName → 0 <= r <= ordinalFromPodName n crName).
Proof.
  revert m. induction names as [|x names IH]; intros m; cbn [foldl].
  { split_and!; [by left|lia|]. intros n Hn. by apply not_elem_of_nil in Hn. }
  destruct (IH (min_step crName m x)) as (H1 & H2 & H3). rewrite min_step_eq in *. cbv zeta in *.
  set (o := ordinalFromPodName x crName) in *. set (r := foldl _ _ _) in *.
  split_and!.
  - destruct H1 as [Hr|(Hr & n & Hn & Ho)]; [|right; split; [done|]; exists n; by rewrite elem_of_cons; auto].
    destruct (Z.ltb_spec o 0); [by left|]. destruct ((m <? 0) || (o <? m)); [|by left].
    right. split; [lia|]. exists x. split; [apply list_elem_of_here|]. by rewrite Hr.
  - intros Hm. destruct (Z.ltb_spec o 0); [by apply H2|].
    destruct (Z.ltb_spec m 0); [lia|]. destruct (Z.ltb_spec o m); simpl in H2; lia.
  - intros n [->|Hn]%elem_of_cons Ho; [|by apply H3]. fold o in Ho |- *.
    destruct (Z.ltb_spec o 0); [lia|]. destruct (Z.ltb_spec m 0); simpl in H2; [lia|].
    destruct (Z.ltb_spec o m); lia.
Qed.

(** A scale-down that is not refused keeps the lowest labelled ordinal. *)
Lemma refusal_sound crName listed desired current :
  desired < current →
  (let '(ord, err) := findPrimaryOrdinal crName listed in
   scaleDownPrimaryRefusal desired current ord err) = false →
  ∃ names, listed = Ok names ∧
    ∀ p, p ∈ names → 0 <= ordinalFromPodName p crName →
      ∃ q, q ∈ names ∧ 0 <= ordinalFromPodName q crName < desired.
Proof.
  intros Hlt. destruct listed as [names|e]; cbn -[foldl].
  2:{ unfold scaleDownPrimaryRefusal. by destruct (Z.leb_spec current desired); [lia|]. }
  intros Href. exists names. split; [done|]. intros p Hp Ho.
  destruct (fold_min crName names (-1)) as (H1 & _ & H3). cbv zeta in *. specialize (H3 p Hp Ho).
  set (r := foldl _ _ _) in *. destruct H1 as [H1|(_ & q & Hq & Hr)]; [lia|].
  exists q. split; [done|]. rewrite Hr. unfold scaleDownPrimaryRefusal in Href.
  destruct (Z.leb_spec current desired); [lia|]. simpl in Href.
  destruct (Z.leb_spec 0 r); [|lia]. destruct (Z.leb_spec desired r); [done|lia].
Qed.

Lemma guarded_replicas_spec v ex listed st c n c' :
  guarded_replicas v ex listed st c = (n, c') →
  let cur := default 0 (ex_Replicas ex) in
  let desired := v_Replicas (sp_Valkey (Spec v)) in
  (n = cur ∨ n = desired) ∧ (isInRolloutState st = true → n = cur) ∧
  (n < cur → (let '(ord, err) := findPrimaryOrdinal (o_Name v) listed in
              scaleDownPrimaryRefusal desired cur ord err) = false).
Proof.
  unfold guarded_replicas. set (cur := default 0 (ex_Replicas ex)). set (des := v_Replicas _). intros H. cbv zeta in *.
  destruct (findPrimaryOrdinal (o_Name v) listed) as [ord err] eqn:Ef.
  destruct (scaleDownPrimaryRefusal des cur ord err) eqn:Er.
  - destruct (Z.ltb_spec des cur); [injection H as <- <-; split_and!; auto; lia|].
    unfold scaleDownPrimaryRefusal in Er. by rewrite (proj2 (Z.leb_le cur des)) in Er by lia.
  - assert (∃ c1, (if negb (des =? cur) && isInRolloutState st
                   then (cur, c1) else (des, c)) = (n, c')) as [c1 H'].
    { destruct (des <? cur); simpl in H; eexists; exact H. }
    clear H. destruct (Z.eqb_spec des cur) as [E|E]; [injection H' as <- <-; rewrite E; auto|].
    simpl in H'. destruct (isInRolloutState st); injection H' as <- <-; auto. split_and!; auto; lia.
Qed.

Lemma transition_allows v ex c c' from to :
  checkValkeyImageTransition v ex c = (true, c') →
  ParseValkeyTag (findValkeyContainerImage (ex_Containers ex)) = Ok from →
  ParseValkeyTag (desiredImage v) = Ok to → IsDowngrade from to = true →
  sp_FeatureGates (Spec v) !! FeatureGateUpgradePreflight = Some false.
Proof.
  unfold checkValkeyImageTransition. intros H Hf Ht Hd. rewrite Hf, Ht in H.
  case_bool_decide as E1; [by rewrite E1 in Hf|]. case_bool_decide as E2.
  { subst. unfold IsDowngrade in Hd. lia. }
  rewrite Hd in H. by case_bool_decide.
Qed.

(** C24: What [reconcileStatefulSet] may apply over an existing StatefulSet, whatever
    the API server answers: the count is the old one or the wanted one, and the old
    one in every rolling state; when it is lower than the old one the labelled
    primaries were read and, if any of them has an ordinal, one of them is among
    the pods that stay; an image of a lower major version is applied only with the
    feature gate [UpgradePreflight] set to false; nothing is applied while a PVC
    resize has the StatefulSet deleted. *)
Theorem scale_guard phase v ex listed apply st c a err c' :
  reconcileStatefulSet phase v (StsFound ex) listed apply st c = ((Some a, err), c') →
  let cur := default 0 (ex_Replicas ex) in
  isPVCResizeGuardingPhase2 phase = false ∧
  (ap_Replicas a = cur ∨ ap_Replicas a = v_Replicas (sp_Valkey (Spec v))) ∧
  (isInRolloutState st = true → ap_Replicas a = cur) ∧
  (ap_Replicas a < cur → ∃ names, listed = Ok names ∧
     ∀ p, p ∈ names → 0 <= ordinalFromPodName p (o_Name v) →
       ∃ q, q ∈ names ∧ 0 <= ordinalFromPodName q (o_Name v) < ap_Replicas a) ∧
  (∀ from to, ParseValkeyTag (findValkeyContainerImage (ex_Containers ex)) = Ok from →
     ParseValkeyTag (ap_Image a) = Ok to → Major to < Major from →
     sp_FeatureGates (Spec v) !! FeatureGateUpgradePreflight = Some false).
Proof.
  unfold reconcileStatefulSet. destruct (isPVCResizeGuardingPhase2 phase); [done|].
  destruct (checkValkeyImageTransition v ex c) as [[|] c1] eqn:Et; [|done].
  destruct (guarded_replicas v ex listed st c1) as [n c2] eqn:Eg. simpl. intros [= <- _ _]. cbn [ap_Replicas ap_Image].
  apply guarded_replicas_spec in Eg as (H1 & H2 & H3). cbv zeta in H1, H2, H3.
  split_and!; [done|done|done| |].
  - intros Hlt. destruct H1 as [->| ->]; [lia|]. apply (refusal_sound _ _ _ _ Hlt). by apply H3.
  - intros from to Hf Ht Hd. apply (transition_allows v ex c c1 from to Et Hf Ht). by apply Z.ltb_lt.
Qed.


Lemma stale_sorted crName target pods x l :
  sort_by (by_ordinal crName) (List.filter (stale_replica target) pods) = x :: l →
  x ∈ pods ∧ stale_replica target x = true ∧
  ∀ q, q ∈ pods → stale_replica target q = true → ordinalFromPod q crName <= ordinalFromPod x crName.
Proof.
  intros E. pose proof (sort_by_perm (by_ordinal crName) (List.filter (stale_replica target) pods)) as Hp.
  assert (Hin : ∀ q, q ∈ x :: l ↔ q ∈ pods ∧ stale_replica target q = true).
  { intros q. rewrite <- E, Hp, list_elem_of_In, filter_In, <- list_elem_of_In. done. }
  assert (Hs : Sorted.StronglySorted (λ a b, ordinalFromPod b crName <= ordinalFromPod a crName) (x :: l)).
  { rewrite <- E. apply sort_by_sorted; [intros a b d; lia| |]; unfold by_ordinal; intros a b H; lia. }
  destruct (proj1 (Hin x) (list_elem_of_here _ _)) as [Hx1 Hx2]. split_and!; [done..|]. intros q Hq1 Hq2.
  assert (q ∈ x :: l) as [->|Hq]%elem_of_cons by by apply Hin. 1: lia.
  apply Sorted.StronglySorted_inv in Hs as [_ Hs]. rewrite Forall_forall in Hs. by apply Hs.
Qed.

(** One pass of the replica roll deletes at most one pod, and a pod it deletes
    is one of the listed ones, is not labelled primary, is at another revision than
    the wanted one, and has the highest ordinal among those; at that moment every
    listed pod was Ready, replication-healthy and not terminating, and in sentinel
    mode the observed quorum was OK. *)
Theorem roll_deletes_safely v quorumOK pods sts delete now wd c out r c' name :
  reconcilePodRollout v quorumOK pods sts delete now wd c = (out, r, c') →
  ro_delete r = Some name →
  ∃ s p, sts = Some s ∧ p ∈ pods ∧ pod_Name p = name ∧ isPrimary p = false ∧
    label p stsRevisionLabel ≠ UpdateRevision s ∧
    (∀ q, q ∈ pods → isPrimary q = false → label q stsRevisionLabel ≠ UpdateRevision s →
       ordinalFromPod q (o_Name v) <= ordinalFromPod p (o_Name v)) ∧
    (∀ q, q ∈ pods → pod_DeletionTimestamp q = None ∧ podReady q = true ∧ podReplicationHealthy q = true) ∧
    (sp_Mode (Spec v) = ModeSentinel → quorumOK = true).
Proof.
  unfold reconcilePodRollout. intros H Hd.
  case_bool_decide as Em; [by simplify_eq|]. destruct sts as [s|]; [|by simplify_eq].
  destruct (_ || _); [by simplify_eq|]. destruct (forallb pod_settled pods) eqn:Es; cbn [negb] in H; [|by simplify_eq].
  destruct (sort_by _ _) as [|x l] eqn:E; [by simplify_eq|].
  destruct (bool_decide (sp_Mode (Spec v) = ModeSentinel) && negb quorumOK) eqn:Eq; [by simplify_eq|].
  assert (pod_Name x = name) as <-. { destruct (delete (pod_Name x)) as [e|]; [destruct (has_kind NotFound e)|];
      injection H as <- <- <-; by injection Hd. }
  clear H. apply stale_sorted in E as (Hx & Hs & Hmax).
  assert (Hst : ∀ q, stale_replica (UpdateRevision s) q = true ↔
                isPrimary q = false ∧ label q stsRevisionLabel ≠ UpdateRevision s).
  { intros q. unfold stale_replica. rewrite andb_true_iff, !negb_true_iff, bool_decide_eq_false. tauto. }
  apply Hst in Hs as [Hs1 Hs2]. exists s, x. split_and!; [done..| | |].
  - intros q Hq Hq1 Hq2. apply Hmax, Hst; auto.
  - intros q Hq. rewrite forallb_forall in Es. specialize (Es q (proj1 (list_elem_of_In _ _) Hq)).
    unfold pod_settled in Es. apply negb_true_iff, orb_false_elim in Es as [[E1 E2]%orb_false_elim E3].
    apply bool_decide_eq_false, eq_None_not_Some in E1. apply negb_false_iff in E2, E3. done.
  - intros Hm. rewrite bool_decide_eq_true_2 in Eq by done. by destruct quorumOK.
Qed.

(** *** Passes to the end of the roll

    Between two passes the StatefulSet controller replaces the deleted pod. *)
Section run.
Context (v : Valkey Q) (sts : DeriveState.StatefulSet) (now : Time) (recreate : Pod → Pod).



Abbreviation stale := (stale_replica (UpdateRevision sts)).

Hypothesis mode : sp_Mode (Spec v) ≠ ModeStandalone.
Hypothesis rolling : UpdateRevision sts ≠ "" ∧ UpdateRevision sts ≠ CurrentRevision sts.
Hypothesis recreate_name : ∀ p, pod_Name (recreate p) = pod_Name p.
Hypothesis recreate_fresh : ∀ p, stale (recreate p) = false.
Hypothesis recreate_settled : ∀ p, pod_settled (recreate p) = true.






End run.
End scale.

(** ** Concrete passes *)
Definition scale_cr (n : Z) (tag : string) : Valkey Z :=
  let o := plain_cr ∅ "" ∅ in
  {| o_Name := o_Name o; o_Namespace := o_Namespace o; o_Labels := ∅; o_Annotations := ∅;
     Spec := set_valkey (with_replicas n)
               (set_image {| im_Valkey := {| Repository := "valkey/valkey"; Tag := tag |};
                             im_Sentinel := image_zero; im_Exporter := image_zero |} (Spec o)) |}.
Definition running (n : Z) (image : string) : existing_sts :=
  {| ex_Containers := [("valkey", image)]; ex_Replicas := Some n |}.

Lemma scale_guard_witness :
  ∃ a, reconcileStatefulSet true "" (scale_cr 2 "8.1") (StsFound (running 3 "valkey/valkey:8.0")) (Ok ["vk-1"]) None
         StateSteady demo_ctl = ((Some a, None), demo_ctl) ∧ ap_Replicas a = 2 ∧
       ∃ names, Ok ["vk-1"] = Ok names ∧ ∀ p, p ∈ names → 0 <= ordinalFromPodName p "vk" →
         ∃ q, q ∈ names ∧ 0 <= ordinalFromPodName q "vk" < 2.
Proof.
  eexists. split; [vm_compute; reflexivity|]. split; [reflexivity|].
  refine (proj1 (proj2 (proj2 (proj2
    (scale_guard true "" (scale_cr 2 "8.1") (running 3 "valkey/valkey:8.0") (Ok ["vk-1"]) None StateSteady demo_ctl
       {| ap_Replicas := 2; ap_Image := "valkey/valkey:8.1" |} None demo_ctl _)))) _);
    [vm_compute; reflexivity|reflexivity].
Defined.

Example downgrade_refused :
  (reconcileStatefulSet true "" (scale_cr 3 "8.0") (StsFound (running 3 "valkey/valkey:9.0")) (Ok []) None
     StateSteady demo_ctl).1 = (None, None).
Proof. vm_compute. reflexivity. Qed.
Example primary_removal_refused :
  (fst <$> (reconcileStatefulSet true "" (scale_cr 2 "8.0") (StsFound (running 3 "valkey/valkey:8.0")) (Ok ["vk-2"])
     None StateSteady demo_ctl).1.1 ≫= λ a, Some (ap_Replicas a, tt)) = Some 3.
Proof. vm_compute. reflexivity. Qed.

(** The guard against removing a primary looks only at the lowest labelled
    ordinal.  With two pods labelled primary, 0 and 2, a scale-down from 3 to 2 is
    applied without any event, and removes the pod vk-2 that carries the label. *)
Theorem second_primary_unguarded :
  reconcileStatefulSet true "" (scale_cr 2 "8.1") (StsFound (running 3 "valkey/valkey:8.1")) (Ok ["vk-0"; "vk-2"])
    None StateSteady demo_ctl =
  ((Some {| ap_Replicas := 2; ap_Image := "valkey/valkey:8.1" |}, None), demo_ctl) ∧
  ordinalFromPodName "vk-2" "vk" = 2.
Proof. vm_compute. done. Qed.

Definition demo_v : list Pod :=
  [demo_pod "vk-0" "10.0.0.1" "primary" "r1"; demo_pod "vk-1" "10.0.0.2" "replica" "r1";
   demo_pod "vk-2" "10.0.0.3" "replica" "r1"].

Lemma roll_deletes_safely_witness :
  ∃ out r c', reconcilePodRollout true (scale_cr 3 "8.1") true demo_v (Some demo_sts) (λ _, None) 0 None demo_ctl
              = (out, r, c') ∧ ro_delete r = Some "vk-2" ∧
  ∃ s p, Some demo_sts = Some s ∧ p ∈ demo_v ∧ pod_Name p = "vk-2" ∧ isPrimary p = false.
Proof.
  destruct (reconcilePodRollout true (scale_cr 3 "8.1") true demo_v (Some demo_sts) (λ _, None) 0 None demo_ctl)
    as [[out r] c'] eqn:E.
  assert (ro_delete r = Some "vk-2") as Hd by (change r with (out, r, c').1.2; rewrite <- E; vm_compute; reflexivity).
  exists out, r, c'. split; [reflexivity|]. split; [exact Hd|].
  destruct (roll_deletes_safely _ _ _ _ _ _ _ _ _ _ _ _ _ E Hd) as (s & p & H1 & H2 & H3 & H4 & _).
  exists s, p. split_and!; assumption.
Defined.


(** With only the primary left to roll, every pass emits the event again. *)
Example deferred_every_pass :
  let run c := (reconcilePodRollout true (scale_cr 3 "8.1") true [demo_pod "vk-0" "10.0.0.1" "primary" "r1"]
                  (Some demo_sts) (λ _, None) 0 None c).2 in
  length (recorded (run (run demo_ctl))) = 2%nat.
Proof. vm_compute. reflexivity. Qed.
