(* ===== verification/ReadinessGate.v ===== *)
(** * Readiness gates and stuck replicas (phase 8): [reconcileReadinessGates] of
    [internal/controller/valkey_controller.go] and its helpers

    A pass polls the replication lag of every gated pod and patches its readiness
    condition.  A replica whose gate stays False is deleted, so that it starts
    again from the current primary: at most one pod per pass, after
    [staleReplicaThreshold] as measured by this process, and not while no pod is
    labelled primary.  In that case a bounded escape may delete one pod after
    [staleReplicaEscapeDwell].  API outcomes, replies and clock readings are
    inputs; patches and deletes are recorded in order. *)
From S2P Require Import Prelude GoStd GoFmt Resp Fsm SentinelParse Observer TripleCheck SentinelWire Surgery SurgerySpec Status PvcResize DeriveState LagChecker PrimaryRollout RoleLabels OrphanMaster QuorumGate Recovery.
Local Open Scope Z_scope.

Definition staleReplicaThreshold : Duration := 90 * Second.
Definition staleReplicaEscapeDwell : Duration := 10 * Minute.
Definition staleReplicaEscapeCooldown : Duration := 10 * Minute.
Definition staleReplicaEscapeVictimDwell : Duration := 10 * Minute.
Definition readinessGateRequeue : Duration := 5 * Second.
Definition replicaSteadyRecheck : Duration := 2 * Minute.
Definition defaultSentinelPort : Z := 26379.

(** [Duration.Truncate(time.Second)]. *)
Definition truncate_second (d : Duration) : Duration := Z.quot d Second * Second.

(** ** Pods with their identity and conditions *)
Record PodCondition := {
  pc_Type : string;
  pc_Status : string;
  pc_Message : string;
  pc_LastProbe : Time;
  pc_LastTransition : Time;
  pc_Generation : Z
}.

(** The conditions of [g_pod] are those of [g_conditions]. *)
Record gate_pod := { g_pod : Pod; g_UID : string; g_Generation : Z; g_conditions : list PodCondition }.
Definition g_name (p : gate_pod) : string := pod_Name (g_pod p).
Definition g_ip (p : gate_pod) : string := pod_IP (g_pod p).
Definition g_role (p : gate_pod) : string := label (g_pod p) RoleLabel.

Definition podHasReplicationGate (p : gate_pod) : bool :=
  existsb (λ g, bool_decide (g = ReplicationReadyGate)) (pod_ReadinessGates (g_pod p)).

Definition findReplicationCondition (p : gate_pod) : option PodCondition :=
  List.find (λ c, bool_decide (pc_Type c = ReplicationReadyGate)) (g_conditions p).

Definition readinessGateMaxLagBytes (maxLag : option Z) : Z := default (Z.shiftl 1 20) maxLag.

Definition sentinelEndpointsFromPodList (pods : list Pod) : list Observer.Endpoint :=
  omap (λ p, if bool_decide (pod_IP p = "") then None
             else Some {| Name := pod_Name p; ep_Addr := JoinHostPort (pod_IP p) (Itoa defaultSentinelPort) |}) pods.

(** ** The per-CR memory of the phase *)
Record gate_state := {
  gs_tracker : gmap string Time;   (* UID to the first False observation *)
  noPrimarySince : Time;
  staleReplicaEscapeLastFired : Time
}.
Definition put_tracker (t : gmap string Time) (s : gate_state) : gate_state :=
  {| gs_tracker := t; noPrimarySince := noPrimarySince s;
     staleReplicaEscapeLastFired := staleReplicaEscapeLastFired s |}.

Definition observeNoPrimarySince (now : Time) (s : gate_state) : Time * gate_state :=
  let t := if IsZero (noPrimarySince s) then now else noPrimarySince s in
  (t, {| gs_tracker := gs_tracker s; noPrimarySince := t;
         staleReplicaEscapeLastFired := staleReplicaEscapeLastFired s |}).
Definition clearNoPrimarySince (s : gate_state) : gate_state :=
  {| gs_tracker := gs_tracker s; noPrimarySince := zero_time;
     staleReplicaEscapeLastFired := staleReplicaEscapeLastFired s |}.
Definition staleReplicaEscapeAllowed (now : Time) (s : gate_state) : bool :=
  IsZero (staleReplicaEscapeLastFired s) ||
  (staleReplicaEscapeCooldown <=? Sub now (staleReplicaEscapeLastFired s)).
Definition staleReplicaEscapeArmedAt (since now : Time) (s : gate_state) : bool :=
  negb (IsZero since) && (staleReplicaEscapeDwell <=? Sub now since) && staleReplicaEscapeAllowed now s.
Definition recordStaleReplicaEscape (now : Time) (s : gate_state) : gate_state :=
  {| gs_tracker := gs_tracker s; noPrimarySince := noPrimarySince s; staleReplicaEscapeLastFired := now |}.

(** ** Inputs and the accumulators of the loop *)
Record gate_in := {
  gi_list : result (list gate_pod);
  gi_check : string → result LagState;         (* CheckLag by dial address *)
  gi_patch : string → bool;                    (* the status patch succeeds *)
  gi_delete : string → option api_error;
  gi_now : Time;
  gi_nowPatch : Time;
  gi_snap : option Snapshot;                   (* of the in-flight test *)
  gi_nowLatch : Time;
  gi_sentinels : result (list Pod)
}.

Inductive geffect : Type :=
  | GatePatch (pod : string) (c : PodCondition)
  | DeletePod (pod : string) (uid : option string) (ok : bool). (* a precondition on the UID; the outcome *)

Record replicaGateObs := {
  ob_pod : gate_pod;
  ob_labelRole : string;
  ob_state : LagState;
  ob_eligible : bool
}.

(** The survey the escape reuses. *)
Record escape_survey := {
  es_live : gset string;
  es_masters : list surveyedPod;
  es_obs : list replicaGateObs;
  es_dialFailures : Z;
  es_pending : Z
}.
Definition survey_none : escape_survey :=
  {| es_live := ∅; es_masters := []; es_obs := []; es_dialFailures := 0; es_pending := 0 |}.

Record gate_loop := {
  gl_requeue : Duration;
  gl_state : gate_state;
  gl_deleted : bool;
  gl_survey : escape_survey;
  gl_events : list event;
  gl_effects : list geffect
}.

Definition gl_put (s : gate_state) (a : gate_loop) : gate_loop :=
  {| gl_requeue := gl_requeue a; gl_state := s; gl_deleted := gl_deleted a; gl_survey := gl_survey a;
     gl_events := gl_events a; gl_effects := gl_effects a |}.
Definition gl_pace (d : Duration) (a : gate_loop) : gate_loop :=
  {| gl_requeue := mergeRequeue (gl_requeue a) d; gl_state := gl_state a; gl_deleted := gl_deleted a;
     gl_survey := gl_survey a; gl_events := gl_events a; gl_effects := gl_effects a |}.
Definition gl_fold (s : escape_survey) (a : gate_loop) : gate_loop :=
  {| gl_requeue := gl_requeue a; gl_state := gl_state a; gl_deleted := gl_deleted a; gl_survey := s;
     gl_events := gl_events a; gl_effects := gl_effects a |}.
Definition gl_out (es : list event) (fs : list geffect) (a : gate_loop) : gate_loop :=
  {| gl_requeue := gl_requeue a; gl_state := gl_state a; gl_deleted := gl_deleted a; gl_survey := gl_survey a;
     gl_events := gl_events a ++ es; gl_effects := gl_effects a ++ fs |}.
Definition gl_mark (a : gate_loop) : gate_loop :=
  {| gl_requeue := gl_requeue a; gl_state := gl_state a; gl_deleted := true; gl_survey := gl_survey a;
     gl_events := gl_events a; gl_effects := gl_effects a |}.

(** ** The survey *)
Definition observe_ip (p : gate_pod) (s : escape_survey) : escape_survey :=
  if bool_decide (g_ip p = "")
  then {| es_live := es_live s; es_masters := es_masters s; es_obs := es_obs s;
          es_dialFailures := es_dialFailures s; es_pending := es_pending s + 1 |}
  else {| es_live := {[ g_ip p ]} ∪ es_live s; es_masters := es_masters s; es_obs := es_obs s;
          es_dialFailures := es_dialFailures s; es_pending := es_pending s |}.

Definition appendEscapeReading (p : gate_pod) (role : string) (reading : result LagState) (eligible : bool)
    (s : escape_survey) : escape_survey :=
  let mk ms obs f :=
    {| es_live := es_live s; es_masters := ms; es_obs := obs; es_dialFailures := f; es_pending := es_pending s |} in
  match reading with
  | Err _ => mk (es_masters s) (es_obs s) (es_dialFailures s + 1)
  | Ok st =>
      if bool_decide (Role st = RoleMaster)
      then mk (es_masters s ++ [{| sp_name := g_name p; sp_ip := g_ip p; sp_state := st |}]) (es_obs s)
              (es_dialFailures s)
      else mk (es_masters s)
              (es_obs s ++ [{| ob_pod := p; ob_labelRole := role; ob_state := st; ob_eligible := eligible |}])
              (es_dialFailures s)
  end.

Definition classifyGatelessEscapePod (i : gate_in) (p : gate_pod) (role : string) (s : escape_survey) :
    escape_survey :=
  if bool_decide (g_ip p = "") then s
  else appendEscapeReading p role (gi_check i (dial_addr (g_pod p))) false s.

(** ** The gate of one pod *)
Definition lag_zero : LagState :=
  {| Role := ""; LinkUp := false; LagBytes := 0; MasterReplOffset := 0; HaveMasterOffset := false;
     MasterHost := ""; SlaveReplOffset := 0; HaveSlaveOffset := false |}.
Definition ConditionTrue : string := "True".
Definition ConditionFalse : string := "False".

Section gates.
Context (recorder : bool) (percr : perCRState) (quorum : option crQuorumState).
Definition gev (warning : bool) (reason action note : string) : list event :=
  if recorder then [CREvent warning reason action note] else [].

(** Status, message, reading, and the event of a failed check. *)
Definition evaluateReplicationGate (i : gate_in) (p : gate_pod) (maxLag : Z) :
    string * string * result LagState * list event :=
  if bool_decide (g_role p = roleValuePrimary)
  then (ConditionTrue, "primary; replication-ready by definition", Ok lag_zero, [])
  else match gi_check i (g_ip p +:+ ":" +:+ Itoa DefaultPort) with
  | Err e =>
      (ConditionFalse, "lag check failed: " +:+ e, Err e,
       gev true "ReplicationGateCheckFailed" "ReplicationGateCheckFail"
         ("pod " +:+ g_name p +:+ " lag check failed: " +:+ e))
  | Ok st =>
      if bool_decide (Role st = RoleMaster) then (ConditionTrue, "pod self-reports as master", Ok st, [])
      else if negb (LinkUp st) then (ConditionFalse, "master_link_status:down", Ok st, [])
      else if maxLag <? LagBytes st
      then (ConditionFalse, "lag " +:+ Itoa (LagBytes st) +:+ " > " +:+ Itoa maxLag +:+ " bytes", Ok st, [])
      else (ConditionTrue, "link up; lag " +:+ Itoa (LagBytes st) +:+ " bytes", Ok st, [])
  end.

(** The condition a patch writes; [None]: nothing to write. *)
Definition patchReplicationCondition (now : Time) (p : gate_pod) (desired message : string) : option PodCondition :=
  let fresh tr := {| pc_Type := ReplicationReadyGate; pc_Status := desired; pc_Message := message;
                     pc_LastProbe := now; pc_LastTransition := tr; pc_Generation := g_Generation p |} in
  match findReplicationCondition p with
  | None => Some (fresh now)
  | Some cur =>
      if negb (bool_decide (pc_Status cur = desired)) then Some (fresh now)
      else if bool_decide (pc_Message cur = message) then None
      else Some (fresh (pc_LastTransition cur))
  end.

(** The cadence a gated pod asks for. *)
Definition gate_pace (p : gate_pod) (a : gate_loop) : gate_loop :=
  let gateReady := match findReplicationCondition p with
                   | Some c => bool_decide (pc_Status c = ConditionTrue) | None => false end in
  if negb gateReady then gl_pace readinessGateRequeue a
  else if bool_decide (g_role p = roleValueReplica) then gl_pace replicaSteadyRecheck a
  else a.

Definition patch_gate (i : gate_in) (p : gate_pod) (desired message : string) (a : gate_loop) : gate_loop :=
  match patchReplicationCondition (gi_nowPatch i) p desired message with
  | None => a
  | Some c =>
      if gi_patch i (g_name p) then
        gl_out (gev false "ReplicationGatePatched" "ReplicationGatePatch"
                  ("pod " +:+ g_name p +:+ " gate -> " +:+ desired +:+ " (" +:+ message +:+ ")"))
               [GatePatch (g_name p) c] a
      else a
  end.

Definition delete_failed (o : option api_error) : bool :=
  match o with Some e => negb (has_kind NotFound e) | None => false end.

(** The deletion of a replica that has been False since [firstSeen]. *)
Definition delete_stale (i : gate_in) (suppress : bool) (p : gate_pod) (firstSeen : Time) (a : gate_loop) : gate_loop :=
  let staleFor := Sub (gi_now i) firstSeen in
  if gl_deleted a then a
  else if staleFor <? staleReplicaThreshold then a
  else if suppress then a
  else
    let failed := delete_failed (gi_delete i (g_name p)) in
    let a := gl_out [] [DeletePod (g_name p) None (negb failed)] a in
    if failed then a
    else
      gl_mark (gl_put (put_tracker (delete (g_UID p) (gs_tracker (gl_state a))) (gl_state a))
        (gl_out (gev true "ReplicationGatePatched" "StaleReplicaRecreated"
           ("pod " +:+ g_name p +:+ " gate stuck False for " +:+ DurationString (truncate_second staleFor) +:+
            " (observed by this operator instance); deleted to force reinit")) [] a)).

(** A gated pod with an address. *)
Definition gated_pod (i : gate_in) (maxLag : Z) (suppress : bool) (p : gate_pod) (a : gate_loop) : gate_loop :=
  let '(desired, message, reading, evs) := evaluateReplicationGate i p maxLag in
  let a := patch_gate i p desired message (gl_out evs [] a) in
  let staleReplicaFalse := bool_decide (g_role p = roleValueReplica) && bool_decide (desired = ConditionFalse) in
  let t := gs_tracker (gl_state a) in
  let firstSeen := if staleReplicaFalse then default (gi_now i) (t !! g_UID p) else zero_time in
  let a := if staleReplicaFalse then gl_put (put_tracker (<[g_UID p := firstSeen]> t) (gl_state a)) a else a in
  let a :=
    if suppress then
      let eligible := staleReplicaFalse && (staleReplicaEscapeVictimDwell <=? Sub (gi_now i) firstSeen) in
      gl_fold (appendEscapeReading p (g_role p) reading eligible (gl_survey a)) a
    else a in
  if bool_decide (desired = ConditionTrue) then
    gl_put (put_tracker (delete (g_UID p) (gs_tracker (gl_state a))) (gl_state a)) a
  else if negb (bool_decide (g_role p = roleValueReplica)) then a
  else delete_stale i suppress p firstSeen a.

Definition gate_step (i : gate_in) (maxLag : Z) (suppress armed : bool) (a : gate_loop) (p : gate_pod) : gate_loop :=
  let a := if suppress then gl_fold (observe_ip p (gl_survey a)) a else a in
  if negb (podHasReplicationGate p) then
    if armed then gl_fold (classifyGatelessEscapePod i p (g_role p) (gl_survey a)) a else a
  else
    let a := gate_pace p a in
    if bool_decide (g_ip p = "") then a else gated_pod i maxLag suppress p a.

(** ** The bounded escape *)
Definition obs_survey (o : replicaGateObs) : surveyedPod :=
  {| sp_name := g_name (ob_pod o); sp_ip := g_ip (ob_pod o); sp_state := ob_state o |}.

(** [choosePromotionCandidate] with the index it returns. *)
Definition index_step (best : option (nat * surveyedPod)) (x : nat * surveyedPod) : option (nat * surveyedPod) :=
  if negb (HaveSlaveOffset (sp_state x.2)) then best
  else match best with
  | None => Some x
  | Some b => if candidate_less x.2 b.2 then Some x else Some b
  end.
Definition promotion_index (replicas : list surveyedPod) : option nat :=
  fst <$> foldl index_step None (zip (seq 0 (length replicas)) replicas).

Definition victim_step (protectedIdx : nat) (victim : option replicaGateObs) (x : nat * replicaGateObs) :
    option replicaGateObs :=
  let '(i, o) := x in
  if negb (ob_eligible o) || (i =? protectedIdx)%nat then victim
  else if negb (HaveSlaveOffset (ob_state o)) then victim
  else match victim with
  | None => Some o
  | Some cur =>
      if (SlaveReplOffset (ob_state o) <? SlaveReplOffset (ob_state cur)) ||
         ((SlaveReplOffset (ob_state o) =? SlaveReplOffset (ob_state cur)) &&
          String.ltb (g_name (ob_pod cur)) (g_name (ob_pod o))) then Some o
      else Some cur
  end.
Definition chooseEscapeVictim (obs : list replicaGateObs) (protectedIdx : nat) : option replicaGateObs :=
  foldl (victim_step protectedIdx) None (zip (seq 0 (length obs)) obs).

(** The guards, in order; the pod to delete. *)
Definition escape_victim (i : gate_in) (spec : option SentinelSpec) (since : Time) (s : gate_state)
    (sv : escape_survey) : option replicaGateObs :=
  if IsZero since || (Sub (gi_now i) since <? staleReplicaEscapeDwell) then None
  else match spec with
  | None => None
  | Some sen =>
      if bool_decide (sen_MasterName sen = "") then None
      else if negb (staleReplicaEscapeAllowed (gi_now i) s) then None
      else if IsFailoverInFlight (gi_snap i) (gi_nowLatch i) percr then None
      else if match quorum with Some q => recoveryPromotionCooldownActive (gi_now i) q | None => false end then None
      else match gi_sentinels i with
      | Err _ => None
      | Ok sentinelPods =>
          let endpoints := sentinelEndpointsFromPodList sentinelPods in
          let replicas := obs_survey <$> es_obs sv in
          let survey := {| livePodIPs := es_live sv; pendingPods := es_pending sv; dialed := true;
                           sv_masters := es_masters sv; sv_replicas := replicas;
                           dialFailures := es_dialFailures sv |} in
          if len endpoints =? 0 then None
          else if negb (promotionSurveyAdmits (Some survey) endpoints) then None
          else if len replicas <? 2 then None
          else match promotion_index replicas with
          | None => None
          | Some protectedIdx => chooseEscapeVictim (es_obs sv) protectedIdx
          end
      end
  end.

Definition maybeEscapeStaleReplica (i : gate_in) (spec : option SentinelSpec) (since : Time) (a : gate_loop) : gate_loop :=
  match escape_victim i spec since (gl_state a) (gl_survey a) with
  | None => a
  | Some victim =>
      let p := ob_pod victim in
      let failed := delete_failed (gi_delete i (g_name p)) in
      let a := gl_out [] [DeletePod (g_name p) (Some (g_UID p)) (negb failed)] a in
      if failed then a
      else
        let s := recordStaleReplicaEscape (gi_now i) (gl_state a) in
        gl_out (gev true "StaleReplicaEscapeDeleted" "StaleReplicaEscapeDeleted"
                  ("no primary-labeled pod for " +:+ DurationString (truncate_second (Sub (gi_now i) since)) +:+
                   "; deleted least-fresh stale replica " +:+ g_name p +:+
                   " to force reinit (highest-offset replica preserved)")) []
          (gl_put (put_tracker (delete (g_UID p) (gs_tracker s)) s) a)
  end.

(** ** The pass: requeue or error, and what the loop left *)
Definition reconcileReadinessGates (cr : CRSpec) (gate_enabled : option bool) (maxLag : option Z)
    (spec : option SentinelSpec) (i : gate_in) (s : gate_state) : result Duration * gate_loop :=
  let init s := {| gl_requeue := 0; gl_state := s; gl_deleted := false; gl_survey := survey_none;
                   gl_events := []; gl_effects := [] |} in
  if negb (replicationGateEnabled cr gate_enabled) then (Ok 0, init s)
  else match gi_list i with
  | Err e => (Err ("listing valkey pods: " +:+ e), init s)
  | Ok pods =>
      let suppress := (countPrimaryLabeledPods (g_pod <$> pods) =? 0)%nat && (0 <? len pods) in
      let '(since, armed, s) :=
        if suppress then
          let '(since, s) := observeNoPrimarySince (gi_now i) s in
          (since, staleReplicaEscapeArmedAt since (gi_now i) s, s)
        else (zero_time, false, clearNoPrimarySince s) in
      let a := foldl (gate_step i (readinessGateMaxLagBytes maxLag) suppress armed) (init s) pods in
      let a := if suppress && negb (gl_deleted a) then maybeEscapeStaleReplica i spec since a else a in
      (Ok (gl_requeue a), a)
  end.
End gates.

(** ** Lemmas: one turn of the loop *)
Section loop.
Context (recorder : bool) (i : gate_in) (maxLag : Z) (suppress armed : bool).
Abbreviation step := (gate_step recorder i maxLag suppress armed).
Abbreviation tracker a := (gs_tracker (gl_state a)).

Definition verdict (p : gate_pod) : string := (evaluateReplicationGate recorder i p maxLag).1.1.1.
(** The pods whose gate is evaluated, and those found behind. *)
Definition polled (p : gate_pod) : Prop := podHasReplicationGate p = true ∧ g_ip p ≠ "".
Definition behind (p : gate_pod) : Prop :=
  polled p ∧ g_role p = roleValueReplica ∧ verdict p = ConditionFalse.
Definition caught_up (p : gate_pod) : Prop := polled p ∧ verdict p = ConditionTrue.
Definition is_delete (e : geffect) : bool := match e with DeletePod _ _ _ => true | _ => false end.
Definition deleted_ok (e : geffect) : bool := match e with DeletePod _ _ ok => ok | _ => false end.

Lemma verdict_cases p : verdict p = ConditionTrue ∨ verdict p = ConditionFalse.
Proof. unfold verdict, evaluateReplicationGate. repeat case_match; auto. Qed.

(** What one turn does to the tracker, the flag and the deletes. *)
Inductive turn (a : gate_loop) (p : gate_pod) : gate_loop → Prop :=
  | turn_quiet a' : tracker a' = tracker a → gl_deleted a' = gl_deleted a →
      List.filter is_delete (gl_effects a') = List.filter is_delete (gl_effects a) →
      ¬ caught_up p → turn a p a'
  | turn_true a' : caught_up p → tracker a' = delete (g_UID p) (tracker a) → gl_deleted a' = gl_deleted a →
      List.filter is_delete (gl_effects a') = List.filter is_delete (gl_effects a) → turn a p a'
  | turn_false a' : behind p →
      tracker a' = <[g_UID p := default (gi_now i) (tracker a !! g_UID p)]> (tracker a) →
      gl_deleted a' = gl_deleted a →
      List.filter is_delete (gl_effects a') = List.filter is_delete (gl_effects a) → turn a p a'
  | turn_delete a' ok : behind p → suppress = false → gl_deleted a = false →
      staleReplicaThreshold <= Sub (gi_now i) (default (gi_now i) (tracker a !! g_UID p)) →
      List.filter is_delete (gl_effects a') =
        List.filter is_delete (gl_effects a) ++ [DeletePod (g_name p) None ok] →
      gl_deleted a' = ok →
      tracker a' = (if ok then delete (g_UID p) (tracker a)
                    else <[g_UID p := default (gi_now i) (tracker a !! g_UID p)]> (tracker a)) → turn a p a'.

Lemma patch_gate_quiet p d m a :
  gl_state (patch_gate recorder i p d m a) = gl_state a ∧ gl_deleted (patch_gate recorder i p d m a) = gl_deleted a ∧
  List.filter is_delete (gl_effects (patch_gate recorder i p d m a)) = List.filter is_delete (gl_effects a).
Proof.
  unfold patch_gate. destruct (patchReplicationCondition _ _ _ _); [|done].
  destruct (gi_patch i (g_name p)); [|done]. cbn. rewrite List.filter_app. cbn. by rewrite app_nil_r.
Qed.

Lemma gate_pace_quiet p a :
  gl_state (gate_pace p a) = gl_state a ∧ gl_deleted (gate_pace p a) = gl_deleted a ∧
  gl_effects (gate_pace p a) = gl_effects a ∧ gl_survey (gate_pace p a) = gl_survey a.
Proof. unfold gate_pace. repeat case_match; done. Qed.

Lemma gated_turn p a : polled p → turn a p (gated_pod recorder i maxLag suppress p a).
Proof.
  intros Hp. unfold gated_pod. destruct (verdict_cases p) as [V|V]; pose proof V as V';
    unfold verdict in V'; destruct (evaluateReplicationGate recorder i p maxLag) as [[[d m] reading] evs] eqn:E;
    cbn in V'; subst d;
    destruct (patch_gate_quiet p (verdict p) m (gl_out evs [] a)) as (Q1 & Q2 & Q3); rewrite V in Q1, Q2, Q3;
    cbn [gl_out gl_state gl_deleted gl_effects] in Q1, Q2, Q3; rewrite app_nil_r in Q3;
    set (b := patch_gate recorder i p _ m (gl_out evs [] a)) in *.
  - rewrite (bool_decide_eq_false_2 (ConditionTrue = ConditionFalse)) by done. rewrite andb_false_r.
    rewrite (bool_decide_eq_true_2 (ConditionTrue = ConditionTrue)) by done.
    apply turn_true; [by split| | |]; destruct suppress; cbn; by rewrite ?Q1.
  - rewrite (bool_decide_eq_true_2 (ConditionFalse = ConditionFalse)) by done. rewrite andb_true_r.
    rewrite (bool_decide_eq_false_2 (ConditionFalse = ConditionTrue)) by done.
    assert (Hnt : ¬ caught_up p) by (intros [_ Hc]; by rewrite V in Hc).
    case_bool_decide as Hr; cbn [negb].
    2:{ apply turn_quiet; [| | |done]; destruct suppress; cbn; by rewrite ?Q1. }
    assert (Hb : behind p) by done.
    unfold delete_stale. rewrite Q1.
    set (t0 := default (gi_now i) (tracker a !! g_UID p)).
    assert (∀ c, gl_deleted c = gl_deleted a → gl_state c = put_tracker (<[g_UID p:=t0]> (tracker a)) (gl_state a) →
              List.filter is_delete (gl_effects c) = List.filter is_delete (gl_effects a) → turn a p c) as Hkeep.
    { intros c K1 K2 K3. apply turn_false; [done| |done|done]. by rewrite K2. }
    destruct (gl_deleted b) eqn:Ed.
    { destruct suppress; cbn; rewrite ?Ed; apply Hkeep; cbn; first [done | congruence | by rewrite Q1]. }
    destruct suppress eqn:Es; cbn [gl_fold gl_put gl_deleted gl_state gl_effects]; rewrite Ed.
    { destruct (_ <? _); apply Hkeep; cbn; first [done | congruence | by rewrite Q1]. }
    destruct (Z.ltb_spec (Sub (gi_now i) t0) staleReplicaThreshold) as [Hlt|Hge].
    { apply Hkeep; cbn; first [done | congruence | by rewrite Q1]. }
    apply (turn_delete _ _ _ (negb (delete_failed (gi_delete i (g_name p))))); [done|done|congruence|done|..];
      destruct (delete_failed (gi_delete i (g_name p))); cbn; rewrite ?List.filter_app; cbn; rewrite ?Q3, ?app_nil_r, ?Q1; try done.
    by rewrite delete_insert_eq.
Qed.

Lemma gate_step_turn p a : turn a p (step a p).
Proof.
  unfold gate_step. set (b := if suppress then _ else a).
  assert (tracker b = tracker a ∧ gl_deleted b = gl_deleted a ∧ gl_effects b = gl_effects a) as (B1 & B2 & B3)
    by (unfold b; destruct suppress; done).
  destruct (podHasReplicationGate p) eqn:Hg; cbn [negb].
  2:{ apply turn_quiet; [destruct armed; done|destruct armed; done|destruct armed; cbn; by rewrite B3|].
      intros [[Hc _] _]. congruence. }
  destruct (gate_pace_quiet p b) as (P1 & P2 & P3 & _). set (d := gate_pace p b) in *.
  case_bool_decide as Hi.
  { apply turn_quiet; [by rewrite P1|by rewrite P2|by rewrite P3, B3|]. intros [[_ Hc] _]. done. }
  assert (Ht : turn d p (gated_pod recorder i maxLag suppress p d)) by (apply gated_turn; done).
  assert (tracker d = tracker a) as T by (by rewrite P1). assert (gl_deleted d = gl_deleted a) as D by congruence.
  assert (List.filter is_delete (gl_effects d) = List.filter is_delete (gl_effects a)) as F by (by rewrite P3, B3).
  destruct Ht as [a' H1 H2 H3 H4|a' H1 H2 H3 H4|a' H1 H2 H3 H4|a' ok H1 H2 H3 H4 H5 H6 H7]; rewrite ?T, ?D, ?F in *.
  - by apply turn_quiet.
  - by apply turn_true.
  - by apply turn_false.
  - by apply (turn_delete _ _ _ ok).
Qed.

(** ** Lemmas: the whole loop *)
Lemma behind_not_caught_up p : behind p → ¬ caught_up p.
Proof. intros (_ & _ & H) [_ H']. by rewrite H in H'. Qed.

Lemma turn_tracker a p a' u t0 :
  turn a p a' → tracker a' !! u = Some t0 →
  (tracker a !! u = Some t0 ∧ (g_UID p = u → ¬ caught_up p)) ∨ (t0 = gi_now i ∧ g_UID p = u ∧ behind p).
Proof.
  assert (Hins : behind p → <[g_UID p := default (gi_now i) (tracker a !! g_UID p)]> (tracker a) !! u = Some t0 →
    (tracker a !! u = Some t0 ∧ (g_UID p = u → ¬ caught_up p)) ∨ (t0 = gi_now i ∧ g_UID p = u ∧ behind p)).
  { intros Hb. destruct (decide (g_UID p = u)) as [<-|Hne].
    - rewrite lookup_insert_eq. destruct (tracker a !! g_UID p); intros [= <-]; [left|by right].
      split; [done|]. intros _. by apply behind_not_caught_up.
    - rewrite lookup_insert_ne by done. intros H. left. by split. }
  assert (Hdel : delete (g_UID p) (tracker a) !! u = Some t0 →
    (tracker a !! u = Some t0 ∧ (g_UID p = u → ¬ caught_up p)) ∨ (t0 = gi_now i ∧ g_UID p = u ∧ behind p)).
  { intros [Hne H]%lookup_delete_Some. left. split; [done|]. intros E. by destruct Hne. }
  intros Ht H. destruct Ht as [a' H1 _ _ Hn|a' _ H1 _ _|a' Hb H1 _ _|a' ok Hb _ _ _ _ _ H1]; rewrite H1 in H.
  - left. by split.
  - by apply Hdel.
  - by apply Hins.
  - destruct ok; [by apply Hdel|by apply Hins].
Qed.

Lemma loop_tracker pods a u t0 :
  tracker (foldl step a pods) !! u = Some t0 →
  (tracker a !! u = Some t0 ∧ ∀ p, p ∈ pods → g_UID p = u → ¬ caught_up p) ∨
  (t0 = gi_now i ∧ ∃ p, p ∈ pods ∧ g_UID p = u ∧ behind p).
Proof.
  revert a. induction pods as [|p pods IH]; intros a H; cbn [foldl] in H.
  { left. split; [done|]. intros p Hp. by apply not_elem_of_nil in Hp. }
  apply IH in H as [[H Hn]|(Ht & q & Hq & Hr)].
  - apply (turn_tracker a p) in H as [[H Hp]|(Ht & Hu & Hb)]; [| |apply gate_step_turn].
    + left. split; [done|]. intros q [->|Hq]%elem_of_cons; [done|by apply Hn].
    + right. split; [done|]. exists p. split; [apply list_elem_of_here|done].
  - right. split; [done|]. exists q. split; [by apply list_elem_of_further|done].
Qed.

Lemma loop_app pods p a : foldl step a (pods ++ [p]) = step (foldl step a pods) p.
Proof. by rewrite foldl_app. Qed.

Lemma Sub_refl now : Sub now now = 0.
Proof. unfold Sub. by rewrite Z.sub_diag. Qed.

(** Every delete of the loop, and how many succeed. *)
Lemma loop_deletes pods a :
  gl_deleted a = false → List.filter is_delete (gl_effects a) = [] →
  let b := foldl step a pods in
  length (List.filter deleted_ok (List.filter is_delete (gl_effects b))) = (if gl_deleted b then 1 else 0)%nat ∧
  ∀ e, e ∈ List.filter is_delete (gl_effects b) →
    suppress = false ∧ ∃ p ok t, p ∈ pods ∧ e = DeletePod (g_name p) None ok ∧ behind p ∧
      tracker a !! g_UID p = Some t ∧ staleReplicaThreshold <= Sub (gi_now i) t.
Proof.
  intros Hd He. induction pods as [|p pods [IH1 IH2]] using rev_ind; cbn [foldl].
  { cbv zeta. rewrite Hd, He. split; [done|]. intros e H. by apply not_elem_of_nil in H. }
  cbv zeta. rewrite loop_app. pose proof (gate_step_turn p (foldl step a pods)) as Ht.
  assert (Hw : ∀ e, e ∈ List.filter is_delete (gl_effects (foldl step a pods)) →
    suppress = false ∧ ∃ q ok t, q ∈ pods ++ [p] ∧ e = DeletePod (g_name q) None ok ∧ behind q ∧
      tracker a !! g_UID q = Some t ∧ staleReplicaThreshold <= Sub (gi_now i) t).
  { intros e Hin. destruct (IH2 e Hin) as (Hs & q & ok & t & Hq & H). split; [done|]. exists q, ok, t.
    split; [|done]. apply elem_of_app. by left. }
  destruct Ht as [a' _ D F _|a' _ _ D F|a' _ _ D F|a' ok Hb Hs D T F D' _]; rewrite F.
  1, 2, 3: by rewrite D.
  split.
  - rewrite List.filter_app, length_app, IH1, D, D'. by destruct ok.
  - intros e [Hin|Hin]%elem_of_app; [by apply Hw|]. apply list_elem_of_singleton in Hin as ->. split; [done|].
    destruct (tracker (foldl step a pods) !! g_UID p) as [t|] eqn:E; cbn in T.
    2:{ rewrite Sub_refl in T. unfold staleReplicaThreshold, Second in T. lia. }
    exists p, ok, t. split_and!; [apply elem_of_app; right; apply list_elem_of_here|done|done| |done].
    apply loop_tracker in E as [[E _]|[-> _]]; [done|].
    rewrite Sub_refl in T. unfold staleReplicaThreshold, Second in T. lia.
Qed.
End loop.

(** ** Lemmas: the survey of the escape *)
Section survey.
Context (recorder : bool) (i : gate_in) (maxLag : Z).
Abbreviation step := (gate_step recorder i maxLag true true).

(** What the pass asked of a pod. *)
Definition reading (p : gate_pod) : result LagState :=
  if podHasReplicationGate p then gi_check i (g_ip p +:+ ":" +:+ Itoa DefaultPort)
  else gi_check i (dial_addr (g_pod p)).

Lemma evaluate_reading p :
  g_role p ≠ roleValuePrimary → podHasReplicationGate p = true →
  (evaluateReplicationGate recorder i p maxLag).1.2 = reading p.
Proof.
  intros Hr Hg. unfold evaluateReplicationGate, reading. rewrite Hg, bool_decide_eq_false_2 by done.
  repeat case_match; done.
Qed.

Lemma gated_survey p a :
  polled p → g_role p ≠ roleValuePrimary →
  ∃ el, gl_survey (gated_pod recorder i maxLag true p a) =
          appendEscapeReading p (g_role p) (reading p) el (gl_survey a) ∧
        (el = true → behind recorder i maxLag p ∧
           staleReplicaEscapeVictimDwell <= Sub (gi_now i) (default (gi_now i) (gs_tracker (gl_state a) !! g_UID p))).
Proof.
  intros [Hg Hi] Hr. pose proof (evaluate_reading p Hr Hg) as Hread.
  assert (Hv : verdict recorder i maxLag p = (evaluateReplicationGate recorder i p maxLag).1.1.1) by done.
  unfold gated_pod. destruct (evaluateReplicationGate recorder i p maxLag) as [[[d m] rd] evs]. cbn in Hread, Hv.
  assert (Q : gl_survey (patch_gate recorder i p d m (gl_out evs [] a)) = gl_survey a ∧
              gl_state (patch_gate recorder i p d m (gl_out evs [] a)) = gl_state a)
    by (unfold patch_gate; repeat case_match; done).
  destruct Q as [Q1 Q2]. rewrite Hread, Q2.
  set (srf := bool_decide (g_role p = roleValueReplica) && bool_decide (d = ConditionFalse)).
  exists (srf && (staleReplicaEscapeVictimDwell <=? Sub (gi_now i) (default (gi_now i) (gs_tracker (gl_state a) !! g_UID p)))).
  split.
  - unfold delete_stale. destruct srf; cbn [andb gl_put gl_fold gl_survey gl_state gl_deleted]; rewrite ?Q1;
      repeat (case_bool_decide; cbn [negb]); try done;
      destruct (gl_deleted _); try done; destruct (_ <? _); done.
  - intros [Hs Hd]%andb_prop. apply andb_prop in Hs as [H1 H2]. apply bool_decide_eq_true in H1, H2.
    apply Z.leb_le in Hd. split; [|done]. split; [done|]. split; [done|]. by rewrite Hv.
Qed.

Lemma step_survey p a :
  g_role p ≠ roleValuePrimary →
  gl_survey (step a p) = (if bool_decide (g_ip p = "") then observe_ip p (gl_survey a)
                          else gl_survey (step a p)) ∧
  (g_ip p ≠ "" → ∃ el, gl_survey (step a p) =
     appendEscapeReading p (g_role p) (reading p) el (observe_ip p (gl_survey a)) ∧
     (el = true → behind recorder i maxLag p ∧
        staleReplicaEscapeVictimDwell <= Sub (gi_now i) (default (gi_now i) (gs_tracker (gl_state a) !! g_UID p)))).
Proof.
  intros Hr. unfold gate_step. destruct (podHasReplicationGate p) eqn:Hg; cbn [negb].
  - destruct (gate_pace_quiet p (gl_fold (observe_ip p (gl_survey a)) a)) as (P1 & _ & _ & P4).
    case_bool_decide as Hi; [split; [by rewrite P4|done]|]. split; [done|]. intros _.
    destruct (gated_survey p (gate_pace p (gl_fold (observe_ip p (gl_survey a)) a)) (conj Hg Hi) Hr) as (el & E1 & E2).
    exists el. rewrite E1, P4. rewrite P1 in E2. done.
  - cbn [gl_fold gl_survey]. unfold classifyGatelessEscapePod. case_bool_decide as Hi; [done|].
    split; [done|]. intros _. exists false. unfold reading. rewrite Hg. done.
Qed.

(** What the survey holds after the pods [pods], when the loop began with tracker [t]. *)
Record surveyed (t : gmap string Time) (pods : list gate_pod) (s : escape_survey) : Prop := {
  sd_live : ∀ p, p ∈ pods → g_ip p ≠ "" → g_ip p ∈ es_live s;
  sd_pending : 0 <= es_pending s ∧ (es_pending s = 0 → ∀ p, p ∈ pods → g_ip p ≠ "");
  sd_failures : 0 <= es_dialFailures s ∧
    (es_dialFailures s = 0 → ∀ p, p ∈ pods → g_ip p ≠ "" → ∃ st, reading p = Ok st ∧
       (Role st = RoleMaster → es_masters s ≠ []) ∧
       (Role st ≠ RoleMaster → ∃ o, o ∈ es_obs s ∧ ob_pod o = p ∧ ob_state o = st));
  sd_sub : ob_pod <$> es_obs s `sublist_of` pods;
  sd_obs : ∀ o, o ∈ es_obs s → reading (ob_pod o) = Ok (ob_state o) ∧
    (ob_eligible o = true → behind recorder i maxLag (ob_pod o) ∧ ∃ t0, t !! g_UID (ob_pod o) = Some t0 ∧
       staleReplicaEscapeVictimDwell <= Sub (gi_now i) t0)
}.

Lemma append_surveyed t pods p s el :
  surveyed t pods s → g_ip p ≠ "" →
  (el = true → behind recorder i maxLag p ∧ ∃ t0, t !! g_UID p = Some t0 ∧
     staleReplicaEscapeVictimDwell <= Sub (gi_now i) t0) →
  surveyed t (pods ++ [p]) (appendEscapeReading p (g_role p) (reading p) el (observe_ip p s)).
Proof.
  intros [L P F S O] Hip Hel. unfold observe_ip. rewrite bool_decide_eq_false_2 by done.
  assert (Hsub : ob_pod <$> es_obs s `sublist_of` pods ++ [p]) by (by apply sublist_inserts_r).
  unfold appendEscapeReading. destruct (reading p) as [st|e] eqn:E; cbn [es_live es_masters es_obs es_dialFailures es_pending].
  2:{ split; cbn.
      - intros q [Hq| ->%list_elem_of_singleton]%elem_of_app Hi; [|set_solver]. apply elem_of_union. right. auto.
      - destruct P as [P1 P2]. split; [done|]. intros H q [Hq| ->%list_elem_of_singleton]%elem_of_app; auto.
      - destruct F as [F1 F2]. split; [lia|]. intros. lia.
      - done.
      - done. }
  case_bool_decide as Hm; split; cbn.
  1, 6: intros q [Hq| ->%list_elem_of_singleton]%elem_of_app Hi; [apply elem_of_union; right; auto|set_solver].
  1, 5: destruct P as [P1 P2]; split; [done|]; intros H q [Hq| ->%list_elem_of_singleton]%elem_of_app; auto.
  - destruct F as [F1 F2]. split; [done|]. intros H q [Hq| ->%list_elem_of_singleton]%elem_of_app Hi.
    + destruct (F2 H q Hq Hi) as (st' & R1 & R2 & R3). exists st'. split; [done|]. split; [|done].
      intros Hr. specialize (R2 Hr). by destruct (es_masters s).
    + exists st. split; [done|]. split; [|done]. intros _. by destruct (es_masters s).
  - done.
  - done.
  - destruct F as [F1 F2]. split; [done|]. intros H q [Hq| ->%list_elem_of_singleton]%elem_of_app Hi.
    + destruct (F2 H q Hq Hi) as (st' & R1 & R2 & R3). exists st'. split; [done|]. split; [done|].
      intros Hr. destruct (R3 Hr) as (o & Ho & Ho'). exists o. split; [|done]. apply elem_of_app. by left.
    + exists st. split; [done|]. split; [done|]. intros _.
      exists {| ob_pod := p; ob_labelRole := g_role p; ob_state := st; ob_eligible := el |}.
      split; [|done]. apply elem_of_app. right. apply list_elem_of_here.
  - rewrite fmap_app. cbn. by apply sublist_app.
  - intros o [Ho| ->%list_elem_of_singleton]%elem_of_app; [by apply O|]. cbn. split; [done|]. exact Hel.
Qed.

Lemma pending_surveyed t pods p s :
  surveyed t pods s → g_ip p = "" → surveyed t (pods ++ [p]) (observe_ip p s).
Proof.
  intros [L P F S O] Hip. unfold observe_ip. rewrite bool_decide_eq_true_2 by done. split; cbn.
  - intros q [Hq| ->%list_elem_of_singleton]%elem_of_app Hi; [auto|done].
  - destruct P as [P1 P2]. split; [lia|]. intros. lia.
  - destruct F as [F1 F2]. split; [done|]. intros H q [Hq| ->%list_elem_of_singleton]%elem_of_app Hi; [|done].
    by apply F2.
  - by apply sublist_inserts_r.
  - done.
Qed.

Lemma loop_surveyed pods a :
  gl_survey a = survey_none → (∀ p, p ∈ pods → g_role p ≠ roleValuePrimary) →
  surveyed (gs_tracker (gl_state a)) pods (gl_survey (foldl step a pods)).
Proof.
  intros Hs Hr. induction pods as [|p pods IH] using rev_ind; cbn [foldl].
  { rewrite Hs. split; cbn; try done; try (intros ? H; by apply not_elem_of_nil in H).
    - split; [done|]. intros _ p Hp. by apply not_elem_of_nil in Hp.
    - split; [done|]. intros _ p Hp. by apply not_elem_of_nil in Hp. }
  rewrite loop_app. assert (Hp : g_role p ≠ roleValuePrimary) by (apply Hr, elem_of_app; right; apply list_elem_of_here).
  specialize (IH ltac:(intros q Hq; apply Hr, elem_of_app; by left)).
  destruct (step_survey p (foldl step a pods) Hp) as [E1 E2]. destruct (decide (g_ip p = "")) as [Hi|Hi].
  - rewrite bool_decide_eq_true_2 in E1 by done. rewrite E1. by apply pending_surveyed.
  - destruct (E2 Hi) as (el & E & Hel). rewrite E. apply append_surveyed; [done|done|].
    intros ->. destruct (Hel eq_refl) as [Hb Hd]. split; [done|].
    destruct (gs_tracker (gl_state (foldl step a pods)) !! g_UID p) as [t0|] eqn:Et; cbn in Hd.
    2:{ rewrite Sub_refl in Hd. unfold staleReplicaEscapeVictimDwell, Minute, Second in Hd. lia. }
    apply loop_tracker in Et as [[Et _]|[-> _]]; [by exists t0|].
    rewrite Sub_refl in Hd. unfold staleReplicaEscapeVictimDwell, Minute, Second in Hd. lia.
Qed.
End survey.

(** ** Lemmas: the victim of the escape *)
Lemma index_fold pairs best :
  snd <$> foldl index_step best pairs = foldl choose_step (snd <$> best) (snd <$> pairs) ∧
  (∀ x, foldl index_step best pairs = Some x → best = Some x ∨ x ∈ pairs).
Proof.
  revert best. induction pairs as [|x pairs IH]; intros best; [by split; [|left]|].
  rewrite fmap_cons. cbn [foldl]. destruct (IH (index_step best x)) as [IH1 IH2].
  assert (E : snd <$> index_step best x = choose_step (snd <$> best) x.2).
  { unfold index_step, choose_step. destruct (HaveSlaveOffset (sp_state x.2)); [|done]. destruct best as [b|]; [|done].
    cbn. by destruct (candidate_less x.2 b.2). }
  split; [by rewrite IH1, E|]. intros y Hy. apply IH2 in Hy as [Hy|Hy]; [|right; by apply list_elem_of_further].
  unfold index_step in Hy. destruct (negb _); [by left|]. destruct best as [b|].
  - destruct (candidate_less x.2 b.2); injection Hy as <-; [right; apply list_elem_of_here|by left].
  - injection Hy as <-. right. apply list_elem_of_here.
Qed.

Lemma zip_seq_lookup {A} (l : list A) k x : (k, x) ∈ zip (seq 0 (length l)) l → l !! k = Some x.
Proof.
  intros H. apply list_elem_of_lookup in H as [n H]. apply lookup_zip_with_Some in H as (a & b & E & H1 & H2).
  apply lookup_seq in H1 as [H1 _]. injection E as -> ->. by rewrite H1.
Qed.

Lemma promotion_index_best l k :
  promotion_index l = Some k → ∃ b, l !! k = Some b ∧ choosePromotionCandidate l = Some b.
Proof.
  unfold promotion_index. destruct (index_fold (zip (seq 0 (length l)) l) None) as [H1 H2].
  destruct (foldl index_step None _) as [[k' b]|]; [|done]. cbn. intros [= <-]. exists b. split.
  - destruct (H2 _ eq_refl) as [H|H]; [done|]. by apply zip_seq_lookup.
  - cbn in H1. unfold choosePromotionCandidate. rewrite snd_zip in H1 by (rewrite length_seq; lia). done.
Qed.

Lemma chooseEscapeVictim_spec obs k o :
  chooseEscapeVictim obs k = Some o →
  ∃ j, obs !! j = Some o ∧ j ≠ k ∧ ob_eligible o = true ∧ HaveSlaveOffset (ob_state o) = true.
Proof.
  unfold chooseEscapeVictim. assert (Hz : ∀ j x, (j, x) ∈ zip (seq 0 (length obs)) obs → obs !! j = Some x)
    by (intros j x; apply zip_seq_lookup).
  revert Hz. generalize (zip (seq 0 (length obs)) obs) as l. intros l Hz H.
  set (good := λ x, ∃ j, obs !! j = Some x ∧ j ≠ k ∧ ob_eligible x = true ∧ HaveSlaveOffset (ob_state x) = true).
  assert (Hg : ∀ best, (∀ x, best = Some x → good x) → ∀ x, foldl (victim_step k) best l = Some x → good x);
    [|by apply (Hg None)].
  clear H. induction l as [|[j x] l IH]; intros best Hb y; cbn [foldl]; [apply Hb|].
  apply IH; [intros j' x' Hx'; apply Hz; by apply list_elem_of_further|]. intros z. unfold victim_step.
  destruct (ob_eligible x) eqn:E1; cbn [negb orb]; [|apply Hb]. destruct (Nat.eqb_spec j k) as [|Hne]; [apply Hb|].
  destruct (HaveSlaveOffset (ob_state x)) eqn:E2; cbn [negb]; [|apply Hb].
  assert (good x) by (exists j; split; [apply Hz, list_elem_of_here|done]).
  destruct best as [cur|]; [|by intros [= <-]]. destruct (_ || _); intros [= <-]; [done|by apply Hb].
Qed.

(** ** When a pod may be deleted *)
Section pass.
Context (recorder : bool) (percr : perCRState) (quorum : option crQuorumState).
Context (cr : CRSpec) (gate_enabled : option bool) (maxLag : option Z) (spec : option SentinelSpec).
Abbreviation bytes := (readinessGateMaxLagBytes maxLag).
Abbreviation gate_run i s := (reconcileReadinessGates recorder percr quorum cr gate_enabled maxLag spec i s).2.

(** A replica deleted beside a labelled primary. *)
Definition stale_evidence (i : gate_in) (s : gate_state) (pods : list gate_pod) (p : gate_pod) : Prop :=
  (∃ q, q ∈ pods ∧ g_role q = roleValuePrimary) ∧ behind recorder i bytes p ∧
  ∃ t, gs_tracker s !! g_UID p = Some t ∧ staleReplicaThreshold <= Sub (gi_now i) t.

(** A replica deleted by the escape. *)
Record escape_evidence (i : gate_in) (s : gate_state) (pods : list gate_pod) (p : gate_pod) : Prop := {
  ee_no_primary : ∀ q, q ∈ pods → g_role q ≠ roleValuePrimary;
  ee_sentinel : ∃ sen, spec = Some sen ∧ sen_MasterName sen ≠ "";
  ee_dwell : noPrimarySince s ≠ zero_time ∧ staleReplicaEscapeDwell <= Sub (gi_now i) (noPrimarySince s);
  ee_paced : staleReplicaEscapeLastFired s = zero_time ∨
             staleReplicaEscapeCooldown <= Sub (gi_now i) (staleReplicaEscapeLastFired s);
  ee_quiet : IsFailoverInFlight (gi_snap i) (gi_nowLatch i) percr = false;
  ee_promotion : ∀ q, quorum = Some q → recoveryPromotionCooldownActive (gi_now i) q = false;
  ee_lineage : ∃ host, ∀ q, q ∈ pods → g_ip q ≠ "" ∧ g_ip q ≠ host ∧ ∃ st, reading i q = Ok st ∧
                 Role st ≠ RoleMaster ∧ LinkUp st = false ∧ MasterHost st = host;
  ee_behind : behind recorder i bytes p;
  ee_victim : ∃ t, gs_tracker s !! g_UID p = Some t ∧ staleReplicaEscapeVictimDwell <= Sub (gi_now i) t;
  ee_keeper : ∃ st q stq, reading i p = Ok st ∧ q ∈ pods ∧ g_name q ≠ g_name p ∧ reading i q = Ok stq ∧
                HaveSlaveOffset st = true ∧ HaveSlaveOffset stq = true ∧ SlaveReplOffset st <= SlaveReplOffset stq ∧
                (∀ r str, r ∈ pods → reading i r = Ok str → HaveSlaveOffset str = true →
                   SlaveReplOffset str <= SlaveReplOffset stq)
}.

Lemma gate_step_fields i b armed suppress a p :
  staleReplicaEscapeLastFired (gl_state (gate_step recorder i b suppress armed a p)) =
  staleReplicaEscapeLastFired (gl_state a).
Proof.
  unfold gate_step. set (c := if suppress then _ else a).
  assert (gl_state c = gl_state a) as Hc by (unfold c; by destruct suppress).
  destruct (podHasReplicationGate p); cbn [negb]; [|destruct armed; cbn; by rewrite Hc].
  destruct (gate_pace_quiet p c) as (P1 & _). case_bool_decide; [by rewrite P1, Hc|].
  unfold gated_pod. destruct (evaluateReplicationGate recorder i p b) as [[[d m] rd] evs].
  destruct (patch_gate_quiet recorder i p d m (gl_out evs [] (gate_pace p c))) as (Q1 & _).
  cbn [gl_out gl_state] in Q1. rewrite Q1, P1, Hc.
  set (srf := bool_decide (g_role p = roleValueReplica) && _).
  destruct srf, suppress; cbn [gl_put gl_fold gl_state]; unfold delete_stale;
    repeat case_match; cbn; rewrite ?Q1, ?P1, ?Hc; done.
Qed.

Lemma loop_fields i b armed suppress pods a :
  staleReplicaEscapeLastFired (gl_state (foldl (gate_step recorder i b suppress armed) a pods)) =
  staleReplicaEscapeLastFired (gl_state a).
Proof. revert a. induction pods as [|p pods IH]; intros a; [done|]. cbn [foldl]. by rewrite IH, gate_step_fields. Qed.

Lemma no_primary_iff (pods : list gate_pod) :
  countPrimaryLabeledPods (g_pod <$> pods) = 0%nat ↔ ∀ q, q ∈ pods → g_role q ≠ roleValuePrimary.
Proof.
  unfold countPrimaryLabeledPods, g_role. induction pods as [|p pods IH].
  { split; [|done]. intros _ q Hq. by apply not_elem_of_nil in Hq. }
  rewrite fmap_cons. cbn [count]. unfold isPrimary at 1. case_bool_decide as E.
  - split; [done|]. intros H. destruct (H p (list_elem_of_here _ _) E).
  - cbn. rewrite IH. split; intros H q; [intros [->|Hq]%elem_of_cons; auto|intros Hq; apply H; by apply list_elem_of_further].
Qed.

Lemma escape_victim_spec i since s s' pods sv o :
  surveyed recorder i bytes (gs_tracker s) pods sv → NoDup (g_name <$> pods) →
  (∀ q, q ∈ pods → g_role q ≠ roleValuePrimary) →
  since = (if IsZero (noPrimarySince s) then gi_now i else noPrimarySince s) →
  staleReplicaEscapeLastFired s' = staleReplicaEscapeLastFired s →
  escape_victim percr quorum i spec since s' sv = Some o →
  ob_pod o ∈ pods ∧ escape_evidence i s pods (ob_pod o).
Proof.
  intros [L [P1 P2] [F1 F2] S O] Hnd Hnp Hsince Hlast. unfold escape_victim.
  destruct (IsZero since) eqn:Ez; [done|]. cbn [orb]. destruct (Z.ltb_spec (Sub (gi_now i) since) staleReplicaEscapeDwell) as [|Hdw]; [done|].
  destruct spec as [sen|] eqn:Es; [|done]. case_bool_decide as Hm; [done|].
  destruct (staleReplicaEscapeAllowed (gi_now i) s') eqn:Ea; [|done]. cbn [negb].
  destruct (IsFailoverInFlight _ _ _) eqn:Ef; [done|].
  destruct (match quorum with Some q => _ | None => _ end) eqn:Eq; [done|].
  destruct (gi_sentinels i) as [sp|]; [|done]. destruct (_ =? 0); [done|].
  set (reps := obs_survey <$> es_obs sv). set (survey := {| livePodIPs := _ |}).
  destruct (promotionSurveyAdmits _ _) eqn:Ead; [|done]. cbn [negb]. destruct (_ <? 2); [done|].
  destruct (promotion_index reps) as [k|] eqn:Ek; [|done]. intros Hv.
  cbn [promotionSurveyAdmits survey dialed dialFailures pendingPods sv_masters sv_replicas livePodIPs negb orb] in Ead.
  destruct ((0 <? es_dialFailures sv) || (0 <? es_pending sv)) eqn:E1; [done|].
  apply orb_false_elim in E1 as [E1 E2]. apply Z.ltb_ge in E1, E2.
  destruct (negb (len (es_masters sv) =? 0) || _ || _) eqn:E3; [done|].
  apply orb_false_elim in E3 as [E3 _]. apply orb_false_elim in E3 as [E3 _]. apply negb_false_iff, Z.eqb_eq in E3.
  assert (Hms : es_masters sv = []) by (destruct (es_masters sv); [done|unfold len in E3; cbn in E3; lia]).
  pose proof (lineage_walk_spec _ _ _ Ead) as Hlin.
  assert (Hpods : ∀ q, q ∈ pods → g_ip q ≠ "" ∧ ∃ o', o' ∈ es_obs sv ∧ ob_pod o' = q ∧
                    reading i q = Ok (ob_state o') ∧ Role (ob_state o') ≠ RoleMaster).
  { intros q Hq. assert (Hip : g_ip q ≠ "") by (apply P2; [lia|done]). split; [done|].
    destruct (F2 ltac:(lia) q Hq Hip) as (st & R1 & R2 & R3).
    assert (Hr : Role st ≠ RoleMaster) by (intros H; by apply R2). destruct (R3 Hr) as (o' & Ho & <- & <-). by exists o'. }
  assert (Hsub : ∀ o', o' ∈ es_obs sv → ob_pod o' ∈ pods).
  { intros o' Ho. apply (elem_of_sublist (ob_pod <$> es_obs sv)); [|done]. by apply list_elem_of_fmap_2. }
  destruct (chooseEscapeVictim_spec _ _ _ Hv) as (j & Hj & Hjk & Hel & Hsl).
  assert (Hoin : o ∈ es_obs sv) by (by eapply list_elem_of_lookup_2).
  destruct (promotion_index_best _ _ Ek) as (b & Hb & Hcb). unfold reps in Hb. rewrite list_lookup_fmap in Hb.
  destruct (es_obs sv !! k) as [ok|] eqn:Hk; [|done]. cbn in Hb. injection Hb as <-.
  destruct (choosePromotionCandidate_best _ _ Hcb) as (_ & Hrk & Hmax).
  assert (Hkin : ok ∈ es_obs sv) by (by eapply list_elem_of_lookup_2).
  destruct (O o Hoin) as [Ro Eo]. destruct (Eo Hel) as [Hbeh Hvd]. destruct (O ok Hkin) as [Rk _].
  assert (Hlt : ∀ o', o' ∈ es_obs sv → HaveSlaveOffset (ob_state o') = true →
                  SlaveReplOffset (ob_state o') <= SlaveReplOffset (ob_state ok)).
  { intros o' Ho Hh. apply (Hmax (obs_survey o')); [by apply list_elem_of_fmap_2|done]. }
  split; [by apply Hsub|]. split; [done|by exists sen| | |done| | |done|done|].
  - destruct (IsZero (noPrimarySince s)) eqn:Ez'.
    + rewrite Hsince, Sub_refl in Hdw. unfold staleReplicaEscapeDwell, Minute, Second in Hdw. lia.
    + rewrite <- Hsince. split; [|done]. intros E. by rewrite E in Ez.
  - unfold staleReplicaEscapeAllowed in Ea. rewrite Hlast in Ea. apply orb_prop in Ea as [Ea|Ea].
    + left. by apply Z.eqb_eq in Ea.
    + right. by apply Z.leb_le in Ea.
  - intros q ->. done.
  - exists (MasterHost (ob_state o)). intros q Hq. destruct (Hpods q Hq) as (Hip & o' & Ho & <- & Hrd & Hro).
    assert (G : obs_survey o' ∈ reps ∧ obs_survey o ∈ reps) by (split; by apply list_elem_of_fmap_2).
    destruct (Hlin (obs_survey o') (proj1 G)) as (K1 & K2 & K3 & _ & K5). cbn in K1, K2, K3, K5.
    split; [done|]. split.
    + intros E. apply K3. rewrite <- (K5 (obs_survey o) (proj2 G)). cbn. rewrite <- E. by apply L.
    + exists (ob_state o'). split_and!; [done|done|done|]. symmetry. apply (K5 (obs_survey o) (proj2 G)).
  - exists (ob_state o), (ob_pod ok), (ob_state ok). split_and!; [done|by apply Hsub| |done|done|done|by apply Hlt|].
    + intros E. apply Hjk. assert (Hnd2 : NoDup (g_name <$> (ob_pod <$> es_obs sv))).
      { eapply sublist_NoDup; [done|]. by apply fmap_sublist. }
      eapply (NoDup_lookup _ _ _ (g_name (ob_pod o)) Hnd2); rewrite !list_lookup_fmap; rewrite ?Hj, ?Hk; cbn; by rewrite ?E.
    + intros r str Hr Hrr Hh. destruct (Hpods r Hr) as (_ & o' & Ho & <- & Hrd & _).
      rewrite Hrd in Hrr. injection Hrr as <-. by apply Hlt.
Qed.

Lemma primary_exists (pods : list gate_pod) p :
  (countPrimaryLabeledPods (g_pod <$> pods) =? 0)%nat && (0 <? len pods) = false → p ∈ pods →
  ∃ q, q ∈ pods ∧ g_role q = roleValuePrimary.
Proof.
  intros Es Hp. destruct (count_pos isPrimary (g_pod <$> pods)) as (x & Hx & Hprim).
  { unfold countPrimaryLabeledPods in Es. destruct (count _ _); [|lia]. cbn in Es.
    destruct pods; [by apply not_elem_of_nil in Hp|]. apply Z.ltb_ge in Es. unfold len in Es. cbn in Es. lia. }
  apply list_elem_of_fmap in Hx as (q & -> & Hq). exists q. split; [done|].
  unfold isPrimary in Hprim. by apply bool_decide_eq_true in Hprim.
Qed.

Lemma filter_deletes fx : List.filter deleted_ok fx = List.filter deleted_ok (List.filter is_delete fx).
Proof. induction fx as [|[] fx IH]; cbn; rewrite ?IH; done. Qed.

Lemma delete_in_filter name uid ok fx :
  DeletePod name uid ok ∈ fx ↔ DeletePod name uid ok ∈ List.filter is_delete fx.
Proof. rewrite !list_elem_of_In, filter_In. cbn. tauto. Qed.

Lemma maybe_escape_spec i since a :
  match escape_victim percr quorum i spec since (gl_state a) (gl_survey a) with
  | None => maybeEscapeStaleReplica recorder percr quorum i spec since a = a
  | Some o =>
      let b := maybeEscapeStaleReplica recorder percr quorum i spec since a in
      (∃ ok, List.filter is_delete (gl_effects b) =
         List.filter is_delete (gl_effects a) ++ [DeletePod (g_name (ob_pod o)) (Some (g_UID (ob_pod o))) ok]) ∧
      (gs_tracker (gl_state b) = gs_tracker (gl_state a) ∨
       gs_tracker (gl_state b) = delete (g_UID (ob_pod o)) (gs_tracker (gl_state a)))
  end.
Proof.
  unfold maybeEscapeStaleReplica. destruct (escape_victim _ _ _ _ _ _) as [o|]; [|done]. cbv zeta.
  destruct (delete_failed _); split; [exists false|by left|exists true|by right]; cbn [gl_out gl_put gl_effects];
    by rewrite ?app_nil_r, List.filter_app.
Qed.

(** The pass while no pod is labelled primary. *)
Lemma suppressed_deletes i s pods :
  let since := if IsZero (noPrimarySince s) then gi_now i else noPrimarySince s in
  let s1 := {| gs_tracker := gs_tracker s; noPrimarySince := since;
               staleReplicaEscapeLastFired := staleReplicaEscapeLastFired s |} in
  let a0 := {| gl_requeue := 0; gl_state := s1; gl_deleted := false; gl_survey := survey_none;
               gl_events := []; gl_effects := [] |} in
  let a := foldl (gate_step recorder i bytes true (staleReplicaEscapeArmedAt since (gi_now i) s1)) a0 pods in
  (∀ q, q ∈ pods → g_role q ≠ roleValuePrimary) → NoDup (g_name <$> pods) →
  gl_deleted a = false ∧ List.filter is_delete (gl_effects a) = [] ∧
  ∀ o, escape_victim percr quorum i spec since (gl_state a) (gl_survey a) = Some o →
    ob_pod o ∈ pods ∧ escape_evidence i s pods (ob_pod o).
Proof.
  intros since s1 a0 a Hnp Hnd. set (armed := staleReplicaEscapeArmedAt since (gi_now i) s1) in *.
  destruct (loop_deletes recorder i bytes true armed pods a0 eq_refl eq_refl) as [D1 D2]. cbv zeta in D1, D2.
  fold a in D1, D2. assert (Hnone : List.filter is_delete (gl_effects a) = []).
  { destruct (List.filter is_delete (gl_effects a)) as [|e l] eqn:E; [done|].
    destruct (D2 e (list_elem_of_here _ _)) as [? _]. done. }
  split; [rewrite Hnone in D1; by destruct (gl_deleted a)|]. split; [done|]. intros o Ev.
  assert (Harm : armed = true).
  { unfold armed, staleReplicaEscapeArmedAt. unfold escape_victim in Ev.
    destruct (IsZero since); [done|]. destruct (Z.ltb_spec (Sub (gi_now i) since) staleReplicaEscapeDwell); [done|].
    destruct spec; [|done]. case_bool_decide; [done|].
    assert (staleReplicaEscapeAllowed (gi_now i) (gl_state a) = staleReplicaEscapeAllowed (gi_now i) s1) as <-
      by (unfold staleReplicaEscapeAllowed, a; by rewrite loop_fields).
    destruct (staleReplicaEscapeAllowed _ _); [|done]. cbn. rewrite andb_true_r. by apply Z.leb_le. }
  assert (Hsv : surveyed recorder i bytes (gs_tracker s) pods (gl_survey a)).
  { unfold a. rewrite Harm. by apply (loop_surveyed recorder i bytes pods a0). }
  apply (escape_victim_spec i since s (gl_state a) pods (gl_survey a) o Hsv Hnd Hnp eq_refl); [|done].
  unfold a. by rewrite loop_fields.
Qed.

Lemma delete_evidence i s pods :
  gi_list i = Ok pods → NoDup (g_name <$> pods) →
  let fx := gl_effects (gate_run i s) in
  (length (List.filter deleted_ok fx) <= 1)%nat ∧
  ∀ name uid ok, DeletePod name uid ok ∈ fx → ∃ p, p ∈ pods ∧ g_name p = name ∧
    (uid = None ∧ stale_evidence i s pods p ∨ uid = Some (g_UID p) ∧ escape_evidence i s pods p).
Proof.
  intros Hl Hnd. cbv zeta. setoid_rewrite delete_in_filter. rewrite filter_deletes. unfold reconcileReadinessGates. rewrite Hl.
  destruct (replicationGateEnabled cr gate_enabled); cbn [negb snd gl_effects].
  2:{ split; [cbn; lia|]. intros name uid ok H. by apply not_elem_of_nil in H. }
  destruct ((countPrimaryLabeledPods (g_pod <$> pods) =? 0)%nat && (0 <? len pods)) eqn:Es.
  - apply andb_prop in Es as [Es _]. apply Nat.eqb_eq in Es.
    destruct (suppressed_deletes i s pods (proj1 (no_primary_iff pods) Es) Hnd) as (Hgd & Hnone & Hev).
    unfold observeNoPrimarySince. cbn [fst snd andb]. rewrite Hgd. cbn [negb andb].
    match goal with |- context [maybeEscapeStaleReplica _ _ _ _ _ ?since ?a] => pose proof (maybe_escape_spec i since a) as Hm end.
    destruct (escape_victim _ _ _ _ _ _) as [o|]; [|rewrite Hm, Hnone; split; [cbn; lia|]; intros ??? H; by apply not_elem_of_nil in H].
    destruct (Hev o eq_refl) as [Hin Hee]. cbv zeta in Hm. destruct Hm as [[ok ->] _]. rewrite Hnone. split; [cbn; destruct ok; cbn; lia|].
    intros name uid ok' [= -> -> ->]%list_elem_of_singleton. exists (ob_pod o). split; [done|]. split; [done|]. by right.
  - cbn [andb fst snd]. cbv zeta. set (a0 := {| gl_requeue := 0 |}).
    destruct (loop_deletes recorder i bytes false false pods a0 eq_refl eq_refl) as [D1 D2]. cbv zeta in D1, D2.
    cbn [gl_effects snd]. split; [rewrite D1; destruct (gl_deleted _); lia|]. intros name uid ok H.
    destruct (D2 _ H) as (_ & p & ok' & t & Hp & E & Hb & Ht & Hd). injection E as -> -> ->.
    exists p. split; [done|]. split; [done|]. left. split; [done|]. split; [|split; [done|by exists t]].
    by apply (primary_exists pods p).
Qed.

(** C11: When phase 8 deletes a pod.  A pass deletes at most one pod successfully.  Beside
    a labelled primary it deletes only a replica that it found behind in this pass
    and whose timer, started by this process, has run for [staleReplicaThreshold].
    With no labelled primary only the escape deletes: in sentinel mode, after ten
    minutes without a primary and since the last escape, with no failover in
    flight and no promotion cooling down, when every pod answered, none as master and
    all with their link down to one host that is no pod; the victim has been behind
    for ten minutes, and another pod with the highest offset of all stays. *)
Theorem stuck_replica_delete i s pods :
  gi_list i = Ok pods → NoDup (g_name <$> pods) →
  let fx := gl_effects (gate_run i s) in
  (length (List.filter deleted_ok fx) <= 1)%nat ∧
  ∀ name uid ok, DeletePod name uid ok ∈ fx → ∃ p, p ∈ pods ∧ g_name p = name ∧
    (uid = None ∧ stale_evidence i s pods p ∨ uid = Some (g_UID p) ∧ escape_evidence i s pods p).
Proof. apply delete_evidence. Qed.
End pass.

(** ** Runs of passes in one process *)
Record gate_pass := {
  gp_percr : perCRState; gp_quorum : option crQuorumState; gp_cr : CRSpec; gp_enabled : option bool;
  gp_maxLag : option Z; gp_spec : option SentinelSpec; gp_in : gate_in
}.
Definition pass_of (recorder : bool) (s : gate_state) (p : gate_pass) : gate_loop :=
  (reconcileReadinessGates recorder (gp_percr p) (gp_quorum p) (gp_cr p) (gp_enabled p) (gp_maxLag p) (gp_spec p)
     (gp_in p) s).2.
Definition gate_zero : gate_state :=
  {| gs_tracker := ∅; noPrimarySince := zero_time; staleReplicaEscapeLastFired := zero_time |}.
Definition passes (recorder : bool) (l : list gate_pass) : gate_state :=
  foldl (λ s p, gl_state (pass_of recorder s p)) gate_zero l.

Section runs.
Context (recorder : bool).
Definition evaluated (p : gate_pass) (q : gate_pod) : Prop :=
  replicationGateEnabled (gp_cr p) (gp_enabled p) = true ∧ ∃ pods, gi_list (gp_in p) = Ok pods ∧ q ∈ pods.
Definition saw_behind (p : gate_pass) (u : string) : Prop :=
  ∃ q, evaluated p q ∧ g_UID q = u ∧ behind recorder (gp_in p) (readinessGateMaxLagBytes (gp_maxLag p)) q.
Definition saw_caught_up (p : gate_pass) (u : string) : Prop :=
  ∃ q, evaluated p q ∧ g_UID q = u ∧ caught_up recorder (gp_in p) (readinessGateMaxLagBytes (gp_maxLag p)) q.
(** The pod has been behind since a pass at [t0], and no pass after that one found it caught up. *)
Definition behind_since (l : list gate_pass) (u : string) (t0 : Time) : Prop :=
  ∃ l1 p l2, l = l1 ++ p :: l2 ∧ gi_now (gp_in p) = t0 ∧ saw_behind p u ∧ ∀ p', p' ∈ l2 → ¬ saw_caught_up p' u.

Lemma pass_tracker s p u t0 :
  gs_tracker (gl_state (pass_of recorder s p)) !! u = Some t0 →
  (gs_tracker s !! u = Some t0 ∧ ¬ saw_caught_up p u) ∨ (t0 = gi_now (gp_in p) ∧ saw_behind p u).
Proof.
  unfold pass_of, reconcileReadinessGates. destruct (replicationGateEnabled _ _) eqn:Eg; cbn [negb].
  2:{ cbn. intros H. left. split; [done|]. intros (q & [Hq _] & _). congruence. }
  destruct (gi_list (gp_in p)) as [pods|e] eqn:El.
  2:{ cbn. intros H. left. split; [done|]. intros (q & [_ (pods & Hp & _)] & _). congruence. }
  set (i := gp_in p) in *. set (b := readinessGateMaxLagBytes (gp_maxLag p)) in *.
  assert (Hloop : ∀ sup armed a, gs_tracker (gl_state a) = gs_tracker s →
    gs_tracker (gl_state (foldl (gate_step recorder i b sup armed) a pods)) !! u = Some t0 →
    (gs_tracker s !! u = Some t0 ∧ ¬ saw_caught_up p u) ∨ (t0 = gi_now i ∧ saw_behind p u)).
  { intros sup armed a Ha H. apply loop_tracker in H as [[H Hn]|(-> & q & Hq & Hu & Hb)].
    - left. rewrite <- Ha. split; [done|]. intros (q & [_ (pods' & Hp & Hq)] & Hu & Hc).
      fold i in Hp. rewrite El in Hp. injection Hp as <-. by apply (Hn q Hq Hu).
    - right. split; [done|]. exists q. split; [|done]. split; [done|]. by exists pods. }
  destruct ((_ =? 0)%nat && _) eqn:Es; cbn [andb].
  - destruct (observeNoPrimarySince (gi_now i) s) as [since s1] eqn:Eo.
    assert (gs_tracker s1 = gs_tracker s) as Hs1 by (unfold observeNoPrimarySince in Eo; by injection Eo as <- <-).
    destruct (gl_deleted _); cbn [negb snd]; [by apply Hloop|].
    match goal with |- context [maybeEscapeStaleReplica _ ?pc ?q _ ?sp ?since ?a] =>
      pose proof (maybe_escape_spec recorder pc q sp i since a) as Hm end.
    destruct (escape_victim _ _ _ _ _ _) as [o|]; [|rewrite Hm; by apply Hloop].
    cbv zeta in Hm. destruct Hm as [_ [-> | ->]]; [by apply Hloop|]. intros [_ H]%lookup_delete_Some. by apply Hloop in H.
  - cbn [snd]. by apply Hloop.
Qed.

Lemma timers_honest l u t0 : gs_tracker (passes recorder l) !! u = Some t0 → behind_since l u t0.
Proof.
  revert t0. induction l as [|p l IH] using rev_ind; intros t0; [done|]. unfold passes. rewrite foldl_app. cbn [foldl].
  intros [[H Hn]|[-> Hb]]%pass_tracker.
  - apply IH in H as (l1 & q & l2 & -> & Ht & Hq & Hall). exists l1, q, (l2 ++ [p]). rewrite <- app_assoc. split_and!; [done..|].
    intros p' [Hp'| ->%list_elem_of_singleton]%elem_of_app; [by apply Hall|done].
  - exists l, p, []. split_and!; [done..|]. intros p' H. by apply not_elem_of_nil in H.
Qed.

(** A pod is deleted only for what this process saw.  From the start of the process,
    whatever the passes before, a pod that a pass deletes was found behind by a pass
    at least [staleReplicaThreshold] earlier, and no pass since then found that pod
    (the same UID) caught up: a restart of the operator, or of the pod, starts the
    timer again. *)
Theorem stale_timer_honest l p pods name uid ok :
  gi_list (gp_in p) = Ok pods → NoDup (g_name <$> pods) →
  DeletePod name uid ok ∈ gl_effects (pass_of recorder (passes recorder l) p) →
  ∃ q t0, q ∈ pods ∧ g_name q = name ∧ staleReplicaThreshold <= Sub (gi_now (gp_in p)) t0 ∧
    behind_since l (g_UID q) t0.
Proof.
  intros Hl Hnd Hin. destruct (delete_evidence recorder (gp_percr p) (gp_quorum p) (gp_cr p) (gp_enabled p)
    (gp_maxLag p) (gp_spec p) (gp_in p) (passes recorder l) pods Hl Hnd) as [_ H].
  destruct (H name uid ok Hin) as (q & Hq & Hn & [[_ (_ & _ & t & Ht & Hd)]|[_ Hee]]).
  - exists q, t. split_and!; [done..|]. by apply timers_honest.
  - destruct (ee_victim _ _ _ _ _ _ _ _ _ Hee) as (t & Ht & Hd). exists q, t.
    split_and!; [done|done| |by apply timers_honest].
    refine (Z.le_trans _ _ _ _ Hd). by vm_compute.
Qed.
End runs.

(** ** Concrete passes *)
Definition gate_demo_pod (name ip role uid : string) : gate_pod :=
  {| g_pod := {| pod_Name := name; pod_Labels := {[RoleLabel := role]}; pod_DeletionTimestamp := None; pod_IP := ip;
                 pod_NodeName := "n"; pod_Conditions := []; pod_ReadinessGates := [ReplicationReadyGate] |};
     g_UID := uid; g_Generation := 1; g_conditions := [] |}.
Definition linkless (host : string) (off : Z) : LagState :=
  {| Role := "slave"; LinkUp := false; LagBytes := 0; MasterReplOffset := 0; HaveMasterOffset := false;
     MasterHost := host; SlaveReplOffset := off; HaveSlaveOffset := true |}.
Definition demo_gate_in (role0 : string) (now : Time) : gate_in :=
  {| gi_list := Ok [gate_demo_pod "vk-0" "10.0.0.1" role0 "u0"; gate_demo_pod "vk-1" "10.0.0.2" "replica" "u1";
                    gate_demo_pod "vk-2" "10.0.0.3" "replica" "u2"];
     gi_check := λ a, Ok (linkless "10.0.0.99" (if bool_decide (a = "10.0.0.2:6379") then 70 else 50));
     gi_patch := λ _, true; gi_delete := λ _, None; gi_now := now; gi_nowPatch := now; gi_snap := None;
     gi_nowLatch := now;
     gi_sentinels := Ok [demo_pod "vk-sentinel-0" "10.1.0.1" "" "r1"] |}.
Definition demo_gate_spec : option SentinelSpec :=
  Some {| sen_MasterName := "mymaster"; sen_Replicas := 3; sen_Quorum := 2;
          sen_Tuning := {| DownAfterMilliseconds := 3000; FailoverTimeout := 180000; ParallelSyncs := 1 |} |}.
Definition demo_gate_pass (role0 : string) (now : Time) : gate_pass :=
  {| gp_percr := percr_zero; gp_quorum := None; gp_cr := demo_spec; gp_enabled := None; gp_maxLag := None;
     gp_spec := demo_gate_spec; gp_in := demo_gate_in role0 now |}.

(** Beside a primary the replica goes after 90 s; without one the escape takes the
    least fresh replica after ten minutes. *)
Example stale_replica_deleted :
  List.filter is_delete (gl_effects (pass_of true (passes true [demo_gate_pass "primary" (100 * Second)])
    (demo_gate_pass "primary" (190 * Second)))) = [DeletePod "vk-1" None true].
Proof. vm_compute. reflexivity. Qed.
Example escape_deletes_least_fresh :
  List.filter is_delete (gl_effects (pass_of true (passes true [demo_gate_pass "replica" (100 * Second)])
    (demo_gate_pass "replica" (700 * Second)))) = [DeletePod "vk-2" (Some "u2") true].
Proof. vm_compute. reflexivity. Qed.

Lemma In_filter_elem {A} (f : A → bool) (x : A) l : In x (List.filter f l) → x ∈ l.
Proof. rewrite List.filter_In, list_elem_of_In. by intros [? _]. Qed.

(** The theorems at those passes. *)
Lemma stuck_replica_delete_witness :
  let i := demo_gate_in "replica" (700 * Second) in
  let s := passes true [demo_gate_pass "replica" (100 * Second)] in
  ∃ pods p, gi_list i = Ok pods ∧ p ∈ pods ∧ g_name p = "vk-2" ∧
    escape_evidence true percr_zero None None demo_gate_spec i s pods p.
Proof.
  intros i s.
  destruct (stuck_replica_delete true percr_zero None demo_spec None None demo_gate_spec i s
    (match gi_list i with Ok pods => pods | Err _ => [] end)) as [_ H].
  - reflexivity.
  - apply (bool_decide_unpack _). vm_compute. exact I.
  - destruct (H "vk-2" (Some "u2") true) as (p & Hp & Hn & [[[=] _]|[_ He]]).
    + apply (In_filter_elem is_delete). change (In (DeletePod "vk-2" (Some "u2") true) (List.filter is_delete (gl_effects
        (pass_of true s (demo_gate_pass "replica" (700 * Second)))))). unfold s.
      rewrite escape_deletes_least_fresh. by left.
    + eexists _, p. split; [reflexivity|]. split; [exact Hp|]. split; [exact Hn|exact He].
Defined.

Lemma stale_timer_honest_witness :
  let l := [demo_gate_pass "primary" (100 * Second)] in
  let p := demo_gate_pass "primary" (190 * Second) in
  ∃ pods q t0, gi_list (gp_in p) = Ok pods ∧ q ∈ pods ∧ g_name q = "vk-1" ∧
    staleReplicaThreshold <= Sub (gi_now (gp_in p)) t0 ∧ behind_since true l (g_UID q) t0.
Proof.
  intros l p.
  destruct (stale_timer_honest true l p (match gi_list (gp_in p) with Ok pods => pods | Err _ => [] end) "vk-1" None true)
    as (q & t0 & Hq & Hn & Hd & Hb).
  - reflexivity.
  - apply (bool_decide_unpack _). vm_compute. exact I.
  - apply (In_filter_elem is_delete). unfold l, p. rewrite stale_replica_deleted. by left.
  - eexists _, q, t0. split; [reflexivity|]. split; [exact Hq|]. split; [exact Hn|]. split; [exact Hd|exact Hb].
Defined.
