(* ===== verification/SentinelInfra.v ===== *)
(** * The sentinels' own infrastructure (phase 3): [internal/controller/sentinel_sts.go]
    and [internal/controller/sentinel_roll.go]

    A pass writes the seed address that starting pods read, and applies the
    sentinels' StatefulSet behind two gates: no failover or data-plane roll in
    flight, and a rolling-update partition that lets one pod roll at a time.  Of
    the ConfigMaps and Services only the outcome is kept, of the StatefulSet its
    template hash and partition.  API outcomes, replies and clock readings are
    inputs; writes are recorded in order. *)
From S2P Require Import Prelude GoStd GoFmt Resp Fsm SentinelParse Observer TripleCheck SQAggregate SentinelWire Surgery SurgerySpec Status PvcResize DeriveState LagChecker PrimaryRollout RoleLabels OrphanMaster QuorumGate Recovery ScaleGuard ReadinessGate.
Local Open Scope Z_scope.

Definition sentinelBootstrapRequeue : Duration := 5 * Second.
Definition sentinelRollDeferRequeue : Duration := 10 * Second.
Definition sentinelRejoinRequeue : Duration := 5 * Second.
Definition suffixSentinel : string := "-sentinel".
Definition sentinelQuorumFreshnessWindow : Duration := 60 * Second.

Definition clampQuorumToPoolMajority (quorum replicas : Z) : Z :=
  let floor := QuorumThreshold replicas in
  if (floor <? 0) || (2 ^ 31 - 1 <? floor) then quorum
  else if floor <=? quorum then quorum
  else floor.

(** ** The seed of the bootstrap ConfigMap *)
Definition seedIPOwnedByCR (listed : result (list Pod)) (ip : string) : result bool :=
  match listed with
  | Err e => Err ("listing valkey pods for seed-ownership check: " +:+ e)
  | Ok pods => Ok (existsb (λ p, bool_decide (pod_DeletionTimestamp p = None) && bool_decide (pod_IP p = ip)) pods)
  end.

Definition seedFromFailoverDispatch (marker : option FailoverDispatchStatus) (listed : result (list Pod))
    (snap : option Snapshot) : string :=
  match marker with
  | None => ""
  | Some m =>
      if bool_decide (fd_PreStripAddr m = "") then ""
      else match SplitHostPort (fd_PreStripAddr m) with
      | None => ""
      | Some (host, _) =>
          if bool_decide (host = "") then ""
          else match seedIPOwnedByCR listed host with
          | Ok true =>
              let current := (observedPrimaryAddrEpoch snap).2 in
              if (0 <? fd_PreStripEpoch m) && (0 <? current) && (fd_PreStripEpoch m <? current) then "" else host
          | _ => ""
          end
      end
  end.

Record seed_in := {
  si_primaries : result (list Pod);                   (* the pods labelled primary *)
  si_records : result (list SentinelQuorumStatus);
  si_now : Time;
  si_get : string → result Pod;
  si_owned : result (list Pod);                       (* the list behind the marker's check *)
  si_snap : option Snapshot
}.

Section infra.
Context {R : MapRange}.

Definition seedMasterIPForCR (name : string) (spec : option SentinelSpec) (marker : option FailoverDispatchStatus)
    (i : seed_in) : string :=
  match si_primaries i with
  | Err _ => ""
  | Ok primaries =>
      match List.find (λ p, negb (bool_decide (pod_IP p = ""))) primaries with
      | Some p => pod_IP p
      | None =>
          let bootstrap := match si_get i (name +:+ "-0") with Ok p => pod_IP p | Err _ => "" end in
          match si_records i, spec with
          | Err _, _ => ""
          | Ok [], _ | Ok _, None => bootstrap
          | Ok sqs, Some s =>
              let agg := Aggregate (si_now i) sentinelQuorumFreshnessWindow
                           (clampQuorumToPoolMajority (sen_Quorum s) (sen_Replicas s)) sqs in
              let majority :=
                if PrimaryConfirmed agg && negb (bool_decide (PrimaryPod agg = "")) then
                  match si_get i (PrimaryPod agg) with
                  | Ok p => if bool_decide (pod_DeletionTimestamp p = None) then pod_IP p else ""
                  | Err _ => ""
                  end
                else "" in
              if negb (bool_decide (majority = "")) then majority
              else seedFromFailoverDispatch marker (si_owned i) (si_snap i)
          end
      end
  end.

(** The ConfigMap's seed ([None]: no ConfigMap), and the outcome of each request. *)
Record cm_in := {
  cm_read : option api_error;             (* a failed read; absence is in the store *)
  cm_list : result (list Pod);
  cm_apply : option string
}.

Definition reconcileSentinelBootstrapCM (name seedIP : string) (i : cm_in) (cm : option string) :
    option string * option string :=
  let apply := match cm_apply i with
               | Some e => (Some ("applying ConfigMap " +:+ Quote (name +:+ suffixSentinel +:+ "-bootstrap") +:+ ": " +:+ e), cm)
               | None => (None, Some seedIP)
               end in
  if negb (bool_decide (seedIP = "")) then apply
  else match match cm_read i, cm with
             | Some e, _ => inr e | None, None => inr not_found | None, Some s => inl s end with
  | inr e =>
      if has_kind NotFound e then apply
      else (Some ("reading ConfigMap " +:+ Quote (name +:+ suffixSentinel +:+ "-bootstrap") +:+ ": " +:+ e_text e), cm)
  | inl prev =>
      if bool_decide (prev = "") then apply
      else match seedIPOwnedByCR (cm_list i) prev with
      | Err _ | Ok true => (None, cm)
      | Ok false => apply
      end
  end.
End infra.

(** ** The roll of the sentinels *)
Definition sentinelReplicas (spec : option SentinelSpec) : Z :=
  match spec with Some s => if 0 <? sen_Replicas s then sen_Replicas s else 1 | None => 1 end.

Definition sentinelRejoinThreshold (spec : option SentinelSpec) : Z :=
  match spec with Some s => sen_Quorum s - 1 | None => 0 end.

Definition sentinelPodOrdinal (podName stsName : string) : option Z :=
  match CutPrefix podName (stsName +:+ "-") with
  | None => None
  | Some suffix =>
      match Atoi suffix with
      | None => None
      | Some n => if (n <? 0) || (2 ^ 31 - 1 <? n) then None else Some n
      end
  end.

Record roll_in := {
  ri_get : DeriveState.StatefulSet + api_error;
  ri_pods : result (list Pod);
  ri_dial : Endpoint → conn
}.

Definition sentinelPodRejoined (name password : string) (dial : Endpoint → conn) (pods : list Pod) (ordinal threshold : Z) :
    bool :=
  let target := name +:+ suffixSentinel +:+ "-" +:+ Itoa ordinal in
  match List.find (λ ep, bool_decide (Name ep = target)) (sentinelEndpointsFromPodList pods) with
  | None => false
  | Some ep =>
      match List.find (λ r, bool_decide (pc_Name r = target)) (MasterPeerCountAll password dial [ep]) with
      | None => false
      | Some r => match pc_Res r with Ok c => threshold <=? c | Err _ => false end
      end
  end.

(** One turn of the loop that counts the rolled pods. *)
Definition rolled_step (stsName updateRev : string) (a : Z * Z) (p : Pod) : Z * Z :=
  let '(numRolled, lowestRolled) := a in
  if negb (bool_decide (label p stsRevisionLabel = updateRev)) then a
  else (numRolled + 1,
        match sentinelPodOrdinal (pod_Name p) stsName with
        | Some ord => if ord <? lowestRolled then ord else lowestRolled
        | None => lowestRolled
        end).

(** The partition, the requeue, and the error. *)
Definition computeSentinelRollPartition (name password : string) (spec : option SentinelSpec) (i : roll_in) :
    Z * Duration * option string :=
  let stsName := name +:+ suffixSentinel in
  let replicas := sentinelReplicas spec in
  match ri_get i with
  | inr e => if has_kind NotFound e then (0, 0, None) else (0, 0, Some (e_text e))
  | inl sts =>
      let updateRev := UpdateRevision sts in
      if bool_decide (updateRev = "") || bool_decide (updateRev = CurrentRevision sts) then (0, 0, None)
      else match ri_pods i with
      | Err e => (replicas, sentinelRejoinRequeue, Some ("listing sentinel pods: " +:+ e))
      | Ok pods =>
          let '(numRolled, lowestRolled) := foldl (rolled_step stsName updateRev) (0, replicas) pods in
          if replicas <=? numRolled then (0, 0, None)
          else if numRolled =? 0 then (replicas - 1, sentinelRejoinRequeue, None)
          else
            let threshold := sentinelRejoinThreshold spec in
            if (threshold <=? 0) || sentinelPodRejoined name password (ri_dial i) pods lowestRolled threshold then
              let advance := lowestRolled - 1 in
              if advance <=? 0 then (0, 0, None) else (advance, sentinelRejoinRequeue, None)
            else (lowestRolled, sentinelRejoinRequeue, None)
      end
  end.

(** ** The phase *)
Inductive ieffect : Type := ApplySentinelSTS (hash : string) (partition : Z) (ok : bool).

Record infra_in := {
  ii_configmaps : result string;          (* the hash of sentinel.conf and its script *)
  ii_services : option string;
  ii_seed : seed_in;
  ii_cm : cm_in;
  ii_snap : option Snapshot;              (* of the in-flight test *)
  ii_nowLatch : Time;
  ii_roll : roll_in;
  ii_applySTS : option string
}.

Section phase3.
Context {R : MapRange} (recorder : bool) (percr : perCRState).

Definition emitSentinelRollDeferred (cause : string) : list event :=
  if recorder then
    [CREvent false "SentinelRollDeferred" "SentinelRoll"
       ("deferring sentinel StatefulSet apply: " +:+ cause +:+ " in flight — yielding to the election window")]
  else [].

Record infra_out := {
  io_result : result Duration;
  io_seed : option string;
  io_events : list event;
  io_effects : list ieffect
}.

Definition reconcileSentinelInfra (cr : CRSpec) (name password : string) (spec : option SentinelSpec)
    (marker : option FailoverDispatchStatus) (state : State) (i : infra_in) (cm : option string) : infra_out :=
  let out r cm evs fx := {| io_result := r; io_seed := cm; io_events := evs; io_effects := fx |} in
  if negb (bool_decide (spec_Mode cr = ModeSentinel)) then out (Ok 0) cm [] []
  else match spec with
  | None => out (Ok 0) cm [] []
  | Some s =>
      if bool_decide (sen_MasterName s = "") then out (Ok 0) cm [] []
      else match ii_configmaps i with
      | Err e => out (Err ("sentinel configmaps: " +:+ e)) cm [] []
      | Ok hash =>
          match ii_services i with
          | Some e => out (Err ("sentinel services: " +:+ e)) cm [] []
          | None =>
              let seedIP := seedMasterIPForCR name spec marker (ii_seed i) in
              match reconcileSentinelBootstrapCM name seedIP (ii_cm i) cm with
              | (Some e, cm) => out (Err ("sentinel bootstrap configmap: " +:+ e)) cm [] []
              | (None, cm) =>
                  if bool_decide (seedIP = "") then out (Ok sentinelBootstrapRequeue) cm [] []
                  else if IsFailoverInFlight (ii_snap i) (ii_nowLatch i) percr then
                    out (Ok sentinelRollDeferRequeue) cm (emitSentinelRollDeferred "failover") []
                  else if valkeyRollActive state then
                    out (Ok sentinelRollDeferRequeue) cm (emitSentinelRollDeferred "valkey roll") []
                  else
                    let '(partition, rollRequeue, _) := computeSentinelRollPartition name password spec (ii_roll i) in
                    match ii_applySTS i with
                    | Some e => out (Err ("sentinel statefulset: applying sentinel STS: " +:+ e)) cm []
                                  [ApplySentinelSTS hash partition false]
                    | None => out (Ok rollRequeue) cm [] [ApplySentinelSTS hash partition true]
                    end
              end
          end
      end
  end.
End phase3.

(** ** Where a seed comes from *)
Definition live_ip (pods : list Pod) (ip : string) : Prop :=
  ∃ p, p ∈ pods ∧ pod_DeletionTimestamp p = None ∧ pod_IP p = ip.

Lemma seedIPOwned_spec listed ip b :
  seedIPOwnedByCR listed ip = Ok b → ∃ pods, listed = Ok pods ∧ (b = true ↔ live_ip pods ip).
Proof.
  unfold seedIPOwnedByCR. destruct listed as [pods|e]; [|done]. intros [= <-]. exists pods. split; [done|].
  rewrite existsb_exists. split.
  - intros (p & Hp & Hb). bool_to_prop. exists p. rewrite list_elem_of_In. naive_solver.
  - intros (p & Hp & Hd & Hi). exists p. rewrite <- list_elem_of_In. split; [done|]. by rewrite !bool_decide_eq_true_2.
Qed.

Section seeds.
Context {R : MapRange}.

(** Why an address was chosen: it is the labelled primary's; or a strict majority of the fresh
    records names its pod, which is alive; or the marker of a failover in flight names it, it is a live
    pod of this CR, and no later election is known; or it is pod 0's, there is no record now (or no sentinel
    section), and no pod labelled primary has an address. *)
Inductive seed_source (name : string) (spec : option SentinelSpec) (marker : option FailoverDispatchStatus)
    (i : seed_in) (ip : string) : Prop :=
  | from_label ps p : si_primaries i = Ok ps → p ∈ ps → pod_IP p = ip → seed_source name spec marker i ip
  | from_majority sqs pod p :
      si_records i = Ok sqs → si_get i pod = Ok p → pod_DeletionTimestamp p = None → pod_IP p = ip →
      let w := sentinelQuorumFreshnessWindow in
      (count (fresh (si_now i) w) sqs <
       2 * count (λ r, fresh (si_now i) w r && bool_decide (sq_ObservedPrimary r = pod)) sqs)%nat →
      seed_source name spec marker i ip
  | from_marker m port pods sqs :
      si_records i = Ok sqs → sqs ≠ [] → marker = Some m → SplitHostPort (fd_PreStripAddr m) = Some (ip, port) →
      si_owned i = Ok pods → live_ip pods ip →
      ¬ (0 < fd_PreStripEpoch m < (observedPrimaryAddrEpoch (si_snap i)).2) →
      seed_source name spec marker i ip
  | from_bootstrap sqs p :
      si_records i = Ok sqs → sqs = [] ∨ spec = None → si_get i (name +:+ "-0") = Ok p → pod_IP p = ip →
      (∀ ps q, si_primaries i = Ok ps → q ∈ ps → pod_IP q = "") → seed_source name spec marker i ip.

Lemma marker_seed marker listed snap ip :
  seedFromFailoverDispatch marker listed snap = ip → ip ≠ "" →
  ∃ m port pods, marker = Some m ∧ SplitHostPort (fd_PreStripAddr m) = Some (ip, port) ∧ listed = Ok pods ∧
    live_ip pods ip ∧ ¬ (0 < fd_PreStripEpoch m < (observedPrimaryAddrEpoch snap).2).
Proof.
  unfold seedFromFailoverDispatch. destruct marker as [m|]; [|by intros <-].
  case_bool_decide; [by intros <-|]. destruct (SplitHostPort _) as [[h port]|] eqn:Es; [|by intros <-].
  case_bool_decide; [by intros <-|]. destruct (seedIPOwnedByCR listed h) as [[]|] eqn:Eo; [|by intros <-..].
  apply seedIPOwned_spec in Eo as (pods & -> & Hl). case_match eqn:Ee; [by intros <-|]. intros <- _.
  exists m, port, pods. split_and!; [done..|by apply Hl|]. intros [H1 H2].
  rewrite !(proj2 (Z.ltb_lt _ _)) in Ee by lia. done.
Qed.

Lemma majority_votes now w quorum sqs pod :
  let r := Aggregate now w quorum sqs in
  PrimaryConfirmed r = true → PrimaryPod r = pod →
  (count (fresh now w) sqs < 2 * count (λ r, fresh now w r && bool_decide (sq_ObservedPrimary r = pod)) sqs)%nat.
Proof.
  intros r H1 H2. destruct (proj1 (aggregate_primary_iff now w quorum sqs pod) (conj H1 H2)) as [_ H].
  unfold Aggregate in H. cbn [FreshCount] in H. destruct (tallies_spec now w sqs tallies_zero) as (Hf & _).
  rewrite Hf in H. cbn [tallies_zero t_fresh] in H. lia.
Qed.

Lemma seed_justified name spec marker i ip :
  seedMasterIPForCR name spec marker i = ip → ip ≠ "" → seed_source name spec marker i ip.
Proof.
  intros H Hne. unfold seedMasterIPForCR in H. destruct (si_primaries i) as [ps|] eqn:Ep; [|by subst].
  destruct (List.find _ ps) as [p|] eqn:Ef.
  { apply List.find_some in Ef as [Hp _]. eapply from_label; [done|by apply list_elem_of_In|done]. }
  assert (Hnone : ∀ ps' q, si_primaries i = Ok ps' → q ∈ ps' → pod_IP q = "").
  { intros ps' q Hps Hq. rewrite Ep in Hps. injection Hps as <-. apply list_elem_of_In in Hq.
    pose proof (List.find_none _ _ Ef q Hq) as Hn. cbv beta in Hn. bool_to_prop. done. }
  destruct (si_records i) as [sqs|] eqn:Er; [|by subst].
  assert (Hb : sqs = [] ∨ spec = None → match si_get i (name +:+ "-0") with Ok p => pod_IP p | Err _ => "" end = ip →
    seed_source name spec marker i ip).
  { intros Hs Hg. destruct (si_get _ _) as [p|] eqn:Eg; [|by subst]. by eapply from_bootstrap. }
  destruct spec as [s|]; [|destruct sqs; by apply Hb; [right|]].
  destruct sqs as [|sq sqs]; [by apply Hb; [left|]|].
  set (agg := Aggregate _ _ _ _) in H. cbv zeta in H.
  assert (Hm : seedFromFailoverDispatch marker (si_owned i) (si_snap i) = ip → seed_source name (Some s) marker i ip).
  { intros Hs. apply marker_seed in Hs as (m & port & pods & ? & ? & ? & ? & ?); [|done]. by eapply from_marker. }
  destruct (PrimaryConfirmed agg && _) eqn:Ec; [|by apply Hm].
  destruct (si_get i (PrimaryPod agg)) as [p|] eqn:Eg; [|by apply Hm].
  destruct (decide (pod_DeletionTimestamp p = None)) as [Hd|Hd].
  2:{ rewrite (bool_decide_eq_false_2 _ Hd) in H. by apply Hm. }
  rewrite (bool_decide_eq_true_2 _ Hd) in H. case_bool_decide; [by apply Hm|]. cbn in H.
  bool_to_prop. eapply from_majority; [done..|]. by eapply majority_votes.
Qed.
End seeds.

(** What a write of the ConfigMap may do to the stored seed. *)
Lemma bootstrap_cm_spec name seedIP i cm e cm' :
  reconcileSentinelBootstrapCM name seedIP i cm = (e, cm') →
  (∀ e, cm_read i = Some e → has_kind NotFound e = false) →
  cm' = cm ∨ cm' = Some seedIP ∧
    (seedIP = "" → ∀ prev, cm = Some prev → prev = "" ∨ ∃ pods, cm_list i = Ok pods ∧ ¬ live_ip pods prev).
Proof.
  unfold reconcileSentinelBootstrapCM. intros H Hr.
  set (ap := match cm_apply i with Some _ => _ | None => _ end) in H.
  assert (Hap : ap = (e, cm') → cm' = cm ∨ cm' = Some seedIP).
  { unfold ap. destruct (cm_apply i); intros [= <- <-]; auto. }
  destruct (decide (seedIP = "")) as [Hs|Hs].
  2:{ rewrite bool_decide_eq_false_2 in H by done. apply Hap in H as [->| ->]; [by left|right]. done. }
  rewrite bool_decide_eq_true_2 in H by done. cbn [negb] in H.
  destruct (cm_read i) as [re|] eqn:Er.
  { rewrite (Hr re eq_refl) in H. injection H as <- <-. by left. }
  destruct cm as [prev|]; cbn in H.
  2:{ apply Hap in H as [->| ->]; [by left|right]. split; [done|]. intros _ p [=]. }
  case_bool_decide as Hp.
  { apply Hap in H as [->| ->]; [by left|right]. split; [done|]. intros _ p [= <-]. by left. }
  destruct (seedIPOwnedByCR (cm_list i) prev) as [[]|] eqn:Eo; [injection H as <- <-; by left| |injection H as <- <-; by left].
  apply seedIPOwned_spec in Eo as (pods & Hl & Hiff).
  apply Hap in H as [->| ->]; [by left|right]. split; [done|]. intros _ p [= <-]. right. exists pods.
  split; [done|]. rewrite <- Hiff. done.
Qed.

Section phase.
Context {R : MapRange} (recorder : bool) (percr : perCRState).

(** One pass, by its three possible ends. *)
Inductive infra_end (cr : CRSpec) (name password : string) (spec : option SentinelSpec)
    (marker : option FailoverDispatchStatus) (state : State) (i : infra_in) (cm : option string) : infra_out → Prop :=
  | end_idle r : infra_end cr name password spec marker state i cm
      {| io_result := r; io_seed := cm; io_events := []; io_effects := [] |}
  | end_seed r cm' e evs : reconcileSentinelBootstrapCM name (seedMasterIPForCR name spec marker (ii_seed i)) (ii_cm i) cm = (e, cm') →
      infra_end cr name password spec marker state i cm
        {| io_result := r; io_seed := cm'; io_events := evs; io_effects := [] |}
  | end_apply r cm' hash ok :
      reconcileSentinelBootstrapCM name (seedMasterIPForCR name spec marker (ii_seed i)) (ii_cm i) cm = (None, cm') →
      seedMasterIPForCR name spec marker (ii_seed i) ≠ "" → ii_configmaps i = Ok hash →
      IsFailoverInFlight (ii_snap i) (ii_nowLatch i) percr = false → valkeyRollActive state = false →
      infra_end cr name password spec marker state i cm
        {| io_result := r; io_seed := cm'; io_events := [];
           io_effects := [ApplySentinelSTS hash (computeSentinelRollPartition name password spec (ii_roll i)).1.1 ok] |}.

Lemma infra_ends cr name password spec marker state i cm :
  infra_end cr name password spec marker state i cm
    (reconcileSentinelInfra recorder percr cr name password spec marker state i cm).
Proof.
  unfold reconcileSentinelInfra. destruct (negb _); [apply end_idle|]. destruct spec as [s|]; [|apply end_idle].
  case_bool_decide; [apply end_idle|]. destruct (ii_configmaps i) as [hash|] eqn:Eh; [|apply end_idle].
  destruct (ii_services i); [apply end_idle|].
  destruct (reconcileSentinelBootstrapCM _ _ _ _) as [[e|] cm'] eqn:Ec; [by eapply end_seed|].
  case_bool_decide as Hs; [by eapply end_seed|].
  destruct (IsFailoverInFlight _ _ _) eqn:Ef; [by eapply end_seed|].
  destruct (valkeyRollActive state) eqn:Ev; [by eapply end_seed|].
  destruct (computeSentinelRollPartition name password (Some s) (ii_roll i)) as [[p rq] pe] eqn:Ep.
  destruct (ii_applySTS i).
  - pose proof (end_apply cr name password (Some s) marker state i cm
      (Err ("sentinel statefulset: applying sentinel STS: " +:+ s0)) cm' hash false Ec Hs Eh Ef Ev) as He.
    by rewrite Ep in He.
  - pose proof (end_apply cr name password (Some s) marker state i cm (Ok rq) cm' hash true Ec Hs Eh Ef Ev) as He.
    by rewrite Ep in He.
Qed.

(** C13: The seed that starting pods replicate from is never invented.  Whatever a pass
    observes, if a failed read of the seed ConfigMap is not reported as NotFound: the pass
    leaves the stored seed as it is; or stores an address with a source (a pod labelled
    primary; a pod that is not being deleted and that a strict majority of the fresh
    records names; the marker of a dispatched failover, for an address that a pod of this
    CR not being deleted has, and an election not known to be over; pod 0, while the CR has
    no record, or no sentinel section, and no pod labelled primary has an address); or
    stores the empty seed, and then either there was none before or the pods of this CR
    were listed and none of them, apart from ones being deleted, has the old address. *)
Theorem seed_write_safe cr name password spec marker state i cm :
  (∀ e, cm_read (ii_cm i) = Some e → has_kind NotFound e = false) →
  let cm' := io_seed (reconcileSentinelInfra recorder percr cr name password spec marker state i cm) in
  cm' = cm ∨
  (∃ ip, cm' = Some ip ∧ ip ≠ "" ∧ seed_source name spec marker (ii_seed i) ip) ∨
  (cm' = Some "" ∧
   ∀ prev, cm = Some prev → prev = "" ∨ ∃ pods, cm_list (ii_cm i) = Ok pods ∧ ¬ live_ip pods prev).
Proof.
  intros Hr. cbv zeta.
  assert (Hcm : ∀ e c, reconcileSentinelBootstrapCM name (seedMasterIPForCR name spec marker (ii_seed i)) (ii_cm i) cm = (e, c) →
    c = cm ∨ (∃ ip, c = Some ip ∧ ip ≠ "" ∧ seed_source name spec marker (ii_seed i) ip) ∨
    (c = Some "" ∧ ∀ prev, cm = Some prev → prev = "" ∨ ∃ pods, cm_list (ii_cm i) = Ok pods ∧ ¬ live_ip pods prev)).
  { intros e c H. apply bootstrap_cm_spec in H as [->|[-> H]]; [by left| |done]. right.
    destruct (decide (seedMasterIPForCR name spec marker (ii_seed i) = "")) as [E|E].
    - right. rewrite E. split; [done|]. by apply H.
    - left. eexists. split; [done|]. split; [done|]. by apply seed_justified. }
  destruct (infra_ends cr name password spec marker state i cm); cbn [io_seed]; [by left|by eapply Hcm..].
Qed.
End phase.

(** ** The roll as a run of passes and replacements

    The StatefulSet controller replaces the highest pod that still has the old
    revision, if the partition lets it.  Operator passes see pods of the new revision
    among those that were replaced: a list may be old, and a pod may be absent while
    it is created again. *)
Lemma CutPrefix_app s t : CutPrefix (s +:+ t) s = Some t.
Proof. induction s as [|a s IH]; [by destruct t|]. change (String a s +:+ t) with (String a (s +:+ t)).
  cbn. by rewrite bool_decide_eq_true_2. Qed.

Section roll.
Context (name password : string) (s : SentinelSpec).
Abbreviation n := (sen_Replicas s).
Definition pod_of (k : Z) : string := name +:+ suffixSentinel +:+ "-" +:+ Itoa k.
Context (Hn : 0 < n <= 2 ^ 31 - 1).

Lemma pod_of_ordinal k : 0 <= k < n → sentinelPodOrdinal (pod_of k) (name +:+ suffixSentinel) = Some k.
Proof using Hn.
  intros Hk. unfold sentinelPodOrdinal, pod_of.
  replace (name +:+ suffixSentinel +:+ "-" +:+ Itoa k) with (((name +:+ suffixSentinel) +:+ "-") +:+ Itoa k)
    by (by rewrite !str_app_assoc).
  rewrite CutPrefix_app, Atoi_Itoa by (unfold in_int64, min_int64, max_int64; apply andb_true_intro; split; apply Z.leb_le; lia).
  destruct (_ || _) eqn:E; [|done]. bool_to_prop. lia.
Qed.

Lemma pod_of_inj j k : pod_of j = pod_of k → 0 <= j < n → 0 <= k < n → j = k.
Proof using Hn. intros E Hj Hk. pose proof (pod_of_ordinal j Hj) as H. rewrite E, pod_of_ordinal in H by done. by injection H. Qed.

(** What a pass sees when the pods from [l] on have been replaced. *)
Definition observes (l : Z) (i : roll_in) : Prop :=
  ∃ sts, ri_get i = inl sts ∧ UpdateRevision sts ≠ "" ∧ UpdateRevision sts ≠ CurrentRevision sts ∧
    ∀ pods, ri_pods i = Ok pods → NoDup (pod_Name <$> pods) ∧
      ∀ p, p ∈ pods → label p stsRevisionLabel = UpdateRevision sts → ∃ k, l <= k < n ∧ pod_Name p = pod_of k.

(** Pod [k] answered the pass and knows enough of the other sentinels. *)
Definition rejoined (i : roll_in) (k : Z) : Prop :=
  ∃ pods ep c, ri_pods i = Ok pods ∧ ep ∈ sentinelEndpointsFromPodList pods ∧ Name ep = pod_of k ∧
    masterPeerCountOne password (ri_dial i ep) = Ok c ∧ sen_Quorum s - 1 <= c.

Lemma rejoined_spec dial pods k th :
  sentinelPodRejoined name password dial pods k th = true →
  ∃ ep c, ep ∈ sentinelEndpointsFromPodList pods ∧ Name ep = pod_of k ∧
    masterPeerCountOne password (dial ep) = Ok c ∧ th <= c.
Proof.
  unfold sentinelPodRejoined. fold (pod_of k).
  destruct (List.find _ (sentinelEndpointsFromPodList pods)) as [ep|] eqn:Ef; [|done].
  apply List.find_some in Ef as [Hin Hname]. apply list_elem_of_In in Hin. bool_to_prop.
  unfold MasterPeerCountAll. cbn. rewrite Hname, bool_decide_eq_true_2 by done. cbn.
  destruct (masterPeerCountOne password (dial ep)) as [c|] eqn:Ec; [|done]. intros H. bool_to_prop.
  exists ep, c. done.
Qed.

Lemma rolled_fold updateRev l pods a :
  (∀ p, p ∈ pods → label p stsRevisionLabel = updateRev → ∃ k, l <= k < n ∧ pod_Name p = pod_of k) →
  0 <= l → l <= a.2 →
  let r := foldl (rolled_step (name +:+ suffixSentinel) updateRev) a pods in
  let rolled := List.filter (λ p, bool_decide (label p stsRevisionLabel = updateRev)) pods in
  r.1 = a.1 + len rolled ∧ l <= r.2 <= a.2 ∧ (rolled ≠ [] → r.2 < n).
Proof using Hn.
  intros Hp Hl. revert a. induction pods as [|p pods IH]; intros [num low] Hlow; cbn [snd] in Hlow;
    [unfold len; cbn; split_and!; [lia|lia|lia|done]|].
  cbn [foldl List.filter]. set (st := rolled_step _ _) in *.
  assert (Hp' : ∀ q, q ∈ pods → label q stsRevisionLabel = updateRev → ∃ k, l <= k < n ∧ pod_Name q = pod_of k)
    by (intros q Hq; apply Hp; by right).
  replace (st (num, low) p) with (if bool_decide (label p stsRevisionLabel = updateRev) then (num + 1, match sentinelPodOrdinal (pod_Name p) (name +:+ suffixSentinel) with Some ord => if ord <? low then ord else low | None => low end) else (num, low)) by (unfold st, rolled_step; by case_bool_decide).
  case_bool_decide as Hr.
  - destruct (Hp p ltac:(by left) Hr) as (k & Hk & ->). rewrite pod_of_ordinal by lia.
    set (low' := if k <? low then k else low). assert (l <= low' <= low ∧ low' <= k) as [Hlow' Hk'].
    { unfold low'. cbn [snd] in Hlow. destruct (Z.ltb_spec k low); lia. }
    destruct (IH Hp' (num + 1, low')) as (R1 & R2 & R3); [cbn [snd]; lia|]. cbn [fst snd] in *.
    unfold len in *. cbn [length]. split_and!; [lia|lia|lia|]. intros _. lia.
  - destruct (IH Hp' (num, low)) as (R1 & R2 & R3); [done|]. cbn [fst snd] in *. done.
Qed.

Lemma rolled_count updateRev l pods :
  NoDup (pod_Name <$> pods) → 0 <= l <= n →
  (∀ p, p ∈ pods → label p stsRevisionLabel = updateRev → ∃ k, l <= k < n ∧ pod_Name p = pod_of k) →
  len (List.filter (λ p, bool_decide (label p stsRevisionLabel = updateRev)) pods) <= n - l.
Proof.
  intros Hnd Hl Hp. set (rolled := List.filter _ pods).
  assert (Hsub : rolled `sublist_of` pods).
  { unfold rolled. clear. induction pods as [|p pods IH]; [constructor|]. cbn. case_bool_decide; by constructor. }
  assert (NoDup (pod_Name <$> rolled)) as Hnd' by (eapply sublist_NoDup; [done|by apply fmap_sublist]).
  assert (length (pod_Name <$> rolled) ≤ length (pod_of <$> seqZ l (n - l)))%nat as H.
  { apply submseteq_length, NoDup_submseteq; [done|]. intros x (p & -> & Hin)%list_elem_of_fmap.
    apply list_elem_of_In, List.filter_In in Hin as [Hin Hr]. apply list_elem_of_In in Hin. bool_to_prop.
    destruct (Hp p Hin Hr) as (k & Hk & ->). apply list_elem_of_fmap_2, elem_of_seqZ. lia. }
  rewrite !length_fmap, length_seqZ in H. unfold len. lia.
Qed.

Context (Hq : 1 < sen_Quorum s).

(** The partition of a pass never reaches past the pod below the replaced ones, and
    reaches that one only when the last replaced pod has rejoined. *)
Lemma partition_spec l i :
  0 <= l <= n → observes l i →
  let p := (computeSentinelRollPartition name password (Some s) i).1.1 in
  l - 1 <= p ∧ (0 < l < n → p < l → rejoined i l).
Proof using Hn Hq.
  intros Hl (sts & Hg & Hu & Hc & Hpods). unfold computeSentinelRollPartition. rewrite Hg.
  rewrite !bool_decide_eq_false_2 by done. cbn [orb].
  assert (sentinelReplicas (Some s) = n) as -> by (unfold sentinelReplicas; destruct (Z.ltb_spec 0 n); lia).
  destruct (ri_pods i) as [pods|] eqn:Ep; [|cbn; split; lia].
  destruct (Hpods pods eq_refl) as [Hnd Hp].
  pose proof (rolled_fold (UpdateRevision sts) l pods (0, n) Hp ltac:(lia) ltac:(cbn; lia)) as Hfold.
  pose proof (rolled_count (UpdateRevision sts) l pods Hnd Hl Hp) as Hcount.
  cbv zeta in Hfold. set (rolled := List.filter _ pods) in *. cbn [fst snd] in Hfold.
  destruct (foldl _ _ pods) as [num low]. cbn [fst snd] in Hfold. destruct Hfold as (-> & Hlow & Hlt).
  rewrite Z.add_0_l. destruct (Z.leb_spec n (len rolled)); [cbn; split; lia|].
  destruct (Z.eqb_spec (len rolled) 0) as [Hz|Hnz]; [cbn; split; lia|].
  assert (low < n) by (apply Hlt; intros ->; done).
  assert (sentinelRejoinThreshold (Some s) = sen_Quorum s - 1) as -> by done.
  rewrite (proj2 (Z.leb_gt _ _)) by lia. cbn [orb].
  destruct (sentinelPodRejoined _ _ _ _ _ _) eqn:Er; [|cbn; split; lia].
  apply rejoined_spec in Er as (ep & c & ? & ? & ? & ?).
  assert (Hlow' : low = l → rejoined i l) by (intros <-; exists pods, ep, c; done).
  destruct (Z.leb_spec (low - 1) 0); cbn; (split; [lia|]); intros ??; apply Hlow'; lia.
Qed.

Inductive roll_event : Type := Pass (i : roll_in) | Replace (k : Z).
Record roll_state := { r_partition : Z; r_lowest : Z }.

(** A pass that does not see the roll: the read failed, or the status shows no update. *)
Definition blind (i : roll_in) : bool :=
  match ri_get i with
  | inl sts => bool_decide (UpdateRevision sts = "") || bool_decide (UpdateRevision sts = CurrentRevision sts)
  | inr _ => true
  end.

(** From the moment the template has the new revision, with [p0] the partition it was
    written with.  The passes are those whose partition was written. *)
Inductive roll_run (p0 : Z) : list roll_event → roll_state → Prop :=
  | run_start : roll_run p0 [] {| r_partition := p0; r_lowest := n |}
  | run_pass tr st i : roll_run p0 tr st → blind i = true ∨ observes (r_lowest st) i →
      roll_run p0 (tr ++ [Pass i])
        {| r_partition := (computeSentinelRollPartition name password (Some s) i).1.1; r_lowest := r_lowest st |}
  | run_replace tr st k : roll_run p0 tr st → r_lowest st = k + 1 → 0 <= k → r_partition st <= k →
      roll_run p0 (tr ++ [Replace k]) {| r_partition := r_partition st; r_lowest := k |}.

(** Nobody guards the roll: the last pass was blind, or there was none yet and the
    template was written without the hold. *)
Definition last_pass (tr : list roll_event) : option roll_in :=
  last (omap (λ e, match e with Pass i => Some i | Replace _ => None end) tr).
Definition ungated (p0 : Z) (tr : list roll_event) : bool :=
  match last_pass tr with Some i => blind i | None => p0 <? n - 1 end.

Lemma last_pass_snoc tr e : last_pass (tr ++ [e]) = match e with Pass i => Some i | Replace _ => last_pass tr end.
Proof.
  unfold last_pass. rewrite omap_app. destruct e; cbn; [by rewrite last_snoc|by rewrite app_nil_r].
Qed.

Lemma observes_not_blind l i : observes l i → blind i = false.
Proof. intros (sts & Hg & Hu & Hc & _). unfold blind. rewrite Hg, !bool_decide_eq_false_2; done. Qed.

Definition roll_inv (p0 : Z) (tr : list roll_event) (st : roll_state) : Prop :=
  0 <= r_lowest st <= n ∧ (ungated p0 tr = true ∨ r_lowest st - 1 <= r_partition st) ∧
  (r_lowest st < n → ∃ tr1 tr2, tr = tr1 ++ Replace (r_lowest st) :: tr2 ∧
     (0 < r_lowest st → r_partition st < r_lowest st →
      ungated p0 tr = true ∨ ∃ i, Pass i ∈ tr2 ∧ rejoined i (r_lowest st))).

Lemma roll_run_inv p0 tr st : roll_run p0 tr st → roll_inv p0 tr st.
Proof using Hn Hq.
  induction 1 as [|tr st i Hr (Hl & Hp & Htr) Ho|tr st k Hr (Hl & Hp & Htr) Hk H0 Hle];
    unfold roll_inv; cbn [r_partition r_lowest]; unfold ungated in *; rewrite ?last_pass_snoc.
  - split; [lia|]. split; [|lia]. cbn. destruct (Z.ltb_spec p0 (n - 1)); [by left|right; lia].
  - split; [done|].
    assert (Hgate : blind i = true ∨ let p := (computeSentinelRollPartition name password (Some s) i).1.1 in
      r_lowest st - 1 <= p ∧ (0 < r_lowest st < n → p < r_lowest st → rejoined i (r_lowest st)))
      by (destruct Ho as [Ho|Ho]; [by left|right; by apply partition_spec]).
    split; [destruct Hgate as [?|[? _]]; auto|].
    intros Hlt. destruct (Htr Hlt) as (tr1 & tr2 & -> & _). exists tr1, (tr2 ++ [Pass i]).
    rewrite <- app_assoc. split; [done|]. intros H1 H2. destruct Hgate as [?|[_ Hj]]; [by left|].
    right. exists i. split; [set_solver|]. by apply Hj.
  - split; [lia|]. destruct Hp as [Hp|Hp].
    + split; [by left|]. intros _. exists tr, []. split; [done|]. by left.
    + split; [right; lia|]. intros _. exists tr, []. split; [done|]. intros. lia.
Qed.

Lemma roll_run_partition p0 tr st :
  roll_run p0 tr st →
  r_partition st = match last_pass tr with
                   | Some i => (computeSentinelRollPartition name password (Some s) i).1.1 | None => p0 end.
Proof. induction 1; rewrite ?last_pass_snoc; done. Qed.

Lemma unlisted_holds i e :
  blind i = false → ri_pods i = Err e → (computeSentinelRollPartition name password (Some s) i).1.1 = n.
Proof using Hn.
  unfold blind, computeSentinelRollPartition. destruct (ri_get i) as [sts|]; [|done]. intros -> ->. cbn.
  unfold sentinelReplicas. destruct (Z.ltb_spec 0 n); lia.
Qed.

(** C12: The sentinels roll one at a time, each after the one before it has found its
    peers again, as long as the operator sees the roll.  For at least one and at most
    2^31 - 1 sentinels, a quorum above 1 and one new revision, in every run of
    replacements and of passes that write the partition, failed reads, stale lists and
    absent pods included: a pod below the top one is replaced only after its upper
    neighbour was, and then either some later pass found that neighbour answering and
    counting at least quorum - 1 other sentinels, or the roll is unguarded at that
    moment.  It is unguarded exactly when the last pass before the replacement could not
    read the StatefulSet or saw no update in its status, or there was no pass yet and the
    new template was written with a partition below the top pod.  After a pass
    that sees the roll but cannot list the pods nothing is replaced until the next pass. *)
Theorem sentinel_roll_gated p0 tr k st :
  roll_run p0 (tr ++ [Replace k]) st →
  (k < n - 1 → ∃ tr1 tr2, tr = tr1 ++ Replace (k + 1) :: tr2 ∧
     ((∃ i, Pass i ∈ tr2 ∧ rejoined i (k + 1)) ∨ ungated p0 tr = true)) ∧
  (∀ i e, last_pass tr = Some i → blind i = false → ri_pods i ≠ Err e).
Proof using Hn Hq.
  intros Hr. inversion Hr as [E|tr' st' i _ _ E|tr' st' k' Hr' Hl H0 Hp E].
  - by destruct tr.
  - by apply app_inj_tail in E as [_ [=]].
  - apply app_inj_tail in E as [-> [= ->]]. split.
    + intros Hk. apply roll_run_inv in Hr' as (_ & _ & Htr). rewrite Hl in Htr.
      destruct Htr as (tr1 & tr2 & -> & Hj); [lia|]. exists tr1, tr2. split; [done|]. destruct Hj; [lia..|by right|by left].
    + intros i e Hi Hb He. pose proof (roll_run_partition _ _ _ Hr') as Hpart. rewrite Hi in Hpart.
      rewrite (unlisted_holds i e Hb He) in Hpart. apply roll_run_inv in Hr' as (Hlow & _). lia.
Qed.
End roll.

(** ** Concrete passes: three sentinels, quorum 2, the top pod replaced *)
Definition roll_spec : SentinelSpec :=
  {| sen_MasterName := "mymaster"; sen_Replicas := 3; sen_Quorum := 2;
     sen_Tuning := {| DownAfterMilliseconds := 3000; FailoverTimeout := 180000; ParallelSyncs := 1 |} |}.
Definition roll_pods : list Pod :=
  [demo_pod "vk-sentinel-0" "10.1.0.1" "" "r1"; demo_pod "vk-sentinel-1" "10.1.0.2" "" "r1";
   demo_pod "vk-sentinel-2" "10.1.0.3" "" "r2"].
Definition peers_reply (c : string) : conn :=
  Ok [IOReply (RStr "OK"); IOReply (RArr [RStr "name"; RStr "mymaster"; RStr "num-other-sentinels"; RStr c])].
Definition demo_roll (get : DeriveState.StatefulSet + api_error) (peers : string) : roll_in :=
  {| ri_get := get; ri_pods := Ok roll_pods; ri_dial := λ _, peers_reply peers |}.
Definition rolling_sts : DeriveState.StatefulSet := {| UpdateRevision := "r2"; CurrentRevision := "r1" |}.
Definition settled_sts : DeriveState.StatefulSet := {| UpdateRevision := "r1"; CurrentRevision := "r1" |}.
Definition demo_infra (roll : roll_in) : infra_in :=
  {| ii_configmaps := Ok "hash-2"; ii_services := None;
     ii_seed := {| si_primaries := Ok [demo_pod "vk-0" "10.0.0.1" "primary" "r1"]; si_records := Ok []; si_now := 0;
                   si_get := λ _, Err "not found"; si_owned := Ok []; si_snap := None |};
     ii_cm := {| cm_read := None; cm_list := Ok []; cm_apply := None |};
     ii_snap := None; ii_nowLatch := Second; ii_roll := roll; ii_applySTS := None |}.
Definition demo_phase3 (roll : roll_in) : infra_out :=
  reconcileSentinelInfra (R:=range_forward) true percr_zero demo_spec "vk" "secret-pass" (Some roll_spec) None StateSteady
    (demo_infra roll) (Some "10.0.0.9").

Example roll_holds : io_effects (demo_phase3 (demo_roll (inl rolling_sts) "0")) = [ApplySentinelSTS "hash-2" 2 true].
Proof. vm_compute. reflexivity. Qed.
Example roll_advances : io_effects (demo_phase3 (demo_roll (inl rolling_sts) "2")) = [ApplySentinelSTS "hash-2" 1 true].
Proof. vm_compute. reflexivity. Qed.

(** A failed read of the StatefulSet lifts the hold.  Whatever the state of the roll, a
    pass that cannot read the StatefulSet applies it with partition 0 and asks for no
    requeue, so every remaining pod may be replaced at once; in the concrete pass a
    successful read holds the roll at the pod that has not rejoined. *)
Theorem partition_read_failure_releases :
  (∀ name password spec e pods dial, has_kind NotFound e = false →
     computeSentinelRollPartition name password spec {| ri_get := inr e; ri_pods := pods; ri_dial := dial |} =
     (0, 0, Some (e_text e))) ∧
  io_effects (demo_phase3 (demo_roll (inl rolling_sts) "0")) = [ApplySentinelSTS "hash-2" 2 true] ∧
  let failed := demo_phase3 (demo_roll (inr {| e_kind := OtherErr; e_text := "etcdserver: request timed out" |}) "0") in
  io_effects failed = [ApplySentinelSTS "hash-2" 0 true] ∧ io_result failed = Ok 0.
Proof.
  split; [|split; [vm_compute; reflexivity|intros failed; split; vm_compute; reflexivity]].
  intros name password spec e pods dial H. unfold computeSentinelRollPartition. cbn. by rewrite H.
Qed.

(** A changed template goes out with partition 0: the status still shows the old
    revision as settled, whatever the hash of the template is. *)
Lemma template_change_unpartitioned name password spec sts pods dial :
  UpdateRevision sts = CurrentRevision sts →
  computeSentinelRollPartition name password spec {| ri_get := inl sts; ri_pods := pods; ri_dial := dial |} = (0, 0, None).
Proof. intros H. unfold computeSentinelRollPartition. cbn. rewrite H.
  destruct (bool_decide (CurrentRevision sts = "")); [done|]. by rewrite bool_decide_eq_true_2. Qed.

(** ** The theorems at concrete inputs *)
Lemma seed_write_safe_witness :
  io_seed (demo_phase3 (demo_roll (inl settled_sts) "2")) = Some "10.0.0.1" ∧
  ∃ ip, ip ≠ "" ∧ seed_source "vk" (Some roll_spec) None (ii_seed (demo_infra (demo_roll (inl settled_sts) "2"))) ip.
Proof.
  split; [vm_compute; reflexivity|].
  destruct (seed_write_safe (R:=range_forward) true percr_zero demo_spec "vk" "secret-pass" (Some roll_spec) None StateSteady
    (demo_infra (demo_roll (inl settled_sts) "2")) (Some "10.0.0.9")) as [H|[H|[H _]]].
  - intros e [=].
  - exfalso. vm_compute in H. discriminate H.
  - destruct H as (ip & _ & Hne & Hs). exists ip. split; [exact Hne|exact Hs].
  - exfalso. vm_compute in H. discriminate H.
Defined.

Lemma sentinel_roll_gated_witness :
  let i := demo_roll (inl rolling_sts) "2" in
  ∃ tr1 tr2, [Replace 2; Pass i] = tr1 ++ Replace 2 :: tr2 ∧
    ∃ j, Pass j ∈ tr2 ∧ rejoined "vk" "secret-pass" roll_spec j 2.
Proof.
  intros i.
  assert (Hn : 0 < sen_Replicas roll_spec <= 2 ^ 31 - 1) by (cbn; lia).
  assert (Hq : 1 < sen_Quorum roll_spec) by (cbn; lia).
  destruct (sentinel_roll_gated "vk" "secret-pass" roll_spec Hn Hq 2 [Replace 2; Pass i] 1
    {| r_partition := 1; r_lowest := 1 |}) as [(tr1 & tr2 & Htr & [Hj|Hu]) _].
  - pose proof (run_start "vk" "secret-pass" roll_spec 2) as R0.
    pose proof (run_replace "vk" "secret-pass" roll_spec 2 _ _ 2 R0 eq_refl ltac:(lia) ltac:(cbn; lia)) as R1.
    assert (Ho : observes "vk" roll_spec 2 i).
    { exists rolling_sts. split; [reflexivity|]. split; [done|]. split; [done|]. intros pods [= <-].
      split; [apply (bool_decide_unpack _); vm_compute; exact I|].
      intros p Hp Hl. exists 2. split; [cbn; lia|]. unfold roll_pods in Hp.
      apply elem_of_cons in Hp as [->|Hp]; [vm_compute in Hl; discriminate Hl|].
      apply elem_of_cons in Hp as [->|Hp]; [vm_compute in Hl; discriminate Hl|].
      apply elem_of_cons in Hp as [->|Hp]; [vm_compute; reflexivity|].
      by apply not_elem_of_nil in Hp. }
    pose proof (run_pass "vk" "secret-pass" roll_spec 2 _ _ i R1 (or_intror Ho)) as R2.
    exact (run_replace "vk" "secret-pass" roll_spec 2 _ _ 1 R2 eq_refl ltac:(lia) ltac:(vm_compute; discriminate)).
  - cbn; lia.
  - exists tr1, tr2. split; [exact Htr|exact Hj].
  - exfalso. vm_compute in Hu. discriminate Hu.
Defined.
