(* ===== verification/Reconcile.v ===== *)
(** * The reconcile pass: [Reconcile] and [applyDesiredState] of
    [internal/controller/valkey_controller.go], [detectPVCLossAndGate] of
    [internal/controller/valkey_controller_pvcloss.go]

    One pass over one CR: the pause, the finalizer, deletion under the retention
    policy, the auth Secret, the gate on lost volumes, the ordered phases, and the
    deferred steps.  The store holds the CR's metadata, its volume claims and whether
    its StatefulSet exists; the phases and the password rotation, modelled in their
    own files, enter with their outcomes.  API outcomes and clock readings are inputs, what the pass
    does is a trace in order. *)
From S2P Require Import Prelude GoStd GoFmt Fsm Observer SQAggregate Status PvcResize DeriveState LagChecker PrimaryRollout RoleLabels Redaction QuorumGate SentinelInfra.
Local Open Scope Z_scope.

(** ** Names and durations *)
Definition PauseAnnotation : string := "velkir.ioxie.dev/paused".
Definition AcceptPVCLossAnnotation : string := "velkir.ioxie.dev/accept-pvc-loss".
Definition AcceptPVCLossRequestorAnnotation : string := AcceptPVCLossAnnotation +:+ "-requestor".
Definition ForceRotateAnnotation : string := "velkir.ioxie.dev/force-rotate".
Definition singleShotAnnotations : list string := [AcceptPVCLossAnnotation; ForceRotateAnnotation].
Definition PVCRetentionFinalizer : string := "velkir.ioxie.dev/pvc-retention".
Definition PVCRetentionRetain : string := "Retain".
Definition PVCRetentionDelete : string := "Delete".
Definition defaultAuthSecretKey : string := "password".

Definition pausedRequeueAfter : Duration := 5 * Minute.
Definition authSecretMissingRequeue : Duration := 30 * Second.
Definition pvcLossGateRequeue : Duration := 30 * Second.
Definition baselineReconcileWatchdog : Duration := 5 * Minute.
Definition lockContendedRequeue : Duration := minRequeueFloor.
Definition readyConvergeRequeue : Duration := 5 * Second.
Definition sqKeepAliveInterval : Duration := sentinelQuorumFreshnessWindow / 2.

(** ** The store *)
Record OwnerReference := { or_UID : string; or_Kind : string; or_Name : string; or_Controller : bool }.
Record claim := { cl_Name : string; cl_Owners : list OwnerReference; cl_Deleting : bool }.

Record AuthSpec := {
  a_SecretName : string; a_SecretKey : string; a_SentinelSecretName : string; a_SentinelSecretKey : string }.

Record cr_object := {
  c_Name : string;
  c_UID : string;
  c_Generation : Z;
  c_Annotations : gmap string string;
  c_Finalizers : list string;
  c_Deleting : bool;
  c_Mode : Mode;
  c_Policy : string;
  c_Auth : option AuthSpec;
  c_Phase : string
}.

Record store := {
  st_cr : option cr_object;
  st_claims : list claim;            (* those with the CR's label *)
  st_sts : bool                      (* the StatefulSet exists *)
}.

Definition with_finalizers (l : list string) (v : cr_object) : cr_object :=
  {| c_Name := c_Name v; c_UID := c_UID v; c_Generation := c_Generation v; c_Annotations := c_Annotations v;
     c_Finalizers := l; c_Deleting := c_Deleting v; c_Mode := c_Mode v; c_Policy := c_Policy v;
     c_Auth := c_Auth v; c_Phase := c_Phase v |}.
Definition with_annotations (m : gmap string string) (v : cr_object) : cr_object :=
  {| c_Name := c_Name v; c_UID := c_UID v; c_Generation := c_Generation v; c_Annotations := m;
     c_Finalizers := c_Finalizers v; c_Deleting := c_Deleting v; c_Mode := c_Mode v; c_Policy := c_Policy v;
     c_Auth := c_Auth v; c_Phase := c_Phase v |}.

(** ** What a pass does, in order *)
Inductive phase : Type :=
  | Phase1 | Phase4 | Phase2SA | Phase2 | Phase3 | Phase5 | Phase6 | Phase6a | Phase7 | Phase7a | Phase8 | Phase9 | Phase11.

Inductive rstep : Type :=
  | PatchOwners (claim_name : string) (owners : list OwnerReference)
  | PatchFinalizers (l : list string)
  | PatchAnnotations (m : gmap string string)
  | RunPhase (p : phase)
  | Audit (name requestor : string)
  | Lock
  | Unlock
  | ForgetCR
  | ReleaseSecrets
  | WriteStatus (statusErr : option string)
  | CountFailure (reason : string).

(** The writes among them change the store.  A CR that is being deleted goes with
    its last finalizer. *)
Definition set_owners (name : string) (owners : list OwnerReference) (c : claim) : claim :=
  if bool_decide (cl_Name c = name)
  then {| cl_Name := cl_Name c; cl_Owners := owners; cl_Deleting := cl_Deleting c |} else c.
Definition apply_step (s : store) (e : rstep) : store :=
  match e with
  | PatchOwners name owners =>
      {| st_cr := st_cr s; st_claims := set_owners name owners <$> st_claims s; st_sts := st_sts s |}
  | PatchFinalizers l =>
      {| st_cr := match st_cr s with
                  | Some v => if c_Deleting v && bool_decide (l = []) then None else Some (with_finalizers l v)
                  | None => None
                  end;
         st_claims := st_claims s; st_sts := st_sts s |}
  | PatchAnnotations m => {| st_cr := with_annotations m <$> st_cr s; st_claims := st_claims s; st_sts := st_sts s |}
  | _ => s
  end.
Definition replay (s : store) (tr : list rstep) : store := foldl apply_step s tr.

(** ** Pause *)
Definition handlePause (v : cr_object) (paused : bool) : option (Duration * list rstep) :=
  if paused then
    Some (mergeRequeue pausedRequeueAfter baselineReconcileWatchdog,
          if bool_decide (c_Phase v = "Paused") then [] else [Audit "reconciliation_paused" ""])
  else None.

(** ** The finalizer *)
Definition ContainsFinalizer (v : cr_object) (f : string) : bool := bool_decide (f ∈ c_Finalizers v).
Definition AddFinalizer (v : cr_object) (f : string) : cr_object :=
  if ContainsFinalizer v f then v else with_finalizers (c_Finalizers v ++ [f]) v.
Definition RemoveFinalizer (v : cr_object) (f : string) : cr_object :=
  with_finalizers (List.filter (λ g, negb (bool_decide (g = f))) (c_Finalizers v)) v.

(** The CR as held afterwards, the writes, or the error. *)
Definition ensurePVCRetentionFinalizer (v : cr_object) (deleting : bool) (patch : option string) :
    result (cr_object * list rstep) :=
  if deleting || ContainsFinalizer v PVCRetentionFinalizer then Ok (v, [])
  else
    let patched := AddFinalizer v PVCRetentionFinalizer in
    match patch with
    | Some e => Err ("adding pvc-retention finalizer: " +:+ e)
    | None => Ok (patched, [PatchFinalizers (c_Finalizers patched)])
    end.

(** ** Deletion *)
Definition hasCROwnerRef (c : claim) (v : cr_object) : bool :=
  existsb (λ o, bool_decide (or_UID o = c_UID v)) (cl_Owners c).
Definition stripCROwnerRef (refs : list OwnerReference) (v : cr_object) : list OwnerReference :=
  List.filter (λ o, negb (bool_decide (or_UID o = c_UID v))) refs.
Definition NewControllerRef (v : cr_object) : OwnerReference :=
  {| or_UID := c_UID v; or_Kind := "Valkey"; or_Name := c_Name v; or_Controller := true |}.
Definition retention_policy (v : cr_object) : string :=
  if bool_decide (c_Policy v = "") then PVCRetentionRetain else c_Policy v.

Record delete_in := {
  di_list : option string;                  (* the list of claims fails *)
  di_patch : string → option string;        (* by claim *)
  di_finalizer : option string
}.

(** [errors.Join]. *)
Definition join_errors (errs : list string) : string := Join errs (String (ascii_of_nat 10) "").

(** One turn of the loop: the writes and the errors so far. *)
Definition owner_step (v : cr_object) (i : delete_in) (a : list rstep * list string) (c : claim) :
    list rstep * list string :=
  let '(tr, errs) := a in
  let patch verb owners :=
    match di_patch i (cl_Name c) with
    | Some e => (tr, errs ++ [verb +:+ " PVC " +:+ Quote (cl_Name c) +:+ " owner-ref: " +:+ e])
    | None => (tr ++ [PatchOwners (cl_Name c) owners], errs)
    end in
  if bool_decide (retention_policy v = PVCRetentionDelete) then
    if negb (hasCROwnerRef c v) then patch "patching" (cl_Owners c ++ [NewControllerRef v]) else a
  else
    if hasCROwnerRef c v then patch "stripping" (stripCROwnerRef (cl_Owners c) v) else a.

Definition reconcileDeletion (v : cr_object) (claims : list claim) (i : delete_in) : list rstep * option string :=
  match di_list i with
  | Some e => ([], Some ("listing PVCs on delete: " +:+ e))
  | None =>
      let '(tr, errs) := foldl (owner_step v i) ([], []) claims in
      if negb (bool_decide (errs = [])) then (tr, Some (join_errors errs))
      else if ContainsFinalizer v PVCRetentionFinalizer then
        match di_finalizer i with
        | Some e => (tr, Some ("removing pvc-retention finalizer: " +:+ e))
        | None => (tr ++ [PatchFinalizers (c_Finalizers (RemoveFinalizer v PVCRetentionFinalizer))], None)
        end
      else (tr, None)
  end.

(** ** The auth Secret *)
Definition backoffForMissingAuthSecret (elapsed : Duration) : Duration :=
  if elapsed <? 5 * Minute then authSecretMissingRequeue
  else if elapsed <? 30 * Minute then Minute
  else 5 * Minute.
Definition observeMissingAuthFirstSeen (now seen : Time) : Time := if IsZero seen then now else seen.
Definition observeMissingAuthSecret (now seen : Time) : Duration * Time :=
  let first := observeMissingAuthFirstSeen now seen in
  (backoffForMissingAuthSecret (Sub now first), first).

Definition Secret : Type := gmap string string.

(** The tokens it registers; its cleanup forgets them in the same order. *)
Definition redaction_tokens (auth : option AuthSpec) (sentinel : result Secret) (password : string) : list string :=
  password ::
  match auth with
  | Some a =>
      if bool_decide (a_SentinelSecretName a = "") then []
      else match sentinel with
      | Err _ => []
      | Ok data =>
          let key := if bool_decide (a_SentinelSecretKey a = "") then defaultAuthSecretKey else a_SentinelSecretKey a in
          let pw := default "" (data !! key) in
          if bool_decide (pw ≠ "") && bool_decide (pw ≠ password) then [pw] else []
      end
  | None => []
  end.
Definition registerAuthRedaction (tokens : list string) (r : Registry) : Registry :=
  foldl (λ r t, (RegisterScoped t r).1) r tokens.
Definition cleanup_redaction (tokens : list string) (r : Registry) : Registry :=
  foldl (λ r t, (RegisterScoped t r).2 r) r tokens.

Record auth_in := {
  ai_secret : Secret + api_error;
  ai_sentinel : result Secret;
  ai_now : Time
}.

(** What the pass goes on with, or ends with: the requeue, the status error, the error. *)
Inductive auth_outcome : Type :=
  | AuthResolved (password : string) (tokens : list string)
  | AuthHandled (requeue : Duration) (statusErr : string) (err : option string).

Definition resolveAuth (v : cr_object) (i : auth_in) (seen : Time) : auth_outcome * Time :=
  match c_Auth v with
  | Some a =>
      if bool_decide (a_SecretName a = "") then (AuthResolved "" [], seen)
      else match ai_secret i with
      | inr e =>
          if has_kind NotFound e then
            let '(requeue, seen) := observeMissingAuthSecret (ai_now i) seen in
            (AuthHandled requeue ("auth secret " +:+ Quote (a_SecretName a) +:+ " not found") None, seen)
          else
            let wrapped := "getting auth secret: " +:+ e_text e in
            (AuthHandled 0 wrapped (Some wrapped), seen)
      | inl data =>
          let password := default "" (data !! "password") in
          (AuthResolved password (redaction_tokens (c_Auth v) (ai_sentinel i) password), zero_time)
      end
  | None => (AuthResolved "" [], seen)
  end.

(** The key under which the pods read their password ([buildSentinelInitContainer]). *)
Definition pod_secret_key (a : AuthSpec) : string :=
  if bool_decide (a_SecretKey a = "") then defaultAuthSecretKey else a_SecretKey a.

(** ** The gate on lost volumes *)
Record gate_read := {
  gr_sts : option api_error;        (* a failed read; absence is in the store *)
  gr_list : option string
}.

Definition detectPVCLossAndGate (v : cr_object) (hadFinalizer : bool) (i : gate_read) (s : store) :
    bool * option string * list rstep :=
  if negb hadFinalizer then (true, None, [])
  else if negb (bool_decide (retention_policy v = PVCRetentionRetain)) then (true, None, [])
  else match match gr_sts i with Some e => Some e | None => if st_sts s then None else Some not_found end with
  | None => (true, None, [])
  | Some e =>
      if negb (has_kind NotFound e) then (false, Some ("phase 0 pvc-loss gate: get STS: " +:+ e_text e), [])
      else match gr_list i with
      | Some e => (false, Some ("phase 0 pvc-loss gate: list PVCs: " +:+ e), [])
      | None =>
          if existsb (λ c, negb (cl_Deleting c)) (st_claims s) then (true, None, [])
          else if bool_decide (c_Annotations v !! AcceptPVCLossAnnotation = Some "true") then
            (true, None, [Audit "pvc_loss_accepted" (default "" (c_Annotations v !! AcceptPVCLossRequestorAnnotation))])
          else (false, Some ("StatefulSet " +:+ Quote (c_Name v) +:+ " and all matching PVCs are absent; set annotation " +:+
                             AcceptPVCLossAnnotation +:+ "=true to authorize re-creating fresh PVCs (data-loss event)"), [])
      end
  end.

(** ** The single-shot annotations *)
Definition clearSingleShotAnnotations (v : cr_object) (patch : option string) : result (list rstep) :=
  let m := foldl (λ m k, delete k m) (c_Annotations v) singleShotAnnotations in
  if negb (existsb (λ k, bool_decide (is_Some (c_Annotations v !! k))) singleShotAnnotations) then Ok []
  else match patch with
  | Some e => Err e
  | None => Ok [PatchAnnotations m]
  end.

(** ** The requeue hints of the deferred status write *)
Definition sentinelKeepAliveRequeue (isSentinel : bool) : Duration := if isSentinel then sqKeepAliveInterval else 0.

Definition statusRequeueHint (mode : Mode) (sts : option Status.StatefulSet) (paused reachedSteadyState : bool) : Duration :=
  let hint :=
    match sts with
    | Some o =>
        match sts_Replicas o with
        | Some desired =>
            if negb paused && (0 <? desired) && (ReadyReplicas o <? desired) then mergeRequeue 0 readyConvergeRequeue else 0
        | None => 0
        end
    | None => 0
    end in
  if reachedSteadyState then mergeRequeue hint (sentinelKeepAliveRequeue (bool_decide (mode = ModeSentinel))) else hint.

Definition suppressionPaceHint (current : Duration) (suppressed reachedSteadyState : bool) : Duration :=
  if negb reachedSteadyState then current
  else if negb suppressed then current
  else mergeRequeue current quorumSuppressedRequeue.

(** The verdict and the requeue until the deadline. *)
Definition evaluateRolloutWatchdog (substate : option Watchdog.MasterAwareRolloutStatus) (paused : bool) (now nowUntil : Time) :
    Watchdog.Result * Duration :=
  if paused then (Watchdog.result_zero, 0)
  else
    let wd := Watchdog.Check now substate in
    if negb (Watchdog.Active wd) then (wd, 0)
    else if Watchdog.Expired wd then (wd, 0)
    else
      let until := Sub (Watchdog.Deadline wd) nowUntil in
      if 0 <? until then (wd, until) else (wd, 0).

Definition classifyReconcileError (msg : string) : string :=
  if HasPrefix msg "phase 1:" then "ConfigMapPhaseError"
  else if HasPrefix msg "phase 2:" then "STSPhaseError"
  else if HasPrefix msg "phase 3:" then "SentinelInfraPhaseError"
  else if HasPrefix msg "phase 4:" then "PVCResizePhaseError"
  else if HasPrefix msg "phase 5:" then "ServicePhaseError"
  else if HasPrefix msg "phase 6:" then "PDBPhaseError"
  else if HasPrefix msg "phase 7:" then "RoleLabelPhaseError"
  else if HasPrefix msg "phase 8:" then "ReadinessGatePhaseError"
  else if HasPrefix msg "phase 9:" then "PodRolloutPhaseError"
  else if Contains msg "auth secret" then "AuthSecretError"
  else if Contains msg "finalizer" then "FinalizerError"
  else if Contains msg "PVC resize aborted" then "PVCResizeAborted"
  else "ReconcileError".

(** ** The ordered phases *)
Record phase_io := {
  p_configmaps : result string;
  p_pvcResize : result Duration;
  p_serviceAccounts : option string;
  p_statefulSet : option string;
  p_sentinelInfra : result Duration;
  p_services : option string;
  p_pdb : option string;
  p_podMonitor : option string;
  p_roleLabels : option string;
  p_readinessGates : result Duration;
  p_podRollout : result Duration
}.

(** A phase runs, and the sequence goes on unless it failed. *)
Definition ran (tr : list rstep) (p : phase) (prefix : string) (outcome : option string)
    (k : list rstep → result Duration * list rstep) : result Duration * list rstep :=
  let tr := tr ++ [RunPhase p] in
  match outcome with Some e => (Err (prefix +:+ e), tr) | None => k tr end.
Definition err_text {A} (r : result A) : option string := match r with Err e => Some e | Ok _ => None end.
Definition hint_of (r : result Duration) : Duration := match r with Ok d => d | Err _ => 0 end.

Definition applyDesiredState (i : phase_io) : result Duration * list rstep :=
  ran [] Phase1 "phase 1: " (err_text (p_configmaps i)) (λ tr,
  ran tr Phase4 "phase 4: " (err_text (p_pvcResize i)) (λ tr,
  let requeue := mergeRequeue 0 (hint_of (p_pvcResize i)) in
  ran tr Phase2SA "phase 2: service accounts: " (p_serviceAccounts i) (λ tr,
  ran tr Phase2 "phase 2: " (p_statefulSet i) (λ tr,
  ran tr Phase3 "phase 3: " (err_text (p_sentinelInfra i)) (λ tr,
  let requeue := mergeRequeue requeue (hint_of (p_sentinelInfra i)) in
  ran tr Phase5 "phase 5: " (p_services i) (λ tr,
  ran tr Phase6 "phase 6: " (p_pdb i) (λ tr,
  ran tr Phase6a "phase 6a: " (p_podMonitor i) (λ tr,
  ran tr Phase7 "phase 7: " (p_roleLabels i) (λ tr,
  ran tr Phase7a "" None (λ tr,
  ran tr Phase8 "phase 8: " (err_text (p_readinessGates i)) (λ tr,
  let requeue := mergeRequeue requeue (hint_of (p_readinessGates i)) in
  ran tr Phase9 "phase 9: " (err_text (p_podRollout i)) (λ tr,
  let requeue := mergeRequeue requeue (hint_of (p_podRollout i)) in
  ran tr Phase11 "" None (λ tr, (Ok requeue, tr)))))))))))))).

(** ** The pass *)
Record pass_in := {
  n_get : option api_error;            (* a failed read of the CR; absence is in the store *)
  n_finalizer : option string;
  n_tryLock : bool;
  n_delete : delete_in;
  n_auth : auth_in;
  n_gate : gate_read;
  n_listPods : option string;
  n_getSTS : option string;
  n_observe : Duration;                (* the requeue of [observeRolloutState] *)
  n_phases : phase_io;
  n_after : bool * list claim;         (* the StatefulSet and the claims after the phases *)
  n_clear : option string;
  n_statusSTS : option Status.StatefulSet;
  n_substate : option Watchdog.MasterAwareRolloutStatus;  (* in memory when the status is written: the roll may have armed it *)
  n_watchdog : Time * Time;
  n_suppressed : bool
}.

(** Where the body of the pass ends. *)
Record body_end := {
  b_requeue : Duration;
  b_err : option string;
  b_statusErr : option string;
  b_reached : bool;                    (* the phases all ran *)
  b_contended : bool;
  b_cleanup : bool;                    (* drop the CR's memory *)
  b_tokens : list string;              (* redacted until the end of the pass *)
  b_seen : Time;
  b_trace : list rstep
}.

Definition body_stop (seen : Time) (tr : list rstep) (requeue : Duration) (err statusErr : option string) : body_end :=
  {| b_requeue := requeue; b_err := err; b_statusErr := statusErr; b_reached := false; b_contended := false;
     b_cleanup := false; b_tokens := []; b_seen := seen; b_trace := tr |}.

(** From the list of pods on: observation, phases, annotations. *)
Definition converge (v : cr_object) (i : pass_in) (seen : Time) (tokens : list string) (tr : list rstep) : body_end :=
  let stop tr requeue err := 
    {| b_requeue := requeue; b_err := err; b_statusErr := err; b_reached := false; b_contended := false;
       b_cleanup := false; b_tokens := tokens; b_seen := seen; b_trace := tr |} in
  match n_listPods i with
  | Some e => stop tr 0 (Some e)
  | None =>
      match n_getSTS i with
      | Some e => stop tr 0 (Some ("getting statefulset: " +:+ e))
      | None =>
          let requeue := mergeRequeue 0 (n_observe i) in
          let '(applied, tr') := applyDesiredState (n_phases i) in
          let tr := tr ++ tr' in
          match applied with
          | Err e => stop tr 0 (Some e)
          | Ok d =>
              let requeue := mergeRequeue requeue d in
              let reached err requeue tr :=
                {| b_requeue := requeue; b_err := err; b_statusErr := err; b_reached := true; b_contended := false;
                   b_cleanup := false; b_tokens := tokens; b_seen := seen; b_trace := tr |} in
              match clearSingleShotAnnotations v (n_clear i) with
              | Err e => reached (Some ("clearing single-shot annotations: " +:+ e)) 0 tr
              | Ok tr' => reached None (mergeRequeue requeue baselineReconcileWatchdog) (tr ++ tr')
              end
          end
      end
  end.

Definition reconcile_body (v : cr_object) (i : pass_in) (s : store) (seen : Time) : body_end :=
  let paused := bool_decide (c_Annotations v !! PauseAnnotation = Some "true") in
  let hadFinalizer := ContainsFinalizer v PVCRetentionFinalizer in
  match handlePause v paused with
  | Some (requeue, tr) => body_stop seen tr requeue None None
  | None =>
      match ensurePVCRetentionFinalizer v (c_Deleting v) (n_finalizer i) with
      | Err e => body_stop seen [] 0 (Some e) (Some e)
      | Ok (v, tr) =>
          if negb (n_tryLock i) then
            {| b_requeue := lockContendedRequeue; b_err := None; b_statusErr := None; b_reached := false;
               b_contended := true; b_cleanup := false; b_tokens := []; b_seen := seen; b_trace := tr |}
          else
            let tr := tr ++ [Lock] in
            if c_Deleting v then
              match reconcileDeletion v (st_claims s) (n_delete i) with
              | (tr', Some e) => body_stop seen (tr ++ tr') 0 (Some e) (Some e)
              | (tr', None) =>
                  {| b_requeue := 0; b_err := None; b_statusErr := None; b_reached := false; b_contended := false;
                     b_cleanup := true; b_tokens := []; b_seen := seen; b_trace := tr ++ tr' |}
              end
            else
              match resolveAuth v (n_auth i) seen with
              | (AuthHandled requeue statusErr err, seen) => body_stop seen tr requeue err (Some statusErr)
              | (AuthResolved _ tokens, seen) =>
                  let '(proceed, gateErr, tr') := detectPVCLossAndGate v hadFinalizer (n_gate i) s in
                  let tr := tr ++ tr' in
                  if negb proceed then
                    {| b_requeue := pvcLossGateRequeue; b_err := None; b_statusErr := gateErr; b_reached := false;
                       b_contended := false; b_cleanup := false; b_tokens := tokens; b_seen := seen; b_trace := tr |}
                  else converge v i seen tokens tr
              end
      end
  end.

Definition is_phase (e : rstep) : bool := match e with RunPhase _ => true | _ => false end.

Record pass_out := {
  x_requeue : Duration;
  x_err : option string;
  x_trace : list rstep;
  x_store : store;
  x_seen : Time;
  x_during : Registry;                 (* while the phases ran *)
  x_registry : Registry
}.

(** The deferred steps, last registered first: the secrets are released, the lock is
    dropped, then the CR's memory, and the status is written last. *)
Definition deferred (v : cr_object) (b : body_end) : list rstep :=
  (if bool_decide (b_tokens b = []) then [] else [ReleaseSecrets]) ++
  (if existsb (λ e, match e with Lock => true | _ => false end) (b_trace b)
   then Unlock :: (if b_cleanup b then [ForgetCR] else []) else []) ++
  (if c_Deleting v || b_contended b then [] else [WriteStatus (b_statusErr b)]) ++
  match b_err b with Some e => [CountFailure (classifyReconcileError e)] | None => [] end.

Definition final_requeue (v : cr_object) (i : pass_in) (b : body_end) : Duration :=
  if c_Deleting v || b_contended b then b_requeue b
  else
    let paused := bool_decide (c_Annotations v !! PauseAnnotation = Some "true") in
    let d := mergeRequeue (b_requeue b) (evaluateRolloutWatchdog (n_substate i) paused (n_watchdog i).1 (n_watchdog i).2).2 in
    let d := mergeRequeue d (statusRequeueHint (c_Mode v) (n_statusSTS i) paused (b_reached b)) in
    suppressionPaceHint d (n_suppressed i) (b_reached b).

Definition Reconcile (i : pass_in) (s : store) (seen : Time) (r : Registry) : pass_out :=
  match match n_get i, st_cr s with Some e, _ => inr e | None, None => inr not_found | None, Some v => inl v end with
  | inr e =>
      let out err tr := {| x_requeue := 0; x_err := err; x_trace := tr; x_store := s;
                           x_seen := if has_kind NotFound e then zero_time else seen; x_during := r; x_registry := r |} in
      if has_kind NotFound e then out None [ForgetCR]
      else out (Some (e_text e)) [CountFailure (classifyReconcileError (e_text e))]
  | inl v =>
      let b := reconcile_body v i s seen in
      let tr := b_trace b ++ deferred v b in
      let s' := replay s tr in
      let during := registerAuthRedaction (b_tokens b) r in
      {| x_requeue := final_requeue v i b;
         x_err := b_err b;
         x_trace := tr;
         x_store := if existsb is_phase tr
                    then {| st_cr := st_cr s'; st_claims := (n_after i).2; st_sts := (n_after i).1 |} else s';
         x_seen := if b_cleanup b then zero_time else b_seen b;
         x_during := during;
         x_registry := cleanup_redaction (b_tokens b) during |}
  end.

(** ** Lemmas: the phases *)
Definition phase_order : list phase :=
  [Phase1; Phase4; Phase2SA; Phase2; Phase3; Phase5; Phase6; Phase6a; Phase7; Phase7a; Phase8; Phase9; Phase11].

(** A phase that fails ends the sequence after [k] phases. *)
Ltac step_phase k o := destruct o; [exists k; split; [reflexivity|by intros [? [=]]]|].

Lemma applied_in_order i :
  ∃ k, (applyDesiredState i).2 = RunPhase <$> take k phase_order ∧
    ((∃ d, (applyDesiredState i).1 = Ok d) → k = length phase_order).
Proof.
  unfold applyDesiredState, ran.
  step_phase 1%nat (err_text (p_configmaps i)). step_phase 2%nat (err_text (p_pvcResize i)).
  step_phase 3%nat (p_serviceAccounts i). step_phase 4%nat (p_statefulSet i).
  step_phase 5%nat (err_text (p_sentinelInfra i)). step_phase 6%nat (p_services i).
  step_phase 7%nat (p_pdb i). step_phase 8%nat (p_podMonitor i). step_phase 9%nat (p_roleLabels i).
  step_phase 11%nat (err_text (p_readinessGates i)). step_phase 12%nat (err_text (p_podRollout i)).
  exists 13%nat. split; reflexivity.
Qed.

(** ** Lemmas: requeue hints *)
Definition paced (d : Duration) : Prop := d = 0 ∨ minRequeueFloor <= d.

Lemma mergeRequeue_paced c h : paced c → paced (mergeRequeue c h).
Proof. unfold paced, mergeRequeue. intros H. repeat case_match; bool_to_prop; lia. Qed.
Lemma mergeRequeue_tightens c h : minRequeueFloor <= c → minRequeueFloor <= mergeRequeue c h <= c.
Proof. unfold mergeRequeue, minRequeueFloor, Millisecond. intros H. repeat case_match; bool_to_prop; lia. Qed.
Lemma mergeRequeue_baseline c :
  paced c → minRequeueFloor <= mergeRequeue c baselineReconcileWatchdog <= baselineReconcileWatchdog.
Proof.
  unfold paced, mergeRequeue, baselineReconcileWatchdog, minRequeueFloor, Minute, Second, Millisecond. intros H.
  repeat case_match; bool_to_prop; lia.
Qed.

Lemma applied_paced i d : (applyDesiredState i).1 = Ok d → paced d.
Proof.
  unfold applyDesiredState, ran. repeat (case_match; [done|]). cbn. intros [= <-].
  repeat apply mergeRequeue_paced. by left.
Qed.

(** ** Lemmas: the ends of the body *)
Definition lost (s : store) : Prop := st_sts s = false ∧ ∀ c, c ∈ st_claims s → cl_Deleting c = true.

Lemma gate_spec v had i s proceed e tr :
  detectPVCLossAndGate v had i s = (proceed, e, tr) →
  (proceed = true ∧
   (had = false ∨ retention_policy v ≠ PVCRetentionRetain ∨ ¬ lost s ∨
    c_Annotations v !! AcceptPVCLossAnnotation = Some "true" ∧
    tr = [Audit "pvc_loss_accepted" (default "" (c_Annotations v !! AcceptPVCLossRequestorAnnotation))])) ∨
  (proceed = false ∧ is_Some e ∧ tr = []).
Proof.
  unfold detectPVCLossAndGate. destruct had; cbn [negb]; [|intros [= <- <- <-]; left; auto].
  case_bool_decide as Hp; cbn [negb]; [|intros [= <- <- <-]; left; auto].
  destruct (match gr_sts i with Some e => _ | None => _ end) as [e'|] eqn:Es; cbn.
  2:{ intros [= <- <- <-]. left. split; [done|]. right; right; left. intros [Hs _].
      destruct (gr_sts i); [done|]. by rewrite Hs in Es. }
  destruct (has_kind NotFound e'); cbn [negb]; [|intros [= <- <- <-]; right; eauto].
  destruct (gr_list i); [intros [= <- <- <-]; right; eauto|].
  destruct (existsb _ (st_claims s)) eqn:Ex.
  { intros [= <- <- <-]. left. split; [done|]. right; right; left. intros [_ Hc].
    apply existsb_exists in Ex as (c & Hin & Hd). apply list_elem_of_In, Hc in Hin. by rewrite Hin in Hd. }
  case_bool_decide; intros [= <- <- <-]; [left|right; eauto]. split; [done|]. right; right; right. done.
Qed.

Definition is_paused (v : cr_object) : bool := bool_decide (c_Annotations v !! PauseAnnotation = Some "true").
(** The CR as the pass holds it after the finalizer step, and the writes of that step. *)
Definition finalized (v : cr_object) : cr_object := AddFinalizer v PVCRetentionFinalizer.
Definition finalizer_writes (v : cr_object) : list rstep :=
  if ContainsFinalizer v PVCRetentionFinalizer then [] else [PatchFinalizers (c_Finalizers (finalized v))].
Definition auth_ok (v : cr_object) (i : auth_in) : Prop :=
  ∀ a, c_Auth v = Some a → a_SecretName a = "" ∨ ∃ data, ai_secret i = inl data.

(** A pass that runs phases: what held, and its trace. *)
Record ran_phases (v : cr_object) (i : pass_in) (s : store) (b : body_end) : Prop := {
  rp_paused : is_paused v = false;
  rp_deleting : c_Deleting v = false;
  rp_lock : n_tryLock i = true;
  rp_auth : auth_ok v (n_auth i);
  rp_trace : ∃ gate k ann,
    b_trace b = finalizer_writes v ++ [Lock] ++ gate ++ (RunPhase <$> take k phase_order) ++ ann ∧
    (ContainsFinalizer v PVCRetentionFinalizer = false ∨ retention_policy v ≠ PVCRetentionRetain ∨ ¬ lost s ∨
     c_Annotations v !! AcceptPVCLossAnnotation = Some "true" ∧
     gate = [Audit "pvc_loss_accepted" (default "" (c_Annotations v !! AcceptPVCLossRequestorAnnotation))]) ∧
    (∀ e, e ∈ gate → ∃ n r, e = Audit n r) ∧
    (ann = [] ∨ k = length phase_order ∧ b_err b = None ∧
       ann = [PatchAnnotations (foldl (λ m a, delete a m) (c_Annotations v) singleShotAnnotations)]) ∧
    (b_err b = None → k = length phase_order ∧
       (ann = [] → ∀ a, a ∈ singleShotAnnotations → c_Annotations v !! a = None))
}.

Lemma finalized_spec v :
  c_Annotations (finalized v) = c_Annotations v ∧ c_Deleting (finalized v) = c_Deleting v ∧
  c_Auth (finalized v) = c_Auth v ∧ c_Policy (finalized v) = c_Policy v ∧ c_Mode (finalized v) = c_Mode v ∧
  c_Name (finalized v) = c_Name v ∧ PVCRetentionFinalizer ∈ c_Finalizers (finalized v).
Proof.
  unfold finalized, AddFinalizer, ContainsFinalizer. case_bool_decide as H; [done|]. split_and!; [done..|]. cbn. set_solver.
Qed.

Lemma ensure_spec v patch x :
  ensurePVCRetentionFinalizer v false patch = Ok x → x = (finalized v, finalizer_writes v).
Proof.
  unfold ensurePVCRetentionFinalizer, finalizer_writes, finalized. cbn [orb].
  destruct (ContainsFinalizer v _) eqn:E.
  - intros [= <-]. unfold AddFinalizer. by rewrite E.
  - destruct patch; intros [= <-]. done.
Qed.

Lemma single_shot_spec v patch tr :
  clearSingleShotAnnotations v patch = Ok tr →
  tr = [] ∧ (∀ a, a ∈ singleShotAnnotations → c_Annotations v !! a = None) ∨
  tr = [PatchAnnotations (foldl (λ m a, delete a m) (c_Annotations v) singleShotAnnotations)].
Proof.
  unfold clearSingleShotAnnotations. destruct (existsb _ _) eqn:E; cbn [negb].
  - destruct patch; intros [= <-]. by right.
  - intros [= <-]. left. split; [done|]. intros a Ha. apply eq_None_not_Some. intros Hs.
    rewrite <- not_true_iff_false, existsb_exists in E. apply E. exists a. rewrite <- list_elem_of_In. split; [done|].
    by apply bool_decide_eq_true.
Qed.

Lemma deletion_writes v claims i e :
  e ∈ (reconcileDeletion v claims i).1 → (∃ n o, e = PatchOwners n o) ∨ (∃ l, e = PatchFinalizers l).
Proof.
  unfold reconcileDeletion. destruct (di_list i); [cbn; set_solver|].
  assert (H : ∀ a, (∀ e, e ∈ a.1 → ∃ n o, e = PatchOwners n o) →
    ∀ e, e ∈ (foldl (owner_step v i) a claims).1 → ∃ n o, e = PatchOwners n o).
  { induction claims as [|c l IH]; intros a Ha; [done|]. cbn. apply IH.
    unfold owner_step. destruct a as [tr errs]. cbn in Ha. repeat case_match; simplify_eq; cbn; set_solver. }
  specialize (H ([], []) ltac:(set_solver)). destruct (foldl _ _ _) as [tr errs]. cbn in H.
  repeat case_match; cbn; set_solver.
Qed.

Lemma auth_resolved v i seen pw tokens seen' : resolveAuth v i seen = (AuthResolved pw tokens, seen') → auth_ok v i.
Proof.
  unfold resolveAuth. intros H a Ha. rewrite Ha in H. case_bool_decide; [by left|right].
  destruct (ai_secret i) as [data|e]; [by exists data|]. repeat case_match; simplify_eq.
Qed.

Lemma gate_trace v had i s e : e ∈ (detectPVCLossAndGate v had i s).2 → ∃ n r, e = Audit n r.
Proof. unfold detectPVCLossAndGate. repeat case_match; simplify_eq; cbn; set_solver. Qed.

(** From the gate on, for a CR that holds [v]'s annotations. *)
Lemma converge_trace v i seen tokens tr :
  ∃ k ann, let b := converge v i seen tokens tr in
    b_trace b = tr ++ (RunPhase <$> take k phase_order) ++ ann ∧
    (ann = [] ∨ k = length phase_order ∧ b_err b = None ∧
       ann = [PatchAnnotations (foldl (λ m a, delete a m) (c_Annotations v) singleShotAnnotations)]) ∧
    (b_err b = None → k = length phase_order ∧
       (ann = [] → ∀ a, a ∈ singleShotAnnotations → c_Annotations v !! a = None)) ∧ b_cleanup b = false.
Proof.
  unfold converge. destruct (n_listPods i); [exists 0%nat, []; cbn; rewrite app_nil_r; split_and!; auto; done|].
  destruct (n_getSTS i); [exists 0%nat, []; cbn; rewrite app_nil_r; split_and!; auto; done|].
  destruct (applied_in_order (n_phases i)) as (k & Hk & Hfull).
  destruct (applyDesiredState (n_phases i)) as [[d|e] ptr]; cbn [fst snd] in Hk, Hfull; subst ptr.
  2:{ exists k, []. cbn. rewrite app_nil_r. split_and!; auto; done. }
  rewrite (Hfull ltac:(eauto)).
  destruct (clearSingleShotAnnotations v (n_clear i)) as [ann|e] eqn:Ec.
  - apply single_shot_spec in Ec. exists (length phase_order), ann. cbn [b_trace b_err b_cleanup]. rewrite <- !app_assoc.
    destruct Ec as [[-> H]| ->]; split_and!; auto; done.
  - exists (length phase_order), []. cbn [b_trace b_err b_cleanup]. rewrite app_nil_r. split_and!; auto; done.
Qed.

Lemma body_phases v i s seen p :
  RunPhase p ∈ b_trace (reconcile_body v i s seen) → ran_phases v i s (reconcile_body v i s seen).
Proof.
  unfold reconcile_body. fold (is_paused v). unfold handlePause.
  destruct (is_paused v) eqn:Epause; [case_bool_decide; cbn; set_solver|].
  destruct (c_Deleting v) eqn:Ed.
  { unfold ensurePVCRetentionFinalizer. cbn [orb]. destruct (n_tryLock i); cbn [negb]; [|cbn; set_solver].
    rewrite Ed. pose proof (deletion_writes v (st_claims s) (n_delete i)) as Hw.
    destruct (reconcileDeletion _ _ _) as [tr [e|]]; cbn in *; set_solver. }
  destruct (ensurePVCRetentionFinalizer v false (n_finalizer i)) as [[v' tr0]|] eqn:Ee; [|cbn; set_solver].
  apply ensure_spec in Ee. injection Ee as -> ->. pose proof (finalized_spec v) as (Ha & Hd & Hau & Hpo & _).
  assert (Hnf : RunPhase p ∉ finalizer_writes v) by (unfold finalizer_writes; case_match; set_solver).
  destruct (n_tryLock i) eqn:El; cbn [negb]; [|cbn; set_solver].
  rewrite Hd, Ed. destruct (resolveAuth (finalized v) (n_auth i) seen) as [[pw tokens|rq se er] seen'] eqn:Er; [|cbn; set_solver].
  apply auth_resolved in Er. unfold auth_ok in Er. rewrite Hau in Er.
  pose proof (gate_trace (finalized v) (ContainsFinalizer v PVCRetentionFinalizer) (n_gate i) s) as Hgtr.
  destruct (detectPVCLossAndGate (finalized v) _ (n_gate i) s) as [[proceed ge] gtr] eqn:Eg. cbn [snd] in Hgtr.
  apply gate_spec in Eg. unfold retention_policy in Eg. rewrite Ha, Hpo in Eg. fold (retention_policy v) in Eg.
  destruct Eg as [[-> Hg]|(-> & _ & ->)]; cbn [negb]; [|cbn; set_solver].
  intros _. destruct (converge_trace (finalized v) i seen' tokens ((finalizer_writes v ++ [Lock]) ++ gtr))
    as (k & ann & Ht & Hann & Hk & _).
  rewrite Ha in Hann, Hk. constructor; [done..|]. exists gtr, k, ann.
  split; [by rewrite Ht, <- !app_assoc|]. split; [done|]. split; [apply Hgtr|]. done.
Qed.

Lemma split_at_phase A l D pre p post :
  (∀ q, RunPhase q ∉ A) → (∀ q, RunPhase q ∉ D) →
  A ++ (RunPhase <$> l) ++ D = pre ++ RunPhase p :: post →
  ∃ l1 l2, l = l1 ++ p :: l2 ∧ pre = A ++ (RunPhase <$> l1).
Proof.
  intros HA HD. revert pre. induction A as [|a A IH]; intros pre E.
  - clear HA. cbn in E. revert pre E. induction l as [|q l IH]; intros pre E; cbn in E.
    + exfalso. apply (HD p). rewrite E. set_solver.
    + destruct pre as [|x pre]; cbn in E; injection E as Ex E.
      * subst q. by exists [], l.
      * subst x. destruct (IH pre E) as (l1 & l2 & -> & ->). by exists (q :: l1), l2.
  - destruct pre as [|x pre]; cbn in E; injection E as Ex E.
    + exfalso. apply (HA p). rewrite Ex. left.
    + subst x. destruct (IH ltac:(intros q Hq; apply (HA q); by right) pre E) as (l1 & l2 & -> & ->). by exists l1, l2.
Qed.

Lemma deferred_no_phase v b p : RunPhase p ∉ deferred v b.
Proof. unfold deferred. repeat case_match; set_solver. Qed.

Lemma replay_idle s tr : (∀ e, e ∈ tr → apply_step s e = s) → replay s tr = s.
Proof.
  induction tr as [|e tr IH]; intros H; [done|]. unfold replay in *. cbn. rewrite H by left. apply IH. intros e' He. apply H. by right.
Qed.

Definition phase_of (e : rstep) : option phase := match e with RunPhase q => Some q | _ => None end.

Lemma phases_of_none tr : (∀ q, RunPhase q ∉ tr) → omap phase_of tr = [].
Proof.
  induction tr as [|e tr IH]; intros H; [done|]. cbn. destruct e; cbn; try (apply IH; intros q Hq; apply (H q); by right).
  exfalso. apply (H p). left.
Qed.
Lemma phases_of_run (l : list phase) : omap phase_of (RunPhase <$> l) = l.
Proof. induction l as [|p l IH]; [done|]. cbn. by f_equal. Qed.

(** What the store holds once the phases begin. *)
Lemma finalized_store s v gate l :
  st_cr s = Some v → c_Deleting v = false → (∀ e, e ∈ gate → ∃ n r, e = Audit n r) →
  ∃ v', st_cr (replay s (((finalizer_writes v ++ [Lock]) ++ gate) ++ (RunPhase <$> l))) = Some v' ∧
    PVCRetentionFinalizer ∈ c_Finalizers v'.
Proof.
  intros Hv Hd Hg. pose proof (finalized_spec v) as (_ & _ & _ & _ & _ & _ & Hf).
  unfold replay. rewrite <- !app_assoc, foldl_app. fold (replay s (finalizer_writes v)).
  fold (replay (replay s (finalizer_writes v)) ([Lock] ++ gate ++ (RunPhase <$> l))).
  rewrite replay_idle.
  - unfold finalizer_writes. destruct (ContainsFinalizer v _) eqn:E; cbn.
    + exists v. split; [done|]. unfold ContainsFinalizer in E. by bool_to_prop.
    + rewrite Hv, Hd. eexists. split; [done|]. done.
  - intros e He. apply elem_of_app in He as [He|He]; [by apply list_elem_of_singleton in He as ->|].
    apply elem_of_app in He as [(n & r & ->)%Hg|(q & -> & _)%list_elem_of_fmap]; done.
Qed.

(** C4: The phases run only after every guard.  In a pass that runs phase [p], at that
    point: the CR exists, is not paused and not being deleted; its auth Secret, if it
    names one, was read; the lock was taken and has not been given back; the stored CR
    carries the retention finalizer; the phases before [p] are exactly those that precede
    it in the order; and the volumes are not silently lost: the CR is new, or its policy
    gives them up, or the StatefulSet or a claim that is not being deleted is there, or
    the loss was accepted on the CR and audited. *)
Theorem phases_cleared i s seen r pre p post :
  x_trace (Reconcile i s seen r) = pre ++ RunPhase p :: post →
  ∃ v, st_cr s = Some v ∧ is_paused v = false ∧ c_Deleting v = false ∧ auth_ok v (n_auth i) ∧
    (Lock ∈ pre ∧ Unlock ∉ pre) ∧ (∃ v', st_cr (replay s pre) = Some v' ∧ PVCRetentionFinalizer ∈ c_Finalizers v') ∧
    (omap phase_of pre ++ [p]) `prefix_of` phase_order ∧
    (ContainsFinalizer v PVCRetentionFinalizer = false ∨ retention_policy v ≠ PVCRetentionRetain ∨ ¬ lost s ∨
     c_Annotations v !! AcceptPVCLossAnnotation = Some "true" ∧
     Audit "pvc_loss_accepted" (default "" (c_Annotations v !! AcceptPVCLossRequestorAnnotation)) ∈ pre).
Proof.
  unfold Reconcile. destruct (match n_get i with Some e => _ | None => _ end) as [v|e] eqn:Eg.
  2:{ destruct (has_kind NotFound e); cbn; intros E; destruct pre as [|? [|]]; simplify_eq. }
  assert (Hv : st_cr s = Some v) by (destruct (n_get i), (st_cr s); simplify_eq; done). clear Eg.
  cbn [x_trace]. intros E.
  assert (Hin : RunPhase p ∈ b_trace (reconcile_body v i s seen)).
  { assert (RunPhase p ∈ b_trace (reconcile_body v i s seen) ++ deferred v (reconcile_body v i s seen)) as H
      by (rewrite E; set_solver). apply elem_of_app in H as [H|H]; [done|]. by apply deferred_no_phase in H. }
  destruct (body_phases v i s seen p Hin) as [Hpa Hde Hlo Hau (gate & k & ann & Ht & Hg & Hga & Hann & Hk)].
  rewrite Ht in E.
  assert (Hfin : finalizer_writes v ++ [Lock] ++ gate ++ (RunPhase <$> take k phase_order) ++ ann ++
    deferred v (reconcile_body v i s seen) = pre ++ RunPhase p :: post) by (rewrite <- E, <- !app_assoc; done).
  rewrite !app_assoc in Hfin. rewrite <- (app_assoc _ ann), <- (app_assoc _ (RunPhase <$> _)) in Hfin.
  assert (Hno : ∀ q, RunPhase q ∉ (finalizer_writes v ++ [Lock]) ++ gate).
  { intros q H. apply elem_of_app in H as [H|H]; [unfold finalizer_writes in H; case_match; set_solver|].
    by apply Hga in H as (? & ? & [=]). }
  apply split_at_phase in Hfin as (l1 & l2 & Hl & ->); [|done|].
  2:{ intros q H. apply elem_of_app in H as [H|H]; [|by apply deferred_no_phase in H].
      destruct Hann as [->|(_ & _ & ->)]; set_solver. }
  exists v. split; [done|]. split; [done|]. split; [done|]. split; [done|]. split; [split; [set_solver|]|]. 2: split; [|split].
  - intros H. apply elem_of_app in H as [H|(? & [=] & _)%list_elem_of_fmap]. apply elem_of_app in H as [H|(? & ? & [=])%Hga].
    unfold finalizer_writes in H. case_match; set_solver.
  - by apply finalized_store.
  - rewrite omap_app, phases_of_none, phases_of_run by done. cbn.
    trans (take k phase_order); [exists l2; by rewrite Hl, <- app_assoc|apply prefix_take].
  - destruct Hg as [?|[?|[?|[? ->]]]]; auto. right; right; right. split; [done|]. set_solver.
Qed.

(** ** Lemmas: deletion *)
(** The owners a claim should have once the CR is gone, by policy. *)
Definition wanted_owners (v : cr_object) (c : claim) : list OwnerReference :=
  if bool_decide (retention_policy v = PVCRetentionDelete)
  then if hasCROwnerRef c v then cl_Owners c else cl_Owners c ++ [NewControllerRef v]
  else if hasCROwnerRef c v then stripCROwnerRef (cl_Owners c) v else cl_Owners c.
Definition settled_claim (v : cr_object) (c : claim) : claim :=
  {| cl_Name := cl_Name c; cl_Owners := wanted_owners v c; cl_Deleting := cl_Deleting c |}.
Definition owner_write (v : cr_object) (c : claim) : option rstep :=
  if bool_decide (retention_policy v = PVCRetentionDelete)
  then if hasCROwnerRef c v then None else Some (PatchOwners (cl_Name c) (wanted_owners v c))
  else if hasCROwnerRef c v then Some (PatchOwners (cl_Name c) (wanted_owners v c)) else None.

(** A claim obeys the policy: it goes with the CR under Delete, and only then. *)
Definition obeys (v : cr_object) (c : claim) : Prop :=
  hasCROwnerRef c v = bool_decide (retention_policy v = PVCRetentionDelete).

Lemma settled_obeys v c : obeys v (settled_claim v c).
Proof.
  unfold obeys, settled_claim, hasCROwnerRef, wanted_owners. cbn. case_bool_decide as Hp.
  - fold (hasCROwnerRef c v). destruct (hasCROwnerRef c v) eqn:E; [done|]. rewrite existsb_app. cbn.
    by rewrite bool_decide_eq_true_2, orb_true_r.
  - fold (hasCROwnerRef c v). destruct (hasCROwnerRef c v) eqn:E; [|done]. unfold stripCROwnerRef.
    apply not_true_is_false. rewrite existsb_exists. intros (o & [_ Hn]%List.filter_In & Ho). by rewrite Ho in Hn.
Qed.

Lemma unwritten_settled v c : owner_write v c = None → settled_claim v c = c.
Proof.
  unfold owner_write, settled_claim, wanted_owners.
  case_bool_decide; destruct (hasCROwnerRef c v); by destruct c.
Qed.

Lemma owner_step_cases v i a c :
  owner_step v i a c = a ∧ owner_write v c = None ∨
  (∃ w, owner_write v c = Some w ∧ owner_step v i a c = (a.1 ++ [w], a.2)) ∨
  (∃ e, owner_step v i a c = (a.1, a.2 ++ [e])).
Proof.
  destruct a as [tr errs]. unfold owner_step, owner_write, wanted_owners.
  case_bool_decide; destruct (hasCROwnerRef c v); cbn [negb]; [by left| | |by left]; right;
    destruct (di_patch i (cl_Name c)); eauto.
Qed.

Lemma owner_loop v i claims a :
  let r := foldl (owner_step v i) a claims in
  (∃ w, r.1 = a.1 ++ w ∧ ∀ e, e ∈ w → ∃ n o, e = PatchOwners n o) ∧
  (∃ es, r.2 = a.2 ++ es) ∧ (r.2 = [] → r.1 = a.1 ++ omap (owner_write v) claims).
Proof.
  revert a. induction claims as [|c l IH]; intros a.
  { cbn. rewrite app_nil_r. split_and!; [exists []; rewrite app_nil_r; set_solver|exists []; by rewrite app_nil_r|done]. }
  cbn [foldl]. destruct (IH (owner_step v i a c)) as ((w & Hw & Ho) & (es & He) & Hn). cbv zeta.
  destruct (owner_step_cases v i a c) as [[E Ew]|[(x & Ew & E)|(e & E)]]; rewrite E in *; cbn [fst snd] in *.
  - split_and!; [by exists w|by exists es|]. intros H0. cbn. rewrite Ew. by apply Hn.
  - split_and!; [|by exists es|].
    + exists (x :: w). rewrite Hw, <- app_assoc. split; [done|]. intros e [->|He']%elem_of_cons; [|by apply Ho].
      unfold owner_write in Ew. repeat case_match; simplify_eq; eauto.
    + intros H0. cbn. rewrite Ew, Hn, <- app_assoc by done. done.
  - split_and!; [by exists w|exists (e :: es); by rewrite He, <- app_assoc|].
    intros H0. rewrite He in H0. by destruct a.2.
Qed.

Lemma claims_settled v s claims1 claims2 :
  NoDup (cl_Name <$> claims1 ++ claims2) → st_claims s = (settled_claim v <$> claims1) ++ claims2 →
  st_claims (replay s (omap (owner_write v) claims2)) = settled_claim v <$> (claims1 ++ claims2).
Proof.
  revert s claims1. induction claims2 as [|c l IH]; intros s claims1 Hnd Hs.
  { cbn. by rewrite Hs, !app_nil_r. }
  rewrite fmap_app in Hnd. cbn in Hnd. pose proof Hnd as Hnd'. apply NoDup_app in Hnd as (_ & Hdis & [Hc _]%NoDup_cons).
  assert (Hnd2 : NoDup (cl_Name <$> (claims1 ++ [c]) ++ l)) by (by rewrite <- app_assoc, fmap_app).
  replace (claims1 ++ c :: l) with ((claims1 ++ [c]) ++ l) by (by rewrite <- app_assoc).
  cbn. destruct (owner_write v c) as [w|] eqn:Ew.
  - cbn. apply IH; [done|].
    assert (w = PatchOwners (cl_Name c) (wanted_owners v c)) as -> by (unfold owner_write in Ew; repeat case_match; by simplify_eq).
    cbn. rewrite Hs, !fmap_app. cbn.
    assert (Hid : ∀ l' : list claim, (∀ x, x ∈ l' → cl_Name x ≠ cl_Name c) → set_owners (cl_Name c) (wanted_owners v c) <$> l' = l').
    { intros l' Hl. rewrite <- (list_fmap_id l') at 2. apply list_fmap_ext. intros k x Hx.
      apply list_elem_of_lookup_2 in Hx. unfold set_owners. rewrite bool_decide_eq_false_2; [done|]. by apply Hl. }
    rewrite Hid, Hid, <- app_assoc.
    + unfold set_owners. by rewrite bool_decide_eq_true_2.
    + intros x Hx E. apply Hc. rewrite <- E. by apply list_elem_of_fmap_2.
    + intros x (y & -> & Hy)%list_elem_of_fmap E. cbn in E. apply (Hdis (cl_Name c)); [|left].
      rewrite <- E. by apply list_elem_of_fmap_2.
  - apply IH; [done|]. rewrite Hs, fmap_app. cbn. rewrite (unwritten_settled v c Ew), <- app_assoc. done.
Qed.

Definition meta_write (e : rstep) : bool := match e with PatchFinalizers _ | PatchAnnotations _ => true | _ => false end.

Lemma no_meta_write s tr : (∀ e, e ∈ tr → meta_write e = false) → st_cr (replay s tr) = st_cr s.
Proof.
  revert s. induction tr as [|e tr IH]; intros s H; [done|]. cbn. etrans; [apply IH; intros e' He; apply H; by right|].
  specialize (H e ltac:(left)). by destruct e.
Qed.
Lemma no_owner_write s tr : (∀ n o, PatchOwners n o ∉ tr) → st_claims (replay s tr) = st_claims s.
Proof.
  revert s. induction tr as [|e tr IH]; intros s H; [done|]. cbn. etrans; [apply IH; intros n o He; apply (H n o); by right|].
  destruct e; try done. exfalso. apply (H claim_name owners). left.
Qed.

(** The writes of a deletion: owners first, the finalizer last and only after all of them. *)
Lemma deletion_trace v claims i :
  ∃ own fin, (reconcileDeletion v claims i).1 = own ++ fin ∧ (∀ e, e ∈ own → ∃ n o, e = PatchOwners n o) ∧
    (fin = [] ∨ own = omap (owner_write v) claims ∧ ∃ l, fin = [PatchFinalizers l] ∧ PVCRetentionFinalizer ∉ l).
Proof.
  unfold reconcileDeletion. destruct (di_list i); [exists [], []; set_solver|].
  destruct (owner_loop v i claims ([], [])) as ((w & Hw & Ho) & _ & Hn). cbn [fst snd] in *.
  destruct (foldl _ _ _) as [tr errs]. cbn [fst snd] in *. rewrite app_nil_l in Hw. subst w.
  case_bool_decide as He; cbn [negb]; [|exists tr, []; rewrite app_nil_r; auto].
  destruct (ContainsFinalizer v _); [|exists tr, []; rewrite app_nil_r; auto].
  destruct (di_finalizer i); [exists tr, []; rewrite app_nil_r; auto|].
  eexists tr, [_]. split; [done|]. split; [done|]. right. split; [by apply Hn|]. eexists. split; [done|].
  cbn. intros (_ & Hb)%list_elem_of_In%List.filter_In. bool_to_prop. done.
Qed.

Lemma deferred_writes v b e : e ∈ deferred v b → meta_write e = false ∧ ∀ n o, e ≠ PatchOwners n o.
Proof. unfold deferred. repeat case_match; set_solver. Qed.

(** The body of a pass over a CR that is being deleted. *)
Lemma deleting_body v i s seen :
  c_Deleting v = true →
  (∀ e, e ∈ b_trace (reconcile_body v i s seen) → meta_write e = false) ∨
  b_trace (reconcile_body v i s seen) = Lock :: (reconcileDeletion v (st_claims s) (n_delete i)).1.
Proof.
  intros Hd. unfold reconcile_body, handlePause. case_bool_decide; [left; case_bool_decide; cbn; set_solver|].
  unfold ensurePVCRetentionFinalizer. rewrite Hd. cbn [orb]. destruct (n_tryLock i); cbn [negb]; [|left; cbn; set_solver].
  rewrite Hd. right. by destruct (reconcileDeletion _ _ _) as [tr [e|]].
Qed.

(** C5: The retention policy is carried out before the CR goes.  Over a CR that is being
    deleted, at every point of the pass (a crash may come there): once the stored CR
    has lost the retention finalizer or is gone, every one of its volume claims has the
    owner reference that makes it go with the CR under the policy Delete, and none
    has under any other policy.  A claim that could not be patched keeps the CR. *)
Theorem deletion_respects_policy i s seen r v pre post :
  st_cr s = Some v → n_get i = None → c_Deleting v = true → PVCRetentionFinalizer ∈ c_Finalizers v →
  NoDup (cl_Name <$> st_claims s) → x_trace (Reconcile i s seen r) = pre ++ post →
  (∀ v', st_cr (replay s pre) = Some v' → PVCRetentionFinalizer ∉ c_Finalizers v') →
  ∀ c, c ∈ st_claims (replay s pre) → obeys v c.
Proof.
  intros Hv Hg Hd Hf Hnd. unfold Reconcile. rewrite Hg, Hv. cbn [x_trace]. intros E Hgone.
  assert (Hkept : (∀ e, e ∈ pre → meta_write e = false) → False).
  { intros H. apply (Hgone v); [by rewrite no_meta_write|done]. }
  destruct (deleting_body v i s seen Hd) as [Hb|Hb].
  { exfalso. apply Hkept. intros e He. assert (e ∈ pre ++ post) as Hin by set_solver.
    rewrite <- E in Hin. apply elem_of_app in Hin as [Hin|Hin]; [by apply Hb|by apply deferred_writes in Hin as [? _]]. }
  set (d := deferred v _) in E. rewrite Hb in E.
  destruct (deletion_trace v (st_claims s) (n_delete i)) as (own & fin & Ht & Ho & Hfin). rewrite Ht in E.
  assert (Hown : ∀ e, e ∈ Lock :: own → meta_write e = false).
  { intros e [->|(? & ? & ->)%Ho]%elem_of_cons; done. }
  change (((Lock :: own) ++ fin) ++ d = pre ++ post) in E. rewrite <- app_assoc in E.
  destruct Hfin as [->|(-> & l & -> & Hl)].
  { exfalso. apply Hkept. intros e He. assert (e ∈ pre ++ post) as Hin by set_solver. rewrite <- E in Hin.
    apply elem_of_app in Hin as [Hin|Hin]; [by apply Hown|by apply deferred_writes in Hin as [? _]]. }
  apply app_eq_app in E as (k & [[Hk _]|[-> Hk]]).
  { exfalso. apply Hkept. intros e He. apply Hown. rewrite Hk. set_solver. }
  destruct k as [|x k]; [exfalso; apply Hkept; by rewrite app_nil_r|]. injection Hk as <- Hk.
  unfold replay. rewrite foldl_app. fold (replay s (Lock :: omap (owner_write v) (st_claims s))).
  fold (replay (replay s (Lock :: omap (owner_write v) (st_claims s))) (PatchFinalizers l :: k)).
  rewrite no_owner_write.
  - change (replay s (Lock :: ?tr)) with (replay s tr).
    rewrite (claims_settled v s [] (st_claims s)) by done. intros c (c' & -> & _)%list_elem_of_fmap. apply settled_obeys.
  - intros n o [He|He]%elem_of_cons; [done|].
    assert (PatchOwners n o ∈ d) as Hin by (rewrite Hk; set_solver). apply deferred_writes in Hin as [_ H]. by apply (H n o).
Qed.

(** ** Cadence *)
Lemma backoff_range d : authSecretMissingRequeue <= backoffForMissingAuthSecret d <= baselineReconcileWatchdog.
Proof. unfold backoffForMissingAuthSecret, authSecretMissingRequeue, baselineReconcileWatchdog, Minute, Second. repeat case_match; lia. Qed.

Lemma converge_requeue v i seen tokens tr :
  b_err (converge v i seen tokens tr) = None →
  minRequeueFloor <= b_requeue (converge v i seen tokens tr) <= baselineReconcileWatchdog.
Proof.
  unfold converge. destruct (n_listPods i); [done|]. destruct (n_getSTS i); [done|].
  pose proof (applied_paced (n_phases i)) as Hp. destruct (applyDesiredState (n_phases i)) as [[d|e] ptr]; [|done].
  destruct (clearSingleShotAnnotations _ _); [|done]. intros _. cbn [b_requeue].
  apply mergeRequeue_baseline, mergeRequeue_paced, mergeRequeue_paced. by left.
Qed.

Lemma body_requeue v i s seen :
  let b := reconcile_body v i s seen in
  c_Deleting v = false → b_contended b = false → b_err b = None →
  minRequeueFloor <= b_requeue b <= baselineReconcileWatchdog.
Proof.
  cbv zeta. intros Hd. unfold reconcile_body, handlePause. case_bool_decide; [intros _ _; by vm_compute|].
  rewrite Hd. destruct (ensurePVCRetentionFinalizer v false _) as [[v' tr]|] eqn:Ee; [|done].
  apply ensure_spec in Ee. injection Ee as -> ->. pose proof (finalized_spec v) as (_ & Hd' & _). rewrite Hd', Hd.
  destruct (n_tryLock i); cbn [negb]; [|done]. unfold resolveAuth.
  destruct (match c_Auth (finalized v) with Some a => _ | None => _ end) as [[pw tokens|rq se er] seen'] eqn:Er.
  - destruct (detectPVCLossAndGate _ _ _ _) as [[[] ge] gtr]; cbn [negb]; [intros _; apply converge_requeue|].
    intros _ _. by vm_compute.
  - cbn. intros _ ->. destruct (c_Auth (finalized v)); [|done]. case_bool_decide; [done|].
    destruct (ai_secret (n_auth i)); [done|]. destruct (has_kind NotFound _); [|done].
    unfold observeMissingAuthSecret in Er. injection Er as <- <- <-. pose proof (backoff_range (Sub (ai_now (n_auth i))
      (observeMissingAuthFirstSeen (ai_now (n_auth i)) seen))) as Hb.
    split; [refine (Z.le_trans _ _ _ _ (proj1 Hb)); by vm_compute|apply Hb].
Qed.

(** C38: A CR is never forgotten and never polled in a hot loop.  A pass that ends without
    an error over a CR that exists and is not being deleted asks to run again: after at
    least 100 milliseconds, and after at most five minutes.  This holds whatever the phases, the
    watchdog and the status write ask for, and for a paused CR, a missing Secret, a refused
    recovery or a contended lock alike. *)
Theorem requeue_bounds i s seen r v :
  n_get i = None → st_cr s = Some v → c_Deleting v = false → x_err (Reconcile i s seen r) = None →
  minRequeueFloor <= x_requeue (Reconcile i s seen r) <= baselineReconcileWatchdog.
Proof.
  intros Hg Hv Hd. unfold Reconcile. rewrite Hg, Hv. cbn [x_err x_requeue]. intros He.
  pose proof (body_requeue v i s seen Hd) as Hb. cbv zeta in Hb. unfold final_requeue. rewrite Hd. cbn [orb].
  destruct (b_contended (reconcile_body v i s seen)) eqn:Ec.
  { clear Hb. revert Ec He. unfold reconcile_body, handlePause. case_bool_decide; [done|].
    destruct (ensurePVCRetentionFinalizer _ _ _) as [[v' tr]|]; [|done].
    destruct (n_tryLock i); cbn [negb]; [|intros _ _; by vm_compute].
    destruct (c_Deleting v'); [by destruct (reconcileDeletion _ _ _) as [? []]|].
    destruct (resolveAuth _ _ _) as [[] ?]; [|done]. destruct (detectPVCLossAndGate _ _ _ _) as [[[] ?] ?]; [|done].
    unfold converge. repeat case_match; done. }
  specialize (Hb eq_refl He).
  unfold suppressionPaceHint.
  assert (Hm : ∀ d h, minRequeueFloor <= d <= baselineReconcileWatchdog → minRequeueFloor <= mergeRequeue d h <= baselineReconcileWatchdog).
  { intros d h Hr. destruct (mergeRequeue_tightens d h); [lia|]. lia. }
  repeat case_match; by repeat apply Hm.
Qed.

(** ** Runs of passes, and volumes that were never there *)
Fixpoint run_passes (l : list pass_in) (s : store) (seen : Time) (r : Registry) : list pass_out :=
  match l with
  | [] => []
  | i :: l => let o := Reconcile i s seen r in o :: run_passes l (x_store o) (x_seen o) (x_registry o)
  end.

(** The shape the gate refuses. *)
Record stuck (s : store) : Prop := {
  sk_cr : ∃ v, st_cr s = Some v ∧ ContainsFinalizer v PVCRetentionFinalizer = true ∧ c_Deleting v = false ∧
               retention_policy v = PVCRetentionRetain ∧ c_Annotations v !! AcceptPVCLossAnnotation ≠ Some "true";
  sk_lost : lost s
}.

Lemma stuck_pass i s seen r :
  stuck s → (∀ p, RunPhase p ∉ x_trace (Reconcile i s seen r)) ∧ x_store (Reconcile i s seen r) = s.
Proof.
  intros [(v & Hv & Hf & Hd & Hp & Ha) Hl]. unfold Reconcile.
  destruct (match n_get i with Some e => _ | None => _ end) as [v'|e] eqn:Eg.
  2:{ destruct (has_kind NotFound e); cbn; split; [set_solver|done|set_solver|done]. }
  assert (v' = v) as -> by (rewrite Hv in Eg; destruct (n_get i); by simplify_eq). clear Eg. cbn [x_trace x_store].
  set (b := reconcile_body v i s seen).
  assert (Hb : ∀ e, e ∈ b_trace b → apply_step s e = s ∧ is_phase e = false).
  { unfold b, reconcile_body, handlePause. case_bool_decide; [case_bool_decide; cbn; set_solver|].
    rewrite Hd. destruct (ensurePVCRetentionFinalizer v false _) as [x|] eqn:Ee; [|cbn; set_solver].
    apply ensure_spec in Ee as ->. pose proof (finalized_spec v) as (Ha' & Hd' & _ & Hp' & _).
    unfold finalizer_writes. rewrite Hf. rewrite Hd', Hd. destruct (n_tryLock i); cbn [negb]; [|cbn; set_solver].
    destruct (resolveAuth _ _ _) as [[] ?]; [|cbn; set_solver].
    destruct (detectPVCLossAndGate _ _ _ _) as [[proceed ge] gtr] eqn:Eg. apply gate_spec in Eg.
    unfold retention_policy in Eg. rewrite Ha', Hp' in Eg. fold (retention_policy v) in Eg.
    destruct Eg as [(_ & [?|[?|[?|[? _]]]])|(-> & _ & ->)]; [done..|]. cbn. set_solver. }
  assert (Hall : ∀ e, e ∈ b_trace b ++ deferred v b → apply_step s e = s ∧ is_phase e = false).
  { intros e [He|He]%elem_of_app; [by apply Hb|]. unfold deferred in He. repeat case_match; set_solver. }
  split.
  - intros p Hin. by apply Hall in Hin as [_ ?].
  - rewrite replay_idle by (intros e He; by apply Hall). destruct (existsb _ _) eqn:E; [|done].
    apply existsb_exists in E as (e & Hin & He). apply list_elem_of_In, Hall in Hin as [_ Hn]. congruence.
Qed.

Lemma stuck_run l s seen r o p : stuck s → o ∈ run_passes l s seen r → RunPhase p ∉ x_trace o.
Proof.
  intros Hs. revert s seen r Hs. induction l as [|i l IH]; intros s seen r Hs; cbn; [set_solver|].
  destruct (stuck_pass i s seen r Hs) as [Hp Hst]. intros [->|Ho]%elem_of_cons; [apply Hp|].
  eapply IH; [|done]. by rewrite Hst.
Qed.

(** C40: A first pass that stops early locks the CR out.  Take a new CR, without the
    finalizer, under the Retain policy, not paused, not being deleted, without the
    annotation that accepts the loss of volumes, with no StatefulSet and no
    volume claim but ones being deleted.  A pass that reads it, adds the finalizer, gets the lock and finds that its
    auth Secret does not exist runs no phase, and of the CR's metadata, the claims and
    the StatefulSet it changes only the CR's finalizers.  From then on the gate takes the
    CR for one that has lost its volumes: as long as nobody else changes the CR or makes
    a StatefulSet or a claim, no later pass runs any phase, whether the Secret has
    appeared or not. *)
Theorem interrupted_bootstrap_refused i s seen r v a e l :
  n_get i = None → st_cr s = Some v → ContainsFinalizer v PVCRetentionFinalizer = false →
  is_paused v = false → c_Deleting v = false → retention_policy v = PVCRetentionRetain →
  c_Annotations v !! AcceptPVCLossAnnotation ≠ Some "true" → lost s →
  n_finalizer i = None → n_tryLock i = true →
  c_Auth v = Some a → a_SecretName a ≠ "" → ai_secret (n_auth i) = inr e → has_kind NotFound e = true →
  let first := Reconcile i s seen r in
  x_store first = {| st_cr := Some (with_finalizers (c_Finalizers v ++ [PVCRetentionFinalizer]) v);
                     st_claims := st_claims s; st_sts := st_sts s |} ∧
  ∀ o p, o ∈ first :: run_passes l (x_store first) (x_seen first) (x_registry first) → RunPhase p ∉ x_trace o.
Proof.
  intros Hg Hv Hf Hpa Hd Hp Ha Hl Hfin Hlock Hau Hs He Hk first.
  assert (Hb : b_trace (reconcile_body v i s seen) = [PatchFinalizers (c_Finalizers (finalized v)); Lock]).
  { unfold reconcile_body. fold (is_paused v). unfold handlePause. rewrite Hpa, Hd.
    unfold ensurePVCRetentionFinalizer. rewrite Hf, Hfin, Hlock. cbn [orb negb]. fold (finalized v).
    pose proof (finalized_spec v) as (_ & -> & Hau' & _). rewrite Hd. unfold resolveAuth.
    rewrite Hau', Hau, bool_decide_eq_false_2, He, Hk by done. done. }
  assert (Hno : ∀ p, RunPhase p ∉ b_trace (reconcile_body v i s seen) ++ deferred v (reconcile_body v i s seen)).
  { intros p [H|H]%elem_of_app; [rewrite Hb in H; set_solver|by apply deferred_no_phase in H]. }
  assert (Hx : x_trace first = b_trace (reconcile_body v i s seen) ++ deferred v (reconcile_body v i s seen))
    by (unfold first, Reconcile; by rewrite Hg, Hv).
  assert (Hf' : c_Finalizers (finalized v) = c_Finalizers v ++ [PVCRetentionFinalizer])
    by (unfold finalized, AddFinalizer; by rewrite Hf).
  assert (Hst : x_store first = {| st_cr := Some (with_finalizers (c_Finalizers v ++ [PVCRetentionFinalizer]) v);
                                   st_claims := st_claims s; st_sts := st_sts s |}).
  { unfold first, Reconcile. rewrite Hg, Hv. cbn [x_store].
    destruct (existsb is_phase _) eqn:Ex.
    { apply existsb_exists in Ex as (x & Hin & Hx'). destruct x; try done. by apply list_elem_of_In, Hno in Hin. }
    rewrite Hb. unfold replay. cbn [app foldl apply_step]. rewrite Hv, Hd, Hf'. cbn [andb]. apply replay_idle.
    intros x Hx'. unfold deferred in Hx'. repeat case_match; set_solver. }
  split; [exact Hst|].
  assert (Hstuck : stuck (x_store first)).
  { rewrite Hst. constructor; [|exact Hl]. eexists. split; [done|]. cbn. split_and!; [|done|exact Hp|done].
    unfold ContainsFinalizer. cbn. apply bool_decide_eq_true. set_solver. }
  intros o p [->|Ho]%elem_of_cons; [rewrite Hx; apply Hno|by eapply stuck_run].
Qed.

Lemma single_shot_cleared (m : gmap string string) a :
  a ∈ singleShotAnnotations → foldl (λ m a, delete a m) m singleShotAnnotations !! a = None.
Proof.
  unfold singleShotAnnotations. intros [->|[->|[]%not_elem_of_nil]%elem_of_cons]%elem_of_cons; cbn.
  - rewrite lookup_delete_ne by done. apply lookup_delete_eq.
  - apply lookup_delete_eq.
Qed.

Lemma replay_app s t1 t2 : replay s (t1 ++ t2) = replay (replay s t1) t2.
Proof. apply foldl_app. Qed.

Lemma finalizer_stored s v :
  st_cr s = Some v → c_Deleting v = false → st_cr (replay s (finalizer_writes v)) = Some (finalized v).
Proof.
  intros Hv Hd. unfold finalizer_writes, finalized, AddFinalizer. destruct (ContainsFinalizer v _); cbn; [done|]. by rewrite Hv, Hd.
Qed.

(** An accepted loss is spent by the pass that uses it.  When a pass ends without an
    error after running its phases, the stored CR no longer carries the annotation, and
    if the StatefulSet and the volumes are lost again after it, no pass recreates them
    until the loss is accepted anew. *)
Theorem accepted_loss_single_use i s seen r v p l :
  n_get i = None → st_cr s = Some v → retention_policy v = PVCRetentionRetain →
  x_err (Reconcile i s seen r) = None → RunPhase p ∈ x_trace (Reconcile i s seen r) →
  let s' := x_store (Reconcile i s seen r) in
  (∃ v', st_cr s' = Some v' ∧ c_Annotations v' !! AcceptPVCLossAnnotation = None) ∧
  (lost s' → ∀ seen' r' o q, o ∈ run_passes l s' seen' r' → RunPhase q ∉ x_trace o).
Proof.
  intros Hg Hv Hp. unfold Reconcile. rewrite Hg, Hv. cbn [x_err x_trace x_store]. intros He Hin.
  apply elem_of_app in Hin as [Hin|Hin]; [|by apply deferred_no_phase in Hin].
  destruct (body_phases v i s seen p Hin) as [_ Hd _ _ (gate & k & ann & Ht & _ & Hga & Hann & Hk)].
  destruct (Hk He) as [-> Hnil]. set (b := reconcile_body v i s seen) in *. cbv zeta.
  assert (Hcr : st_cr (replay s (b_trace b ++ deferred v b)) = st_cr (replay (replay s (finalizer_writes v)) ann)).
  { rewrite Ht, <- !app_assoc, replay_app, !app_assoc, <- (app_assoc _ ann), (replay_app _ _ (ann ++ _)), replay_app.
    rewrite no_meta_write by (intros e H; by apply deferred_writes in H as [? _]).
    set (x := replay s (finalizer_writes v)). set (mid := ([Lock] ++ gate) ++ _).
    assert (Hx : replay x mid = x).
    { apply replay_idle. intros e [[->%list_elem_of_singleton|(?&?&->)%Hga]%elem_of_app|(?&->&_)%list_elem_of_fmap]%elem_of_app; done. }
    by rewrite Hx. }
  pose proof (finalized_spec v) as (Fa & Fd & _ & Fp & _ & _ & Ff).
  assert (∃ v', st_cr (replay s (b_trace b ++ deferred v b)) = Some v' ∧ c_Annotations v' !! AcceptPVCLossAnnotation = None ∧
    ContainsFinalizer v' PVCRetentionFinalizer = true ∧ c_Deleting v' = false ∧ retention_policy v' = PVCRetentionRetain)
    as (v' & Hv' & Ha' & Hf' & Hd' & Hp').
  { rewrite Hcr. unfold ContainsFinalizer, retention_policy. destruct Hann as [->|(_ & _ & ->)]; cbn [replay foldl apply_step st_cr].
    - exists (finalized v). rewrite finalizer_stored by done. rewrite Fa, Fd, Fp. split_and!; [done| |by apply bool_decide_eq_true|done|done].
      apply Hnil; [done|]. left.
    - rewrite finalizer_stored by done. eexists. split; [done|]. cbn. rewrite Fd, Fp.
      split_and!; [apply single_shot_cleared; left|by apply bool_decide_eq_true|done|done]. }
  destruct (existsb is_phase _); cbn [st_cr].
  all: split; [by exists v'|]; intros Hl seen' r' o q; apply stuck_run; (constructor; [|done]);
    exists v'; split_and!; try done; by rewrite Ha'.
Qed.

(** ** Secrets in the pass *)
Lemma two_scopes p q r : reg_wf r → p ≠ q →
  cleanup_redaction [p; q] (registerAuthRedaction [p; q] r) = r.
Proof.
  intros Hr Hpq. unfold cleanup_redaction, registerAuthRedaction. cbn [foldl].
  assert (Hc : ∀ t x, (RegisterScoped t x).2 = if slen t <? MinTokenLen then λ r, r else Forget t)
    by (intros t x; unfold RegisterScoped; by case_match).
  assert (Hg : ∀ t x, (RegisterScoped t x).1 = Register t x).
  { intros t x. unfold RegisterScoped. destruct (slen t <? MinTokenLen) eqn:E; [|done]. unfold Register. by rewrite E. }
  rewrite !Hc, !Hg. apply map_eq. intros t.
  assert (Hf : ∀ u x, (if slen u <? MinTokenLen then λ r, r else Forget u) x = Forget u x).
  { intros u x. destruct (slen u <? MinTokenLen) eqn:E; [|done]. unfold Forget. by rewrite E. }
  rewrite !Hf, !Forget_lookup, !Register_lookup.
  destruct (MinTokenLen <=? slen t); rewrite ?andb_false_r, ?andb_true_r; [|done].
  destruct (decide (p = t)) as [->|]; destruct (decide (q = t)) as [->|]; [done| | |];
    rewrite ?bool_decide_eq_true_2, ?bool_decide_eq_false_2 by done; [| |done];
    (destruct (r !! t) as [c|] eqn:E; simpl; [apply Hr in E|]; go_crush; f_equal; lia).
Qed.

Lemma tokens_shape auth sen pw : redaction_tokens auth sen pw = [pw] ∨ ∃ q, q ≠ pw ∧ redaction_tokens auth sen pw = [pw; q].
Proof.
  unfold redaction_tokens. destruct auth as [a|]; [|by left]. case_bool_decide; [by left|].
  destruct sen; [|by left]. case_match eqn:E; [|by left]. bool_to_prop. right. eexists. split; [|done]. naive_solver.
Qed.

Lemma scopes_restored tokens r :
  reg_wf r → tokens = [] ∨ (∃ p, tokens = [p]) ∨ (∃ p q, q ≠ p ∧ tokens = [p; q]) →
  cleanup_redaction tokens (registerAuthRedaction tokens r) = r.
Proof.
  intros Hr [->|[(p & ->)|(p & q & Hq & ->)]]; [done| |by apply two_scopes].
  unfold cleanup_redaction, registerAuthRedaction. cbn [foldl].
  replace ((RegisterScoped p (RegisterScoped p r).1).2) with ((RegisterScoped p r).2) by (unfold RegisterScoped; by case_match).
  by apply scope_restores.
Qed.

Lemma converge_tokens v i seen tokens tr : b_tokens (converge v i seen tokens tr) = tokens.
Proof. unfold converge. repeat case_match; done. Qed.

(** The tokens of a pass are those of the Secret it read. *)
Lemma body_tokens v i s seen :
  let b := reconcile_body v i s seen in
  b_tokens b = [] ∧ (∀ p, RunPhase p ∈ b_trace b → ∀ a, c_Auth v = Some a → a_SecretName a = "") ∨
  ∃ a data, c_Auth v = Some a ∧ ai_secret (n_auth i) = inl data ∧
    b_tokens b = redaction_tokens (c_Auth v) (ai_sentinel (n_auth i)) (default "" (data !! "password")).
Proof.
  cbv zeta. unfold reconcile_body, handlePause.
  case_bool_decide; [left; split; [done|]; case_bool_decide; cbn; set_solver|].
  destruct (c_Deleting v) eqn:Ed.
  { left. unfold ensurePVCRetentionFinalizer. cbn [orb]. destruct (n_tryLock i); cbn [negb]; [|cbn; set_solver].
    rewrite Ed. pose proof (deletion_writes v (st_claims s) (n_delete i)) as Hw.
    destruct (reconcileDeletion _ _ _) as [tr [e|]]; cbn in *; set_solver. }
  destruct (ensurePVCRetentionFinalizer v false (n_finalizer i)) as [x|] eqn:Ee; [|left; cbn; set_solver].
  apply ensure_spec in Ee as ->. pose proof (finalized_spec v) as (_ & Hd & Hau & _).
  assert (Hnf : ∀ p, RunPhase p ∉ finalizer_writes v) by (intros p; unfold finalizer_writes; case_match; set_solver).
  destruct (n_tryLock i); cbn [negb]; [|left; cbn; set_solver]. rewrite Hd, Ed.
  unfold resolveAuth. rewrite Hau. destruct (c_Auth v) as [a|] eqn:Ea.
  2:{ left. destruct (detectPVCLossAndGate _ _ _ _) as [[[] ge] gtr]; cbn [negb]; [|done].
      rewrite converge_tokens. done. }
  case_bool_decide as Hs.
  { left. destruct (detectPVCLossAndGate _ _ _ _) as [[[] ge] gtr]; cbn [negb]; [rewrite converge_tokens|];
      (split; [done|]); intros p _ a' Ha'; injection Ha' as <-; exact Hs. }
  destruct (ai_secret (n_auth i)) as [data|e].
  - right. exists a, data. split; [done|]. split; [done|].
    destruct (detectPVCLossAndGate _ _ _ _) as [[[] ge] gtr]; cbn [negb]; [by rewrite converge_tokens|done].
  - left. destruct (has_kind NotFound e); [destruct (observeMissingAuthSecret _ _)|]; cbn; set_solver.
Qed.

(** The passwords of a CR are redacted while its phases run, and no longer.  A pass leaves
    the shared registry as it found it, whatever way it ends, and while its phases run the
    password the Secret holds is registered (if it is long enough to be redacted at all). *)
Theorem secrets_scoped i s seen r :
  reg_wf r →
  x_registry (Reconcile i s seen r) = r ∧
  ∀ v a data p, n_get i = None → st_cr s = Some v → c_Auth v = Some a → a_SecretName a ≠ "" → ai_secret (n_auth i) = inl data →
    RunPhase p ∈ x_trace (Reconcile i s seen r) →
    let pw := default "" (data !! "password") in
    MinTokenLen <= slen pw → ∃ c, x_during (Reconcile i s seen r) !! pw = Some c ∧ 1 <= c.
Proof.
  intros Hr. unfold Reconcile. destruct (match n_get i with Some e => _ | None => _ end) as [v|e] eqn:Eg.
  2:{ destruct (has_kind NotFound e); (split; [done|]); cbn; intros v a data p ? ? ? ? ? Hin; set_solver. }
  pose proof (body_tokens v i s seen) as Hb. cbv zeta in Hb. cbn [x_registry x_trace x_during]. split.
  - apply scopes_restored; [done|]. destruct Hb as [[-> _]|(a & data & _ & _ & ->)]; [by left|right].
    destruct (tokens_shape (c_Auth v) (ai_sentinel (n_auth i)) (default "" (data !! "password"))) as [->|(q & Hq & ->)]; eauto 6.
  - intros v' a data p Hg Hv Ha Hs Hd Hin Hlen. set (pw := default "" (data !! "password")) in *. rewrite Hg, Hv in Eg. injection Eg as <-.
    apply elem_of_app in Hin as [Hin|Hin]; [|by apply deferred_no_phase in Hin].
    destruct Hb as [[_ Hb]|(a' & data' & _ & Hd' & ->)]; [by apply (Hb p Hin) in Ha|].
    rewrite Hd in Hd'. injection Hd' as <-. fold pw.
    assert (Hreg : ∀ t x, (RegisterScoped t x).1 = Register t x).
    { intros t x. unfold RegisterScoped. destruct (slen t <? MinTokenLen) eqn:E; [|done]. unfold Register. by rewrite E. }
    assert (H1 : Register pw r !! pw = Some (default 0 (r !! pw) + 1)).
    { rewrite Register_lookup, bool_decide_eq_true_2, (proj2 (Z.leb_le _ _)) by done. done. }
    exists (default 0 (r !! pw) + 1). split.
    + destruct (tokens_shape (c_Auth v') (ai_sentinel (n_auth i)) pw) as [->|(q & Hq & ->)];
        unfold registerAuthRedaction; cbn [foldl]; rewrite !Hreg; [done|].
      rewrite Register_lookup, bool_decide_eq_false_2 by done. done.
    + destruct (r !! pw) as [c|] eqn:E; cbn; [apply Hr in E|]; lia.
Qed.

(** The key named in the spec plays no part: with a Secret that has the password under that key
    alone, the pods start with it and the operator talks to them without one. *)
Lemma secret_key_ignored v a i seen data pw :
  c_Auth v = Some a → a_SecretName a ≠ "" → ai_secret i = inl data →
  data !! "password" = None → data !! pod_secret_key a = Some pw →
  ∃ tokens seen', resolveAuth v i seen = (AuthResolved "" tokens, seen').
Proof. intros Ha Hs Hd Hn _. unfold resolveAuth. rewrite Ha, bool_decide_eq_false_2, Hd, Hn by done. eauto. Qed.

Lemma prefix_past (A B pre post : list rstep) e : e ∉ A → A ++ B = pre ++ e :: post → ∃ k, pre = A ++ k.
Proof.
  intros He E. apply app_eq_app in E as (k & [[-> Hk]|[-> _]]); [|by exists k].
  destruct k as [|x k]; [exists []; by rewrite !app_nil_r|]. injection Hk as -> _. exfalso. apply He. set_solver.
Qed.

(** The body of a pass neither forgets the CR nor writes its status. *)
Definition closing (e : rstep) : bool := match e with ForgetCR | WriteStatus _ => true | _ => false end.
Lemma body_not_closing v i s seen e : e ∈ b_trace (reconcile_body v i s seen) → closing e = false.
Proof.
  unfold reconcile_body, handlePause. case_bool_decide; [case_bool_decide; cbn; set_solver|].
  destruct (ensurePVCRetentionFinalizer v _ _) as [[v' tr]|] eqn:Ee; [|cbn; set_solver].
  assert (Htr : ∀ e, e ∈ tr → closing e = false).
  { unfold ensurePVCRetentionFinalizer in Ee. repeat case_match; simplify_eq; set_solver. }
  destruct (n_tryLock i); cbn [negb]; [|apply Htr].
  assert (Htr' : ∀ e, e ∈ tr ++ [Lock] → closing e = false) by set_solver.
  destruct (c_Deleting v').
  { pose proof (deletion_writes v' (st_claims s) (n_delete i)) as Hw.
    destruct (reconcileDeletion _ _ _) as [tr' [x|]]; cbn in *;
      intros [He|[(?&?&->)|(?&->)]%Hw]%elem_of_app; try done; by apply Htr'. }
  destruct (resolveAuth _ _ _) as [[pw tokens|rq se er] seen']; [|apply Htr'].
  pose proof (gate_trace v' (ContainsFinalizer v PVCRetentionFinalizer) (n_gate i) s) as Hg.
  destruct (detectPVCLossAndGate _ _ _ _) as [[[] ge] gtr]; cbn [negb snd] in *.
  - destruct (converge_trace v' i seen' tokens ((tr ++ [Lock]) ++ gtr)) as (k & ann & -> & Hann & _).
    intros [[He|(?&?&->)%Hg]%elem_of_app|[(?&->&_)%list_elem_of_fmap|He]%elem_of_app]%elem_of_app; try done; [by apply Htr'|].
    destruct Hann as [->|(_ & _ & ->)]; set_solver.
  - cbn. intros [He|(?&?&->)%Hg]%elem_of_app; [by apply Htr'|done].
Qed.

(** The CR's memory is dropped, and its status is written, after the lock is released. *)
Lemma closing_after_unlock i s seen r pre e post :
  x_trace (Reconcile i s seen r) = pre ++ e :: post → closing e = true → Lock ∈ pre → Unlock ∈ pre.
Proof.
  unfold Reconcile. destruct (match n_get i with Some x => _ | None => _ end) as [v|x].
  2:{ destruct (has_kind NotFound x); cbn; intros E; (destruct pre; [set_solver|]); cbn in E; injection E as _ E; by destruct pre. }
  cbn [x_trace]. set (b := reconcile_body v i s seen). intros E He Hl.
  assert (Hb : e ∉ b_trace b) by (intros H; apply body_not_closing in H; congruence).
  destruct (prefix_past _ _ _ _ _ Hb E) as (k & ->). rewrite <- app_assoc in E. apply app_inv_head in E.
  assert (Hx : existsb (λ e, match e with Lock => true | _ => false end) (b_trace b) = true).
  { apply existsb_exists. exists Lock. split; [|done]. apply list_elem_of_In.
    apply elem_of_app in Hl as [Hl|Hl]; [done|]. exfalso. assert (Lock ∈ deferred v b) as H by (rewrite E; set_solver).
    unfold deferred in H. repeat case_match; set_solver. }
  unfold deferred in E. rewrite Hx in E. set (W := (if c_Deleting v || b_contended b then _ else _) ++ _) in E.
  set (R := if bool_decide (b_tokens b = []) then _ else _) in E.
  change (R ++ (Unlock :: (if b_cleanup b then [ForgetCR] else [])) ++ W = k ++ e :: post) in E.
  replace (R ++ (Unlock :: (if b_cleanup b then [ForgetCR] else [])) ++ W) with
    ((R ++ [Unlock]) ++ (if b_cleanup b then [ForgetCR] else []) ++ W) in E by (by rewrite <- app_assoc).
  assert (HR : e ∉ R ++ [Unlock]) by (unfold R; case_bool_decide; destruct e; set_solver).
  destruct (prefix_past _ _ _ _ _ HR E) as (k' & ->). set_solver.
Qed.

(** ** Concrete passes *)
Definition demo_cr (annotations : gmap string string) (finalizers : list string) (deleting : bool) : cr_object :=
  {| c_Name := "vk"; c_UID := "uid-1"; c_Generation := 3; c_Annotations := annotations; c_Finalizers := finalizers;
     c_Deleting := deleting; c_Mode := ModeSentinel; c_Policy := ""; 
     c_Auth := Some {| a_SecretName := "vk-auth"; a_SecretKey := ""; a_SentinelSecretName := ""; a_SentinelSecretKey := "" |};
     c_Phase := "Ready" |}.
Definition demo_claims : list claim :=
  [{| cl_Name := "data-vk-0"; cl_Owners := [NewControllerRef (demo_cr ∅ [] false)]; cl_Deleting := false |};
   {| cl_Name := "data-vk-1"; cl_Owners := []; cl_Deleting := false |}].
Definition demo_phases : phase_io :=
  {| p_configmaps := Ok "hash"; p_pvcResize := Ok 0; p_serviceAccounts := None; p_statefulSet := None;
     p_sentinelInfra := Ok (5 * Second); p_services := None; p_pdb := None; p_podMonitor := None; p_roleLabels := None;
     p_readinessGates := Ok (2 * Minute); p_podRollout := Ok 0 |}.
Definition demo_pass (secret : Secret + api_error) : pass_in :=
  {| n_get := None; n_finalizer := None; n_tryLock := true;
     n_delete := {| di_list := None; di_patch := λ _, None; di_finalizer := None |};
     n_auth := {| ai_secret := secret; ai_sentinel := Err "not found"; ai_now := 100 * Second |};
     n_gate := {| gr_sts := None; gr_list := None |}; n_listPods := None; n_getSTS := None; n_observe := 0;
     n_phases := demo_phases; n_after := (false, []); n_clear := None; n_statusSTS := None;
     n_substate := None; n_watchdog := (0, 0); n_suppressed := false |}.
Definition demo_secret : Secret := {["password" := "a-long-password"]}.
Definition accepted : gmap string string := {[AcceptPVCLossAnnotation := "true"]}.
Definition demo_store (v : cr_object) (claims : list claim) : store := {| st_cr := Some v; st_claims := claims; st_sts := false |}.

Example pass_runs_phases :
  x_trace (Reconcile (demo_pass (inl demo_secret)) (demo_store (demo_cr ∅ [] false) []) zero_time ∅) =
  [PatchFinalizers [PVCRetentionFinalizer]; Lock] ++ (RunPhase <$> phase_order) ++ [ReleaseSecrets; Unlock; WriteStatus None].
Proof. vm_compute. reflexivity. Qed.
Example lost_volumes_refused :
  x_trace (Reconcile (demo_pass (inl demo_secret)) (demo_store (demo_cr ∅ [PVCRetentionFinalizer] false) []) zero_time ∅) =
  [Lock; ReleaseSecrets; Unlock;
   WriteStatus (detectPVCLossAndGate (demo_cr ∅ [] false) true {| gr_sts := None; gr_list := None |}
     {| st_cr := None; st_claims := []; st_sts := false |}).1.2].
Proof. vm_compute. reflexivity. Qed.

Lemma lost_empty v : lost (demo_store v []).
Proof. split; [reflexivity|]. intros c H. by apply not_elem_of_nil in H. Qed.

(** ** The theorems at concrete passes *)
Lemma phases_cleared_witness :
  let s := demo_store (demo_cr accepted [PVCRetentionFinalizer] false) [] in
  ∃ v, st_cr s = Some v ∧ is_paused v = false.
Proof.
  intros s. pose (o := Reconcile (demo_pass (inl demo_secret)) s zero_time ∅).
  destruct (phases_cleared (demo_pass (inl demo_secret)) s zero_time ∅ (take 2 (x_trace o)) Phase1 (drop 3 (x_trace o)))
    as (v & Hv & Hp & _).
  - vm_compute. reflexivity.
  - exists v. split; [exact Hv|exact Hp].
Defined.

Lemma deletion_respects_policy_witness :
  let v := demo_cr ∅ [PVCRetentionFinalizer] true in
  let i := demo_pass (inl demo_secret) in
  let s := demo_store v demo_claims in
  Forall (obeys v) (st_claims (replay s (x_trace (Reconcile i s zero_time ∅)))).
Proof.
  intros v i s. apply Forall_forall.
  refine (deletion_respects_policy i s zero_time ∅ v (x_trace (Reconcile i s zero_time ∅)) [] eq_refl eq_refl eq_refl _ _ _ _).
  - apply (bool_decide_unpack _). vm_compute. exact I.
  - apply (bool_decide_unpack _). vm_compute. exact I.
  - symmetry. apply app_nil_r.
  - intros v' H. vm_compute in H. discriminate H.
Defined.

Lemma requeue_bounds_witness :
  minRequeueFloor <=
  x_requeue (Reconcile (demo_pass (inr not_found)) (demo_store (demo_cr ∅ [] false) []) zero_time ∅) <=
  baselineReconcileWatchdog.
Proof.
  apply (requeue_bounds (demo_pass (inr not_found)) (demo_store (demo_cr ∅ [] false) []) zero_time ∅ (demo_cr ∅ [] false)).
  - reflexivity.
  - reflexivity.
  - reflexivity.
  - vm_compute. reflexivity.
Defined.

Lemma interrupted_bootstrap_refused_witness :
  let s := demo_store (demo_cr ∅ [] false) [] in
  let first := Reconcile (demo_pass (inr not_found)) s zero_time ∅ in
  st_cr (x_store first) = Some (with_finalizers [PVCRetentionFinalizer] (demo_cr ∅ [] false)) ∧
  Forall (λ o, ∀ p, RunPhase p ∉ x_trace o)
    (first :: run_passes [demo_pass (inl demo_secret)] (x_store first) (x_seen first) (x_registry first)).
Proof.
  intros s first.
  unshelve epose proof (interrupted_bootstrap_refused (demo_pass (inr not_found)) s zero_time ∅ (demo_cr ∅ [] false) _ not_found
    [demo_pass (inl demo_secret)] eq_refl eq_refl eq_refl eq_refl eq_refl eq_refl _ (lost_empty _) eq_refl eq_refl eq_refl _
    eq_refl eq_refl) as [H1 H2].
  - vm_compute. discriminate.
  - vm_compute. discriminate.
  - split; [unfold first; by rewrite H1|]. apply Forall_forall. intros o Ho p. exact (H2 o p Ho).
Defined.

Lemma accepted_loss_single_use_witness :
  let s := demo_store (demo_cr accepted [PVCRetentionFinalizer] false) [] in
  let s' := x_store (Reconcile (demo_pass (inl demo_secret)) s zero_time ∅) in
  ∃ v', st_cr s' = Some v' ∧ c_Annotations v' !! AcceptPVCLossAnnotation = None.
Proof.
  intros s s'.
  destruct (accepted_loss_single_use (demo_pass (inl demo_secret)) s zero_time ∅ (demo_cr accepted [PVCRetentionFinalizer] false) Phase1
    [demo_pass (inl demo_secret)]) as [H _].
  - reflexivity.
  - reflexivity.
  - reflexivity.
  - vm_compute. reflexivity.
  - vm_compute. do 2 right. left.
  - exact H.
Defined.

Lemma secrets_scoped_witness :
  x_registry (Reconcile (demo_pass (inl demo_secret)) (demo_store (demo_cr ∅ [] false) []) zero_time ∅) = ∅.
Proof.
  apply (secrets_scoped (demo_pass (inl demo_secret)) (demo_store (demo_cr ∅ [] false) []) zero_time ∅).
  intros t c H. rewrite lookup_empty in H. discriminate H.
Defined.
