(* ===== verification/SQRecords.v ===== *)
(** * The SentinelQuorum records: [internal/controller/sentinelquorum_{create,aggregate}.go]

    One SentinelQuorum object per sentinel pod carries what that sentinel answered to the
    observer's last poll.  A pass creates the objects, stamps their status from the poll
    (unless nothing changed since a recent stamp, which it recognises by a digest kept in
    memory) and, in its deferred status step, merges them back into the CR's verdict.
    The store is the namespace's SentinelQuorum objects by name; each write takes the
    API server's outcome as an input. *)
From S2P Require Import Prelude GoStd GoFmt Sha256 SentinelParse Observer SQAggregate Status DeriveState PrimaryRollout RoleLabels Recovery Defaults SentinelInfra Reconcile.
Local Open Scope Z_scope.

(** ** The objects *)
Definition ManagedByLabel : string := "app.kubernetes.io/managed-by".
Definition ManagedByValue : string := "velkir".
Definition AppNameLabel : string := "app.kubernetes.io/name".
Definition AppInstanceLabel : string := "app.kubernetes.io/instance".
Definition AppComponentLabel : string := "app.kubernetes.io/component".
Definition AppPartOfLabel : string := "app.kubernetes.io/part-of".
Definition CRLabel : string := CRLabelKey.
Definition ComponentLabel : string := ComponentLabelKey.
Definition componentSentinel : string := "sentinel".

Definition ownedLabels (name component : string) : gmap string string :=
  list_to_map [(ManagedByLabel, ManagedByValue); (AppNameLabel, "valkey"); (AppInstanceLabel, name);
               (AppComponentLabel, component); (AppPartOfLabel, "velkir"); (CRLabel, name);
               (ComponentLabel, component)].

Definition crOwnerRef (name uid : string) : OwnerReference :=
  {| or_UID := uid; or_Kind := "Valkey"; or_Name := name; or_Controller := true |}.

Record SentinelQuorum := {
  sq_Labels : gmap string string;
  sq_Owner : OwnerReference;
  sq_Valkey : string;
  sq_PodName : string;
  sq_Status : SentinelQuorumStatus
}.
Abbreviation sq_store := (gmap string SentinelQuorum).
Definition sqStatus_zero : SentinelQuorumStatus :=
  {| LastObservedTime := None; sq_ObservedPrimary := ""; QuorumReachable := None |}.

Definition buildSentinelQuorum (name uid podName : string) : SentinelQuorum :=
  {| sq_Labels := ownedLabels name componentSentinel; sq_Owner := crOwnerRef name uid;
     sq_Valkey := name; sq_PodName := podName; sq_Status := sqStatus_zero |}.

(** A server-side apply of metadata and spec: creates the object, or sets the applied
    fields and leaves the status alone. *)
Definition applied_object (b : SentinelQuorum) (old : option SentinelQuorum) : SentinelQuorum :=
  match old with
  | None => b
  | Some o => {| sq_Labels := sq_Labels b ∪ sq_Labels o; sq_Owner := sq_Owner b; sq_Valkey := sq_Valkey b;
                 sq_PodName := sq_PodName b; sq_Status := sq_Status o |}
  end.
Definition with_status (st : SentinelQuorumStatus) (o : SentinelQuorum) : SentinelQuorum :=
  {| sq_Labels := sq_Labels o; sq_Owner := sq_Owner o; sq_Valkey := sq_Valkey o; sq_PodName := sq_PodName o;
     sq_Status := st |}.

(** [apply] is the outcome of each write, by the name of the object. *)
Fixpoint reconcileSentinelQuorums (name uid : string) (apply : string → option string) (pods : list Pod) (s : sq_store) :
    option string * sq_store :=
  match pods with
  | [] => (None, s)
  | p :: pods =>
      match apply (pod_Name p) with
      | Some e => (Some ("applying SentinelQuorum " +:+ Quote (pod_Name p) +:+ ": " +:+ e), s)
      | None =>
          reconcileSentinelQuorums name uid apply pods
            (<[pod_Name p := applied_object (buildSentinelQuorum name uid (pod_Name p)) (s !! pod_Name p)]> s)
      end
  end.

(** ** The status of the records *)
Definition primaryPodNameFromAddr (addr : string) (ipToPodName : gmap string string) : string :=
  if bool_decide (addr = "") then ""
  else match SplitHostPort addr with
  | None => ""
  | Some (host, _) => default "" (ipToPodName !! host)
  end.

Definition podNamesByIP (valkeyPods : list Pod) : gmap string string :=
  foldl (λ m p, if bool_decide (pod_IP p = "") then m else <[pod_IP p := pod_Name p]> m) ∅ valkeyPods.

Record sqEntry := {
  en_name : string;
  en_primaryAddr : string;
  en_primaryPodName : string;
  en_quorumReachable : bool;
  en_reachable : bool
}.

Definition sq_entry (sentinelPods : list Pod) (ipToPodName : gmap string string) (o : EndpointObservation) : option sqEntry :=
  if existsb (λ p, bool_decide (pod_Name p = eo_Name o)) sentinelPods then
    Some {| en_name := eo_Name o; en_primaryAddr := eo_PrimaryAddr o;
            en_primaryPodName := primaryPodNameFromAddr (eo_PrimaryAddr o) ipToPodName;
            en_quorumReachable := eo_QuorumReachable o && eo_Reachable o; en_reachable := eo_Reachable o |}
  else None.

Definition sq_entries (sentinelPods valkeyPods : list Pod) (obs : list EndpointObservation) : list sqEntry :=
  sort_by (λ a b, String.ltb (en_name a) (en_name b)) (omap (sq_entry sentinelPods (podNamesByIP valkeyPods)) obs).

(** Formatting of a [bool] with [%t]. *)
Definition fmt_bool (b : bool) : string := if b then "true" else "false".
Definition nl : string := String "010"%char "".
Definition entry_line (e : sqEntry) : string :=
  en_name e +:+ "|" +:+ en_primaryAddr e +:+ "|" +:+ en_primaryPodName e +:+ "|" +:+
  fmt_bool (en_quorumReachable e) +:+ "|" +:+ fmt_bool (en_reachable e) +:+ nl.
Definition sq_text (es : list sqEntry) : string := foldr (λ e s, entry_line e +:+ s) "" es.

(** The per-CR memory of the last complete stamp. *)
Record sq_cache := { sqStatusDigest : string; sqLastObservedAt : Time }.
Definition sq_cache_zero : sq_cache := {| sqStatusDigest := ""; sqLastObservedAt := zero_time |}.

Definition sqStatusWriteSkippable (digest : string) (obsAt : Time) (c : sq_cache) : bool :=
  if negb (bool_decide (sqStatusDigest c = digest)) || IsZero (sqLastObservedAt c) then false
  else Sub obsAt (sqLastObservedAt c) <? sqKeepAliveInterval.
Definition setSQDigest (digest : string) (obsAt : Time) (c : sq_cache) : sq_cache :=
  {| sqStatusDigest := digest; sqLastObservedAt := obsAt |}.

Section status.
Context {M : MetaTime}.

Definition entry_time (obs : list EndpointObservation) (at0 : Time) (e : sqEntry) : Time :=
  match List.find (λ o, bool_decide (eo_Name o = en_name e)) obs with Some o => eo_At o | None => at0 end.

Definition stamped (t : Time) (e : sqEntry) : SentinelQuorumStatus :=
  {| LastObservedTime := Some (wire_time t); sq_ObservedPrimary := en_primaryPodName e;
     QuorumReachable := Some (en_quorumReachable e) |}.

(** The status of an object that is not there cannot be applied. *)
Fixpoint write_statuses (obs : list EndpointObservation) (at0 : Time) (apply : string → option string) (es : list sqEntry)
    (s : sq_store) : option string * sq_store :=
  match es with
  | [] => (None, s)
  | e :: es =>
      let failed r := (Some ("applying SentinelQuorum status " +:+ Quote (en_name e) +:+ ": " +:+ r), s) in
      match apply (en_name e), s !! en_name e with
      | Some r, _ => failed r
      | None, None => failed "not found"
      | None, Some o => write_statuses obs at0 apply es (<[en_name e := with_status (stamped (entry_time obs at0 e) e) o]> s)
      end
  end.

(** [obs] is [None] without an observer, and what the observer last published otherwise. *)
Definition reconcileSentinelQuorumStatus (obs : option (list EndpointObservation)) (sentinelPods valkeyPods : list Pod)
    (apply : string → option string) (c : sq_cache) (s : sq_store) : option string * sq_cache * sq_store :=
  match obs with
  | None | Some [] => (None, c, s)
  | Some ((o0 :: _) as obs) =>
      let entries := sq_entries sentinelPods valkeyPods obs in
      let digest := sha256_hex (sq_text entries) in
      if sqStatusWriteSkippable digest (eo_At o0) c then (None, c, s)
      else match write_statuses obs (eo_At o0) apply entries s with
      | (Some e, s') => (Some e, c, s')
      | (None, s') => (None, setSQDigest digest (eo_At o0) c, s')
      end
  end.
End status.

(** ** Reading the records back *)
Definition sq_of (name : string) (o : SentinelQuorum) : Prop :=
  sq_Labels o !! CRLabel = Some name ∧ sq_Labels o !! ComponentLabel = Some componentSentinel.
#[export] Instance sq_of_dec name o : Decision (sq_of name o).
Proof. unfold sq_of. apply _. Defined.
Definition sq_listed (name : string) (s : sq_store) : list SentinelQuorumStatus :=
  (λ kv, sq_Status kv.2) <$> filter (λ kv, sq_of name kv.2) (map_to_list s).

Definition sqResult_zero : SQAggregate.Result :=
  {| PrimaryPod := ""; PrimaryConfirmed := false; QuorumLost := false; ag_Quorum := QuorumStatusUnknown;
     FreshCount := 0; StaleCount := 0 |}.

Definition aggregateSentinelQuorum {R : MapRange} (mode : Mode) (spec : option SentinelSpec) (now : Time)
    (listed : result (list SentinelQuorumStatus)) : SQAggregate.Result :=
  match spec with
  | Some sp =>
      if negb (bool_decide (mode = ModeSentinel)) then sqResult_zero
      else match listed with
      | Err _ => sqResult_zero
      | Ok sqs => Aggregate now sentinelQuorumFreshnessWindow (clampQuorumToPoolMajority (sen_Quorum sp) (sen_Replicas sp)) sqs
      end
  | None => sqResult_zero
  end.

(** ** The text behind the digest determines the records

    Names of pods and printed addresses hold neither the separator nor a line break. *)
Definition plain (s : string) : Prop := has_byte "|" s = false ∧ has_byte "010" s = false.
Definition plain_entry (e : sqEntry) : Prop :=
  plain (en_name e) ∧ plain (en_primaryAddr e) ∧ plain (en_primaryPodName e).

Lemma split_at_byte c a a' b b' :
  has_byte c a = false → has_byte c a' = false → a +:+ String c b = a' +:+ String c b' → a = a' ∧ b = b'.
Proof.
  revert a'. induction a as [|x a IH]; intros [|y a'] Ha Ha' E; rewrite ?has_byte_cons in *;
    cbn in E; simplify_eq; bool_to_prop; simplify_eq; try done.
  destruct (IH a') as [-> ->]; done.
Qed.

Lemma fmt_bool_plain b : has_byte "|" (fmt_bool b) = false ∧ has_byte "010" (fmt_bool b) = false.
Proof. by destruct b. Qed.

Lemma entry_line_inj e1 e2 s1 s2 :
  plain_entry e1 → plain_entry e2 → entry_line e1 +:+ s1 = entry_line e2 +:+ s2 → e1 = e2 ∧ s1 = s2.
Proof.
  destruct e1 as [n1 a1 p1 q1 r1], e2 as [n2 a2 p2 q2 r2]. unfold plain_entry, entry_line, nl. cbn.
  intros ([Hn1 _] & [Ha1 _] & [Hp1 _]) ([Hn2 _] & [Ha2 _] & [Hp2 _]) E.
  rewrite !str_app_assoc in E. cbn [String.append] in E.
  do 3 (apply split_at_byte in E as [-> E]; [|done..]; rewrite ?str_app_assoc in E; cbn [String.append] in E).
  apply split_at_byte in E as [Hq E]; [|apply fmt_bool_plain..]. rewrite ?str_app_assoc in E; cbn [String.append] in E.
  apply split_at_byte in E as [Hr ->]; [|apply fmt_bool_plain..].
  by destruct q1, q2, r1, r2.
Qed.

Lemma sq_text_inj es1 es2 :
  Forall plain_entry es1 → Forall plain_entry es2 → sq_text es1 = sq_text es2 → es1 = es2.
Proof.
  assert (Hne : ∀ e s, plain_entry e → entry_line e +:+ s ≠ "").
  { intros e s _. unfold entry_line. by destruct (en_name e). }
  intros H. revert es2. induction H as [|e1 es1 H1 _ IH]; intros es2 [|e2 es2' H2 Hs] E; [done|..].
  - symmetry in E. by apply Hne in E.
  - by apply Hne in E.
  - apply entry_line_inj in E as [-> E]; [|done..]. f_equal. by apply IH.
Qed.

(** ** Runs of passes

    A pass creates the records and stamps them; the memory of the last stamp is lost when
    the process restarts or the pruner drops it.  [ts] holds the texts digested so far. *)
Record stamp_pass := {
  sp_obs : option (list EndpointObservation);
  sp_sentinels : list Pod;
  sp_valkeys : list Pod;
  sp_apply : string → option string
}.
Definition pass_entries (i : stamp_pass) : list sqEntry :=
  sq_entries (sp_sentinels i) (sp_valkeys i) (default [] (sp_obs i)).

(** What the observer publishes: one observation per sentinel, all of one poll. *)
Definition one_poll (i : stamp_pass) : Prop :=
  NoDup (eo_Name <$> default [] (sp_obs i)) ∧
  (∀ o1 o2, o1 ∈ default [] (sp_obs i) → o2 ∈ default [] (sp_obs i) → eo_At o1 = eo_At o2) ∧
  Forall plain_entry (pass_entries i).

Section run.
Context {M : MetaTime} (name uid : string).

Definition stamp (i : stamp_pass) (c : sq_cache) (s : sq_store) : option string * sq_cache * sq_store :=
  reconcileSentinelQuorumStatus (sp_obs i) (sp_sentinels i) (sp_valkeys i) (sp_apply i) c s.

(** Runs in which every stamp was written completely. *)
Inductive sq_run : list (list sqEntry) → sq_cache → sq_store → Prop :=
  | run_start s : sq_run [] sq_cache_zero s
  | run_create ts c s pods apply : sq_run ts c s → sq_run ts c (reconcileSentinelQuorums name uid apply pods s).2
  | run_lose ts c s : sq_run ts c s → sq_run ts sq_cache_zero s
  | run_stamp ts c s i c' s' :
      sq_run ts c s → one_poll i → stamp i c s = (None, c', s') → sq_run (pass_entries i :: ts) c' s'.

Definition no_collision (ts : list (list sqEntry)) : Prop :=
  ∀ a b, a ∈ ts → b ∈ ts → sha256_hex (sq_text a) = sha256_hex (sq_text b) → sq_text a = sq_text b.

Definition records (t : Time) (es : list sqEntry) (s : sq_store) : Prop :=
  ∀ e, e ∈ es → ∃ o, s !! en_name e = Some o ∧ sq_Status o = stamped t e.

(** The memory describes the store. *)
Definition in_sync (ts : list (list sqEntry)) (c : sq_cache) (s : sq_store) : Prop :=
  sqLastObservedAt c = zero_time ∨
  ∃ es, es ∈ ts ∧ sqStatusDigest c = sha256_hex (sq_text es) ∧ Forall plain_entry es ∧ records (sqLastObservedAt c) es s.

Lemma entries_NoDup i : one_poll i → NoDup (en_name <$> pass_entries i).
Proof.
  intros [H _]. unfold pass_entries, sq_entries. rewrite sort_by_perm. revert H.
  generalize (default [] (sp_obs i)) as obs. intros obs. induction obs as [|o obs IH]; [constructor|].
  rewrite fmap_cons, NoDup_cons. intros [Hn Hd]. cbn. destruct (sq_entry _ _ o) as [e|] eqn:E; [|by apply IH].
  rewrite fmap_cons. constructor; [|by apply IH]. unfold sq_entry in E. case_match; [|done]. simplify_eq. cbn.
  intros (e' & He' & (o' & Ho' & E')%list_elem_of_omap)%list_elem_of_fmap. unfold sq_entry in E'.
  case_match; [|done]. simplify_eq. apply Hn. cbn in He'. rewrite He'. by apply list_elem_of_fmap_2.
Qed.

Lemma create_keeps t es apply pods s : records t es s → records t es (reconcileSentinelQuorums name uid apply pods s).2.
Proof.
  revert s. induction pods as [|p pods IH]; intros s H; cbn; [done|].
  destruct (apply (pod_Name p)); [done|]. apply IH. intros e He. destruct (H e He) as (o & Ho & Hs).
  destruct (decide (en_name e = pod_Name p)) as [E|E].
  - rewrite E in *. rewrite lookup_insert_eq, Ho. by eexists.
  - rewrite lookup_insert_ne by done. eauto.
Qed.

Lemma written_statuses obs at0 apply es s s' :
  NoDup (en_name <$> es) → write_statuses obs at0 apply es s = (None, s') →
  (∀ e, e ∈ es → ∃ o, s' !! en_name e = Some o ∧ sq_Status o = stamped (entry_time obs at0 e) e) ∧
  (∀ k, k ∉ en_name <$> es → s' !! k = s !! k).
Proof.
  revert s. induction es as [|e es IH]; intros s Hd H; cbn in H; [simplify_eq; split; [by intros ? ?%not_elem_of_nil|done]|].
  rewrite fmap_cons, NoDup_cons in Hd. destruct Hd as [Hn Hd].
  destruct (apply (en_name e)); [done|]. destruct (s !! en_name e) as [o|] eqn:Eo; [|done].
  destruct (IH _ Hd H) as [H1 H2]. split.
  - intros e' [->|He]%elem_of_cons; [|by apply H1]. rewrite H2, lookup_insert_eq by done. by eexists.
  - intros k Hk. rewrite fmap_cons in Hk. apply not_elem_of_cons in Hk as [Hne Hk]. rewrite H2, lookup_insert_ne; done.
Qed.

Lemma entry_time_poll i obs o0 e :
  sp_obs i = Some (o0 :: obs) → one_poll i → entry_time (o0 :: obs) (eo_At o0) e = eo_At o0.
Proof.
  intros Ho (_ & Ht & _). rewrite Ho in Ht. unfold entry_time. destruct (List.find _ _) as [o|] eqn:E; [|done].
  apply List.find_some in E as [E _]. apply list_elem_of_In in E. apply Ht; [done|]. constructor.
Qed.

(** A stamp either was written, or was skipped because the memory matched. *)
Lemma stamp_cases i c s c' s' o0 obs :
  one_poll i → sp_obs i = Some (o0 :: obs) → stamp i c s = (None, c', s') →
  (sqStatusDigest c = sha256_hex (sq_text (pass_entries i)) ∧ sqLastObservedAt c ≠ zero_time ∧
   Sub (eo_At o0) (sqLastObservedAt c) < sqKeepAliveInterval ∧ c' = c ∧ s' = s) ∨
  (c' = {| sqStatusDigest := sha256_hex (sq_text (pass_entries i)); sqLastObservedAt := eo_At o0 |} ∧
   records (eo_At o0) (pass_entries i) s').
Proof.
  intros Hp Ho. unfold stamp, reconcileSentinelQuorumStatus, pass_entries. rewrite Ho. cbn [default]. cbv zeta.
  pose proof (entries_NoDup i Hp) as Hd. unfold pass_entries in Hd. rewrite Ho in Hd. cbn [default] in Hd.
  destruct (sqStatusWriteSkippable _ _ _) eqn:Es.
  - intros [= <- <-]. left. unfold sqStatusWriteSkippable in Es. case_match eqn:E; [done|]. bool_to_prop.
    split_and!; try done. unfold IsZero in *. by apply Z.eqb_neq.
  - destruct (write_statuses _ _ _ _ _) as [[e|] s''] eqn:Ew; [done|]. intros [= <- <-]. right. split; [done|].
    apply written_statuses in Ew as [H _]; [|done]. intros e He. destruct (H e He) as (o & ? & Hs).
    exists o. split; [done|]. by rewrite (entry_time_poll i) in Hs.
Qed.

Lemma sq_run_sync ts c s : sq_run ts c s → in_sync ts c s.
Proof.
  induction 1 as [s|ts c s pods apply _ IH|ts c s _ _|ts c s i c' s' _ IH Hp Hs].
  - by left.
  - destruct IH as [IH|(es & ? & ? & ? & ?)]; [by left|]. right. exists es. split_and!; try done. by apply create_keeps.
  - by left.
  - destruct (sp_obs i) as [[|o0 obs]|] eqn:Eo.
    1,3: unfold stamp, reconcileSentinelQuorumStatus in Hs; rewrite Eo in Hs; simplify_eq;
      destruct IH as [IH|(es & ? & ?)]; [by left|]; right; exists es; split; [by constructor|done].
    destruct (stamp_cases i c s c' s' o0 obs Hp Eo Hs) as [(_ & _ & _ & -> & ->)|[-> Hr]].
    + destruct IH as [IH|(es & ? & ?)]; [by left|]. right. exists es. split; [by constructor|done].
    + right. exists (pass_entries i). cbn. split_and!; [constructor|done|apply Hp|done].
Qed.

(** After a complete pass the records hold this poll, with a stamp at most one keep-alive old. *)
Lemma records_current ts c s i c' s' o0 obs :
  sq_run ts c s → one_poll i → no_collision (pass_entries i :: ts) → sp_obs i = Some (o0 :: obs) →
  stamp i c s = (None, c', s') →
  ∃ t, eo_At o0 - t < sqKeepAliveInterval ∧ records t (pass_entries i) s'.
Proof.
  intros Hr Hp Hc Ho Hs. destruct (stamp_cases i c s c' s' o0 obs Hp Ho Hs) as [(Hd & Hz & Hk & -> & ->)|[-> H]].
  2:{ exists (eo_At o0). split; [|done]. rewrite Z.sub_diag. by vm_compute. }
  destruct (sq_run_sync _ _ _ Hr) as [H|(es & Hin & Hd' & Hpl & Hrec)]; [done|].
  assert (pass_entries i = es) as ->.
  { apply sq_text_inj; [apply Hp|done|]. apply Hc; [constructor|by constructor|congruence]. }
  exists (sqLastObservedAt c). split; [|done].
  apply Z.nle_gt. intros Hle. apply Z.lt_nge in Hk. apply Hk. apply Sub_ge_iff; [by vm_compute|done].
Qed.

(** The records listed for the CR are those of the sentinels polled. *)
Definition ensemble (es : list sqEntry) (s : sq_store) : Prop :=
  ∀ k o, s !! k = Some o → sq_of name o ↔ k ∈ en_name <$> es.

Lemma listed_perm t es s :
  NoDup (en_name <$> es) → records t es s → ensemble es s → sq_listed name s ≡ₚ stamped t <$> es.
Proof.
  intros Hd Hr He. set (obj e := default (buildSentinelQuorum name uid "") (s !! en_name e)).
  assert (Hp : filter (λ kv, sq_of name kv.2) (map_to_list s) ≡ₚ (λ e, (en_name e, obj e)) <$> es).
  { apply NoDup_Permutation; [apply NoDup_filter, NoDup_map_to_list|..].
    - apply (NoDup_fmap_1 fst). by rewrite <- list_fmap_compose.
    - intros [k o]. rewrite list_elem_of_filter, elem_of_map_to_list. cbn [snd]. split.
      + intros [Ho Hk]. apply (He k o Hk) in Ho. apply list_elem_of_fmap in Ho as (e & -> & Hin).
        apply list_elem_of_fmap. exists e. unfold obj. by rewrite Hk.
      + intros (e & [= -> ->] & Hin)%list_elem_of_fmap. destruct (Hr e Hin) as (o & Ho & _). unfold obj. rewrite Ho. cbn.
        split; [|done]. apply (He _ _ Ho). by apply list_elem_of_fmap_2. }
  unfold sq_listed. rewrite Hp, <- list_fmap_compose. apply eq_subrelation; [apply _|]. apply list_fmap_ext.
  intros j e Hj%list_elem_of_lookup_2. destruct (Hr e Hj) as (o & Ho & Hs). cbn. unfold obj. by rewrite Ho.
Qed.

Lemma count_fmap {A B} (f : A → B) (p : B → bool) (l : list A) : count p (f <$> l) = count (λ x, p (f x)) l.
Proof. induction l as [|x l IH]; [done|]. cbn. by rewrite IH. Qed.
Lemma count_all {A} (p : A → bool) (l : list A) : (∀ x, p x = true) → count p l = length l.
Proof. intros H. induction l as [|x l IH]; [done|]. cbn. by rewrite H, IH. Qed.

Lemma stamped_fresh t now e :
  Second <= t → now - t < sentinelQuorumFreshnessWindow - Second → fresh now sentinelQuorumFreshnessWindow (stamped t e) = true.
Proof.
  intros Ht Hn. unfold fresh, stamped. cbn. pose proof (wire_time_le t). pose proof (wire_time_gt t).
  unfold IsZero. rewrite (proj2 (Z.eqb_neq _ _)) by (unfold zero_time in *; lia). cbn. apply Z.leb_le, Sub_le_iff; [by vm_compute|].
  lia.
Qed.

(** C19: what the CR reports is what the sentinels said.  In any run of passes whose stamps
    were written, with restarts and lost memory in between, take a pass over a poll of the
    whole ensemble and merge the records within 29 seconds of that poll: pod [p] is
    confirmed as primary exactly when a strict majority of the sentinels polled name [p],
    and the quorum is OK exactly when at least the quorum, and at least a majority of the
    declared sentinels, reported it.  The writes that the digest lets the operator skip
    lose nothing, and no record ages out while polls arrive. *)
Theorem status_reflects_poll {R : MapRange} sp ts c s i c' s' o0 obs now :
  sq_run ts c s → one_poll i → no_collision (pass_entries i :: ts) → sp_obs i = Some (o0 :: obs) →
  stamp i c s = (None, c', s') → ensemble (pass_entries i) s' →
  sqKeepAliveInterval + Second <= eo_At o0 → now - eo_At o0 <= sqKeepAliveInterval - Second →
  let es := pass_entries i in
  let r := aggregateSentinelQuorum ModeSentinel (Some sp) now (Ok (sq_listed name s')) in
  (∀ p, PrimaryConfirmed r = true ∧ PrimaryPod r = p ↔
        p ≠ "" ∧ len es < 2 * Z.of_nat (count (λ e, bool_decide (en_primaryPodName e = p)) es)) ∧
  (ag_Quorum r = QuorumStatusOK ↔
     es ≠ [] ∧ clampQuorumToPoolMajority (sen_Quorum sp) (sen_Replicas sp) <= Z.of_nat (count en_quorumReachable es)).
Proof.
  intros Hr Hp Hc Ho Hs He Ha Hn. cbv zeta.
  destruct (records_current ts c s i c' s' o0 obs Hr Hp Hc Ho Hs) as (t & Ht & Hrec).
  pose proof (listed_perm t _ _ (entries_NoDup i Hp) Hrec He) as Hl.
  unfold aggregateSentinelQuorum. rewrite bool_decide_true by done. cbn [negb].
  set (q := clampQuorumToPoolMajority _ _). set (es := pass_entries i) in *.
  assert (Hf : ∀ e, fresh now sentinelQuorumFreshnessWindow (stamped t e) = true).
  { intros e. change sentinelQuorumFreshnessWindow with (2 * sqKeepAliveInterval).
    apply stamped_fresh; [lia|]. change sentinelQuorumFreshnessWindow with (2 * sqKeepAliveInterval). lia. }
  pose proof (tallies_spec now sentinelQuorumFreshnessWindow (sq_listed name s') tallies_zero) as (Hfr & _).
  split.
  - intros p. rewrite aggregate_primary_iff. cbn [FreshCount Aggregate]. rewrite Hfr. cbn [tallies_zero t_fresh].
    rewrite !(count_perm _ _ _ Hl), !count_fmap, count_all by done. unfold len. rewrite Z.add_0_l.
    erewrite (count_ext _ (λ e, bool_decide (en_primaryPodName e = p))); [done|]. intros e _. by rewrite Hf.
  - destruct (aggregate_quorum_verdict now sentinelQuorumFreshnessWindow q (sq_listed name s')) as (_ & -> & _).
    rewrite !(count_perm _ _ _ Hl), !count_fmap, count_all by done.
    erewrite (count_ext _ en_quorumReachable).
    2:{ intros e _. unfold reports_quorum. rewrite Hf. cbn. by destruct (en_quorumReachable e). }
    destruct es; cbn [length]; [|naive_solver lia]. split; [lia|]. by intros [? _].
Qed.
End run.

(** ** Concrete passes: three sentinels, two data pods *)
Definition sq_pod (name ip : string) : Pod :=
  {| pod_Name := name; pod_Labels := ∅; pod_DeletionTimestamp := None; pod_IP := ip; pod_NodeName := "";
     pod_Conditions := []; pod_ReadinessGates := [] |}.
Definition sq_sentinels : list Pod :=
  [sq_pod "vk-sentinel-0" "10.1.0.1"; sq_pod "vk-sentinel-1" "10.1.0.2"; sq_pod "vk-sentinel-2" "10.1.0.3"].
Definition sq_o (name addr : string) (at_ : Time) : EndpointObservation :=
  {| eo_Name := name; eo_PrimaryAddr := addr; eo_QuorumReachable := true; eo_Reachable := true; eo_At := at_;
     eo_KnownReplicas := 1; eo_KnownSentinels := 2; eo_CountsValid := true |}.
Definition sq_obs (addr : string) (at_ : Time) : list EndpointObservation :=
  [sq_o "vk-sentinel-0" addr at_; sq_o "vk-sentinel-1" addr at_; sq_o "vk-sentinel-2" addr at_].
Definition sq_pass (addr : string) (at_ : Time) (apply : string → option string) : stamp_pass :=
  {| sp_obs := Some (sq_obs addr at_); sp_sentinels := sq_sentinels;
     sp_valkeys := [sq_pod "vk-0" "10.0.0.1"; sq_pod "vk-1" "10.0.0.2"]; sp_apply := apply |}.
Definition sq_created : sq_store := (reconcileSentinelQuorums "vk" "u1" (λ _, None) sq_sentinels ∅).2.
Definition sq_spec : SentinelSpec :=
  {| sen_MasterName := "mymaster"; sen_Replicas := 3; sen_Quorum := 2;
     sen_Tuning := {| DownAfterMilliseconds := 3000; FailoverTimeout := 180000; ParallelSyncs := 1 |} |}.
Definition no_failure (_ : string) : option string := None.
Definition third_fails (n : string) : option string := if bool_decide (n = "vk-sentinel-2") then Some "timeout" else None.

(** Two polls of the same content, ten seconds apart: the second writes nothing. *)
Definition sq_after : option string * sq_cache * sq_store :=
  Eval vm_compute in stamp (M := floor_second) (sq_pass "10.0.0.1:6379" (100 * Second) no_failure) sq_cache_zero sq_created.

Lemma sq_pass_one_poll at_ apply : one_poll (sq_pass "10.0.0.1:6379" at_ apply).
Proof.
  split_and!.
  - by apply (bool_decide_eq_true_1 _); vm_compute.
  - intros o1 o2 H1 H2. cbn in H1, H2. set_solver.
  - repeat constructor.
Qed.

Lemma status_reflects_poll_witness :
  let r := aggregateSentinelQuorum (R := range_forward) ModeSentinel (Some sq_spec) (115 * Second) (Ok (sq_listed "vk" sq_after.2)) in
  PrimaryConfirmed r = true ∧ PrimaryPod r = "vk-0" ∧ ag_Quorum r = QuorumStatusOK.
Proof.
  destruct (status_reflects_poll (M := floor_second) "vk" "u1" (R := range_forward) sq_spec
    [pass_entries (sq_pass "10.0.0.1:6379" (100 * Second) no_failure)] sq_after.1.2 sq_after.2
    (sq_pass "10.0.0.1:6379" (110 * Second) third_fails) sq_after.1.2 sq_after.2
    (sq_o "vk-sentinel-0" "10.0.0.1:6379" (110 * Second)) (tail (sq_obs "10.0.0.1:6379" (110 * Second))) (115 * Second))
    as [H1 H2].
  - eapply run_stamp; [|apply sq_pass_one_poll|].
    + apply (run_create (M := floor_second) "vk" "u1" [] sq_cache_zero ∅ sq_sentinels no_failure). constructor.
    + vm_compute; reflexivity.
  - apply sq_pass_one_poll.
  - intros a b Ha Hb _. 
    apply elem_of_cons in Ha as [->|Ha%list_elem_of_singleton]; [|rewrite Ha];
    apply elem_of_cons in Hb as [->|Hb%list_elem_of_singleton]; rewrite ?Hb; reflexivity.
  - done.
  - vm_compute; reflexivity.
  - apply (bool_decide_unpack (map_Forall (λ k o, sq_of "vk" o ↔
      k ∈ en_name <$> pass_entries (sq_pass "10.0.0.1:6379" (110 * Second) third_fails)) sq_after.2)). by vm_compute.
  - by vm_compute.
  - by vm_compute.
  - destruct (H1 "vk-0") as [_ Hp]. destruct Hp as [Hp1 Hp2]; [split; [done|by vm_compute]|].
    split_and!; [exact Hp1|exact Hp2|]. apply H2. split; [done|by vm_compute].
Defined.

(** A stamp that failed half-way is not noticed when the content returns.  The digest in
    memory is that of the last complete stamp, although records were overwritten since:
    here every sentinel named vk-0, then every sentinel named vk-1 for one poll, whose
    third write failed, then every sentinel named vk-0 again; the last pass skips the
    writes, reports success, and the CR's primary reads vk-1. *)
Theorem partial_write_masked :
  let pass addr t apply := sq_pass addr (t * Second) apply in
  let '(e1, c1, s1) := stamp (M := floor_second) (pass "10.0.0.1:6379" 100 no_failure) sq_cache_zero sq_created in
  let '(e2, c2, s2) := stamp (M := floor_second) (pass "10.0.0.2:6379" 110 third_fails) c1 s1 in
  let '(e3, c3, s3) := stamp (M := floor_second) (pass "10.0.0.1:6379" 120 no_failure) c2 s2 in
  let r := aggregateSentinelQuorum (R := range_forward) ModeSentinel (Some sq_spec) (121 * Second) (Ok (sq_listed "vk" s3)) in
  e1 = None ∧ is_Some e2 ∧ e3 = None ∧
  (en_primaryPodName <$> pass_entries (pass "10.0.0.1:6379" 120 no_failure)) = ["vk-0"; "vk-0"; "vk-0"] ∧
  PrimaryConfirmed r = true ∧ PrimaryPod r = "vk-1".
Proof. vm_compute. split_and!; [reflexivity|eexists; reflexivity|reflexivity..]. Qed.
