(* ===== verification/StatusUpdate.v ===== *)
(** * The status write: [updateStatus] and the watchdog of [internal/controller/valkey_controller.go]

    The deferred step of a pass gathers what the pass and the per-CR memory know, evaluates
    the conditions ([Status]), and patches the CR's status with the difference to the copy
    held in memory.  Two copies of the status are kept: [mem], the object the pass works
    on, and [stored], the server's; a merge patch changes only the fields in which the
    patched copy differs from [mem].  The clock readings, the list of pods and the outcome
    of the patch are inputs; gauges are left out. *)
From S2P Require Import Prelude GoStd GoFmt Fsm Observer SQAggregate Status PvcResize DeriveState PrimaryRollout RoleLabels OrphanMaster QuorumGate Recovery ApiTypes Defaults ScaleGuard ReadinessGate SentinelInfra Reconcile SQRecords.
Local Open Scope Z_scope.

#[export] Instance Condition_eq_dec : EqDecision Condition.
Proof. solve_decision. Defined.
#[export] Instance MasterAware_eq_dec : EqDecision Watchdog.MasterAwareRolloutStatus.
Proof. solve_decision. Defined.

(** ** The library that sets a condition

    [meta.SetStatusCondition] of apimachinery, as far as the fields kept here go: the
    condition of that type becomes the given one, the others stay. *)
Class ConditionSetter := {
  SetStatusCondition : list Condition → Condition → list Condition;
  set_condition_same cs c : findCondition (SetStatusCondition cs c) (Type_ c) = Some c;
  set_condition_other cs c t : t ≠ Type_ c → findCondition (SetStatusCondition cs c) t = findCondition cs t
}.

Fixpoint set_first (cs : list Condition) (c : Condition) : list Condition :=
  match cs with
  | [] => [c]
  | x :: cs => if bool_decide (Type_ x = Type_ c) then c :: cs else x :: set_first cs c
  end.

Definition set_in_place : ConditionSetter.
Proof.
  refine {| SetStatusCondition := set_first |}; unfold findCondition.
  - intros cs c. induction cs as [|x cs IH]; cbn; [by rewrite bool_decide_true|].
    destruct (bool_decide (Type_ x = Type_ c)) eqn:E; cbn; [by rewrite bool_decide_true|]. by rewrite E.
  - intros cs c t Ht. induction cs as [|x cs IH]; cbn; [by rewrite bool_decide_false|].
    destruct (bool_decide (Type_ x = Type_ c)) eqn:E; cbn; [|by rewrite IH].
    apply bool_decide_eq_true in E. rewrite E. by rewrite !bool_decide_false.
Defined.

(** ** What the status is computed from *)
Record status_cr := {
  k_Generation : Z;
  k_Mode : Mode;
  k_Replicas : Z;
  k_BootstrapNode : bool;
  k_DownAfter : option Z;              (* [None] without a sentinel spec *)
  k_GateEnabled : option bool
}.

(** A nil [Rollout] reads as a nil substate. *)
Record cr_status := {
  s_Conditions : list Condition;
  s_Phase : option Status.Phase;
  s_MasterAware : option Watchdog.MasterAwareRolloutStatus;
  s_PrimaryPod : string
}.

Definition masterInfoProbeFreshnessWindow : Duration := 2 * sqKeepAliveInterval.

Definition masterLostFromTimeout (since : option Time) (observedAt : Time) (downAfterMillis : Z) (now : Time) : bool :=
  match since with
  | None => false
  | Some t =>
      if downAfterMillis <=? 0 then false
      else if IsZero observedAt || (masterInfoProbeFreshnessWindow <? Sub now observedAt) then false
      else downAfterMillis * Millisecond <=? Sub now t
  end.

(** [GateEnabled] and [ReadyReplicas] of the observation. *)
Definition observeReplicationHealthy (cr : status_cr) (pods : result (list gate_pod)) : bool * Z :=
  if bool_decide (k_Mode cr = ModeStandalone) then (false, 0)
  else if negb (default false (k_GateEnabled cr)) then (false, 0)
  else match pods with
  | Err _ => (true, 0)
  | Ok pods =>
      (true, Z.of_nat (count (λ p, bool_decide (g_role p = roleValueReplica) &&
        match findReplicationCondition p with Some c => bool_decide (pc_Status c = "True") | None => false end) pods))
  end.

Record status_in := {
  u_sts : option Status.StatefulSet;
  u_err : bool;                        (* the pass failed *)
  u_paused : bool;
  u_watchdog : Watchdog.Result;
  u_sq : SQAggregate.Result;
  u_split : bool;
  u_noMaster : bool;
  u_nowStuck : Time;
  u_nowLost : Time;
  u_nowTopology : Time;
  u_nowDual : Time;
  u_pods : result (list gate_pod);
  u_patch : option api_error
}.

(** The observation, and the memory after its expired entries are dropped. *)
Definition status_observation (cr : status_cr) (i : status_in) (mem : cr_status) (q : crQuorumState) (d : dual_state) :
    Observation * crQuorumState * dual_state :=
  let '(stuck, suppressed, lost, (topology, sentinelDeficit, replicaDeficit), q) :=
    if bool_decide (k_Mode cr = ModeSentinel) then
      let '(stuck, t) := strandedLinkupStuckActiveOrExpire (u_nowStuck i) (q_stranded q) in
      let q := put_stranded t q in
      let suppressed := QuorumGate.suppressionActive (q_gate q) in
      let lost := masterLostFromTimeout (masterInfoTimeoutSince (q_master q)) (masterInfoObservedAt (q_master q))
                    (default 0 (k_DownAfter cr)) (u_nowLost i) in
      let '(x, t) := topologyMismatchActiveOrExpire (u_nowTopology i) (q_topology q) in
      (stuck, suppressed, lost, x, put_topology t q)
    else (false, false, false, (false, 0, 0), q) in
  let '(dual, d) :=
    if bool_decide (k_Mode cr = ModeStandalone) then (false, d) else dualMasterActiveOrExpire (u_nowDual i) d in
  let '(gate, ready) := observeReplicationHealthy cr (u_pods i) in
  ({| o_CR := Some {| Generation := k_Generation cr; SpecMode := k_Mode cr; Replicas := k_Replicas cr;
                      BootstrapNode := k_BootstrapNode cr; Conditions := s_Conditions mem |};
      Status.STS := u_sts i; ReconcileError := u_err i; Paused := u_paused i; RolloutWatchdog := u_watchdog i;
      Status.SentinelQuorum := u_sq i; SplitBrainActive := u_split i; NoMasterAgreementActive := u_noMaster i;
      MasterLostActive := lost; DualMasterActive := dual; SentinelPeerLinkupStuckActive := stuck;
      QuorumSuppressionActive := suppressed; GateEnabled := gate; ReadyReplicaPeers := ready;
      SentinelTopologyMismatchActive := topology; SentinelTopologySentinelDeficit := sentinelDeficit;
      SentinelTopologyReplicaDeficit := replicaDeficit |}, q, d).

(** ** The patch *)
Section update.
Context {C : ConditionSetter} (recorder : bool).

Definition patched_status (i : status_in) (o : Observation) (mem : cr_status) : cr_status :=
  let '(conds, phase) := Evaluate o in
  {| s_Conditions := foldl SetStatusCondition (s_Conditions mem) conds;
     s_Phase := Some phase;
     s_MasterAware := if Watchdog.Active (u_watchdog i) && Watchdog.Expired (u_watchdog i)
                      then Some Watchdog.Disarm else s_MasterAware mem;
     s_PrimaryPod := SQAggregate.PrimaryPod (u_sq i) |}.

(** A merge patch: the fields that differ from [v] are sent, the others stay as stored. *)
Definition merged {A} `{EqDecision A} (v p s : A) : A := if bool_decide (v = p) then s else p.
Definition merge_patch (v p s : cr_status) : cr_status :=
  {| s_Conditions := merged (s_Conditions v) (s_Conditions p) (s_Conditions s);
     s_Phase := merged (s_Phase v) (s_Phase p) (s_Phase s);
     s_MasterAware := merged (s_MasterAware v) (s_MasterAware p) (s_MasterAware s);
     s_PrimaryPod := merged (s_PrimaryPod v) (s_PrimaryPod p) (s_PrimaryPod s) |}.

Definition degraded_resolved : event :=
  CREvent false "DegradedResolved" "DegradedResolve" "Degraded condition flipped True->False".

Record status_out := {
  us_err : option api_error;
  us_stored : cr_status;
  us_events : list event;
  us_quorum : crQuorumState;
  us_dual : dual_state
}.

Definition updateStatus (cr : status_cr) (i : status_in) (mem stored : cr_status) (q : crQuorumState) (d : dual_state) :
    status_out :=
  let '(o, q, d) := status_observation cr i mem q d in
  let p := patched_status i o mem in
  match u_patch i with
  | Some e =>
      {| us_err := if has_kind Conflict e then None else Some e; us_stored := stored; us_events := [];
         us_quorum := q; us_dual := d |}
  | None =>
      (* the patched copy becomes what the server answers *)
      let p := merge_patch mem p stored in
      {| us_err := None; us_stored := p;
         us_events := if recorder && DegradedFlippedFalse (s_Conditions mem) (s_Conditions p) then [degraded_resolved] else [];
         us_quorum := q; us_dual := d |}
  end.
End update.

(** ** The deferred step of a pass *)
Record defer_in := {
  f_paused : bool;
  f_err : bool;
  f_sts : option Status.StatefulSet;
  f_nowCheck : Time;
  f_nowUntil : Time;
  f_nowAggregate : Time;
  f_records : result (list SentinelQuorumStatus);
  f_snapSplit : option Snapshot;
  f_snapMaster : option Snapshot;
  f_masterPods : option (list Pod);
  f_nows : Time * Time * Time * Time;
  f_pods : result (list gate_pod);
  f_patch : option api_error
}.

(** The event of an expired watchdog. *)
Definition stall_events (recorder : bool) (wd : Watchdog.Result) : list event :=
  if recorder && Watchdog.Active wd && Watchdog.Expired wd then
    [CREvent true "RolloutStalled" "RolloutStallObserve"
       ("replica-readiness watchdog expired waiting for pod " +:+ Quote (Watchdog.PodName wd) +:+
        " (deadline " +:+ FormatUTC (Watchdog.Deadline wd) +:+ ")")]
  else [].

Definition status_input {R : MapRange} (cr : status_cr) (spec : option SentinelSpec) (x : defer_in) (mem : cr_status) : status_in :=
  let '(nowStuck, nowLost, nowTopology, nowDual) := f_nows x in
  {| u_sts := f_sts x; u_err := f_err x; u_paused := f_paused x;
     u_watchdog := (evaluateRolloutWatchdog (s_MasterAware mem) (f_paused x) (f_nowCheck x) (f_nowUntil x)).1;
     u_sq := aggregateSentinelQuorum (k_Mode cr) spec (f_nowAggregate x) (f_records x);
     u_split := observeSplitBrain (k_Mode cr) (f_snapSplit x);
     u_noMaster := observeNoMasterAgreement (k_Mode cr) (f_snapMaster x) (f_masterPods x);
     u_nowStuck := nowStuck; u_nowLost := nowLost; u_nowTopology := nowTopology; u_nowDual := nowDual;
     u_pods := f_pods x; u_patch := f_patch x |}.

Definition status_defer {R : MapRange} {C : ConditionSetter} (recorder : bool) (cr : status_cr) (spec : option SentinelSpec)
    (x : defer_in) (mem stored : cr_status) (q : crQuorumState) (d : dual_state) : status_out :=
  let i := status_input cr spec x mem in
  let out := updateStatus recorder cr i mem stored q d in
  {| us_err := us_err out; us_stored := us_stored out; us_events := stall_events recorder (u_watchdog i) ++ us_events out;
     us_quorum := us_quorum out; us_dual := us_dual out |}.

(** ** Lemmas: what ends up in the status *)
Section lemmas.
Context {C : ConditionSetter} (recorder : bool).

Lemma set_all_other conds cs t :
  t ∉ Type_ <$> conds → findCondition (foldl SetStatusCondition cs conds) t = findCondition cs t.
Proof.
  revert cs. induction conds as [|c conds IH]; intros cs Ht; [done|]. rewrite fmap_cons in Ht.
  apply not_elem_of_cons in Ht as [Hc Ht]. cbn [foldl]. rewrite IH by done. by apply set_condition_other.
Qed.

Lemma set_all_find conds cs c t :
  NoDup (Type_ <$> conds) → findCondition conds t = Some c → findCondition (foldl SetStatusCondition cs conds) t = Some c.
Proof.
  revert cs. induction conds as [|x conds IH]; intros cs Hd Hf; [done|].
  rewrite fmap_cons, NoDup_cons in Hd. destruct Hd as [Hn Hd]. unfold findCondition in Hf. cbn in Hf.
  case_bool_decide as E; [|by apply IH]. simplify_eq. cbn [foldl]. rewrite set_all_other by done. apply set_condition_same.
Qed.

Lemma evaluated_types o : NoDup (Type_ <$> (Evaluate o).1).
Proof.
  rewrite Evaluate_conds, <- list_fmap_compose.
  assert (((Type_ ∘ (λ e, match o_CR o with Some v => stamp_generation (Generation v) (e o) | None => e o end)) <$> evaluators)
          = condition_types) as ->.
  { rewrite <- (eval_types o). apply list_fmap_ext. intros ? e _. cbn. by destruct (o_CR o). }
  refine (bool_decide_unpack _ _). by vm_compute.
Qed.

Lemma merged_fresh {A} `{EqDecision A} (v p : A) : merged v p v = p.
Proof. unfold merged. by case_bool_decide. Qed.
Lemma merged_same {A} `{EqDecision A} (v s : A) : merged v v s = s.
Proof. unfold merged. by rewrite bool_decide_true. Qed.

(** A pass that works on the stored status and whose patch is accepted stores the verdicts. *)
Lemma stored_verdict cr i mem q d k e t :
  u_patch i = None → evaluators !! k = Some e → condition_types !! k = Some t →
  let o := (status_observation cr i mem q d).1.1 in
  ∃ c, findCondition (s_Conditions (us_stored (updateStatus recorder cr i mem mem q d))) t = Some c ∧
       Status c = Status (e o) ∧ c_Reason c = c_Reason (e o).
Proof.
  intros Hp Hk Ht. cbv zeta. unfold updateStatus. destruct (status_observation cr i mem q d) as [[o q'] d'] eqn:Eo.
  rewrite Hp. cbn [us_stored s_Conditions merge_patch fst]. rewrite merged_fresh. unfold patched_status.
  destruct (Evaluate_find o k e t Hk Ht) as (c & Hc & Hs & Hr & _).
  pose proof (evaluated_types o) as Hd. destruct (Evaluate o) as [conds ph]. cbn [s_Conditions fst] in *.
  exists c. split; [by apply set_all_find|done].
Qed.

(** The alarms of the evaluators come from their flags. *)
Lemma ready_alarm o :
  (c_Reason (evalReady o) = "MasterLost" → MasterLostActive o = true) ∧
  (c_Reason (evalReady o) = "DualMasterDivergence" → DualMasterActive o = true).
Proof. unfold evalReady. cbv zeta. repeat case_match; done. Qed.

Lemma degraded_alarm o :
  (c_Reason (evalDegraded o) = "DualMasterDivergence" → DualMasterActive o = true) ∧
  (c_Reason (evalDegraded o) = "SentinelPeerLinkupStuck" → SentinelPeerLinkupStuckActive o = true).
Proof. unfold evalDegraded. cbv zeta. repeat case_match; done. Qed.

Lemma topology_alarm o :
  c_Reason (evalSentinelTopology o) = "SentinelTopologyMismatch" → SentinelTopologyMismatchActive o = true.
Proof. unfold evalSentinelTopology. cbv zeta. repeat case_match; try done. intros _. by apply negb_false_iff. Qed.

Lemma master_lost_evidence since at_ da now :
  masterLostFromTimeout since at_ da now = true →
  ∃ t, since = Some t ∧ 0 < da ∧ da * Millisecond <= Sub now t ∧ at_ ≠ zero_time ∧
       Sub now at_ <= masterInfoProbeFreshnessWindow.
Proof.
  unfold masterLostFromTimeout, IsZero. destruct since as [t|]; [|done]. repeat case_match; try done.
  intros Hd. bool_to_prop. exists t. split_and!; try done. by apply Z.eqb_neq.
Qed.

Lemma dual_active now d b d' :
  dualMasterActiveOrExpire now d = (b, d') →
  (b = true → dualMasterActiveFromStamp (dualMasterObserved d) now = true) ∧
  (∀ ob, dualMasterObserved d' = Some ob → dualMasterActiveFromStamp (Some ob) now = true).
Proof.
  unfold dualMasterActiveOrExpire. destruct (dualMasterActiveFromStamp _ _) eqn:E.
  - intros [= <- <-]. split; [done|]. intros ob Ho. by rewrite Ho in E.
  - destruct (dualMasterObserved d) eqn:Ed; intros [= <- <-]; (split; [done|]); intros ob Ho; [done|congruence].
Qed.

Lemma dual_evidence ob now :
  dualMasterActiveFromStamp (Some ob) now = true → 2 <= len (ob_pods ob) ∧ Sub now (observedAt ob) <= Minute.
Proof. unfold dualMasterActiveFromStamp. case_match eqn:E; [done|]. intros H. bool_to_prop. done. Qed.

Lemma stuck_active now t b t' :
  strandedLinkupStuckActiveOrExpire now t = (b, t') → b = true →
  strandedLinkupStuck t = true ∧ Sub now (strandedLinkupStuckAt t) <= strandedLinkupStuckFreshnessWindow.
Proof.
  unfold strandedLinkupStuckActiveOrExpire. destruct (_ && _) eqn:E; [bool_to_prop; done|].
  case_match; intros [= <- _]; done.
Qed.

Lemma topology_active now t b sd rd t' :
  topologyMismatchActiveOrExpire now t = ((b, sd, rd), t') → b = true →
  Sub now (topologyMismatchObservedAt t) <= topologyMismatchFreshnessWindow.
Proof. unfold topologyMismatchActiveOrExpire. case_match eqn:E; intros [= <- _ _ _]; [done|]. by bool_to_prop. Qed.

(** Each flag of the observation, traced back to the memory. *)
Lemma observation_flags cr i mem q d o q' d' :
  status_observation cr i mem q d = (o, q', d') →
  (MasterLostActive o = true →
     masterLostFromTimeout (masterInfoTimeoutSince (q_master q)) (masterInfoObservedAt (q_master q))
       (default 0 (k_DownAfter cr)) (u_nowLost i) = true) ∧
  (DualMasterActive o = true → dualMasterActiveFromStamp (dualMasterObserved d) (u_nowDual i) = true) ∧
  (SentinelPeerLinkupStuckActive o = true →
     strandedLinkupStuck (q_stranded q) = true ∧
     Sub (u_nowStuck i) (strandedLinkupStuckAt (q_stranded q)) <= strandedLinkupStuckFreshnessWindow) ∧
  (SentinelTopologyMismatchActive o = true →
     Sub (u_nowTopology i) (topologyMismatchObservedAt (q_topology q)) <= topologyMismatchFreshnessWindow) ∧
  (k_Mode cr ≠ ModeStandalone → ∀ ob, dualMasterObserved d' = Some ob →
     dualMasterActiveFromStamp (Some ob) (u_nowDual i) = true).
Proof.
  unfold status_observation. destruct (observeReplicationHealthy cr (u_pods i)) as [gate ready].
  destruct (strandedLinkupStuckActiveOrExpire _ _) as [stuck st] eqn:Es.
  destruct (topologyMismatchActiveOrExpire _ _) as [[[b sd] rd] tt] eqn:Et.
  destruct (dualMasterActiveOrExpire _ _) as [db dd] eqn:Ed. destruct (dual_active _ _ _ _ Ed) as [Hd1 Hd2].
  intros H. destruct (bool_decide (k_Mode cr = ModeSentinel)) eqn:Em; destruct (bool_decide (k_Mode cr = ModeStandalone)) eqn:Est;
    injection H as <- <- <-; cbn; bool_to_prop; split_and!; try done.
  all: try (intros Hs; by eapply stuck_active). all: intros Hs; by eapply topology_active in Et.
Qed.
End lemmas.

(** ** Properties *)
Section properties.
Context {C : ConditionSetter} (recorder : bool).

(** C21: no alarm outlives its evidence.  In the status a pass stores: [MasterLost] needs
    INFO failures that have lasted the sentinels' own down-after period and a probe at
    most a minute old; [DualMasterDivergence], on either condition, needs two pods seen as
    masters at most a minute ago; [SentinelPeerLinkupStuck] and [SentinelTopologyMismatch]
    need an observation within their windows.  An early-returning pass that measured
    nothing cannot keep an alarm up, and a dual-master record too old to report is dropped
    from memory, so the next episode is announced again. *)
Theorem alarms_fresh cr i mem q d :
  u_patch i = None →
  let out := updateStatus recorder cr i mem mem q d in
  let reports t r := ∃ c, findCondition (s_Conditions (us_stored out)) t = Some c ∧ c_Reason c = r in
  (reports TypeReady "MasterLost" →
     ∃ t da, masterInfoTimeoutSince (q_master q) = Some t ∧ k_DownAfter cr = Some da ∧ 0 < da ∧
       da * Millisecond <= Sub (u_nowLost i) t ∧ Sub (u_nowLost i) (masterInfoObservedAt (q_master q)) <= Minute) ∧
  (reports TypeReady "DualMasterDivergence" ∨ reports TypeDegraded "DualMasterDivergence" →
     ∃ ob, dualMasterObserved d = Some ob ∧ 2 <= len (ob_pods ob) ∧ Sub (u_nowDual i) (observedAt ob) <= Minute) ∧
  (reports TypeDegraded "SentinelPeerLinkupStuck" →
     strandedLinkupStuck (q_stranded q) = true ∧
     Sub (u_nowStuck i) (strandedLinkupStuckAt (q_stranded q)) <= strandedLinkupStuckFreshnessWindow) ∧
  (reports TypeSentinelTopologyReconciled "SentinelTopologyMismatch" →
     Sub (u_nowTopology i) (topologyMismatchObservedAt (q_topology q)) <= topologyMismatchFreshnessWindow) ∧
  (k_Mode cr ≠ ModeStandalone → ∀ ob, dualMasterObserved (us_dual out) = Some ob →
     Sub (u_nowDual i) (observedAt ob) <= Minute).
Proof.
  intros Hp. cbv zeta.
  pose proof (λ k e t Hk Ht, stored_verdict recorder cr i mem q d k e t Hp Hk Ht) as Hv. cbv zeta in Hv.
  assert (Hdual : us_dual (updateStatus recorder cr i mem mem q d) = (status_observation cr i mem q d).2).
  { unfold updateStatus. destruct (status_observation cr i mem q d) as [[o q'] d']. by rewrite Hp. }
  rewrite Hdual. clear Hdual.
  destruct (status_observation cr i mem q d) as [[o q'] d'] eqn:Eo. cbn [fst snd] in *.
  destruct (observation_flags _ _ _ _ _ _ _ _ Eo) as (Hl & Hdu & Hst & Hto & Hex).
  assert (Hr : ∀ k e t r, evaluators !! k = Some e → condition_types !! k = Some t →
    (∃ c, findCondition (s_Conditions (us_stored (updateStatus recorder cr i mem mem q d))) t = Some c ∧ c_Reason c = r) →
    c_Reason (e o) = r).
  { intros k e t r Hk Ht (c & Hc & <-). destruct (Hv k e t Hk Ht) as (c' & Hc' & _ & Hr). congruence. }
  split_and!.
  - intros H. apply (Hr 0%nat evalReady) in H; [|done..]. apply ready_alarm, Hl, master_lost_evidence in H as (t & ? & ? & ? & _ & ?).
    destruct (k_DownAfter cr) as [da|] eqn:Ek; [|done]. by exists t, da.
  - intros H. assert (DualMasterActive o = true) as Ha%Hdu.
    { destruct H as [H|H]; [apply (Hr 0%nat evalReady) in H|apply (Hr 4%nat evalDegraded) in H]; try done;
        [by apply ready_alarm|by apply degraded_alarm]. }
    destruct (dualMasterObserved d) as [ob|]; [|done]. apply dual_evidence in Ha. by exists ob.
  - intros H. apply (Hr 4%nat evalDegraded) in H; [|done..]. by apply Hst, degraded_alarm.
  - intros H. apply (Hr 9%nat evalSentinelTopology) in H; [|done..]. by apply Hto, topology_alarm.
  - intros Hm ob Hob. by apply dual_evidence, Hex.
Qed.
End properties.

(** ** The readiness watchdog across passes

    Phase 9 arms the substate in the copy held in memory; the deferred step of the same
    pass evaluates and patches that copy.  [rp_refreshed]: a patch in between replaced
    the copy by the server's answer. *)
Record roll_pass (Q : Type) := {
  rp_rolls : bool;                     (* phase 9 ran *)
  rp_v : Valkey Q;
  rp_quorumOK : bool;
  rp_pods : list Pod;
  rp_sts : option DeriveState.StatefulSet;
  rp_delete : string → option api_error;
  rp_nowArm : Time;
  rp_ctl : ctl;
  rp_refreshed : bool;
  rp_cr : status_cr;
  rp_spec : option SentinelSpec;
  rp_defer : defer_in
}.
Arguments rp_rolls {Q}. Arguments rp_v {Q}. Arguments rp_quorumOK {Q}. Arguments rp_pods {Q}. Arguments rp_sts {Q}.
Arguments rp_delete {Q}. Arguments rp_nowArm {Q}. Arguments rp_ctl {Q}. Arguments rp_refreshed {Q}. Arguments rp_cr {Q}.
Arguments rp_spec {Q}. Arguments rp_defer {Q}.

Definition with_substate (wd : option Watchdog.MasterAwareRolloutStatus) (s : cr_status) : cr_status :=
  {| s_Conditions := s_Conditions s; s_Phase := s_Phase s; s_MasterAware := wd; s_PrimaryPod := s_PrimaryPod s |}.

Section stall.
Context {Q : Type} {R : MapRange} {C : ConditionSetter} (recorder : bool).

Definition pass_memory (x : roll_pass Q) (stored : cr_status) : cr_status :=
  if rp_rolls x && negb (rp_refreshed x) then
    with_substate (ro_watchdog (reconcilePodRollout recorder (rp_v x) (rp_quorumOK x) (rp_pods x) (rp_sts x) (rp_delete x)
                                  (rp_nowArm x) (s_MasterAware stored) (rp_ctl x)).1.2) stored
  else stored.

Definition watchdog_pass (a : list event * cr_status * crQuorumState * dual_state) (x : roll_pass Q) :
    list event * cr_status * crQuorumState * dual_state :=
  let '(evs, stored, q, d) := a in
  let out := status_defer recorder (rp_cr x) (rp_spec x) (rp_defer x) (pass_memory x stored) stored q d in
  (evs ++ us_events out, us_stored out, us_quorum out, us_dual out).

Definition unarmed (wd : option Watchdog.MasterAwareRolloutStatus) : Prop :=
  ∀ now, Watchdog.Active (Watchdog.Check now wd) = false.

Lemma armed_deadline now pod timeout wd now' :
  unarmed wd → now' < now + 60 * Second → Watchdog.Expired (Watchdog.Check now' (Some (Watchdog.Arm now pod timeout wd))) = false.
Proof.
  intros Hu Hn.
  assert (Hf : ∀ w, (w = {| Watchdog.WaitingForPod := pod;
      Watchdog.mars_Deadline := Some (Add now (Z.min 3600 (Z.max 60 timeout) * Second)); Watchdog.DeletedAt := Some now |}) →
      Watchdog.Expired (Watchdog.Check now' (Some w)) = false).
  { intros w ->. unfold Watchdog.Check, Add, Before. cbn -[Second]. case_bool_decide; cbn -[Second]; [done|].
    apply negb_false_iff, Z.ltb_lt. unfold Second in *. lia. }
  unfold Watchdog.Arm. destruct wd as [e|]; [|by apply Hf]. destruct (_ && _); [|by apply Hf].
  specialize (Hu now'). unfold Watchdog.Check in *. repeat case_match; done.
Qed.

Lemma rolled_watchdog v quorumOK pods sts delete now wd c :
  let w := ro_watchdog (reconcilePodRollout (Q := Q) recorder v quorumOK pods sts delete now wd c).1.2 in
  w = wd ∨ ∃ pod timeout, w = Some (Watchdog.Arm now pod timeout wd).
Proof. unfold reconcilePodRollout. cbv zeta. repeat case_match; cbn; eauto. Qed.

Definition prompt (x : roll_pass Q) : Prop := f_nowCheck (rp_defer x) < rp_nowArm x + 60 * Second.

Lemma watchdog_verdict sub paused now now' :
  (evaluateRolloutWatchdog sub paused now now').1 = if paused then Watchdog.result_zero else Watchdog.Check now sub.
Proof. unfold evaluateRolloutWatchdog. cbv zeta. repeat case_match; done. Qed.

(** No pass sees an expired watchdog. *)
Lemma never_expired x stored :
  unarmed (s_MasterAware stored) → prompt x →
  let wd := u_watchdog (status_input (rp_cr x) (rp_spec x) (rp_defer x) (pass_memory x stored)) in
  Watchdog.Active wd && Watchdog.Expired wd = false.
Proof.
  intros Hu Hp. unfold status_input. destruct (f_nows _) as [[[? ?] ?] ?]. cbv zeta. cbn [u_watchdog].
  rewrite watchdog_verdict. case_match; [done|].
  unfold pass_memory. case_match; [|by rewrite Hu]. cbn [s_MasterAware with_substate].
  destruct (rolled_watchdog (rp_v x) (rp_quorumOK x) (rp_pods x) (rp_sts x) (rp_delete x) (rp_nowArm x)
    (s_MasterAware stored) (rp_ctl x)) as [->|(pod & timeout & ->)]; [by rewrite Hu|].
  rewrite armed_deadline by done. apply andb_false_r.
Qed.

Lemma watchdog_pass_inv x stored q d :
  unarmed (s_MasterAware stored) → prompt x →
  let out := status_defer recorder (rp_cr x) (rp_spec x) (rp_defer x) (pass_memory x stored) stored q d in
  s_MasterAware (us_stored out) = s_MasterAware stored ∧ ∀ e, e ∈ us_events out → e = degraded_resolved.
Proof.
  intros Hu Hp. pose proof (never_expired x stored Hu Hp) as Hn. cbv zeta in *. unfold status_defer.
  set (i := status_input _ _ _ _) in *. cbn [us_stored us_events]. unfold stall_events.
  rewrite <- andb_assoc, Hn, andb_false_r. cbn [app]. unfold updateStatus.
  destruct (status_observation _ _ _ _ _) as [[o q'] d']. destruct (u_patch i); cbn [us_stored us_events].
  - split; [done|]. by intros e ?%not_elem_of_nil.
  - split; [|intros e; case_match; [by intros ->%list_elem_of_singleton|by intros ?%not_elem_of_nil]].
    cbn [s_MasterAware merge_patch]. unfold patched_status. destruct (Evaluate o). cbn [s_MasterAware]. rewrite Hn.
    apply merged_same.
Qed.

(** A stalled replica roll is never reported.  Phase 9 arms the readiness watchdog only
    in the copy of the CR it holds in memory, and the deferred status patch sends the
    difference to that same copy, so the armed substate is never stored and the next pass
    reads an unarmed one.  From a CR whose stored watchdog is not armed, whatever the pods
    do and however long they stay away, no sequence of passes (each reaching its status
    step within a minute of the arm) emits RolloutStalled or arms the stored watchdog. *)
Theorem stall_never_reported xs stored q d :
  unarmed (s_MasterAware stored) → Forall prompt xs →
  let '(evs, stored', _, _) := foldl watchdog_pass ([], stored, q, d) xs in
  s_MasterAware stored' = s_MasterAware stored ∧
  ∀ w a n, CREvent w "RolloutStalled" a n ∉ evs.
Proof.
  intros Hu Hx.
  assert (H : ∀ evs, (∀ e, e ∈ evs → e = degraded_resolved) →
    let '(evs', stored', _, _) := foldl watchdog_pass (evs, stored, q, d) xs in
    s_MasterAware stored' = s_MasterAware stored ∧ ∀ e, e ∈ evs' → e = degraded_resolved).
  { revert stored q d Hu. induction Hx as [|x xs Hp _ IH]; intros stored q d Hu evs He; [done|]. cbn [foldl].
    destruct (watchdog_pass_inv x stored q d Hu Hp) as [Hs Hv]. unfold watchdog_pass at 2. cbv zeta in *.
    set (out := status_defer _ _ _ _ _ _ _ _) in *. specialize (IH (us_stored out) (us_quorum out) (us_dual out)).
    rewrite Hs in IH. apply IH; [done|]. intros e [?|?]%elem_of_app; auto. }
  specialize (H [] (λ e He, False_ind _ (not_elem_of_nil _ He))).
  destruct (foldl _ _ _) as [[[evs stored'] ?] ?]. destruct H as [Hs He]. split; [done|].
  intros w a n Hin. by apply He in Hin.
Qed.
End stall.

(** ** A watchdog that is armed in the store *)
Section armed.
Context {R : MapRange} {C : ConditionSetter}.

Definition degraded_is (s : cr_status) (st : ConditionStatus) (reason : string) : Prop :=
  ∃ c, findCondition (s_Conditions s) TypeDegraded = Some c ∧ Status c = st ∧ c_Reason c = reason.

(** Its report: the event, and with an accepted patch the condition and the disarmed
    substate.  A refused patch leaves the store as it was, so the next pass reports again. *)
Lemma armed_report cr spec x stored w dl q d :
  s_MasterAware stored = Some w → Watchdog.WaitingForPod w ≠ "" → Watchdog.mars_Deadline w = Some dl →
  dl <= f_nowCheck x → f_paused x = false →
  let out := status_defer true cr spec x stored stored q d in
  (∃ n, CREvent true "RolloutStalled" "RolloutStallObserve" n ∈ us_events out) ∧
  match f_patch x with
  | None => degraded_is (us_stored out) Status.ConditionTrue "RolloutStalled" ∧ s_MasterAware (us_stored out) = Some Watchdog.Disarm
  | Some _ => us_stored out = stored
  end.
Proof.
  intros Hw Hn Hdl Ht Hpa. cbv zeta. unfold status_defer. set (i := status_input _ _ _ _). cbn [us_events us_stored].
  assert (Hwd : u_watchdog i = {| Watchdog.Active := true; Watchdog.Expired := true;
                                  Watchdog.PodName := Watchdog.WaitingForPod w; Watchdog.Deadline := dl |}).
  { unfold i, status_input. destruct (f_nows x) as [[[? ?] ?] ?]. cbn [u_watchdog]. rewrite watchdog_verdict, Hpa, Hw.
    unfold Watchdog.Check, Before. rewrite Hdl, bool_decide_false by done. by rewrite (proj2 (Z.ltb_ge _ _)) by lia. }
  assert (Hpt : u_patch i = f_patch x) by (unfold i, status_input; by destruct (f_nows x) as [[[? ?] ?] ?]).
  split; [eexists; rewrite Hwd; apply elem_of_app; left; by apply list_elem_of_singleton|]. rewrite <- Hpt.
  destruct (u_patch i) as [e|] eqn:Ep.
  { unfold updateStatus. rewrite Ep. by destruct (status_observation _ _ _ _ _) as [[? ?] ?]. }
  destruct (stored_verdict true cr i stored q d 4%nat evalDegraded TypeDegraded Ep) as (c & Hc & Hs & Hr); [done..|].
  assert (Ho : RolloutWatchdog (status_observation cr i stored q d).1.1 = u_watchdog i).
  { unfold status_observation. repeat case_match; done. }
  assert (He : Status (evalDegraded (status_observation cr i stored q d).1.1) = Status.ConditionTrue ∧
               c_Reason (evalDegraded (status_observation cr i stored q d).1.1) = "RolloutStalled").
  { unfold evalDegraded. rewrite Ho, Hwd. done. }
  split; [exists c; split; [done|]; by rewrite Hs, Hr|].
  unfold updateStatus. destruct (status_observation _ _ _ _ _) as [[o ?] ?]. rewrite Ep. cbn [us_stored s_MasterAware merge_patch].
  rewrite merged_fresh. unfold patched_status. destruct (Evaluate o). cbn [s_MasterAware]. by rewrite Hwd.
Qed.

(** The report lasts one pass: the substate is disarmed with it, so the next pass, if it
    finds no other fault, clears Degraded and announces DegradedResolved, whether or not
    the pod came back. *)
Theorem stall_condition_transient cr spec x1 x2 stored w dl q d :
  s_MasterAware stored = Some w → Watchdog.WaitingForPod w ≠ "" → Watchdog.mars_Deadline w = Some dl →
  dl <= f_nowCheck x1 → f_paused x1 = false → f_patch x1 = None → f_patch x2 = None →
  let out1 := status_defer true cr spec x1 stored stored q d in
  let st1 := us_stored out1 in
  let i2 := status_input cr spec x2 st1 in
  let out2 := status_defer true cr spec x2 st1 st1 (us_quorum out1) (us_dual out1) in
  first_fault (status_observation cr i2 st1 (us_quorum out1) (us_dual out1)).1.1 = None →
  degraded_is st1 Status.ConditionTrue "RolloutStalled" ∧
  degraded_is (us_stored out2) Status.ConditionFalse "AsExpected" ∧ degraded_resolved ∈ us_events out2.
Proof.
  intros Hw Hn Hdl Ht Hpa Hp1 Hp2. cbv zeta. intros Hf.
  pose proof (armed_report cr spec x1 stored w dl q d Hw Hn Hdl Ht Hpa) as [_ H1]. cbv zeta in H1. rewrite Hp1 in H1.
  destruct H1 as [H1 _]. split; [done|]. set (out1 := status_defer _ _ _ x1 _ _ _ _) in *. set (st1 := us_stored out1) in *.
  unfold status_defer. set (i2 := status_input cr spec x2 st1) in *. cbn [us_stored us_events].
  assert (Hpt : u_patch i2 = None) by (unfold i2, status_input; rewrite <- Hp2; by destruct (f_nows x2) as [[[? ?] ?] ?]).
  destruct (stored_verdict true cr i2 st1 (us_quorum out1) (us_dual out1) 4%nat evalDegraded TypeDegraded Hpt)
    as (c & Hc & Hs & Hr); [done..|].
  pose proof (evalDegraded_first_fault (status_observation cr i2 st1 (us_quorum out1) (us_dual out1)).1.1) as He.
  rewrite Hf in He. injection He as He1 He2.
  assert (H2 : degraded_is (us_stored (updateStatus true cr i2 st1 st1 (us_quorum out1) (us_dual out1))) Status.ConditionFalse "AsExpected").
  { exists c. split; [done|]. by rewrite Hs, Hr. }
  split; [done|]. apply elem_of_app. right. revert H2. unfold updateStatus.
  destruct (status_observation _ _ _ _ _) as [[o ?] ?]. rewrite Hpt. cbn [us_stored us_events andb].
  intros (c2 & Hc2 & Hs2 & _). destruct H1 as (c1 & Hc1 & Hs1 & _). unfold DegradedFlippedFalse.
  rewrite Hc1, Hs1, Hc2, Hs2. by apply list_elem_of_singleton.
Qed.
End armed.

(** ** Concrete passes *)
Definition demo_status_cr : status_cr :=
  {| k_Generation := 3; k_Mode := ModeSentinel; k_Replicas := 3; k_BootstrapNode := false; k_DownAfter := Some 5000;
     k_GateEnabled := Some true |}.
Definition demo_status (wd : option Watchdog.MasterAwareRolloutStatus) : cr_status :=
  {| s_Conditions := []; s_Phase := None; s_MasterAware := wd; s_PrimaryPod := "" |}.
Definition demo_defer (now : Time) : defer_in :=
  {| f_paused := false; f_err := false; f_sts := None; f_nowCheck := now; f_nowUntil := now; f_nowAggregate := now;
     f_records := Ok []; f_snapSplit := None; f_snapMaster := None; f_masterPods := None; f_nows := (now, now, now, now);
     f_pods := Ok []; f_patch := None |}.
Definition demo_quorum : crQuorumState :=
  put_master {| masterInfoTimeoutSince := Some (90 * Second); masterInfoObservedAt := 100 * Second;
                masterInfoRoleDisclaimed := false |} quorum_zero.

Lemma alarms_fresh_witness :
  let i := status_input (R := range_forward) demo_status_cr None (demo_defer (101 * Second)) (demo_status None) in
  ∃ t da, masterInfoTimeoutSince (q_master demo_quorum) = Some t ∧ k_DownAfter demo_status_cr = Some da ∧ 0 < da ∧
    da * Millisecond <= Sub (u_nowLost i) t ∧ Sub (u_nowLost i) (masterInfoObservedAt (q_master demo_quorum)) <= Minute.
Proof.
  destruct (alarms_fresh (C := set_in_place) true demo_status_cr
    (status_input (R := range_forward) demo_status_cr None (demo_defer (101 * Second)) (demo_status None))
    (demo_status None) demo_quorum dual_zero eq_refl) as [H _].
  apply H. eexists. split; [vm_compute; reflexivity|reflexivity].
Defined.

(** The roll deletes vk-2 at second 10 and the pod never comes back; a pass an hour later
    still reports nothing. *)
Definition demo_roll_pass (now : Time) (pods : list Pod) : roll_pass Z :=
  {| rp_rolls := true; rp_v := scale_cr 3 "8.1"; rp_quorumOK := true; rp_pods := pods;
     rp_sts := Some demo_sts; rp_delete := λ _, None; rp_nowArm := now; rp_ctl := demo_ctl; rp_refreshed := false;
     rp_cr := demo_status_cr; rp_spec := None; rp_defer := demo_defer (now + Second) |}.

Lemma stall_never_reported_witness :
  let x1 := demo_roll_pass (10 * Second) demo_v in
  let x2 := demo_roll_pass (3600 * Second) (take 2 demo_v) in
  ro_delete (reconcilePodRollout true (rp_v x1) true demo_v (Some demo_sts) (λ _, None) (10 * Second) None demo_ctl).1.2 = Some "vk-2" ∧
  let '(evs, stored', _, _) :=
    foldl (watchdog_pass (C := set_in_place) (R := range_forward) true) ([], demo_status None, quorum_zero, dual_zero) [x1; x2] in
  s_MasterAware stored' = None ∧ ∀ w a n, CREvent w "RolloutStalled" a n ∉ evs.
Proof.
  split; [vm_compute; reflexivity|].
  apply (stall_never_reported (C := set_in_place) (R := range_forward) true
    [demo_roll_pass (10 * Second) demo_v; demo_roll_pass (3600 * Second) (take 2 demo_v)] (demo_status None) quorum_zero dual_zero).
  - done.
  - repeat constructor.
Defined.

Definition demo_armed : Watchdog.MasterAwareRolloutStatus := Watchdog.Arm (10 * Second) "vk-2" 300 None.

Lemma stall_condition_transient_witness :
  let run x st q d := status_defer (R := range_forward) (C := set_in_place) true demo_status_cr None x st st q d in
  let out1 := run (demo_defer (400 * Second)) (demo_status (Some demo_armed)) quorum_zero dual_zero in
  let out2 := run (demo_defer (410 * Second)) (us_stored out1) (us_quorum out1) (us_dual out1) in
  degraded_is (us_stored out1) Status.ConditionTrue "RolloutStalled" ∧
  degraded_is (us_stored out2) Status.ConditionFalse "AsExpected" ∧ degraded_resolved ∈ us_events out2.
Proof.
  apply (stall_condition_transient (R := range_forward) (C := set_in_place) demo_status_cr None (demo_defer (400 * Second))
    (demo_defer (410 * Second)) (demo_status (Some demo_armed)) demo_armed (310 * Second) quorum_zero dual_zero);
    try reflexivity; [done|by vm_compute].
Defined.
