(* ===== verification/StartupReset.v ===== *)
(** * The startup safety net: [internal/controller/sentinel_startup_reset.go]

    Runs once when the process becomes leader: for every CR in sentinel mode it finds the
    sentinels, the password and the address of the master, and hands them to the startup
    pass of the surgery ([Surgery.RunInitialReset]).  Lists, Secrets and INFO answers are
    inputs; log lines are left out. *)
From S2P Require Import Prelude GoStd Resp SentinelParse Observer SentinelWire Surgery SurgerySpec Status DeriveState LagChecker PrimaryRollout RoleLabels Redaction Recovery ReadinessGate SentinelInfra Reconcile.
Local Open Scope Z_scope.

(** ** The password, scoped for redaction ([lookupAuthPasswordWithRedaction]) *)
Record secrets := { se_auth : result Secret; se_sentinel : result Secret }.

(** The password and the tokens registered, or the error of the read. *)
Definition lookupAuthPasswordWithRedaction (auth : option AuthSpec) (x : secrets) : result (string * list string) :=
  match auth with
  | None => Ok ("", [])
  | Some a =>
      if bool_decide (a_SecretName a = "") then Ok ("", [])
      else match se_auth x with
      | Err e => Err e
      | Ok data =>
          let password := default "" (data !! "password") in
          Ok (password, redaction_tokens auth (se_sentinel x) password)
      end
  end.

(** The warning for a password too short to be redacted; [seen]: it was emitted before. *)
Definition reportShortAuthPassword (seen : bool) (password : string) : bool :=
  if (slen password =? 0) || (MinTokenLen <=? slen password) then false else negb seen.

(** ** The address of the master *)
Definition observedMasterIP (primaries pods : result (list Pod)) (lag : string → result LagState) : string :=
  match primaries with
  | Err _ => ""
  | Ok ps =>
      match List.find (λ p, negb (bool_decide (pod_IP p = ""))) ps with
      | Some p => pod_IP p
      | None =>
          match pods with
          | Err _ => ""
          | Ok pods =>
              let masters := List.filter (λ p, negb (bool_decide (pod_IP p = "")) &&
                match lag (JoinHostPort (pod_IP p) (Itoa DefaultPort)) with
                | Err _ => false
                | Ok st => bool_decide (Role st = RoleMaster)
                end) pods in
              match masters with
              | [p] => pod_IP p
              | _ => ""
              end
          end
      end
  end.

(** ** The pass *)
Record startup_cr := {
  sc_key : observerKey;
  sc_mode : Mode;
  sc_sentinel : option SentinelSpec;
  sc_sentinelPods : result (list Pod);
  sc_auth : option AuthSpec;
  sc_secrets : secrets;
  sc_primaries : result (list Pod);
  sc_pods : result (list Pod);
  sc_lag : string → result LagState;
  sc_io : pass_io
}.

Definition sentinelEndpointsForCR (pods : result (list Pod)) : result (list Observer.Endpoint) :=
  match pods with
  | Err e => Err ("listing sentinel pods: " +:+ e)
  | Ok pods => Ok (sentinelEndpointsFromPodList pods)
  end.

(** The target, if the CR gives one, and the tokens its password registered. *)
Definition startup_target (c : startup_cr) : option InitialResetTarget * list string :=
  if negb (bool_decide (sc_mode c = ModeSentinel)) then (None, [])
  else match sc_sentinel c with
  | None => (None, [])
  | Some sp =>
      if bool_decide (sen_MasterName sp = "") then (None, [])
      else match sentinelEndpointsForCR (sc_sentinelPods c) with
      | Err _ | Ok [] => (None, [])
      | Ok endpoints =>
          match lookupAuthPasswordWithRedaction (sc_auth c) (sc_secrets c) with
          | Err _ => (None, [])
          | Ok (password, tokens) =>
              (Some {| Surgery.CR := sc_key c; t_MasterName := sen_MasterName sp; Endpoints := endpoints; Password := password;
                       MasterIP := observedMasterIP (sc_primaries c) (sc_pods c) (sc_lag c); Port := DefaultPort;
                       t_Quorum := sen_Quorum sp; Tuning := sen_Tuning sp; AllowGhostReap := false; LiveValkeyIPs := ∅;
                       AllowStaleEpochRepoint := false; SkipStrandedAddrs := ∅ |}, tokens)
          end
      end
  end.

Record startup_out := {
  so_err : option string;
  so_commands : list surgery_cmd;
  so_audits : list (observerKey * list string);     (* [auditSentinelReset], reason cold_start *)
  so_during : Registry;                             (* while the commands run *)
  so_registry : Registry
}.

Definition Start (m : surgery_state) (crs : result (list startup_cr)) (r : Registry) : startup_out :=
  match crs with
  | Err e => {| so_err := Some ("listing Valkey CRs: " +:+ e); so_commands := []; so_audits := []; so_during := r; so_registry := r |}
  | Ok crs =>
      let tokens := snd ∘ startup_target <$> crs in
      let during := foldl (λ r ts, registerAuthRedaction ts r) r tokens in
      let '(outcomes, trace) :=
        RunInitialReset m (omap (λ c, t ← (startup_target c).1; Some (t, sc_io c)) crs) in
      (* the deferred cleanups run last registered first *)
      {| so_err := None; so_commands := trace; so_audits := outcomes; so_during := during;
         so_registry := foldr cleanup_redaction during tokens |}
  end.

(** ** Lemmas *)
Lemma startup_target_spec c t ts :
  startup_target c = (Some t, ts) →
  ∃ sp pods, sc_mode c = ModeSentinel ∧ sc_sentinel c = Some sp ∧ sc_sentinelPods c = Ok pods ∧
    Endpoints t = sentinelEndpointsFromPodList pods ∧ Surgery.CR t = sc_key c ∧ t_Quorum t = sen_Quorum sp ∧
    MasterIP t = observedMasterIP (sc_primaries c) (sc_pods c) (sc_lag c) ∧
    lookupAuthPasswordWithRedaction (sc_auth c) (sc_secrets c) = Ok (Password t, ts).
Proof.
  unfold startup_target, sentinelEndpointsForCR. intros H. destruct (bool_decide (sc_mode c = ModeSentinel)) eqn:Em; [|done]. cbn in H.
  destruct (sc_sentinel c) as [sp|]; [|done]. case_bool_decide; [done|]. destruct (sc_sentinelPods c) as [pods|]; [|done].
  destruct (sentinelEndpointsFromPodList pods) eqn:Ee; [done|].
  destruct (lookupAuthPasswordWithRedaction _ _) as [[pw tk]|] eqn:El; [|done]. bool_to_prop. simplify_eq. by exists sp, pods.
Qed.

(** Where the address comes from: a labelled pod, or the one pod that says it is the master. *)
Definition master_source (c : startup_cr) (ip : string) : Prop :=
  (∃ ps p, sc_primaries c = Ok ps ∧ p ∈ ps ∧ pod_IP p = ip) ∨
  (∃ pods p st, sc_pods c = Ok pods ∧ p ∈ pods ∧ pod_IP p = ip ∧
     sc_lag c (JoinHostPort ip (Itoa DefaultPort)) = Ok st ∧ Role st = RoleMaster ∧
     ∀ q st', q ∈ pods → pod_IP q ≠ "" → sc_lag c (JoinHostPort (pod_IP q) (Itoa DefaultPort)) = Ok st' → Role st' = RoleMaster →
       pod_IP q = ip).

Lemma observedMasterIP_source c ip :
  observedMasterIP (sc_primaries c) (sc_pods c) (sc_lag c) = ip → ip ≠ "" → master_source c ip.
Proof.
  unfold observedMasterIP, master_source. intros H Hne. destruct (sc_primaries c) as [ps|]; [|done].
  destruct (List.find _ ps) as [p|] eqn:Ef.
  { left. apply List.find_some in Ef as [Hin _]. exists ps, p. split_and!; [done|by apply list_elem_of_In|done]. }
  destruct (sc_pods c) as [pods|]; [|done]. cbv zeta in H.
  destruct (List.filter _ pods) as [|p [|? ?]] eqn:El; [done| |done]. right.
  assert (Hp : ∀ q, q ∈ [p] ↔ q ∈ pods ∧ (negb (bool_decide (pod_IP q = "")) &&
     match sc_lag c (JoinHostPort (pod_IP q) (Itoa DefaultPort)) with
     | Err _ => false | Ok st => bool_decide (Role st = RoleMaster) end) = true).
  { intros q. rewrite <- El, list_elem_of_In, list_elem_of_In. apply List.filter_In. }
  destruct (proj1 (Hp p)) as [Hin Ht]; [constructor|]. apply andb_true_iff in Ht as [_ Ht].
  destruct (sc_lag c (JoinHostPort (pod_IP p) (Itoa DefaultPort))) as [st|] eqn:Es; [|done]. bool_to_prop.
  exists pods, p, st. rewrite <- H. split_and!; try done. intros q st' Hq Hip Hl Hr.
  assert (q ∈ [p]) as ->%list_elem_of_singleton; [|done]. apply Hp. split; [done|]. rewrite Hl, !andb_true_iff.
  split; [by apply negb_true_iff, bool_decide_eq_false|by apply bool_decide_eq_true].
Qed.

Lemma reset_monitor m t io ep ip port q :
  CmdMonitor ep ip port q ∈ (reset_one m t io).2 →
  ip = MasterIP t ∧ port = Port t ∧ q = t_Quorum t ∧ CmdRemove ep ∈ (RunInitialReset m [(t, io)]).2.
Proof.
  unfold RunInitialReset. cbn [fmap list_fmap snd]. rewrite list_elem_of_bind. intros H.
  assert (Hr : CmdRemove ep ∈ (reset_one m t io).2 → ∃ y, CmdRemove ep ∈ y.2 ∧ y ∈ [reset_one m t io]).
  { intros H'. exists (reset_one m t io). split; [done|constructor]. }
  cut (ip = MasterIP t ∧ port = Port t ∧ q = t_Quorum t ∧ CmdRemove ep ∈ (reset_one m t io).2); [naive_solver|].
  clear Hr. revert H. unfold reset_one. cbv zeta. destruct (len (Endpoints t) =? 0); [intros H; by apply not_elem_of_nil in H|].
  destruct (bool_decide (MasterIP t = "")); [intros H; by apply not_elem_of_nil in H|].
  destruct (len (sc_Targets _) =? 0); [intros H; by apply not_elem_of_nil in H|].
  destruct (negb (sc_QuorumReachable _)); [intros H; by apply not_elem_of_nil in H|]. cbn [snd].
  rewrite !elem_of_app, !list_elem_of_fmap. intros [(?&?&?)|[(e & [= -> -> -> ->] & He)|[(?&?&?)|H']]]; [done| |done|].
  - split_and!; try done. left. exists e. split; [done|]. unfold successful in He. by apply list_elem_of_filter in He as [_ ?].
  - case_match; [by apply not_elem_of_nil in H'|]. by apply list_elem_of_fmap in H' as (?&?&?).
Qed.

Lemma scopes_of_target c : startup_target c = (None, []) ∨ ∃ t pw, startup_target c = (Some t, pw) ∧
  (pw = [] ∨ (∃ p, pw = [p]) ∨ (∃ p q, q ≠ p ∧ pw = [p; q])).
Proof.
  destruct (startup_target c) as [[t|] ts] eqn:E.
  - right. exists t, ts. split; [done|]. apply startup_target_spec in E as (sp & pods & _ & _ & _ & _ & _ & _ & _ & El).
    unfold lookupAuthPasswordWithRedaction in El. destruct (sc_auth c) as [a|]; [|simplify_eq; by left].
    destruct (bool_decide (a_SecretName a = "")); [simplify_eq; by left|]. destruct (se_auth (sc_secrets c)); [|done]. injection El as _ <-.
    right. match goal with |- context [redaction_tokens ?a ?b ?c] => destruct (tokens_shape a b c) as [->|(q & Hq & ->)] end; eauto.
  - left. f_equal. unfold startup_target in E. repeat case_match; simplify_eq; done.
Qed.

Lemma startup_scopes tokens r :
  reg_wf r → Forall (λ pw, pw = [] ∨ (∃ p : string, pw = [p]) ∨ (∃ p q, q ≠ p ∧ pw = [p; q])) tokens →
  foldr cleanup_redaction (foldl (λ r ts, registerAuthRedaction ts r) r tokens) tokens = r.
Proof.
  intros Hw Hf. revert r Hw. induction tokens as [|ts tokens IH] using rev_ind; intros r Hw; [done|].
  apply Forall_app in Hf as [Hf [Ht _]%Forall_cons]. rewrite foldl_app, foldr_app. cbn [foldl foldr].
  rewrite scopes_restored; [by apply IH| |exact Ht]. clear -Hw. revert r Hw.
  induction tokens as [|x tokens IH]; intros r Hw; cbn; [done|]. apply IH. clear IH. unfold registerAuthRedaction.
  revert r Hw. induction x as [|t x IH]; intros r Hw; cbn; [done|]. by apply IH, RegisterScoped_wf.
Qed.

(** ** Properties *)

(** The startup pass points a sentinel at an address only with cause.  A MONITOR it sends
    goes to a sentinel of a CR in sentinel mode that answered with an empty peer list,
    while a quorum of that CR's sentinels answered, and its address is that of a pod
    labelled primary, or of the only pod that reports itself master.  When it returns, the
    redactor holds what it held before, and while it runs it holds every password it
    uses. *)
Theorem startup_monitor_justified m crs r ep ip port q :
  reg_wf r →
  let out := Start m (Ok crs) r in
  so_registry out = r ∧
  (CmdMonitor ep ip port q ∈ so_commands out →
   ∃ c sp pods t, c ∈ crs ∧ sc_mode c = ModeSentinel ∧ sc_sentinel c = Some sp ∧ q = sen_Quorum sp ∧
     sc_sentinelPods c = Ok pods ∧ (startup_target c).1 = Some t ∧ ep ∈ sentinelEndpointsFromPodList pods ∧
     ip ≠ "" ∧ master_source c ip ∧
     sentinelsOne (Password t) (io_sentinels (sc_io c) ep) = Ok [] ∧
     QuorumThreshold (len (sentinelEndpointsFromPodList pods)) ≤
       Z.of_nat (count (λ e, is_ok (sentinelsOne (Password t) (io_sentinels (sc_io c) e))) (sentinelEndpointsFromPodList pods))).
Proof.
  intros Hw. unfold Start. cbv zeta. destruct (RunInitialReset m _) as [outcomes trace] eqn:Er. cbn [so_registry so_commands].
  split.
  - apply startup_scopes; [done|]. apply Forall_forall. intros ts (c & -> & _)%list_elem_of_fmap. cbn.
    destruct (scopes_of_target c) as [->|(t & pw & -> & H)]; [by left|done].
  - intros H. assert (H' : CmdMonitor ep ip port q ∈ (RunInitialReset m (omap (λ c, t ← (startup_target c).1; Some (t, sc_io c)) crs)).2)
      by (by rewrite Er). clear H Er. unfold RunInitialReset in H'. cbn [snd] in H'. apply list_elem_of_bind in H' as (x & Hx & Hin).
    apply list_elem_of_fmap in Hin as ([t io] & -> & (c & Hc & Ht)%list_elem_of_omap).
    destruct (startup_target c) as [[t'|] ts] eqn:Et; [|done]. cbn in Ht. simplify_eq.
    apply reset_monitor in Hx as (-> & _ & -> & Hrm). apply startup_reset_safe in Hrm as (t2 & io2 & [= -> ->]%list_elem_of_singleton & He & Hne & Hs & Hq).
    destruct (startup_target_spec c t ts Et) as (sp & pods & Hm & Hsp & Hpods & Heps & _ & Hqu & Hip & _).
    exists c, sp, pods, t. rewrite <- Heps. split_and!; try done; [by rewrite Et|]. by apply observedMasterIP_source.
Qed.

(** ** Concrete passes: s-3 lost its peers; vk-0 is still labelled primary *)
Definition start_pod (name ip : string) : Pod :=
  {| pod_Name := name; pod_Labels := ∅; pod_DeletionTimestamp := None; pod_IP := ip; pod_NodeName := "";
     pod_Conditions := []; pod_ReadinessGates := [] |}.
Definition start_lag (role : string) : LagState :=
  {| Role := role; LinkUp := true; LagBytes := 0; MasterReplOffset := 9; HaveMasterOffset := true; MasterHost := "";
     SlaveReplOffset := 9; HaveSlaveOffset := true |}.
Definition start_cr : startup_cr :=
  {| sc_key := ("default", "vk"); sc_mode := ModeSentinel;
     sc_sentinel := Some {| sen_MasterName := "mymaster"; sen_Replicas := 3; sen_Quorum := 2;
                            sen_Tuning := {| DownAfterMilliseconds := 5000; FailoverTimeout := 0; ParallelSyncs := 0 |} |};
     sc_sentinelPods := Ok [start_pod "s-1" "10.1.0.1"; start_pod "s-2" "10.1.0.2"; start_pod "s-3" "10.1.0.3"];
     sc_auth := None; sc_secrets := {| se_auth := Err "unused"; se_sentinel := Err "unused" |};
     sc_primaries := Ok [start_pod "vk-0" "10.0.0.1"];
     sc_pods := Ok [start_pod "vk-0" "10.0.0.1"; start_pod "vk-1" "10.0.0.2"];
     sc_lag := λ a, Ok (start_lag (if bool_decide (a = "10.0.0.2:6379") then "master" else "slave"));
     sc_io := SurgerySpec.demo_io "master" |}.

Lemma startup_monitor_justified_witness :
  let out := Start demo_state (Ok [start_cr]) ∅ in
  so_registry out = ∅ ∧ ∃ c, c ∈ [start_cr] ∧ master_source c "10.0.0.1".
Proof.
  destruct (startup_monitor_justified demo_state [start_cr] ∅ (SurgerySpec.sent "3") "10.0.0.1" 6379 2 NewRegistry_wf) as [Hr Hm].
  split; [exact Hr|]. destruct Hm as (c & sp & pods & t & Hc & _ & _ & _ & _ & _ & _ & _ & Hs & _); [vm_compute; set_solver|].
  by exists c.
Defined.

(** The label is trusted as it stands.  While the process was down the sentinels failed
    over: vk-0 still carries the primary label but answers as a replica, and vk-1 answers
    as the master.  The startup pass never asks, and re-attaches the stranded sentinel to
    vk-0. *)
Theorem stale_label_monitored :
  Role <$> (match sc_lag start_cr "10.0.0.1:6379" with Ok st => Some st | Err _ => None end) = Some "slave" ∧
  Role <$> (match sc_lag start_cr "10.0.0.2:6379" with Ok st => Some st | Err _ => None end) = Some "master" ∧
  CmdMonitor (SurgerySpec.sent "3") "10.0.0.1" 6379 2 ∈ so_commands (Start demo_state (Ok [start_cr]) ∅).
Proof. split; [reflexivity|]. split; [reflexivity|]. vm_compute. set_solver. Qed.
