(* ===== verification/Watch.v ===== *)
(** * What wakes the reconciler: predicates and maps of [internal/controller/valkey_controller.go]
    and [auth_secret_watch.go]

    A watch filters the events of one kind of object with a predicate and maps those that
    pass to the CRs to reconcile.  What controller-runtime adds (the predicate on
    [metadata.generation], the disjunction, the map from an object to its owner) is an
    interface here with its documented laws. *)
From S2P Require Import Prelude GoStd Status DeriveState RoleLabels Reconcile.
Local Open Scope Z_scope.

Inductive event_kind (A : Type) : Type :=
  | CreateEvent (o : A)
  | UpdateEvent (old new : A)
  | DeleteEvent (o : A)
  | GenericEvent (o : A).
Arguments CreateEvent {A}. Arguments UpdateEvent {A}. Arguments DeleteEvent {A}. Arguments GenericEvent {A}.

Definition request : Type := string * string.

(** [handler.EnqueueRequestForOwner] with [OnlyControllerOwner]: the requests name the
    controller of the object, if that is of the given kind. *)
Class OwnerHandler := {
  owner_requests : string → string → list OwnerReference → list request;
  owner_requests_spec kind ns refs q :
    q ∈ owner_requests kind ns refs ↔
    ∃ r, List.find or_Controller refs = Some r ∧ or_Kind r = kind ∧ q = (ns, or_Name r)
}.
Definition controller_of : OwnerHandler.
Proof.
  refine {| owner_requests kind ns refs :=
    match List.find or_Controller refs with
    | Some r => if bool_decide (or_Kind r = kind) then [(ns, or_Name r)] else []
    | None => []
    end |}.
  intros kind ns refs q. destruct (List.find or_Controller refs) as [r|].
  - case_bool_decide.
    + rewrite list_elem_of_singleton. naive_solver.
    + split; [by intros ?%not_elem_of_nil|]. naive_solver.
  - split; [by intros ?%not_elem_of_nil|]. naive_solver.
Defined.

(** ** The CR itself *)
Record cr_meta := { cm_Name : string; cm_Namespace : string; cm_Generation : Z; cm_Annotations : gmap string string }.

Definition ManualRolloutAnnotation : string := "velkir.ioxie.dev/manual-rollout".
Definition operationalAnnotations : list string :=
  [PauseAnnotation; AcceptPVCLossAnnotation; ForceRotateAnnotation; ManualRolloutAnnotation].

Definition operationalAnnotationsChanged (old new : gmap string string) : bool :=
  existsb (λ k, negb (bool_decide (default "" (old !! k) = default "" (new !! k)))) operationalAnnotations.

(** [predicate.Funcs] lets through what it has no function for. *)
Definition operationalAnnotationChangePredicate (e : event_kind cr_meta) : bool :=
  match e with
  | UpdateEvent old new => operationalAnnotationsChanged (cm_Annotations old) (cm_Annotations new)
  | _ => true
  end.
Definition generationChanged (e : event_kind cr_meta) : bool :=
  match e with UpdateEvent old new => negb (cm_Generation old =? cm_Generation new) | _ => true end.
Definition cr_watch (e : event_kind cr_meta) : bool := generationChanged e || operationalAnnotationChangePredicate e.

(** ** Pods *)
Record pod_meta := {
  pm_Namespace : string;
  pm_Owners : list OwnerReference;
  pm_IP : string;
  pm_Phase : string;
  pm_Conditions : list (string * string)       (* type, status *)
}.

Definition equalPodConditions (a b : list (string * string)) : bool :=
  if negb (len a =? len b) then false
  else
    let idx : gmap string string := foldl (λ m c, <[c.1 := c.2]> m) ∅ a in
    forallb (λ c, bool_decide (default "" (idx !! c.1) = c.2)) b.

Definition podStatusChangePredicate (e : event_kind pod_meta) : bool :=
  match e with
  | CreateEvent _ | DeleteEvent _ => true
  | GenericEvent _ => false
  | UpdateEvent old new =>
      if negb (bool_decide (pm_IP old = pm_IP new)) then true
      else if negb (bool_decide (pm_Phase old = pm_Phase new)) then true
      else negb (equalPodConditions (pm_Conditions old) (pm_Conditions new))
  end.

Definition event_objects {A} (e : event_kind A) : list A :=
  match e with CreateEvent o | DeleteEvent o | GenericEvent o => [o] | UpdateEvent old new => [old; new] end.

(** [Owns(&corev1.Pod{})]: the owners of the old and of the new object. *)
Definition pod_watch {H : OwnerHandler} (e : event_kind pod_meta) : list request :=
  if podStatusChangePredicate e then
    event_objects e ≫= λ p, owner_requests "Valkey" (pm_Namespace p) (pm_Owners p)
  else [].

(** ** The observer's pushes *)
Definition mapObserverEventToCR (obj : option (string * string)) : list request :=
  match obj with
  | None => []
  | Some (ns, name) => if bool_decide (name = "") then [] else [(ns, name)]
  end.

(** ** The auth Secret *)
Record indexed_cr := { ix_Namespace : string; ix_Name : string; ix_Auth : option AuthSpec }.

Definition indexValkeyByAuthSecretName (v : indexed_cr) : list string :=
  match ix_Auth v with
  | None => []
  | Some a => if bool_decide (a_SecretName a = "") then [] else [a_SecretName a]
  end.

(** A list by the index: the objects of the namespace whose entries hold the value. *)
Definition list_by_index (ns value : string) (crs : list indexed_cr) : list indexed_cr :=
  List.filter (λ v, bool_decide (ix_Namespace v = ns) && bool_decide (value ∈ indexValkeyByAuthSecretName v)) crs.

Definition mapAuthSecretToCRs (listing : option string) (crs : list indexed_cr) (secret : option (string * string)) : list request :=
  match secret with
  | None => []
  | Some (ns, name) =>
      if bool_decide (name = "") then []
      else match listing with
      | Some _ => []
      | None => (λ v, (ix_Namespace v, ix_Name v)) <$> list_by_index ns name crs
      end
  end.

Definition authSecretCacheNamespaces (watch : list string) : option (gset string) :=
  match watch with [] => None | _ => Some (list_to_set watch) end.

(** ** Properties *)

(** An edit of a CR wakes the reconciler exactly when it changes the spec or one of the
    four operational annotations, absent and empty being the same. *)
Theorem cr_watch_wakes old new :
  cr_watch (UpdateEvent old new) = true ↔
  cm_Generation old ≠ cm_Generation new ∨
  ∃ k, k ∈ operationalAnnotations ∧ default "" (cm_Annotations old !! k) ≠ default "" (cm_Annotations new !! k).
Proof.
  unfold cr_watch, generationChanged, operationalAnnotationChangePredicate, operationalAnnotationsChanged.
  rewrite orb_true_iff, negb_true_iff, Z.eqb_neq, existsb_exists.
  setoid_rewrite negb_true_iff. setoid_rewrite bool_decide_eq_false. by setoid_rewrite <- list_elem_of_In.
Qed.

(** An update of an auth Secret wakes exactly the CRs of its namespace that name it. *)
Theorem auth_secret_wakes crs ns name q :
  name ≠ "" →
  q ∈ mapAuthSecretToCRs None crs (Some (ns, name)) ↔
  ∃ v a, v ∈ crs ∧ ix_Auth v = Some a ∧ a_SecretName a = name ∧ ix_Namespace v = ns ∧ q = (ns, ix_Name v).
Proof.
  intros Hn. unfold mapAuthSecretToCRs. rewrite bool_decide_false by done. rewrite list_elem_of_fmap.
  unfold list_by_index. setoid_rewrite list_elem_of_In. setoid_rewrite List.filter_In.
  setoid_rewrite andb_true_iff. setoid_rewrite bool_decide_eq_true. unfold indexValkeyByAuthSecretName. split.
  - intros (v & -> & Hin & <- & Hv). destruct (ix_Auth v) as [a|] eqn:E; [|by apply not_elem_of_nil in Hv].
    case_bool_decide; [by apply not_elem_of_nil in Hv|]. apply list_elem_of_singleton in Hv as ->. by exists v, a.
  - intros (v & a & Hin & Ha & <- & <- & ->). exists v. rewrite Ha, bool_decide_false by done. split_and!; try done. constructor.
Qed.

(** A list with one condition per type, none with an empty status. *)
Definition well_formed (l : list (string * string)) : Prop := NoDup l.*1 ∧ ∀ c, c ∈ l → c.2 ≠ "".

Lemma foldl_index (l : list (string * string)) (m : gmap string string) t :
  NoDup l.*1 → foldl (λ m c, <[c.1 := c.2]> m) m l !! t =
    match List.find (λ c, bool_decide (c.1 = t)) l with Some c => Some c.2 | None => m !! t end.
Proof.
  revert m. induction l as [|[k s] l IH]; intros m Hd; [done|]. rewrite fmap_cons, NoDup_cons in Hd. destruct Hd as [Hn Hd].
  cbn [foldl]. rewrite IH by done. cbn. case_bool_decide as E; [subst t|].
  - destruct (List.find _ l) as [c|] eqn:Ef; [|by rewrite lookup_insert_eq]. apply List.find_some in Ef as [Hin He]. bool_to_prop.
    exfalso. apply Hn. cbn. rewrite <- He. apply list_elem_of_fmap_2. by apply list_elem_of_In.
  - destruct (List.find _ l); [done|]. by rewrite lookup_insert_ne.
Qed.

(** Pod conditions compare as sets of type and status. *)
Theorem equalPodConditions_iff a b :
  well_formed a → well_formed b → equalPodConditions a b = true ↔ a ≡ₚ b.
Proof.
  intros [Ha _] [Hb Hs]. unfold equalPodConditions. cbv zeta.
  assert (Hmem : ∀ c, c ∈ b → default "" (foldl (λ (m : gmap string string) c, <[c.1 := c.2]> m) ∅ a !! c.1) = c.2 ↔ c ∈ a).
  { intros [k s] Hc. rewrite foldl_index by done. cbn. split.
    - intros E. destruct (List.find _ a) as [[k' s']|] eqn:Ef.
      + apply List.find_some in Ef as [Hin He]. bool_to_prop. cbn in *. subst. by apply list_elem_of_In.
      + rewrite lookup_empty in E. cbn in E. subst s. by destruct (Hs _ Hc).
    - intros Hin. destruct (List.find _ a) as [[k' s']|] eqn:Ef.
      + apply List.find_some in Ef as [Hin' He]. bool_to_prop. cbn in *. subst k'. apply list_elem_of_In in Hin'.
        apply list_elem_of_lookup_1 in Hin as [i Hi]. apply list_elem_of_lookup_1 in Hin' as [j Hj].
        assert (i = j) as ->; [|congruence]. eapply (NoDup_lookup a.*1); [done|by rewrite list_lookup_fmap, Hi|by rewrite list_lookup_fmap, Hj].
      + apply list_elem_of_In in Hin. pose proof (List.find_none _ _ Ef _ Hin) as Hx. cbn in Hx. by rewrite bool_decide_true in Hx. }
  assert (Hall : forallb (λ c, bool_decide (default "" (foldl (λ (m : gmap string string) c, <[c.1 := c.2]> m) ∅ a !! c.1) = c.2)) b = true ↔ b ⊆ a).
  { rewrite forallb_forall. setoid_rewrite bool_decide_eq_true. split.
    - intros H c Hc. apply Hmem; [done|]. apply H. by apply list_elem_of_In.
    - intros H c Hc. apply list_elem_of_In in Hc. apply Hmem; [done|]. by apply H. }
  assert (Hnb : NoDup b) by (by eapply NoDup_fmap_1). unfold len. split.
  - destruct (Z.eqb_spec (Z.of_nat (length a)) (Z.of_nat (length b))) as [El|]; cbn [negb]; [|done]. intros H%Hall.
    symmetry. apply submseteq_length_Permutation; [by apply NoDup_submseteq|lia].
  - intros Hp. rewrite (Permutation_length Hp), Z.eqb_refl. cbn [negb]. apply Hall. intros c. by rewrite Hp.
Qed.

(** The pod watch never fires.  Pods of a StatefulSet have the StatefulSet as their
    controller, and the watch maps a pod to a controller of kind Valkey: whatever changes
    in such a pod, and although the predicate lets it through, no CR is reconciled for
    it.  A new pod's address or a readiness flip waits for another trigger. *)
Theorem pod_watch_never_fires {H : OwnerHandler} e :
  (∀ p, p ∈ event_objects e → ∃ r, List.find or_Controller (pm_Owners p) = Some r ∧ or_Kind r = "StatefulSet") →
  pod_watch e = [].
Proof.
  intros Hc. unfold pod_watch. case_match; [|done].
  assert (Hn : ∀ q, q ∉ event_objects e ≫= λ p, owner_requests "Valkey" (pm_Namespace p) (pm_Owners p)).
  { intros q (p & Hq & Hp)%list_elem_of_bind. apply owner_requests_spec in Hq as (r & Hr & Hk & _).
    destruct (Hc p Hp) as (r' & Hr' & Hk'). simplify_eq. rewrite Hk in Hk'. done. }
  destruct (_ ≫= _) as [|q l]; [done|]. destruct (Hn q). constructor.
Qed.

Definition sts_pod (ip : string) (ready : string) : pod_meta :=
  {| pm_Namespace := "default";
     pm_Owners := [{| or_UID := "u-sts"; or_Kind := "StatefulSet"; or_Name := "vk"; or_Controller := true |}];
     pm_IP := ip; pm_Phase := "Running"; pm_Conditions := [("Ready", ready)] |}.

Lemma pod_watch_never_fires_witness :
  podStatusChangePredicate (UpdateEvent (sts_pod "" "False") (sts_pod "10.0.0.1" "True")) = true ∧
  pod_watch (H := controller_of) (UpdateEvent (sts_pod "" "False") (sts_pod "10.0.0.1" "True")) = [].
Proof.
  split; [reflexivity|]. apply (pod_watch_never_fires (H := controller_of)).
  intros p [->|[->|H%not_elem_of_nil]%elem_of_cons]%elem_of_cons; [..|done]; by eexists.
Defined.

Lemma auth_secret_wakes_witness :
  ("default", "vk") ∈ mapAuthSecretToCRs None
    [{| ix_Namespace := "default"; ix_Name := "vk";
        ix_Auth := Some {| a_SecretName := "pw"; a_SecretKey := ""; a_SentinelSecretName := ""; a_SentinelSecretKey := "" |} |}]
    (Some ("default", "pw")).
Proof. apply auth_secret_wakes; [done|]. do 2 eexists. split_and!; [constructor|done..]. Defined.

Lemma equalPodConditions_iff_witness :
  equalPodConditions [("Ready", "True"); ("PodScheduled", "True")] [("PodScheduled", "True"); ("Ready", "True")] = true.
Proof.
  assert (Hw : ∀ l, bool_decide (NoDup l.*1) && forallb (λ c : string * string, negb (bool_decide (c.2 = ""))) l = true → well_formed l).
  { intros l [H1 H2]%andb_true_iff. bool_to_prop. split; [done|]. intros c Hc. rewrite forallb_forall in H2.
    apply list_elem_of_In, H2 in Hc. by bool_to_prop. }
  apply equalPodConditions_iff; [apply Hw; reflexivity..|]. constructor.
Defined.
