(* ===== verification/PerCR.v ===== *)
(** * The per-CR memory and its pruner: [internal/controller/{percrstate,stale_tracker_pruner}.go],
    [forgetCR] of [valkey_controller.go]

    The process keeps one bag of state per CR.  Its parts are the states of the
    components; this file has the table, the two ways an entry is dropped (the CR was seen
    to be gone, or the daily sweep did not find it), and what a sweep that is wrong about a
    live CR costs. *)
From S2P Require Import Prelude GoStd SentinelParse Observer SQAggregate Redaction SentinelWire Surgery Status DeriveState PrimaryRollout RoleLabels AuthRotation OrphanMaster ObserverManager QuorumGate ReadinessGate SentinelInfra Reconcile SQRecords.
Local Open Scope Z_scope.

(** ** The bag *)
Record bag := {
  bg_locked : bool;                              (* [reconcile] is held *)
  bg_core : perCRState;                          (* latch, edges, manual rollout *)
  bg_quorum : crQuorumState;
  bg_dual : dual_state;
  bg_gate : gate_state;
  bg_sq : sq_cache;
  bg_missingAuthSeen : Time;
  bg_authPassword : option authPasswordCacheEntry;
  bg_stability : option primaryStabilityState
}.
Definition gate_zero : gate_state := {| gs_tracker := ∅; noPrimarySince := zero_time; staleReplicaEscapeLastFired := zero_time |}.
Definition bag_new : bag :=
  {| bg_locked := false; bg_core := percr_zero; bg_quorum := quorum_zero; bg_dual := dual_zero; bg_gate := gate_zero;
     bg_sq := sq_cache_zero; bg_missingAuthSeen := zero_time; bg_authPassword := None; bg_stability := None |}.

(** A tracker that is nil is created empty when it is next used. *)
Definition resetDualMasterState (d : dual_state) : dual_state :=
  {| dualMasterSelfHeal := dualMasterSelfHeal d; dualMasterDeferEdge := dualMasterDeferEdge d;
     dualMasterDeferLastAt := dualMasterDeferLastAt d; dualMasterObserved := None; dualMasterObservedEdge := "";
     dualMasterEventUnion := [] |}.

Definition pruneStale (b : bag) : bag :=
  {| bg_locked := bg_locked b;
     bg_core := {| failoverLatch := failoverLatch (bg_core b); lastState := lastState percr_zero;
                   lastWasReplicasRolled := lastWasReplicasRolled percr_zero; lastWasPending := lastWasPending percr_zero;
                   lastTarget := lastTarget percr_zero; switchMasterEdge := switchMasterEdge (bg_core b);
                   DeriveState.suppressionActive := DeriveState.suppressionActive percr_zero;
                   manualRollout := manualRollout (bg_core b) |};
     bg_quorum := quorum_zero;
     bg_dual := let d := resetDualMasterState (bg_dual b) in
                {| dualMasterSelfHeal := None; dualMasterDeferEdge := ""; dualMasterDeferLastAt := zero_time;
                   dualMasterObserved := dualMasterObserved d; dualMasterObservedEdge := dualMasterObservedEdge d;
                   dualMasterEventUnion := dualMasterEventUnion d |};
     bg_gate := gate_zero;
     bg_sq := sq_cache_zero;
     bg_missingAuthSeen := zero_time;
     bg_authPassword := bg_authPassword b;
     bg_stability := bg_stability b |}.

(** ** The table *)
Abbreviation table := (gmap observerKey bag).

Definition stateFor (key : observerKey) (t : table) : bag * table :=
  match t !! key with Some b => (b, t) | None => (bag_new, <[key := bag_new]> t) end.
Definition stateForIfPresent (key : observerKey) (t : table) : option bag := t !! key.

(** [Manager.Remove], without a manager nothing. *)
Definition forgetSentinelObserver (key : observerKey) (m : option mgr) : option mgr := Remove key ∘ RemoveGhosts key <$> m.
Definition forgetCR (key : observerKey) (t : table) (m : option mgr) : table * option mgr :=
  (delete key t, forgetSentinelObserver key m).

(** ** The sweep *)
Definition DefaultStaleTrackerPruneInterval : Duration := 24 * 3600 * Second.
Definition prune_interval (configured : Duration) : Duration :=
  if configured <=? 0 then DefaultStaleTrackerPruneInterval else configured.

Definition prune_step (live : gset observerKey) (a : table * option mgr) (k : observerKey) : table * option mgr :=
  if bool_decide (k ∈ live) then a
  else match a.1 !! k with
  | None => a
  | Some b => (<[k := pruneStale b]> a.1, forgetSentinelObserver k a.2)
  end.

(** [keys] is the order in which the table is ranged over. *)
Definition prune (listed : result (list observerKey)) (keys : list observerKey) (t : table) (m : option mgr) :
    option string * table * option mgr :=
  match listed with
  | Err e => (Some ("listing Valkey CRs: " +:+ e), t, m)
  | Ok crs => let a := foldl (prune_step (list_to_set crs)) (t, m) keys in (None, a.1, a.2)
  end.

(** ** Lemmas *)
Lemma prune_bags live keys a k :
  NoDup keys →
  (foldl (prune_step live) a keys).1 !! k =
    if bool_decide (k ∈ live) then a.1 !! k else if bool_decide (k ∈ keys) then pruneStale <$> (a.1 !! k) else a.1 !! k.
Proof.
  revert a. induction keys as [|x keys IH]; intros a Hd; cbn [foldl].
  { rewrite (bool_decide_false (k ∈ [])) by apply not_elem_of_nil. by case_match. }
  apply NoDup_cons in Hd as [Hn Hd]. rewrite IH by done. unfold prune_step.
  destruct (bool_decide (x ∈ live)) eqn:Ex; bool_to_prop.
  { case_bool_decide as Hl; [done|]. assert (Hne : k ≠ x) by congruence.
    assert (Hk : bool_decide (k ∈ x :: keys) = bool_decide (k ∈ keys)) by (apply bool_decide_ext; set_solver). by rewrite Hk. }
  destruct (decide (k = x)) as [->|Hne].
  - rewrite (bool_decide_false (x ∈ live)), (bool_decide_false (x ∈ keys)), (bool_decide_true (x ∈ x :: keys)) by (done || constructor).
    destruct (a.1 !! x) as [b|] eqn:E; cbn; [by rewrite lookup_insert_eq|by rewrite E].
  - assert (Hk : bool_decide (k ∈ x :: keys) = bool_decide (k ∈ keys)) by (apply bool_decide_ext; set_solver). rewrite Hk.
    destruct (a.1 !! x); cbn; [|done]. by rewrite lookup_insert_ne by done.
Qed.

Lemma remove_other key k m : k ≠ key → observers (Remove key (RemoveGhosts key m)) !! k = observers m !! k.
Proof. intros Hne. unfold Remove. cbn. destruct (observers m !! key); cbn; [by rewrite lookup_delete_ne|done]. Qed.

Lemma prune_observers live keys t m k :
  k ∈ live → ∃ m', (foldl (prune_step live) (t, Some m) keys).2 = Some m' ∧ observers m' !! k = observers m !! k.
Proof.
  intros Hk. revert t m. induction keys as [|x keys IH]; intros t m; cbn [foldl]; [by exists m|].
  unfold prune_step at 2. case_bool_decide as Hx; [apply IH|]. cbn [fst snd]. destruct (t !! x) as [b|]; [|apply IH].
  unfold forgetSentinelObserver. cbn. destruct (IH (<[x := pruneStale b]> t) (Remove x (RemoveGhosts x m))) as (m' & Hm & Ho).
  exists m'. split; [done|]. rewrite Ho. apply remove_other. by intros ->.
Qed.

(** ** Properties *)

(** The sweep.  A CR it found keeps its memory and its observer; of one it did not find,
    the reconcile lock, the failover latch, the audit baseline of manual rollouts, the
    switch-master edge, the cached password and the stability of the primary are kept;
    and when the CRs cannot be listed nothing is touched. *)
Theorem prune_spares listed keys t m e t' m' :
  prune listed keys t (Some m) = (e, t', m') → NoDup keys →
  match listed with
  | Err _ => t' = t ∧ m' = Some m
  | Ok crs =>
      (∀ k, k ∈ crs → t' !! k = t !! k ∧ ∃ m1, m' = Some m1 ∧ observers m1 !! k = observers m !! k) ∧
      (∀ k b, t !! k = Some b → ∃ b', t' !! k = Some b' ∧ bg_locked b' = bg_locked b ∧
         failoverLatch (bg_core b') = failoverLatch (bg_core b) ∧ manualRollout (bg_core b') = manualRollout (bg_core b) ∧
         switchMasterEdge (bg_core b') = switchMasterEdge (bg_core b) ∧
         bg_authPassword b' = bg_authPassword b ∧ bg_stability b' = bg_stability b)
  end.
Proof.
  unfold prune. destruct listed as [crs|]; intros [= <- <- <-] Hd; [|done]. split.
  - intros k Hk. assert (Hk' : k ∈ (list_to_set crs : gset observerKey)) by (by apply elem_of_list_to_set). split.
    + rewrite prune_bags by done. by rewrite bool_decide_true.
    + destruct (prune_observers (list_to_set crs) keys t m k Hk') as (m1 & -> & Ho). eauto.
  - intros k b Hb. rewrite prune_bags by done. cbn [fst]. rewrite Hb. repeat case_match; cbn; eauto 10.
    all: eexists; split_and!; done.
Qed.

(** A sweep that is wrong about a live CR does not bring two bounded escapes closer
    together, although it forgets when the last one fired: the wait without a primary
    starts again, and is as long as the pause between escapes. *)
Theorem prune_keeps_escape_spacing b t1 now :
  t1 ≠ zero_time → staleReplicaEscapeLastFired (bg_gate b) <= t1 →
  let '(since, s) := observeNoPrimarySince t1 (bg_gate (pruneStale b)) in
  staleReplicaEscapeArmedAt since now s = true →
  staleReplicaEscapeCooldown <= Sub now (staleReplicaEscapeLastFired (bg_gate b)).
Proof.
  intros Hz Hle. unfold observeNoPrimarySince, staleReplicaEscapeArmedAt. cbn. intros H. bool_to_prop.
  match goal with Hw : _ <= Sub now t1 |- _ => apply Sub_ge_iff in Hw; [|by vm_compute] end. apply Sub_ge_iff; [by vm_compute|].
  unfold staleReplicaEscapeCooldown, staleReplicaEscapeDwell in *. lia.
Qed.

(** The suppression of sentinel commands is not among what is kept: the sweep lifts it, and
    a first observation of the loss does not bring it back. *)
Theorem prune_lifts_suppression b tun quorum poll now :
  QuorumGate.suppressionActive (q_gate (bg_quorum (pruneStale b))) = false ∧
  QuorumGate.suppressionActive (updateQuorumSuppression tun quorum poll now (q_gate (bg_quorum (pruneStale b)))).2 = false.
Proof. split; [done|]. cbn. unfold updateQuorumSuppression. destruct quorum; cbn; repeat case_match; done. Qed.

(** A CR seen to be gone leaves nothing: no bag, no registered observer, no debounce; the
    next CR of that name starts from an empty one. *)
Theorem forget_leaves_nothing key t m :
  let '(t', m') := forgetCR key t (Some m) in
  stateForIfPresent key t' = None ∧ (stateFor key t').1 = bag_new ∧
  ∃ m1, m' = Some m1 ∧ observers m1 !! key = None ∧ m_ghosts m1 !! key = None.
Proof.
  cbn. split; [apply lookup_delete_eq|]. split; [unfold stateFor; by rewrite lookup_delete_eq|].
  eexists. split; [done|]. unfold Remove. cbn. destruct (observers m !! key) eqn:E; cbn; by rewrite ?lookup_delete_eq, ?E.
Qed.
