(* ===== verification/GoFloat.v ===== *)
(** * float64, as far as the operator uses it

    A finite [float64] is a significand and a power of two.  Results are rounded to 53
    bits, to nearest with ties to even; the values that occur are far from overflow and
    from the subnormal range. *)
From S2P Require Import Prelude GoStd.
Local Open Scope Z_scope.

Record float64 := { significand : Z; exponent : Z }.

(** The nearest number with 53 significant bits, as a multiple of [2 ^ k]. *)
Definition excess (n : Z) : Z := Z.max 0 (Z.log2 (Z.abs n) - 52).
Definition nearest (a k : Z) : Z :=
  let q := a / 2 ^ k in
  let r := a mod 2 ^ k in
  let h := 2 ^ (k - 1) in
  if (r <? h) || ((r =? h) && Z.even q) then q else q + 1.
Definition round_significand (n : Z) : Z :=
  if excess n =? 0 then n else Z.sgn n * nearest (Z.abs n) (excess n).

Definition of_int64 (z : Z) : float64 := {| significand := round_significand z; exponent := excess z |}.
Definition float_mul (x y : float64) : float64 :=
  let n := significand x * significand y in
  {| significand := round_significand n; exponent := excess n + exponent x + exponent y |}.
Definition float_ltb (x y : float64) : bool :=
  let e := Z.min (exponent x) (exponent y) in
  significand x * 2 ^ (exponent x - e) <? significand y * 2 ^ (exponent y - e).
(** Conversion to an integer truncates towards zero. *)
Definition to_int64 (x : float64) : Z :=
  if 0 <=? exponent x then significand x * 2 ^ exponent x else Z.quot (significand x) (2 ^ (- exponent x)).

(** The constant [0.10]. *)
Definition float_tenth : float64 := {| significand := 3602879701896397; exponent := -55 |}.

(** ** Rounding errors *)
Lemma excess_nonneg n : 0 <= excess n.
Proof. unfold excess. lia. Qed.

Lemma nearest_error a k : 0 <= a → 0 < k → 2 * Z.abs (nearest a k * 2 ^ k - a) <= 2 ^ k.
Proof.
  intros Ha Hk. unfold nearest. pose proof (Z.pow_pos_nonneg 2 k ltac:(lia) ltac:(lia)) as Hp.
  pose proof (Z.div_mod a (2 ^ k) ltac:(lia)) as E. pose proof (Z.mod_pos_bound a (2 ^ k) Hp) as Hm.
  assert (H2 : 2 ^ k = 2 * 2 ^ (k - 1)) by (rewrite <- Z.pow_succ_r by lia; f_equal; lia).
  set (q := a / 2 ^ k) in *. set (r := a mod 2 ^ k) in *. set (h := 2 ^ (k - 1)) in *.
  destruct ((r <? h) || ((r =? h) && Z.even q)) eqn:Eb.
  - assert (r <= h) by (destruct (Z.ltb_spec r h), (Z.eqb_spec r h); cbn in Eb; lia || done). rewrite Z.abs_neq; nia.
  - assert (h <= r) by (destruct (Z.ltb_spec r h); cbn in Eb; lia || done). rewrite Z.abs_eq; nia.
Qed.

(** One unit in the last place of 53 bits, halved. *)
Lemma round_error n : 2 ^ 53 * Z.abs (round_significand n * 2 ^ excess n - n) <= Z.abs n.
Proof.
  unfold round_significand. destruct (Z.eqb_spec (excess n) 0) as [E|E].
  { rewrite E, Z.mul_1_r, Z.sub_diag. cbn. lia. }
  pose proof (excess_nonneg n). assert (Hk : excess n = Z.log2 (Z.abs n) - 52) by (unfold excess in *; lia).
  pose proof (nearest_error (Z.abs n) (excess n) ltac:(lia) ltac:(lia)) as He.
  assert (Hn : 0 < Z.abs n) by (destruct (Z.eq_dec n 0) as [->|]; [by destruct E|lia]).
  pose proof (Z.log2_spec (Z.abs n) Hn) as [Hl _].
  assert (Hp : 2 ^ Z.log2 (Z.abs n) = 2 ^ 52 * 2 ^ excess n) by (rewrite <- Z.pow_add_r by lia; f_equal; lia).
  replace (Z.sgn n * nearest (Z.abs n) (excess n) * 2 ^ excess n - n)
    with (Z.sgn n * (nearest (Z.abs n) (excess n) * 2 ^ excess n - Z.abs n)) by (pose proof (Z.sgn_abs n); nia).
  rewrite Z.abs_mul. assert (Z.abs (Z.sgn n) = 1) as -> by (destruct n; cbn; lia).
  change (2 ^ 53) with (2 ^ 52 * 2) in *. nia.
Qed.

(** Comparison of values with exponents of at least [-55]. *)
Lemma float_ltb_iff x y :
  -55 <= exponent x → -55 <= exponent y →
  float_ltb x y = true ↔ significand x * 2 ^ (exponent x + 55) < significand y * 2 ^ (exponent y + 55).
Proof.
  intros Hx Hy. unfold float_ltb. set (e := Z.min _ _). assert (He : e = Z.min (exponent x) (exponent y)) by done. clearbody e. rewrite Z.ltb_lt.
  replace (exponent x + 55) with ((exponent x - e) + (e + 55)) by lia.
  replace (exponent y + 55) with ((exponent y - e) + (e + 55)) by lia.
  rewrite (Z.pow_add_r 2 (exponent x - e)), (Z.pow_add_r 2 (exponent y - e)), !Z.mul_assoc by lia. apply Z.mul_lt_mono_pos_r, Z.pow_pos_nonneg; lia.
Qed.

(** ** A tenth of a duration *)
Section tenth.
Context (total : Z) (Ht : 0 <= total).

Definition tenth_scaled : Z := let x := float_mul float_tenth (of_int64 total) in significand x * 2 ^ (exponent x + 55).

Lemma tenth_exponent : -55 <= exponent (float_mul float_tenth (of_int64 total)).
Proof. cbn. pose proof (excess_nonneg total). pose proof (excess_nonneg (3602879701896397 * round_significand total)). lia. Qed.

(** The computed tenth is off by at most one part in [2 ^ 51]. *)
Lemma tenth_error : 2 ^ 51 * Z.abs (10 * tenth_scaled - 2 ^ 55 * total) <= 2 ^ 55 * total.
Proof.
  unfold tenth_scaled. cbn [float_mul significand exponent of_int64 float_tenth].
  set (c := 3602879701896397). set (m := round_significand total). set (k := excess total).
  set (k' := excess (c * m)). pose proof (excess_nonneg total) as Hk. pose proof (excess_nonneg (c * m)) as Hk'.
  pose proof (round_error total) as H1. pose proof (round_error (c * m)) as H2. fold m k in H1. fold k' in H2.
  replace (k' + -55 + k + 55) with (k' + k) by lia. rewrite Z.pow_add_r, (Z.mul_assoc (round_significand (c * m))) by lia.
  pose proof (Z.pow_pos_nonneg 2 k ltac:(lia) ltac:(lia)) as Hp.
  set (y := round_significand (c * m) * 2 ^ k') in *. set (p := 2 ^ k) in *. set (x := m * p) in *.
  assert (H3 : 2 ^ 53 * Z.abs (y * p - c * x) <= c * Z.abs x).
  { replace (y * p - c * x) with ((y - c * m) * p) by (unfold x; ring). rewrite Z.abs_mul, (Z.abs_eq p) by lia.
    assert (Ec : c * Z.abs x = Z.abs (c * m) * p) by (unfold x; rewrite !Z.abs_mul, (Z.abs_eq p) by lia; rewrite (Z.abs_eq c) by done; ring).
    rewrite Ec, Z.mul_assoc. apply Z.mul_le_mono_nonneg_r; [lia|done]. }
  clear H2 Hp. generalize dependent (y * p). intros z H3. clearbody x. unfold c in H3. lia.
Qed.
End tenth.

Lemma float_tenth_trunc total :
  0 <= total →
  let d := to_int64 (float_mul float_tenth (of_int64 total)) in d * 2 ^ 55 <= tenth_scaled total < (d + 1) * 2 ^ 55.
Proof.
  intros Ht. pose proof (tenth_error total Ht) as He. pose proof (tenth_exponent total) as Hx. unfold tenth_scaled in *.
  set (x := float_mul _ _) in *. clearbody x. cbv zeta. unfold to_int64.
  destruct (Z.leb_spec 0 (exponent x)).
  - rewrite Z.pow_add_r, Z.mul_assoc by lia. split; [lia|]. pose proof (Z.pow_pos_nonneg 2 55). lia.
  - set (k := - exponent x) in *. assert (Hk : 0 <= k <= 55) by lia.
    replace (exponent x + 55) with (55 - k) in * by lia.
    assert (Hp : 2 ^ 55 = 2 ^ k * 2 ^ (55 - k)) by (rewrite <- Z.pow_add_r by lia; f_equal; lia).
    assert (0 < 2 ^ k) by (apply Z.pow_pos_nonneg; lia). assert (Hq : 0 < 2 ^ (55 - k)) by (apply Z.pow_pos_nonneg; lia).
    assert (Hs : 0 <= significand x) by nia.
    rewrite Z.quot_div_nonneg by lia. pose proof (Z.div_mod (significand x) (2 ^ k) ltac:(lia)).
    pose proof (Z.mod_pos_bound (significand x) (2 ^ k) ltac:(lia)). rewrite Hp. nia.
Qed.
