(* ===== verification/DynAuth.v ===== *)
(** * The webhook's certificates: [internal/webhook/dynauth/{cert,rotation,authority,detect}.go]

    A self-signed CA and one leaf per TLS endpoint, kept in Secrets, renewed ahead of
    expiry by the leader's loop.  [CABundle] has the injector that publishes the CA.

    Cryptography and encodings are an interface ([X509]): what the code relies on is that
    encodings decode, that a certificate carries what was asked for with times cut to
    whole seconds, that the signer's key must fit its certificate, and that a signature
    checks exactly against the key that made it. *)
From S2P Require Import Prelude GoStd GoFmt GoFloat PvcResize.
Local Open Scope Z_scope.

(** ** Certificates *)
Record Certificate := {
  SerialNumber : Z;
  CommonName : string;
  NotBefore : Time;
  NotAfter : Time;
  KeyUsageCertSign : bool;
  KeyUsageDigitalSignature : bool;
  KeyUsageKeyEncipherment : bool;
  ExtKeyUsageServerAuth : bool;
  BasicConstraintsValid : bool;
  IsCA : bool;
  MaxPathLenZero : bool;
  DNSNames : list string;
  PublicKey : option string;
  Signature : string
}.
#[export] Instance Certificate_eq_dec : EqDecision Certificate.
Proof. solve_decision. Defined.

Definition whole_second (t : Time) : Time := t / Second * Second.
(** A template as it comes back from the parser. *)
Definition issued (tmpl : Certificate) (pub sg : string) : Certificate :=
  {| SerialNumber := SerialNumber tmpl; CommonName := CommonName tmpl; NotBefore := whole_second (NotBefore tmpl);
     NotAfter := whole_second (NotAfter tmpl); KeyUsageCertSign := KeyUsageCertSign tmpl;
     KeyUsageDigitalSignature := KeyUsageDigitalSignature tmpl; KeyUsageKeyEncipherment := KeyUsageKeyEncipherment tmpl;
     ExtKeyUsageServerAuth := ExtKeyUsageServerAuth tmpl; BasicConstraintsValid := BasicConstraintsValid tmpl;
     IsCA := IsCA tmpl; MaxPathLenZero := MaxPathLenZero tmpl; DNSNames := DNSNames tmpl; PublicKey := Some pub;
     Signature := sg |}.
(** What [CheckSignatureFrom] asks of the parent. *)
Definition may_sign (c : Certificate) : bool := BasicConstraintsValid c && IsCA c && KeyUsageCertSign c.

Class X509 := {
  blob : Type;
  blob_eq_dec :: EqDecision blob;
  no_bytes : blob;
  rsa_public : string → string;
  EncodePEM : string → blob → blob;
  DecodePEM : blob → option (string * blob);
  MarshalPKCS8PrivateKey : string → result blob;
  ParsePKCS8PrivateKey : blob → result (string + string);    (* an RSA key, or the type of another *)
  ParsePKCS1PrivateKey : blob → result string;
  CreateCertificate : Certificate → Certificate → string → string → result blob;
  ParseCertificate : blob → result Certificate;
  CheckSignatureFrom : Certificate → Certificate → option string;
  decode_encode ty b : DecodePEM (EncodePEM ty b) = Some (ty, b);
  decode_nothing : DecodePEM no_bytes = None;
  pkcs8_parses k b : MarshalPKCS8PrivateKey k = Ok b → ParsePKCS8PrivateKey b = Ok (inl k);
  create_parses tmpl parent pub priv b :
    CreateCertificate tmpl parent pub priv = Ok b → ∃ sg, ParseCertificate b = Ok (issued tmpl pub sg);
  create_key_fits tmpl parent pub priv b :
    CreateCertificate tmpl parent pub priv = Ok b → PublicKey parent = None ∨ PublicKey parent = Some (rsa_public priv);
  create_signature tmpl parent pub priv b c ca :
    CreateCertificate tmpl parent pub priv = Ok b → ParseCertificate b = Ok c →
    CheckSignatureFrom c ca = None ↔ may_sign ca = true ∧ PublicKey ca = Some (rsa_public priv)
}.

Section certs.
Context {X : X509}.

Record CertMaterial := { CertPEM : blob; KeyPEM : blob }.

Definition caCommonName : string := "velkir-ca".
Definition pemBlockPKCS8 : string := "PRIVATE KEY".
Definition pemBlockPKCS1 : string := "RSA PRIVATE KEY".

Definition marshalRSAKeyPEM (key : string) : result blob :=
  match MarshalPKCS8PrivateKey key with
  | Err e => Err ("marshal PKCS#8 private key: " +:+ e)
  | Ok der => Ok (EncodePEM pemBlockPKCS8 der)
  end.

Definition parseRSAKeyPEM (pem : blob) : result string :=
  match DecodePEM pem with
  | None => Err "decode private key PEM block"
  | Some (ty, bytes) =>
      if bool_decide (ty = pemBlockPKCS8) then
        match ParsePKCS8PrivateKey bytes with
        | Err e => Err ("parse PKCS#8 private key: " +:+ e)
        | Ok (inr t) => Err ("PKCS#8 key is " +:+ t +:+ ", want *rsa.PrivateKey")
        | Ok (inl k) => Ok k
        end
      else if bool_decide (ty = pemBlockPKCS1) then
        match ParsePKCS1PrivateKey bytes with
        | Err e => Err ("parse PKCS#1 private key: " +:+ e)
        | Ok k => Ok k
        end
      else Err ("unexpected private key PEM block type " +:+ Quote ty)
  end.

Definition ParseCert (pem : blob) : result Certificate :=
  match DecodePEM pem with
  | None => Err "decode CERTIFICATE PEM block"
  | Some (ty, bytes) =>
      if bool_decide (ty = "CERTIFICATE") then ParseCertificate bytes else Err "decode CERTIFICATE PEM block"
  end.

Definition parseCertAndKey (m : CertMaterial) : result (Certificate * string) :=
  match ParseCert (CertPEM m) with
  | Err e => Err e
  | Ok c => match parseRSAKeyPEM (KeyPEM m) with Err e => Err e | Ok k => Ok (c, k) end
  end.

(** [key] and [serial] are what the random source gave. *)
Definition randomSerial (serial : result Z) : result Z :=
  match serial with Err e => Err ("generate cert serial: " +:+ e) | Ok n => Ok n end.

Definition ca_template (now : Time) (lifetime : Duration) (serial : Z) : Certificate :=
  {| SerialNumber := serial; CommonName := caCommonName; NotBefore := Add now (- Minute); NotAfter := Add now lifetime;
     KeyUsageCertSign := true; KeyUsageDigitalSignature := true; KeyUsageKeyEncipherment := false;
     ExtKeyUsageServerAuth := false; BasicConstraintsValid := true; IsCA := true; MaxPathLenZero := true; DNSNames := [];
     PublicKey := None; Signature := "" |}.

Definition GenerateCA (now : Time) (lifetime : Duration) (key : result string) (serial : result Z) : result CertMaterial :=
  match key with
  | Err e => Err ("generate CA key: " +:+ e)
  | Ok key =>
      match randomSerial serial with
      | Err e => Err e
      | Ok serial =>
          let tmpl := ca_template now lifetime serial in
          match CreateCertificate tmpl tmpl (rsa_public key) key with
          | Err e => Err ("self-sign CA: " +:+ e)
          | Ok der =>
              match marshalRSAKeyPEM key with
              | Err e => Err ("encode CA key: " +:+ e)
              | Ok keyPEM => Ok {| CertPEM := EncodePEM "CERTIFICATE" der; KeyPEM := keyPEM |}
              end
          end
      end
  end.

Definition leaf_template (now : Time) (lifetime : Duration) (dnsNames : list string) (serial : Z) : Certificate :=
  {| SerialNumber := serial; CommonName := default "" (head dnsNames); NotBefore := Add now (- Minute);
     NotAfter := Add now lifetime; KeyUsageCertSign := false; KeyUsageDigitalSignature := true;
     KeyUsageKeyEncipherment := true; ExtKeyUsageServerAuth := true; BasicConstraintsValid := false; IsCA := false;
     MaxPathLenZero := false; DNSNames := dnsNames; PublicKey := None; Signature := "" |}.

Definition GenerateLeaf (now : Time) (lifetime : Duration) (dnsNames : list string) (ca : CertMaterial) (key : result string)
    (serial : result Z) : result CertMaterial :=
  if bool_decide (dnsNames = []) then Err "leaf cert needs at least one DNS SAN"
  else match parseCertAndKey ca with
  | Err e => Err ("parse CA for leaf signing: " +:+ e)
  | Ok (caCert, caKey) =>
      match key with
      | Err e => Err ("generate leaf key: " +:+ e)
      | Ok key =>
          match randomSerial serial with
          | Err e => Err e
          | Ok serial =>
              match CreateCertificate (leaf_template now lifetime dnsNames serial) caCert (rsa_public key) caKey with
              | Err e => Err ("sign leaf with CA: " +:+ e)
              | Ok der =>
                  match marshalRSAKeyPEM key with
                  | Err e => Err ("encode leaf key: " +:+ e)
                  | Ok keyPEM => Ok {| CertPEM := EncodePEM "CERTIFICATE" der; KeyPEM := keyPEM |}
                  end
              end
          end
      end
  end.
End certs.
Arguments CertMaterial : clear implicits. Arguments CertMaterial X : assert.

(** ** When to renew *)
Definition RotationFraction : float64 := float_tenth.

Definition ShouldRotate (cert : Certificate) (now : Time) (fraction : float64) : bool :=
  if After now (NotAfter cert) then true
  else
    let total := Sub (NotAfter cert) (NotBefore cert) in
    let remaining := Sub (NotAfter cert) now in
    float_ltb (of_int64 remaining) (float_mul fraction (of_int64 total)).

Definition minRotationInterval : Duration := 1 * Hour.
Definition maxRotationInterval : Duration := 24 * Hour.

Definition NextRotationCheck (cert : Certificate) (now : Time) (fraction : float64) : Duration :=
  let total := Sub (NotAfter cert) (NotBefore cert) in
  let threshold := Add (NotAfter cert) (- to_int64 (float_mul fraction (of_int64 total))) in
  let until := Sub threshold now in
  if until <? minRotationInterval then minRotationInterval
  else if maxRotationInterval <? until then maxRotationInterval
  else until.

(** ** Secrets *)
Definition CASecretName : string := "velkir-webhook-ca".
Definition LeafSecretName : string := "velkir-webhook-cert".
Definition MetricsLeafSecretName : string := "velkir-metrics-cert".
Definition ManagedByLabel : string := "app.kubernetes.io/managed-by".
Definition ManagedByValue : string := "velkir".
Definition CertRoleLabel : string := "velkir.ioxie.dev/cert-role".
Definition CertRoleCA : string := "ca".
Definition CertRoleLeaf : string := "webhook-leaf".
Definition CertRoleMetricsLeaf : string := "metrics-leaf".
Definition ForceRotateAnnotation : string := "velkir.ioxie.dev/force-rotate".
Definition TLSCertKey : string := "tls.crt".
Definition TLSPrivateKeyKey : string := "tls.key".

Record LeafSpec := { SecretName : string; lf_DNSNames : list string; CertRole : string; ExpiryGaugeLabel : string }.

Definition leaf_hosts (serviceName namespace : string) : list string :=
  [serviceName +:+ "." +:+ namespace +:+ ".svc"; serviceName +:+ "." +:+ namespace +:+ ".svc.cluster.local"].
Definition WebhookLeafSpec (serviceName namespace : string) : LeafSpec :=
  {| SecretName := LeafSecretName; CertRole := CertRoleLeaf; lf_DNSNames := leaf_hosts serviceName namespace;
     ExpiryGaugeLabel := "webhook-leaf" |}.
Definition MetricsLeafSpec (serviceName namespace : string) : LeafSpec :=
  {| SecretName := MetricsLeafSecretName; CertRole := CertRoleMetricsLeaf; lf_DNSNames := leaf_hosts serviceName namespace;
     ExpiryGaugeLabel := "metrics-leaf" |}.

(** The lifetimes after [applyDefaults]. *)
Record Authority := { Leaves : list LeafSpec; CALifetime : Duration; LeafLifetime : Duration }.
Definition DefaultCALifetime : Duration := 5 * 365 * 24 * Hour.
Definition DefaultLeafLifetime : Duration := 365 * 24 * Hour.
Definition applyDefaults (a : Authority) : Authority :=
  {| Leaves := Leaves a;
     CALifetime := if CALifetime a =? 0 then DefaultCALifetime else CALifetime a;
     LeafLifetime := if LeafLifetime a =? 0 then DefaultLeafLifetime else LeafLifetime a |}.

Section authority.
Context {X : X509}.

Record TLSSecret := {
  ts_Labels : gmap string string;
  ts_Annotations : gmap string string;
  ts_Data : gmap string blob
}.
#[export] Instance TLSSecret_eq_dec : EqDecision TLSSecret.
Proof. solve_decision. Defined.
Abbreviation tls_store := (gmap string TLSSecret).

Definition secretPayload (mat : CertMaterial X) (caPEM : blob) : gmap string blob :=
  list_to_map [(TLSCertKey, CertPEM mat); (TLSPrivateKeyKey, KeyPEM mat); ("ca.crt", caPEM)].
Definition materialFromSecret (sec : TLSSecret) : CertMaterial X :=
  {| CertPEM := default no_bytes (ts_Data sec !! TLSCertKey); KeyPEM := default no_bytes (ts_Data sec !! TLSPrivateKeyKey) |}.
Definition shouldForceRotate (sec : TLSSecret) : bool := bool_decide (is_Some (ts_Annotations sec !! ForceRotateAnnotation)).

(** A read goes through the cache of the manager's client: it is current, or lags behind,
    or fails. *)
Inductive cache_read : Type := Current | Lagging (held : option TLSSecret) | ReadFailed (e : api_error).

Definition getSecret (name : string) (r : cache_read) (s : tls_store) : TLSSecret + api_error :=
  match r with
  | ReadFailed e => inr e
  | Lagging held => match held with Some sec => inl sec | None => inr not_found end
  | Current => match s !! name with Some sec => inl sec | None => inr not_found end
  end.

(** A Secret that is there already is left as it is, and that is no error. *)
Definition createSecret (name role : string) (mat : CertMaterial X) (caPEM : blob) (w : option api_error) (s : tls_store) :
    option string * tls_store :=
  match w with
  | Some e => (Some (e_text e), s)
  | None =>
      match s !! name with
      | Some _ => (None, s)
      | None =>
          (None, <[name := {| ts_Labels := list_to_map [(ManagedByLabel, ManagedByValue); (CertRoleLabel, role)];
                              ts_Annotations := ∅; ts_Data := secretPayload mat caPEM |}]> s)
      end
  end.

(** The server refuses to update from a copy that is not the current object. *)
Definition updateSecret (name : string) (sec : TLSSecret) (mat : CertMaterial X) (caPEM : blob) (w : option api_error) (s : tls_store) :
    option string * tls_store :=
  match w with
  | Some e => (Some (e_text e), s)
  | None =>
      if bool_decide (s !! name = Some sec) then
        (None, <[name := {| ts_Labels := ts_Labels sec; ts_Annotations := delete ForceRotateAnnotation (ts_Annotations sec);
                            ts_Data := secretPayload mat caPEM |}]> s)
      else (Some "the object has been modified", s)
  end.

(** ** The CA *)

(** The inputs of one certificate: its read and write, two clock readings, the key and the
    serial number. *)
Record cert_io := {
  io_get : cache_read;
  io_write : option api_error;
  io_nowCheck : Time;
  io_nowGen : Time;
  io_key : result string;
  io_serial : result Z
}.

Record ensured := { en_cert : option Certificate; en_rotated : bool; en_err : option string }.
Definition failed (e : string) : ensured := {| en_cert := None; en_rotated := false; en_err := Some e |}.
Definition kept (c : Certificate) (err : option string) : ensured := {| en_cert := Some c; en_rotated := false; en_err := err |}.
Definition renewed (mat : CertMaterial X) : ensured :=
  match ParseCert (CertPEM mat) with
  | Ok c => {| en_cert := Some c; en_rotated := true; en_err := None |}
  | Err e => {| en_cert := None; en_rotated := true; en_err := Some e |}
  end.

(** Create when absent, with the material of [gen] and the CA [anchor] of it. *)
Definition mint (name role : string) (gen : result (CertMaterial X)) (anchor : CertMaterial X → blob) (io : cert_io) (s : tls_store) :
    ensured * tls_store :=
  match gen with
  | Err e => (failed e, s)
  | Ok mat =>
      match createSecret name role mat (anchor mat) (io_write io) s with
      | (Some e, s) => (failed e, s)
      | (None, s) => (renewed mat, s)
      end
  end.
Definition rotate (name : string) (sec : TLSSecret) (gen : result (CertMaterial X)) (anchor : CertMaterial X → blob) (io : cert_io)
    (s : tls_store) : ensured * tls_store :=
  match gen with
  | Err e => (failed e, s)
  | Ok mat =>
      match updateSecret name sec mat (anchor mat) (io_write io) s with
      | (Some e, s) => (failed e, s)
      | (None, s) => (renewed mat, s)
      end
  end.
(** A rotation that failed reports the certificate still in use. *)
Definition or_kept (c : Certificate) (r : ensured * tls_store) : ensured * tls_store :=
  match en_err r.1 with Some e => (kept c (Some e), r.2) | None => r end.

Definition rotateCA (a : Authority) (sec : TLSSecret) (io : cert_io) (s : tls_store) : ensured * tls_store :=
  rotate CASecretName sec (GenerateCA (io_nowGen io) (CALifetime a) (io_key io) (io_serial io)) CertPEM io s.

Definition ensureCA (a : Authority) (io : cert_io) (s : tls_store) : ensured * tls_store :=
  match getSecret CASecretName (io_get io) s with
  | inr e =>
      if has_kind NotFound e then
        mint CASecretName CertRoleCA (GenerateCA (io_nowGen io) (CALifetime a) (io_key io) (io_serial io)) CertPEM io s
      else (failed (e_text e), s)
  | inl sec =>
      match ParseCert (CertPEM (materialFromSecret sec)) with
      | Err _ => rotateCA a sec io s
      | Ok c =>
          if shouldForceRotate sec || ShouldRotate c (io_nowCheck io) RotationFraction then or_kept c (rotateCA a sec io s)
          else (kept c None, s)
      end
  end.

(** ** A leaf *)
Definition rotateLeaf (a : Authority) (sec : TLSSecret) (spec : LeafSpec) (ca : CertMaterial X) (io : cert_io) (s : tls_store) :
    ensured * tls_store :=
  rotate (SecretName spec) sec (GenerateLeaf (io_nowGen io) (LeafLifetime a) (lf_DNSNames spec) ca (io_key io) (io_serial io))
    (λ _, CertPEM ca) io s.

(** The leaf's signature does not check against the CA; a CA that does not parse is not asked. *)
Definition staleChain (c : Certificate) (ca : CertMaterial X) : bool :=
  match ParseCert (CertPEM ca) with
  | Ok caCert => match CheckSignatureFrom c caCert with Some _ => true | None => false end
  | Err _ => false
  end.

Definition ensureLeaf (a : Authority) (spec : LeafSpec) (ca : CertMaterial X) (caRotated : bool) (io : cert_io) (s : tls_store) :
    ensured * tls_store :=
  match getSecret (SecretName spec) (io_get io) s with
  | inr e =>
      if has_kind NotFound e then
        mint (SecretName spec) (CertRole spec)
          (GenerateLeaf (io_nowGen io) (LeafLifetime a) (lf_DNSNames spec) ca (io_key io) (io_serial io)) (λ _, CertPEM ca) io s
      else (failed (e_text e), s)
  | inl sec =>
      match ParseCert (CertPEM (materialFromSecret sec)) with
      | Err _ => rotateLeaf a sec spec ca io s
      | Ok c =>
          if caRotated || staleChain c ca || shouldForceRotate sec || ShouldRotate c (io_nowCheck io) RotationFraction
          then or_kept c (rotateLeaf a sec spec ca io s)
          else (kept c None, s)
      end
  end.

Definition observeLeaf (spec : LeafSpec) (io : cert_io) (s : tls_store) : result Certificate :=
  match getSecret (SecretName spec) (io_get io) s with
  | inr e => Err (e_text e)
  | inl sec => ParseCert (CertPEM (materialFromSecret sec))
  end.
Definition loadSecretMaterial (name : string) (r : cache_read) (s : tls_store) : result (CertMaterial X) :=
  match getSecret name r s with inr e => Err (e_text e) | inl sec => Ok (materialFromSecret sec) end.

(** ** One pass *)
Definition errorRetryMax : Duration := Hour.
Definition errorRetryMin : Duration := Minute.
Definition errorRetryDivisor : Z := 10.

Definition errorRetryInterval (soonest : option Duration) : Duration :=
  match soonest with
  | None => errorRetryMax
  | Some remaining => Z.min (Z.max (Z.quot remaining errorRetryDivisor) errorRetryMin) errorRetryMax
  end.

Inductive cert_event : Type := WebhookCertRotated (note : string) | WebhookCertRotationFailed (note : string).

Record pass := {
  p_errs : list string;
  p_soonest : option Duration;         (* of the certificates seen *)
  p_next : Duration;
  p_events : list cert_event;
  p_gauges : list (string * Duration); (* the expiry gauges set *)
  p_store : tls_store
}.

Definition observe (now : Time) (label : string) (cert : option Certificate) (p : pass) : pass :=
  match cert with
  | None => p
  | Some c =>
      let rem := Sub (NotAfter c) now in
      {| p_errs := p_errs p;
         p_soonest := match p_soonest p with Some m => Some (if rem <? m then rem else m) | None => Some rem end;
         p_next := p_next p; p_events := p_events p; p_gauges := p_gauges p ++ [(label, rem)]; p_store := p_store p |}
  end.
Definition schedule (now : Time) (cert : option Certificate) (p : pass) : pass :=
  match cert with
  | None => p
  | Some c =>
      let next := NextRotationCheck c now RotationFraction in
      {| p_errs := p_errs p; p_soonest := p_soonest p; p_next := if next <? p_next p then next else p_next p;
         p_events := p_events p; p_gauges := p_gauges p; p_store := p_store p |}
  end.
Definition outcome (what note : string) (r : ensured * tls_store) (p : pass) : pass :=
  {| p_errs := p_errs p ++ match en_err r.1 with Some e => [what +:+ ": " +:+ e] | None => [] end;
     p_soonest := p_soonest p; p_next := p_next p;
     p_events := p_events p ++ (if bool_decide (en_err r.1 = None) && en_rotated r.1 then [WebhookCertRotated note] else []);
     p_gauges := p_gauges p; p_store := r.2 |}.
Definition add_err (e : string) (p : pass) : pass :=
  {| p_errs := p_errs p ++ [e]; p_soonest := p_soonest p; p_next := p_next p; p_events := p_events p; p_gauges := p_gauges p;
     p_store := p_store p |}.

Definition leaf_turn (a : Authority) (now : Time) (ca : option (CertMaterial X)) (caRotated : bool) (p : pass) (x : LeafSpec * cert_io) :
    pass :=
  let '(spec, io) := x in
  let '(cert, p) :=
    match ca with
    | Some ca =>
        let r := ensureLeaf a spec ca caRotated io (p_store p) in
        (en_cert r.1, outcome ("ensure leaf " +:+ SecretName spec) ("reissued leaf in Secret " +:+ SecretName spec) r p)
    | None =>
        match observeLeaf spec io (p_store p) with
        | Ok c => (Some c, p)
        | Err e => (None, add_err ("observe leaf " +:+ SecretName spec +:+ ": " +:+ e) p)
        end
    end in
  schedule now cert (observe now (ExpiryGaugeLabel spec) cert p).

Record pass_in := {
  pi_now : Time;
  pi_ca : cert_io;
  pi_load : cache_read;
  pi_leaves : list cert_io             (* one per leaf *)
}.

(** The CA's part: the pass so far, the material to sign with, and whether the CA is new. *)
Definition ca_part (a : Authority) (i : pass_in) (s : tls_store) : pass * option (CertMaterial X) * bool :=
  let now := pi_now i in
  let p := {| p_errs := []; p_soonest := None; p_next := maxRotationInterval; p_events := []; p_gauges := []; p_store := s |} in
  let r := ensureCA a (pi_ca i) s in
  let p := observe now "ca" (en_cert r.1) (outcome "ensure CA" ("reissued root CA in Secret " +:+ CASecretName) r p) in
  let '(p, ca) :=
    if bool_decide (is_Some (en_cert r.1)) && bool_decide (en_err r.1 = None) then
      match loadSecretMaterial CASecretName (pi_load i) (p_store p) with
      | Err e => (add_err ("load CA Secret material: " +:+ e) p, None)
      | Ok ca => (p, Some ca)
      end
    else (p, None) in
  (schedule now (en_cert r.1) p, ca, en_rotated r.1).

Definition reconcileOnce (a : Authority) (i : pass_in) (s : tls_store) : Duration * list string * pass :=
  let '(p, ca, caRotated) := ca_part a i s in
  let p := foldl (leaf_turn a (pi_now i) ca caRotated) p (zip (Leaves a) (pi_leaves i)) in
  (if bool_decide (p_errs p = []) then p_next p else errorRetryInterval (p_soonest p), p_errs p, p).

(** ** The loop *)

(** The probe for a Certificate of cert-manager: found, absent or its API not installed,
    or an error. *)
Inductive probe : Type := CertificateFound | CertificateAbsent | NoMatch | ProbeFailed (e : string).
Definition CertManagerOptedIn (p : probe) : result bool :=
  match p with
  | CertificateFound => Ok true
  | CertificateAbsent | NoMatch => Ok false
  | ProbeFailed e => Err e
  end.

Definition newline : string := String (ascii_of_nat 10) "".

(** [Start]: passes until cert-manager appears or the inputs are used up (the context is
    cancelled); the sleeps, the events and the store. *)
Fixpoint start_loop (a : Authority) (l : list (probe * pass_in)) (s : tls_store) : list Duration * list cert_event * tls_store :=
  match l with
  | [] => ([], [], s)
  | (pr, i) :: l =>
      match CertManagerOptedIn pr with
      | Ok true => ([], [], s)
      | _ =>
          let '(next, errs, p) := reconcileOnce a i s in
          let failed := if bool_decide (errs = []) then [] else [WebhookCertRotationFailed (Join errs newline)] in
          let '(sleeps, events, s') := start_loop a l (p_store p) in
          (next :: sleeps, p_events p ++ failed ++ events, s')
      end
  end.
Definition Start (a : Authority) (l : list (probe * pass_in)) (s : tls_store) : result (list Duration * list cert_event * tls_store) :=
  if bool_decide (Leaves a = []) then Err "Authority requires at least one LeafSpec"
  else Ok (start_loop (applyDefaults a) l s).
Definition Bootstrap (a : Authority) (i : pass_in) (s : tls_store) : option string * tls_store :=
  if bool_decide (Leaves a = []) then (Some "Authority requires at least one LeafSpec", s)
  else
    let '(_, errs, p) := reconcileOnce (applyDefaults a) i s in
    (if bool_decide (errs = []) then None else Some (Join errs newline), p_store p).
End authority.

(** ** Lemmas: the renewal predicate *)
Definition validity (c : Certificate) : Duration := NotAfter c - NotBefore c.

Lemma Sub_exact t u : 0 <= t - u <= max_int64 → Sub t u = t - u.
Proof. intros H. apply clamp64_id. unfold in_int64, min_int64 in *. rewrite andb_true_iff, !Z.leb_le. unfold max_int64 in *. lia. Qed.

Lemma scaled_of_int64 z : significand (of_int64 z) * 2 ^ (exponent (of_int64 z) + 55) = round_significand z * 2 ^ excess z * 2 ^ 55.
Proof. cbn. pose proof (excess_nonneg z). rewrite Z.pow_add_r by lia. lia. Qed.

(** A certificate is renewed when less than a tenth of its validity is left, to within one
    part in [2 ^ 50], and always once it has expired. *)
Lemma should_rotate_iff c now :
  0 <= validity c <= max_int64 → 0 <= NotAfter c - now <= max_int64 →
  (ShouldRotate c now RotationFraction = false → (2 ^ 50 - 1) * validity c <= 2 ^ 50 * 10 * (NotAfter c - now)) ∧
  (ShouldRotate c now RotationFraction = true → 2 ^ 50 * 10 * (NotAfter c - now) <= (2 ^ 50 + 1) * validity c).
Proof.
  intros Hv Hr. unfold ShouldRotate, After, RotationFraction. assert (NotAfter c <? now = false) as -> by (apply Z.ltb_ge; lia).
  unfold validity in *. rewrite !Sub_exact by done. set (total := NotAfter c - NotBefore c) in *. set (rem := NotAfter c - now) in *.
  pose proof (excess_nonneg rem). pose proof (tenth_exponent total) as Hx. pose proof (tenth_error total (proj1 Hv)) as Ht.
  pose proof (round_error rem) as He.
  assert (Hl := float_ltb_iff (of_int64 rem) (float_mul float_tenth (of_int64 total)) ltac:(cbn; lia) Hx).
  fold (tenth_scaled total) in Hl. rewrite scaled_of_int64 in Hl.
  set (A := round_significand rem * 2 ^ excess rem) in *. set (Y := tenth_scaled total) in *. clearbody A Y total rem.
  split; intros Hb.
  - assert (¬ A * 2 ^ 55 < Y) by (rewrite <- Hl, Hb; done). lia.
  - apply Hl in Hb. lia.
Qed.

Lemma should_rotate_expired c now : NotAfter c < now → ShouldRotate c now RotationFraction = true.
Proof. intros H. unfold ShouldRotate, After. by apply Z.ltb_lt in H as ->. Qed.

Lemma next_check_bounds c now f : minRotationInterval <= NextRotationCheck c now f <= maxRotationInterval.
Proof.
  unfold NextRotationCheck. set (u := Sub _ now). destruct (Z.ltb_spec u minRotationInterval); [by vm_compute|].
  destruct (Z.ltb_spec maxRotationInterval u); [by vm_compute|]. lia.
Qed.

(** The check comes before the last tenth begins, or within the hour. *)
Lemma next_check_early c now :
  0 <= validity c <= max_int64 →
  NextRotationCheck c now RotationFraction = minRotationInterval ∨
  (2 ^ 50 - 1) * validity c <= 2 ^ 50 * 10 * (NotAfter c - (now + NextRotationCheck c now RotationFraction) + 1).
Proof.
  intros Hv. unfold NextRotationCheck, RotationFraction, validity in *. rewrite !(Sub_exact (NotAfter c)) by done.
  pose proof (tenth_error _ (proj1 Hv)) as Ht. pose proof (float_tenth_trunc _ (proj1 Hv)) as Hd. cbv zeta in Hd.
  set (d := to_int64 _) in *. set (Y := tenth_scaled _) in *. set (total := NotAfter c - NotBefore c) in *. clearbody d Y total.
  unfold Add, Sub, clamp64, minRotationInterval, maxRotationInterval, Hour, Minute, Second, min_int64, max_int64.
  destruct (Z.ltb_spec (Z.max (- 2 ^ 63) (Z.min (2 ^ 63 - 1) (NotAfter c + - d - now))) (1 * (60 * (60 * 1000000000)))); [by left|]. right.
  destruct (Z.ltb_spec (24 * (60 * (60 * 1000000000))) (Z.max (- 2 ^ 63) (Z.min (2 ^ 63 - 1) (NotAfter c + - d - now)))); lia.
Qed.

(** The slack allows for a late wake-up and for the time a pass takes. *)
Definition long_lived (slack : Duration) (c : Certificate) : Prop := 11 * (Hour + slack) <= validity c <= max_int64.

Lemma outlives_sleep slack c now next t :
  0 <= slack → long_lived slack c → Hour + slack < NotAfter c - now → next <= NextRotationCheck c now RotationFraction →
  t <= now + next + slack → t < NotAfter c.
Proof.
  intros Hs [Hl Hm] Hr Hn Ht. assert (0 < Hour) by done.
  destruct (next_check_early c now ltac:(lia)) as [E|E].
  - rewrite E in Hn. change minRotationInterval with Hour in Hn. lia.
  - set (n := NextRotationCheck c now RotationFraction) in *. clearbody n. lia.
Qed.

Lemma kept_outlives slack c r :
  0 <= slack → long_lived slack c → ShouldRotate c r RotationFraction = false → Hour + slack < NotAfter c - r.
Proof.
  intros Hs [Hl Hm] Hf. assert (0 < Hour) by done.
  destruct (Z.lt_ge_cases (NotAfter c) r) as [H1|H1]; [by rewrite should_rotate_expired in Hf|].
  destruct (Z.le_gt_cases (NotAfter c - r) max_int64) as [H2|H2]; [|lia].
  destruct (should_rotate_iff c r) as [H3 _]; [lia..|]. specialize (H3 Hf). lia.
Qed.

(** ** Lemmas: what is minted *)
Section minted.
Context {X : X509}.

Lemma whole_second_bounds t : whole_second t <= t < whole_second t + Second.
Proof. unfold whole_second, Second. pose proof (Z.div_mod t 1000000000 ltac:(lia)). pose proof (Z.mod_pos_bound t 1000000000 ltac:(lia)). lia. Qed.

(** Issued at [g] for [lifetime]: valid from a minute before. *)
Definition issued_at (g : Time) (lifetime : Duration) (c : Certificate) : Prop :=
  NotBefore c = whole_second (g - Minute) ∧ NotAfter c = whole_second (g + lifetime).

Lemma issued_long slack g lifetime c :
  issued_at g lifetime c → 0 <= slack → 11 * (Hour + slack) <= lifetime <= max_int64 / 2 →
  long_lived slack c ∧ Hour + slack < NotAfter c - g ∧ NotBefore c <= g.
Proof.
  intros [Hb Ha] Hs Hl. unfold long_lived, validity. rewrite Hb, Ha.
  pose proof (whole_second_bounds (g - Minute)) as H1. pose proof (whole_second_bounds (g + lifetime)) as H2.
  assert (E : max_int64 / 2 = 4611686018427387903) by done. rewrite E in Hl. clear E.
  unfold max_int64, Hour, Minute, Second in *. split_and!; lia.
Qed.

Definition signing_ca (c : Certificate) : Prop := may_sign c = true ∧ PublicKey c ≠ None.

Lemma parse_encoded ty b : ParseCert (EncodePEM ty b) = if bool_decide (ty = "CERTIFICATE") then ParseCertificate b else Err "decode CERTIFICATE PEM block".
Proof. unfold ParseCert. by rewrite decode_encode. Qed.

Lemma GenerateCA_spec now lifetime key serial mat :
  GenerateCA now lifetime key serial = Ok mat →
  ∃ c k, ParseCert (CertPEM mat) = Ok c ∧ parseRSAKeyPEM (KeyPEM mat) = Ok k ∧ key = Ok k ∧ PublicKey c = Some (rsa_public k) ∧
    signing_ca c ∧ issued_at now lifetime c.
Proof.
  unfold GenerateCA, marshalRSAKeyPEM. destruct key as [k|]; [|done]. destruct (randomSerial serial) as [n|]; [|done].
  destruct (CreateCertificate _ _ _ _) as [der|] eqn:Ec; [|done]. destruct (MarshalPKCS8PrivateKey k) as [kd|] eqn:Ek; [|done].
  intros [= <-]. destruct (create_parses _ _ _ _ _ Ec) as [sg Hp]. cbn [CertPEM KeyPEM].
  rewrite parse_encoded, bool_decide_true by done. exists (issued (ca_template now lifetime n) (rsa_public k) sg), k.
  split_and!; try done. unfold parseRSAKeyPEM. rewrite decode_encode, bool_decide_true by done. by rewrite (pkcs8_parses _ _ Ek).
Qed.

Lemma GenerateLeaf_spec now lifetime names ca key serial mat :
  GenerateLeaf now lifetime names ca key serial = Ok mat →
  ∃ caCert caKey c, ParseCert (CertPEM ca) = Ok caCert ∧ parseRSAKeyPEM (KeyPEM ca) = Ok caKey ∧
    ParseCert (CertPEM mat) = Ok c ∧ DNSNames c = names ∧ issued_at now lifetime c ∧
    (signing_ca caCert → CheckSignatureFrom c caCert = None) ∧
    (∀ other, CheckSignatureFrom c other = None → PublicKey other = Some (rsa_public caKey)).
Proof.
  unfold GenerateLeaf, parseCertAndKey. case_bool_decide; [done|]. destruct (ParseCert (CertPEM ca)) as [cc|] eqn:Eca; [|done].
  destruct (parseRSAKeyPEM (KeyPEM ca)) as [ck|]; [|done]. destruct key as [k|]; [|done].
  destruct (randomSerial serial) as [n|]; [|done]. destruct (CreateCertificate _ _ _ _) as [der|] eqn:Ec; [|done].
  destruct (marshalRSAKeyPEM k) as [kd|]; [|done]. intros [= <-]. destruct (create_parses _ _ _ _ _ Ec) as [sg Hp].
  exists cc, ck, (issued (leaf_template now lifetime names n) (rsa_public k) sg). cbn [CertPEM].
  rewrite parse_encoded, bool_decide_true by done. split_and!; try done.
  - intros [Hm Hk]. apply (create_signature _ _ _ _ _ _ _ Ec Hp). split; [done|].
    destruct (create_key_fits _ _ _ _ _ Ec); [by destruct Hk|done].
  - intros other Ho. by apply (create_signature _ _ _ _ _ _ _ Ec Hp) in Ho as [_ ?].
Qed.

(** ** Lemmas: the store *)
Definition stored_cert (s : gmap string TLSSecret) (name : string) (c : Certificate) : Prop :=
  ∃ sec, s !! name = Some sec ∧ ParseCert (CertPEM (materialFromSecret sec)) = Ok c.
Definition stored_material (s : gmap string TLSSecret) (name : string) (m : CertMaterial X) : Prop :=
  ∃ sec, s !! name = Some sec ∧ materialFromSecret sec = m.

Lemma material_payload ls ans mat caPEM :
  materialFromSecret {| ts_Labels := ls; ts_Annotations := ans; ts_Data := secretPayload mat caPEM |} = mat.
Proof. destruct mat. unfold materialFromSecret, secretPayload. cbn [ts_Data list_to_map foldr]. by simplify_map_eq. Qed.

Definition only_changed (name : string) (s s' : gmap string TLSSecret) : Prop := ∀ n, n ≠ name → s' !! n = s !! n.

(** A certificate that was written: its material is what is stored. *)
Definition written (name : string) (gen : result (CertMaterial X)) (r : ensured * gmap string TLSSecret) : Prop :=
  ∃ mat c, gen = Ok mat ∧ ParseCert (CertPEM mat) = Ok c ∧ stored_material r.2 name mat ∧
    r.1 = {| en_cert := Some c; en_rotated := true; en_err := None |}.

Lemma renewed_ok (mat : CertMaterial X) : en_err (renewed mat) = None → ∃ c, ParseCert (CertPEM mat) = Ok c ∧ renewed mat = {| en_cert := Some c; en_rotated := true; en_err := None |}.
Proof. unfold renewed. destruct (ParseCert (CertPEM mat)) as [c|]; [|done]. eauto. Qed.

Lemma mint_spec name role gen anchor io s :
  s !! name = None →
  let r := mint name role gen anchor io s in
  only_changed name s r.2 ∧ (en_err r.1 = None → written name gen r).
Proof.
  intros Hn. unfold mint, createSecret. destruct gen as [mat|]; [|done]. destruct (io_write io); [done|]. rewrite Hn. cbn [fst snd]. split.
  - intros n Hne. by rewrite lookup_insert_ne.
  - intros He. destruct (renewed_ok _ He) as (c & Hc & Hr). exists mat, c. split_and!; [done..| |done].
    eexists. cbn [snd]. rewrite lookup_insert_eq. split; [done|apply material_payload].
Qed.

Lemma rotate_spec name sec gen anchor io s :
  let r := rotate name sec gen anchor io s in
  only_changed name s r.2 ∧ (en_err r.1 = None → written name gen r).
Proof.
  unfold rotate, updateSecret. destruct gen as [mat|]; [|done]. destruct (io_write io); [done|].
  destruct (bool_decide (s !! name = Some sec)); [|done]. cbn [fst snd]. split.
  - intros n Hne. by rewrite lookup_insert_ne.
  - intros He. destruct (renewed_ok _ He) as (c & Hc & Hr). exists mat, c. split_and!; [done..| |done].
    eexists. cbn [snd]. rewrite lookup_insert_eq. split; [done|apply material_payload].
Qed.

Lemma or_kept_spec name c (r : ensured * gmap string TLSSecret) gen s :
  only_changed name s r.2 ∧ (en_err r.1 = None → written name gen r) →
  only_changed name s (or_kept c r).2 ∧ (en_err (or_kept c r).1 = None → written name gen (or_kept c r)).
Proof. unfold or_kept. destruct (en_err r.1) eqn:E; [|by rewrite E]. intros [H _]. by split. Qed.

Lemma written_cert name gen r : written name gen r → ∃ c, en_cert r.1 = Some c ∧ stored_cert r.2 name c ∧ en_rotated r.1 = true.
Proof. intros (mat & c & _ & Hp & (sec & Hs & Hm) & ->). exists c. split_and!; try done. exists sec. by rewrite Hm. Qed.

(** Kept as it was. *)
Definition unchanged (name : string) (check : Time) (s : gmap string TLSSecret) (r : ensured * gmap string TLSSecret) : Prop :=
  ∃ c, r = (kept c None, s) ∧ stored_cert s name c ∧ ShouldRotate c check RotationFraction = false.

Lemma ensureCA_spec a io s :
  io_get io = Current →
  let r := ensureCA a io s in
  only_changed CASecretName s r.2 ∧
  (en_err r.1 = None →
     written CASecretName (GenerateCA (io_nowGen io) (CALifetime a) (io_key io) (io_serial io)) r ∨
     unchanged CASecretName (io_nowCheck io) s r).
Proof.
  intros Hg. unfold ensureCA. rewrite Hg. cbn [getSecret]. destruct (s !! CASecretName) as [sec|] eqn:E.
  - destruct (ParseCert _) as [c|] eqn:Ep.
    + destruct (shouldForceRotate sec || ShouldRotate c (io_nowCheck io) RotationFraction) eqn:Er.
      * destruct (or_kept_spec CASecretName c _ _ s (rotate_spec CASecretName sec
          (GenerateCA (io_nowGen io) (CALifetime a) (io_key io) (io_serial io)) CertPEM io s)) as [H1 H2]. split; [done|]. by left; apply H2.
      * split; [done|]. intros _. right. exists c. apply orb_false_iff in Er as [_ ?]. split_and!; [done| |done]. by exists sec.
    + destruct (rotate_spec CASecretName sec (GenerateCA (io_nowGen io) (CALifetime a) (io_key io) (io_serial io)) CertPEM io s) as [H1 H2].
      split; [done|]. by left; apply H2.
  - cbn [has_kind not_found e_kind]. destruct (mint_spec CASecretName CertRoleCA
      (GenerateCA (io_nowGen io) (CALifetime a) (io_key io) (io_serial io)) CertPEM io s E) as [H1 H2]. split; [done|]. by left; apply H2.
Qed.

Lemma ensureCA_forced a io s old :
  io_get io = Current → s !! CASecretName = Some old → shouldForceRotate old = true →
  let r := ensureCA a io s in
  only_changed CASecretName s r.2 ∧
  (en_err r.1 = None → written CASecretName (GenerateCA (io_nowGen io) (CALifetime a) (io_key io) (io_serial io)) r).
Proof.
  intros Hg Hs Hf. unfold ensureCA. rewrite Hg. cbn [getSecret]. rewrite Hs, Hf. cbn [orb].
  pose proof (rotate_spec CASecretName old (GenerateCA (io_nowGen io) (CALifetime a) (io_key io) (io_serial io)) CertPEM io s) as H.
  destruct (ParseCert _) as [c|]; [by apply or_kept_spec|done].
Qed.

Lemma ensureLeaf_spec a spec ca caRotated io s :
  io_get io = Current →
  let r := ensureLeaf a spec ca caRotated io s in
  only_changed (SecretName spec) s r.2 ∧
  (en_err r.1 = None →
     written (SecretName spec) (GenerateLeaf (io_nowGen io) (LeafLifetime a) (lf_DNSNames spec) ca (io_key io) (io_serial io)) r ∨
     (unchanged (SecretName spec) (io_nowCheck io) s r ∧ caRotated = false ∧
      ∀ c, en_cert r.1 = Some c → staleChain c ca = false)).
Proof.
  intros Hg. unfold ensureLeaf. rewrite Hg. cbn [getSecret]. set (gen := GenerateLeaf _ _ _ _ _ _).
  destruct (s !! SecretName spec) as [sec|] eqn:E.
  - destruct (ParseCert _) as [c|] eqn:Ep.
    + match goal with |- context [if ?b then _ else _] => destruct b eqn:Er end.
      * destruct (or_kept_spec (SecretName spec) c _ gen s (rotate_spec (SecretName spec) sec gen (λ _, CertPEM ca) io s)) as [H1 H2].
        split; [done|]. by left; apply H2.
      * split; [done|]. intros _. right. rewrite !orb_false_iff in Er. destruct Er as [[[Hr Hst] _] Hsh]. split_and!; [|done|].
        -- exists c. split_and!; [done| |done]. by exists sec.
        -- by intros ? [= <-].
    + destruct (rotate_spec (SecretName spec) sec gen (λ _, CertPEM ca) io s) as [H1 H2]. split; [done|]. by left; apply H2.
  - cbn [has_kind not_found e_kind]. destruct (mint_spec (SecretName spec) (CertRole spec) gen (λ _, CertPEM ca) io s E) as [H1 H2].
    split; [done|]. by left; apply H2.
Qed.
End minted.

(** ** Lemmas: a pass *)
Section secured.
Context {X : X509} (a : Authority) (slack : Duration).
Context (Hslack : 0 <= slack).
Context (Hca : 11 * (Hour + slack) <= CALifetime a <= max_int64 / 2).
Context (Hleaf : 11 * (Hour + slack) <= LeafLifetime a <= max_int64 / 2).
Context (Hnames : NoDup (CASecretName :: (SecretName <$> Leaves a))).

(** What the certificates found in the store have to be: of the authority's own making. *)
Definition own_ca (t : Time) (c : Certificate) : Prop := signing_ca c ∧ long_lived slack c ∧ NotBefore c <= t.
Definition own_leaf (t : Time) (spec : LeafSpec) (c : Certificate) : Prop :=
  DNSNames c = lf_DNSNames spec ∧ long_lived slack c ∧ NotBefore c <= t.
Record own_store (t : Time) (s : gmap string TLSSecret) : Prop := {
  own_store_ca c : stored_cert s CASecretName c → own_ca t c;
  own_store_leaf spec c : spec ∈ Leaves a → stored_cert s (SecretName spec) c → own_leaf t spec c
}.

(** The readings of one certificate lie in the pass, and its read is current. *)
Definition io_within (b e : Time) (io : cert_io) : Prop :=
  io_get io = Current ∧ b <= io_nowCheck io <= e ∧ b <= io_nowGen io <= e.
Definition pass_within (e : Time) (i : pass_in) : Prop :=
  pi_load i = Current ∧ io_within (pi_now i) e (pi_ca i) ∧ Forall (io_within (pi_now i) e) (pi_leaves i) ∧
  length (pi_leaves i) = length (Leaves a).

(** Valid throughout the sleep that follows. *)
Definition serves (b e : Time) (next : Duration) (c : Certificate) : Prop :=
  ∀ t, e <= t <= b + next + slack → NotBefore c <= t < NotAfter c.

Lemma fresh_enough b e next c lifetime g :
  issued_at g lifetime c → 11 * (Hour + slack) <= lifetime <= max_int64 / 2 → b <= g <= e →
  long_lived slack c ∧ NotBefore c <= e ∧ (next <= NextRotationCheck c b RotationFraction → serves b e next c).
Proof.
  intros Hi Hl Hg. destruct (issued_long slack g lifetime c Hi Hslack Hl) as (H1 & H2 & H3). split_and!; [done|lia|].
  intros Hn t Ht. split; [lia|]. apply (outlives_sleep slack c b next); try done; lia.
Qed.

Lemma kept_enough b e next c r :
  long_lived slack c → NotBefore c <= b → ShouldRotate c r RotationFraction = false → b <= r <= e →
  next <= NextRotationCheck c b RotationFraction → serves b e next c.
Proof.
  intros Hl Hb Hr Hre Hn t Ht. pose proof (kept_outlives slack c r Hslack Hl Hr). split; [lia|].
  apply (outlives_sleep slack c b next); try done; lia.
Qed.

Lemma p_store_observe now label c p : p_store (observe now label c p) = p_store p ∧ p_errs (observe now label c p) = p_errs p ∧
  p_next (observe now label c p) = p_next p.
Proof. by destruct c. Qed.
Lemma schedule_spec now c p :
  p_store (schedule now c p) = p_store p ∧ p_errs (schedule now c p) = p_errs p ∧ p_next (schedule now c p) <= p_next p ∧
  (∀ x, c = Some x → p_next (schedule now c p) <= NextRotationCheck x now RotationFraction).
Proof.
  destruct c as [x|]; [|done]. cbn [schedule p_store p_errs p_next]. set (n := NextRotationCheck _ _ _). destruct (Z.ltb_spec n (p_next p)).
  all: split_and!; try done; try lia; by intros ? [= <-].
Qed.

(** ** The leaves *)
Lemma leaf_turn_base b ca caRotated p spec io :
  io_get io = Current →
  let r := ensureLeaf a spec ca caRotated io (p_store p) in
  let p' := leaf_turn a b (Some ca) caRotated p (spec, io) in
  only_changed (SecretName spec) (p_store p) (p_store p') ∧ p_store p' = r.2 ∧ p_next p' <= p_next p ∧
  (p_errs p' = [] → p_errs p = [] ∧ en_err r.1 = None) ∧
  (∀ c, en_cert r.1 = Some c → p_next p' <= NextRotationCheck c b RotationFraction).
Proof.
  intros Hg. cbv zeta. unfold leaf_turn. destruct (ensureLeaf_spec a spec ca caRotated io (p_store p) Hg) as [Hch _].
  set (r := ensureLeaf _ _ _ _ _ _) in *. set (p1 := outcome _ _ r p).
  destruct (p_store_observe b (ExpiryGaugeLabel spec) (en_cert r.1) p1) as (Hs1 & He1 & Hn1).
  set (p2 := observe _ _ _ p1) in *. destruct (schedule_spec b (en_cert r.1) p2) as (Hs2 & He2 & Hn2 & Hx).
  rewrite Hs2, Hs1, He2, He1. assert (p_next p1 = p_next p) as Hn0 by done. change (p_store p1) with r.2.
  split_and!; [done..|lia| |done]. cbn [p1 outcome p_errs]. intros [Hp Her]%app_eq_nil. split; [done|]. by destruct (en_err r.1).
Qed.

Lemma leaves_errs b ca caRotated l p : p_errs (foldl (leaf_turn a b ca caRotated) p l) = [] → p_errs p = [].
Proof.
  revert p. induction l as [|[sp io] l IH]; [done|]. intros p Hq. cbn [foldl] in Hq. apply IH in Hq. unfold leaf_turn in Hq.
  destruct ca as [ca|]; [|destruct (observeLeaf sp io (p_store p))].
  all: match type of Hq with p_errs (schedule _ ?c ?q) = _ => rewrite (proj1 (proj2 (schedule_spec b c q))) in Hq end.
  all: match type of Hq with p_errs (observe _ ?lb ?c ?q) = _ => rewrite (proj1 (proj2 (p_store_observe b lb c q))) in Hq end.
  all: cbn in Hq; try apply app_eq_nil in Hq as [? ?]; done.
Qed.

Lemma next_floor b ca caRotated l p :
  Hour <= p_next p → Hour <= p_next (foldl (leaf_turn a b ca caRotated) p l).
Proof.
  revert p. induction l as [|[sp io] l IH]; [done|]. intros p Hp. cbn [foldl]. apply IH. unfold leaf_turn.
  assert (Hs : ∀ c lb q, Hour <= p_next q → Hour <= p_next (schedule b c (observe b lb c q))).
  { intros [c|] lb q Hq; [|done]. cbn. pose proof (next_check_bounds c b RotationFraction). change minRotationInterval with Hour in *. case_match; lia. }
  destruct ca as [ca|]; [|destruct (observeLeaf sp io (p_store p))]; by apply Hs.
Qed.

Lemma stored_same s s' n c : s' !! n = s !! n → stored_cert s' n c ↔ stored_cert s n c.
Proof. intros H. unfold stored_cert. by rewrite H. Qed.

(** The leaves have Secrets of their own, so what one turn leaves behind the next ones keep. *)
Lemma leaves_fold b ca caRotated (pre : LeafSpec → cert_io → option TLSSecret → Prop) (post : LeafSpec → Duration → Certificate → Prop) l :
  (∀ spec n n' c, n' <= n → post spec n c → post spec n' c) →
  (∀ p spec io, pre spec io (p_store p !! SecretName spec) → io_get io = Current ∧
     let p' := leaf_turn a b (Some ca) caRotated p (spec, io) in
     (p_errs p' = [] → ∃ c, stored_cert (p_store p') (SecretName spec) c ∧ post spec (p_next p') c)) →
  NoDup ((λ x, SecretName x.1) <$> l) → ∀ p,
  (∀ x, x ∈ l → pre x.1 x.2 (p_store p !! SecretName x.1)) →
  let p' := foldl (leaf_turn a b (Some ca) caRotated) p l in
  (∀ n, n ∉ (λ x, SecretName x.1) <$> l → p_store p' !! n = p_store p !! n) ∧ p_next p' <= p_next p ∧
  (p_errs p' = [] → p_errs p = [] ∧ ∀ spec, spec ∈ l.*1 → ∃ c, stored_cert (p_store p') (SecretName spec) c ∧ post spec (p_next p') c).
Proof.
  intros Hmono Hturn Hd. induction l as [|[spec io] l IH]; intros p Hpre; cbn [foldl].
  { split_and!; [done..|]. intros He. split; [done|]. by intros ? ?%not_elem_of_nil. }
  cbn in Hd. apply NoDup_cons in Hd as [Hn Hd]. cbn [fmap list_fmap fst] in *.
  destruct (Hturn p spec io (Hpre (spec, io) ltac:(by left))) as [Hg Hok].
  destruct (leaf_turn_base b ca caRotated p spec io Hg) as (Hch & _ & Hnx & Her & _).
  set (p1 := leaf_turn a b (Some ca) caRotated p (spec, io)) in *.
  destruct (IH Hd p1) as (IH1 & IH2 & IH3).
  { intros x Hin. rewrite Hch; [apply Hpre; by right|]. intros E. apply Hn. rewrite <- E. apply list_elem_of_fmap. eauto. }
  split_and!; [|lia|].
  - intros n Hnn. apply not_elem_of_cons in Hnn as [H1 H2]. rewrite IH1 by done. by apply Hch.
  - intros He. destruct (IH3 He) as [He1 Hrest]. destruct (Hok He1) as (c & Hst & Hc). split; [by apply Her|].
    intros sp [->|Hin]%elem_of_cons; [|by apply Hrest]. exists c. split; [|by eapply Hmono].
    apply (stored_same (p_store p1)); [|done]. by apply IH1.
Qed.

Definition good_leaf (b e : Time) (caCert : Certificate) (spec : LeafSpec) (next : Duration) (c : Certificate) : Prop :=
  own_leaf e spec c ∧ CheckSignatureFrom c caCert = None ∧ ∀ n, n <= next → serves b e n c.

Lemma leaf_turn_spec b e ca caCert caRotated p spec io :
  ParseCert (CertPEM ca) = Ok caCert → signing_ca caCert → io_within b e io →
  (∀ c, stored_cert (p_store p) (SecretName spec) c → own_leaf b spec c) →
  let p' := leaf_turn a b (Some ca) caRotated p (spec, io) in
  p_errs p' = [] → ∃ c, stored_cert (p_store p') (SecretName spec) c ∧ good_leaf b e caCert spec (p_next p') c.
Proof.
  intros Hpc Hsc (Hg & Hchk & Hgen) Hown. cbv zeta.
  destruct (leaf_turn_base b ca caRotated p spec io Hg) as (_ & -> & _ & Her & Hx). intros [_ Hnone]%Her.
  set (p' := leaf_turn _ _ _ _ _ _) in *. clearbody p'.
  destruct (ensureLeaf_spec a spec ca caRotated io (p_store p) Hg) as [_ Hok]. set (r := ensureLeaf _ _ _ _ _ _) in *.
  destruct (Hok Hnone) as [Hw|((c & Hr & Hst & Hsr) & _ & Hchain)].
  - destruct (written_cert _ _ _ Hw) as (c & Hc & Hst & _). destruct Hw as (mat & c' & Hgn & Hp' & _ & Hr').
    assert (c' = c) as -> by (rewrite Hr' in Hc; by injection Hc).
    destruct (GenerateLeaf_spec _ _ _ _ _ _ _ Hgn) as (cc & _ & c2 & Hcc & _ & Hc2 & Hdns & Hiss & Hsig & _).
    rewrite Hpc in Hcc. injection Hcc as <-. rewrite Hp' in Hc2. injection Hc2 as <-. exists c. split; [done|].
    destruct (fresh_enough b e 0 c _ _ Hiss Hleaf Hgen) as (Hll & Hnb & _). split; [by split_and!|]. split; [by apply Hsig|].
    intros next Hnx. apply (fresh_enough b e next c _ _ Hiss Hleaf Hgen). etrans; [done|]. by apply Hx.
  - rewrite Hr in *. cbn [snd fst kept en_cert] in *. destruct (Hown c Hst) as (Hd & Hll & Hnb). exists c. split; [done|].
    split; [split_and!; [done..|lia]|split].
    + specialize (Hchain c eq_refl). unfold staleChain in Hchain. rewrite Hpc in Hchain. by destruct (CheckSignatureFrom c caCert).
    + intros next Hnx. apply (kept_enough b e next c (io_nowCheck io)); [done..|]. etrans; [done|]. by apply Hx.
Qed.

Lemma leaves_spec b e ca caCert caRotated l : 
  ParseCert (CertPEM ca) = Ok caCert → signing_ca caCert → Forall (λ x, io_within b e x.2) l →
  NoDup ((λ x, SecretName x.1) <$> l) → ∀ p,
  (∀ spec c, spec ∈ l.*1 → stored_cert (p_store p) (SecretName spec) c → own_leaf b spec c) →
  let p' := foldl (leaf_turn a b (Some ca) caRotated) p l in
  (∀ n, n ∉ (λ x, SecretName x.1) <$> l → p_store p' !! n = p_store p !! n) ∧ p_next p' <= p_next p ∧
  (p_errs p' = [] → p_errs p = [] ∧ ∀ spec, spec ∈ l.*1 →
     ∃ c, stored_cert (p_store p') (SecretName spec) c ∧ good_leaf b e caCert spec (p_next p') c).
Proof.
  intros Hpc Hsc Hio Hd p Hown.
  apply (leaves_fold b ca caRotated (λ spec io o, io_within b e io ∧ ∀ c sec, o = Some sec →
    ParseCert (CertPEM (materialFromSecret sec)) = Ok c → own_leaf b spec c) (good_leaf b e caCert) l); [| |done|].
  - intros spec n n' c Hn (H1 & H2 & H3). split_and!; [apply H1..|done|]. intros m Hm. apply H3. lia.
  - intros q spec io [Hi Ho]. split; [apply Hi|]. apply leaf_turn_spec; try done. intros c (sec & Hs & Hc). by apply (Ho c sec).
  - intros [spec io] Hin. rewrite Forall_forall in Hio. split; [by apply (Hio (spec, io))|]. intros c sec Hs Hc.
    apply (Hown spec c); [|by exists sec]. apply list_elem_of_fmap. by exists (spec, io).
Qed.

(** ** The CA *)
Lemma ca_part_spec e i s :
  own_store (pi_now i) s → pass_within e i →
  let '(p, ca, rot) := ca_part a i s in
  only_changed CASecretName s (p_store p) ∧ p_next p <= maxRotationInterval ∧
  match ca with
  | None => p_errs p ≠ []
  | Some m => ∃ c, stored_material (p_store p) CASecretName m ∧ ParseCert (CertPEM m) = Ok c ∧ own_ca e c ∧
      ∀ next, next <= p_next p → serves (pi_now i) e next c
  end.
Proof.
  intros Hown (Hload & (Hg & Hchk & Hgen) & _). unfold ca_part.
  destruct (ensureCA_spec a (pi_ca i) s Hg) as [Hch Hok]. set (r := ensureCA a (pi_ca i) s) in *.
  set (p0 := outcome _ _ _ _). set (p1 := observe _ _ _ p0).
  destruct (p_store_observe (pi_now i) "ca" (en_cert r.1) p0) as (Hs1 & He1 & Hn1). fold p1 in Hs1, He1, Hn1.
  assert (Hst : p_store p1 = r.2) by done. assert (Hnx : p_next p1 = maxRotationInterval) by done.
  destruct (en_err r.1) as [er|] eqn:Eerr.
  { rewrite (bool_decide_false (Some er = None)), andb_false_r by done.
    destruct (schedule_spec (pi_now i) (en_cert r.1) p1) as (Hs2 & He2 & Hn2 & _).
    rewrite Hs2, He2, Hst. split_and!; [done|lia|]. rewrite He1. cbn. rewrite Eerr. done. }
  assert (Hc : ∃ m c, en_cert r.1 = Some c ∧ stored_material r.2 CASecretName m ∧ ParseCert (CertPEM m) = Ok c ∧ own_ca e c ∧
    ∀ next, next <= NextRotationCheck c (pi_now i) RotationFraction → serves (pi_now i) e next c).
  { destruct (Hok eq_refl) as [(m & c & Hgn & Hp & Hsm & Hr)|(c & Hr & (sec & Hsec & Hp) & Hsr)].
    - destruct (GenerateCA_spec _ _ _ _ _ Hgn) as (c' & k & Hp' & _ & _ & _ & Hsig & Hiss). rewrite Hp in Hp'. injection Hp' as <-.
      exists m, c. destruct (fresh_enough (pi_now i) e 0 c _ _ Hiss Hca Hgen) as (Hll & Hnb & _). rewrite Hr. split_and!; try done.
      intros next Hne. by apply (fresh_enough (pi_now i) e next c _ _ Hiss Hca Hgen).
    - destruct (own_store_ca _ _ Hown c) as (Hsig & Hll & Hnb); [by exists sec|]. exists (materialFromSecret sec), c. rewrite Hr.
      split_and!; try done; [by exists sec|by split_and!; [..|lia]|]. intros next Hne.
      by apply (kept_enough (pi_now i) e next c (io_nowCheck (pi_ca i))). }
  destruct Hc as (m & c & Hcert & (sec & Hsec & Hm) & Hp & Hoc & Hsv). rewrite Hcert.
  rewrite (bool_decide_true (is_Some _)), (bool_decide_true (None = None)) by done. cbn [andb].
  unfold loadSecretMaterial. rewrite Hload. cbn [getSecret]. rewrite Hst, Hsec.
  destruct (schedule_spec (pi_now i) (Some c) p1) as (Hs2 & He2 & Hn2 & Hx). rewrite Hs2, Hst. split_and!; [done|lia|].
  rewrite Hm. exists c. split_and!; try done; [by exists sec|]. intros next Hne. apply Hsv. etrans; [done|]. by apply Hx.
Qed.

(** What a client that trusts the stored CA sees at time [t]. *)
Definition valid_at (t : Time) (c : Certificate) : Prop := NotBefore c <= t < NotAfter c.
Definition chain_valid (s : gmap string TLSSecret) (t : Time) : Prop :=
  ∃ ca, stored_cert s CASecretName ca ∧ valid_at t ca ∧ ∀ spec, spec ∈ Leaves a →
    ∃ c, stored_cert s (SecretName spec) c ∧ CheckSignatureFrom c ca = None ∧ DNSNames c = lf_DNSNames spec ∧ valid_at t c.

Lemma own_store_later t t' s : t <= t' → own_store t s → own_store t' s.
Proof.
  intros Ht [H1 H2]. split.
  - intros c Hc. destruct (H1 c Hc) as (? & ? & ?). split_and!; [done..|lia].
  - intros spec c Hs Hc. destruct (H2 spec c Hs Hc) as (? & ? & ?). split_and!; [done..|lia].
Qed.

Lemma stored_cert_unique s n c c' : stored_cert s n c → stored_cert s n c' → c = c'.
Proof. intros (sec & H1 & H2) (sec' & H1' & H2'). congruence. Qed.

Lemma zip_leaves (ios : list cert_io) : length ios = length (Leaves a) →
  (zip (Leaves a) ios).*1 = Leaves a ∧ (λ x, SecretName x.1) <$> zip (Leaves a) ios = SecretName <$> Leaves a.
Proof.
  intros Hl. assert (E : (zip (Leaves a) ios).*1 = Leaves a) by (apply fst_zip; lia). split; [done|].
  rewrite <- E at 2. by rewrite <- list_fmap_compose.
Qed.

(** One pass without an error, over certificates of the authority's own making. *)
Lemma pass_secures e i s next p :
  own_store (pi_now i) s → pass_within e i → reconcileOnce a i s = (next, [], p) →
  own_store e (p_store p) ∧ ∀ t, e <= t <= pi_now i + next + slack → chain_valid (p_store p) t.
Proof.
  intros Hown Hin. unfold reconcileOnce. pose proof (ca_part_spec e i s Hown Hin) as Hc.
  destruct (ca_part a i s) as [[p0 ca] rot]. destruct Hc as (Hch & Hnx & Hc). destruct Hin as (_ & _ & Hios & Hlen).
  destruct (zip_leaves _ Hlen) as [Ez En]. apply NoDup_cons in Hnames as [Hnca Hnd].
  set (p' := foldl _ _ _). intros [= <- He <-]. rewrite (bool_decide_true (p_errs p' = [])) by done.
  destruct ca as [m|].
  2:{ exfalso. apply Hc. by apply leaves_errs in He. }
  destruct Hc as (cc & (sec & Hsec & Hm) & Hpc & Hoc & Hsv).
  assert (H1 : Forall (λ x, io_within (pi_now i) e x.2) (zip (Leaves a) (pi_leaves i))).
  { apply Forall_forall. intros [sp io] Hx. rewrite Forall_forall in Hios. apply Hios. by apply elem_of_zip_r in Hx. }
  assert (H2 : ∀ sp c, sp ∈ (zip (Leaves a) (pi_leaves i)).*1 → stored_cert (p_store p0) (SecretName sp) c → own_leaf (pi_now i) sp c).
  { rewrite Ez. intros sp c Hsp Hcs. apply (own_store_leaf _ _ Hown); [done|]. apply (stored_same s (p_store p0)); [|done]. apply Hch.
    intros E. apply Hnca. rewrite <- E. by apply list_elem_of_fmap_2. }
  rewrite <- En in Hnd. pose proof (leaves_spec (pi_now i) e m cc rot _ Hpc (proj1 Hoc) H1 Hnd p0 H2) as (Hst & Hn & Hok).
  fold p' in Hst, Hn, Hok. destruct (Hok He) as [_ Hleaves]. rewrite Ez in Hleaves. rewrite En in Hst.
  assert (Hca' : stored_cert (p_store p') CASecretName cc) by (exists sec; rewrite Hst, Hm by done; done).
  split; [split|].
  - intros c Hcs. by rewrite (stored_cert_unique _ _ _ _ Hcs Hca').
  - intros sp c Hsp Hcs. destruct (Hleaves sp Hsp) as (c' & Hc' & Hg). rewrite (stored_cert_unique _ _ _ _ Hcs Hc'). apply Hg.
  - intros t Ht. exists cc. split_and!; [done|by apply (Hsv (p_next p'))|]. intros sp Hsp.
    destruct (Hleaves sp Hsp) as (c & Hcs & (Hd & _ & _) & Hsig & Hs). exists c. split_and!; try done; by apply (Hs (p_next p')).
Qed.
End secured.

(** ** Properties *)
Section properties.
Context {X : X509} (a : Authority) (slack : Duration).

(** Passes without an error, each with its end; each begins after the previous one ended
    and at most [slack] after its sleep. *)
Fixpoint undisturbed (from by_ : Time) (l : list (pass_in * Time)) (s : gmap string TLSSecret) : Prop :=
  match l with
  | [] => True
  | (i, e) :: l =>
      from <= pi_now i <= by_ ∧ pass_within a e i ∧
      let r := reconcileOnce a i s in r.1.2 = [] ∧ undisturbed e (pi_now i + r.1.1 + slack) l (p_store r.2)
  end.

(** The store after a pass, with the end of that pass and the start of the next. *)
Fixpoint gaps (l : list (pass_in * Time)) (s : gmap string TLSSecret) : list (gmap string TLSSecret * Time * Time) :=
  match l with
  | (i, e) :: l =>
      let s' := p_store (reconcileOnce a i s).2 in
      match l with (j, _) :: _ => (s', e, pi_now j) :: gaps l s' | [] => [] end
  | [] => []
  end.

(** C22: the webhook never presents a certificate that its clients refuse.  Let the
    lifetimes of the CA and of the leaves be at least eleven times an hour plus [slack], and
    at most half the largest duration (146 years), [slack] not negative, and the Secrets of
    the CA and of the leaves have different names.  Start from no certificates, or from the
    authority's own; let every pass succeed, with reads that are current and a clock that does
    not run back, and let each begin at most [slack] after the sleep the one before asked for.  Then between any two passes,
    at every instant, each leaf is stored, is signed by the stored CA, names the hosts of its
    endpoint, and both are within their validity: a rotated CA takes its leaves along, and
    the hourly floor of the sleep never lets a certificate run out. *)
Theorem certs_never_lapse l s from by_ :
  0 <= slack → 11 * (Hour + slack) <= CALifetime a <= max_int64 / 2 → 11 * (Hour + slack) <= LeafLifetime a <= max_int64 / 2 →
  NoDup (CASecretName :: (SecretName <$> Leaves a)) →
  own_store a slack from s → undisturbed from by_ l s →
  ∀ s' b e t, (s', b, e) ∈ gaps l s → b <= t <= e → chain_valid a s' t.
Proof.
  intros Hs Hca Hleaf Hnd. revert s from by_. induction l as [|[i e] l IH]; intros s from by_ Hown Hu s' b e' t Hin Ht; [by apply not_elem_of_nil in Hin|].
  destruct Hu as (Hft & Hw & Hu). destruct (reconcileOnce a i s) as [[next errs] p] eqn:Er. cbn [fst snd] in Hu. destruct Hu as [-> Hu].
  apply (own_store_later a slack _ (pi_now i)) in Hown; [|lia].
  destruct (pass_secures a slack Hs Hca Hleaf Hnd e i s next p Hown Hw Er) as [Hown' Hv].
  cbn [gaps] in Hin. rewrite Er in Hin. cbn [snd] in Hin. destruct l as [|[j ej] l]; [by apply not_elem_of_nil in Hin|].
  apply elem_of_cons in Hin as [[= -> -> ->]|Hin].
  - apply Hv. destruct Hu as [? _]. lia.
  - by apply (IH (p_store p) e _ Hown' Hu s' b e' t).
Qed.

(** A leaf that is reissued is signed with the key of the material it was given. *)
Lemma leaf_turn_reissue b ca caKey p spec io :
  io_get io = Current → parseRSAKeyPEM (KeyPEM ca) = Ok caKey →
  let p' := leaf_turn a b (Some ca) true p (spec, io) in
  p_errs p' = [] → ∃ c, stored_cert (p_store p') (SecretName spec) c ∧
    ∀ other, CheckSignatureFrom c other = None → PublicKey other = Some (rsa_public caKey).
Proof.
  intros Hio Hk. cbv zeta. destruct (leaf_turn_base a b ca true p spec io Hio) as (_ & -> & _ & Hq & _). intros [_ Hn]%Hq.
  destruct (ensureLeaf_spec a spec ca true io (p_store p) Hio) as [_ Ho]. destruct (Ho Hn) as [Hw|(_ & ? & _)]; [|done].
  destruct (written_cert _ _ _ Hw) as (c & Hcc & Hcs & _). destruct Hw as (m & c1 & Hgl & Hpl & _ & Hrl).
  assert (c1 = c) as -> by (rewrite Hrl in Hcc; by injection Hcc). exists c. split; [done|].
  destruct (GenerateLeaf_spec _ _ _ _ _ _ _ Hgl) as (cc & ck & c3 & _ & Hck & Hc3 & _ & _ & _ & Hsound).
  rewrite Hpl in Hc3. injection Hc3 as <-. rewrite Hk in Hck. by injection Hck as <-.
Qed.

(** A read that lags behind breaks the chain and hides it.  The loop reads the CA back
    through the cache right after it replaced it.  If the cache still holds the old one,
    every leaf is reissued with the old key, the pass reports no error and sleeps for at
    least an hour; until then no leaf verifies against the CA that was stored, and which
    the injector publishes. *)
Theorem stale_ca_read_breaks_chain i s old oldKey newKey next p :
  NoDup (CASecretName :: (SecretName <$> Leaves a)) → length (pi_leaves i) = length (Leaves a) →
  io_get (pi_ca i) = Current → Forall (λ io, io_get io = Current) (pi_leaves i) →
  s !! CASecretName = Some old → shouldForceRotate old = true → pi_load i = Lagging (Some old) →
  parseRSAKeyPEM (KeyPEM (materialFromSecret old)) = Ok oldKey → io_key (pi_ca i) = Ok newKey → rsa_public oldKey ≠ rsa_public newKey →
  reconcileOnce a i s = (next, [], p) →
  Hour <= next ∧ ∃ ca, stored_cert (p_store p) CASecretName ca ∧
    ∀ spec, spec ∈ Leaves a → ∃ c, stored_cert (p_store p) (SecretName spec) c ∧ CheckSignatureFrom c ca ≠ None.
Proof.
  intros Hnd Hlen Hg Hios Hsec Hforce Hload Hold Hnew Hne. unfold reconcileOnce, ca_part.
  destruct (ensureCA_forced a (pi_ca i) s old Hg Hsec Hforce) as [Hch Hok]. set (r := ensureCA a (pi_ca i) s) in *.
  set (p0 := observe _ _ _ (outcome _ _ r _)). unfold loadSecretMaterial. rewrite Hload. cbn [getSecret].
  destruct (zip_leaves a _ Hlen) as [Ez En]. apply NoDup_cons in Hnd as [Hnca Hnd]. rewrite <- En in Hnd.
  match goal with |- context [let '(_, _) := if ?x then _ else _ in _] => destruct x eqn:Eb end.
  all: cbv zeta beta iota; set (p1 := schedule _ _ p0); set (p' := foldl _ p1 _); intros [= <- He <-].
  all: rewrite (bool_decide_true (p_errs p' = [])) by done; pose proof (leaves_errs _ _ _ _ _ _ He) as He1.
  all: assert (Her : en_err r.1 = None) by
    (unfold p1 in He1; rewrite (proj1 (proj2 (schedule_spec _ _ _))) in He1; unfold p0 in He1;
     rewrite (proj1 (proj2 (p_store_observe _ _ _ _))) in He1; cbn in He1; by destruct (en_err r.1)).
  all: pose proof (Hok Her) as Hw; destruct (written_cert _ _ _ Hw) as (ca & Hc & Hst & Hrot).
  2:{ rewrite Hc, Her in Eb. done. }
  split.
  { apply next_floor. unfold p1, p0. rewrite Hc. cbn. pose proof (next_check_bounds ca (pi_now i) RotationFraction).
    change minRotationInterval with Hour in *. change maxRotationInterval with (24 * Hour) in *. assert (0 < Hour) by done. case_match; lia. }
  destruct Hw as (mat & c' & Hgn & Hp' & _ & Hr'). assert (c' = ca) as -> by (rewrite Hr' in Hc; by injection Hc).
  destruct (GenerateCA_spec _ _ _ _ _ Hgn) as (c2 & k & Hc2 & _ & Hk & Hpub & _). rewrite Hp' in Hc2. injection Hc2 as <-.
  rewrite Hnew in Hk. injection Hk as ->.
  assert (Hs1 : p_store p1 = r.2) by (unfold p1; rewrite (proj1 (schedule_spec _ _ _)); unfold p0; by rewrite (proj1 (p_store_observe _ _ _ _))).
  destruct (leaves_fold a (pi_now i) (materialFromSecret old) (en_rotated r.1) (λ _ io _, io_get io = Current)
    (λ _ _ c, CheckSignatureFrom c ca ≠ None) (zip (Leaves a) (pi_leaves i))) with (p := p1) as (Hsame & _ & Hl).
  - done.
  - intros q spec io Hio. split; [done|]. cbv zeta. rewrite Hrot. intros Hq.
    destruct (leaf_turn_reissue (pi_now i) _ oldKey q spec io Hio Hold Hq) as (c & Hcs & Hc'). exists c. split; [done|].
    intros Hsig%Hc'. congruence.
  - done.
  - intros [spec io] Hin. rewrite Forall_forall in Hios. apply Hios. by apply elem_of_zip_r in Hin.
  - fold p' in Hsame, Hl. destruct (Hl He) as [_ Hleaves]. rewrite Ez in Hleaves. exists ca. split; [|done].
    apply (stored_same r.2); [|done]. rewrite Hsame, Hs1; [done|]. by rewrite En.
Qed.

(** How long the loop sleeps: after a pass without an error between an hour and a day,
    after a failed one between a minute and an hour, a tenth of the time that is left to
    the certificate that expires first. *)
Theorem sleep_bounds i s :
  let '(next, errs, p) := reconcileOnce a i s in
  (errs = [] → minRotationInterval <= next <= maxRotationInterval) ∧
  (errs ≠ [] → errorRetryMin <= next <= errorRetryMax ∧
     ∀ m, p_soonest p = Some m → errorRetryMin * errorRetryDivisor <= m → next <= m / errorRetryDivisor).
Proof.
  unfold reconcileOnce. destruct (ca_part a i s) as [[p0 ca] rot] eqn:Ec. set (p := foldl _ _ _).
  assert (H0 : Hour <= p_next p0 <= maxRotationInterval).
  { revert Ec. unfold ca_part. set (r := ensureCA _ _ _). set (p1 := observe _ _ _ _). 
    assert (H1 : p_next p1 = maxRotationInterval) by (unfold p1; by rewrite (proj2 (proj2 (p_store_observe _ _ _ _)))).
    assert (Hs : ∀ q, p_next q = maxRotationInterval → Hour <= p_next (schedule (pi_now i) (en_cert r.1) q) <= maxRotationInterval).
    { intros q Hq. destruct (en_cert r.1) as [c|]; cbn; rewrite Hq; [|by vm_compute].
      pose proof (next_check_bounds c (pi_now i) RotationFraction). change minRotationInterval with Hour in *. case_match; [lia|by vm_compute]. }
    match goal with |- context [let '(_, _) := if ?x then _ else _ in _] => destruct x end.
    all: try destruct (loadSecretMaterial _ _ _); intros [= <- _ _]; by apply Hs. }
  split; intros He.
  - rewrite bool_decide_true by done. split; [exact (next_floor a _ _ _ _ _ (proj1 H0))|]. unfold p. etrans; [|apply H0].
    clear. revert p0. induction (zip (Leaves a) (pi_leaves i)) as [|[sp io] l IH]; intros q; [done|]. cbn [foldl]. etrans; [apply IH|].
    unfold leaf_turn. destruct ca as [ca|]; [|destruct (observeLeaf sp io (p_store q))].
    all: match goal with |- p_next (schedule _ ?c (observe _ ?lb _ ?q)) <= _ =>
           etrans; [apply (proj1 (proj2 (proj2 (schedule_spec (pi_now i) c (observe (pi_now i) lb c q)))))|];
           by rewrite (proj2 (proj2 (p_store_observe (pi_now i) lb c q))) end.
  - rewrite bool_decide_false by done. unfold errorRetryInterval, errorRetryMax, errorRetryMin, errorRetryDivisor.
    assert (0 < Minute < Hour) by done. destruct (p_soonest p) as [m|]; split; try lia.
    + intros ? [= <-] Hm. rewrite Z.quot_div_nonneg by lia. assert (Minute <= m / 10) by (apply Z.div_le_lower_bound; lia). lia.
    + done.
Qed.
End properties.

(** ** What the gauges say *)
Section gauges.
Context {X : X509} (a : Authority).

(** The certificate an operation reports is the one that is stored. *)
Definition reports (name : string) (r : ensured * gmap string TLSSecret) : Prop := ∀ c, en_cert r.1 = Some c ↔ stored_cert r.2 name c.
Definition parses (gen : result (CertMaterial X)) : Prop := ∀ mat, gen = Ok mat → ∃ c, ParseCert (CertPEM mat) = Ok c.

Lemma written_reports name gen r : written name gen r → reports name r.
Proof.
  intros Hw. destruct (written_cert _ _ _ Hw) as (c & Hc & Hst & _). intros c'. rewrite Hc. split; [by intros [= <-]|].
  intros H. by rewrite (stored_cert_unique _ _ _ _ H Hst).
Qed.

Lemma rotate_failure name sec gen anchor io s :
  parses gen → en_err (rotate name sec gen anchor io s).1 ≠ None →
  ∃ e, rotate name sec gen anchor io s = (failed e, s).
Proof.
  intros Hp. unfold rotate, updateSecret. destruct gen as [mat|e]; [|by exists e]. destruct (io_write io) as [e|]; [by exists (e_text e)|].
  case_bool_decide; [|by eexists]. cbn. destruct (Hp mat eq_refl) as [c Hc]. unfold renewed. by rewrite Hc.
Qed.
Lemma mint_failure name role gen anchor io s :
  parses gen → en_err (mint name role gen anchor io s).1 ≠ None → ∃ e, mint name role gen anchor io s = (failed e, s).
Proof.
  intros Hp. unfold mint, createSecret. destruct gen as [mat|e]; [|by exists e]. destruct (io_write io) as [e|]; [by exists (e_text e)|].
  destruct (Hp mat eq_refl) as [c Hc]. unfold renewed. destruct (s !! name); cbn; by rewrite Hc.
Qed.

(** Over one Secret: rotate what does not parse, rotate or keep what does. *)
Lemma rotate_reports name sec gen anchor io s c :
  parses gen → s !! name = Some sec →
  (ParseCert (CertPEM (materialFromSecret sec)) = Ok c → reports name (or_kept c (rotate name sec gen anchor io s))) ∧
  (∀ e, ParseCert (CertPEM (materialFromSecret sec)) = Err e → reports name (rotate name sec gen anchor io s)).
Proof.
  intros Hp Hs. destruct (rotate_spec name sec gen anchor io s) as [_ Hok].
  destruct (en_err (rotate name sec gen anchor io s).1) as [er|] eqn:Ee.
  - destruct (rotate_failure name sec gen anchor io s Hp ltac:(by rewrite Ee)) as [e E]. rewrite E in *. unfold or_kept. cbn. split.
    + intros Hc c'. split; [intros [= <-]; by exists sec|]. intros (sec' & H1 & H2). cbn in *. congruence.
    + intros e' Hc c'. split; [done|]. intros (sec' & H1 & H2). cbn in *. congruence.
  - split; [intros _; unfold or_kept; rewrite Ee|intros _ _]; by eapply written_reports, Hok.
Qed.

Lemma mint_reports name role gen anchor io s :
  parses gen → s !! name = None → reports name (mint name role gen anchor io s).
Proof.
  intros Hp Hs. destruct (mint_spec name role gen anchor io s Hs) as [_ Hok].
  destruct (en_err (mint name role gen anchor io s).1) as [er|] eqn:Ee; [|by eapply written_reports, Hok].
  destruct (mint_failure name role gen anchor io s Hp ltac:(by rewrite Ee)) as [e E]. rewrite E in *. intros c. split; [done|].
  intros (sec & H & _). cbn in H. congruence.
Qed.

Lemma kept_reports name sec c (s : gmap string TLSSecret) :
  s !! name = Some sec → ParseCert (CertPEM (materialFromSecret sec)) = Ok c → reports name (kept c None, s).
Proof. intros H1 H2 c'. cbn. split; [intros [= <-]; by exists sec|]. intros (sec' & H3 & H4). cbn in H3. congruence. Qed.

Lemma ensureCA_reports io s : io_get io = Current → reports CASecretName (ensureCA a io s).
Proof.
  intros Hg. unfold ensureCA. rewrite Hg. cbn [getSecret].
  assert (Hp : parses (GenerateCA (io_nowGen io) (CALifetime a) (io_key io) (io_serial io))).
  { intros mat H. destruct (GenerateCA_spec _ _ _ _ _ H) as (c & _ & ? & _). eauto. }
  destruct (s !! CASecretName) as [sec|] eqn:E; [|by apply mint_reports]. unfold rotateCA.
  destruct (ParseCert _) as [c|e] eqn:Ep.
  - case_match; [by apply (rotate_reports CASecretName sec _ CertPEM io s c Hp E)|by eapply kept_reports].
  - by eapply (rotate_reports CASecretName sec _ CertPEM io s (ca_template 0 0 0) Hp E).
Qed.

Lemma ensureLeaf_reports spec ca rot io s : io_get io = Current → reports (SecretName spec) (ensureLeaf a spec ca rot io s).
Proof.
  intros Hg. unfold ensureLeaf. rewrite Hg. cbn [getSecret].
  assert (Hp : parses (GenerateLeaf (io_nowGen io) (LeafLifetime a) (lf_DNSNames spec) ca (io_key io) (io_serial io))).
  { intros mat H. destruct (GenerateLeaf_spec _ _ _ _ _ _ _ H) as (_ & _ & c & _ & _ & ? & _). eauto. }
  destruct (s !! SecretName spec) as [sec|] eqn:E; [|by apply mint_reports]. unfold rotateLeaf.
  destruct (ParseCert _) as [c|e] eqn:Ep.
  - case_match; [by apply (rotate_reports (SecretName spec) sec _ (λ _, CertPEM ca) io s c Hp E)|by eapply kept_reports].
  - by eapply (rotate_reports (SecretName spec) sec _ (λ _, CertPEM ca) io s (ca_template 0 0 0) Hp E).
Qed.

(** ** The turns *)
Definition gauge_of (now : Time) (label : string) (c : Certificate) : string * Duration := (label, Sub (NotAfter c) now).

Lemma gauges_grow b ca rot l p g : g ∈ p_gauges p → g ∈ p_gauges (foldl (leaf_turn a b ca rot) p l).
Proof.
  revert p. induction l as [|[sp io] l IH]; [done|]. intros p Hg. cbn [foldl]. apply IH. unfold leaf_turn.
  assert (Hs : ∀ c lb q, g ∈ p_gauges q → g ∈ p_gauges (schedule b c (observe b lb c q))).
  { intros [c|] lb q Hq; [|done]. cbn. apply elem_of_app. by left. }
  destruct ca as [ca|]; [|destruct (observeLeaf sp io (p_store p))]; by apply Hs.
Qed.

Lemma leaf_turn_gauge b ca rot p spec io :
  io_get io = Current →
  let p' := leaf_turn a b ca rot p (spec, io) in
  only_changed (SecretName spec) (p_store p) (p_store p') ∧
  ∀ c, stored_cert (p_store p') (SecretName spec) c → gauge_of b (ExpiryGaugeLabel spec) c ∈ p_gauges p'.
Proof.
  intros Hg. cbv zeta.
  assert (Hs : ∀ cert q, p_store (schedule b cert (observe b (ExpiryGaugeLabel spec) cert q)) = p_store q ∧
    ∀ c, cert = Some c → gauge_of b (ExpiryGaugeLabel spec) c ∈ p_gauges (schedule b cert (observe b (ExpiryGaugeLabel spec) cert q))).
  { intros [c|] q; [|done]. split; [done|]. intros ? [= <-]. cbn. apply elem_of_app. right. by apply list_elem_of_singleton. }
  unfold leaf_turn. destruct ca as [ca|].
  - pose proof (ensureLeaf_reports spec ca rot io (p_store p) Hg) as Hr. destruct (ensureLeaf_spec a spec ca rot io (p_store p) Hg) as [Hch _].
    set (r := ensureLeaf _ _ _ _ _ _) in *. set (q := outcome _ _ r p). destruct (Hs (en_cert r.1) q) as [H1 H2].
    rewrite H1. split; [done|]. intros c Hc. apply H2, Hr. done.
  - unfold observeLeaf. rewrite Hg. cbn [getSecret].
    destruct (p_store p !! SecretName spec) as [sec|] eqn:E; [destruct (ParseCert _) as [c|] eqn:Ep|].
    + destruct (Hs (Some c) p) as [H1 H2]. rewrite H1. split; [done|]. intros c' (sec' & Hs' & Hp'). apply H2. cbn in Hs'. congruence.
    + split; [done|]. intros c' (sec' & Hs' & Hp'). cbn in Hs'. congruence.
    + split; [done|]. intros c' (sec' & Hs' & Hp'). cbn in Hs'. congruence.
Qed.

Lemma leaves_untouched b ca rot l n p :
  n ∉ (λ x : LeafSpec * cert_io, SecretName x.1) <$> l → Forall (λ x, io_get x.2 = Current) l →
  p_store (foldl (leaf_turn a b ca rot) p l) !! n = p_store p !! n.
Proof.
  intros Hn Hl. revert p. induction l as [|[sp io] l IH]; intros p; [done|]. cbn in *. apply not_elem_of_cons in Hn as [H1 H2].
  apply Forall_cons in Hl as [Hi Hl]. rewrite IH by done. by apply (leaf_turn_gauge b ca rot p sp io Hi).
Qed.

Lemma leaves_gauges b ca rot l p :
  (∀ c, stored_cert (p_store p) CASecretName c → gauge_of b "ca" c ∈ p_gauges p) →
  CASecretName ∉ (λ x : LeafSpec * cert_io, SecretName x.1) <$> l → NoDup ((λ x, SecretName x.1) <$> l) →
  Forall (λ x, io_get x.2 = Current) l →
  let p' := foldl (leaf_turn a b ca rot) p l in
  (∀ c, stored_cert (p_store p') CASecretName c → gauge_of b "ca" c ∈ p_gauges p') ∧
  (∀ spec c, spec ∈ l.*1 → stored_cert (p_store p') (SecretName spec) c → gauge_of b (ExpiryGaugeLabel spec) c ∈ p_gauges p').
Proof.
  intros H0 Hnca Hnd Hio. cbv zeta. split.
  { intros c Hc. apply gauges_grow, H0. by apply (stored_same _ _ _ _ (leaves_untouched b ca rot l CASecretName p Hnca Hio)) in Hc. }
  clear H0 Hnca. revert p. induction l as [|[sp io] l IH]; intros p spec c Hin Hc; cbn [foldl] in *; [by apply not_elem_of_nil in Hin|].
  cbn in Hnd. apply NoDup_cons in Hnd as [Hn Hnd]. apply Forall_cons in Hio as [Hi Hio].
  apply elem_of_cons in Hin as [->|Hin]; [|by apply IH]. cbn [fst] in *.
  rewrite (stored_same _ _ _ _ (leaves_untouched b ca rot l _ (leaf_turn a b ca rot p (sp, io)) Hn Hio)) in Hc. apply gauges_grow.
  by apply (proj2 (leaf_turn_gauge b ca rot p sp io Hi)).
Qed.

(** The expiry gauges tell the truth on every pass, failed ones included: whatever
    certificate is stored and readable after the pass, its gauge was set in this pass to
    the time it has left. *)
Theorem gauges_truthful i s :
  NoDup (CASecretName :: (SecretName <$> Leaves a)) → length (pi_leaves i) = length (Leaves a) →
  io_get (pi_ca i) = Current → Forall (λ io, io_get io = Current) (pi_leaves i) →
  let p := (reconcileOnce a i s).2 in
  (∀ c, stored_cert (p_store p) CASecretName c → gauge_of (pi_now i) "ca" c ∈ p_gauges p) ∧
  (∀ spec c, spec ∈ Leaves a → stored_cert (p_store p) (SecretName spec) c →
     gauge_of (pi_now i) (ExpiryGaugeLabel spec) c ∈ p_gauges p).
Proof.
  intros Hnd Hlen Hg Hios. unfold reconcileOnce. destruct (ca_part a i s) as [[p0 ca] rot] eqn:Ec. cbn [snd].
  destruct (zip_leaves a _ Hlen) as [Ez En]. apply NoDup_cons in Hnd as [Hnca Hnd]. rewrite <- En in Hnd, Hnca.
  assert (H0 : ∀ c, stored_cert (p_store p0) CASecretName c → gauge_of (pi_now i) "ca" c ∈ p_gauges p0).
  { pose proof (ensureCA_reports (pi_ca i) s Hg) as Hr. revert Ec. unfold ca_part. set (r := ensureCA _ _ _) in *.
    assert (Hs : ∀ q, (p_store q = r.2) → (∀ c, en_cert r.1 = Some c → gauge_of (pi_now i) "ca" c ∈ p_gauges q) →
      ∀ c, stored_cert (p_store (schedule (pi_now i) (en_cert r.1) q)) CASecretName c → gauge_of (pi_now i) "ca" c ∈ p_gauges (schedule (pi_now i) (en_cert r.1) q)).
    { intros q Hq Hc c Hst. rewrite (proj1 (schedule_spec _ _ _)), Hq in Hst. apply Hr, Hc in Hst. by destruct (en_cert r.1). }
    set (p1 := observe _ _ _ _). assert (Hp1 : ∀ c, en_cert r.1 = Some c → gauge_of (pi_now i) "ca" c ∈ p_gauges p1).
    { intros c Hc. unfold p1. rewrite Hc. cbn. by left. }
    assert (Hs1 : p_store p1 = r.2) by (unfold p1; by rewrite (proj1 (p_store_observe _ _ _ _))). clearbody p1.
    match goal with |- context [let '(_, _) := if ?x then _ else _ in _] => destruct x end;
      [destruct (loadSecretMaterial _ _ _)|]; intros [= <- _ _]; by apply Hs. }
  assert (Hio : Forall (λ x, io_get x.2 = Current) (zip (Leaves a) (pi_leaves i))).
  { apply Forall_forall. intros [sp io] Hx. rewrite Forall_forall in Hios. apply Hios. by apply elem_of_zip_r in Hx. }
  destruct (leaves_gauges (pi_now i) ca rot _ p0 H0 Hnca Hnd Hio) as [H1 H2]. split; [done|]. intros spec c Hsp. apply H2. by rewrite Ez.
Qed.
End gauges.

(** ** A CA whose key is lost *)
Section lost_key.
Context {X : X509} (a : Authority).

Definition all_current (i : pass_in) : Prop :=
  io_get (pi_ca i) = Current ∧ pi_load i = Current ∧ Forall (λ io, io_get io = Current) (pi_leaves i).

Lemma unsignable ca e now lifetime names key serial :
  parseRSAKeyPEM (KeyPEM ca) = Err e → ∃ e', GenerateLeaf now lifetime names ca key serial = Err e'.
Proof.
  intros H. unfold GenerateLeaf, parseCertAndKey. case_bool_decide; [by eexists|].
  destruct (ParseCert (CertPEM ca)); [rewrite H|]; by eexists.
Qed.

Lemma leaf_turn_unsignable b ca e rot p x :
  parseRSAKeyPEM (KeyPEM ca) = Err e → p_store (leaf_turn a b (Some ca) rot p x) = p_store p.
Proof.
  intros H. destruct x as [spec io]. unfold leaf_turn. rewrite (proj1 (schedule_spec _ _ _)), (proj1 (p_store_observe _ _ _ _)).
  cbn [outcome p_store]. unfold ensureLeaf, rotateLeaf, mint, rotate.
  destruct (unsignable ca e (io_nowGen io) (LeafLifetime a) (lf_DNSNames spec) (io_key io) (io_serial io) H) as [e' ->].
  destruct (getSecret _ _ _) as [sec|er]; [|by destruct (has_kind NotFound er)]. destruct (ParseCert _); [|done]. by case_match.
Qed.

Lemma pass_unsignable i s sec ca e :
  s !! CASecretName = Some sec → ParseCert (CertPEM (materialFromSecret sec)) = Ok ca →
  parseRSAKeyPEM (KeyPEM (materialFromSecret sec)) = Err e → shouldForceRotate sec = false →
  all_current i → ShouldRotate ca (io_nowCheck (pi_ca i)) RotationFraction = false →
  p_store (reconcileOnce a i s).2 = s.
Proof.
  intros Hs Hp Hk Hf (Hg & Hl & _) Hr.
  assert (He : ensureCA a (pi_ca i) s = (kept ca None, s)).
  { unfold ensureCA. rewrite Hg. cbn [getSecret]. by rewrite Hs, Hp, Hf, Hr. }
  unfold reconcileOnce, ca_part. rewrite He. cbn [fst snd kept en_cert en_err en_rotated].
  rewrite (bool_decide_true (is_Some _)), (bool_decide_true (None = None)) by done. cbn [andb].
  unfold loadSecretMaterial. rewrite Hl. cbn [getSecret observe outcome p_store snd]. rewrite Hs.
  cbv iota beta. cbn [snd]. set (p := schedule _ _ _). assert (Hps : p_store p = s) by done. clearbody p.
  revert p Hps. induction (zip (Leaves a) (pi_leaves i)) as [|x l IH]; intros p Hps; [done|]. cbn [foldl]. apply IH.
  by rewrite (leaf_turn_unsignable _ _ e).
Qed.

(** A lost CA key is not repaired.  The CA Secret counts as corrupt only when its
    certificate does not parse.  If the certificate is sound but the key is not, no pass
    writes anything before the CA itself comes up for renewal: a leaf that is missing or
    expires in the meantime, years for the default lifetime, is not replaced. *)
Theorem corrupt_ca_key_unhealed l s sec ca e :
  s !! CASecretName = Some sec → ParseCert (CertPEM (materialFromSecret sec)) = Ok ca →
  parseRSAKeyPEM (KeyPEM (materialFromSecret sec)) = Err e → shouldForceRotate sec = false →
  Forall (λ i, all_current i ∧ ShouldRotate ca (io_nowCheck (pi_ca i)) RotationFraction = false) l →
  foldl (λ s i, p_store (reconcileOnce a i s).2) s l = s.
Proof.
  intros Hs Hp Hk Hf Hl. induction Hl as [|i l [Hc Hr] Hl IH]; [done|]. cbn [foldl]. by rewrite (pass_unsignable i s sec ca e).
Qed.
End lost_key.

(** ** A symbolic instance: keys are names, encodings are constructors *)
Inductive sym : Type := Raw (s : string) | Pem (ty : string) (b : sym) | DerCert (c : Certificate) | DerKey (k : string).
#[export] Instance sym_eq_dec : EqDecision sym.
Proof. solve_decision. Defined.

Definition symbolic : X509.
Proof.
  refine {| blob := sym; no_bytes := Raw ""; rsa_public k := "pub " +:+ k; EncodePEM := Pem;
    DecodePEM b := match b with Pem ty b => Some (ty, b) | _ => None end;
    MarshalPKCS8PrivateKey k := Ok (DerKey k);
    ParsePKCS8PrivateKey b := match b with DerKey k => Ok (inl k) | _ => Err "asn1: structure error" end;
    ParsePKCS1PrivateKey b := match b with DerKey k => Ok k | _ => Err "asn1: structure error" end;
    CreateCertificate tmpl parent pub priv :=
      if bool_decide (PublicKey parent = None ∨ PublicKey parent = Some ("pub " +:+ priv))
      then Ok (DerCert (issued tmpl pub ("pub " +:+ priv))) else Err "x509: provided PrivateKey doesn't match parent's PublicKey";
    ParseCertificate b := match b with DerCert c => Ok c | _ => Err "x509: malformed certificate" end;
    CheckSignatureFrom c ca :=
      if may_sign ca && bool_decide (PublicKey ca = Some (Signature c)) then None else Some "x509: signature does not verify" |}.
  - done.
  - done.
  - by intros k b [= <-].
  - intros tmpl parent pub priv b. case_bool_decide; [|done]. intros [= <-]. by eexists.
  - intros tmpl parent pub priv b. by case_bool_decide.
  - intros tmpl parent pub priv b c ca. case_bool_decide; [|done]. intros [= <-] [= <-]. cbn.
    destruct (may_sign ca); cbn; [|split; [done|by intros [? _]]]. case_bool_decide; split; try done. by intros [_ ?].
Defined.

(** ** A first install, and its second day *)
Definition demo_auth : Authority :=
  applyDefaults {| Leaves := [WebhookLeafSpec "velkir-webhook" "velkir-system"; MetricsLeafSpec "velkir-metrics" "velkir-system"];
                   CALifetime := 0; LeafLifetime := 0 |}.
Definition demo_cert_io (t : Time) (key : string) : cert_io (X := symbolic) :=
  {| io_get := Current; io_write := None; io_nowCheck := t; io_nowGen := t; io_key := Ok key; io_serial := Ok 7 |}.
Definition demo_pass (t : Time) (load : cache_read) (ca : string) : pass_in (X := symbolic) :=
  {| pi_now := t; pi_ca := demo_cert_io t ca; pi_load := load; pi_leaves := [demo_cert_io t "leaf 1"; demo_cert_io t "leaf 2"] |}.
Definition day (n : Z) : Time := n * 24 * Hour.
Definition demo_installed : gmap string (TLSSecret (X := symbolic)) := p_store (reconcileOnce demo_auth (demo_pass (day 1) Current "ca 1") ∅).2.

Lemma demo_within t ca : pass_within demo_auth (t + Minute) (demo_pass t Current ca).
Proof. assert (0 < Minute) by done. repeat (split || constructor); cbn; lia. Qed.

Lemma certs_never_lapse_witness :
  let l := [(demo_pass (day 1) Current "ca 1", day 1 + Minute); (demo_pass (day 2) Current "ca 2", day 2 + Minute)] in
  length (gaps demo_auth l ∅) = 1%nat ∧ Forall (λ g, chain_valid demo_auth g.1.1 (day 1 + Hour)) (gaps demo_auth l ∅).
Proof.
  split; [vm_compute; reflexivity|]. apply Forall_forall. intros [[s' b] e] Hin.
  refine (certs_never_lapse demo_auth Hour _ ∅ (day 1) (day 1) _ _ _ _ _ _ s' b e (day 1 + Hour) Hin _).
  - by vm_compute.
  - split; by vm_compute.
  - split; by vm_compute.
  - apply (bool_decide_unpack _). by vm_compute.
  - split; [intros c (sec & H & _)|intros sp c _ (sec & H & _)]; by rewrite lookup_empty in H.
  - split; [by split|]. split; [apply demo_within|]. split; [vm_compute; reflexivity|].
    split; [split; by vm_compute|]. split; [apply demo_within|]. split; [vm_compute; reflexivity|done].
  - apply list_elem_of_singleton in Hin. injection Hin as -> -> ->. split; by vm_compute.
Defined.

(** An administrator asks for a new CA; the cache lags behind. *)
Definition annotated (sec : TLSSecret (X := symbolic)) : TLSSecret :=
  {| ts_Labels := ts_Labels sec; ts_Annotations := <[ForceRotateAnnotation := "now"]> (ts_Annotations sec); ts_Data := ts_Data sec |}.
Definition demo_old_ca : TLSSecret (X := symbolic) := annotated (default {| ts_Labels := ∅; ts_Annotations := ∅; ts_Data := ∅ |} (demo_installed !! CASecretName)).
Definition demo_forced : gmap string (TLSSecret (X := symbolic)) := <[CASecretName := demo_old_ca]> demo_installed.

Lemma stale_ca_read_breaks_chain_witness :
  let i := demo_pass (day 2) (Lagging (Some demo_old_ca)) "ca 2" in
  let p := (reconcileOnce demo_auth i demo_forced).2 in
  (reconcileOnce demo_auth i demo_forced).1 = (24 * Hour, []) ∧
  ∃ ca, stored_cert (p_store p) CASecretName ca ∧ ∃ c, stored_cert (p_store p) LeafSecretName c ∧ CheckSignatureFrom (X509 := symbolic) c ca ≠ None.
Proof.
  cbv zeta. assert (E : (reconcileOnce demo_auth (demo_pass (day 2) (Lagging (Some demo_old_ca)) "ca 2") demo_forced).1 = (24 * Hour, []))
    by (vm_compute; reflexivity).
  split; [exact E|].
  destruct (stale_ca_read_breaks_chain demo_auth (demo_pass (day 2) (Lagging (Some demo_old_ca)) "ca 2") demo_forced demo_old_ca "ca 1" "ca 2"
    (24 * Hour) (reconcileOnce demo_auth (demo_pass (day 2) (Lagging (Some demo_old_ca)) "ca 2") demo_forced).2) as (_ & ca & Hca & Hl).
  - apply (bool_decide_unpack _). by vm_compute.
  - done.
  - done.
  - repeat constructor.
  - unfold demo_forced. by rewrite lookup_insert_eq.
  - by vm_compute.
  - done.
  - by vm_compute.
  - done.
  - done.
  - rewrite <- E. apply surjective_pairing.
  - exists ca. split; [exact Hca|]. destruct (Hl (WebhookLeafSpec "velkir-webhook" "velkir-system")) as (c & Hc & Hs); [constructor|]. exists c. split; [exact Hc|exact Hs].
Defined.

(** The CA's key was overwritten, and the leaf expired. *)
Definition demo_keyless : TLSSecret (X := symbolic) :=
  {| ts_Labels := ts_Labels demo_old_ca; ts_Annotations := ∅; ts_Data := <[TLSPrivateKeyKey := Raw "garbage"]> (ts_Data demo_old_ca) |}.

Lemma corrupt_ca_key_unhealed_witness :
  let s := <[CASecretName := demo_keyless]> (delete LeafSecretName demo_installed) in
  foldl (λ s i, p_store (reconcileOnce demo_auth i s).2) s [demo_pass (day 2) Current "ca 2"; demo_pass (day 500) Current "ca 3"] = s.
Proof.
  cbv zeta. destruct (ParseCert (X := symbolic) (CertPEM (materialFromSecret demo_keyless))) as [ca|] eqn:Eca; [|by vm_compute in Eca].
  apply (corrupt_ca_key_unhealed demo_auth _ _ demo_keyless ca "decode private key PEM block").
  - apply lookup_insert_eq.
  - exact Eca.
  - by vm_compute.
  - by vm_compute.
  - vm_compute in Eca. injection Eca as <-. repeat constructor; by vm_compute.
Defined.

Definition find_cert (s : gmap string (TLSSecret (X := symbolic))) (name : string) : option Certificate :=
  match s !! name with
  | Some sec => match ParseCert (CertPEM (materialFromSecret sec)) with Ok c => Some c | Err _ => None end
  | None => None
  end.
Lemma find_cert_stored s name c : find_cert s name = Some c → stored_cert s name c.
Proof. unfold find_cert. destruct (s !! name) as [sec|] eqn:E; [|done]. case_match; [|done]. intros [= ->]. by exists sec. Qed.

Lemma gauges_truthful_witness :
  let p := (reconcileOnce demo_auth (demo_pass (day 1) Current "ca 1") ∅).2 in
  ∃ c, stored_cert (p_store p) LeafSecretName c ∧ gauge_of (day 1) "webhook-leaf" c ∈ p_gauges p.
Proof.
  cbv zeta. destruct (gauges_truthful demo_auth (demo_pass (day 1) Current "ca 1") ∅) as [_ H].
  - apply (bool_decide_unpack _). by vm_compute.
  - done.
  - done.
  - repeat constructor.
  - assert (Hs : is_Some (find_cert (p_store (reconcileOnce demo_auth (demo_pass (day 1) Current "ca 1") ∅).2) LeafSecretName))
      by (apply (bool_decide_unpack _); vm_compute; exact I).
    destruct Hs as [c Hc]. apply find_cert_stored in Hc. exists c. split; [exact Hc|].
    apply (H (WebhookLeafSpec "velkir-webhook" "velkir-system")); [constructor|exact Hc].
Defined.
