(* ===== verification/CABundle.v ===== *)
(** * Publishing the CA: [internal/webhook/dynauth/injector.go]

    The injector copies the certificate of the stored CA into the webhook configurations
    that carry its label, for the entries that this installation serves. *)
From S2P Require Import Prelude GoStd PvcResize GoFloat DynAuth.
Local Open Scope Z_scope.

Definition InjectCALabel : string := "velkir.ioxie.dev/inject-ca".
Definition InjectCALabelTrue : string := "true".

Section injector.
Context {X : X509}.

(** A webhook and its client configuration; [wh_Service] is [None] for an entry with a URL. *)
Record ServiceReference := { sr_Namespace : string; sr_Name : string }.
Record webhook := { wh_Name : string; wh_Service : option ServiceReference; wh_CABundle : blob }.
Record webhook_config := { wc_Name : string; wc_Labels : gmap string string; wc_Webhooks : list webhook }.

Definition ownsClientConfig (namespace : string) (w : webhook) : bool :=
  match wh_Service w with Some svc => bool_decide (sr_Namespace svc = namespace) | None => false end.
Definition needsPatch (current : list blob) (want : blob) : bool :=
  bool_decide (current = []) || existsb (λ b, negb (bool_decide (b = want))) current.
Definition injected (wc : webhook_config) : bool := bool_decide (wc_Labels wc !! InjectCALabel = Some InjectCALabelTrue).

(** The entries of a configuration are merged by their name. *)
Definition set_bundle (names : list string) (bundle : blob) (w : webhook) : webhook :=
  if bool_decide (wh_Name w ∈ names) then {| wh_Name := wh_Name w; wh_Service := wh_Service w; wh_CABundle := bundle |} else w.
Definition apply_bundles (names : list string) (bundle : blob) (wc : webhook_config) : webhook_config :=
  {| wc_Name := wc_Name wc; wc_Labels := wc_Labels wc; wc_Webhooks := set_bundle names bundle <$> wc_Webhooks wc |}.

(** The configurations with their patches applied, the names of those patched, and the
    error that ended the loop.  [apply] is the outcome of each patch. *)
Fixpoint patch_configs (kind namespace : string) (bundle : blob) (apply : string → option string) (l : list webhook_config) :
    option string * list string * list webhook_config :=
  match l with
  | [] => (None, [], [])
  | wc :: l =>
      let skip := let '(e, ps, l) := patch_configs kind namespace bundle apply l in (e, ps, wc :: l) in
      if negb (injected wc) then skip
      else
        let owned := List.filter (ownsClientConfig namespace) (wc_Webhooks wc) in
        if bool_decide (owned = []) then skip
        else if negb (needsPatch (wh_CABundle <$> owned) bundle) then skip
        else match apply (wc_Name wc) with
        | Some e => (Some ("SSA " +:+ kind +:+ " " +:+ wc_Name wc +:+ ": " +:+ e), [], wc :: l)
        | None =>
            let '(e, ps, l) := patch_configs kind namespace bundle apply l in
            (e, wc_Name wc :: ps, apply_bundles (wh_Name <$> owned) bundle wc :: l)
        end
  end.

Record injector_in := {
  ji_get : cache_read (X := X);
  ji_listMutating : option string;
  ji_listValidating : option string;
  ji_applyMutating : string → option string;
  ji_applyValidating : string → option string
}.
Record injector_out := { jo_err : option string; jo_patched : list string; jo_mutating : list webhook_config; jo_validating : list webhook_config }.

Definition patchMutating (namespace : string) (bundle : blob) (i : injector_in) (l : list webhook_config) :=
  match ji_listMutating i with
  | Some e => (Some e, [], l)
  | None => patch_configs "mutating" namespace bundle (ji_applyMutating i) l
  end.
Definition patchValidating (namespace : string) (bundle : blob) (i : injector_in) (l : list webhook_config) :=
  match ji_listValidating i with
  | Some e => (Some e, [], l)
  | None => patch_configs "validating" namespace bundle (ji_applyValidating i) l
  end.

Definition Reconcile (namespace : string) (i : injector_in) (s : gmap string TLSSecret) (ms vs : list webhook_config) : injector_out :=
  let idle err := {| jo_err := err; jo_patched := []; jo_mutating := ms; jo_validating := vs |} in
  match getSecret CASecretName (ji_get i) s with
  | inr e => if has_kind NotFound e then idle None else idle (Some ("get CA Secret: " +:+ e_text e))
  | inl sec =>
      let bundle := default no_bytes (ts_Data sec !! TLSCertKey) in
      if bool_decide (bundle = no_bytes) then idle None
      else match patchMutating namespace bundle i ms with
      | (Some e, ps, ms') =>
          {| jo_err := Some ("patch mutating webhooks: " +:+ e); jo_patched := ps; jo_mutating := ms'; jo_validating := vs |}
      | (None, ps, ms') =>
          let '(e, ps', vs') := patchValidating namespace bundle i vs in
          {| jo_err := (λ e, "patch validating webhooks: " +:+ e) <$> e; jo_patched := ps ++ ps'; jo_mutating := ms'; jo_validating := vs' |}
      end
  end.

(** What wakes it: the CA Secret of this namespace, and any labelled configuration. *)
Definition caSecretPredicate (namespace ns name : string) : bool := bool_decide (ns = namespace) && bool_decide (name = CASecretName).
Definition labelPredicate (wc : webhook_config) : bool := injected wc.

(** ** Lemmas *)
Definition stamped_entry (namespace : string) (bundle : blob) (w w' : webhook) : Prop :=
  wh_Name w' = wh_Name w ∧ wh_Service w' = wh_Service w ∧
  (if ownsClientConfig namespace w then wh_CABundle w' = bundle else wh_CABundle w' = wh_CABundle w).
Definition stamped_config (namespace : string) (bundle : blob) (wc wc' : webhook_config) : Prop :=
  if injected wc then
    wc_Name wc' = wc_Name wc ∧ wc_Labels wc' = wc_Labels wc ∧ Forall2 (stamped_entry namespace bundle) (wc_Webhooks wc) (wc_Webhooks wc')
  else wc' = wc.
Definition unique_names (wc : webhook_config) : Prop := NoDup (wh_Name <$> wc_Webhooks wc).

Lemma needsPatch_false l want : needsPatch l want = false → ∀ b, b ∈ l → b = want.
Proof.
  unfold needsPatch. intros [_ H]%orb_false_iff b Hb. destruct (decide (b = want)) as [|Hne]; [done|]. exfalso.
  assert (existsb (λ b, negb (bool_decide (b = want))) l = true); [|congruence].
  apply existsb_exists. exists b. split; [by apply list_elem_of_In|]. by rewrite bool_decide_false.
Qed.

Lemma skipped_entries namespace bundle l :
  (∀ w, w ∈ l → ownsClientConfig namespace w = true → wh_CABundle w = bundle) → Forall2 (stamped_entry namespace bundle) l l.
Proof.
  intros H. apply Forall_Forall2_diag, Forall_forall. intros w Hw. split_and!; [done..|]. destruct (ownsClientConfig namespace w) eqn:E; [|done]. by apply H.
Qed.

Lemma owned_iff namespace l w : w ∈ List.filter (ownsClientConfig namespace) l ↔ w ∈ l ∧ ownsClientConfig namespace w = true.
Proof. rewrite !list_elem_of_In. apply filter_In. Qed.

Lemma set_bundles_spec namespace bundle l :
  NoDup (wh_Name <$> l) →
  Forall2 (stamped_entry namespace bundle) l (set_bundle (wh_Name <$> List.filter (ownsClientConfig namespace) l) bundle <$> l).
Proof.
  intros Hd. set (names := wh_Name <$> _).
  cut (∀ w, w ∈ l → stamped_entry namespace bundle w (set_bundle names bundle w)).
  { intros H. by apply Forall2_fmap_r, Forall_Forall2_diag, Forall_forall. }
  intros w Hw. unfold stamped_entry, set_bundle.
  assert (Hiff : wh_Name w ∈ wh_Name <$> List.filter (ownsClientConfig namespace) l ↔ ownsClientConfig namespace w = true).
  { rewrite list_elem_of_fmap. split.
    - intros (w' & En & Hin). apply owned_iff in Hin as [Hw' Ho]. apply list_elem_of_lookup_1 in Hw as [j Hj]. apply list_elem_of_lookup_1 in Hw' as [k Hk].
      assert (j = k) as ->; [|congruence]. apply (NoDup_lookup (wh_Name <$> l) j k (wh_Name w)); [done|by rewrite list_lookup_fmap, Hj|].
      rewrite list_lookup_fmap, Hk. cbn. by rewrite En.
    - intros Ho. exists w. split; [done|]. by apply owned_iff. }
  fold names in Hiff. destruct (decide (wh_Name w ∈ names)) as [Hin|Hin].
  - rewrite bool_decide_true, (proj1 Hiff Hin) by done. done.
  - rewrite bool_decide_false by done. destruct (ownsClientConfig namespace w); [|done]. destruct Hin. by apply Hiff.
Qed.

(** A loop that ends without an error has stamped every configuration it owns. *)
Lemma patch_configs_spec kind namespace bundle apply l :
  Forall unique_names l → (patch_configs kind namespace bundle apply l).1.1 = None →
  Forall2 (stamped_config namespace bundle) l (patch_configs kind namespace bundle apply l).2.
Proof.
  intros Hu. induction Hu as [|wc l Hw Hu IH]; cbn [patch_configs]; [constructor|].
  destruct (patch_configs kind namespace bundle apply l) as [[e ps] l'] eqn:Ep. cbn [fst snd] in *.
  assert (Hskip : (∀ w, w ∈ wc_Webhooks wc → injected wc = true → ownsClientConfig namespace w = true → wh_CABundle w = bundle) →
    e = None → Forall2 (stamped_config namespace bundle) (wc :: l) (wc :: l')).
  { intros Hw' He. constructor; [|by apply IH]. unfold stamped_config. destruct (injected wc) eqn:Ei; [|done]. split_and!; [done..|].
    apply skipped_entries. intros w Hin. by apply Hw'. }
  destruct (injected wc) eqn:Ei; cbn [negb]; [|intros He; by apply Hskip].
  set (owned := List.filter _ _). case_bool_decide as Eo.
  { apply Hskip. intros w Hin _ Ho. assert (H : w ∈ owned) by (by apply owned_iff). rewrite Eo in H. by apply not_elem_of_nil in H. }
  destruct (needsPatch (wh_CABundle <$> owned) bundle) eqn:En; cbn [negb].
  - destruct (apply (wc_Name wc)); [done|]. cbn [fst snd]. intros He. constructor; [|by apply IH]. unfold stamped_config. rewrite Ei.
    split_and!; [done..|]. by apply set_bundles_spec.
  - apply Hskip. intros w Hin _ Ho. apply (needsPatch_false _ _ En). apply list_elem_of_fmap. exists w. split; [done|]. by apply owned_iff.
Qed.

(** Over configurations that are stamped nothing is written. *)
Lemma patch_configs_quiet kind namespace bundle apply l :
  (∀ wc w, wc ∈ l → injected wc = true → w ∈ wc_Webhooks wc → ownsClientConfig namespace w = true → wh_CABundle w = bundle) →
  patch_configs kind namespace bundle apply l = (None, [], l).
Proof.
  induction l as [|wc l IH]; intros H; cbn [patch_configs]; [done|].
  rewrite IH by (intros wc' w Hin; apply H; by right). destruct (injected wc) eqn:Ei; [|done]. cbn [negb].
  set (owned := List.filter _ _). case_bool_decide as Eo; [done|]. assert (needsPatch (wh_CABundle <$> owned) bundle = false) as ->; [|done].
  unfold needsPatch. apply orb_false_iff. split.
  - apply bool_decide_eq_false. by intros ?%fmap_nil_inv.
  - apply not_true_is_false. intros (b & Hb & Hne)%existsb_exists. apply list_elem_of_In, list_elem_of_fmap in Hb as (w & -> & Hw).
    apply owned_iff in Hw as [Hw Ho]. rewrite (H wc w), bool_decide_true in Hne; try done. by left.
Qed.

Lemma stamped_owned namespace bundle l l' :
  Forall2 (stamped_config namespace bundle) l l' →
  ∀ wc w, wc ∈ l' → injected wc = true → w ∈ wc_Webhooks wc → ownsClientConfig namespace w = true → wh_CABundle w = bundle.
Proof.
  intros HF wc' w' Hin Hi Hw Ho. apply list_elem_of_lookup_1 in Hin as [k Hk]. destruct (Forall2_lookup_r _ _ _ _ _ HF Hk) as (wc & _ & Hs).
  unfold stamped_config in Hs. destruct (injected wc) eqn:Ei.
  - destruct Hs as (_ & _ & Hs). apply list_elem_of_lookup_1 in Hw as [j Hj]. destruct (Forall2_lookup_r _ _ _ _ _ Hs Hj) as (w & _ & _ & Hsv & Hb).
    unfold ownsClientConfig in *. rewrite Hsv in Ho. by rewrite Ho in Hb.
  - subst wc'. congruence.
Qed.

Lemma injector_run namespace i s sec ms vs :
  ji_get i = Current → s !! CASecretName = Some sec → CertPEM (materialFromSecret sec) ≠ no_bytes →
  Forall unique_names ms → Forall unique_names vs →
  let out := Reconcile namespace i s ms vs in
  jo_err out = None →
  Forall2 (stamped_config namespace (CertPEM (materialFromSecret sec))) ms (jo_mutating out) ∧
  Forall2 (stamped_config namespace (CertPEM (materialFromSecret sec))) vs (jo_validating out).
Proof.
  intros Hg Hs Hb Hm Hv. cbv zeta. unfold Reconcile. rewrite Hg. cbn [getSecret]. rewrite Hs. cbn [materialFromSecret CertPEM] in *.
  set (bundle := default no_bytes _) in *. rewrite bool_decide_false by done. unfold patchMutating, patchValidating.
  destruct (ji_listMutating i); [done|]. pose proof (patch_configs_spec "mutating" namespace bundle (ji_applyMutating i) ms Hm) as H1.
  destruct (patch_configs _ _ _ _ ms) as [[[e|] ps] ms']; [done|]. destruct (ji_listValidating i); [done|].
  pose proof (patch_configs_spec "validating" namespace bundle (ji_applyValidating i) vs Hv) as H2.
  destruct (patch_configs _ _ _ _ vs) as [[[e|] ps'] vs']; [done|]. cbn [jo_err jo_mutating jo_validating fst snd] in *. intros _.
  by split; [apply H1|apply H2].
Qed.

(** ** Properties *)

(** The injector publishes the CA where it is trusted and nowhere else.  A run without an
    error, over a stored CA, leaves the CA's certificate in every entry of a labelled
    configuration whose Service is in the operator's namespace, and every other entry and
    configuration as it was; and the next run over the result writes nothing. *)
Theorem injector_stamps namespace i s sec ms vs :
  ji_get i = Current → s !! CASecretName = Some sec → CertPEM (materialFromSecret sec) ≠ no_bytes →
  Forall unique_names ms → Forall unique_names vs →
  let out := Reconcile namespace i s ms vs in
  jo_err out = None →
  Forall2 (stamped_config namespace (CertPEM (materialFromSecret sec))) ms (jo_mutating out) ∧
  Forall2 (stamped_config namespace (CertPEM (materialFromSecret sec))) vs (jo_validating out) ∧
  ∀ i', ji_get i' = Current → jo_patched (Reconcile namespace i' s (jo_mutating out) (jo_validating out)) = [].
Proof.
  intros Hg Hs Hb Hm Hv out He. destruct (injector_run namespace i s sec ms vs Hg Hs Hb Hm Hv He) as [H1 H2]. fold out in H1, H2.
  split_and!; [done..|]. intros i' Hg'. unfold Reconcile. rewrite Hg'. cbn [getSecret]. rewrite Hs.
  rewrite bool_decide_false by done. unfold patchMutating, patchValidating. destruct (ji_listMutating i'); [done|].
  rewrite patch_configs_quiet by exact (stamped_owned _ _ _ _ H1). destruct (ji_listValidating i'); [done|].
  by rewrite patch_configs_quiet by exact (stamped_owned _ _ _ _ H2).
Qed.

(** What the API server checks when it calls a webhook at time [t]: the bundle is a CA
    certificate in its validity, and the leaf that is served is signed by it, is in its
    validity and has the host that is called, which is the entry's Service. *)
Definition service_host (svc : ServiceReference) : string := sr_Name svc +:+ "." +:+ sr_Namespace svc +:+ ".svc".
Definition verifiable (s : gmap string TLSSecret) (t : Time) (w : webhook) : Prop :=
  ∃ svc ca c, wh_Service w = Some svc ∧ ParseCert (wh_CABundle w) = Ok ca ∧ valid_at t ca ∧
    stored_cert s LeafSecretName c ∧ CheckSignatureFrom c ca = None ∧ service_host svc ∈ DNSNames c ∧ valid_at t c.

(** C23: while the authority's chain is valid ([certs_never_lapse]), the webhooks can be
    called.  Take an injector that reads the current CA Secret (not a cache that lags behind
    a rotation), and configurations each of whose entries have different names.  After a run
    of it without an error, every entry of a labelled configuration that calls the webhook
    Service of this installation, by its name and namespace, is verifiable: its bundle is
    the stored CA, and the stored leaf is signed by it, is valid and names that Service. *)
Theorem webhooks_verifiable a namespace service i s ms vs t :
  WebhookLeafSpec service namespace ∈ Leaves a → chain_valid a s t →
  ji_get i = Current → Forall unique_names ms → Forall unique_names vs →
  let out := Reconcile namespace i s ms vs in
  jo_err out = None →
  ∀ wc w, wc ∈ jo_mutating out ++ jo_validating out → injected wc = true → w ∈ wc_Webhooks wc →
  wh_Service w = Some {| sr_Namespace := namespace; sr_Name := service |} →
  verifiable s t w.
Proof.
  intros Hleaf (ca & (sec & Hsec & Hca) & Hvca & Hl) Hg Hm Hv out He wc w Hwc Hi Hw Hsvc.
  assert (Ho : ownsClientConfig namespace w = true).
  { unfold ownsClientConfig. rewrite Hsvc. by apply bool_decide_eq_true. }
  assert (Hb : CertPEM (materialFromSecret sec) ≠ no_bytes).
  { intros E. rewrite E in Hca. unfold ParseCert in Hca. by rewrite decode_nothing in Hca. }
  destruct (injector_run namespace i s sec ms vs Hg Hsec Hb Hm Hv He) as [H1 H2].
  assert (Ew : wh_CABundle w = CertPEM (materialFromSecret sec)).
  { apply elem_of_app in Hwc as [Hwc|Hwc]; [exact (stamped_owned _ _ _ _ H1 wc w Hwc Hi Hw Ho)|exact (stamped_owned _ _ _ _ H2 wc w Hwc Hi Hw Ho)]. }
  destruct (Hl _ Hleaf) as (c & Hc & Hsig & Hd & Hvc). eexists _, ca, c. rewrite Ew, Hd, Hsvc.
  split_and!; try done. left.
Qed.
End injector.

(** ** Two configurations, one entry of which another installation serves *)
Definition demo_service (ns : string) : ServiceReference := {| sr_Namespace := ns; sr_Name := "velkir-webhook" |}.
Definition demo_entry (name : string) (ns : option string) : webhook (X := symbolic) :=
  {| wh_Name := name; wh_Service := demo_service <$> ns; wh_CABundle := no_bytes |}.
Definition demo_config : webhook_config (X := symbolic) :=
  {| wc_Name := "velkir"; wc_Labels := {[InjectCALabel := InjectCALabelTrue]};
     wc_Webhooks := [demo_entry "vvalkey.ioxie.dev" (Some "velkir-system"); demo_entry "other.example" (Some "elsewhere"); demo_entry "url.example" None] |}.
Definition demo_inject : injector_in (X := symbolic) :=
  {| ji_get := Current; ji_listMutating := None; ji_listValidating := None; ji_applyMutating _ := None; ji_applyValidating _ := None |}.

Lemma demo_unique : Forall unique_names [demo_config].
Proof. repeat constructor; cbn; set_solver. Qed.

Lemma demo_chain : chain_valid demo_auth demo_installed (day 1 + Hour).
Proof.
  refine (proj2 (pass_secures demo_auth Hour _ _ _ _ (day 1 + Minute) (demo_pass (day 1) Current "ca 1") ∅ (24 * Hour)
    (reconcileOnce demo_auth (demo_pass (day 1) Current "ca 1") ∅).2 _ _ _) _ _).
  - by vm_compute.
  - split; by vm_compute.
  - split; by vm_compute.
  - apply (bool_decide_unpack _). by vm_compute.
  - split; [intros c (sec & H & _)|intros sp c _ (sec & H & _)]; by rewrite lookup_empty in H.
  - apply demo_within.
  - rewrite (surjective_pairing (reconcileOnce _ _ _)) at 1. by f_equal.
  - split; by vm_compute.
Qed.

Definition stored_pem (s : gmap string (TLSSecret (X := symbolic))) : sym :=
  match s !! CASecretName with Some sec => CertPEM (materialFromSecret sec) | None => Raw "" end.

Lemma injector_stamps_witness :
  let out := Reconcile "velkir-system" demo_inject demo_installed [demo_config] [] in
  jo_patched out = ["velkir"] ∧ jo_patched (Reconcile "velkir-system" demo_inject demo_installed (jo_mutating out) (jo_validating out)) = [].
Proof.
  split; [vm_compute; reflexivity|].
  assert (Hs : is_Some (demo_installed !! CASecretName)) by (apply (bool_decide_unpack _); vm_compute; exact I). destruct Hs as [sec Hs].
  apply (injector_stamps "velkir-system" demo_inject demo_installed sec [demo_config] []).
  - done.
  - exact Hs.
  - intros E. assert (Hb : stored_pem demo_installed ≠ Raw "") by (apply (bool_decide_unpack _); vm_compute; exact I).
    apply Hb. unfold stored_pem. rewrite Hs. exact E.
  - apply demo_unique.
  - constructor.
  - vm_compute. reflexivity.
  - done.
Defined.

Lemma webhooks_verifiable_witness :
  let out := Reconcile "velkir-system" demo_inject demo_installed [demo_config] [] in
  ∃ w, w ∈ (jo_mutating out ≫= wc_Webhooks) ∧ verifiable demo_installed (day 1 + Hour) w.
Proof.
  cbv zeta. set (out := Reconcile _ _ _ _ _).
  assert (Hw : ∃ wc w, wc ∈ jo_mutating out ∧ injected wc = true ∧ w ∈ wc_Webhooks wc ∧ wh_Service w = Some (demo_service "velkir-system")).
  { assert (H : (λ wc, (injected wc, wh_Service <$> wc_Webhooks wc)) <$> jo_mutating out =
      [(true, [Some (demo_service "velkir-system"); Some (demo_service "elsewhere"); None])]) by (vm_compute; reflexivity).
    destruct (jo_mutating out) as [|wc l]; [discriminate H|]. injection H as Hi Hw _. destruct (wc_Webhooks wc) as [|w ws] eqn:Ew; [discriminate Hw|].
    injection Hw as Ho _. exists wc, w. split_and!; [constructor|exact Hi|rewrite Ew; constructor|exact Ho]. }
  destruct Hw as (wc & w & Hwc & Hi & Hw & Ho). exists w. split; [apply list_elem_of_bind; by exists wc|].
  refine (webhooks_verifiable demo_auth "velkir-system" "velkir-webhook" demo_inject demo_installed [demo_config] [] (day 1 + Hour) _ _ _ _ _ _ wc w _ Hi Hw Ho).
  - constructor.
  - apply demo_chain.
  - done.
  - apply demo_unique.
  - constructor.
  - vm_compute. reflexivity.
  - apply elem_of_app. by left.
Defined.
