(* ===== verification/PodAC.v ===== *)
(** * User-supplied pod settings: [internal/controller/sts_build.go], the [ac*] converters

    The settings a CR may carry for its pods (placement, tolerations, spread, DNS, probes,
    resource claims, security context) are Kubernetes API types; the StatefulSet is sent as an
    apply configuration, in which every field is a pointer and an absent field is one the operator
    does not own.  A converter per type copies the fields that are set.

    A type and its apply configuration have the same fields, so each is one record over [F]:
    with [plain] a scalar field holds its value (the zero value when it was not set), with
    [option] it is a pointer.  Fields that are pointers, lists or maps in the API type itself
    are the same in both; a nil slice or map is an empty one.  A converter of the source
    returns nil for nil: it is used under [fmap] at a pointer and at a slice. *)
From S2P Require Import Prelude GoStd ApiTypes.
Local Open Scope Z_scope.

Abbreviation plain := (λ A : Type, A).

(** ** The types *)
Record LabelSelectorRequirement (F : Type → Type) := {
  lsr_Key : F string; lsr_Operator : F string; lsr_Values : list string }.
Record LabelSelector (F : Type → Type) := {
  ls_MatchLabels : gmap string string; ls_MatchExpressions : list (LabelSelectorRequirement F) }.
Record NodeSelectorRequirement (F : Type → Type) := {
  nsr_Key : F string; nsr_Operator : F string; nsr_Values : list string }.
Record NodeSelectorTerm (F : Type → Type) := {
  nst_MatchExpressions : list (NodeSelectorRequirement F); nst_MatchFields : list (NodeSelectorRequirement F) }.
Record NodeSelector (F : Type → Type) := { ns_Terms : list (NodeSelectorTerm F) }.
Record PreferredSchedulingTerm (F : Type → Type) := { pst_Weight : F Z; pst_Preference : F (NodeSelectorTerm F) }.
Record NodeAffinity (F : Type → Type) := {
  na_Required : option (NodeSelector F); na_Preferred : list (PreferredSchedulingTerm F) }.
Record PodAffinityTerm (F : Type → Type) := {
  pat_TopologyKey : F string;
  pat_LabelSelector : option (LabelSelector F);
  pat_Namespaces : list string;
  pat_NamespaceSelector : option (LabelSelector F);
  pat_MatchLabelKeys : list string;
  pat_MismatchLabelKeys : list string }.
Record WeightedPodAffinityTerm (F : Type → Type) := { wpt_Weight : F Z; wpt_Term : F (PodAffinityTerm F) }.
Record PodAffinity (F : Type → Type) := {
  pa_Required : list (PodAffinityTerm F); pa_Preferred : list (WeightedPodAffinityTerm F) }.
Record PodAntiAffinity (F : Type → Type) := {
  paa_Required : list (PodAffinityTerm F); paa_Preferred : list (WeightedPodAffinityTerm F) }.
Record Affinity (F : Type → Type) := {
  af_Node : option (NodeAffinity F); af_Pod : option (PodAffinity F); af_PodAnti : option (PodAntiAffinity F) }.

Record Toleration (F : Type → Type) := {
  tl_Key : F string; tl_Operator : F string; tl_Value : F string; tl_Effect : F string;
  tl_TolerationSeconds : option Z }.
Record TopologySpreadConstraint (F : Type → Type) := {
  tsc_MaxSkew : F Z; tsc_TopologyKey : F string; tsc_WhenUnsatisfiable : F string;
  tsc_LabelSelector : option (LabelSelector F); tsc_MinDomains : option Z;
  tsc_NodeAffinityPolicy : option string; tsc_NodeTaintsPolicy : option string;
  tsc_MatchLabelKeys : list string }.
Record PodDNSConfigOption (F : Type → Type) := { do_Name : F string; do_Value : option string }.
Record PodDNSConfig (F : Type → Type) := {
  dns_Nameservers : list string; dns_Searches : list string; dns_Options : list (PodDNSConfigOption F) }.

Record HTTPHeader (F : Type → Type) := { hh_Name : F string; hh_Value : F string }.
Record HTTPGetAction (F : Type → Type) := {
  hg_Port : F IntOrString; hg_Path : F string; hg_Host : F string; hg_Scheme : F string;
  hg_Headers : list (HTTPHeader F) }.
Record TCPSocketAction (F : Type → Type) := { ts_Port : F IntOrString; ts_Host : F string }.
Record GRPCAction (F : Type → Type) := { gr_Port : F Z; gr_Service : option string }.
Record ExecAction := { ex_Command : list string }.
Record Probe (F : Type → Type) := {
  pr_Exec : option ExecAction;
  pr_HTTPGet : option (HTTPGetAction F);
  pr_TCPSocket : option (TCPSocketAction F);
  pr_GRPC : option (GRPCAction F);
  pr_InitialDelaySeconds : F Z;
  pr_TimeoutSeconds : F Z;
  pr_PeriodSeconds : F Z;
  pr_SuccessThreshold : F Z;
  pr_FailureThreshold : F Z;
  pr_TerminationGracePeriodSeconds : option Z }.
Record ResourceClaim (F : Type → Type) := { rc_Name : F string; rc_Request : F string }.

Record SELinuxOptions (F : Type → Type) := { se_User : F string; se_Role : F string; se_Type : F string; se_Level : F string }.
Record WindowsSecurityContextOptions := {
  wi_GMSACredentialSpecName : option string; wi_GMSACredentialSpec : option string;
  wi_RunAsUserName : option string; wi_HostProcess : option bool }.
Record SeccompProfile (F : Type → Type) := { sc_Type : F string; sc_LocalhostProfile : option string }.
Record AppArmorProfile (F : Type → Type) := { aa_Type : F string; aa_LocalhostProfile : option string }.
Record Sysctl (F : Type → Type) := { sy_Name : F string; sy_Value : F string }.
Record PodSecurityContext (F : Type → Type) := {
  psc_SELinuxOptions : option (SELinuxOptions F);
  psc_WindowsOptions : option WindowsSecurityContextOptions;
  psc_RunAsUser : option Z;
  psc_RunAsGroup : option Z;
  psc_RunAsNonRoot : option bool;
  psc_SupplementalGroups : list Z;
  psc_SupplementalGroupsPolicy : option string;
  psc_FSGroup : option Z;
  psc_Sysctls : list (Sysctl F);
  psc_FSGroupChangePolicy : option string;
  psc_SeccompProfile : option (SeccompProfile F);
  psc_AppArmorProfile : option (AppArmorProfile F);
  psc_SELinuxChangePolicy : option string }.

(** The fields of a record at [F] are its projections, whatever [F] is. *)
Arguments lsr_Key {F}. Arguments lsr_Operator {F}. Arguments lsr_Values {F}.
Arguments ls_MatchLabels {F}. Arguments ls_MatchExpressions {F}.
Arguments nsr_Key {F}. Arguments nsr_Operator {F}. Arguments nsr_Values {F}.
Arguments nst_MatchExpressions {F}. Arguments nst_MatchFields {F}. Arguments ns_Terms {F}.
Arguments pst_Weight {F}. Arguments pst_Preference {F}.
Arguments na_Required {F}. Arguments na_Preferred {F}.
Arguments pat_TopologyKey {F}. Arguments pat_LabelSelector {F}. Arguments pat_Namespaces {F}.
Arguments pat_NamespaceSelector {F}. Arguments pat_MatchLabelKeys {F}. Arguments pat_MismatchLabelKeys {F}.
Arguments wpt_Weight {F}. Arguments wpt_Term {F}.
Arguments pa_Required {F}. Arguments pa_Preferred {F}. Arguments paa_Required {F}. Arguments paa_Preferred {F}.
Arguments af_Node {F}. Arguments af_Pod {F}. Arguments af_PodAnti {F}.
Arguments tl_Key {F}. Arguments tl_Operator {F}. Arguments tl_Value {F}. Arguments tl_Effect {F}.
Arguments tl_TolerationSeconds {F}.
Arguments tsc_MaxSkew {F}. Arguments tsc_TopologyKey {F}. Arguments tsc_WhenUnsatisfiable {F}.
Arguments tsc_LabelSelector {F}. Arguments tsc_MinDomains {F}. Arguments tsc_NodeAffinityPolicy {F}.
Arguments tsc_NodeTaintsPolicy {F}. Arguments tsc_MatchLabelKeys {F}.
Arguments do_Name {F}. Arguments do_Value {F}.
Arguments dns_Nameservers {F}. Arguments dns_Searches {F}. Arguments dns_Options {F}.
Arguments hh_Name {F}. Arguments hh_Value {F}.
Arguments hg_Port {F}. Arguments hg_Path {F}. Arguments hg_Host {F}. Arguments hg_Scheme {F}. Arguments hg_Headers {F}.
Arguments ts_Port {F}. Arguments ts_Host {F}. Arguments gr_Port {F}. Arguments gr_Service {F}.
Arguments pr_Exec {F}. Arguments pr_HTTPGet {F}. Arguments pr_TCPSocket {F}. Arguments pr_GRPC {F}.
Arguments pr_InitialDelaySeconds {F}. Arguments pr_TimeoutSeconds {F}. Arguments pr_PeriodSeconds {F}.
Arguments pr_SuccessThreshold {F}. Arguments pr_FailureThreshold {F}. Arguments pr_TerminationGracePeriodSeconds {F}.
Arguments rc_Name {F}. Arguments rc_Request {F}.
Arguments se_User {F}. Arguments se_Role {F}. Arguments se_Type {F}. Arguments se_Level {F}.
Arguments sc_Type {F}. Arguments sc_LocalhostProfile {F}. Arguments aa_Type {F}. Arguments aa_LocalhostProfile {F}.
Arguments sy_Name {F}. Arguments sy_Value {F}.
Arguments psc_SELinuxOptions {F}. Arguments psc_WindowsOptions {F}. Arguments psc_RunAsUser {F}.
Arguments psc_RunAsGroup {F}. Arguments psc_RunAsNonRoot {F}. Arguments psc_SupplementalGroups {F}.
Arguments psc_SupplementalGroupsPolicy {F}. Arguments psc_FSGroup {F}. Arguments psc_Sysctls {F}.
Arguments psc_FSGroupChangePolicy {F}. Arguments psc_SeccompProfile {F}. Arguments psc_AppArmorProfile {F}.
Arguments psc_SELinuxChangePolicy {F}.

(** ** The converters *)
(** [if x != "" { out.WithX(x) }], and its like for numbers. *)
Definition stamp (s : string) : option string := if bool_decide (s = "") then None else Some s.
Definition stampZ (n : Z) : option Z := if bool_decide (n = 0) then None else Some n.

Definition acLabelSelector (src : LabelSelector plain) : LabelSelector option :=
  {| ls_MatchLabels := ls_MatchLabels src;
     ls_MatchExpressions := (λ req,
       {| lsr_Key := Some (lsr_Key req); lsr_Operator := Some (lsr_Operator req); lsr_Values := lsr_Values req |})
       <$> ls_MatchExpressions src |}.

Definition acNodeSelectorRequirement (src : NodeSelectorRequirement plain) : NodeSelectorRequirement option :=
  {| nsr_Key := Some (nsr_Key src); nsr_Operator := Some (nsr_Operator src); nsr_Values := nsr_Values src |}.
Definition acNodeSelectorTerm (src : NodeSelectorTerm plain) : NodeSelectorTerm option :=
  {| nst_MatchExpressions := acNodeSelectorRequirement <$> nst_MatchExpressions src;
     nst_MatchFields := acNodeSelectorRequirement <$> nst_MatchFields src |}.
Definition acNodeSelector (src : NodeSelector plain) : NodeSelector option :=
  {| ns_Terms := acNodeSelectorTerm <$> ns_Terms src |}.
Definition acPreferredSchedulingTerm (src : PreferredSchedulingTerm plain) : PreferredSchedulingTerm option :=
  {| pst_Weight := Some (pst_Weight src); pst_Preference := Some (acNodeSelectorTerm (pst_Preference src)) |}.
Definition acNodeAffinity (src : NodeAffinity plain) : NodeAffinity option :=
  {| na_Required := acNodeSelector <$> na_Required src;
     na_Preferred := acPreferredSchedulingTerm <$> na_Preferred src |}.

Definition acPodAffinityTerm (src : PodAffinityTerm plain) : PodAffinityTerm option :=
  {| pat_TopologyKey := Some (pat_TopologyKey src);
     pat_LabelSelector := acLabelSelector <$> pat_LabelSelector src;
     pat_Namespaces := pat_Namespaces src;
     pat_NamespaceSelector := acLabelSelector <$> pat_NamespaceSelector src;
     pat_MatchLabelKeys := pat_MatchLabelKeys src;
     pat_MismatchLabelKeys := pat_MismatchLabelKeys src |}.
Definition acWeightedPodAffinityTerm (src : WeightedPodAffinityTerm plain) : WeightedPodAffinityTerm option :=
  {| wpt_Weight := Some (wpt_Weight src); wpt_Term := Some (acPodAffinityTerm (wpt_Term src)) |}.
Definition acPodAffinity (src : PodAffinity plain) : PodAffinity option :=
  {| pa_Required := acPodAffinityTerm <$> pa_Required src;
     pa_Preferred := acWeightedPodAffinityTerm <$> pa_Preferred src |}.
Definition acPodAntiAffinity (src : PodAntiAffinity plain) : PodAntiAffinity option :=
  {| paa_Required := acPodAffinityTerm <$> paa_Required src;
     paa_Preferred := acWeightedPodAffinityTerm <$> paa_Preferred src |}.
Definition acAffinity (src : Affinity plain) : Affinity option :=
  {| af_Node := acNodeAffinity <$> af_Node src; af_Pod := acPodAffinity <$> af_Pod src;
     af_PodAnti := acPodAntiAffinity <$> af_PodAnti src |}.

Definition acToleration (src : Toleration plain) : Toleration option :=
  {| tl_Key := stamp (tl_Key src); tl_Operator := stamp (tl_Operator src); tl_Value := stamp (tl_Value src);
     tl_Effect := stamp (tl_Effect src); tl_TolerationSeconds := tl_TolerationSeconds src |}.
Definition acTolerations (src : list (Toleration plain)) : list (Toleration option) := acToleration <$> src.

Definition acTopologySpreadConstraint (c : TopologySpreadConstraint plain) : TopologySpreadConstraint option :=
  {| tsc_MaxSkew := Some (tsc_MaxSkew c); tsc_TopologyKey := Some (tsc_TopologyKey c);
     tsc_WhenUnsatisfiable := Some (tsc_WhenUnsatisfiable c);
     tsc_LabelSelector := acLabelSelector <$> tsc_LabelSelector c; tsc_MinDomains := tsc_MinDomains c;
     tsc_NodeAffinityPolicy := tsc_NodeAffinityPolicy c; tsc_NodeTaintsPolicy := tsc_NodeTaintsPolicy c;
     tsc_MatchLabelKeys := tsc_MatchLabelKeys c |}.
Definition acTopologySpreadConstraints (src : list (TopologySpreadConstraint plain)) :
    list (TopologySpreadConstraint option) := acTopologySpreadConstraint <$> src.

Definition acDNSConfig (src : PodDNSConfig plain) : PodDNSConfig option :=
  {| dns_Nameservers := dns_Nameservers src; dns_Searches := dns_Searches src;
     dns_Options := (λ o, {| do_Name := stamp (do_Name o); do_Value := do_Value o |}) <$> dns_Options src |}.

Definition acResourceClaims (src : list (ResourceClaim plain)) : list (ResourceClaim option) :=
  (λ c, {| rc_Name := Some (rc_Name c); rc_Request := stamp (rc_Request c) |}) <$> src.

Definition acExecAction (src : ExecAction) : ExecAction := {| ex_Command := ex_Command src |}.
Definition acHTTPGetAction (src : HTTPGetAction plain) : HTTPGetAction option :=
  {| hg_Port := Some (hg_Port src); hg_Path := stamp (hg_Path src); hg_Host := stamp (hg_Host src);
     hg_Scheme := stamp (hg_Scheme src);
     hg_Headers := (λ h, {| hh_Name := Some (hh_Name h); hh_Value := Some (hh_Value h) |}) <$> hg_Headers src |}.
Definition acTCPSocketAction (src : TCPSocketAction plain) : TCPSocketAction option :=
  {| ts_Port := Some (ts_Port src); ts_Host := stamp (ts_Host src) |}.
Definition acGRPCAction (src : GRPCAction plain) : GRPCAction option :=
  {| gr_Port := Some (gr_Port src); gr_Service := gr_Service src |}.
Definition acProbe (src : Probe plain) : Probe option :=
  {| pr_Exec := acExecAction <$> pr_Exec src;
     pr_HTTPGet := acHTTPGetAction <$> pr_HTTPGet src;
     pr_TCPSocket := acTCPSocketAction <$> pr_TCPSocket src;
     pr_GRPC := acGRPCAction <$> pr_GRPC src;
     pr_InitialDelaySeconds := stampZ (pr_InitialDelaySeconds src);
     pr_TimeoutSeconds := stampZ (pr_TimeoutSeconds src);
     pr_PeriodSeconds := stampZ (pr_PeriodSeconds src);
     pr_SuccessThreshold := stampZ (pr_SuccessThreshold src);
     pr_FailureThreshold := stampZ (pr_FailureThreshold src);
     pr_TerminationGracePeriodSeconds := pr_TerminationGracePeriodSeconds src |}.

Definition acSELinuxOptions (src : SELinuxOptions plain) : SELinuxOptions option :=
  {| se_User := stamp (se_User src); se_Role := stamp (se_Role src); se_Type := stamp (se_Type src);
     se_Level := stamp (se_Level src) |}.
Definition acWindowsSecurityContextOptions (src : WindowsSecurityContextOptions) : WindowsSecurityContextOptions :=
  {| wi_GMSACredentialSpecName := wi_GMSACredentialSpecName src; wi_GMSACredentialSpec := wi_GMSACredentialSpec src;
     wi_RunAsUserName := wi_RunAsUserName src; wi_HostProcess := wi_HostProcess src |}.
Definition acSeccompProfile (src : SeccompProfile plain) : SeccompProfile option :=
  {| sc_Type := Some (sc_Type src); sc_LocalhostProfile := sc_LocalhostProfile src |}.
Definition acAppArmorProfile (src : AppArmorProfile plain) : AppArmorProfile option :=
  {| aa_Type := Some (aa_Type src); aa_LocalhostProfile := aa_LocalhostProfile src |}.
Definition acPodSecurityContext (src : PodSecurityContext plain) : PodSecurityContext option :=
  {| psc_SELinuxOptions := acSELinuxOptions <$> psc_SELinuxOptions src;
     psc_WindowsOptions := acWindowsSecurityContextOptions <$> psc_WindowsOptions src;
     psc_RunAsUser := psc_RunAsUser src;
     psc_RunAsGroup := psc_RunAsGroup src;
     psc_RunAsNonRoot := psc_RunAsNonRoot src;
     psc_SupplementalGroups := psc_SupplementalGroups src;
     psc_SupplementalGroupsPolicy := psc_SupplementalGroupsPolicy src;
     psc_FSGroup := psc_FSGroup src;
     psc_Sysctls := (λ s, {| sy_Name := Some (sy_Name s); sy_Value := Some (sy_Value s) |}) <$> psc_Sysctls src;
     psc_FSGroupChangePolicy := psc_FSGroupChangePolicy src;
     psc_SeccompProfile := acSeccompProfile <$> psc_SeccompProfile src;
     psc_AppArmorProfile := acAppArmorProfile <$> psc_AppArmorProfile src;
     psc_SELinuxChangePolicy := psc_SELinuxChangePolicy src |}.

(** ** What the API server reads back

    The decoder of the API server gives an absent scalar its zero value.  A conversion is
    lossless when that gives the user's settings back; the laws compose over pointers and
    slices, as the converters do. *)
Class Lossless {T A : Type} (ac : T → A) := {
  decode : A → T;
  decode_ac s : decode (ac s) = s
}.
Arguments decode {T A} ac {_} _ : simpl never.

Lemma decode_list {T A} {ac : T → A} `{!Lossless ac} (l : list T) : decode ac <$> (ac <$> l) = l.
Proof. induction l as [|x l IH]; [done|]. csimpl. by rewrite decode_ac, IH. Qed.
Lemma decode_option {T A} {ac : T → A} `{!Lossless ac} (o : option T) : decode ac <$> (ac <$> o) = o.
Proof. destruct o as [x|]; [|done]. cbn. by rewrite decode_ac. Qed.
Lemma back_list {T A} (f : T → A) (g : A → T) (l : list T) : (∀ x, g (f x) = x) → g <$> (f <$> l) = l.
Proof. intros Hg. induction l as [|x l IH]; [done|]. csimpl. by rewrite Hg, IH. Qed.
Lemma stamp_back s : default "" (stamp s) = s.
Proof. unfold stamp. by case_bool_decide. Qed.
Lemma stampZ_back n : default 0 (stampZ n) = n.
Proof. unfold stampZ. by case_bool_decide. Qed.

Ltac lossless :=
  intros []; cbn; rewrite ?stamp_back, ?stampZ_back, ?decode_ac, ?decode_option, ?decode_list; try done;
  repeat (rewrite back_list; [|intros []; cbn; rewrite ?stamp_back; done]); done.

#[export] Instance lossless_option {T A} {ac : T → A} `{!Lossless ac} : Lossless (fmap (M:=option) ac) :=
  {| decode := fmap (decode ac); decode_ac := decode_option |}.
#[export] Instance lossless_list {T A} {ac : T → A} `{!Lossless ac} : Lossless (fmap (M:=list) ac) :=
  {| decode := fmap (decode ac); decode_ac := decode_list |}.

#[export] Program Instance labelSelector_lossless : Lossless acLabelSelector :=
  {| decode a := {| ls_MatchLabels := ls_MatchLabels a;
       ls_MatchExpressions := (λ r, {| lsr_Key := default "" (lsr_Key r); lsr_Operator := default "" (lsr_Operator r);
                                       lsr_Values := lsr_Values r |}) <$> ls_MatchExpressions a |} |}.
Next Obligation. lossless. Qed.
#[export] Program Instance nodeSelectorRequirement_lossless : Lossless acNodeSelectorRequirement :=
  {| decode a := {| nsr_Key := default "" (nsr_Key a); nsr_Operator := default "" (nsr_Operator a); nsr_Values := nsr_Values a |} |}.
Next Obligation. lossless. Qed.
#[export] Program Instance nodeSelectorTerm_lossless : Lossless acNodeSelectorTerm :=
  {| decode a := {| nst_MatchExpressions := decode acNodeSelectorRequirement <$> nst_MatchExpressions a;
                    nst_MatchFields := decode acNodeSelectorRequirement <$> nst_MatchFields a |} |}.
Next Obligation. lossless. Qed.
#[export] Program Instance nodeSelector_lossless : Lossless acNodeSelector :=
  {| decode a := {| ns_Terms := decode acNodeSelectorTerm <$> ns_Terms a |} |}.
Next Obligation. lossless. Qed.
Definition nodeSelectorTerm_zero : NodeSelectorTerm plain := {| nst_MatchExpressions := []; nst_MatchFields := [] |}.
#[export] Program Instance preferredSchedulingTerm_lossless : Lossless acPreferredSchedulingTerm :=
  {| decode a := {| pst_Weight := default 0 (pst_Weight a);
                    pst_Preference := default nodeSelectorTerm_zero (decode acNodeSelectorTerm <$> pst_Preference a) |} |}.
Next Obligation. lossless. Qed.
#[export] Program Instance nodeAffinity_lossless : Lossless acNodeAffinity :=
  {| decode a := {| na_Required := decode acNodeSelector <$> na_Required a;
                    na_Preferred := decode acPreferredSchedulingTerm <$> na_Preferred a |} |}.
Next Obligation. lossless. Qed.
#[export] Program Instance podAffinityTerm_lossless : Lossless acPodAffinityTerm :=
  {| decode a := {| pat_TopologyKey := default "" (pat_TopologyKey a);
       pat_LabelSelector := decode acLabelSelector <$> pat_LabelSelector a; pat_Namespaces := pat_Namespaces a;
       pat_NamespaceSelector := decode acLabelSelector <$> pat_NamespaceSelector a;
       pat_MatchLabelKeys := pat_MatchLabelKeys a; pat_MismatchLabelKeys := pat_MismatchLabelKeys a |} |}.
Next Obligation. lossless. Qed.
Definition podAffinityTerm_zero : PodAffinityTerm plain :=
  {| pat_TopologyKey := ""; pat_LabelSelector := None; pat_Namespaces := []; pat_NamespaceSelector := None;
     pat_MatchLabelKeys := []; pat_MismatchLabelKeys := [] |}.
#[export] Program Instance weightedPodAffinityTerm_lossless : Lossless acWeightedPodAffinityTerm :=
  {| decode a := {| wpt_Weight := default 0 (wpt_Weight a);
                    wpt_Term := default podAffinityTerm_zero (decode acPodAffinityTerm <$> wpt_Term a) |} |}.
Next Obligation. lossless. Qed.
#[export] Program Instance podAffinity_lossless : Lossless acPodAffinity :=
  {| decode a := {| pa_Required := decode acPodAffinityTerm <$> pa_Required a;
                    pa_Preferred := decode acWeightedPodAffinityTerm <$> pa_Preferred a |} |}.
Next Obligation. lossless. Qed.
#[export] Program Instance podAntiAffinity_lossless : Lossless acPodAntiAffinity :=
  {| decode a := {| paa_Required := decode acPodAffinityTerm <$> paa_Required a;
                    paa_Preferred := decode acWeightedPodAffinityTerm <$> paa_Preferred a |} |}.
Next Obligation. lossless. Qed.
#[export] Program Instance affinity_lossless : Lossless acAffinity :=
  {| decode a := {| af_Node := decode acNodeAffinity <$> af_Node a; af_Pod := decode acPodAffinity <$> af_Pod a;
                    af_PodAnti := decode acPodAntiAffinity <$> af_PodAnti a |} |}.
Next Obligation. lossless. Qed.
#[export] Program Instance toleration_lossless : Lossless acToleration :=
  {| decode a := {| tl_Key := default "" (tl_Key a); tl_Operator := default "" (tl_Operator a);
       tl_Value := default "" (tl_Value a); tl_Effect := default "" (tl_Effect a);
       tl_TolerationSeconds := tl_TolerationSeconds a |} |}.
Next Obligation. lossless. Qed.
#[export] Instance tolerations_lossless : Lossless acTolerations := lossless_list.
#[export] Program Instance topologySpreadConstraint_lossless : Lossless acTopologySpreadConstraint :=
  {| decode a := {| tsc_MaxSkew := default 0 (tsc_MaxSkew a); tsc_TopologyKey := default "" (tsc_TopologyKey a);
       tsc_WhenUnsatisfiable := default "" (tsc_WhenUnsatisfiable a);
       tsc_LabelSelector := decode acLabelSelector <$> tsc_LabelSelector a; tsc_MinDomains := tsc_MinDomains a;
       tsc_NodeAffinityPolicy := tsc_NodeAffinityPolicy a; tsc_NodeTaintsPolicy := tsc_NodeTaintsPolicy a;
       tsc_MatchLabelKeys := tsc_MatchLabelKeys a |} |}.
Next Obligation. lossless. Qed.
#[export] Instance topologySpreadConstraints_lossless : Lossless acTopologySpreadConstraints := lossless_list.
#[export] Program Instance dnsConfig_lossless : Lossless acDNSConfig :=
  {| decode a := {| dns_Nameservers := dns_Nameservers a; dns_Searches := dns_Searches a;
       dns_Options := (λ o, {| do_Name := default "" (do_Name o); do_Value := do_Value o |}) <$> dns_Options a |} |}.
Next Obligation. lossless. Qed.
#[export] Program Instance resourceClaims_lossless : Lossless acResourceClaims :=
  {| decode l := (λ c, {| rc_Name := default "" (rc_Name c); rc_Request := default "" (rc_Request c) |}) <$> l |}.
Next Obligation. intros l. apply back_list. lossless. Qed.
#[export] Program Instance execAction_lossless : Lossless acExecAction := {| decode a := a |}.
Next Obligation. lossless. Qed.
#[export] Program Instance httpGetAction_lossless : Lossless acHTTPGetAction :=
  {| decode a := {| hg_Port := default (FromInt32 0) (hg_Port a); hg_Path := default "" (hg_Path a);
       hg_Host := default "" (hg_Host a); hg_Scheme := default "" (hg_Scheme a);
       hg_Headers := (λ h, {| hh_Name := default "" (hh_Name h); hh_Value := default "" (hh_Value h) |}) <$> hg_Headers a |} |}.
Next Obligation. lossless. Qed.
#[export] Program Instance tcpSocketAction_lossless : Lossless acTCPSocketAction :=
  {| decode a := {| ts_Port := default (FromInt32 0) (ts_Port a); ts_Host := default "" (ts_Host a) |} |}.
Next Obligation. lossless. Qed.
#[export] Program Instance grpcAction_lossless : Lossless acGRPCAction :=
  {| decode a := {| gr_Port := default 0 (gr_Port a); gr_Service := gr_Service a |} |}.
Next Obligation. lossless. Qed.
#[export] Program Instance probe_lossless : Lossless acProbe :=
  {| decode a := {| pr_Exec := decode acExecAction <$> pr_Exec a; pr_HTTPGet := decode acHTTPGetAction <$> pr_HTTPGet a;
       pr_TCPSocket := decode acTCPSocketAction <$> pr_TCPSocket a; pr_GRPC := decode acGRPCAction <$> pr_GRPC a;
       pr_InitialDelaySeconds := default 0 (pr_InitialDelaySeconds a); pr_TimeoutSeconds := default 0 (pr_TimeoutSeconds a);
       pr_PeriodSeconds := default 0 (pr_PeriodSeconds a); pr_SuccessThreshold := default 0 (pr_SuccessThreshold a);
       pr_FailureThreshold := default 0 (pr_FailureThreshold a);
       pr_TerminationGracePeriodSeconds := pr_TerminationGracePeriodSeconds a |} |}.
Next Obligation. lossless. Qed.
#[export] Program Instance seLinuxOptions_lossless : Lossless acSELinuxOptions :=
  {| decode a := {| se_User := default "" (se_User a); se_Role := default "" (se_Role a);
                    se_Type := default "" (se_Type a); se_Level := default "" (se_Level a) |} |}.
Next Obligation. lossless. Qed.
#[export] Program Instance windowsOptions_lossless : Lossless acWindowsSecurityContextOptions := {| decode a := a |}.
Next Obligation. lossless. Qed.
#[export] Program Instance seccompProfile_lossless : Lossless acSeccompProfile :=
  {| decode a := {| sc_Type := default "" (sc_Type a); sc_LocalhostProfile := sc_LocalhostProfile a |} |}.
Next Obligation. lossless. Qed.
#[export] Program Instance appArmorProfile_lossless : Lossless acAppArmorProfile :=
  {| decode a := {| aa_Type := default "" (aa_Type a); aa_LocalhostProfile := aa_LocalhostProfile a |} |}.
Next Obligation. lossless. Qed.
#[export] Program Instance podSecurityContext_lossless : Lossless acPodSecurityContext :=
  {| decode a := {| psc_SELinuxOptions := decode acSELinuxOptions <$> psc_SELinuxOptions a;
       psc_WindowsOptions := decode acWindowsSecurityContextOptions <$> psc_WindowsOptions a;
       psc_RunAsUser := psc_RunAsUser a; psc_RunAsGroup := psc_RunAsGroup a; psc_RunAsNonRoot := psc_RunAsNonRoot a;
       psc_SupplementalGroups := psc_SupplementalGroups a; psc_SupplementalGroupsPolicy := psc_SupplementalGroupsPolicy a;
       psc_FSGroup := psc_FSGroup a;
       psc_Sysctls := (λ s, {| sy_Name := default "" (sy_Name s); sy_Value := default "" (sy_Value s) |}) <$> psc_Sysctls a;
       psc_FSGroupChangePolicy := psc_FSGroupChangePolicy a;
       psc_SeccompProfile := decode acSeccompProfile <$> psc_SeccompProfile a;
       psc_AppArmorProfile := decode acAppArmorProfile <$> psc_AppArmorProfile a;
       psc_SELinuxChangePolicy := psc_SELinuxChangePolicy a |} |}.
Next Obligation. lossless. Qed.
