(* ===== verification/StsBuild.v ===== *)
(** * The data-plane StatefulSet: [internal/controller/sts_build.go]

    [buildValkeySTS] turns a CR and the hash of its rendered configuration into the
    StatefulSet the operator applies: the render-config init container, the valkey container
    with its probes and preStop hook, the optional metrics exporter, their volumes, the data
    claim, and the pod's labels, annotations, security context and placement.  The API
    server checks such an object structurally before it accepts it; those checks are
    [pod_valid], and the Pod Security "restricted" profile is [restricted].

    [Q] is the type of resource quantities and [MustParse] reads one (apimachinery). *)
From S2P Require Import Prelude GoStd GoFmt Status DeriveState PrimaryRollout RoleLabels ApiTypes Defaults ValkeyConf Webhook Reconcile SQRecords PodAC.
Local Open Scope Z_scope.

(** ** Constants *)
Definition ManualRolloutAnnotation : string := "velkir.ioxie.dev/rollout-generation".
Definition ConfigHashAnnotation : string := "velkir.ioxie.dev/config-hash".
Definition componentValkey : string := "valkey".
Definition defaultValkeyPort : Z := 6379.
Definition defaultExporterPort : Z := 9121.
Definition terminationGracePeriodVal : Z := 60.
Definition suffixValkeyConf : string := "-valkey-conf".
Definition suffixInitScripts : string := "-init-scripts".
Definition suffixSentinelBootstrap : string := "-sentinel-bootstrap".
Definition mountConfigTemplate : string := "/config-template".
Definition mountConfig : string := "/config".
Definition mountInitScripts : string := "/init-scripts".
Definition mountSentinelBootstrap : string := "/bootstrap".
Definition renderScriptPath : string := "/init-scripts/render-valkey-conf.sh".
Definition SeccompProfileTypeRuntimeDefault : string := "RuntimeDefault".
Definition FSGroupChangeOnRootMismatch : string := "OnRootMismatch".

(** [mergeMaps]: [overlay] wins.  The keys are sorted only to fix the order of the writes. *)
Definition mergeMaps (base overlay : gmap string string) : gmap string string := overlay ∪ base.

(** ** Pods, as apply configurations *)
Inductive env_source : Type :=
  EnvValue (v : string) | EnvField (path : string) | EnvSecret (name key : string).
Record EnvVar := { ev_Name : string; ev_Source : env_source }.
Record VolumeMount := { vm_Name : string; vm_MountPath : string; vm_ReadOnly : bool }.
Inductive volume_source : Type := FromConfigMap (name : string) (mode : Z) (optional : bool) | EmptyDir.
Record Volume := { vol_Name : string; vol_Source : volume_source }.
Record ContainerPort := { cp_Name : string; cp_Port : Z }.
Record SecurityContext := {
  sec_AllowPrivilegeEscalation : option bool;
  sec_RunAsNonRoot : option bool;
  sec_Drop : list string;
  sec_Seccomp : option (SeccompProfile option);
  sec_ReadOnlyRootFilesystem : option bool }.

Section build.
Context {Q : Type} (MustParse : string → Q).

(** A nil request or limit map differs from an empty one. *)
Record Resources (F : Type → Type) := {
  res_Requests : option (gmap string Q); res_Limits : option (gmap string Q); res_Claims : list (ResourceClaim F) }.
#[local] Arguments res_Requests {F}.
#[local] Arguments res_Limits {F}.
#[local] Arguments res_Claims {F}.

Record Container := {
  ct_Name : string;
  ct_Image : string;
  ct_Command : list string;
  ct_Args : list string;
  ct_Ports : list ContainerPort;
  ct_Env : list EnvVar;
  ct_Mounts : list VolumeMount;
  ct_Resources : Resources option;
  ct_Security : SecurityContext;
  ct_Liveness : option (Probe option);
  ct_Readiness : option (Probe option);
  ct_PreStop : option (list string) }.

Record PodSpec := {
  ps_ServiceAccountName : string;
  ps_AutomountServiceAccountToken : bool;
  ps_TerminationGracePeriodSeconds : Z;
  ps_SecurityContext : PodSecurityContext option;
  ps_InitContainers : list Container;
  ps_Containers : list Container;
  ps_Volumes : list Volume;
  ps_ReadinessGates : list string;
  ps_Affinity : option (Affinity option);
  ps_Tolerations : list (Toleration option);
  ps_NodeSelector : gmap string string;
  ps_TopologySpreadConstraints : list (TopologySpreadConstraint option);
  ps_PriorityClassName : option string;
  ps_DNSConfig : option (PodDNSConfig option) }.
Record PodTemplate := { pt_Labels : gmap string string; pt_Annotations : gmap string string; pt_Spec : PodSpec }.

Record DataClaim := {
  dc_Name : string; dc_Labels : gmap string string; dc_Size : Q; dc_AccessModes : list string;
  dc_StorageClass : option string }.
Inductive update_strategy : Type := OnDelete | RollingUpdate (partition : Z).
Record StatefulSet := {
  ss_Name : string;
  ss_Namespace : string;
  ss_Labels : gmap string string;
  ss_Owner : OwnerReference;
  ss_ServiceName : string;
  ss_Replicas : Z;
  ss_Parallel : bool;
  ss_Strategy : update_strategy;
  ss_Selector : gmap string string;
  ss_Template : PodTemplate;
  ss_Claims : list DataClaim }.

(** ** The CR *)
(** The settings [ValkeyPodSpec] and [SentinelPodSpec] share. *)
Record PodSettings := {
  p_Resources : Resources plain;
  p_LivenessProbe : option (Probe plain);
  p_ReadinessProbe : option (Probe plain);
  p_Affinity : option (Affinity plain);
  p_Tolerations : list (Toleration plain);
  p_NodeSelector : gmap string string;
  p_TopologySpreadConstraints : list (TopologySpreadConstraint plain);
  p_PriorityClassName : string;
  p_DNSConfig : option (PodDNSConfig plain);
  p_PodAnnotations : gmap string string;
  p_PodLabels : gmap string string;
  p_SecurityContext : option (PodSecurityContext plain) }.
Record PersistenceSpec := { pe_StorageClass : option string; pe_Size : Q; pe_AccessModes : list string }.
Record SentinelPod := { sp_MasterName : string; sp_Replicas : Z; sp_Pod : PodSettings }.
Record Metrics := { me_Enabled : option bool; me_Resources : Resources plain }.
Record Valkey := {
  v_Name : string;
  v_Namespace : string;
  v_UID : string;
  v_Annotations : gmap string string;
  v_Mode : Mode;
  v_Image : ImageSpec;
  v_Replicas : Z;
  v_Persistence : option PersistenceSpec;
  v_GateEnabled : option bool;
  v_Pod : PodSettings;
  v_Sentinel : option SentinelPod;
  v_Auth : option AuthSpec;
  v_Metrics : Metrics }.

(** ** Security contexts *)
Definition psc_empty : PodSecurityContext plain :=
  {| psc_SELinuxOptions := None; psc_WindowsOptions := None; psc_RunAsUser := None; psc_RunAsGroup := None;
     psc_RunAsNonRoot := None; psc_SupplementalGroups := []; psc_SupplementalGroupsPolicy := None; psc_FSGroup := None;
     psc_Sysctls := []; psc_FSGroupChangePolicy := None; psc_SeccompProfile := None; psc_AppArmorProfile := None;
     psc_SELinuxChangePolicy := None |}.

Definition restrictedPodSecurityContext (user : option (PodSecurityContext plain)) : PodSecurityContext option :=
  let merged := default psc_empty user in
  acPodSecurityContext
    {| psc_SELinuxOptions := psc_SELinuxOptions merged; psc_WindowsOptions := psc_WindowsOptions merged;
       psc_RunAsUser := or_nil 1000 (psc_RunAsUser merged);
       psc_RunAsGroup := or_nil 1000 (psc_RunAsGroup merged);
       psc_RunAsNonRoot := or_nil true (psc_RunAsNonRoot merged);
       psc_SupplementalGroups := psc_SupplementalGroups merged;
       psc_SupplementalGroupsPolicy := psc_SupplementalGroupsPolicy merged;
       psc_FSGroup := or_nil 1000 (psc_FSGroup merged);
       psc_Sysctls := psc_Sysctls merged;
       psc_FSGroupChangePolicy := or_nil FSGroupChangeOnRootMismatch (psc_FSGroupChangePolicy merged);
       psc_SeccompProfile := or_nil {| sc_Type := SeccompProfileTypeRuntimeDefault; sc_LocalhostProfile := None |}
                               (psc_SeccompProfile merged);
       psc_AppArmorProfile := psc_AppArmorProfile merged;
       psc_SELinuxChangePolicy := psc_SELinuxChangePolicy merged |}.

Definition restrictedContainerSecurityContext : SecurityContext :=
  {| sec_AllowPrivilegeEscalation := Some false; sec_RunAsNonRoot := Some true; sec_Drop := ["ALL"];
     sec_Seccomp := Some {| sc_Type := Some SeccompProfileTypeRuntimeDefault; sc_LocalhostProfile := None |};
     sec_ReadOnlyRootFilesystem := None |}.
Definition restrictedContainerSecurityContextReadOnly : SecurityContext :=
  let c := restrictedContainerSecurityContext in
  {| sec_AllowPrivilegeEscalation := sec_AllowPrivilegeEscalation c; sec_RunAsNonRoot := sec_RunAsNonRoot c;
     sec_Drop := sec_Drop c; sec_Seccomp := sec_Seccomp c; sec_ReadOnlyRootFilesystem := Some true |}.

(** ** Resources *)
Definition ResourceCPU : string := "cpu".
Definition ResourceMemory : string := "memory".
Definition resources (requests limits : option (gmap string Q)) : Resources option :=
  {| res_Requests := requests; res_Limits := limits; res_Claims := [] |}.
Definition quantities (l : list (string * string)) : gmap string Q := MustParse <$> list_to_map l.

Definition non_empty (m : gmap string Q) : option (gmap string Q) := if bool_decide (dom m = ∅) then None else Some m.
Definition valkeyContainerResources (user : Resources plain) : Resources option :=
  let requests := default (quantities [(ResourceCPU, "100m"); (ResourceMemory, "256Mi")]) (res_Requests user) in
  {| res_Requests := non_empty requests; res_Limits := res_Limits user ≫= non_empty;
     res_Claims := acResourceClaims (res_Claims user) |}.
Definition exporterResources (v : Valkey) : Resources option :=
  let user := me_Resources (v_Metrics v) in
  match res_Requests user, res_Limits user with
  | None, None => resources (Some (quantities [(ResourceCPU, "10m"); (ResourceMemory, "32Mi")]))
                            (Some (quantities [(ResourceMemory, "64Mi")]))
  | requests, limits => resources requests limits
  end.
Definition initResources : Resources option :=
  resources (Some (quantities [(ResourceCPU, "10m"); (ResourceMemory, "16Mi")]))
            (Some (quantities [(ResourceCPU, "100m"); (ResourceMemory, "64Mi")])).

(** ** Environment, volumes and the data claim *)
Definition downwardEnvVar (name fieldPath : string) : EnvVar := {| ev_Name := name; ev_Source := EnvField fieldPath |}.
Definition env (name value : string) : EnvVar := {| ev_Name := name; ev_Source := EnvValue value |}.
Definition authEnabled (v : Valkey) : bool :=
  match v_Auth v with Some a => negb (bool_decide (a_SecretName a = "")) | None => false end.
Definition or_default_key (key : string) : string := if bool_decide (key = "") then defaultAuthSecretKey else key.
(** The password of [spec.auth], as the variable [name]: the block each builder repeats. *)
Definition auth_env (v : Valkey) (name : string) : list EnvVar :=
  match v_Auth v with
  | Some a =>
      if bool_decide (a_SecretName a = "") then []
      else [{| ev_Name := name; ev_Source := EnvSecret (a_SecretName a) (or_default_key (a_SecretKey a)) |}]
  | None => []
  end.

Definition mount (name path : string) : VolumeMount := {| vm_Name := name; vm_MountPath := path; vm_ReadOnly := false |}.
Definition mountRO (name path : string) : VolumeMount := {| vm_Name := name; vm_MountPath := path; vm_ReadOnly := true |}.
Definition volume (name : string) (s : volume_source) : Volume := {| vol_Name := name; vol_Source := s |}.

Definition buildValkeyVolumes (v : Valkey) : list Volume :=
  let base :=
    [volume "config-template" (FromConfigMap (v_Name v +:+ suffixValkeyConf) 292 false);    (* 0o444 *)
     volume "init-scripts" (FromConfigMap (v_Name v +:+ suffixInitScripts) 365 false);      (* 0o555 *)
     volume "config" EmptyDir;
     volume "tmp" EmptyDir;
     volume "bootstrap" (FromConfigMap (v_Name v +:+ suffixSentinelBootstrap) 292 true)] in
  match v_Persistence v with
  | Some _ => base
  | None => base ++ [volume "data" EmptyDir]
  end.

Definition buildValkeyDataPVC (v : Valkey) (p : PersistenceSpec) : DataClaim :=
  {| dc_Name := "data"; dc_Labels := ownedLabels (v_Name v) componentValkey; dc_Size := pe_Size p;
     dc_AccessModes := pe_AccessModes p; dc_StorageClass := pe_StorageClass p ≫= stamp |}.

(** ** Containers *)
Definition image (i : ContainerImage) : string := Repository i +:+ ":" +:+ Tag i.

Definition buildRenderConfigInitContainer (v : Valkey) : Container :=
  {| ct_Name := "render-config";
     ct_Image := image (im_Valkey (v_Image v));
     ct_Command := ["/bin/sh"; renderScriptPath];
     ct_Args := [];
     ct_Ports := [];
     ct_Env := [downwardEnvVar "POD_IP" "status.podIP"; downwardEnvVar "POD_NAME" "metadata.name";
                downwardEnvVar "POD_NAMESPACE" "metadata.namespace"; env "APP_NAME" (v_Name v);
                env "MASTER_SERVICE" (v_Name v +:+ "." +:+ v_Namespace v +:+ ".svc.cluster.local")];
     ct_Mounts := [mountRO "config-template" mountConfigTemplate; mountRO "init-scripts" mountInitScripts;
                   mount "config" mountConfig; mountRO "bootstrap" mountSentinelBootstrap];
     ct_Resources := initResources;
     ct_Security := restrictedContainerSecurityContext;
     ct_Liveness := None; ct_Readiness := None; ct_PreStop := None |}.

(** The loop that looks for [-a] starts at the second word. *)
Definition injectAuthIntoValkeyCLIProbe (p : Probe plain) (authEnabled : bool) : Probe plain :=
  match pr_Exec p with
  | Some {| ex_Command := cmd :: rest |} =>
      if authEnabled && (bool_decide (cmd = "valkey-cli") || bool_decide (cmd = "redis-cli")) &&
         negb (bool_decide ("-a" ∈ rest)) then
        {| pr_Exec := Some {| ex_Command := [cmd; "-a"; "$(VALKEY_PASSWORD)"] ++ rest |};
           pr_HTTPGet := pr_HTTPGet p; pr_TCPSocket := pr_TCPSocket p; pr_GRPC := pr_GRPC p;
           pr_InitialDelaySeconds := pr_InitialDelaySeconds p; pr_TimeoutSeconds := pr_TimeoutSeconds p;
           pr_PeriodSeconds := pr_PeriodSeconds p; pr_SuccessThreshold := pr_SuccessThreshold p;
           pr_FailureThreshold := pr_FailureThreshold p;
           pr_TerminationGracePeriodSeconds := pr_TerminationGracePeriodSeconds p |}
      else p
  | _ => p
  end.

Definition dq : string := String dquote "".
Definition preStop_lines : list string :=
  ["set -u";
   "ROLE=$(valkey-cli -p 6379 INFO replication 2>/dev/null | awk -F: '$1==" +:+ dq +:+ "role" +:+ dq +:+
     "{print $2}' | tr -d '\r')";
   "case " +:+ dq +:+ "$ROLE" +:+ dq +:+ " in";
   "  slave)"; "    exit 0"; "    ;;";
   "  master)";
   "    valkey-cli -h " +:+ dq +:+ "$SENTINEL_HOST" +:+ dq +:+ " -p 26379 SENTINEL FAILOVER " +:+ dq +:+
     "$MASTER_NAME" +:+ dq +:+ " >/dev/null 2>&1 || true";
   "    exit 0"; "    ;;";
   "  *)"; "    exit 0"; "    ;;";
   "esac"].
Definition valkeyPreStopScript : string := unlines preStop_lines.

(** Dereferences [spec.sentinel], which the CR schema requires in sentinel mode: [None] is
    the panic. *)
Definition addPreStopHookIfSentinelMode (c : Container) (v : Valkey) : option Container :=
  if negb (bool_decide (v_Mode v = ModeSentinel)) then Some c
  else s ← v_Sentinel v;
  Some {| ct_Name := ct_Name c; ct_Image := ct_Image c; ct_Command := ct_Command c; ct_Args := ct_Args c;
          ct_Ports := ct_Ports c;
          ct_Env := ct_Env c ++
            [env "MASTER_NAME" (sp_MasterName s);
             env "SENTINEL_HOST" (v_Name v +:+ "-sentinel-headless." +:+ v_Namespace v +:+ ".svc.cluster.local")] ++
            auth_env v "REDISCLI_AUTH";
          ct_Mounts := ct_Mounts c; ct_Resources := ct_Resources c; ct_Security := ct_Security c;
          ct_Liveness := ct_Liveness c; ct_Readiness := ct_Readiness c;
          ct_PreStop := Some ["/bin/sh"; "-c"; valkeyPreStopScript] |}.

Definition buildValkeyContainer (v : Valkey) : option Container :=
  let probe p := acProbe (injectAuthIntoValkeyCLIProbe p (authEnabled v)) in
  addPreStopHookIfSentinelMode
    {| ct_Name := "valkey";
       ct_Image := image (im_Valkey (v_Image v));
       ct_Command := ["valkey-server"; mountConfig +:+ "/valkey.conf"];
       ct_Args := ["--replica-announce-ip"; "$(POD_IP)"] ++
         (if authEnabled v then ["--requirepass"; "$(VALKEY_PASSWORD)"; "--masterauth"; "$(VALKEY_PASSWORD)"] else []);
       ct_Ports := [{| cp_Name := "valkey"; cp_Port := defaultValkeyPort |}];
       ct_Env := downwardEnvVar "POD_IP" "status.podIP" :: auth_env v "VALKEY_PASSWORD";
       ct_Mounts := [mountRO "config" mountConfig; mount "data" "/data"; mount "tmp" "/tmp"];
       ct_Resources := valkeyContainerResources (p_Resources (v_Pod v));
       ct_Security := restrictedContainerSecurityContextReadOnly;
       ct_Liveness := probe <$> p_LivenessProbe (v_Pod v);
       ct_Readiness := probe <$> p_ReadinessProbe (v_Pod v);
       ct_PreStop := None |} v.

Definition buildExporterContainerForPort (v : Valkey) (redisPort : Z) : Container :=
  {| ct_Name := "exporter";
     ct_Image := image (im_Exporter (v_Image v));
     ct_Command := []; ct_Args := [];
     ct_Ports := [{| cp_Name := "metrics"; cp_Port := defaultExporterPort |}];
     ct_Env := env "REDIS_ADDR" ("redis://localhost:" +:+ Itoa redisPort) :: auth_env v "REDIS_PASSWORD";
     ct_Mounts := [mount "tmp" "/tmp"];
     ct_Resources := exporterResources v;
     ct_Security := restrictedContainerSecurityContextReadOnly;
     ct_Liveness := None; ct_Readiness := None; ct_PreStop := None |}.
Definition buildExporterContainer (v : Valkey) : Container := buildExporterContainerForPort v defaultValkeyPort.
Definition metricsOn (v : Valkey) : bool := default false (me_Enabled (v_Metrics v)).

(** ** The StatefulSet *)
Definition buildReadinessGates (v : Valkey) : list string :=
  if negb (replicationGateEnabled {| spec_Mode := v_Mode v; spec_Replicas := v_Replicas v; spec_MaxLagBytes := 0 |}
             (v_GateEnabled v)) then []
  else [ReplicationReadyGate].

Definition valkeyServiceAccountName (v : Valkey) : string := v_Name v +:+ "-valkey".

(** The annotations of a pod template: the configuration's hash, the manual roll-out
    generation of the CR when it has one, and the user's. *)
Definition templateAnnotations (v : Valkey) (cmHash : string) (user : gmap string string) : gmap string string :=
  let base := {[ConfigHashAnnotation := cmHash]} in
  let gen := default "" (v_Annotations v !! ManualRolloutAnnotation) in
  mergeMaps (if bool_decide (gen = "") then base else <[ManualRolloutAnnotation := gen]> base) user.

Definition buildValkeySTS (v : Valkey) (cmHash : string) : option StatefulSet :=
  let labels := ownedLabels (v_Name v) componentValkey in
  let p := v_Pod v in
  c ← buildValkeyContainer v;
  let podSpec :=
    {| ps_ServiceAccountName := valkeyServiceAccountName v;
       ps_AutomountServiceAccountToken := false;
       ps_TerminationGracePeriodSeconds := terminationGracePeriodVal;
       ps_SecurityContext := restrictedPodSecurityContext (p_SecurityContext p);
       ps_InitContainers := [buildRenderConfigInitContainer v];
       ps_Containers := c :: (if metricsOn v then [buildExporterContainer v] else []);
       ps_Volumes := buildValkeyVolumes v;
       ps_ReadinessGates := buildReadinessGates v;
       ps_Affinity := acAffinity <$> p_Affinity p;
       ps_Tolerations := acTolerations (p_Tolerations p);
       ps_NodeSelector := p_NodeSelector p;
       ps_TopologySpreadConstraints := acTopologySpreadConstraints (p_TopologySpreadConstraints p);
       ps_PriorityClassName := stamp (p_PriorityClassName p);
       ps_DNSConfig := acDNSConfig <$> p_DNSConfig p |} in
  Some {| ss_Name := v_Name v;
          ss_Namespace := v_Namespace v;
          ss_Labels := labels;
          ss_Owner := crOwnerRef (v_Name v) (v_UID v);
          ss_ServiceName := v_Name v +:+ "-headless";
          ss_Replicas := v_Replicas v;
          ss_Parallel := false;
          ss_Strategy := OnDelete;
          ss_Selector := labels;
          ss_Template := {| pt_Labels := mergeMaps labels (p_PodLabels p);
                            pt_Annotations := templateAnnotations v cmHash (p_PodAnnotations p);
                            pt_Spec := podSpec |};
          ss_Claims := match v_Persistence v with Some pe => [buildValkeyDataPVC v pe] | None => [] end |}.
End build.

Arguments Resources : clear implicits.
Arguments Container : clear implicits.
Arguments PodSpec : clear implicits.
Arguments PodTemplate : clear implicits.
Arguments StatefulSet : clear implicits.
Arguments PodSettings : clear implicits.
Arguments PersistenceSpec : clear implicits.
Arguments SentinelPod : clear implicits.
Arguments Metrics : clear implicits.
Arguments Valkey : clear implicits.
Arguments DataClaim : clear implicits.

(** ** What the API server and the kubelet require of a pod

    [$(NAME)] in an argument is replaced by the variable [NAME] of the container. *)
Definition var_of (arg : string) : option string :=
  if HasPrefix arg "$(" then Some (String.substring 2 (String.length arg - 3) arg) else None.
Definition env_names {Q} (c : Container Q) : list string := ev_Name <$> ct_Env c.
Definition container_valid {Q} (volumes : list string) (c : Container Q) : bool :=
  forallb (λ m, bool_decide (vm_Name m ∈ volumes)) (ct_Mounts c) &&
  bool_decide (NoDup (vm_MountPath <$> ct_Mounts c)) &&
  bool_decide (NoDup (env_names c)) &&
  forallb (λ a, match var_of a with Some x => bool_decide (x ∈ env_names c) | None => true end) (ct_Args c).
Definition pod_valid {Q} (claims : list string) (p : PodSpec Q) : bool :=
  let volumes := claims ++ (vol_Name <$> ps_Volumes p) in
  let all := ps_InitContainers p ++ ps_Containers p in
  bool_decide (NoDup volumes) && bool_decide (NoDup (ct_Name <$> all)) && forallb (container_valid volumes) all &&
  bool_decide (NoDup (cp_Name <$> (all ≫= ct_Ports))) && bool_decide (NoDup (cp_Port <$> (all ≫= ct_Ports))).

(** The Pod Security Standards' "restricted" profile, for the fields these pods have: its
    volume types are allowed, and they share no host namespace, path or port. *)
Definition seLinuxTypes : list string :=
  [""; "container_t"; "container_init_t"; "container_kvm_t"; "container_engine_t"].
Definition safeSysctls : list string :=
  ["kernel.shm_rmid_forced"; "net.ipv4.ip_local_port_range"; "net.ipv4.ip_unprivileged_port_start";
   "net.ipv4.tcp_syncookies"; "net.ipv4.ping_group_range"; "net.ipv4.ip_local_reserved_ports";
   "net.ipv4.tcp_keepalive_time"; "net.ipv4.tcp_fin_timeout"; "net.ipv4.tcp_keepalive_intvl";
   "net.ipv4.tcp_keepalive_probes"].
Definition seccomp_ok (t : option string) : bool := bool_decide (t ∈ [Some "RuntimeDefault"; Some "Localhost"]).
Definition seLinux_ok (o : SELinuxOptions option) : bool :=
  bool_decide (default "" (se_Type o) ∈ seLinuxTypes) && bool_decide (se_User o = None) && bool_decide (se_Role o = None).
Definition baseline_ok (c : PodSecurityContext option) : bool :=
  default true (seLinux_ok <$> psc_SELinuxOptions c) &&
  negb (bool_decide ((psc_WindowsOptions c ≫= wi_HostProcess) = Some true)) &&
  forallb (λ s, bool_decide (default "" (sy_Name s) ∈ safeSysctls)) (psc_Sysctls c) &&
  default true (seccomp_ok ∘ aa_Type <$> psc_AppArmorProfile c).
Definition container_restricted {Q} (c : Container Q) : bool :=
  let s := ct_Security c in
  bool_decide (sec_AllowPrivilegeEscalation s = Some false) && bool_decide ("ALL" ∈ sec_Drop s) &&
  bool_decide (sec_RunAsNonRoot s = Some true) && default false (seccomp_ok ∘ sc_Type <$> sec_Seccomp s).
Definition restricted {Q} (p : PodSpec Q) : bool :=
  let c := ps_SecurityContext p in
  forallb container_restricted (ps_InitContainers p ++ ps_Containers p) && baseline_ok c &&
  bool_decide (psc_RunAsNonRoot c = Some true) && negb (bool_decide (psc_RunAsUser c = Some 0)) &&
  default false (seccomp_ok ∘ sc_Type <$> psc_SeccompProfile c).
(** What of a security context the user writes is up to them. *)
Definition user_restricted (u : PodSecurityContext plain) : bool :=
  baseline_ok (acPodSecurityContext u) &&
  negb (bool_decide (psc_RunAsNonRoot u = Some false)) && negb (bool_decide (psc_RunAsUser u = Some 0)) &&
  default true (seccomp_ok ∘ Some ∘ sc_Type <$> psc_SeccompProfile u).

(** ** Lemmas *)
Lemma mergeMaps_lookup base overlay k :
  mergeMaps base overlay !! k = match overlay !! k with Some v => Some v | None => base !! k end.
Proof. unfold mergeMaps. rewrite lookup_union. by destruct (overlay !! k), (base !! k). Qed.
Lemma mergeMaps_extends base overlay : (∀ k, k ∈ dom base → overlay !! k = None) → base ⊆ mergeMaps base overlay.
Proof.
  intros H. apply map_subseteq_spec. intros k x Hk. rewrite mergeMaps_lookup, H; [done|]. by apply elem_of_dom_2 in Hk.
Qed.

Section admitted.
Context {R : MapRange}.

(** What admission guarantees of the labels and annotations a user puts on the pods. *)
Lemma admitted_labels parent labels :
  validateReservedLabels parent labels = [] → ∀ k, k ∈ reservedLabels → labels !! k = None.
Proof.
  intros H k Hk. destruct (labels !! k) as [x|] eqn:E; [|done]. exfalso.
  apply elem_of_range_of in E. unfold validateReservedLabels in H.
  eapply (not_elem_of_nil (_ : field_error)). erewrite <- H. apply list_elem_of_omap.
  exists (k, x). split; [done|]. cbn. by rewrite bool_decide_eq_true_2 by done.
Qed.
Lemma admitted_annotations parent ann :
  validateReservedAnnotations parent ann = [] → ∀ k, HasPrefix k "velkir.ioxie.dev/" = true → ann !! k = None.
Proof.
  intros H k Hk. destruct (ann !! k) as [x|] eqn:E; [|done]. exfalso.
  apply elem_of_range_of in E. unfold validateReservedAnnotations in H.
  destruct (bool_decide (k ∈ reservedAnnotationKeys)) eqn:Ek;
    (eapply (not_elem_of_nil (_ : field_error)); erewrite <- H; apply list_elem_of_omap;
     exists (k, x); split; [done|]; cbn; rewrite Ek; cbn; by rewrite ?Hk).
Qed.
End admitted.

Lemma owned_reserved name component k : k ∈ dom (ownedLabels name component) → k ∈ reservedLabels.
Proof.
  unfold ownedLabels. rewrite dom_list_to_map_L. cbn. rewrite !elem_of_union, !elem_of_singleton.
  intros Hk. apply (bool_decide_unpack _). destruct_or! Hk; subst; try done; vm_compute; done.
Qed.

Section facts.
Context {Q : Type} (MustParse : string → Q).

(** The builder returns, except where it would dereference a missing [spec.sentinel]. *)
Lemma buildValkeySTS_total (v : Valkey Q) h :
  is_Some (buildValkeySTS MustParse v h) ↔ (v_Mode v = ModeSentinel → is_Some (v_Sentinel v)).
Proof.
  unfold buildValkeySTS, buildValkeyContainer, addPreStopHookIfSentinelMode.
  case_bool_decide as Hm; cbn [negb].
  - destruct (v_Sentinel v); cbn; split; eauto; intros H; [by destruct H|]. by destruct (H Hm).
  - cbn. split; [done|eauto].
Qed.

Lemma built_container (v : Valkey Q) c :
  buildValkeyContainer MustParse v = Some c →
  ct_Name c = "valkey" ∧ ct_Ports c = [{| cp_Name := "valkey"; cp_Port := defaultValkeyPort |}] ∧
  ct_Mounts c = [mountRO "config" mountConfig; mount "data" "/data"; mount "tmp" "/tmp"] ∧
  ct_Security c = restrictedContainerSecurityContextReadOnly ∧
  ct_Args c = ["--replica-announce-ip"; "$(POD_IP)"] ++
    (if authEnabled v then ["--requirepass"; "$(VALKEY_PASSWORD)"; "--masterauth"; "$(VALKEY_PASSWORD)"] else []) ∧
  env_names c = "POD_IP" :: (if authEnabled v then ["VALKEY_PASSWORD"] else []) ++
    (if bool_decide (v_Mode v = ModeSentinel) then
       ["MASTER_NAME"; "SENTINEL_HOST"] ++ (if authEnabled v then ["REDISCLI_AUTH"] else []) else []).
Proof.
  unfold buildValkeyContainer, addPreStopHookIfSentinelMode, env_names, auth_env, authEnabled.
  intros H. destruct (bool_decide (v_Mode v = ModeSentinel)); cbn [negb] in H.
  - destruct (v_Sentinel v) as [s|]; [|done]. cbn in H. injection H as <-. cbn.
    destruct (v_Auth v) as [a|]; [|done]. by case_bool_decide.
  - injection H as <-. cbn. destruct (v_Auth v) as [a|]; [|done]. by case_bool_decide.
Qed.

Lemma auth_env_names (v : Valkey Q) x : ev_Name <$> auth_env v x = if authEnabled v then [x] else [].
Proof. unfold auth_env, authEnabled. destruct (v_Auth v) as [a|]; [|done]. by case_bool_decide. Qed.

(** Validity of the valkey pod depends on four switches only. *)
Lemma valkey_pod_valid (v : Valkey Q) h sts :
  buildValkeySTS MustParse v h = Some sts → pod_valid (dc_Name <$> ss_Claims sts) (pt_Spec (ss_Template sts)) = true.
Proof.
  unfold buildValkeySTS. destruct (buildValkeyContainer MustParse v) as [c|] eqn:Ec; [|done]. cbn. intros [= <-].
  destruct (built_container v c Ec) as (Hn & Hp & Hm & _ & Ha & He).
  unfold pod_valid, container_valid. cbn. rewrite Hn, Hp, Hm, Ha, He.
  assert (Hx : env_names (buildExporterContainer MustParse v) = "REDIS_ADDR" :: if authEnabled v then ["REDIS_PASSWORD"] else []).
  { unfold env_names. cbn. by rewrite auth_env_names. }
  destruct (metricsOn v); cbn [fmap list_fmap app forallb mbind list_bind]; rewrite ?Hx;
    unfold buildValkeyVolumes; destruct (v_Persistence v), (authEnabled v), (bool_decide (v_Mode v = ModeSentinel));
    vm_compute; reflexivity.
Qed.

(** ** Labels, annotations and what rolls the pods *)
Lemma template_labels (R : MapRange) parent name component user :
  validateReservedLabels parent user = [] →
  ownedLabels name component ⊆ mergeMaps (ownedLabels name component) user ∧
  mergeMaps (ownedLabels name component) user !! RoleLabel = None.
Proof.
  intros H. pose proof (admitted_labels parent user H) as Hu. split.
  - apply mergeMaps_extends. intros k Hk. by apply Hu, (owned_reserved name component).
  - rewrite mergeMaps_lookup, Hu by (apply (bool_decide_unpack _); vm_compute; done). done.
Qed.

Lemma template_annotations (R : MapRange) parent (v : Valkey Q) h user :
  validateReservedAnnotations parent user = [] →
  templateAnnotations v h user !! ConfigHashAnnotation = Some h ∧
  templateAnnotations v h user !! ManualRolloutAnnotation =
    stamp (default "" (v_Annotations v !! ManualRolloutAnnotation)).
Proof.
  intros H. pose proof (admitted_annotations parent user H) as Hu. unfold templateAnnotations, stamp.
  split; rewrite mergeMaps_lookup, Hu by done; by case_bool_decide.
Qed.

(** The security context of the pod is restricted exactly when what the user wrote is. *)
Lemma restricted_pod_context (u : option (PodSecurityContext plain)) :
  let c := restrictedPodSecurityContext u in
  baseline_ok c && bool_decide (psc_RunAsNonRoot c = Some true) && negb (bool_decide (psc_RunAsUser c = Some 0)) &&
  default false (seccomp_ok ∘ sc_Type <$> psc_SeccompProfile c) = user_restricted (default psc_empty u).
Proof.
  cbv zeta. unfold restrictedPodSecurityContext, user_restricted.
  generalize (default psc_empty u) as w. intros w.
  f_equal; [f_equal; [f_equal|]|].
  - destruct (psc_RunAsNonRoot w) as [[]|]; done.
  - destruct (psc_RunAsUser w) as [x|]; done.
  - destruct (psc_SeccompProfile w) as [x|]; done.
Qed.

Lemma restricted_iff (p : PodSpec Q) u :
  ps_SecurityContext p = restrictedPodSecurityContext u →
  (∀ c, c ∈ ps_InitContainers p ++ ps_Containers p →
        ct_Security c = restrictedContainerSecurityContext ∨ ct_Security c = restrictedContainerSecurityContextReadOnly) →
  restricted p = user_restricted (default psc_empty u).
Proof.
  intros Hp Hc. unfold restricted. rewrite Hp.
  assert (forallb container_restricted (ps_InitContainers p ++ ps_Containers p) = true) as ->.
  { apply forallb_forall. intros c Hin. apply list_elem_of_In in Hin. unfold container_restricted.
    destruct (Hc c Hin) as [-> | ->]; vm_compute; reflexivity. }
  by rewrite <- restricted_pod_context.
Qed.

(** ** Authentication in probes *)
Lemma inject_idempotent (p : Probe plain) b :
  injectAuthIntoValkeyCLIProbe (injectAuthIntoValkeyCLIProbe p b) b = injectAuthIntoValkeyCLIProbe p b.
Proof.
  unfold injectAuthIntoValkeyCLIProbe at 2 3. destruct (pr_Exec p) as [[[|cmd rest]]|] eqn:E.
  1, 3: unfold injectAuthIntoValkeyCLIProbe; by rewrite E.
  destruct (_ && _) eqn:Eb; unfold injectAuthIntoValkeyCLIProbe; [|by rewrite E, Eb].
  cbn [pr_Exec app]. rewrite (bool_decide_eq_true_2 ("-a" ∈ _)) by (repeat constructor). cbn [negb].
  by rewrite andb_false_r.
Qed.
End facts.
