(* ===== verification/SentinelBuild.v ===== *)
(** * The sentinel StatefulSet and the boot of a pod:
    [internal/controller/sentinel_sts.go] (builders), the two init scripts

    [buildSentinelSTS] is the sentinel side of [StsBuild]; the properties of both StatefulSets
    are stated here.  The operator also ships the shell scripts that the init containers run:
    [render_sentinel_conf] and [render_valkey_conf] are what they do, as functions of what the
    container sees (its variables, the mounted template and seed, the answer of a probe). *)
From S2P Require Import Prelude GoStd GoFmt Redaction Status DeriveState PrimaryRollout RoleLabels ApiTypes Defaults ValkeyConf Webhook ReadinessGate SentinelInfra Reconcile SQRecords PodAC StsBuild.
Local Open Scope Z_scope.

Definition suffixSentinelConf : string := "-sentinel-conf".
Definition suffixSentinelInitScripts : string := "-sentinel-init-scripts".
Definition suffixSentinelHeadless : string := "-sentinel-headless".
Definition mountSentinelTemplate : string := "/sentinel-template".
Definition mountSentinelConf : string := "/sentinel".
Definition mountSentinelInitScripts : string := "/sentinel-init-scripts".
Definition sentinelRenderScriptPath : string := "/sentinel-init-scripts/render-sentinel-conf.sh".
Definition sentinelTerminationGracePeriodVal : Z := 30.

Section build.
Context {Q : Type} (MustParse : string → Q).

Definition sentinelServiceAccountName (v : Valkey Q) : string := v_Name v +:+ "-sentinel".

Definition sentinel_auth_env (v : Valkey Q) : list EnvVar :=
  match v_Auth v with
  | Some a =>
      if bool_decide (a_SecretName a = "") || bool_decide (a_SentinelSecretName a = "") then []
      else [{| ev_Name := "SENTINEL_AUTH_PASS";
               ev_Source := EnvSecret (a_SentinelSecretName a) (or_default_key (a_SentinelSecretKey a)) |}]
  | None => []
  end.

Definition buildSentinelInitContainer (v : Valkey Q) (s : SentinelPod Q) : Container Q :=
  {| ct_Name := "render-sentinel-config";
     ct_Image := image (im_Sentinel (v_Image v));
     ct_Command := ["/bin/sh"; sentinelRenderScriptPath];
     ct_Args := [];
     ct_Ports := [];
     ct_Env := [downwardEnvVar "POD_IP" "status.podIP"; downwardEnvVar "POD_NAME" "metadata.name";
                env "MASTER_NAME" (sp_MasterName s)] ++ auth_env v "VALKEY_AUTH_PASS" ++ sentinel_auth_env v;
     ct_Mounts := [mountRO "sentinel-template" mountSentinelTemplate; mountRO "sentinel-init-scripts" mountSentinelInitScripts;
                   mount "sentinel-conf" mountSentinelConf; mountRO "bootstrap" mountSentinelBootstrap];
     ct_Resources := initResources MustParse;
     ct_Security := restrictedContainerSecurityContext;
     ct_Liveness := None; ct_Readiness := None; ct_PreStop := None |}.

Definition sentinelContainerResources (user : Resources Q plain) : Resources Q option :=
  let requests := default (quantities MustParse [(ResourceCPU, "50m"); (ResourceMemory, "64Mi")]) (res_Requests _ user) in
  {| res_Requests := non_empty requests; res_Limits := res_Limits _ user ≫= non_empty; res_Claims := [] |}.

Definition buildSentinelContainer (v : Valkey Q) (s : SentinelPod Q) : Container Q :=
  {| ct_Name := "sentinel";
     ct_Image := image (im_Sentinel (v_Image v));
     ct_Command := ["valkey-sentinel"; mountSentinelConf +:+ "/sentinel.conf"];
     ct_Args := [];
     ct_Ports := [{| cp_Name := "sentinel"; cp_Port := SentinelPort |}];
     ct_Env := [downwardEnvVar "POD_IP" "status.podIP"];
     ct_Mounts := [mount "sentinel-conf" mountSentinelConf; mount "tmp" "/tmp"];
     ct_Resources := sentinelContainerResources (p_Resources (sp_Pod s));
     ct_Security := restrictedContainerSecurityContextReadOnly;
     ct_Liveness := acProbe <$> p_LivenessProbe (sp_Pod s);
     ct_Readiness := acProbe <$> p_ReadinessProbe (sp_Pod s);
     ct_PreStop := None |}.

Definition buildSentinelExporterContainer (v : Valkey Q) : Container Q :=
  buildExporterContainerForPort MustParse v defaultSentinelPort.

Definition buildSentinelVolumes (v : Valkey Q) : list Volume :=
  [volume "sentinel-template" (FromConfigMap (v_Name v +:+ suffixSentinelConf) 292 false);
   volume "sentinel-init-scripts" (FromConfigMap (v_Name v +:+ suffixSentinelInitScripts) 365 false);
   volume "sentinel-conf" EmptyDir;
   volume "tmp" EmptyDir;
   volume "bootstrap" (FromConfigMap (v_Name v +:+ suffixSentinelBootstrap) 292 false)].

(** [s] is [*v.Spec.Sentinel]: the phase that applies it runs with the pointer set. *)
Definition buildSentinelSTS (v : Valkey Q) (s : SentinelPod Q) (cmHash : string) (partition : Z) : StatefulSet Q :=
  let labels := ownedLabels (v_Name v) componentSentinel in
  let p := sp_Pod s in
  let podSpec :=
    {| ps_ServiceAccountName := sentinelServiceAccountName v;
       ps_AutomountServiceAccountToken := false;
       ps_TerminationGracePeriodSeconds := sentinelTerminationGracePeriodVal;
       ps_SecurityContext := restrictedPodSecurityContext (p_SecurityContext p);
       ps_InitContainers := [buildSentinelInitContainer v s];
       ps_Containers := buildSentinelContainer v s :: (if metricsOn v then [buildSentinelExporterContainer v] else []);
       ps_Volumes := buildSentinelVolumes v;
       ps_ReadinessGates := [];
       ps_Affinity := acAffinity <$> p_Affinity p;
       ps_Tolerations := acTolerations (p_Tolerations p);
       ps_NodeSelector := p_NodeSelector p;
       ps_TopologySpreadConstraints := acTopologySpreadConstraints (p_TopologySpreadConstraints p);
       ps_PriorityClassName := stamp (p_PriorityClassName p);
       ps_DNSConfig := acDNSConfig <$> p_DNSConfig p |} in
  {| ss_Name := v_Name v +:+ suffixSentinel;
     ss_Namespace := v_Namespace v;
     ss_Labels := labels;
     ss_Owner := crOwnerRef (v_Name v) (v_UID v);
     ss_ServiceName := v_Name v +:+ suffixSentinelHeadless;
     ss_Replicas := sp_Replicas s;
     ss_Parallel := true;
     ss_Strategy := RollingUpdate partition;
     ss_Selector := labels;
     ss_Template := {| pt_Labels := mergeMaps labels (p_PodLabels p);
                       pt_Annotations := templateAnnotations v cmHash (p_PodAnnotations p);
                       pt_Spec := podSpec |};
     ss_Claims := [] |}.
End build.

(** ** The init scripts

    [sed -e "s|old|new|g"] is [ReplaceAll] here: the replacements are addresses, without
    sed's metacharacters.  [seed] is the content of the mounted [/bootstrap/seedMasterIP],
    [None] when the file cannot be read; [$(cat ...)] drops the newlines at its end. *)
Definition cat_seed (seed : option string) : string := TrimRightFunc (Ascii.eqb ValkeyConf.nl) (default "" seed).

(** [render-sentinel-conf.sh]: [Err] is an exit with status 1, [Ok] the file that the
    sentinel boots from.  An unset variable and an empty one are the same to it. *)
Definition render_sentinel_conf (template : string) (seed : option string)
    (podIP masterName valkeyAuthPass sentinelAuthPass : string) : result string :=
  match seed with
  | None => Err "bootstrap/seedMasterIP not present; cannot start sentinel"
  | Some _ =>
      let SEED := cat_seed seed in
      if bool_decide (SEED = "") then Err "bootstrap/seedMasterIP empty; operator has not yet populated seed"
      else
        let conf := ReplaceAll (ReplaceAll template "_POD_IP_" podIP) "_SEED_MASTER_IP_" SEED in
        if bool_decide (valkeyAuthPass = "") then Ok conf
        else
          let authpass := if bool_decide (sentinelAuthPass = "") then valkeyAuthPass else sentinelAuthPass in
          Ok (conf +:+ "sentinel auth-pass " +:+ masterName +:+ " " +:+ authpass +:+ nls +:+
              "requirepass " +:+ valkeyAuthPass +:+ nls)
  end.

(** [render-valkey-conf.sh]: [ping ip] is what [timeout 3 valkey-cli -h ip -p 6379 ping 2>&1]
    printed. *)
Definition seed_alive (reply : string) : bool :=
  Contains reply "PONG" || Contains reply "NOAUTH" || Contains reply "LOADING".
Definition replicaof_line (target : string) : string := nls +:+ "replicaof " +:+ target +:+ " 6379" +:+ nls.
Definition master_of (seed : option string) (podIP podName appName podNamespace : string) (ping : string → string) :
    option string :=
  let SEED_IP := cat_seed seed in
  let MASTER_TARGET :=
    if bool_decide (SEED_IP = "") then appName +:+ "-0." +:+ appName +:+ "-headless." +:+ podNamespace +:+ ".svc.cluster.local"
    else SEED_IP in
  if negb (bool_decide (podName = appName +:+ "-0")) then
    if bool_decide (MASTER_TARGET = "") then None else Some MASTER_TARGET
  else if negb (bool_decide (SEED_IP = "")) && negb (bool_decide (SEED_IP = podIP)) then
    if seed_alive (ping SEED_IP) then Some SEED_IP else None
  else None.
Definition render_valkey_conf (template : string) (seed : option string)
    (podIP podName appName podNamespace : string) (ping : string → string) : string :=
  let conf := ReplaceAll template "_POD_IP_" podIP in
  match master_of seed podIP podName appName podNamespace ping with
  | Some m => conf +:+ replicaof_line m
  | None => conf
  end.

(** ** Lemmas: substitution, line by line *)
Lemma prefix_line tok s r :
  has_byte ValkeyConf.nl tok = false → String.prefix tok (s +:+ String ValkeyConf.nl r) = String.prefix tok s.
Proof.
  revert s. induction tok as [|c tok IH]; intros s H; [by destruct s|].
  rewrite has_byte_cons in H. apply orb_false_iff in H as [Hc H]. apply bool_decide_eq_false_1 in Hc.
  destruct s as [|d s]; rewrite ?str_app_nil_l, ?str_app_cons; cbn [String.prefix].
  - destruct (Ascii.ascii_dec c ValkeyConf.nl) as [->|]; [by destruct Hc|done].
  - destruct (Ascii.ascii_dec c d); [by apply IH|done].
Qed.
Lemma prefix_length tok s : String.prefix tok s = true → (String.length tok ≤ String.length s)%nat.
Proof.
  revert s. induction tok as [|c tok IH]; intros [|d s] H; cbn in *; try lia; try done.
  destruct (Ascii.ascii_dec c d); [|done]. apply IH in H. lia.
Qed.
Lemma replace_from_line k s r tok new :
  tok ≠ "" → has_byte ValkeyConf.nl tok = false → (k ≤ String.length s)%nat →
  replace_from k (s +:+ String ValkeyConf.nl r) tok new =
    replace_from k s tok new +:+ String ValkeyConf.nl (replace_from 0 r tok new).
Proof.
  intros Hne Hnl. revert k. induction s as [|c s IH]; intros k Hk.
  - cbn in Hk. replace k with 0%nat by lia. rewrite str_app_nil_l.
    assert (String.prefix tok (String ValkeyConf.nl r) = false) as Hp.
    { pose proof (prefix_line tok "" r Hnl) as Hp. rewrite str_app_nil_l in Hp. rewrite Hp. by destruct tok. }
    cbn [replace_from]. by rewrite Hp.
  - rewrite str_app_cons. destruct k as [|k]; [|cbn [replace_from String.length] in *; apply IH; lia].
    cbn [replace_from]. rewrite <- str_app_cons, (prefix_line tok (String c s) r Hnl).
    destruct (String.prefix tok (String c s)) eqn:Ep.
    + rewrite IH by (apply prefix_length in Ep; cbn in Ep; lia). by rewrite str_app_assoc.
    + by rewrite IH by lia.
Qed.
Lemma ReplaceAll_unlines l tok new :
  tok ≠ "" → has_byte ValkeyConf.nl tok = false →
  ReplaceAll (unlines l) tok new = unlines ((λ x, ReplaceAll x tok new) <$> l).
Proof.
  intros Hne Hnl. induction l as [|x l IH]; [done|]. cbn. unfold ReplaceAll in *.
  change (nls +:+ foldr (λ x s, x +:+ nls +:+ s) "" l) with (String ValkeyConf.nl (unlines l)).
  rewrite replace_from_line by (done || lia). by rewrite IH.
Qed.

(** A token starts with an underscore: text without one is copied. *)
Definition free (s : string) : bool := negb (has_byte "_" s).
Lemma ReplaceAll_free s r tok new :
  free s = true → ReplaceAll (s +:+ r) (String "_" tok) new = s +:+ ReplaceAll r (String "_" tok) new.
Proof.
  unfold free. induction s as [|c s IH]; intros H; [done|].
  rewrite has_byte_cons in H. apply negb_true_iff, orb_false_iff in H as [Hc H]. apply bool_decide_eq_false_1 in Hc.
  rewrite !str_app_cons, ReplaceAll_skip; [by rewrite IH by (by rewrite H)|].
  cbn [String.prefix]. by destruct (Ascii.ascii_dec "_" c) as [<-|].
Qed.
Lemma ReplaceAll_none s tok new : free s = true → ReplaceAll s (String "_" tok) new = s.
Proof. intros H. rewrite <- (str_app_nil_r s) at 1. rewrite ReplaceAll_free by done. by rewrite str_app_nil_r. Qed.
Lemma free_app s t : free (s +:+ t) = free s && free t.
Proof. unfold free. by rewrite has_byte_app, negb_orb. Qed.
Lemma free_Itoa n : free (Itoa n) = true.
Proof.
  unfold free. rewrite has_byte_Itoa; [done| |done]. intros d Hd.
  assert (d = 0 ∨ d = 1 ∨ d = 2 ∨ d = 3 ∨ d = 4 ∨ d = 5 ∨ d = 6 ∨ d = 7 ∨ d = 8 ∨ d = 9)%N by lia. naive_solver.
Qed.

(** ** The sentinel's configuration at boot *)
Lemma unlines_app l k : unlines (l ++ k) = unlines l +:+ unlines k.
Proof. induction l as [|x l IH]; [done|]. cbn. unfold unlines in IH. rewrite IH. by rewrite !str_app_assoc. Qed.
Lemma one_line_replace k s tok new :
  one_line s = true → one_line new = true → one_line (replace_from k s tok new) = true.
Proof.
  intros Hs Hn. revert k. induction s as [|c s IH]; intros k; [done|].
  rewrite one_line_cons in Hs. apply andb_prop in Hs as [Hc Hs]. cbn [replace_from].
  destruct k as [|k]; [|by apply IH]. destruct (String.prefix _ _).
  - rewrite one_line_app, Hn. by apply IH.
  - rewrite one_line_cons, Hc. by apply IH.
Qed.

(** The lines a sentinel acts on. *)
Definition comment (l : string) : bool := HasPrefix l "#".
Lemma comment_hash x : comment (String "#" x) = true.
Proof. by destruct x. Qed.
Definition directives (conf : string) : list string :=
  List.filter (λ l, negb (bool_decide (l = "")) && negb (comment l)) (Split conf ValkeyConf.nl).

Definition sentinel_lines (i : SentinelInputs) (podIP seed : string) : list string :=
  let name := si_MasterName i in
  ["port " +:+ Itoa SentinelPort; "sentinel announce-hostnames no"; "sentinel resolve-hostnames no";
   "sentinel announce-ip " +:+ podIP; "sentinel announce-port " +:+ Itoa SentinelPort;
   "sentinel monitor " +:+ name +:+ " " +:+ seed +:+ " " +:+ Itoa ValkeyPort +:+ " " +:+ Itoa (si_Quorum i);
   "sentinel down-after-milliseconds " +:+ name +:+ " " +:+ Itoa (si_DownAfterMilliseconds i);
   "sentinel failover-timeout " +:+ name +:+ " " +:+ Itoa (si_FailoverTimeout i);
   "sentinel parallel-syncs " +:+ name +:+ " " +:+ Itoa (si_ParallelSyncs i)].
Definition auth_lines (name valkeyAuthPass sentinelAuthPass : string) : list string :=
  if bool_decide (valkeyAuthPass = "") then []
  else ["sentinel auth-pass " +:+ name +:+ " " +:+ (if bool_decide (sentinelAuthPass = "") then valkeyAuthPass else sentinelAuthPass);
        "requirepass " +:+ valkeyAuthPass].

Section sentinel_conf.
Context (i : SentinelInputs) (podIP seed : string).
Context (Hname : free (si_MasterName i) = true) (Hname1 : one_line (si_MasterName i) = true).
Context (Hip : free podIP = true) (Hip1 : one_line podIP = true) (Hseed : one_line seed = true).

Let subst (x : string) : string := ReplaceAll (ReplaceAll x "_POD_IP_" podIP) "_SEED_MASTER_IP_" seed.

Lemma subst_free x : free x = true → subst x = x.
Proof. intros H. unfold subst. rewrite (ReplaceAll_none x "POD_IP_") by done. by apply (ReplaceAll_none x). Qed.
Lemma subst_comment x : ∃ y, subst (String "#" x) = String "#" y.
Proof. unfold subst. rewrite ReplaceAll_skip by done. rewrite ReplaceAll_skip by done. eauto. Qed.
Lemma subst_one_line x : one_line x = true → one_line (subst x) = true.
Proof. intros H. apply one_line_replace; [by apply one_line_replace|done]. Qed.

Lemma subst_announce x : free x = true → subst (x +:+ "_POD_IP_") = x +:+ podIP.
Proof.
  intros H. unfold subst. rewrite (ReplaceAll_free x "_POD_IP_" "POD_IP_") by done.
  change (ReplaceAll "_POD_IP_" (String "_" "POD_IP_") podIP) with (podIP +:+ "").
  rewrite str_app_nil_r. apply ReplaceAll_none. by rewrite free_app, H.
Qed.
Lemma subst_monitor x y :
  free x = true → free y = true → subst (x +:+ "_SEED_MASTER_IP_" +:+ " " +:+ y) = x +:+ seed +:+ " " +:+ y.
Proof.
  intros Hx Hy. unfold subst. rewrite (ReplaceAll_free x _ "POD_IP_") by done.
  change (ReplaceAll ("_SEED_MASTER_IP_" +:+ " " +:+ y) (String "_" "POD_IP_") podIP)
    with ("_SEED_MASTER_IP_" +:+ " " +:+ ReplaceAll y (String "_" "POD_IP_") podIP).
  rewrite (ReplaceAll_none y) by done. rewrite (ReplaceAll_free x _ "SEED_MASTER_IP_") by done. f_equal.
  rewrite ReplaceAll_match by done. f_equal.
  rewrite (ReplaceAll_free " " y "SEED_MASTER_IP_") by done. by rewrite (ReplaceAll_none y).
Qed.

Lemma subst_lines :
  subst <$> ["port " +:+ Itoa SentinelPort; "sentinel announce-hostnames no"; "sentinel resolve-hostnames no";
           "sentinel announce-ip " +:+ SentinelAnnounceIPPlaceholder;
           "sentinel announce-port " +:+ Itoa SentinelPort;
           "sentinel monitor " +:+ si_MasterName i +:+ " " +:+ SentinelSeedMasterIPPlaceholder +:+ " " +:+
             Itoa ValkeyPort +:+ " " +:+ Itoa (si_Quorum i);
           "sentinel down-after-milliseconds " +:+ si_MasterName i +:+ " " +:+ Itoa (si_DownAfterMilliseconds i);
           "sentinel failover-timeout " +:+ si_MasterName i +:+ " " +:+ Itoa (si_FailoverTimeout i);
           "sentinel parallel-syncs " +:+ si_MasterName i +:+ " " +:+ Itoa (si_ParallelSyncs i)]
  = sentinel_lines i podIP seed.
Proof.
  unfold sentinel_lines, SentinelAnnounceIPPlaceholder. cbn [fmap list_fmap].
  rewrite (subst_announce "sentinel announce-ip ") by done.
  replace ("sentinel monitor " +:+ si_MasterName i +:+ " " +:+ SentinelSeedMasterIPPlaceholder +:+ " " +:+
             Itoa ValkeyPort +:+ " " +:+ Itoa (si_Quorum i))
    with (("sentinel monitor " +:+ si_MasterName i +:+ " ") +:+ "_SEED_MASTER_IP_" +:+ " " +:+
             (Itoa ValkeyPort +:+ " " +:+ Itoa (si_Quorum i))) by (by rewrite !str_app_assoc).
  rewrite subst_monitor by (by rewrite !free_app, ?Hname, ?free_Itoa).
  rewrite !subst_free by (by rewrite ?free_app, ?Hname, ?free_Itoa). by rewrite !str_app_assoc.
Qed.

Lemma sentinel_lines_one_line : Forall (λ l, one_line l = true) (sentinel_lines i podIP seed).
Proof.
  unfold sentinel_lines. repeat constructor; by rewrite ?one_line_app, ?Hname1, ?Itoa_one_line, ?Hip1, ?Hseed.
Qed.
Lemma sentinel_lines_kept :
  List.filter (λ l, negb (bool_decide (l = "")) && negb (comment l)) (sentinel_lines i podIP seed) = sentinel_lines i podIP seed.
Proof. done. Qed.
Lemma header_dropped :
  List.filter (λ l, negb (bool_decide (l = "")) && negb (comment l)) (subst <$> sentinel_header) = [].
Proof.
  unfold sentinel_header. cbn [fmap list_fmap].
  repeat match goal with |- context [subst (String "#" ?x)] => destruct (subst_comment x) as [? ->] end.
  cbn [List.filter]. by rewrite !comment_hash, !andb_false_r.
Qed.

Lemma booted_lines tail :
  Forall (λ l, one_line l = true) tail →
  directives (subst (RenderSentinel i) +:+ unlines tail) =
    sentinel_lines i podIP seed ++ List.filter (λ l, negb (bool_decide (l = "")) && negb (comment l)) tail.
Proof.
  intros Ht. unfold directives, RenderSentinel. rewrite <- unlines_app. unfold subst at 1.
  rewrite !ReplaceAll_unlines by done. rewrite <- list_fmap_compose.
  change (_ ∘ _) with subst. rewrite fmap_app, subst_lines, <- unlines_app, <- (str_app_nil_r (unlines _)).
  rewrite Split_unlines.
  - rewrite !List.filter_app, header_dropped, sentinel_lines_kept. cbn. by rewrite app_nil_r.
  - apply Forall_app. split; [apply Forall_app; split|done].
    + apply Forall_fmap. repeat constructor; by apply subst_one_line.
    + apply sentinel_lines_one_line.
Qed.
End sentinel_conf.

Lemma auth_tail name vp sp :
  one_line name = true → one_line vp = true → one_line sp = true →
  Forall (λ l, one_line l = true) (auth_lines name vp sp) ∧
  List.filter (λ l, negb (bool_decide (l = "")) && negb (comment l)) (auth_lines name vp sp) = auth_lines name vp sp.
Proof.
  intros Hn Hv Hs. unfold auth_lines. case_bool_decide; [done|]. split; [|done].
  repeat constructor; [|by rewrite one_line_app, Hv].
  case_bool_decide; by rewrite !one_line_app, Hn, ?Hv, ?Hs.
Qed.

(** The configuration a sentinel boots from.  With a seed mounted, the rendered template
    and the init script together give a file whose effective lines are exactly: the sentinel's
    own address, one monitor line for the CR's master name at the seed with the CR's quorum, the
    CR's timings, and, when auth is on, the two authentication lines, in which the sentinel
    secret replaces the password only towards the master.  Without a seed the container fails
    and is retried, so no sentinel starts without a master to watch. *)
Theorem sentinel_boots_on_seed (i : SentinelInputs) seed podIP vp sp :
  free (si_MasterName i) = true → one_line (si_MasterName i) = true →
  free podIP = true → one_line podIP = true → one_line (cat_seed seed) = true →
  one_line vp = true → one_line sp = true →
  match render_sentinel_conf (RenderSentinel i) seed podIP (si_MasterName i) vp sp with
  | Ok conf => cat_seed seed ≠ "" ∧
      directives conf = sentinel_lines i podIP (cat_seed seed) ++ auth_lines (si_MasterName i) vp sp
  | Err _ => cat_seed seed = ""
  end.
Proof.
  intros Hn Hn1 Hip Hip1 Hs Hv Hsp.
  destruct (auth_tail (si_MasterName i) vp sp Hn1 Hv Hsp) as [Ht Hf].
  pose proof (booted_lines i podIP (cat_seed seed) Hn Hn1 Hip Hip1 Hs _ Ht) as Hb. rewrite Hf in Hb.
  unfold render_sentinel_conf. destruct seed as [x|]; [|done].
  case_bool_decide as E; [done|]. unfold auth_lines in *. case_bool_decide; (split; [done|]).
  - rewrite <- Hb. cbn. by rewrite str_app_nil_r.
  - rewrite <- Hb. cbn [unlines foldr]. by rewrite str_app_nil_r, !str_app_assoc.
Qed.

Definition demo_sentinel_inputs : SentinelInputs :=
  {| si_MasterName := "mymaster"; si_Quorum := 2; si_DownAfterMilliseconds := 3000; si_FailoverTimeout := 180000;
     si_ParallelSyncs := 1 |}.
Lemma sentinel_boots_on_seed_witness :
  match render_sentinel_conf (RenderSentinel demo_sentinel_inputs) (Some ("10.0.0.1" +:+ nls)) "10.0.0.9" "mymaster" "pw" "" with
  | Ok conf => "10.0.0.1" ≠ "" ∧
      directives conf = sentinel_lines demo_sentinel_inputs "10.0.0.9" "10.0.0.1" ++ auth_lines "mymaster" "pw" ""
  | Err _ => "10.0.0.1" = ""
  end.
Proof.
  apply (sentinel_boots_on_seed demo_sentinel_inputs (Some ("10.0.0.1" +:+ nls)) "10.0.0.9" "pw" ""); vm_compute; reflexivity.
Defined.



(** Except for the first pod, the script does not compare the seed with the pod's own
    address: a pod that was the primary and comes back at the same address is told to
    replicate from itself. *)
Theorem primary_follows_itself seed podName appName ns ping :
  cat_seed seed ≠ "" → podName ≠ appName +:+ "-0" →
  master_of seed (cat_seed seed) podName appName ns ping = Some (cat_seed seed).
Proof.
  intros Hs Hp. unfold master_of. rewrite (bool_decide_eq_false_2 (podName = _)) by done. cbn [negb].
  by rewrite !(bool_decide_eq_false_2 (cat_seed seed = "")) by done.
Qed.
Lemma primary_follows_itself_witness :
  master_of (Some "10.0.0.2") "10.0.0.2" "demo-1" "demo" "prod" (λ _, "") = Some "10.0.0.2".
Proof. apply (primary_follows_itself (Some "10.0.0.2")); vm_compute; discriminate. Defined.

(** ** Both StatefulSets *)
Section both.
Context {Q : Type} (MustParse : string → Q).
Context {R : MapRange}.

Lemma sentinel_init_names (v : Valkey Q) s :
  env_names (buildSentinelInitContainer MustParse v s) =
    ["POD_IP"; "POD_NAME"; "MASTER_NAME"] ++ (if authEnabled v then ["VALKEY_AUTH_PASS"] else []) ++
    (if bool_decide (sentinel_auth_env v = []) then [] else ["SENTINEL_AUTH_PASS"]).
Proof.
  unfold env_names. cbn. rewrite fmap_app, auth_env_names. do 3 f_equal.
  unfold sentinel_auth_env. destruct (v_Auth v) as [a|]; [|done]. by destruct (_ || _).
Qed.

Lemma sentinel_pod_valid (v : Valkey Q) s h n :
  pod_valid [] (pt_Spec (ss_Template (buildSentinelSTS MustParse v s h n))) = true.
Proof.
  unfold pod_valid, container_valid, buildSentinelSTS. cbv zeta. cbn [ps_Volumes ps_InitContainers ps_Containers pt_Spec ss_Template].
  assert (Hx : env_names (buildSentinelExporterContainer MustParse v) = "REDIS_ADDR" :: if authEnabled v then ["REDIS_PASSWORD"] else []).
  { unfold env_names. cbn. by rewrite auth_env_names. }
  destruct (metricsOn v); cbn [fmap list_fmap app forallb mbind list_bind];
    rewrite ?Hx, sentinel_init_names; destruct (authEnabled v), (bool_decide (sentinel_auth_env v = []));
    vm_compute; reflexivity.
Qed.

(** The StatefulSets of a CR, in the order they are applied: [None] in place of the
    sentinels' outside sentinel mode. *)
Definition statefulSets (v : Valkey Q) (h : string) (hs : string) (n : Z) : list (StatefulSet Q) :=
  match buildValkeySTS MustParse v h with Some s => [s] | None => [] end ++
  match v_Sentinel v with Some s => [buildSentinelSTS MustParse v s hs n] | None => [] end.

(** The user's settings behind each of them. *)
Definition settings_of (v : Valkey Q) (s : StatefulSet Q) : PodSettings Q :=
  match v_Sentinel v with
  | Some p => if bool_decide (ss_Name s = v_Name v +:+ suffixSentinel) then sp_Pod p else v_Pod v
  | None => v_Pod v
  end.

Lemma name_suffix (x y : string) : y ≠ "" → x ≠ x +:+ y.
Proof.
  intros Hy H. apply (f_equal String.length) in H. rewrite str_length_app in H. destruct y; [done|]. cbn in H. lia.
Qed.

(** Each is one of the two builders' output, on its own settings. *)
Lemma statefulSets_cases v h hs n s :
  s ∈ statefulSets v h hs n →
  (buildValkeySTS MustParse v h = Some s ∧ settings_of v s = v_Pod v) ∨
  (∃ p, v_Sentinel v = Some p ∧ s = buildSentinelSTS MustParse v p hs n ∧ settings_of v s = sp_Pod p).
Proof.
  unfold statefulSets. intros Hs. apply elem_of_app in Hs as [Hs|Hs].
  - left. destruct (buildValkeySTS MustParse v h) as [x|] eqn:Eb; [|by apply not_elem_of_nil in Hs].
    apply list_elem_of_singleton in Hs as ->. split; [done|]. unfold settings_of.
    destruct (v_Sentinel v); [|done]. rewrite bool_decide_eq_false_2; [done|].
    assert (ss_Name x = v_Name v) as ->; [|by apply name_suffix].
    unfold buildValkeySTS in Eb. destruct (buildValkeyContainer MustParse v); [|done]. cbn in Eb. by injection Eb as <-.
  - right. destruct (v_Sentinel v) as [p|] eqn:Es; [|by apply not_elem_of_nil in Hs].
    apply list_elem_of_singleton in Hs as ->. exists p. split; [done|]. split; [done|].
    unfold settings_of. rewrite Es. by rewrite bool_decide_eq_true_2.
Qed.

Lemma template_shape v h hs n s :
  s ∈ statefulSets v h hs n →
  let p := settings_of v s in
  let t := ss_Template s in
  (∃ c, c ∈ [componentValkey; componentSentinel] ∧ ss_Selector s = ownedLabels (v_Name v) c ∧
        pt_Labels t = mergeMaps (ownedLabels (v_Name v) c) (p_PodLabels p)) ∧
  (∃ hash, pt_Annotations t = templateAnnotations v hash (p_PodAnnotations p)) ∧
  pod_valid (dc_Name <$> ss_Claims s) (pt_Spec t) = true ∧
  ps_SecurityContext (pt_Spec t) = restrictedPodSecurityContext (p_SecurityContext p) ∧
  (∀ c, c ∈ ps_InitContainers (pt_Spec t) ++ ps_Containers (pt_Spec t) →
        ct_Security c = restrictedContainerSecurityContext ∨ ct_Security c = restrictedContainerSecurityContextReadOnly).
Proof.
  intros Hs. cbv zeta. destruct (statefulSets_cases v h hs n s Hs) as [[Hb ->]|(p & _ & -> & ->)].
  - pose proof (valkey_pod_valid MustParse v h s Hb) as Hv. unfold buildValkeySTS in Hb.
    destruct (buildValkeyContainer MustParse v) as [c|] eqn:Ec; [|done]. cbn in Hb. injection Hb as <-.
    destruct (built_container MustParse v c Ec) as (_ & _ & _ & Hc & _).
    split_and!; [exists componentValkey; split; [constructor|done]|by exists h|exact Hv|done|].
    intros x Hx. cbn in Hx. destruct (metricsOn v); set_solver.
  - split_and!; [exists componentSentinel; split; [repeat constructor|done]|by exists hs|apply sentinel_pod_valid|done|].
    intros x Hx. cbn in Hx. destruct (metricsOn v); set_solver.
Qed.

(** C16: The StatefulSets of a CR whose pod labels were admitted are well formed.  Mounts name
    declared volumes or claims, paths, variables, containers and ports are not declared twice,
    every variable an argument expands is declared; the selector matches the template's
    labels; and a new pod carries no role, so that neither the write nor the read Service
    selects it before the operator has labelled it. *)
Theorem statefulsets_accepted (v : Valkey Q) h hs n s parent :
  s ∈ statefulSets v h hs n →
  validateReservedLabels parent (p_PodLabels (settings_of v s)) = [] →
  pod_valid (dc_Name <$> ss_Claims s) (pt_Spec (ss_Template s)) = true ∧
  ss_Selector s ⊆ pt_Labels (ss_Template s) ∧ pt_Labels (ss_Template s) !! RoleLabel = None.
Proof.
  intros Hs Ha. destruct (template_shape v h hs n s Hs) as ((c & _ & Hsel & Hl) & _ & Hv & _).
  rewrite Hl, Hsel. split; [exact Hv|]. by apply (template_labels R parent).
Qed.

(** Every pod meets the "restricted" Pod Security profile exactly when what the user
    wrote in its security context does; with nothing written, it does. *)
Theorem pods_restricted (v : Valkey Q) h hs n s :
  s ∈ statefulSets v h hs n →
  restricted (pt_Spec (ss_Template s)) = user_restricted (default psc_empty (p_SecurityContext (settings_of v s))) ∧
  (p_SecurityContext (settings_of v s) = None → restricted (pt_Spec (ss_Template s)) = true).
Proof.
  intros Hs. destruct (template_shape v h hs n s Hs) as (_ & _ & _ & Hp & Hc).
  rewrite (restricted_iff _ _ Hp Hc). split; [done|]. intros ->. vm_compute. reflexivity.
Qed.

(** What the user set in a security context is kept. *)
Definition keeps {A} (user built : option A) : Prop := ∀ x, user = Some x → built = Some x.
Definition context_kept (u : PodSecurityContext plain) (c : PodSecurityContext plain) : Prop :=
  psc_SELinuxOptions c = psc_SELinuxOptions u ∧ psc_WindowsOptions c = psc_WindowsOptions u ∧
  keeps (psc_RunAsUser u) (psc_RunAsUser c) ∧ keeps (psc_RunAsGroup u) (psc_RunAsGroup c) ∧
  keeps (psc_RunAsNonRoot u) (psc_RunAsNonRoot c) ∧ psc_SupplementalGroups c = psc_SupplementalGroups u ∧
  psc_SupplementalGroupsPolicy c = psc_SupplementalGroupsPolicy u ∧ keeps (psc_FSGroup u) (psc_FSGroup c) ∧
  psc_Sysctls c = psc_Sysctls u ∧ keeps (psc_FSGroupChangePolicy u) (psc_FSGroupChangePolicy c) ∧
  keeps (psc_SeccompProfile u) (psc_SeccompProfile c) ∧ psc_AppArmorProfile c = psc_AppArmorProfile u ∧
  psc_SELinuxChangePolicy c = psc_SELinuxChangePolicy u.
Lemma or_nil_keeps {A} (d : A) u : keeps u (or_nil d u).
Proof. by intros x ->. Qed.
Lemma hardened_context u : context_kept (default psc_empty u) (decode acPodSecurityContext (restrictedPodSecurityContext u)).
Proof.
  unfold restrictedPodSecurityContext. rewrite decode_ac. unfold context_kept. cbn.
  split_and!; (done || apply or_nil_keeps).
Qed.

Lemma container_probes (v : Valkey Q) c :
  buildValkeyContainer MustParse v = Some c →
  let f q := injectAuthIntoValkeyCLIProbe q (authEnabled v) in
  ct_Liveness c = acProbe <$> (f <$> p_LivenessProbe (v_Pod v)) ∧
  ct_Readiness c = acProbe <$> (f <$> p_ReadinessProbe (v_Pod v)).
Proof.
  cbv zeta. rewrite <- !option_fmap_compose. unfold buildValkeyContainer, addPreStopHookIfSentinelMode.
  destruct (bool_decide _); cbn [negb]; [|by intros [= <-]].
  destruct (v_Sentinel v); [|done]. by intros [= <-].
Qed.

(** The settings a pod specification carries, as the API server reads them. *)
Definition placement (p : PodSpec Q) :=
  (decode (fmap acAffinity) (ps_Affinity p), decode acTolerations (ps_Tolerations p), ps_NodeSelector p,
   decode acTopologySpreadConstraints (ps_TopologySpreadConstraints p), default "" (ps_PriorityClassName p),
   decode (fmap acDNSConfig) (ps_DNSConfig p)).

(** What becomes of the user's probe.  [auth]: the probe runs in a valkey container that
    has the password. *)
Definition with_command (cmd : list string) (p : Probe plain) : Probe plain :=
  {| pr_Exec := Some {| ex_Command := cmd |}; pr_HTTPGet := pr_HTTPGet p; pr_TCPSocket := pr_TCPSocket p;
     pr_GRPC := pr_GRPC p; pr_InitialDelaySeconds := pr_InitialDelaySeconds p; pr_TimeoutSeconds := pr_TimeoutSeconds p;
     pr_PeriodSeconds := pr_PeriodSeconds p; pr_SuccessThreshold := pr_SuccessThreshold p;
     pr_FailureThreshold := pr_FailureThreshold p;
     pr_TerminationGracePeriodSeconds := pr_TerminationGracePeriodSeconds p |}.
Definition client_command (cmd : list string) : Prop :=
  ∃ cli rest, cmd = cli :: rest ∧ (cli = "valkey-cli" ∨ cli = "redis-cli") ∧ "-a" ∉ rest.
Record probe_kept (auth : bool) (user built : Probe plain) : Prop := {
  pk_password cli rest : auth = true → pr_Exec user = Some {| ex_Command := cli :: rest |} → client_command (cli :: rest) →
    built = with_command (cli :: "-a" :: "$(VALKEY_PASSWORD)" :: rest) user;
  pk_unchanged : (auth = true → ∀ e, pr_Exec user = Some e → ¬ client_command (ex_Command e)) → built = user
}.

Lemma inject_kept p auth : probe_kept auth p (injectAuthIntoValkeyCLIProbe p auth).
Proof.
  assert (Hcli : ∀ cmd rest, client_command (cmd :: rest) ↔
    (bool_decide (cmd = "valkey-cli") || bool_decide (cmd = "redis-cli")) && negb (bool_decide ("-a" ∈ rest)) = true).
  { intros cmd rest. unfold client_command. rewrite andb_true_iff, orb_true_iff, negb_true_iff, !bool_decide_eq_true, bool_decide_eq_false.
    naive_solver. }
  unfold injectAuthIntoValkeyCLIProbe. split.
  - intros cli rest -> -> H%Hcli. by rewrite andb_true_l, H.
  - intros H. destruct (pr_Exec p) as [[[|cmd rest]]|]; [done| |done]. destruct auth; [|done]. rewrite andb_true_l.
    specialize (H eq_refl _ eq_refl). cbn in H. rewrite Hcli in H. by destruct (_ && _).
Qed.

Lemma unchanged_kept p : probe_kept false p p.
Proof. by split. Qed.

Lemma option_Forall2_fmap_r {A} (P : A → A → Prop) (f : A → A) o : (∀ x, P x (f x)) → option_Forall2 P o (f <$> o).
Proof. destruct o; by constructor. Qed.

(** C18: What a CR says about its pods arrives unchanged.  Read back by the API server, the
    template of either StatefulSet has the user's affinity, tolerations, node selector, spread
    constraints, priority class and DNS settings, and the fields of the security context the
    user set.  The liveness and readiness probes of its first container are the user's, with
    one exception: in the valkey StatefulSet, when auth is on, a probe that runs valkey-cli
    or redis-cli without "-a" gets "-a $(VALKEY_PASSWORD)" as its first two arguments. *)
Theorem user_settings_kept (v : Valkey Q) h hs n s :
  s ∈ statefulSets v h hs n →
  let p := settings_of v s in
  let spec := pt_Spec (ss_Template s) in
  placement spec = (p_Affinity p, p_Tolerations p, p_NodeSelector p, p_TopologySpreadConstraints p,
                    p_PriorityClassName p, p_DNSConfig p) ∧
  context_kept (default psc_empty (p_SecurityContext p)) (decode acPodSecurityContext (ps_SecurityContext spec)) ∧
  let auth := authEnabled v && bool_decide (ss_Name s = v_Name v) in
  ∃ c rest, ps_Containers spec = c :: rest ∧
    option_Forall2 (probe_kept auth) (p_LivenessProbe p) (decode (fmap acProbe) (ct_Liveness c)) ∧
    option_Forall2 (probe_kept auth) (p_ReadinessProbe p) (decode (fmap acProbe) (ct_Readiness c)).
Proof.
  intros Hs. cbv zeta. destruct (template_shape v h hs n s Hs) as (_ & _ & _ & Hp & _).
  split; [|split; [rewrite Hp; apply hardened_context|]]; clear Hp;
    destruct (statefulSets_cases v h hs n s Hs) as [[Hb ->]|(p & _ & -> & ->)].
  - unfold buildValkeySTS in Hb. destruct (buildValkeyContainer MustParse v); [|done]. cbn in Hb. injection Hb as <-.
    unfold placement. cbn [pt_Spec ss_Template ps_Affinity ps_Tolerations ps_NodeSelector ps_TopologySpreadConstraints ps_PriorityClassName ps_DNSConfig].
    by rewrite !decode_ac, stamp_back.
  - unfold placement, buildSentinelSTS. cbv zeta.
    cbn [pt_Spec ss_Template ps_Affinity ps_Tolerations ps_NodeSelector ps_TopologySpreadConstraints ps_PriorityClassName ps_DNSConfig].
    by rewrite !decode_ac, stamp_back.
  - unfold buildValkeySTS in Hb. destruct (buildValkeyContainer MustParse v) as [c|] eqn:Ec; [|done].
    cbn in Hb. injection Hb as <-. eexists c, _. split; [done|]. cbn [ss_Name].
    rewrite bool_decide_eq_true_2, andb_true_r by done.
    pose proof (container_probes v c Ec) as [-> ->]. rewrite !decode_ac.
    split; apply option_Forall2_fmap_r; intros x; apply inject_kept.
  - eexists _, _. split; [done|]. cbn [ct_Liveness ct_Readiness buildSentinelContainer ss_Name buildSentinelSTS].
    rewrite bool_decide_eq_false_2, andb_false_r by (intros E; by apply (name_suffix (v_Name v) suffixSentinel)).
    rewrite !decode_ac. split; (destruct (_ : option (Probe plain)); constructor; apply unchanged_kept).
Qed.
End both.

(** ** Witnesses: a CR in sentinel mode, with quantities as they are written *)
Definition demo_probe : Probe plain :=
  {| pr_Exec := Some {| ex_Command := ["valkey-cli"; "ping"] |}; pr_HTTPGet := None; pr_TCPSocket := None; pr_GRPC := None;
     pr_InitialDelaySeconds := 5; pr_TimeoutSeconds := 3; pr_PeriodSeconds := 10; pr_SuccessThreshold := 0;
     pr_FailureThreshold := 3; pr_TerminationGracePeriodSeconds := None |}.
Definition demo_settings : PodSettings string :=
  {| p_Resources := {| res_Requests := None; res_Limits := None; res_Claims := [] |};
     p_LivenessProbe := Some demo_probe; p_ReadinessProbe := None; p_Affinity := None;
     p_Tolerations := [{| tl_Key := "dedicated"; tl_Operator := "Equal"; tl_Value := ""; tl_Effect := "NoSchedule";
                          tl_TolerationSeconds := Some 60 |}];
     p_NodeSelector := {["disk" := "ssd"]}; p_TopologySpreadConstraints := []; p_PriorityClassName := "";
     p_DNSConfig := None; p_PodAnnotations := ∅; p_PodLabels := {["team" := "platform"]}; p_SecurityContext := None |}.
Definition demo_sentinel_pod : SentinelPod string :=
  {| sp_MasterName := "mymaster"; sp_Replicas := 3; sp_Pod := demo_settings |}.
Definition demo_valkey (mode : Mode) : Valkey string :=
  let i := {| Repository := "valkey/valkey"; Tag := "8.1" |} in
  {| v_Name := "demo"; v_Namespace := "prod"; v_UID := "u-1"; v_Annotations := ∅; v_Mode := mode;
     v_Image := {| im_Valkey := i; im_Sentinel := i; im_Exporter := i |}; v_Replicas := 3;
     v_Persistence := Some {| pe_StorageClass := None; pe_Size := "8Gi"; pe_AccessModes := ["ReadWriteOnce"] |};
     v_GateEnabled := None; v_Pod := demo_settings;
     v_Sentinel := if bool_decide (mode = ModeSentinel) then Some demo_sentinel_pod else None;
     v_Auth := Some {| a_SecretName := "creds"; a_SecretKey := ""; a_SentinelSecretName := ""; a_SentinelSecretKey := "" |};
     v_Metrics := {| me_Enabled := Some true; me_Resources := {| res_Requests := None; res_Limits := None; res_Claims := [] |} |} |}.
Definition demo_sts : StatefulSet string := buildSentinelSTS id (demo_valkey ModeSentinel) demo_sentinel_pod "hs" 0.
Lemma demo_sts_in : demo_sts ∈ statefulSets id (demo_valkey ModeSentinel) "h" "hs" 0.
Proof. unfold statefulSets. apply elem_of_app. right. constructor. Defined.

Lemma statefulsets_accepted_witness :
  pod_valid (dc_Name <$> ss_Claims demo_sts) (pt_Spec (ss_Template demo_sts)) = true ∧
  ss_Selector demo_sts ⊆ pt_Labels (ss_Template demo_sts) ∧ pt_Labels (ss_Template demo_sts) !! RoleLabel = None.
Proof.
  apply (statefulsets_accepted (R:=range_forward) id (demo_valkey ModeSentinel) "h" "hs" 0 demo_sts "spec.sentinel.podLabels").
  - exact demo_sts_in.
  - vm_compute. reflexivity.
Defined.
Lemma pods_restricted_witness :
  restricted (pt_Spec (ss_Template demo_sts)) = user_restricted psc_empty ∧ restricted (pt_Spec (ss_Template demo_sts)) = true.
Proof.
  destruct (pods_restricted id (demo_valkey ModeSentinel) "h" "hs" 0 demo_sts demo_sts_in) as [H1 H2].
  split; [exact H1|]. apply H2. vm_compute. reflexivity.
Defined.
Lemma user_settings_kept_witness :
  match buildValkeySTS id (demo_valkey ModeStandalone) "h" with
  | Some s => placement (pt_Spec (ss_Template s)) =
      (None, p_Tolerations demo_settings, {["disk" := "ssd"]} : gmap string string, [], "", None) ∧
      ∃ c rest, ps_Containers (pt_Spec (ss_Template s)) = c :: rest ∧
        decode (fmap acProbe) (ct_Liveness c) =
          Some (with_command ["valkey-cli"; "-a"; "$(VALKEY_PASSWORD)"; "ping"] demo_probe)
  | None => False
  end.
Proof.
  assert (Hn : ss_Name <$> buildValkeySTS id (demo_valkey ModeStandalone) "h" = Some "demo") by (vm_compute; reflexivity).
  destruct (buildValkeySTS id (demo_valkey ModeStandalone) "h") as [s|] eqn:E; [cbn in Hn|discriminate Hn].
  - assert (Hs : s ∈ statefulSets id (demo_valkey ModeStandalone) "h" "hs" 0) by (unfold statefulSets; rewrite E; left).
    destruct (user_settings_kept id (demo_valkey ModeStandalone) "h" "hs" 0 s Hs) as (H1 & _ & c & rest & Hc & Hl & _).
    split; [exact H1|]. exists c, rest. split; [exact Hc|].
    injection Hn as Hn. rewrite Hn in Hl. inversion Hl as [u b Hk Hu Hb|]. f_equal.
    apply (pk_password _ _ _ Hk); [reflexivity|reflexivity|].
    eexists _, _. split; [reflexivity|]. split; [by left|]. apply (bool_decide_unpack _). vm_compute. exact I.
Defined.
