(* ===== verification/Services.v ===== *)
(** * The other objects of a CR: ConfigMaps, Services, disruption budget, accounts, PodMonitor

    [reconcileConfigMaps], [reconcileServices], [reconcilePDB] of
    [internal/controller/valkey_controller.go], the sentinel counterparts of
    [internal/controller/sentinel_sts.go], [serviceaccount.go] and [podmonitor.go].  Each writes
    its objects one after the other by server-side apply and stops at the first failure.

    The cluster is the namespace's objects by kind and name.  An apply under the operator's
    own field manager sets the fields it carries and drops those it carried before and no
    longer does, so the object afterwards is the applied one.  The outcome of each write is an
    input ([apply], [remove]).  The text of the init scripts is a constant of the program,
    a parameter here; what they do is in [SentinelBuild]. *)
From S2P Require Import Prelude GoStd GoFmt Sha256 Status DeriveState PrimaryRollout RoleLabels ApiTypes Defaults ValkeyConf Webhook ReadinessGate SentinelInfra Reconcile SQRecords PodAC StsBuild SentinelBuild.
Local Open Scope Z_scope.

Definition suffixClusterPDB : string := "-cluster-pdb".

(** ** Objects *)
Inductive ServiceType : Type := TypeClusterIP | TypeLoadBalancer | TypeNodePort.
#[global] Instance ServiceType_eq_dec : EqDecision ServiceType.
Proof. solve_decision. Defined.
Record ServicePort := { sv_PortName : string; sv_Port : Z; sv_TargetPort : option Z }.
Record Service := {
  sv_Type : ServiceType;
  sv_ClusterIPNone : bool;                       (* clusterIP: None *)
  sv_Selector : gmap string string;
  sv_PublishNotReadyAddresses : bool;
  sv_SourceRanges : list string;
  sv_Ports : list ServicePort }.
Record PodDisruptionBudget := {
  pdb_Selector : gmap string string;
  pdb_MinAvailable : option IntOrString;
  pdb_MaxUnavailable : option IntOrString }.
Record PodMonitor := {
  pm_Selector : gmap string string; pm_Namespaces : list string; pm_Port : string; pm_Interval : string;
  pm_Relabelings : list (string * string) }.     (* source label, target label *)
Record ConfigMap := { cm_Annotations : gmap string string; cm_Data : gmap string string }.

Section objects.
Context {Q : Type}.
Inductive spec : Type :=
  | SService (s : Service) | SPDB (p : PodDisruptionBudget) | SConfigMap (c : ConfigMap) | SServiceAccount
  | SPodMonitor (p : PodMonitor) | SStatefulSet (s : StatefulSet Q).
Record object := { ob_Name : string; ob_Labels : gmap string string; ob_Owner : OwnerReference; ob_Spec : spec }.
Definition kind (s : spec) : string :=
  match s with
  | SService _ => "Service" | SPDB _ => "PodDisruptionBudget" | SConfigMap _ => "ConfigMap"
  | SServiceAccount => "ServiceAccount" | SPodMonitor _ => "PodMonitor" | SStatefulSet _ => "StatefulSet"
  end.
Definition key (o : object) : string * string := (kind (ob_Spec o), ob_Name o).
End objects.
Arguments object : clear implicits.
Abbreviation cluster Q := (gmap (string * string) (object Q)).

(** ** Writes *)
Inductive api_error : Type := NotFound | NoMatch | Failed (e : string).
Definition api_text (e : api_error) : string :=
  match e with NotFound => "not found" | NoMatch => "no matches for kind" | Failed e => e end.

Section writes.
Context {Q : Type} (MustParse : string → Q).
Context (apply remove : string * string → option api_error).

(** A step that may fail, over the cluster. *)
Definition M (A : Type) : Type := cluster Q → result A * cluster Q.
Definition ret {A} (a : A) : M A := λ s, (Ok a, s).
Definition bind {A B} (m : M A) (f : A → M B) : M B :=
  λ s, match m s with (Ok a, s) => f a s | (Err e, s) => (Err e, s) end.
Definition fail {A} (e : string) : M A := λ s, (Err e, s).
Notation "x ;; y" := (bind x (λ _, y)) (at level 100, y at level 200, right associativity).

Definition ApplyAC (o : object Q) : cluster Q → option api_error * cluster Q :=
  λ s, match apply (key o) with Some e => (Some e, s) | None => (None, <[key o := o]> s) end.
(** [if err := ssa.ApplyAC(...); err != nil { return fmt.Errorf("<what>: %w", err) }] *)
Definition applying (what : string) (o : object Q) : M unit :=
  λ s, match ApplyAC o s with (Some e, s) => (Err (what +:+ ": " +:+ api_text e), s) | (None, s) => (Ok tt, s) end.

Definition owned (v : Valkey Q) (component name : string) (s : spec) : object Q :=
  {| ob_Name := name; ob_Labels := ownedLabels (v_Name v) component; ob_Owner := crOwnerRef (v_Name v) (v_UID v);
     ob_Spec := s |}.

(** ** ConfigMaps (phase 1 and phase 3) *)
Definition config_hash (conf script : string) : string := sha256_hex (conf +:+ String NUL "" +:+ script).
Definition config_maps (v : Valkey Q) (component confName confKey conf scriptName scriptKey script : string) : M string :=
  let hash := config_hash conf script in
  let cm k data := SConfigMap {| cm_Annotations := {[ConfigHashAnnotation := hash]}; cm_Data := {[k := data]} |} in
  applying ("applying ConfigMap " +:+ Quote confName) (owned v component confName (cm confKey conf)) ;;
  applying ("applying ConfigMap " +:+ Quote scriptName) (owned v component scriptName (cm scriptKey script)) ;;
  ret hash.

(** [i] is the configuration of the CR, with [Persistent] its [spec.valkey.persistence != nil]. *)
Definition reconcileConfigMaps (v : Valkey Q) (i : Inputs) (script : string) : M string :=
  config_maps v componentValkey (v_Name v +:+ suffixValkeyConf) "valkey.conf" (Render i)
    (v_Name v +:+ suffixInitScripts) "render-valkey-conf.sh" script.
Definition reconcileSentinelConfigMaps (v : Valkey Q) (i : SentinelInputs) (script : string) : M string :=
  config_maps v componentSentinel (v_Name v +:+ suffixSentinelConf) "sentinel.conf" (RenderSentinel i)
    (v_Name v +:+ suffixSentinelInitScripts) "render-sentinel-conf.sh" script.

(** ** Services *)
Record ServiceEndpoint := {
  se_ServiceType : string; se_Annotations : gmap string string; se_SourceRanges : list string;
  se_ExternalTrafficPolicy : string }.
Definition serviceType (t : string) : ServiceType :=
  if bool_decide (t = "LoadBalancer") then TypeLoadBalancer
  else if bool_decide (t = "NodePort") then TypeNodePort
  else if bool_decide (t = "Headless") then TypeClusterIP
  else TypeClusterIP.

Definition service (t : ServiceType) (none : bool) (selector : gmap string string) (publish : bool)
    (ranges : list string) (port : ServicePort) : spec (Q:=Q) :=
  SService {| sv_Type := t; sv_ClusterIPNone := none; sv_Selector := selector; sv_PublishNotReadyAddresses := publish;
              sv_SourceRanges := ranges; sv_Ports := [port] |}.

Definition reconcileServices (v : Valkey Q) (client : ServiceEndpoint) : M unit :=
  let labels := ownedLabels (v_Name v) componentValkey in
  let port := {| sv_PortName := "valkey"; sv_Port := defaultValkeyPort; sv_TargetPort := Some defaultValkeyPort |} in
  applying "applying client Service" (owned v componentValkey (v_Name v)
    (service (serviceType (se_ServiceType client)) false (mergeMaps labels {[RoleLabel := roleValuePrimary]}) false
       (se_SourceRanges client) port)) ;;
  applying "applying read-only Service" (owned v componentValkey (v_Name v +:+ "-ro")
    (service TypeClusterIP false (mergeMaps labels {[RoleLabel := roleValueReplica]}) false [] port)) ;;
  applying "applying headless Service" (owned v componentValkey (v_Name v +:+ "-headless")
    (service TypeClusterIP true labels true [] port)).

Definition reconcileSentinelServices (v : Valkey Q) : M unit :=
  let labels := ownedLabels (v_Name v) componentSentinel in
  let port := {| sv_PortName := "sentinel"; sv_Port := SentinelPort; sv_TargetPort := None |} in
  applying "applying headless sentinel Service" (owned v componentSentinel (v_Name v +:+ suffixSentinelHeadless)
    (service TypeClusterIP true labels true [] port)) ;;
  applying "applying client sentinel Service" (owned v componentSentinel (v_Name v +:+ suffixSentinel)
    (service TypeClusterIP false labels false [] port)).

Definition reconcileSentinelSTS (v : Valkey Q) (s : SentinelPod Q) (cmHash : string) (partition : Z) : M unit :=
  let sts := buildSentinelSTS MustParse v s cmHash partition in
  applying "applying sentinel STS" (owned v componentSentinel (ss_Name sts) (SStatefulSet sts)).

(** ** Disruption budget, accounts, PodMonitor *)
Definition reconcilePDB (v : Valkey Q) (pdb : option PDBSpec) : M unit :=
  if v_Replicas v <=? 1 then ret tt
  else
    let b min max := SPDB {| pdb_Selector := <[CRLabel := v_Name v]> {[ComponentLabel := componentValkey]};
                             pdb_MinAvailable := min; pdb_MaxUnavailable := max |} in
    applying "applying cluster PDB" (owned v componentValkey (v_Name v +:+ suffixClusterPDB)
      match pdb with
      | Some {| MaxUnavailable := Some x |} => b None (Some x)
      | Some {| MinAvailable := Some x |} => b (Some x) None
      | _ => b (Some (FromInt32 (v_Replicas v - 1))) None
      end).

Definition buildServiceAccount (v : Valkey Q) (name component : string) : object Q := owned v component name SServiceAccount.
Definition reconcileServiceAccounts (v : Valkey Q) : M unit :=
  applying "applying valkey ServiceAccount" (buildServiceAccount v (valkeyServiceAccountName v) componentValkey) ;;
  if bool_decide (v_Mode v = ModeSentinel) then
    applying "applying sentinel ServiceAccount" (buildServiceAccount v (sentinelServiceAccountName v) componentSentinel)
  else ret tt.

Definition buildPodMonitor (v : Valkey Q) (interval : string) : object Q :=
  let cr := "__meta_kubernetes_pod_label_velkir_ioxie_dev_cr" in
  {| ob_Name := v_Name v;
     ob_Labels := <[CRLabel := v_Name v]> (<[ComponentLabel := componentValkey]> {["app.kubernetes.io/managed-by" := "velkir"]});
     ob_Owner := crOwnerRef (v_Name v) (v_UID v);
     ob_Spec := SPodMonitor
       {| pm_Selector := <[CRLabel := v_Name v]> {[ComponentLabel := componentValkey]};
          pm_Namespaces := [v_Namespace v];
          pm_Port := "metrics";
          pm_Interval := if bool_decide (interval = "") then "30s" else interval;
          pm_Relabelings := [("__meta_kubernetes_pod_name", "pod"); (cr, "valkey_instance"); (cr, "name");
                             ("__meta_kubernetes_pod_label_velkir_ioxie_dev_role", "valkey_role")] |} |}.
Definition podMonitorKey (v : Valkey Q) : string * string := ("PodMonitor", v_Name v).
Definition reconcilePodMonitor (v : Valkey Q) (pm : PodMonitorSpec) : M unit :=
  let wrap what e := what +:+ " PodMonitor " +:+ v_Namespace v +:+ "/" +:+ v_Name v +:+ ": " +:+ api_text e in
  if negb (metricsOn v) || negb (default false (pm_Enabled pm)) then
    λ s, match remove (podMonitorKey v) with
         | None => (Ok tt, delete (podMonitorKey v) s)
         | Some NotFound | Some NoMatch => (Ok tt, s)
         | Some e => (Err (wrap "deleting" e), s)
         end
  else
    λ s, match ApplyAC (buildPodMonitor v (ScrapeInterval pm)) s with
         | (None, s) => (Ok tt, s)
         | (Some NoMatch, s) => (Ok tt, s)
         | (Some e, s) => (Err (wrap "applying" e), s)
         end.
End writes.

(** ** Selection *)
Definition selects (sel labels : gmap string string) : bool := bool_decide (sel ⊆ labels).

Lemma selects_union (a b L : gmap string string) :
  a ##ₘ b → selects (mergeMaps a b) L = selects a L && selects b L.
Proof.
  intros Hd. unfold selects, mergeMaps. rewrite map_union_comm by done. apply eq_true_iff_eq.
  rewrite andb_true_iff, !bool_decide_eq_true. split.
  - intros H. split; (etrans; [|exact H]); [by apply map_union_subseteq_l|by apply map_union_subseteq_r].
  - intros [Ha Hb]. by apply map_union_least.
Qed.
Lemma selects_singleton k (x : string) L : selects {[k := x]} L = bool_decide (L !! k = Some x).
Proof. unfold selects. apply bool_decide_ext. apply map_singleton_subseteq_l. Qed.
Lemma selects_insert k (x : string) (m L : gmap string string) :
  m !! k = None → selects (<[k := x]> m) L = bool_decide (L !! k = Some x) && selects m L.
Proof.
  intros Hk. unfold selects. apply eq_true_iff_eq. rewrite andb_true_iff, !bool_decide_eq_true, !map_subseteq_spec. split.
  - intros H. split; [apply H, lookup_insert_eq|]. intros j y Hj. apply H. rewrite lookup_insert_ne by congruence. done.
  - intros [Hx H] j y Hj. destruct (decide (k = j)) as [<-|Hne].
    + rewrite lookup_insert_eq in Hj. congruence.
    + rewrite lookup_insert_ne in Hj by done. by apply H.
Qed.
Lemma role_not_owned name c r : ownedLabels name c ##ₘ {[RoleLabel := r]}.
Proof.
  apply map_disjoint_spec. intros k x y Hk [<- _]%lookup_singleton_Some.
  assert (H : ownedLabels name c !! RoleLabel = None) by done. rewrite H in Hk. done.
Qed.
Lemma owned_component name c L k x :
  selects (ownedLabels name c) L = true → ownedLabels name c !! k = Some x → L !! k = Some x.
Proof. intros H Hk. apply bool_decide_eq_true in H. by eapply lookup_weaken. Qed.

(** ** Writes *)
Section facts.
Context {Q : Type} (MustParse : string → Q).
Context (apply remove : string * string → option api_error).

Lemma applying_ok what (o : object Q) s :
  applying apply what o s = match apply (key o) with
    | Some e => (Err (what +:+ ": " +:+ api_text e), s) | None => (Ok tt, <[key o := o]> s) end.
Proof. unfold applying, ApplyAC. by destruct (apply (key o)). Qed.
Lemma bind_ok {A B} (m : M A) (f : A → M B) (s s' : cluster Q) b :
  bind m f s = (Ok b, s') ↔ ∃ a s1, m s = (Ok a, s1) ∧ f a s1 = (Ok b, s').
Proof.
  unfold bind. destruct (m s) as [[a|e] s1]; split.
  - eauto.
  - by intros (? & ? & [= <- <-] & H).
  - done.
  - by intros (? & ? & [=] & _).
Qed.
Lemma applying_inv what (o : object Q) s s' u :
  applying apply what o s = (Ok u, s') → apply (key o) = None ∧ s' = <[key o := o]> s.
Proof. rewrite applying_ok. destruct (apply (key o)); [done|]. by intros [= _ <-]. Qed.

(** The Services after a pass that succeeded. *)
Lemma services_written (v : Valkey Q) client s s' u :
  reconcileServices apply v client s = (Ok u, s') →
  let labels := ownedLabels (v_Name v) componentValkey in
  let port := {| sv_PortName := "valkey"; sv_Port := defaultValkeyPort; sv_TargetPort := Some defaultValkeyPort |} in
  s' !! ("Service", v_Name v) = Some (owned v componentValkey (v_Name v)
    (service (serviceType (se_ServiceType client)) false (mergeMaps labels {[RoleLabel := roleValuePrimary]}) false
       (se_SourceRanges client) port)) ∧
  s' !! ("Service", v_Name v +:+ "-ro") = Some (owned v componentValkey (v_Name v +:+ "-ro")
    (service TypeClusterIP false (mergeMaps labels {[RoleLabel := roleValueReplica]}) false [] port)) ∧
  s' !! ("Service", v_Name v +:+ "-headless") = Some (owned v componentValkey (v_Name v +:+ "-headless")
    (service TypeClusterIP true labels true [] port)).
Proof.
  cbv zeta. unfold reconcileServices. cbv zeta. intros H.
  apply bind_ok in H as (? & s1 & [_ ->]%applying_inv & H).
  apply bind_ok in H as (? & s2 & [_ ->]%applying_inv & H). apply applying_inv in H as [_ ->].
  unfold key, owned, service. cbn [ob_Spec ob_Name kind].
  assert (Hh : v_Name v ≠ v_Name v +:+ "-headless") by (by apply name_suffix).
  assert (Hr : v_Name v ≠ v_Name v +:+ "-ro") by (by apply name_suffix).
  assert (Hrh : v_Name v +:+ "-ro" ≠ v_Name v +:+ "-headless").
  { intros E. apply (f_equal String.length) in E. rewrite !str_length_app in E. cbn in E. lia. }
  split_and!.
  - rewrite !lookup_insert_ne by congruence. apply lookup_insert_eq.
  - rewrite lookup_insert_ne by congruence. apply lookup_insert_eq.
  - apply lookup_insert_eq.
Qed.

(** C15: Where clients are sent.  Once the Services are applied, the write Service of a CR
    selects exactly its data pods labelled primary, the read Service exactly those labelled
    replica, the headless Service all of them; no pod is behind both of the first two, and
    none of the three selects a sentinel or a pod of another CR. *)
Theorem services_route (v : Valkey Q) client s s' u :
  reconcileServices apply v client s = (Ok u, s') →
  ∃ w r h, (∃ o, s' !! ("Service", v_Name v) = Some o ∧ ob_Spec o = SService w) ∧
    (∃ o, s' !! ("Service", v_Name v +:+ "-ro") = Some o ∧ ob_Spec o = SService r) ∧
    (∃ o, s' !! ("Service", v_Name v +:+ "-headless") = Some o ∧ ob_Spec o = SService h) ∧
  ∀ L : gmap string string,
    let member := selects (ownedLabels (v_Name v) componentValkey) L in
    selects (sv_Selector w) L = member && bool_decide (L !! RoleLabel = Some roleValuePrimary) ∧
    selects (sv_Selector r) L = member && bool_decide (L !! RoleLabel = Some roleValueReplica) ∧
    selects (sv_Selector h) L = member ∧
    (selects (sv_Selector w) L = true → selects (sv_Selector r) L = false) ∧
    (L !! ComponentLabel = Some componentSentinel ∨ L !! CRLabel ≠ Some (v_Name v) → member = false).
Proof.
  intros H. destruct (services_written v client s s' u H) as (Hw & Hr & Hh).
  eexists _, _, _. split; [by eexists|]. split; [by eexists|]. split; [by eexists|].
  intros L. cbv zeta. cbn [sv_Selector]. rewrite !selects_union by apply role_not_owned. rewrite !selects_singleton.
  split_and!; [done..| |].
  - intros [_ E]%andb_prop. apply bool_decide_eq_true in E. by rewrite E, andb_false_r.
  - intros Hl. apply not_true_iff_false. intros E.
    pose proof (owned_component _ _ _ ComponentLabel componentValkey E eq_refl) as Hc.
    pose proof (owned_component _ _ _ CRLabel (v_Name v) E) as Hn.
    destruct Hl as [Hl|Hl]; [by rewrite Hc in Hl|]. apply Hl, Hn.
    unfold ownedLabels. cbn [list_to_map foldr]. rewrite !lookup_insert_ne by done. by rewrite lookup_insert_eq.
Qed.

(** ** The disruption budget *)
Definition budget_of (s : cluster Q) (name : string) : option PodDisruptionBudget :=
  match s !! ("PodDisruptionBudget", name +:+ suffixClusterPDB) with
  | Some {| ob_Spec := SPDB b |} => Some b
  | _ => None
  end.
(** The disruption controller's arithmetic, for a whole number. *)
Definition disruptions_allowed (b : PodDisruptionBudget) (healthy : Z) : option Z :=
  match pdb_MinAvailable b, pdb_MaxUnavailable b with
  | Some (FromInt32 k), None => Some (Z.max 0 (healthy - k))
  | _, _ => None
  end.

Lemma budget_written (v : Valkey Q) pdb s s' u :
  1 < v_Replicas v → reconcilePDB apply v pdb s = (Ok u, s') →
  budget_of s' (v_Name v) = Some
    match pdb with
    | Some {| MaxUnavailable := Some x |} =>
        {| pdb_Selector := <[CRLabel := v_Name v]> {[ComponentLabel := componentValkey]}; pdb_MinAvailable := None; pdb_MaxUnavailable := Some x |}
    | Some {| MinAvailable := Some x |} =>
        {| pdb_Selector := <[CRLabel := v_Name v]> {[ComponentLabel := componentValkey]}; pdb_MinAvailable := Some x; pdb_MaxUnavailable := None |}
    | _ => {| pdb_Selector := <[CRLabel := v_Name v]> {[ComponentLabel := componentValkey]};
              pdb_MinAvailable := Some (FromInt32 (v_Replicas v - 1)); pdb_MaxUnavailable := None |}
    end.
Proof.
  intros Hr H. unfold reconcilePDB in H. destruct (Z.leb_spec (v_Replicas v) 1); [lia|].
  cbv zeta in H. apply applying_inv in H as [_ ->]. unfold budget_of.
  destruct pdb as [[[x|] [y|]]|]; cbn [owned key ob_Spec ob_Name kind]; by rewrite lookup_insert_eq.
Qed.

(** The disruption budget counts the same pods whatever their role.  After a pass that
    succeeded, a CR with two or more pods has a budget that sets exactly one of its two
    bounds (the user's, or one pod fewer than the replicas), and whether it counts a pod
    does not change when the pod's role label is stripped, stamped or moved: a fail-over opens
    no window in which the budget protects nothing. *)
Theorem budget_role_free (v : Valkey Q) pdb s s' u :
  1 < v_Replicas v → reconcilePDB apply v pdb s = (Ok u, s') →
  ∃ b, budget_of s' (v_Name v) = Some b ∧
    (pdb_MinAvailable b = None ↔ is_Some (pdb_MaxUnavailable b)) ∧
    (pdb = None → disruptions_allowed b (v_Replicas v) = Some 1) ∧
    ∀ (L : gmap string string) r,
      selects (pdb_Selector b) (<[RoleLabel := r]> L) = selects (pdb_Selector b) L ∧
      selects (pdb_Selector b) (delete RoleLabel L) = selects (pdb_Selector b) L.
Proof.
  intros Hr H. rewrite (budget_written v pdb s s' u Hr H). eexists. split; [done|].
  assert (Hsel : ∀ b : PodDisruptionBudget, pdb_Selector b = <[CRLabel := v_Name v]> {[ComponentLabel := componentValkey]} →
    ∀ (L : gmap string string) r, selects (pdb_Selector b) (<[RoleLabel := r]> L) = selects (pdb_Selector b) L ∧
      selects (pdb_Selector b) (delete RoleLabel L) = selects (pdb_Selector b) L).
  { intros b -> L r. rewrite !selects_insert, !selects_singleton by done.
    by rewrite !lookup_insert_ne, !lookup_delete_ne by done. }
  split; [|split; [intros ->; unfold disruptions_allowed; cbn; f_equal; lia|apply Hsel]];
    destruct pdb as [[[x|] [y|]]|]; cbn; try done; split; intros; (done || by destruct H0 || eauto).
Qed.

(** ** What the budget does not follow *)
(** An update that changes the number of replicas and nothing else. *)
Definition scaled (n : Z) (o : ApiTypes.Valkey Q) : ApiTypes.Valkey Q :=
  {| o_Name := o_Name o; o_Namespace := o_Namespace o; o_Labels := o_Labels o; o_Annotations := o_Annotations o;
     Spec := set_valkey (λ p,
       {| ApiTypes.v_Replicas := n; v_Resources := v_Resources p; v_Persistent := v_Persistent p;
          v_LivenessProbe := v_LivenessProbe p; v_ReadinessProbe := v_ReadinessProbe p;
          v_ReadinessGate := v_ReadinessGate p; v_Affinity := v_Affinity p; v_PodAnnotations := v_PodAnnotations p;
          v_PodLabels := v_PodLabels p; v_Configuration := v_Configuration p;
          v_ConfigurationOverrides := v_ConfigurationOverrides p; v_PDB := v_PDB p;
          v_MinReplicasToWrite := v_MinReplicasToWrite p; v_MinReplicasMaxLag := v_MinReplicasMaxLag p |}) (Spec o) |}.
Definition valkey_pdb (o : ApiTypes.Valkey Q) : option PDBSpec := v_PDB (sp_Valkey (Spec o)).

Lemma default_pdb request (o : ApiTypes.Valkey Q) :
  ApiTypes.v_Replicas (sp_Valkey (Spec o)) ≠ 0 →
  valkey_pdb (Default MustParse request o) = derived_pdb (ApiTypes.v_Replicas (sp_Valkey (Spec o))) (valkey_pdb o).
Proof.
  intros H. unfold valkey_pdb, Default, ApplySpecDefaults. cbv zeta. cbn [Spec o_Name].
  destruct (apply_defaults_fields MustParse (o_Name o) (Spec o)) as (_ & _ & -> & _).
  unfold defaulted_valkey. cbv zeta. cbn [v_PDB]. unfold or_int. by rewrite (proj2 (Z.eqb_neq _ _) H).
Qed.

Lemma scaled_pdb n (o : ApiTypes.Valkey Q) : valkey_pdb (scaled n o) = valkey_pdb o.
Proof. done. Qed.
Lemma scaled_replicas n (o : ApiTypes.Valkey Q) : ApiTypes.v_Replicas (sp_Valkey (Spec (scaled n o))) = n.
Proof. done. Qed.

(** The default budget is frozen at the first size.  Admission writes the derived
    minimum into the CR ([spec.valkey.pdb]); a later change of the replicas finds it set and
    keeps it, although it is documented as the default "replicas - 1".  A CR created with [n]
    pods and scaled to [m] keeps the minimum [n - 1]: with fewer pods no eviction is ever
    allowed and node drains block, with more pods more than one may be evicted at a time. *)
Theorem derived_budget_frozen request request' (o : ApiTypes.Valkey Q) (v : Valkey Q) n m s s' u :
  ApiTypes.v_Replicas (sp_Valkey (Spec o)) = n → 2 <= n → 2 <= m → valkey_pdb o = None →
  v_Replicas v = m →
  reconcilePDB apply v (valkey_pdb (Default MustParse request' (scaled m (Default MustParse request o)))) s = (Ok u, s') →
  ∃ b, budget_of s' (v_Name v) = Some b ∧ disruptions_allowed b m = Some (Z.max 0 (m - (n - 1))).
Proof.
  intros Hn Hn2 Hm Hnone Hv H.
  assert (Hp : valkey_pdb (Default MustParse request' (scaled m (Default MustParse request o))) =
               Some {| MinAvailable := Some (FromInt32 (n - 1)); MaxUnavailable := None |}).
  { rewrite default_pdb by (rewrite scaled_replicas; lia). rewrite scaled_replicas, scaled_pdb.
    rewrite default_pdb by lia. rewrite Hn, Hnone.
    unfold derived_pdb. rewrite !(proj2 (Z.leb_le 2 _)) by lia. cbn [or_nil]. by rewrite Z.max_r by lia. }
  rewrite Hp in H. apply budget_written in H; [|lia]. by eexists.
Qed.

(** At one replica the budget is neither written nor removed: the one of the larger
    cluster stays. *)
Theorem budget_survives_scale_in (v : Valkey Q) pdb s :
  v_Replicas v <= 1 → reconcilePDB apply v pdb s = (Ok tt, s).
Proof. intros H. unfold reconcilePDB. by rewrite (proj2 (Z.leb_le _ _)). Qed.

(** [Headless] yields an ordinary ClusterIP Service. *)
Theorem headless_ignored (v : Valkey Q) client s s' u :
  se_ServiceType client = "Headless" → reconcileServices apply v client s = (Ok u, s') →
  ∃ o w, s' !! ("Service", v_Name v) = Some o ∧ ob_Spec o = SService w ∧ sv_ClusterIPNone w = false.
Proof.
  intros _ H. destruct (services_written v client s s' u H) as (Hw & _). eexists _, _. split; [exact Hw|]. by split.
Qed.

(** ** From a configuration change to a roll *)
Lemma config_maps_written (v : Valkey Q) i script s s' h :
  reconcileConfigMaps apply v i script s = (Ok h, s') →
  h = config_hash (Render i) script ∧
  ∃ o c, s' !! ("ConfigMap", v_Name v +:+ suffixValkeyConf) = Some o ∧ ob_Spec o = SConfigMap c ∧
    cm_Data c !! "valkey.conf" = Some (Render i) ∧ cm_Annotations c !! ConfigHashAnnotation = Some h.
Proof.
  unfold reconcileConfigMaps, config_maps. cbv zeta. intros H.
  apply bind_ok in H as (? & s1 & [_ ->]%applying_inv & H).
  apply bind_ok in H as (? & s2 & [_ ->]%applying_inv & H). injection H as <- <-. split; [done|].
  eexists _, _. unfold key, owned. cbn [ob_Spec ob_Name kind]. split.
  { rewrite lookup_insert_ne; [apply lookup_insert_eq|]. intros [= E].
    apply (f_equal String.length) in E. rewrite !str_length_app in E. cbn in E. lia. }
  split; [done|]. split; apply lookup_singleton_eq.
Qed.

(** The byte between the two parts keeps them apart: equal hash inputs come from equal
    parts, as long as the configuration has no NUL byte. *)
Lemma hash_input_injective c c' t t' :
  ContainsNUL c = false → ContainsNUL c' = false →
  c +:+ String NUL "" +:+ t = c' +:+ String NUL "" +:+ t' → c = c' ∧ t = t'.
Proof.
  unfold ContainsNUL. revert c'. induction c as [|a c IH]; intros [|a' c'] Hc Hc' E.
  - by injection E.
  - rewrite has_byte_cons in Hc'. apply orb_false_iff in Hc' as [Hb _]. apply bool_decide_eq_false_1 in Hb.
    by injection E as <- _.
  - rewrite has_byte_cons in Hc. apply orb_false_iff in Hc as [Hb _]. apply bool_decide_eq_false_1 in Hb.
    by injection E as -> _.
  - rewrite has_byte_cons in Hc, Hc'. apply orb_false_iff in Hc as [_ Hc], Hc' as [_ Hc'].
    rewrite !str_app_cons in E. injection E as <- E. destruct (IH c' Hc Hc' E) as [-> ->]. done.
Qed.

(** An update of the replicas or of the volume. *)
Definition resized (n : Z) (p : option (PersistenceSpec Q)) (v : Valkey Q) : Valkey Q :=
  {| v_Name := v_Name v; v_Namespace := v_Namespace v; v_UID := v_UID v; v_Annotations := v_Annotations v;
     v_Mode := v_Mode v; v_Image := v_Image v; v_Replicas := n; v_Persistence := p; v_GateEnabled := v_GateEnabled v;
     v_Pod := v_Pod v; v_Sentinel := v_Sentinel v; v_Auth := v_Auth v; v_Metrics := v_Metrics v |}.

Lemma template_of (v : Valkey Q) h t :
  buildValkeySTS MustParse v h = Some t →
  pt_Annotations (ss_Template t) = templateAnnotations v h (p_PodAnnotations (v_Pod v)).
Proof.
  unfold buildValkeySTS. destruct (buildValkeyContainer MustParse v); [|done]. cbn. by intros [= <-].
Qed.

Lemma template_resized (v : Valkey Q) n p h t :
  (is_Some p ↔ is_Some (v_Persistence v)) → buildValkeySTS MustParse v h = Some t →
  ss_Template <$> buildValkeySTS MustParse (resized n p v) h = Some (ss_Template t).
Proof.
  intros Hp. assert (Hv : buildValkeyVolumes (resized n p v) = buildValkeyVolumes v).
  { unfold buildValkeyVolumes. cbn [v_Persistence resized v_Name]. destruct p, (v_Persistence v); try done; exfalso.
    - by destruct (proj1 Hp ltac:(eauto)).
    - by destruct (proj2 Hp ltac:(eauto)). }
  unfold buildValkeySTS. cbv zeta. rewrite Hv.
  change (buildValkeyContainer MustParse (resized n p v)) with (buildValkeyContainer MustParse v).
  destruct (buildValkeyContainer MustParse v) as [c|]; [|done]. cbn [mbind option_bind]. intros [= <-]. reflexivity.
Qed.

(** C17: The pods are rolled when their configuration changes, and not by a resize.  Take two
    passes that rendered configurations without a NUL byte, for CRs whose pod annotations
    were admitted (none is reserved), and assume that SHA-256 does not collide on the two
    inputs at hand.  If the configurations or the init scripts differ, the StatefulSet gets
    different pod templates, which is what starts a roll, and so it does if the CR's values of
    the roll-out annotation that are stamped on the template differ.  With every other field of
    the CR as built from left alone, another number of replicas, or another size or class of a
    volume that stays, leaves the template as it is.  (Other fields, such as the image, change
    it too; and admission may set the anti-affinity of a CR when its replicas change, before
    the CR is built from.) *)
Theorem config_change_rolls {R : MapRange} (v v' : Valkey Q) i i' script script' s s1 s2 s3 h h' t t' parent :
  reconcileConfigMaps apply v i script s = (Ok h, s1) → reconcileConfigMaps apply v' i' script' s2 = (Ok h', s3) →
  buildValkeySTS MustParse v h = Some t → buildValkeySTS MustParse v' h' = Some t' →
  validateReservedAnnotations parent (p_PodAnnotations (v_Pod v)) = [] →
  validateReservedAnnotations parent (p_PodAnnotations (v_Pod v')) = [] →
  ContainsNUL (Render i) = false → ContainsNUL (Render i') = false →
  (let input c t := c +:+ String NUL "" +:+ t in
   sha256_hex (input (Render i) script) = sha256_hex (input (Render i') script') →
   input (Render i) script = input (Render i') script') →
  (Render i ≠ Render i' ∨ script ≠ script' → ss_Template t ≠ ss_Template t') ∧
  (stamp (default "" (v_Annotations v !! ManualRolloutAnnotation)) ≠
   stamp (default "" (v_Annotations v' !! ManualRolloutAnnotation)) → ss_Template t ≠ ss_Template t') ∧
  (∀ n p, is_Some p ↔ is_Some (v_Persistence v) → ss_Template <$> buildValkeySTS MustParse (resized n p v) h = Some (ss_Template t)).
Proof.
  intros H H' Ht Ht' Ha Ha' Hn Hn' Hsha.
  apply config_maps_written in H as [-> _]. apply config_maps_written in H' as [-> _].
  destruct (template_annotations R parent v (config_hash (Render i) script) _ Ha) as [Hh Hg].
  destruct (template_annotations R parent v' (config_hash (Render i') script') _ Ha') as [Hh' Hg'].
  rewrite <- (template_of v _ t Ht) in Hh, Hg. rewrite <- (template_of v' _ t' Ht') in Hh', Hg'.
  split_and!.
  - intros Hd E. rewrite E, Hh' in Hh. injection Hh as Hh. symmetry in Hh. apply Hsha in Hh.
    destruct (hash_input_injective _ _ _ _ Hn Hn' Hh) as [E1 E2]. by destruct Hd as [Hd|Hd]; apply Hd.
  - intros Hd E. apply Hd. by rewrite <- Hg, <- Hg', E.
  - intros n p Hp. by apply template_resized.
Qed.
End facts.

(** ** Witnesses *)
Definition demo_endpoint (t : string) : ServiceEndpoint :=
  {| se_ServiceType := t; se_Annotations := ∅; se_SourceRanges := []; se_ExternalTrafficPolicy := "" |}.
Definition demo_cr : Valkey string := demo_valkey ModeSentinel.
Definition all_ok (_ : string * string) : option api_error := None.
Definition demo_services (t : string) : cluster string := snd (reconcileServices all_ok demo_cr (demo_endpoint t) ∅).

Lemma services_route_witness :
  ∃ w r h, (∃ o, demo_services "ClusterIP" !! ("Service", "demo") = Some o ∧ ob_Spec o = SService w) ∧
    (∃ o, demo_services "ClusterIP" !! ("Service", "demo-ro") = Some o ∧ ob_Spec o = SService r) ∧
    (∃ o, demo_services "ClusterIP" !! ("Service", "demo-headless") = Some o ∧ ob_Spec o = SService h) ∧
  ∀ L : gmap string string,
    let member := selects (ownedLabels "demo" componentValkey) L in
    selects (sv_Selector w) L = member && bool_decide (L !! RoleLabel = Some roleValuePrimary) ∧
    selects (sv_Selector r) L = member && bool_decide (L !! RoleLabel = Some roleValueReplica) ∧
    selects (sv_Selector h) L = member ∧
    (selects (sv_Selector w) L = true → selects (sv_Selector r) L = false) ∧
    (L !! ComponentLabel = Some componentSentinel ∨ L !! CRLabel ≠ Some "demo" → member = false).
Proof. apply (services_route all_ok demo_cr (demo_endpoint "ClusterIP") ∅ (demo_services "ClusterIP") tt). reflexivity. Defined.

Definition demo_budget (pdb : option PDBSpec) : cluster string := snd (reconcilePDB all_ok demo_cr pdb ∅).
Lemma budget_role_free_witness :
  ∃ b, budget_of (demo_budget None) "demo" = Some b ∧
    (pdb_MinAvailable b = None ↔ is_Some (pdb_MaxUnavailable b)) ∧
    ((None : option PDBSpec) = None → disruptions_allowed b 3 = Some 1) ∧
    ∀ (L : gmap string string) r,
      selects (pdb_Selector b) (<[RoleLabel := r]> L) = selects (pdb_Selector b) L ∧
      selects (pdb_Selector b) (delete RoleLabel L) = selects (pdb_Selector b) L.
Proof. apply (budget_role_free all_ok demo_cr None ∅ (demo_budget None) tt); [reflexivity|reflexivity]. Defined.

(** Created with five pods, scaled to three. *)
Definition demo_five : ApiTypes.Valkey Z :=
  scaled 5 {| o_Name := "demo"; o_Namespace := "prod"; o_Labels := ∅; o_Annotations := ∅;
     Spec := {| sp_Mode := ModeSentinel;
       sp_Image := {| im_Valkey := image_zero; im_Sentinel := image_zero; im_Exporter := image_zero |};
       sp_Valkey := {| ApiTypes.v_Replicas := 0; v_Resources := {| Requests := None; Limits := None |}; v_Persistent := true;
         v_LivenessProbe := None; v_ReadinessProbe := None; v_ReadinessGate := {| rg_Enabled := None; rg_MaxLagBytes := None |};
         v_Affinity := None; v_PodAnnotations := ∅; v_PodLabels := ∅; v_Configuration := ""; v_ConfigurationOverrides := ∅;
         v_PDB := None; v_MinReplicasToWrite := None; v_MinReplicasMaxLag := None |};
       sp_Sentinel := None; sp_Metrics := {| m_Enabled := None; m_PodMonitor := {| pm_Enabled := None; ScrapeInterval := "" |} |};
       sp_Rollout := {| ro_MaxUnavailable := 0; FailoverGracePeriodSeconds := 0; ReplicaReadyTimeoutSeconds := 0; ro_MaxLagBytes := 0 |};
       sp_FeatureGates := ∅ |} |}.
Definition demo_cr_Z : Valkey Z :=
  {| v_Name := "demo"; v_Namespace := "prod"; v_UID := "u-1"; v_Annotations := ∅; v_Mode := ModeSentinel;
     v_Image := {| im_Valkey := image_zero; im_Sentinel := image_zero; im_Exporter := image_zero |}; v_Replicas := 3;
     v_Persistence := None; v_GateEnabled := None;
     v_Pod := {| p_Resources := {| res_Requests := None; res_Limits := None; res_Claims := [] |}; p_LivenessProbe := None;
       p_ReadinessProbe := None; p_Affinity := None; p_Tolerations := []; p_NodeSelector := ∅;
       p_TopologySpreadConstraints := []; p_PriorityClassName := ""; p_DNSConfig := None; p_PodAnnotations := ∅;
       p_PodLabels := ∅; p_SecurityContext := None |};
     v_Sentinel := None; v_Auth := None;
     v_Metrics := {| me_Enabled := None; me_Resources := {| res_Requests := None; res_Limits := None; res_Claims := [] |} |} |}.
Definition demo_frozen : cluster Z :=
  snd (reconcilePDB all_ok demo_cr_Z
    (valkey_pdb (Default (λ _, 0) None (scaled 3 (Default (λ _, 0) None demo_five)))) ∅).
Lemma derived_budget_frozen_witness :
  ∃ b, budget_of demo_frozen "demo" = Some b ∧ disruptions_allowed b 3 = Some 0.
Proof.
  apply (derived_budget_frozen (λ _, 0) all_ok None None demo_five demo_cr_Z 5 3 ∅ demo_frozen tt); try reflexivity; lia.
Defined.

Lemma budget_survives_scale_in_witness :
  reconcilePDB all_ok (resized 1 None demo_cr_Z) None demo_frozen = (Ok tt, demo_frozen).
Proof. apply (budget_survives_scale_in all_ok (resized 1 None demo_cr_Z)). cbn. lia. Defined.
Lemma headless_ignored_witness :
  ∃ o w, demo_services "Headless" !! ("Service", "demo") = Some o ∧ ob_Spec o = SService w ∧ sv_ClusterIPNone w = false.
Proof. apply (headless_ignored all_ok demo_cr (demo_endpoint "Headless") ∅ (demo_services "Headless") tt); reflexivity. Defined.

(** Two settings of one directive. *)
Definition demo_conf (x : string) : Inputs := demo_inputs "maxmemory" x.
Definition demo_sts_of (x : string) : option (StatefulSet string) :=
  buildValkeySTS id demo_cr (config_hash (Render (demo_conf x)) "sh").
Lemma config_change_rolls_witness :
  match demo_sts_of "1gb", demo_sts_of "2gb" with
  | Some t, Some t' => ss_Template t ≠ ss_Template t'
  | _, _ => False
  end.
Proof.
  destruct (demo_sts_of "1gb") as [t|] eqn:Et; [|discriminate]. destruct (demo_sts_of "2gb") as [t'|] eqn:Et'; [|discriminate].
  refine (proj1 (config_change_rolls (R:=range_forward) id all_ok demo_cr demo_cr (demo_conf "1gb") (demo_conf "2gb")
            "sh" "sh" ∅ _ ∅ _ _ _ t t' "podAnnotations" eq_refl eq_refl Et Et' _ _ _ _ _) _).
  - vm_compute. reflexivity.
  - vm_compute. reflexivity.
  - vm_compute. reflexivity.
  - vm_compute. reflexivity.
  - cbv zeta. intros H. vm_compute in H. discriminate H.
  - left. intros H. vm_compute in H. discriminate H.
Defined.
