(* ===== verification/SentinelPhase.v ===== *)
(** * Phase 11: the sentinel orchestration of a pass

    [reconcileSentinelOrchestration] of [internal/controller/valkey_controller.go] runs the
    sentinel side of a reconcile in one fixed order: the SentinelQuorum records, the observer
    of the CR, the suppression gate, the probe of the labelled primary, the repair of
    stranded sentinels, the hand-off of the primary, the records' status and the topology
    check.  Each of them is a definition of its own file; here they are composed over the state
    they share, with the gate's flag feeding the predicate that the repair consults. *)
From S2P Require Import Prelude GoStd Resp Fsm SentinelParse Observer SentinelWire Surgery Status DeriveState LagChecker PrimaryRollout RoleLabels OrphanMaster ObserverManager QuorumGate Recovery ReadinessGate SQRecords.
Local Open Scope Z_scope.

Record phase_in := {
  x_observer : bool;                           (* [r.SentinelObserver != nil] *)
  x_list : result (list Pod);                  (* the sentinel pods *)
  x_applySQ : string → option string;
  x_nowEnsure : Time;
  x_gateSnap : Snapshot;
  x_nowGate : Time;
  x_nowGate2 : Time;
  x_check : string → option LagState;          (* INFO of the labelled primary *)
  x_nowProbe : Time;
  x_predSnap : option Snapshot;                (* what the deferral predicate reads *)
  x_predNow : Time;
  x_recovery : recovery_in;
  x_dispatch : dispatch_in;
  x_obs : option (list EndpointObservation);
  x_applyStatus : string → option string;
  x_topoObs : list EndpointObservation;
  x_topoSnap : option Snapshot;
  x_nowTopo : Time;
  x_nowTopoLatch : Time
}.

(** What the phase changes. *)
Record phase_state := {
  f_ctl : ctl;
  f_mgr : mgr;
  f_rec : rec_state;
  f_sq : sq_store;
  f_cache : sq_cache
}.
Inductive phase_effect : Type := EffGate (e : gate_effect) | EffRecover (c : rec_cmd) | EffRollout (e : effect).

Definition set_ctl (c : ctl) (s : phase_state) : phase_state :=
  {| f_ctl := c; f_mgr := f_mgr s; f_rec := f_rec s; f_sq := f_sq s; f_cache := f_cache s |}.
Definition set_mgr (m : mgr) (s : phase_state) : phase_state :=
  {| f_ctl := f_ctl s; f_mgr := m; f_rec := f_rec s; f_sq := f_sq s; f_cache := f_cache s |}.
Definition set_sq (q : sq_store) (s : phase_state) : phase_state :=
  {| f_ctl := f_ctl s; f_mgr := f_mgr s; f_rec := f_rec s; f_sq := q; f_cache := f_cache s |}.
Definition set_q (q : crQuorumState) (r : rec_state) : rec_state :=
  {| rs_q := q; rs_dual := rs_dual r; rs_surgery := rs_surgery r |}.

(** The suppression flag is a field of the per-CR memory: [s.quorum.suppressionActive]. *)
Definition set_suppressed (b : bool) (s : perCRState) : perCRState :=
  {| failoverLatch := failoverLatch s; lastState := lastState s; lastWasReplicasRolled := lastWasReplicasRolled s;
     lastWasPending := lastWasPending s; lastTarget := lastTarget s; switchMasterEdge := switchMasterEdge s;
     DeriveState.suppressionActive := b; manualRollout := manualRollout s |}.
Definition with_predicate (p : observerKey → bool) (m : surgery_state) : surgery_state :=
  {| deferralPredicate := Some p; ghostSeen := ghostSeen m; AuthRetryAttempts := AuthRetryAttempts m |}.

(** [Manager.Ensure] as its caller sees it: the locked part, the registration of the
    password, and the old observer stopped and released. *)
Definition EnsureCall (cr : observerKey) (masterName password : string) (endpoints : list Endpoint) (now : Time) (m : mgr) :
    option string * mgr :=
  match Ensure cr masterName password endpoints now m with
  | (Some e, m) => (Some e, m)
  | (None, m) =>
      match installing m with
      | None => (None, m)
      | Some (o, prev) =>
          let m := EnsureRegister o prev m in
          (None, match prev with Some h => Release h (Stop h m) | None => m end)
      end
  end.

(** The arguments the hand-off is called with. *)
Definition call_with (masterName password : string) (endpoints : list Endpoint) (d : dispatch_in) : dispatch_in :=
  {| d_observer := d_observer d; d_nowStale := d_nowStale d; d_nowLatch := d_nowLatch d;
     d_nowDeadline := d_nowDeadline d; d_nowCooldown := d_nowCooldown d; d_list := d_list d; d_lag := d_lag d;
     d_persist := d_persist d; d_strip := d_strip d; d_restore := d_restore d; d_clear := d_clear d;
     d_master := masterName; d_password := password; d_endpoints := endpoints; d_dial := d_dial d |}.

Definition recordAll (recorder : bool) (l : list event) (c : ctl) : ctl :=
  if recorder then foldl (λ c e, record e c) c l else c.

Section phase.
Context {R : MapRange} {M : MetaTime} (FSM : option (list Transition)) (recorder : bool) (tunables : QuorumSuppressionTunables).
Context (cr : CRSpec) (name namespace uid password : string) (spec : option SentinelSpec).
Let key : observerKey := (namespace, name).

(** The gate and the probe, which the rest of the pass reads. *)
Definition gate_and_probe (valkeyPods : list Pod) (i : phase_in) (q : crQuorumState) : crQuorumState * list gate_effect :=
  let '(q, gfx) := updateQuorumSuppressionGate tunables recorder (x_gateSnap i) (x_nowGate i) (x_nowGate2 i) q in
  let '(_, q) := observeMasterInfoTimeout (x_check i) (x_nowProbe i) valkeyPods q in
  (q, gfx).
(** The repair, with the predicate the manager was given at start-up. *)
Definition repair (endpoints : list Endpoint) (i : phase_in) (q : crQuorumState) (p : perCRState) (r : rec_state) : rec_out :=
  detectAndRecoverStrandedSentinels recorder spec key password p (x_recovery i) endpoints
    {| ro_state := {| rs_q := q; rs_dual := rs_dual r;
                      rs_surgery := with_predicate (λ _, DeferralPredicate (x_predSnap i) (x_predNow i) p) (rs_surgery r) |};
       ro_events := []; ro_cmds := [] |}.

(** From the suppression gate on: the endpoints are known and the observer runs. *)
Definition orchestrate (st : State) (sen : SentinelSpec) (pods valkeyPods : list Pod) (endpoints : list Endpoint)
    (i : phase_in) (s : phase_state) : phase_state * list phase_effect :=
  let '(q, gfx) := gate_and_probe valkeyPods i (rs_q (f_rec s)) in
  let p := set_suppressed (QuorumGate.suppressionActive (q_gate q)) (percr (f_ctl s)) in
  let c := set_percr p (f_ctl s) in
  let o := repair endpoints i q p (f_rec s) in
  let c := recordAll recorder (ro_events o) c in
  let '(_, (c, dfx)) := runPrimaryRolloutDispatch FSM recorder cr st
                      (call_with (sen_MasterName sen) password endpoints (x_dispatch i)) c in
  let '(_, cache, sq) := reconcileSentinelQuorumStatus (x_obs i) pods valkeyPods (x_applyStatus i) (f_cache s) (f_sq s) in
  let '(q, tev) := observeSentinelTopology recorder st sen (spec_Replicas cr) (x_topoObs i)
                     (IsFailoverInFlight (x_topoSnap i) (x_nowTopoLatch i) (percr c)) (x_nowTopo i) endpoints valkeyPods
                     (rs_q (ro_state o)) in
  ({| f_ctl := recordAll recorder tev c; f_mgr := f_mgr s; f_rec := set_q q (ro_state o); f_sq := sq; f_cache := cache |},
   (EffGate <$> gfx) ++ (EffRecover <$> ro_cmds o) ++ (EffRollout <$> dfx)).

Definition reconcileSentinelOrchestration (st : State) (valkeyPods : list Pod) (i : phase_in) (s : phase_state) :
    phase_state * list phase_effect :=
  if negb (bool_decide (spec_Mode cr = ModeSentinel)) || negb (x_observer i) then (s, [])
  else match spec with
  | None => (s, [])
  | Some sen =>
      if bool_decide (sen_MasterName sen = "") then (s, [])
      else match x_list i with
      | Err _ => (s, [])
      | Ok [] => (s, [])
      | Ok pods =>
          let s := set_ctl (warnOnSameNodeColocation recorder pods "sentinel" (f_ctl s)) s in
          let s := set_sq (reconcileSentinelQuorums name uid (x_applySQ i) pods (f_sq s)).2 s in
          let endpoints := sentinelEndpointsFromPodList pods in
          if bool_decide (endpoints = []) then (s, [])
          else match EnsureCall key (sen_MasterName sen) password endpoints (x_nowEnsure i) (f_mgr s) with
          | (Some _, m) => (set_mgr m s, [])
          | (None, m) => orchestrate st sen pods valkeyPods endpoints i (set_mgr m s)
          end
      end
  end.
End phase.

(** ** Lemmas *)
Lemma warn_percr {R : MapRange} recorder pods comp c : percr (warnOnSameNodeColocation recorder pods comp c) = percr c.
Proof.
  unfold warnOnSameNodeColocation. destruct (_ <? _); [done|]. generalize (range_of (node_counts pods)) as l. intros l.
  revert c. induction l as [|[node n] l IH]; intros c; [done|]. cbn [foldl]. rewrite IH.
  destruct (n <? 2)%nat; [done|]. unfold recordEventf. by destruct recorder.
Qed.
(** The failover latch is all that the test reads. *)
Lemma in_flight_frame snap now p p' :
  failoverLatch p = failoverLatch p' → lastState p = lastState p' →
  IsFailoverInFlight snap now p = IsFailoverInFlight snap now p'.
Proof. intros H1 H2. unfold IsFailoverInFlight, failoverLatchActivePure. by rewrite H1, H2. Qed.

(** What the steps before the surgery leave alone: the gate and the surgery's own state. *)
Definition same_gate (o o' : rec_out) : Prop :=
  q_gate (rs_q (ro_state o')) = q_gate (rs_q (ro_state o)) ∧ rs_surgery (ro_state o') = rs_surgery (ro_state o).
Lemma dual_same_gate recorder percr i at_ survey o : same_gate o (observeDualMasterFromSurvey recorder percr i at_ survey o).
Proof. unfold observeDualMasterFromSurvey, foldDualMasterEventUnion. by repeat case_match. Qed.
Lemma promote_same_gate recorder spec password percr i survey eps o :
  same_gate o (maybeRecoveryPromote recorder spec password percr i survey eps o).
Proof. unfold maybeRecoveryPromote, issueRecoveryPromotion. cbv zeta. by repeat case_match. Qed.
Lemma loss_same_gate recorder spec password percr i survey eps o :
  same_gate o (maybeRecoveryPromoteOnQuorumLoss recorder spec password percr i survey eps o).
Proof.
  unfold maybeRecoveryPromoteOnQuorumLoss. cbv zeta. destruct (negb _); [done|]. destruct (_ <? _); [done|].
  destruct (match survey with Some s => dialed s | None => false end).
  - match goal with |- same_gate _ (maybeRecoveryPromote _ _ _ _ _ ?sv _ ?o') =>
      destruct (promote_same_gate recorder spec password percr i sv eps o') as [H1 H2] end.
    by rewrite H1, H2 || (split; [by rewrite H1|by rewrite H2]).
  - destruct (r_forcedList i) as [pods|]; [|done].
    match goal with |- same_gate _ (maybeRecoveryPromote _ _ _ _ _ ?sv _ (observeDualMasterFromSurvey _ _ _ _ _ ?o')) =>
      destruct (promote_same_gate recorder spec password percr i sv eps (observeDualMasterFromSurvey recorder percr i SiteForced sv o')) as [H1 H2];
      destruct (dual_same_gate recorder percr i SiteForced sv o') as [H3 H4] end.
    split; [by rewrite H1, H3|by rewrite H2, H4].
Qed.

(** A surgery command: the predicate allowed the pass, or it was bypassed. *)
Lemma surgery_allowed {R : MapRange} recorder spec crKey password percr i eps o c :
  ro_cmds o = [] → CmdSurgery c ∈ ro_cmds (detectAndRecoverStrandedSentinels recorder spec crKey password percr i eps o) →
  match deferralPredicate (rs_surgery (ro_state o)) with Some p => p crKey | None => false end = true →
  QuorumGate.suppressionActive (q_gate (rs_q (ro_state o))) = true ∧ in_flight percr i SiteBypass = false.
Proof.
  intros Ho Hin. destruct spec as [sen|]; [|cbn in Hin; rewrite Ho in Hin; by apply not_elem_of_nil in Hin].
  unfold detectAndRecoverStrandedSentinels in Hin. destruct (_ || _); [rewrite Ho in Hin; by apply not_elem_of_nil in Hin|].
  destruct (observedMasterIPForCR _ _) as [ip survey].
  set (o1 := observeDualMasterFromSurvey _ _ _ _ _ o) in *.
  destruct (observe_dual_cmds recorder percr i SiteSurvey survey o) as [Hc1 _]. cbv zeta in Hc1. fold o1 in Hc1.
  destruct (dual_same_gate recorder percr i SiteSurvey survey o) as [Hg1 Hs1]. fold o1 in Hg1, Hs1.
  case_bool_decide.
  { destruct (promote_cases recorder (Some sen) password percr i survey eps o1) as [E|(? & ? & _ & _ & Hc & _)].
    - rewrite E, Hc1, Ho in Hin. by apply not_elem_of_nil in Hin.
    - rewrite Hc, Hc1, Ho in Hin. by apply list_elem_of_singleton in Hin. }
  change (CmdSurgery c ∈ ro_cmds (surgery_part recorder crKey password percr i sen eps ip survey
    (maybeRecoveryPromoteOnQuorumLoss recorder (Some sen) password percr i survey eps o1))) in Hin.
  destruct (quorum_loss_cases recorder (Some sen) password percr i survey eps o1) as [Hq _]. cbv zeta in Hq.
  destruct (loss_same_gate recorder (Some sen) password percr i survey eps o1) as [Hg2 Hs2].
  set (o2 := maybeRecoveryPromoteOnQuorumLoss _ _ _ _ _ _ _ o1) in *.
  destruct (surgery_part_cmds recorder crKey password percr i sen eps ip survey o2) as (_ & _ & trace & Hcs & Hrun).
  cbv zeta in Hcs, Hrun. rewrite Hcs in Hin. apply elem_of_app in Hin as [Hin|Hin].
  { destruct Hq as [Hq|(? & ? & _ & _ & Hc & _)]; [rewrite Hq, Hc1, Ho in Hin; by apply not_elem_of_nil in Hin|].
    rewrite Hc, Hc1, Ho in Hin. by apply list_elem_of_singleton in Hin. }
  apply list_elem_of_fmap in Hin as (c' & _ & Hin). destruct Hrun as (m & out & Hrun); [by intros ->; apply not_elem_of_nil in Hin|].
  destruct (recover_fired _ _ _ _ _ _ _ _ _ Hrun Hin) as (_ & Hd & _). rewrite Hs2, Hs1 in Hd. intros Hp.
  specialize (Hd Hp). unfold shouldBypassQuorumDeferral, suppressed in Hd. rewrite Hg2, Hg1 in Hd.
  apply andb_prop in Hd as [H1 H2]. by apply negb_true_iff in H2.
Qed.

Section facts.
Context {R : MapRange} {M : MetaTime} (FSM : option (list Transition)) (recorder : bool) (tunables : QuorumSuppressionTunables).
Context (cr : CRSpec) (name namespace uid password : string) (spec : option SentinelSpec).
Context (st : State) (valkeyPods : list Pod) (i : phase_in) (s : phase_state).

Let phase := reconcileSentinelOrchestration FSM recorder tunables cr name namespace uid password spec st valkeyPods i s.
Let q1 := (gate_and_probe recorder tunables valkeyPods i (rs_q (f_rec s))).1.

(** A command of the repair comes from its one run, after the gate and the probe. *)
Lemma phase_repair c :
  EffRecover c ∈ phase.2 →
  ∃ sen pods p, spec = Some sen ∧ x_list i = Ok pods ∧
    failoverLatch p = failoverLatch (percr (f_ctl s)) ∧ lastState p = lastState (percr (f_ctl s)) ∧
    DeriveState.suppressionActive p = QuorumGate.suppressionActive (q_gate q1) ∧
    c ∈ ro_cmds (repair recorder name namespace password spec (sentinelEndpointsFromPodList pods) i q1 p (f_rec s)).
Proof.
  unfold phase, reconcileSentinelOrchestration. destruct (_ || _); [by intros ?%not_elem_of_nil|].
  destruct spec as [sen|]; [|by intros ?%not_elem_of_nil].
  case_bool_decide; [by intros ?%not_elem_of_nil|]. destruct (x_list i) as [[|p0 pods]|e]; [by intros ?%not_elem_of_nil| |by intros ?%not_elem_of_nil].
  cbv zeta. case_bool_decide; [by intros ?%not_elem_of_nil|].
  destruct (EnsureCall _ _ _ _ _ _) as [[e|] m]; [by intros ?%not_elem_of_nil|].
  unfold orchestrate. cbn [f_rec set_mgr set_sq set_ctl f_ctl f_cache f_sq].
  subst q1. destruct (gate_and_probe _ _ _ _ _) as [q gfx]. cbv zeta.
  destruct (runPrimaryRolloutDispatch _ _ _ _ _ _) as [? [? dfx]].
  destruct (reconcileSentinelQuorumStatus _ _ _ _ _ _) as [[? ?] ?].
  destruct (observeSentinelTopology _ _ _ _ _ _ _ _ _ _) as [? ?]. cbn [snd fst].
  intros Hin. exists sen, (p0 :: pods), (set_suppressed (QuorumGate.suppressionActive (q_gate q))
    (percr (warnOnSameNodeColocation recorder (p0 :: pods) "sentinel" (f_ctl s)))). split; [done|]. split; [done|].
  apply elem_of_app in Hin as [Hin|Hin]; [by apply list_elem_of_fmap in Hin as (? & ? & _)|].
  apply elem_of_app in Hin as [Hin|Hin]; [|by apply list_elem_of_fmap in Hin as (? & ? & _)].
  apply list_elem_of_fmap in Hin as (c' & [= <-] & Hin).
  cbn [set_suppressed failoverLatch lastState DeriveState.suppressionActive]. rewrite warn_percr.
  rewrite warn_percr in Hin. done.
Qed.

(** C9: The repair of sentinels yields to a fail-over, and only to that.  If phase 11 sends a
    sentinel any surgery command, no fail-over of this CR was in flight (when the manager's
    predicate and the bypass see the same moment).  The suppression gate, which the predicate
    also consults, does not hold the repair back: with the flag raised by this pass's own
    poll, the predicate defers and the bypass lifts it, so the two together defer exactly
    while a fail-over is in flight. *)
Theorem repair_yields_to_failover :
  x_predSnap i = r_snap (x_recovery i) SiteBypass → x_predNow i = r_now (x_recovery i) SiteBypass →
  let inFlight := IsFailoverInFlight (x_predSnap i) (x_predNow i) (percr (f_ctl s)) in
  (∀ c, EffRecover (CmdSurgery c) ∈ phase.2 → inFlight = false) ∧
  (∀ o, rs_q (ro_state o) = q1 →
     let p := set_suppressed (QuorumGate.suppressionActive (q_gate q1)) (percr (f_ctl s)) in
     DeferralPredicate (x_predSnap i) (x_predNow i) p && negb (shouldBypassQuorumDeferral p (x_recovery i) o) = inFlight).
Proof.
  intros Hs Hn inFlight. split.
  - intros c Hin. destruct (phase_repair _ Hin) as (sen & pods & p & _ & _ & Hl & Hls & Hsup & Hc).
    assert (Hf : IsFailoverInFlight (x_predSnap i) (x_predNow i) p = inFlight) by (by apply in_flight_frame).
    destruct inFlight eqn:E; [|done]. exfalso. unfold repair in Hc. apply surgery_allowed in Hc; [|done|].
    + destruct Hc as [_ Hc]. unfold in_flight in Hc. rewrite <- Hs, <- Hn, Hf in Hc. done.
    + cbn. unfold DeferralPredicate. by rewrite Hf, orb_true_r.
  - intros o Ho p. unfold DeferralPredicate, shouldBypassQuorumDeferral, suppressed, in_flight, IsSentinelSuppressed.
    rewrite Ho, <- Hs, <- Hn. cbn [p set_suppressed DeriveState.suppressionActive].
    assert (IsFailoverInFlight (x_predSnap i) (x_predNow i) p = inFlight) as -> by (by apply in_flight_frame).
    by destruct (QuorumGate.suppressionActive (q_gate q1)), inFlight.
Qed.

(** ** Whom a sentinel is pointed at *)
Definition labelled (p : Pod) : bool := isPrimary p && negb (bool_decide (pod_IP p = "")).
Definition answered_master (lag : LagState) : Prop := Role lag = "" ∨ Role lag = RoleMaster.
(** Why the address is the master's, with [p] the labelled pod. *)
Inductive confirmed (p : Pod) (pods : list Pod) (ip : string) : Prop :=
  | by_probe lag : x_check i (dial_addr p) = Some lag → answered_master lag → ip = pod_IP p → confirmed p pods ip
  | by_dial lag : r_confirm (x_recovery i) (dial_addr p) = Some lag → answered_master lag → ip = pod_IP p → confirmed p pods ip
  | by_quorum snap x : x ∈ pods → pod_IP x = ip → r_snap (x_recovery i) SiteResolve = Some snap →
      freshSnapshotPrimaryIP snap (r_now (x_recovery i) SiteResolve) = ip → confirmed p pods ip
  | by_sweep x lag : x ∈ pods → pod_IP x = ip → r_sweep (x_recovery i) (dial_addr x) = Some lag → Role lag = RoleMaster →
      confirmed p pods ip.

(** The probe's record: clear only if the labelled pod of the pass answered as a master, or
    there was none. *)
Lemma probe_record :
  masterInfoTimeoutSince (q_master q1) = None → masterInfoRoleDisclaimed (q_master q1) = false →
  match List.find labelled valkeyPods with
  | Some p => ∃ lag, x_check i (dial_addr p) = Some lag ∧ answered_master lag
  | None => True
  end.
Proof.
  subst q1. unfold gate_and_probe. destruct (updateQuorumSuppressionGate _ _ _ _ _ _) as [q gfx].
  unfold observeMasterInfoTimeout. fold labelled. destruct (List.find _ valkeyPods) as [p|]; [|done].
  unfold tracker_observeMasterInfoTimeout. destruct (x_check i (dial_addr p)) as [lag|]; cbn.
  - intros _ H. exists lag. split; [done|]. by apply roleDisclaims_false.
  - by destruct (masterInfoTimeoutSince (q_master q)).
Qed.

(** C8: A sentinel is only pointed at a confirmed master.  Whenever phase 11 registers a
    master with a sentinel and the pod list of the repair agrees with the pods of the pass on
    the labelled primary, the address is that pod's and it answered INFO in this pass
    without disclaiming the role, or a fresh quorum names it, or it is a pod that reports
    itself master in the sweep. *)
Theorem monitored_master_confirmed ep ip port q p :
  EffRecover (CmdSurgery (CmdMonitor ep ip port q)) ∈ phase.2 →
  List.find labelled valkeyPods = Some p →
  (∀ pods x, r_list (x_recovery i) = Ok pods → x ∈ pods → isPrimary x = true → pod_IP x = pod_IP p) →
  ∃ pods, r_list (x_recovery i) = Ok pods ∧ confirmed p pods ip.
Proof.
  intros Hin Hp Hsame. destruct (phase_repair _ Hin) as (sen & spods & pc & _ & _ & _ & _ & _ & Hc).
  unfold repair in Hc. apply monitor_evidence in Hc as (pods & Hl & Hev); [|done]. cbn [ro_state rs_q] in Hev.
  exists pods. split; [done|]. destruct Hev as [x Hx Hprim Hip Hwhy|snap x Hx Hip Hsn Hfr|x st' Hx Hip Hsw Hr _].
  - pose proof (Hsame pods x Hl Hx Hprim) as Heq. destruct Hwhy as [(H1 & H2 & _)|(st' & Hc' & Hr)].
    + pose proof (probe_record H1 H2) as Hrec. rewrite Hp in Hrec. destruct Hrec as (st' & Hst & Ha).
      apply by_probe with st'; congruence.
    + apply by_dial with st'; [|done|congruence]. unfold dial_addr in *. by rewrite <- Heq.
  - by apply by_quorum with snap x.
  - by apply by_sweep with x st'.
Qed.

(** The record of the probe does not say which pod it was of.  With no labelled pod among the
    pods of the pass, nothing is dialled and success is recorded; the repair, whose own list
    may already show the label that phase 7 has just set, takes the labelled pod for
    the confirmed master without asking it anything. *)
Theorem unprobed_primary_vouched pods p :
  List.find labelled valkeyPods = None → List.find labelled pods = Some p →
  Sub (r_now (x_recovery i) SiteProbeAge) (x_nowProbe i) < masterInfoSamePassReuseWindow → IsZero (x_nowProbe i) = false →
  labelled_primary (x_recovery i) (q_master q1) pods = Some (pod_IP p).
Proof.
  intros Hnone Hp Hage Hz. subst q1. unfold gate_and_probe.
  destruct (updateQuorumSuppressionGate _ _ _ _ _ _) as [q gfx]. unfold observeMasterInfoTimeout, labelled_primary.
  fold labelled. rewrite Hnone, Hp. cbn. rewrite Hz, (proj2 (Z.ltb_lt _ _) Hage). done.
Qed.
End facts.

(** ** A concrete pass: three sentinels, one of which has lost its peers *)
Definition phase_check (addr : string) : option LagState := if bool_decide (addr = "10.0.0.1:6379") then r_confirm healthy_in addr else None.
Definition phase_pods : list Pod := [demo_pod "vk-0" "10.0.0.1" "primary" "r1"; demo_pod "vk-1" "10.0.0.2" "replica" "r1"].
Definition phase_demo (now : Time) : phase_in :=
  {| x_observer := true;
     x_list := Ok [demo_pod "s-1" "10.1.0.1" "" "r1"; demo_pod "s-2" "10.1.0.2" "" "r1"; demo_pod "s-3" "10.1.0.3" "" "r1"];
     x_applySQ := λ _, None; x_nowEnsure := now; x_gateSnap := demo_snap true "10.0.0.1:6379" 1; x_nowGate := now;
     x_nowGate2 := now; x_check := phase_check; x_nowProbe := now; x_predSnap := Some (demo_snap true "10.0.0.1:6379" 1);
     x_predNow := now; x_recovery := healthy_in; x_dispatch := demo_dispatch accept true; x_obs := None;
     x_applyStatus := λ _, None; x_topoObs := []; x_topoSnap := Some (demo_snap true "10.0.0.1:6379" 1);
     x_nowTopo := now; x_nowTopoLatch := now |}.
Definition phase_init : phase_state :=
  {| f_ctl := demo_ctl; f_mgr := StartBegin mgr_new;
     f_rec := {| rs_q := stuck_quorum; rs_dual := dual_zero; rs_surgery := SurgerySpec.demo_state |};
     f_sq := ∅; f_cache := sq_cache_zero |}.
Definition phase_tunables : QuorumSuppressionTunables := {| LossThreshold := 0; RecoveryPolls := 0; Phase11Timeout := 0 |}.
Definition phase_run : phase_state * list phase_effect :=
  reconcileSentinelOrchestration (R := range_forward) (M := floor_second) (Some NewMachine) true phase_tunables demo_spec
    "vk" "default" "uid" "" (Some rec_sen) StateSteady phase_pods (phase_demo (1000 * Second)) phase_init.

Lemma phase_run_monitors : EffRecover (CmdSurgery (CmdMonitor (SurgerySpec.sent "3") "10.0.0.1" 6379 2)) ∈ phase_run.2.
Proof. vm_compute. right. right. left. Qed.

Lemma repair_yields_to_failover_witness :
  phase_run.2 ≠ [] ∧ IsFailoverInFlight (Some (demo_snap true "10.0.0.1:6379" 1)) (1000 * Second) percr_zero = false.
Proof.
  split; [by vm_compute|].
  apply (repair_yields_to_failover (R := range_forward) (M := floor_second) (Some NewMachine) true phase_tunables demo_spec
    "vk" "default" "uid" "" (Some rec_sen) StateSteady phase_pods (phase_demo (1000 * Second)) phase_init
    ltac:(reflexivity) ltac:(reflexivity)) with (CmdMonitor (SurgerySpec.sent "3") "10.0.0.1" 6379 2).
  exact phase_run_monitors.
Defined.

Lemma monitored_master_confirmed_witness :
  ∃ pods, r_list healthy_in = Ok pods ∧
    confirmed (phase_demo (1000 * Second)) (demo_pod "vk-0" "10.0.0.1" "primary" "r1") pods "10.0.0.1".
Proof.
  apply (monitored_master_confirmed (R := range_forward) (M := floor_second) (Some NewMachine) true phase_tunables demo_spec
    "vk" "default" "uid" "" (Some rec_sen) StateSteady phase_pods (phase_demo (1000 * Second)) phase_init
    (SurgerySpec.sent "3") "10.0.0.1" 6379 2).
  - exact phase_run_monitors.
  - reflexivity.
  - intros pods x [= <-] Hx _. apply list_elem_of_singleton in Hx as ->. reflexivity.
Defined.

(** The pods of the pass carry no label yet; nobody answers at the address that is taken for
    the master's. *)
Definition unlabelled_pods : list Pod := [demo_pod "vk-0" "10.0.0.1" "" "r1"].
Lemma unprobed_primary_vouched_witness :
  labelled_primary (x_recovery (phase_demo (1000 * Second)))
    (q_master (gate_and_probe true phase_tunables unlabelled_pods (phase_demo (1000 * Second)) stuck_quorum).1)
    phase_pods = Some "10.0.0.1".
Proof.
  apply (unprobed_primary_vouched true phase_tunables unlabelled_pods (phase_demo (1000 * Second)) phase_init
    phase_pods (demo_pod "vk-0" "10.0.0.1" "primary" "r1")); vm_compute; reflexivity.
Defined.
