(* ===== verification/Startup.v ===== *)
(** * Start-up: configuration, flags, bootstrap and the wiring of the process

    [internal/config/config.go] and [cmd/main.go].  The file system, the environment, the YAML
    decoder, the parser of label selectors and the outcome of each registration with the
    manager are inputs; an error carries the values that its message prints.  What a run of
    [main] yields is the list of what it set up, or the error it exits with. *)
From S2P Require Import Prelude GoStd GoFmt LagChecker SQRecords ValkeyConf QuorumGate GoFloat DynAuth.
Local Open Scope Z_scope.

(** ** The configuration *)
Definition reservedNamespacePrefix : string := "kube-".
Definition DefaultPath : string := "/etc/velkir/config.yaml".
Definition DefaultManagedByLabel : string := "app.kubernetes.io/managed-by=velkir".

Record LeaderElectionConfig := {
  le_Enabled : option bool;
  le_Namespace : string;
  le_ID : string;
  LeaseDuration : Duration;
  RenewDeadline : Duration;
  RetryPeriod : Duration;
  ReleaseOnCancel : option bool
}.
Record MetricsConfig := { mc_BindAddress : string; mc_Secure : option bool }.
Record WebhookConfig := { wc_Port : Z; wc_CertDir : string }.
Record Config := {
  WatchNamespaces : list string;
  LeaderElection : LeaderElectionConfig;
  cfg_Metrics : MetricsConfig;
  HealthProbeBindAddress : string;
  cfg_Webhook : WebhookConfig;
  CacheManagedBySelector : string;
  MaxConcurrentReconciles : Z
}.

Definition Default : Config :=
  {| WatchNamespaces := [];
     LeaderElection := {| le_Enabled := Some true; le_Namespace := ""; le_ID := "velkir.ioxie.dev"; LeaseDuration := 30 * Second;
                          RenewDeadline := 20 * Second; RetryPeriod := 4 * Second; ReleaseOnCancel := Some true |};
     cfg_Metrics := {| mc_BindAddress := ":8443"; mc_Secure := Some true |};
     HealthProbeBindAddress := ":8081";
     cfg_Webhook := {| wc_Port := 9443; wc_CertDir := "/tmp/k8s-webhook-server/serving-certs" |};
     CacheManagedBySelector := DefaultManagedByLabel;
     MaxConcurrentReconciles := 4 |}.

Inductive config_error : Type :=
  | DurationsNotPositive (lease renew retry : Duration)
  | RenewNotBelowLease (renew lease : Duration)
  | RetryNotBelowRenew (retry renew : Duration)
  | NoWorkers (n : Z)
  | EmptySelector
  | NamespaceEmpty (i : nat)
  | NamespaceWhitespace (i : nat) (ns : string)
  | NamespaceReserved (i : nat) (ns : string)
  | NamespaceDuplicated (i : nat) (ns : string).

Fixpoint namespaces_from (i : nat) (seen : gset string) (nss : list string) : option config_error :=
  match nss with
  | [] => None
  | ns :: nss =>
      if bool_decide (TrimSpace ns = "") then Some (NamespaceEmpty i)
      else if negb (bool_decide (ns = TrimSpace ns)) then Some (NamespaceWhitespace i ns)
      else if HasPrefix ns reservedNamespacePrefix then Some (NamespaceReserved i ns)
      else if bool_decide (ns ∈ seen) then Some (NamespaceDuplicated i ns)
      else namespaces_from (S i) ({[ns]} ∪ seen) nss
  end.
Definition validateWatchNamespaces (nss : list string) : option config_error := namespaces_from 0 ∅ nss.

Definition Validate (c : Config) : option config_error :=
  let le := LeaderElection c in
  if (LeaseDuration le <=? 0) || (RenewDeadline le <=? 0) || (RetryPeriod le <=? 0) then
    Some (DurationsNotPositive (LeaseDuration le) (RenewDeadline le) (RetryPeriod le))
  else if LeaseDuration le <=? RenewDeadline le then Some (RenewNotBelowLease (RenewDeadline le) (LeaseDuration le))
  else if RenewDeadline le <=? RetryPeriod le then Some (RetryNotBelowRenew (RetryPeriod le) (RenewDeadline le))
  else if MaxConcurrentReconciles c <? 1 then Some (NoWorkers (MaxConcurrentReconciles c))
  else if bool_decide (CacheManagedBySelector c = "") then Some EmptySelector
  else validateWatchNamespaces (WatchNamespaces c).

Definition LeaderElectionEnabled (c : Config) : bool := default true (le_Enabled (LeaderElection c)).
Definition LeaderElectionReleaseOnCancel (c : Config) : bool := default true (ReleaseOnCancel (LeaderElection c)).
Definition MetricsSecure (c : Config) : bool := default true (mc_Secure (cfg_Metrics c)).

(** What opening and reading the file gives. *)
Inductive opened : Type := NotExist | OpenFailed (e : string) | Opened (content : result string).
Inductive start_error : Type :=
  | ConfigOpen (path e : string) | ConfigDecode (path e : string) | ConfigInvalid (path : string) (e : config_error)
  | OverlayInvalid (e : config_error)
  | BadSelector (selector e : string)
  | BadEnv (name value : string)
  | EmptyPodNamespace
  | ProbeCertManager (e : string)
  | Unregistered (what e : string)
  | BootstrapClient (e : string) | MintSecrets (e : string) | WaitForCert (label dir e : string).
Inductive startup A : Type := Started (a : A) | Exits (e : start_error).
Arguments Started {A} a.
Arguments Exits {A} e.
Definition start_bind {A B} (r : startup A) (k : A → startup B) : startup B :=
  match r with Started a => k a | Exits e => Exits e end.
Notation "x <-- r ; k" := (start_bind r (λ x, k)) (at level 100, r at next level, right associativity).
Definition require (ok : option start_error) : startup unit := match ok with Some e => Exits e | None => Started () end.

Section config.
Context (UnmarshalStrict : string → Config → result Config).

Definition decodeInto (content : result string) (c : Config) : result Config :=
  match content with
  | Err e => Err e
  | Ok buf => if bool_decide (buf = "") then Ok c else UnmarshalStrict buf c
  end.
Definition Load (open : string → opened) (path : string) : startup Config :=
  if bool_decide (path = "") then Started Default
  else match open path with
  | NotExist => Started Default
  | OpenFailed e => Exits (ConfigOpen path e)
  | Opened content =>
      match decodeInto content Default with
      | Err e => Exits (ConfigDecode path e)
      | Ok c => match Validate c with Some e => Exits (ConfigInvalid path e) | None => Started c end
      end
  end.
End config.

(** ** Flags *)
Record flags := {
  configPath : string;
  metricsAddr : string;
  metricsSecure : bool;
  probeAddr : string;
  leaderElect : bool;
  webhookCertPath : string;
  webhookCertName : string;
  webhookCertKey : string;
  webhookServiceName : string;
  enableDynamicAuthority : bool;
  metricsCertPath : string;
  metricsCertName : string;
  metricsCertKey : string;
  metricsServiceName : string;
  enableHTTP2 : bool;
  bootstrapOnly : bool;
  allowTestOverrides : bool;
  setExplicitly : gset string
}.

Definition applyTo (f : flags) (c : Config) : Config :=
  let set {A} (name : string) (v old : A) : A := if bool_decide (name ∈ setExplicitly f) then v else old in
  {| WatchNamespaces := WatchNamespaces c;
     LeaderElection :=
       {| le_Enabled := set "leader-elect" (Some (leaderElect f)) (le_Enabled (LeaderElection c));
          le_Namespace := le_Namespace (LeaderElection c); le_ID := le_ID (LeaderElection c);
          LeaseDuration := LeaseDuration (LeaderElection c); RenewDeadline := RenewDeadline (LeaderElection c);
          RetryPeriod := RetryPeriod (LeaderElection c); ReleaseOnCancel := ReleaseOnCancel (LeaderElection c) |};
     cfg_Metrics :=
       {| mc_BindAddress := set "metrics-bind-address" (metricsAddr f) (mc_BindAddress (cfg_Metrics c));
          mc_Secure := set "metrics-secure" (Some (metricsSecure f)) (mc_Secure (cfg_Metrics c)) |};
     HealthProbeBindAddress := set "health-probe-bind-address" (probeAddr f) (HealthProbeBindAddress c);
     cfg_Webhook := cfg_Webhook c;
     CacheManagedBySelector := CacheManagedBySelector c;
     MaxConcurrentReconciles := MaxConcurrentReconciles c |}.

(** ** Options of the manager *)
Record tls_config := { MinVersion : Z; NextProtos : list string }.
Definition VersionTLS13 : Z := 772.
Definition buildTLSOpts (f : flags) : list (tls_config → tls_config) :=
  let pinMinVersion c := {| MinVersion := VersionTLS13; NextProtos := NextProtos c |} in
  if enableHTTP2 f then [pinMinVersion]
  else [pinMinVersion; λ c, {| MinVersion := MinVersion c; NextProtos := ["http/1.1"] |}].

Record webhook_options := { wo_Port : Z; wo_CertDir : string; wo_CertName : string; wo_KeyName : string;
                            wo_TLSOpts : list (tls_config → tls_config) }.
Definition buildWebhookOptions (c : Config) (f : flags) (tlsOpts : list (tls_config → tls_config)) : webhook_options :=
  let own := negb (bool_decide (webhookCertPath f = "")) in
  {| wo_Port := wc_Port (cfg_Webhook c); wo_CertDir := if own then webhookCertPath f else wc_CertDir (cfg_Webhook c);
     wo_CertName := if own then webhookCertName f else ""; wo_KeyName := if own then webhookCertKey f else "";
     wo_TLSOpts := tlsOpts |}.

Record metrics_options := { mo_BindAddress : string; SecureServing : bool; mo_AuthFilter : bool; mo_CertDir : string;
                            mo_CertName : string; mo_KeyName : string; mo_TLSOpts : list (tls_config → tls_config) }.
Definition buildMetricsOptions (c : Config) (f : flags) (tlsOpts : list (tls_config → tls_config)) : metrics_options :=
  let own := negb (bool_decide (metricsCertPath f = "")) in
  {| mo_BindAddress := mc_BindAddress (cfg_Metrics c); SecureServing := MetricsSecure c; mo_AuthFilter := MetricsSecure c;
     mo_CertDir := if own then metricsCertPath f else ""; mo_CertName := if own then metricsCertName f else "";
     mo_KeyName := if own then metricsCertKey f else ""; mo_TLSOpts := tlsOpts |}.

Definition cacheOwnedTypes : list string :=
  ["Secret"; "ConfigMap"; "Pod"; "Service"; "StatefulSet"; "PodDisruptionBudget"].
Definition Selector : Type := gmap string string → bool.
Record cache_options := { ByObject : gmap string Selector; DefaultNamespaces : gset string }.
Definition buildCacheOptions (selector : Selector) (c : Config) : cache_options :=
  {| ByObject := foldl (λ m k, <[k := selector]> m) ∅ cacheOwnedTypes;
     DefaultNamespaces := list_to_set (WatchNamespaces c) |}.

Record manager_options := {
  op_Metrics : metrics_options;
  op_WebhookServer : webhook_options;
  op_HealthProbeBindAddress : string;
  op_LeaderElection : bool;
  op_LeaderElectionID : string;
  op_LeaderElectionNamespace : string;
  op_LeaseDuration : Duration;
  op_RenewDeadline : Duration;
  op_RetryPeriod : Duration;
  op_ReleaseOnCancel : bool;
  op_Cache : cache_options
}.
Definition buildManagerOptions (Parse : string → result Selector) (c : Config) (f : flags) : startup manager_options :=
  match Parse (CacheManagedBySelector c) with
  | Err e => Exits (BadSelector (CacheManagedBySelector c) e)
  | Ok selector =>
      let tlsOpts := buildTLSOpts f in
      Started {| op_Metrics := buildMetricsOptions c f tlsOpts; op_WebhookServer := buildWebhookOptions c f tlsOpts;
                 op_HealthProbeBindAddress := HealthProbeBindAddress c; op_LeaderElection := LeaderElectionEnabled c;
                 op_LeaderElectionID := le_ID (LeaderElection c); op_LeaderElectionNamespace := le_Namespace (LeaderElection c);
                 op_LeaseDuration := LeaseDuration (LeaderElection c); op_RenewDeadline := RenewDeadline (LeaderElection c);
                 op_RetryPeriod := RetryPeriod (LeaderElection c); op_ReleaseOnCancel := LeaderElectionReleaseOnCancel c;
                 op_Cache := buildCacheOptions selector c |}
  end.

(** ** Test overrides *)
Definition parsePositiveIntEnv (getenv : string → string) (name : string) : startup (option Z) :=
  let v := getenv name in
  if bool_decide (v = "") then Started None
  else match Atoi v with
  | Some n => if n <=? 0 then Exits (BadEnv name v) else Started (Some n)
  | None => Exits (BadEnv name v)
  end.
(** [time.Duration(n) * time.Second] *)
Definition seconds (n : Z) : Duration := wrap64 (n * Second).
Definition tunables_zero : QuorumSuppressionTunables := {| LossThreshold := 0; RecoveryPolls := 0; Phase11Timeout := 0 |}.
(** The tunables, and the rotation interval that is set by side effect. *)
Definition parseTestOverrides (getenv : string → string) (allowed : bool) :
    startup (QuorumSuppressionTunables * option Duration) :=
  if negb allowed then Started (tunables_zero, None)
  else
    loss <-- parsePositiveIntEnv getenv "VALKEY_OPERATOR_QUORUM_LOSS_SUPPRESSION_SEC";
    polls <-- parsePositiveIntEnv getenv "VALKEY_OPERATOR_QUORUM_RECOVERY_HYSTERESIS_POLLS";
    phase11 <-- parsePositiveIntEnv getenv "VALKEY_OPERATOR_PHASE11_TIMEOUT_SEC";
    authority <-- parsePositiveIntEnv getenv "VALKEY_OPERATOR_AUTHORITY_MIN_INTERVAL_SEC";
    Started ({| LossThreshold := from_option seconds 0 loss; RecoveryPolls := default 0 polls;
                Phase11Timeout := from_option seconds 0 phase11 |}, seconds <$> authority).
Definition setupSentinelObserver (getenv : string → string) (f : flags) : startup Duration :=
  if allowTestOverrides f then
    secs <-- parsePositiveIntEnv getenv "VALKEY_OPERATOR_SENTINEL_OBSERVER_POLL_SEC";
    Started (from_option seconds 0 secs)
  else Started 0.

(** ** Certificates at start-up *)
Definition envPodNamespace : string := "POD_NAMESPACE".

(** The polls of a file: [stat k] is the outcome of the [k]-th, [expired k] says whether the
    context has expired in the wait that follows it.  [None]: out of fuel. *)
Inductive stat : Type := Exists | Absent | StatFailed (e : string).
Fixpoint waitForProjectedFile (fuel : nat) (st : nat → stat) (expired : nat → bool) (k : nat) : option (option string) :=
  match fuel with
  | O => None
  | S fuel =>
      match st k with
      | Exists => Some None
      | StatFailed e => Some (Some e)
      | Absent => if expired k then Some (Some "not projected before context expired")
                  else waitForProjectedFile fuel st expired (S k)
      end
  end.
Definition pollInterval : Duration := 2 * Second.
Definition bootstrapTimeout : Duration := 3 * Minute.
Definition bootstrap_polls : nat := S (Z.to_nat (bootstrapTimeout / pollInterval)).

Definition leaves (f : flags) (ns : string) : list LeafSpec :=
  [WebhookLeafSpec (webhookServiceName f) ns; MetricsLeafSpec (metricsServiceName f) ns].
Definition authority (f : flags) (ns : string) : Authority :=
  {| Leaves := leaves f ns; CALifetime := 0; LeafLifetime := 0 |}.

Inductive bootstrapped : Type := NothingToDo | Projected (dirs : list string).

Section bootstrap.
Context {R : MapRange} {X : X509}.

Record bootstrap_in := {
  b_client : option string;            (* the error of building the client *)
  b_probe : probe;
  b_pass : pass_in;
  b_stat : string → string → nat → stat;   (* by directory and file *)
  b_expired : nat → bool
}.
(** Over the map of label to directory, in the order of the range. *)
Fixpoint wait_all (i : bootstrap_in) (l : list (string * string)) (done_ : list string) : startup (list string) :=
  match l with
  | [] => Started done_
  | (label, dir) :: l =>
      if bool_decide (dir = "") then wait_all i l done_
      else
        match waitForProjectedFile bootstrap_polls (b_stat i dir "tls.crt") (b_expired i) 0 with
        | Some None => wait_all i l (done_ ++ [dir])
        | Some (Some e) => Exits (WaitForCert label dir e)
        | None => Exits (WaitForCert label dir "out of polls")
        end
  end.
Definition runBootstrap (getenv : string → string) (f : flags) (i : bootstrap_in) (s : gmap string (TLSSecret (X := X))) :
    startup bootstrapped * gmap string (TLSSecret (X := X)) :=
  if negb (enableDynamicAuthority f) then (Started NothingToDo, s)
  else
    let ns := getenv envPodNamespace in
    if bool_decide (ns = "") then (Exits EmptyPodNamespace, s)
    else match b_client i with
    | Some e => (Exits (BootstrapClient e), s)
    | None =>
        match CertManagerOptedIn (b_probe i) with
        | Err e => (Exits (ProbeCertManager e), s)
        | Ok true => (Started NothingToDo, s)
        | Ok false =>
            match Bootstrap (authority f ns) (b_pass i) s with
            | (Some e, s) => (Exits (MintSecrets e), s)
            | (None, s) =>
                (dirs <-- wait_all i (range_of (<["webhook" := webhookCertPath f]> {["metrics" := metricsCertPath f]})) [];
                 Started (Projected dirs), s)
            end
        end
    end.
End bootstrap.

(** ** [main] *)
Record world := {
  getenv : string → string;
  open : string → opened;
  Unmarshal : string → Config → result Config;
  ParseSelector : string → result Selector;
  register : string → option string;        (* what the manager answers to each registration *)
  cert_probe : probe
}.
Definition registered (w : world) (what : string) : startup unit := require (Unregistered what <$> register w what).

Inductive provisioning : Type := CertManagerOwns | DynamicAuthority (a : Authority) (namespace : string).
Definition setupWebhookCertProvisioning (w : world) (f : flags) : startup provisioning :=
  if negb (enableDynamicAuthority f) then Started CertManagerOwns
  else
    let ns := getenv w envPodNamespace in
    if bool_decide (ns = "") then Exits EmptyPodNamespace
    else match CertManagerOptedIn (cert_probe w) with
    | Err e => Exits (ProbeCertManager e)
    | Ok true => Started CertManagerOwns
    | Ok false =>
        _ <-- registered w "Authority runnable";
        _ <-- registered w "caBundle injector";
        Started (DynamicAuthority (authority f ns) ns)
    end.

Record process := {
  pr_config : Config;
  pr_options : manager_options;
  pr_tunables : QuorumSuppressionTunables;
  pr_rotation : option Duration;
  pr_poll : Duration;
  pr_certs : provisioning
}.
Definition main (w : world) (f : flags) : startup process :=
  loaded <-- Load (Unmarshal w) (open w) (configPath f);
  let cfg := applyTo f loaded in
  _ <-- require (OverlayInvalid <$> Validate cfg);
  opts <-- buildManagerOptions (ParseSelector w) cfg f;
  _ <-- registered w "manager";
  poll <-- setupSentinelObserver (getenv w) f;
  _ <-- registered w "sentinel observer manager";
  _ <-- registered w "sentinel startup safety net";
  t <-- parseTestOverrides (getenv w) (allowTestOverrides f);
  _ <-- registered w "controller";
  _ <-- registered w "stale tracker pruner";
  _ <-- registered w "webhook";
  _ <-- registered w "exporter watcher";
  certs <-- setupWebhookCertProvisioning w f;
  _ <-- registered w "healthz";
  _ <-- registered w "readyz";
  Started {| pr_config := cfg; pr_options := opts; pr_tunables := t.1; pr_rotation := t.2; pr_poll := poll; pr_certs := certs |}.

(** ** The entry point: bootstrap or run *)
Section entry.
Context {R : MapRange} {X : X509}.

Definition entry (w : world) (f : flags) (i : bootstrap_in (X := X)) (s : gmap string (TLSSecret (X := X))) :
    startup (bootstrapped + process) * gmap string (TLSSecret (X := X)) :=
  if bootstrapOnly f then
    let '(r, s) := runBootstrap (getenv w) f i s in (b <-- r; Started (inl b), s)
  else (p <-- main w f; Started (inr p), s).
End entry.

(** ** Lemmas *)
Lemma start_bind_started {A B} (r : startup A) (k : A → startup B) b :
  start_bind r k = Started b ↔ ∃ a, r = Started a ∧ k a = Started b.
Proof. destruct r; cbn; naive_solver. Qed.

Definition good_namespace (ns : string) : Prop :=
  ns ≠ "" ∧ TrimSpace ns = ns ∧ HasPrefix ns reservedNamespacePrefix = false.
Lemma namespaces_valid nss i seen :
  namespaces_from i seen nss = None ↔ Forall good_namespace nss ∧ NoDup nss ∧ (∀ ns, ns ∈ nss → ns ∉ seen).
Proof.
  revert i seen. induction nss as [|ns nss IH]; intros i seen; cbn [namespaces_from].
  { split; [|done]. intros _. split; [constructor|]. split; [constructor|]. by intros ? ?%not_elem_of_nil. }
  rewrite Forall_cons, NoDup_cons. unfold good_namespace at 1.
  case_bool_decide as H1; [split; [done|]; intros ([(? & Ht & _) _] & _); congruence|].
  case_bool_decide as H2; cbn [negb]; [|split; [done|]; intros ([(_ & Ht & _) _] & _); congruence].
  destruct (HasPrefix ns _) eqn:H3; [split; [done|]; intros ([(_ & _ & Ht) _] & _); congruence|].
  case_bool_decide as H4.
  { split; [done|]. intros (_ & _ & Hn). by destruct (Hn ns); [left|]. }
  rewrite IH. setoid_rewrite elem_of_cons. split.
  - intros (Hg & Hnd & Hs). split_and!; try done; try congruence.
    + intros Hin. specialize (Hs ns Hin). set_solver.
    + intros x [->|Hx]; [done|]. specialize (Hs x Hx). set_solver.
  - intros ([_ Hg] & [Hni Hnd] & Hs). split; [done|]. split; [done|]. intros x Hx Hin.
    apply elem_of_union in Hin as [->%elem_of_singleton|Hin]; [done|]. by apply (Hs x); [right|].
Qed.

(** What a valid configuration is. *)
Record valid (c : Config) : Prop := {
  val_retry : 0 < RetryPeriod (LeaderElection c);
  val_renew : RetryPeriod (LeaderElection c) < RenewDeadline (LeaderElection c);
  val_lease : RenewDeadline (LeaderElection c) < LeaseDuration (LeaderElection c);
  val_workers : 1 <= MaxConcurrentReconciles c;
  val_selector : CacheManagedBySelector c ≠ "";
  val_namespaces : Forall good_namespace (WatchNamespaces c);
  val_distinct : NoDup (WatchNamespaces c)
}.
Lemma Validate_valid c : Validate c = None ↔ valid c.
Proof.
  unfold Validate, validateWatchNamespaces. split.
  - intros H. destruct (_ || _) eqn:E1; [done|]. apply orb_false_iff in E1 as [[E1 E2]%orb_false_iff E3].
    destruct (LeaseDuration _ <=? RenewDeadline _) eqn:E4; [done|].
    destruct (RenewDeadline _ <=? RetryPeriod _) eqn:E5; [done|].
    destruct (_ <? 1) eqn:E6; [done|]. case_bool_decide; [done|].
    apply namespaces_valid in H as (Hg & Hnd & _). split; try done; lia.
  - intros [H1 H2 H3 H4 H5 H6 H7].
    rewrite (proj2 (orb_false_iff _ _)), (proj2 (Z.leb_gt _ _)), (proj2 (Z.leb_gt _ _)), (proj2 (Z.ltb_ge _ _)); try lia.
    rewrite bool_decide_eq_false_2 by done. by apply namespaces_valid.
Qed.
Lemma Default_valid : valid Default.
Proof. apply Validate_valid. vm_compute. reflexivity. Qed.
Lemma Load_valid u o path c : Load u o path = Started c → valid c.
Proof.
  unfold Load. case_bool_decide; [intros [= <-]; exact Default_valid|].
  destruct (o path) as [| |content]; [intros [= <-]; exact Default_valid|done|].
  destruct (decodeInto u content Default) as [c'|]; [|done]. destruct (Validate c') eqn:E; [done|].
  intros [= <-]. by apply Validate_valid.
Qed.
(** The flags cannot spoil a valid configuration. *)
Lemma overlay_valid f c : valid c → valid (applyTo f c).
Proof. intros [H1 H2 H3 H4 H5 H6 H7]. by split. Qed.

Lemma cache_by_object s c k :
  ByObject (buildCacheOptions s c) !! k = if bool_decide (k ∈ cacheOwnedTypes) then Some s else None.
Proof.
  cbn. case_bool_decide as H.
  - unfold cacheOwnedTypes in H. repeat (apply elem_of_cons in H as [->|H]; [by repeat (rewrite lookup_insert_eq || rewrite lookup_insert_ne by done)|]).
    by apply not_elem_of_nil in H.
  - unfold cacheOwnedTypes in H. rewrite !not_elem_of_cons in H. destruct H as (? & ? & ? & ? & ? & ? & _).
    rewrite !lookup_insert_ne by done. apply lookup_empty.
Qed.

Ltac start_inv H :=
  repeat match type of H with
  | start_bind _ _ = Started _ => apply start_bind_started in H as (? & ? & H)
  end.

(** What a run that starts has gone through. *)
Lemma main_started w f p :
  main w f = Started p →
  ∃ loaded sel, Load (Unmarshal w) (open w) (configPath f) = Started loaded ∧ pr_config p = applyTo f loaded ∧
    valid (pr_config p) ∧ ParseSelector w (CacheManagedBySelector loaded) = Ok sel ∧
    buildManagerOptions (ParseSelector w) (pr_config p) f = Started (pr_options p) ∧
    op_Cache (pr_options p) = buildCacheOptions sel loaded ∧
    parseTestOverrides (getenv w) (allowTestOverrides f) = Started (pr_tunables p, pr_rotation p) ∧
    setupSentinelObserver (getenv w) f = Started (pr_poll p) ∧
    setupWebhookCertProvisioning w f = Started (pr_certs p).
Proof.
  unfold main. intros H. start_inv H. injection H as <-. rename x into loaded. cbn [pr_config pr_options pr_tunables pr_rotation pr_poll pr_certs].
  assert (Hv : valid (applyTo f loaded)) by (by eapply overlay_valid, Load_valid).
  match goal with E : buildManagerOptions _ _ _ = Started _ |- _ => pose proof E as Hb; unfold buildManagerOptions in E end.
  destruct (ParseSelector w (CacheManagedBySelector (applyTo f loaded))) as [sel|e] eqn:Es; [|done].
  exists loaded, sel. split_and!; try done.
  - match goal with E : Started _ = Started _ |- _ => by injection E as <- end.
  - match goal with E : parseTestOverrides _ _ = Started ?t |- _ => by destruct t end.
Qed.

(** ** What the informers of the process see *)
Definition watched (o : cache_options) (ns : string) : bool :=
  bool_decide (DefaultNamespaces o = ∅) || bool_decide (ns ∈ DefaultNamespaces o).
Definition visible (o : cache_options) (kind ns : string) (labels : gmap string string) : bool :=
  watched o ns && match ByObject o !! kind with Some sel => sel labels | None => true end.

(** The authority that is wired can be relied on: see [certs_never_lapse]. *)
Definition sound_authority (a : Authority) : Prop :=
  NoDup (CASecretName :: (SecretName <$> Leaves a)) ∧
  ∀ slack, 0 <= slack <= 24 * Hour →
    11 * (Hour + slack) <= CALifetime a <= max_int64 / 2 ∧ 11 * (Hour + slack) <= LeafLifetime a <= max_int64 / 2.
Lemma authority_sound f ns : sound_authority (applyDefaults (authority f ns)).
Proof.
  split; [refine (bool_decide_unpack _ _); vm_compute; exact I|]. intros slack [H1 H2]. cbn [applyDefaults authority CALifetime LeafLifetime].
  change (0 =? 0) with true. cbn iota. assert (max_int64 / 2 = 4611686018427387903) as -> by done.
  unfold DefaultCALifetime, DefaultLeafLifetime, Hour, Minute, Second in *. lia.
Qed.

(** How the metrics server speaks: TLS with the configured options when it serves securely,
    plain HTTP otherwise, whatever its options are. *)
Definition metrics_tls (m : metrics_options) (t : tls_config) : option tls_config :=
  if SecureServing m then Some (foldl (λ c g, g c) t (mo_TLSOpts m)) else None.

(** C36: A process that starts is within its limits.  Whatever the configuration file, the
    flags and the environment say: the retry period of the leader election is positive
    and below its renew deadline, and that below the lease duration; there is a
    worker; if namespaces are configured to be watched, nothing outside them is seen
    and none of them is a system namespace (with none configured, the default, all
    namespaces are watched, system ones included); the webhook server speaks TLS 1.3,
    and so does the metrics server, with authentication, unless the file or the flag
    sets metrics-secure to false, and then it serves plain HTTP without
    authentication; the safety floors are the built-in ones unless the test flag is
    set; and the certificate authority, when it is the operator's, has the lifetimes
    and Secret names that [certs_never_lapse] asks for, with a slack of up to a day. *)
Theorem started_process_sound w f p :
  main w f = Started p →
  let c := pr_config p in let o := pr_options p in
  (0 < op_RetryPeriod o < op_RenewDeadline o ∧ op_RenewDeadline o < op_LeaseDuration o ∧ 1 <= MaxConcurrentReconciles c) ∧
  (∀ kind ns L, WatchNamespaces c ≠ [] → visible (op_Cache o) kind ns L = true →
     ns ∈ WatchNamespaces c ∧ HasPrefix ns reservedNamespacePrefix = false) ∧
  (WatchNamespaces c = [] → ∀ ns, watched (op_Cache o) ns = true) ∧
  (∀ t, MinVersion (foldl (λ c g, g c) t (wo_TLSOpts (op_WebhookServer o))) = VersionTLS13) ∧
  (∀ t, match metrics_tls (op_Metrics o) t with
        | Some tls => MinVersion tls = VersionTLS13 ∧ mo_AuthFilter (op_Metrics o) = true
        | None => mc_Secure (cfg_Metrics c) = Some false ∧ mo_AuthFilter (op_Metrics o) = false
        end) ∧
  (mc_Secure (cfg_Metrics c) ≠ Some false → SecureServing (op_Metrics o) = true) ∧
  (allowTestOverrides f = false →
     lossThreshold (pr_tunables p) = 60 * Second ∧ recoveryPolls (pr_tunables p) = 2 ∧
     phase11Timeout (pr_tunables p) = 30 * Second ∧ pr_rotation p = None ∧ pr_poll p = 0) ∧
  (∀ a ns, pr_certs p = DynamicAuthority a ns → ns ≠ "" ∧ sound_authority (applyDefaults a)).
Proof.
  intros H c o. destruct (main_started w f p H) as (loaded & sel & Hl & Hc & Hv & _ & Hb & Hcache & Ht & Hp & Hw).
  fold c o in Hc, Hv, Hb, Hcache. unfold buildManagerOptions in Hb. destruct (ParseSelector w _) as [sel'|]; [|done].
  injection Hb as Ho. destruct Hv as [V1 V2 V3 V4 V5 V6 V7]. split_and!; try (rewrite <- Ho; cbn; lia); try done.
  - intros kind ns L Hne [Hns _]%andb_prop. rewrite Hcache in Hns. unfold watched, buildCacheOptions in Hns. cbn [DefaultNamespaces] in Hns.
    assert (Hwn : WatchNamespaces loaded = WatchNamespaces c) by (by rewrite Hc). rewrite Hwn in Hns.
    apply orb_prop in Hns as [Hns|Hns]; apply bool_decide_eq_true in Hns.
    { destruct (WatchNamespaces c) as [|x l]; [done|]. cbn in Hns. set_solver. }
    apply elem_of_list_to_set in Hns. split; [done|]. rewrite Forall_forall in V6. by apply V6.
  - intros Hnil ns. rewrite Hcache. unfold watched, buildCacheOptions. cbn [DefaultNamespaces].
    assert (WatchNamespaces loaded = WatchNamespaces c) as -> by (by rewrite Hc). by rewrite Hnil.
  - intros t. rewrite <- Ho. cbn. unfold buildTLSOpts. by destruct (enableHTTP2 f).
  - intros t. rewrite <- Ho. unfold metrics_tls, buildTLSOpts. cbn. unfold MetricsSecure.
    destruct (mc_Secure _) as [[]|]; [|done|]; by destruct (enableHTTP2 f).
  - rewrite <- Ho. cbn. unfold MetricsSecure. by destruct (mc_Secure _) as [[]|].
  - intros Hf. rewrite Hf in Ht. unfold setupSentinelObserver in Hp. rewrite Hf in Hp. cbn in Ht. injection Ht as <- <-.
    injection Hp as <-. done.
  - intros a ns Ha. unfold setupWebhookCertProvisioning in Hw. destruct (negb _); [rewrite Ha in Hw; done|].
    case_bool_decide as Hns; [done|]. destruct (CertManagerOptedIn _) as [[]|]; [by rewrite Ha in Hw| |done].
    start_inv Hw. rewrite Ha in Hw. injection Hw as <- <-. split; [done|]. apply authority_sound.
Qed.

(** The cache shows the operator its own objects exactly if the configured selector accepts
    their labels; nothing checks that it does, so a selector other than the default one starts a
    process that is blind to what it creates. *)
Theorem own_objects_visible w f p sel kind ns labels :
  main w f = Started p → ParseSelector w (CacheManagedBySelector (pr_config p)) = Ok sel → kind ∈ cacheOwnedTypes →
  visible (op_Cache (pr_options p)) kind ns labels = watched (op_Cache (pr_options p)) ns && sel labels.
Proof.
  intros H Hs Hk. destruct (main_started w f p H) as (loaded & sel' & _ & Hc & _ & Hs' & _ & Hcache & _).
  rewrite Hc in Hs. change (CacheManagedBySelector (applyTo f loaded)) with (CacheManagedBySelector loaded) in Hs.
  rewrite Hs in Hs'. injection Hs' as <-. unfold visible. by rewrite Hcache, cache_by_object, bool_decide_eq_true_2.
Qed.

(** ** The hold of the init container *)
Definition shown (st : nat → stat) (expired : nat → bool) (k : nat) : Prop :=
  st k = Exists ∧ ∀ j, (j < k)%nat → st j = Absent ∧ expired j = false.
Lemma wait_result fuel st expired k :
  (∃ j, (k <= j < k + fuel)%nat ∧ expired j = true) →
  (∃ r, waitForProjectedFile fuel st expired k = Some r) ∧
  (waitForProjectedFile fuel st expired k = Some None ↔
   ∃ j, (k <= j)%nat ∧ st j = Exists ∧ ∀ i, (k <= i < j)%nat → st i = Absent ∧ expired i = false).
Proof.
  revert k. induction fuel as [|fuel IH]; intros k (j & Hj & He); [lia|]. cbn.
  assert (Hstop : ∀ (P : nat → Prop) i, (k <= i)%nat → st k ≠ Exists → st i = Exists →
            (∀ x, (k <= x < i)%nat → P x) → P k).
  { intros P i Hi Hk Hex Hall. apply Hall. split; [lia|]. destruct (decide (i = k)) as [->|]; [done|lia]. }
  destruct (st k) eqn:Ek.
  - split; [by eexists|]. split; [intros _|done]. exists k. split; [lia|]. split; [done|]. intros i Hi. lia.
  - destruct (expired k) eqn:Ex.
    + split; [by eexists|]. split; [done|]. intros (i & Hi & Hex & Hall). destruct (Hstop _ i Hi ltac:(congruence) Hex Hall). congruence.
    + assert (j ≠ k) by congruence. destruct (IH (S k)) as [Hr Hiff]; [exists j; split; [lia|done]|]. split; [done|]. rewrite Hiff. split.
      * intros (i & Hi & Hex & Hall). exists i. split; [lia|]. split; [done|]. intros x Hx.
        destruct (decide (x = k)) as [->|]; [done|]. apply Hall. lia.
      * intros (i & Hi & Hex & Hall). exists i. split; [|split; [done|intros x Hx; apply Hall; lia]].
        destruct (decide (i = k)) as [->|]; [congruence|lia].
  - split; [by eexists|]. split; [done|]. intros (i & Hi & Hex & Hall). destruct (Hstop _ i Hi ltac:(congruence) Hex Hall). congruence.
Qed.

Lemma wait_shown st expired :
  expired (Z.to_nat (bootstrapTimeout / pollInterval)) = true →
  (∃ r, waitForProjectedFile bootstrap_polls st expired 0 = Some r) ∧
  (waitForProjectedFile bootstrap_polls st expired 0 = Some None ↔ ∃ k, shown st expired k).
Proof.
  intros He. destruct (wait_result bootstrap_polls st expired 0) as [Hr Hiff].
  { eexists. split; [|exact He]. unfold bootstrap_polls. lia. }
  split; [done|]. rewrite Hiff. unfold shown. split.
  - intros (j & _ & Hex & Hall). exists j. split; [done|]. intros i Hi. apply Hall. lia.
  - intros (j & Hex & Hall). exists j. split; [lia|]. split; [done|]. intros i Hi. apply Hall. lia.
Qed.

(** The init container does not hang.  The context expires after three minutes and a poll
    is made every two seconds, so one of the first 91 polls ends the wait; it succeeds
    exactly if the file shows up while every earlier poll found it absent and the context had
    not expired. *)
Theorem bootstrap_wait_ends st expired :
  expired (Z.to_nat (bootstrapTimeout / pollInterval)) = true →
  (∃ r, waitForProjectedFile bootstrap_polls st expired 0 = Some r) ∧
  (waitForProjectedFile bootstrap_polls st expired 0 = Some None ↔ ∃ k, shown st expired k).
Proof. apply wait_shown. Qed.

Lemma wait_all_shown {X : X509} (i : bootstrap_in (X := X)) l acc dirs label dir :
  b_expired i (Z.to_nat (bootstrapTimeout / pollInterval)) = true →
  wait_all i l acc = Started dirs → (label, dir) ∈ l → dir ≠ "" → ∃ k, shown (b_stat i dir "tls.crt") (b_expired i) k.
Proof.
  intros He. revert acc. induction l as [|[lb d] l IH]; intros acc H Hin Hne; [by apply not_elem_of_nil in Hin|].
  cbn [wait_all] in H. apply elem_of_cons in Hin as [[= <- <-]|Hin].
  - rewrite bool_decide_eq_false_2 in H by done. destruct (waitForProjectedFile _ _ _ _) as [[e|]|] eqn:E; [done| |done].
    by apply (wait_shown _ _ He).
  - case_bool_decide; [by apply (IH acc)|]. destruct (waitForProjectedFile _ _ _ _) as [[e|]|]; [done| |done]. by eapply IH.
Qed.
(** The container that needs the certificates starts after they are on disk: a bootstrap that
    ends well has seen the file in every directory that is configured. *)
Lemma bootstrap_projects {R : MapRange} {X : X509} w f (i : bootstrap_in (X := X)) s dirs s' dir :
  b_expired i (Z.to_nat (bootstrapTimeout / pollInterval)) = true → bootstrapOnly f = true →
  entry w f i s = (Started (inl (Projected dirs)), s') →
  dir ∈ [webhookCertPath f; metricsCertPath f] → dir ≠ "" → ∃ k, shown (b_stat i dir "tls.crt") (b_expired i) k.
Proof.
  intros He Hb H Hin Hne. unfold entry in H. rewrite Hb in H. unfold runBootstrap in H.
  destruct (negb _); [done|]. case_bool_decide; [done|]. destruct (b_client i); [done|].
  destruct (CertManagerOptedIn _) as [[]|]; [done| |done]. destruct (Bootstrap _ _ s) as [[e|] s1]; [done|].
  destruct (wait_all i _ []) as [dirs'|] eqn:Ew; [|done].
  assert (∃ label, (label, dir) ∈ range_of (<["webhook" := webhookCertPath f]> {["metrics" := metricsCertPath f]} : gmap string string)) as [label Hl].
  { setoid_rewrite range_of_perm. setoid_rewrite elem_of_map_to_list.
    apply elem_of_cons in Hin as [->|E%list_elem_of_singleton]; [exists "webhook"|subst dir; exists "metrics"].
    - apply lookup_insert_eq.
    - rewrite lookup_insert_ne by done. apply lookup_singleton_eq. }
  by apply (wait_all_shown i _ [] dirs' label dir He Ew).
Qed.

(** An override is only checked before it is multiplied: a number of seconds that is far too
    large wraps around, and the floor it was meant to raise is lowered. *)
Theorem override_wraps getenv_ :
  getenv_ "VALKEY_OPERATOR_QUORUM_LOSS_SUPPRESSION_SEC" = "18446744074" →
  parsePositiveIntEnv getenv_ "VALKEY_OPERATOR_QUORUM_LOSS_SUPPRESSION_SEC" = Started (Some 18446744074) ∧
  0 < seconds 18446744074 < Second.
Proof. intros H. unfold parsePositiveIntEnv. rewrite H. by vm_compute. Qed.

(** ** A concrete start *)
Definition managed (L : gmap string string) : bool := bool_decide (L !! ManagedByLabel = Some ManagedByValue).
Definition demo_selector (s : string) : result Selector :=
  if bool_decide (s = DefaultManagedByLabel) then Ok managed
  else Err "unable to parse".
Definition demo_world : world :=
  {| getenv := λ n, if bool_decide (n = envPodNamespace) then "velkir-system" else ""; open := λ _, Opened (Ok "watchNamespaces: [team-a]");
     Unmarshal := λ _ c, Ok {| WatchNamespaces := ["team-a"]; LeaderElection := LeaderElection c; cfg_Metrics := cfg_Metrics c;
       HealthProbeBindAddress := HealthProbeBindAddress c; cfg_Webhook := cfg_Webhook c;
       CacheManagedBySelector := CacheManagedBySelector c; MaxConcurrentReconciles := MaxConcurrentReconciles c |};
     ParseSelector := demo_selector; register := λ _, None; cert_probe := CertificateAbsent |}.
Definition demo_flags : flags :=
  {| configPath := DefaultPath; metricsAddr := ":8080"; metricsSecure := true; probeAddr := ""; leaderElect := false;
     webhookCertPath := "/certs"; webhookCertName := "tls.crt"; webhookCertKey := "tls.key"; webhookServiceName := "velkir-webhook";
     enableDynamicAuthority := true; metricsCertPath := ""; metricsCertName := "tls.crt"; metricsCertKey := "tls.key";
     metricsServiceName := "velkir-metrics"; enableHTTP2 := false; bootstrapOnly := false; allowTestOverrides := false;
     setExplicitly := {["metrics-bind-address"]} |}.
Definition demo_process : startup process := main demo_world demo_flags.

Example demo_overlay :
  match demo_process with
  | Started p => (mo_BindAddress (op_Metrics (pr_options p)), op_LeaderElection (pr_options p), pr_certs p) =
                 (":8080", true, DynamicAuthority (authority demo_flags "velkir-system") "velkir-system")
  | Exits _ => False
  end.
Proof. vm_compute. reflexivity. Qed.

(** System namespaces are refused. *)
Example demo_reserved : validateWatchNamespaces ["team-a"; "kube-system"] = Some (NamespaceReserved 1 "kube-system").
Proof. vm_compute. reflexivity. Qed.

Definition started_or {A} (d : A) (r : startup A) : A := match r with Started a => a | Exits _ => d end.
Lemma started_process_sound_witness :
  match demo_process with
  | Started p => lossThreshold (pr_tunables p) = 60 * Second ∧
      ∀ kind ns L, visible (op_Cache (pr_options p)) kind ns L = true → ns ∈ ["team-a"]
  | Exits _ => False
  end.
Proof.
  pose proof (started_process_sound demo_world demo_flags) as H. fold demo_process in H.
  destruct demo_process as [p|e] eqn:E; [|vm_compute in E; discriminate E].
  destruct (H p eq_refl) as (_ & Hns & _ & _ & _ & _ & Hl & _). split; [by apply Hl|]. intros kind ns L Hv.
  assert (Hw : WatchNamespaces (pr_config p) = ["team-a"]).
  { change (WatchNamespaces (pr_config (started_or p (Started p))) = ["team-a"]). rewrite <- E. vm_compute. reflexivity. }
  rewrite Hw in Hns. by apply (Hns kind ns L).
Defined.

Lemma bootstrap_wait_ends_witness :
  ∃ r, waitForProjectedFile bootstrap_polls (λ _, Absent) (λ k, bool_decide (89 < k)%nat) 0 = Some r.
Proof. apply (bootstrap_wait_ends (λ _, Absent) (λ k, bool_decide (89 < k)%nat)). vm_compute. reflexivity. Defined.

Lemma own_objects_visible_witness :
  match demo_process with
  | Started p => visible (op_Cache (pr_options p)) "Service" "team-a" (ownedLabels "vk" "valkey") =
                 watched (op_Cache (pr_options p)) "team-a" &&
                 managed (ownedLabels "vk" "valkey")
  | Exits _ => False
  end.
Proof.
  pose proof (own_objects_visible demo_world demo_flags) as H. fold demo_process in H.
  destruct demo_process as [p|e] eqn:E; [|vm_compute in E; discriminate E].
  apply (H p managed); [done| |].
  - change (demo_selector (CacheManagedBySelector (pr_config (started_or p (Started p)))) =
      Ok managed). rewrite <- E. reflexivity.
  - unfold cacheOwnedTypes. set_solver.
Defined.

Lemma override_wraps_witness :
  parsePositiveIntEnv (λ _, "18446744074") "VALKEY_OPERATOR_QUORUM_LOSS_SUPPRESSION_SEC" = Started (Some 18446744074) ∧
  0 < seconds 18446744074 < Second.
Proof. apply (override_wraps (λ _, "18446744074")). reflexivity. Defined.
