(* ===== verification/Reports.v ===== *)
(** * What the operator reports: the audit stream and the deduplicated events

    [internal/audit/log.go], the three reporters of [internal/events] that emit once per
    subject ([deprecation.go], [deviation.go], [short_password.go]), the sweeps that feed them
    ([deprecation_check.go], [deviation_check.go]) and the events of a sentinel surgery
    ([emitMonitorEvents] and its siblings of [internal/sentinel/manager.go]). *)
From S2P Require Import Prelude GoStd GoFmt Resp Observer SentinelWire Surgery DeriveState ApiTypes Webhook.
From stdpp Require Import sorting.
From Stdlib Require Sorted.
Local Open Scope Z_scope.

(** ** The audit stream *)
Definition EventReconciliationPaused : string := "reconciliation_paused".
Definition EventManualRolloutTriggered : string := "manual_rollout_triggered".
Definition EventPVCLossAccepted : string := "pvc_loss_accepted".
Definition EventAggressiveTimeoutsAccepted : string := "aggressive_timeouts_accepted".
Definition EventForceScaleAccepted : string := "force_scale_accepted".
Definition EventSentinelFailoverIssued : string := "sentinel_failover_issued".
Definition EventSentinelResetIssued : string := "sentinel_reset_issued".
Definition EventAuthSecretRotated : string := "auth_secret_rotated".
Definition EventFinalizerRemovedExternally : string := "finalizer_removed_externally".
Definition EventPodLabelReconciled : string := "pod_label_reconciled".
Definition EventAdmissionRejected : string := "admission_rejected".
Definition EventDeviationAccepted : string := "deviation_accepted".
Definition EventClientsKilled : string := "clients_killed".

(** The catalogue as declared, and as [init] leaves it. *)
Definition declaredEvents : list string :=
  [EventReconciliationPaused; EventManualRolloutTriggered; EventPVCLossAccepted; EventAggressiveTimeoutsAccepted;
   EventForceScaleAccepted; EventSentinelFailoverIssued; EventSentinelResetIssued; EventAuthSecretRotated;
   EventFinalizerRemovedExternally; EventPodLabelReconciled; EventAdmissionRejected; EventDeviationAccepted;
   EventClientsKilled].
Definition AllEvents : list string := sort_strings declaredEvents.

(** [sort.Search]: the loop on [i, j), with a bound on its turns. *)
Fixpoint search_loop (fuel : nat) (f : nat → bool) (i j : nat) : nat :=
  match fuel with
  | O => i
  | S fuel =>
      if (i <? j)%nat then
        let h := Nat.div2 (i + j) in
        if f h then search_loop fuel f i h else search_loop fuel f (S h) j
      else i
  end.
Definition Search (n : nat) (f : nat → bool) : nat := search_loop n f 0 n.
Definition SearchStrings (a : list string) (x : string) : nat :=
  Search (length a) (λ i, match a !! i with Some y => negb (String.ltb y x) | None => true end).
Definition known_in (events : list string) (name : string) : bool :=
  bool_decide (events !! SearchStrings events name = Some name).
Definition IsKnown (name : string) : bool := known_in AllEvents name.

Record audit_event := {
  av_Name : string;
  av_CR : string * string;
  av_Requestor : string;
  av_Attrs : gmap string string
}.
Inductive log_line : Type := Dropped (name cr : string) | Audit (keysAndValues : list (string * string)).

Definition requestor_of (evt : audit_event) : string :=
  if bool_decide (av_Requestor evt = "") then "operator:reconciler" else av_Requestor evt.
Definition with_values (attrs : gmap string string) (keys : list string) : list (string * string) :=
  (λ k, (k, default "" (attrs !! k))) <$> keys.
Definition Log {R : MapRange} (evt : audit_event) : log_line :=
  let cr := (av_CR evt).1 +:+ "/" +:+ (av_CR evt).2 in
  if negb (IsKnown (av_Name evt)) then Dropped (av_Name evt) cr
  else
    Audit ([("event", av_Name evt); ("cr", cr); ("requestor", requestor_of evt)] ++
           with_values (av_Attrs evt) (sort_strings ((range_of (av_Attrs evt)).*1))).

(** ** Reporters *)

(** The key of a subject, and what [Forget] compares keys with. *)
Definition subject (ns name rest : string) : string := ns +:+ "/" +:+ name +:+ "/" +:+ rest.
Definition subjects_of (ns name : string) : string := ns +:+ "/" +:+ name +:+ "/".

(** [recorder]: neither the reporter nor its recorder is nil. *)
Definition emit_once (recorder : bool) (key : string) (emitted : gset string) : bool * gset string :=
  if negb recorder then (false, emitted)
  else if bool_decide (key ∈ emitted) then (false, emitted)
  else (true, {[key]} ∪ emitted).
Definition Forget (ns name : string) (emitted : gset string) : gset string :=
  filter (λ k, HasPrefix k (subjects_of ns name) = false) emitted.

Section reporters.
Context (recorder : bool) (ns name : string).

Definition posted (key : string) (e : event) (emitted : gset string) : list event * gset string :=
  let '(now, emitted) := emit_once recorder key emitted in (if now then [e] else [], emitted).
Definition EmitDeprecation (field removalWindow : string) : gset string → list event * gset string :=
  posted (subject ns name field)
    (CREvent false "FieldDeprecated" "FieldDeprecate"
       ("spec field " +:+ Quote field +:+ " is deprecated; " +:+ removalWindow +:+ " — switch off it before the next minor")).
Definition EmitDeviation (reason field message : string) : gset string → list event * gset string :=
  posted (subject ns name (reason +:+ "/" +:+ field)) (CREvent true reason "BestPracticeDeviation" message).
Definition EmitShortPassword (secretName : string) (passwordLen minLen : Z) (emitted : gset string) :
    list event * gset string :=
  if bool_decide (secretName = "") then ([], emitted)
  else posted (subject ns name secretName)
    (CREvent true "AuthSecretShortPassword" "AuthSecretShortPassword"
       ("auth Secret " +:+ Quote secretName +:+ " has password length " +:+ Itoa passwordLen +:+ " (< MinTokenLen " +:+
        Itoa minLen +:+ "); the redaction registry will not scrub this value from operator logs")) emitted.

(** The sweeps of a pass. *)
Fixpoint sweep {A} (emit : A → gset string → list event * gset string) (l : list A) (emitted : gset string) :
    list event * gset string :=
  match l with
  | [] => ([], emitted)
  | x :: l => let '(e, emitted) := emit x emitted in let '(es, emitted) := sweep emit l emitted in (e ++ es, emitted)
  end.
Definition emitDeviations (ds : list Deviation) : gset string → list event * gset string :=
  sweep (λ d, EmitDeviation (d_Reason d) (d_Field d) (d_Message d)) ds.
Record FieldDeprecation (V : Type) := { Path : string; RemovalWindow : string; Predicate : option (V → bool) }.
Definition ProductionDeprecations {V : Type} : list (FieldDeprecation V) := [].
Definition checkDeprecations {V : Type} (registry : list (FieldDeprecation V)) (v : V) : gset string → list event * gset string :=
  sweep (λ d emitted, if match Predicate _ d with Some p => p v | None => false end
                      then EmitDeprecation (Path _ d) (RemovalWindow _ d) emitted else ([], emitted)) registry.
End reporters.

(** ** Events of a sentinel surgery *)
Definition auth_text (e : auth_err) : string :=
  match e with errAuthPassMismatch => "verify: auth-pass verify mismatch" | AuthErr e => e end.
Definition emit_results {A} (recorder : bool) (ok fail : A → list event) (err : A → bool) (results : list A) : list event :=
  if negb recorder || bool_decide (length results = 0%nat) then []
  else results ≫= (λ r, if err r then fail r else ok r).
Definition emitMonitorEvents (recorder : bool) : list MonitorResult → list event :=
  emit_results recorder
    (λ r, [CREvent false "SentinelMonitorIssued" "SentinelMonitorIssue" ("SENTINEL MONITOR on " +:+ mr_Name r +:+ " succeeded")])
    (λ r, [CREvent true "SentinelMonitorFailed" "SentinelMonitorFail"
             ("SENTINEL MONITOR on " +:+ mr_Name r +:+ " failed: " +:+ default "" (mr_Err r))])
    (λ r, bool_decide (is_Some (mr_Err r))).
Definition emitTuningEvents (recorder : bool) : list TuningResult → list event :=
  emit_results recorder (λ _, [])
    (λ r, [CREvent true "SentinelTuningFailed" "SentinelTuningFail"
             ("SENTINEL tuning restore on " +:+ tr_Name r +:+ " failed: " +:+ default "" (tr_Err r) +:+
              "; pod reverted to default timing knobs")])
    (λ r, bool_decide (is_Some (tr_Err r))).
Definition emitResetEvents (recorder : bool) (results : list ResetResult) : list event :=
  let failures := length (List.filter (λ r, bool_decide (is_Some (rs_Err r))) results) in
  emit_results recorder
    (λ r, [CREvent false "SentinelResetIssued" "SentinelResetIssue" ("sentinel surgery on " +:+ rs_Name r +:+ " succeeded")])
    (λ r, [CREvent true "SentinelResetFailed" "SentinelResetFail"
             ("sentinel surgery on " +:+ rs_Name r +:+ ": " +:+ default "" (rs_Err r))])
    (λ r, bool_decide (is_Some (rs_Err r))) results ++
  (if recorder && negb (bool_decide (length results = 0%nat)) && bool_decide (failures = length results) then
     [CREvent true "SentinelResetAllFailed" "SentinelResetAllFail"
        ("sentinel surgery failed on every stranded target (" +:+ Itoa (Z.of_nat failures) +:+ "/" +:+
         Itoa (Z.of_nat (length results)) +:+ ") — next reconcile will retry")]
   else []).
Definition emitAuthEvents (recorder : bool) (attempts : Z) : list AuthResult → list event :=
  emit_results recorder
    (λ r, [CREvent false "SentinelAuthApplied" "SentinelAuthApply"
             ("SENTINEL SET auth-pass on " +:+ ar_Name r +:+ " succeeded (verified)")])
    (λ r, [CREvent true "SentinelAuthNotApplied" "SentinelAuthNotApply"
             ("SENTINEL SET auth-pass on " +:+ ar_Name r +:+ " failed after " +:+ Itoa attempts +:+ " attempts: " +:+
              from_option auth_text "" (ar_Err r))])
    (λ r, bool_decide (is_Some (ar_Err r))).

(** ** Lemmas: the catalogue *)
Lemma div2_between i j : (i < j)%nat → (i <= Nat.div2 (i + j) < j)%nat.
Proof. intros H. rewrite Nat.div2_div. split; [apply Nat.div_le_lower_bound; lia|apply Nat.Div0.div_lt_upper_bound; lia]. Qed.
(** With [f] monotone, the search ends at the first index where it holds. *)
Lemma search_first f fuel i j :
  (∀ a b, (a <= b)%nat → f a = true → f b = true) → (j - i <= fuel)%nat → (i <= j)%nat →
  (∀ a, (a < i)%nat → f a = false) → (∀ a, (j <= a)%nat → f a = true) →
  let r := search_loop fuel f i j in (∀ a, (a < r)%nat → f a = false) ∧ f r = true.
Proof.
  intros Hm. revert i j. induction fuel as [|fuel IH]; intros i j Hf Hij Hlo Hhi; cbv zeta; cbn [search_loop].
  { split; [done|]. apply Hhi. lia. }
  destruct (Nat.ltb_spec i j) as [Hlt|Hge]; [|split; [done|]; apply Hhi; lia].
  pose proof (div2_between i j Hlt). destruct (f (Nat.div2 (i + j))) eqn:E; apply IH; try lia; try assumption.
  - intros a Ha. by apply (Hm (Nat.div2 (i + j))).
  - intros a Ha. destruct (f a) eqn:Ea; [|done]. rewrite (Hm a (Nat.div2 (i + j))) in E; [done|lia|done].
Qed.
Lemma sorted_before (l : list string) i j x y :
  Sorted.StronglySorted String.le l → l !! i = Some x → l !! j = Some y → (i <= j)%nat → String.le x y.
Proof.
  intros Hs. revert i j. induction Hs as [|z l Hs IH Hall]; intros i j Hx Hy Hle; [done|].
  destruct i as [|i], j as [|j]; cbn in *; try lia.
  - injection Hx as ->. injection Hy as ->. reflexivity.
  - injection Hx as ->. rewrite List.Forall_forall in Hall. apply Hall, list_elem_of_In. by eapply list_elem_of_lookup_2.
  - apply (IH i j); [done|done|lia].
Qed.
Lemma known_in_sorted l name : Sorted.StronglySorted String.le l → known_in l name = true ↔ name ∈ l.
Proof.
  intros Hs. unfold known_in. rewrite bool_decide_eq_true. split; [by apply list_elem_of_lookup_2|].
  intros [k Hk]%list_elem_of_lookup_1. unfold SearchStrings, Search.
  set (f := λ i : nat, match l !! i with Some y => negb (String.ltb y name) | None => true end).
  destruct (search_first f (length l) 0 (length l)) as [Hlo Hr]; [|lia|lia|intros; lia| |].
  - unfold f. intros a b Hab. destruct (l !! a) as [x|] eqn:Ex.
    + rewrite negb_true_iff, ltb_false. intros Hle. destruct (l !! b) as [y|] eqn:Ey; [|done].
      rewrite negb_true_iff, ltb_false. etrans; [exact Hle|]. by apply (sorted_before l a b).
    + intros _. by rewrite (lookup_ge_None_2 l b) by (apply lookup_ge_None in Ex; lia).
  - intros a Ha. unfold f. by rewrite lookup_ge_None_2.
  - set (r := search_loop _ _ _ _) in *.
    assert (Hrk : (r <= k)%nat).
    { destruct (decide (r <= k)%nat); [done|]. specialize (Hlo k ltac:(lia)). unfold f in Hlo. rewrite Hk in Hlo.
      rewrite negb_false_iff, ltb_le in Hlo. by destruct Hlo. }
    unfold f in Hr. pose proof (lookup_lt_Some _ _ _ Hk). destruct (lookup_lt_is_Some_2 l r) as [y Hy]; [lia|].
    rewrite Hy in Hr |- *. rewrite negb_true_iff, ltb_false in Hr. f_equal.
    apply (anti_symm String.le); [by apply (sorted_before l r k)|done].
Qed.
Lemma strings_sorted l : Sorted.StronglySorted String.le (sort_strings l).
Proof.
  apply sort_by_sorted; [apply _| |].
  - intros x y H. by apply ltb_le in H as [? _].
  - intros x y H. by apply ltb_false in H.
Qed.
Lemma IsKnown_iff name : IsKnown name = true ↔ name ∈ declaredEvents.
Proof.
  unfold IsKnown. rewrite known_in_sorted by apply strings_sorted. unfold AllEvents, sort_strings. by rewrite sort_by_perm.
Qed.

(** ** What the stream says *)
Lemma sorted_keys_unique (l l' : list string) : l ≡ₚ l' → sort_strings l = sort_strings l'.
Proof.
  intros H. apply (StronglySorted_unique String.le); [apply strings_sorted..|].
  unfold sort_strings. by rewrite !sort_by_perm.
Qed.

Lemma with_values_keys attrs keys : (with_values attrs keys).*1 = keys.
Proof. unfold with_values. rewrite <- list_fmap_compose. unfold compose. cbn. apply list_fmap_id. Qed.
Lemma with_values_exact attrs keys :
  keys ≡ₚ (map_to_list attrs).*1 → NoDup (with_values attrs keys).*1 ∧ list_to_map (with_values attrs keys) = attrs.
Proof.
  intros Hk. assert (Hnd : NoDup (with_values attrs keys).*1) by (rewrite with_values_keys, Hk; apply NoDup_fst_map_to_list).
  split; [done|]. apply map_eq. intros k. apply option_eq. intros v. rewrite <- elem_of_list_to_map by done.
  unfold with_values. rewrite list_elem_of_fmap. split.
  - intros (k' & [= -> ->] & Hin). rewrite Hk in Hin. apply list_elem_of_fmap in Hin as ([k1 v1] & -> & Hin).
    apply elem_of_map_to_list in Hin. cbn. by rewrite Hin.
  - intros Hv. exists k. rewrite Hv. split; [done|]. rewrite Hk. apply list_elem_of_fmap. exists (k, v). by rewrite elem_of_map_to_list.
Qed.

(** The audit stream is complete and reproducible.  An entry is dropped exactly if its name is
    not in the catalogue; an entry that is kept has its name, its CR and its requestor (the
    reconciler, if nobody else) first, and then its attributes, all of them and nothing
    else, in an order that does not depend on the order in which the map is walked. *)
Theorem audit_line_exact (R R' : MapRange) evt :
  Log (R := R) evt = Log (R := R') evt ∧
  (match Log (R := R) evt with Dropped n _ => n = av_Name evt | Audit _ => False end ↔ av_Name evt ∉ declaredEvents) ∧
  (av_Name evt ∈ declaredEvents → ∃ who attrs,
     Log (R := R) evt = Audit ([("event", av_Name evt); ("cr", (av_CR evt).1 +:+ "/" +:+ (av_CR evt).2); ("requestor", who)] ++ attrs) ∧
     who ≠ "" ∧ NoDup attrs.*1 ∧ list_to_map attrs = av_Attrs evt).
Proof.
  unfold Log. rewrite <- IsKnown_iff. destruct (IsKnown (av_Name evt)) eqn:E; cbn [negb].
  - split.
    { f_equal. f_equal. f_equal. apply sorted_keys_unique, fmap_Permutation. by rewrite !range_of_perm. }
    split; [split; [done|by intros []]|]. intros _.
    exists (requestor_of evt), (with_values (av_Attrs evt) (sort_strings (@range_of R _ (av_Attrs evt)).*1)).
    split; [done|]. split; [unfold requestor_of; by case_bool_decide|]. apply with_values_exact.
    unfold sort_strings. rewrite sort_by_perm. apply fmap_Permutation, range_of_perm.
  - split; [done|]. split; [split; [intros _; congruence|done]|congruence].
Qed.

(** Every entry the operator writes is in the catalogue: those of the reconciler, of the
    rotation and of the webhook. *)
Lemma catalogue_covers :
  Forall (λ n, IsKnown n = true)
    ["manual_rollout_triggered"; "pod_label_reconciled"; "sentinel_failover_issued"; "sentinel_reset_issued"; "clients_killed";
     "auth_secret_rotated"; "pvc_loss_accepted"; "reconciliation_paused"; "admission_rejected"; "aggressive_timeouts_accepted"].
Proof. repeat constructor. Qed.

(** [init] does not panic. *)
Lemma catalogue_distinct : NoDup declaredEvents.
Proof. apply (bool_decide_unpack _). vm_compute. exact I. Qed.

(** ** Lemmas: subjects *)
Definition slash_free (s : string) : Prop := has_byte "/" s = false.
Lemma slash_free_cons c a : slash_free (String c a) ↔ c ≠ "/"%char ∧ slash_free a.
Proof.
  unfold slash_free, has_byte. cbn. case_bool_decide as E; [split; [done|by intros [? _]]|].
  destruct (IndexByte _ a); cbn; split; [done|by intros [_ ?]|by intros _|done].
Qed.
Lemma app_empty t : "" +:+ t = t.
Proof. done. Qed.
Lemma app_cons c a t : String c a +:+ t = String c (a +:+ t).
Proof. done. Qed.
Lemma slash_prefix a a' x y :
  slash_free a → slash_free a' →
  HasPrefix (a' +:+ String "/" y) (a +:+ String "/" x) = true ↔ a = a' ∧ HasPrefix y x = true.
Proof.
  unfold HasPrefix. revert a'. induction a as [|c a IH]; intros [|c' a'] Ha Ha'; rewrite ?app_empty, ?app_cons; cbn [String.prefix].
  - destruct (Ascii.ascii_dec "/" "/") as [_|Hn]; [|by destruct Hn]. split; [intros H; by split|by intros [_ ?]].
  - apply slash_free_cons in Ha' as [Hc _]. destruct (Ascii.ascii_dec "/" c') as [E|_]; [by destruct Hc|]. split; [discriminate|intros [? _]; discriminate].
  - apply slash_free_cons in Ha as [Hc _]. destruct (Ascii.ascii_dec c "/") as [E|_]; [by destruct Hc|]. split; [discriminate|intros [? _]; discriminate].
  - apply slash_free_cons in Ha as [_ Ha], Ha' as [_ Ha']. destruct (Ascii.ascii_dec c c') as [<-|Hne].
    + rewrite (IH a' Ha Ha'). split; [intros [-> ?]; by split|]. intros [[= ->] ?]; by split.
    + split; [done|]. by intros [[= ->] _].
Qed.
Lemma subject_of_cr ns name ns' name' k :
  slash_free ns → slash_free name → slash_free ns' → slash_free name' →
  HasPrefix (subject ns' name' k) (subjects_of ns name) = true ↔ ns = ns' ∧ name = name'.
Proof.
  intros H1 H2 H3 H4. change (subject ns' name' k) with (ns' +:+ String "/" (name' +:+ String "/" k)).
  change (subjects_of ns name) with (ns +:+ String "/" (name +:+ String "/" "")).
  rewrite (slash_prefix ns ns'), (slash_prefix name name') by done.
  assert (HasPrefix k "" = true) as -> by (by destruct k). split; [by intros (-> & -> & _)|by intros [-> ->]].
Qed.

(** ** A reporter over the life of the process *)
Inductive report_op : Type := Report (ns name k : string) | ForgetCR (ns name : string).
#[export] Instance report_op_eq_dec : EqDecision report_op.
Proof. solve_decision. Defined.
Definition named (o : report_op) : Prop :=
  match o with Report ns name _ | ForgetCR ns name => slash_free ns ∧ slash_free name end.
Definition step (o : report_op) (s : gset string) : list (string * string * string) * gset string :=
  match o with
  | Report ns name k => let '(b, s) := emit_once true (subject ns name k) s in (if b then [(ns, name, k)] else [], s)
  | ForgetCR ns name => ([], Forget ns name s)
  end.
Fixpoint run (l : list report_op) (s : gset string) : list (string * string * string) * gset string :=
  match l with
  | [] => ([], s)
  | o :: l => let '(e, s) := step o s in let '(es, s) := run l s in (e ++ es, s)
  end.

(** Two subjects share a key only if they are one. *)
Lemma subject_inj ns name k ns' name' k' :
  slash_free ns → slash_free name → slash_free ns' → slash_free name' →
  subject ns name k = subject ns' name' k' → (ns, name, k) = (ns', name', k').
Proof.
  intros H1 H2 H3 H4 E. assert (Hp : HasPrefix (subject ns' name' k') (subjects_of ns name) = true).
  { rewrite <- E. by apply subject_of_cr. }
  apply subject_of_cr in Hp as [-> ->]; [|done..]. unfold subject in E. repeat apply (inj (String.append _)) in E. by subst.
Qed.

Lemma run_app l l' s : run (l ++ l') s = let r := run l s in ((run l s).1 ++ (run l' r.2).1, (run l' r.2).2).
Proof.
  revert s. induction l as [|o l IH]; intros s; cbn; [by destruct (run l' s)|].
  destruct (step o s) as [e s1]. rewrite IH. destruct (run l s1) as [es s2]. cbn. by rewrite <- (assoc_L (++)).
Qed.

(** From a set that does not hold the subject, and while its CR is not forgotten, it is
    reported once if at all. *)
Definition times (ns name k : string) (l : list (string * string * string)) : nat :=
  count (λ x, bool_decide (x = (ns, name, k))) l.
#[local] Arguments times : simpl never.
Lemma times_app ns name k l l' : times ns name k (l ++ l') = (times ns name k l + times ns name k l')%nat.
Proof. apply count_app. Qed.

Lemma step_effect ns name k o s :
  slash_free ns → slash_free name → named o → o ≠ ForgetCR ns name →
  (subject ns name k ∈ (step o s).2 ↔ subject ns name k ∈ s ∨ o = Report ns name k) ∧
  times ns name k (step o s).1 = if decide (o = Report ns name k ∧ subject ns name k ∉ s) then 1%nat else 0%nat.
Proof.
  intros Hns Hname Ho Hne. destruct o as [ns' name' k'|ns' name']; cbn in Ho; destruct Ho as [Hns' Hname']; cbn [step].
  - assert (Hkey : subject ns' name' k' = subject ns name k ↔ Report ns' name' k' = Report ns name k).
    { split; [|by intros [= -> -> ->]]. intros E. apply subject_inj in E; [|done..]. by injection E as -> -> ->. }
    unfold emit_once. cbn [negb]. destruct (decide (subject ns' name' k' ∈ s)) as [Hin|Hin].
    + rewrite bool_decide_eq_true_2 by done. cbn [fst snd]. split.
      * split; [by left|]. intros [?|E]; [done|]. apply Hkey in E. by rewrite <- E.
      * rewrite decide_False; [done|]. intros [E Hn]. apply Hkey in E. by rewrite <- E in Hn.
    + rewrite bool_decide_eq_false_2 by done. cbn [fst snd]. split.
      * rewrite elem_of_union, elem_of_singleton, <- Hkey. split; [intros [E|?]; [by right|by left]|intros [?|E]; [by right|by left]].
      * unfold times. cbn. case_decide as Hd; case_bool_decide as Ht; try done.
        -- destruct Hd as [[= -> -> ->] _]. done.
        -- injection Ht as -> -> ->. by destruct Hd.
  - cbn [fst snd]. split; [|by rewrite decide_False by (by intros [? _])]. unfold Forget. rewrite elem_of_filter. split; [by intros [_ ?]; left|].
    intros [Hin|?]; [|done]. split; [|done]. destruct (HasPrefix _ _) eqn:E; [|done]. by apply subject_of_cr in E as [-> ->].
Qed.
Lemma run_cons o l s : (run (o :: l) s).1 = (step o s).1 ++ (run l (step o s).2).1.
Proof. cbn. destruct (step o s) as [e s1]. cbn. by destruct (run l s1). Qed.
Lemma run_reports ns name k l s :
  slash_free ns → slash_free name → Forall named l → ForgetCR ns name ∉ l →
  times ns name k (run l s).1 = if decide (Report ns name k ∈ l ∧ subject ns name k ∉ s) then 1%nat else 0%nat.
Proof.
  intros Hns Hname. revert s. induction l as [|o l IH]; intros s Hnd Hf.
  { rewrite decide_False; [done|]. by intros [?%not_elem_of_nil _]. }
  apply Forall_cons in Hnd as [Ho Hnd]. apply not_elem_of_cons in Hf as [Hfo Hf].
  destruct (step_effect ns name k o s Hns Hname Ho ltac:(congruence)) as [Hin Ht].
  rewrite run_cons, times_app, (IH _ Hnd Hf), Ht.
  destruct (decide (o = Report ns name k ∧ subject ns name k ∉ s)) as [[-> Hn]|Hd].
  - rewrite decide_False; [|intros [_ Hx]; apply Hx, Hin; by right]. by rewrite decide_True by (split; [left|done]).
  - apply decide_ext. rewrite elem_of_cons, Hin. split.
    + intros [Hl Hn]. split; [by right|]. intros Hx. apply Hn. by left.
    + intros [[E|Hl] Hn]; [by destruct Hd|]. split; [done|]. intros [?|E]; [done|]. by destruct Hd.
Qed.

(** A reporter speaks once.  After the start of the process or after its CR was deleted, a
    subject (a deprecated field, a deviation, a Secret with a short password) is reported
    exactly once if it is observed at all, until the CR is deleted again; what happens to
    other CRs, including those whose names begin alike, makes no difference. *)
Theorem reported_once before l ns name k :
  slash_free ns → slash_free name → Forall named l → ForgetCR ns name ∉ l →
  before = [] ∨ last before = Some (ForgetCR ns name) →
  times ns name k (run l (run before ∅).2).1 = if decide (Report ns name k ∈ l) then 1%nat else 0%nat.
Proof.
  intros Hns Hname Hnd Hf Hb. rewrite run_reports by done. apply decide_ext. split; [by intros [? _]|]. intros Hin. split; [done|].
  destruct Hb as [->|Hl]; [cbn; set_solver|]. apply last_Some in Hl as [b ->]. rewrite run_app. cbn.
  unfold Forget. rewrite elem_of_filter. intros [Hp _].
  rewrite (proj2 (subject_of_cr ns name ns name k Hns Hname Hns Hname) (conj eq_refl eq_refl)) in Hp. done.
Qed.

Lemma reported_once_witness :
  times "team" "vk" "spec.a" (run [Report "team" "vk" "spec.a"; Report "team" "vk2" "x"; ForgetCR "team" "vk2"; Report "team" "vk" "spec.a"]
    (run [Report "team" "vk" "spec.a"; ForgetCR "team" "vk"] ∅).2).1 = 1%nat.
Proof.
  apply (reported_once [Report "team" "vk" "spec.a"; ForgetCR "team" "vk"]
    [Report "team" "vk" "spec.a"; Report "team" "vk2" "x"; ForgetCR "team" "vk2"; Report "team" "vk" "spec.a"] "team" "vk" "spec.a").
  - reflexivity.
  - reflexivity.
  - repeat constructor.
  - rewrite !not_elem_of_cons. split_and!; try discriminate. apply not_elem_of_nil.
  - right. reflexivity.
Defined.

(** ** The events of a surgery *)
(** The escalation is posted exactly if there was something to do and all of it failed. *)
Lemma reset_escalation results :
  (∃ note, CREvent true "SentinelResetAllFailed" "SentinelResetAllFail" note ∈ emitResetEvents true results) ↔
  results ≠ [] ∧ Forall (λ r, is_Some (rs_Err r)) results.
Proof.
  unfold emitResetEvents, emit_results. cbn [negb orb andb]. set (fs := List.filter _ results).
  assert (Hf : length fs = length results ↔ Forall (λ r, is_Some (rs_Err r)) results).
  { subst fs. induction results as [|r l IH]; [done|]. cbn [List.filter]. rewrite Forall_cons. case_bool_decide as E; cbn.
    - rewrite <- IH. split; [intros [=]; auto|intros [_ ->]; done].
    - pose proof (List.filter_length_le (λ r, bool_decide (is_Some (rs_Err r))) l). split; [cbn; lia|by intros [? _]]. }
  rewrite <- Hf. destruct (decide (results = [])) as [->|Hne].
  { cbn. split; [intros (? & ?%not_elem_of_nil); done|by intros [? _]]. }
  rewrite (bool_decide_eq_false_2 (length results = 0%nat)) by (by intros ?%length_zero_iff_nil). cbn [negb andb]. split.
  - intros (note & [Hin|Hin]%elem_of_app).
    + exfalso. apply list_elem_of_bind in Hin as (r' & Hin & _). case_bool_decide; by apply list_elem_of_singleton in Hin.
    + split; [done|]. case_bool_decide; [done|by apply not_elem_of_nil in Hin].
  - intros [_ He]. eexists. apply elem_of_app. right. rewrite (bool_decide_eq_true_2 (length fs = _)) by done. by apply list_elem_of_singleton.
Qed.
