(* ===== verification/Telemetry.v ===== *)
(** * The operator's metrics

    [internal/metrics/metrics.go] and [exporter_watcher.go]: the catalogue of collectors with
    their labels, the sweep that drops the series of a deleted CR, and the watcher that
    keeps one gauge per pod.  A collector's series are a map from label values to a number;
    the buckets of histograms and the numbers that other components add are not kept. *)
From S2P Require Import Prelude GoStd Status SQRecords PodAC StsBuild SentinelBuild.
Local Open Scope Z_scope.

(** ** Collectors *)
Inductive collector : Type := Vec (name : string) (labels : list string) | Func (name : string).
Definition metric_name (c : collector) : string := match c with Vec n _ | Func n => n end.

Definition ReconciliationsFailedTotal : collector := Vec "valkey_reconciliations_failed_total" ["kind"; "namespace"; "name"; "reason"].
Definition ReconciliationsLockedTotal : collector := Vec "valkey_reconciliations_locked_total" ["kind"; "namespace"; "name"].
Definition Resources : collector := Vec "valkey_resources" ["kind"; "mode"].
Definition ResourceState : collector := Vec "valkey_resource_state" ["kind"; "namespace"; "name"; "condition_type"; "status"].
Definition ResourcesPaused : collector := Vec "valkey_resources_paused" ["namespace"; "name"].
Definition FailoversTotal : collector := Vec "valkey_failovers_total" ["namespace"; "name"; "trigger"].
Definition FailoverDurationSeconds : collector := Vec "valkey_failover_duration_seconds" ["namespace"; "name"; "trigger"].
Definition RolloutsTotal : collector := Vec "valkey_rollouts_total" ["namespace"; "name"; "reason"].
Definition RolloutDurationSeconds : collector := Vec "valkey_rollout_duration_seconds" ["namespace"; "name"; "reason"].
Definition SentinelObserverReconnectsTotal : collector := Vec "valkey_sentinel_observer_reconnects_total" ["namespace"; "name"; "sentinel_pod"].
Definition SentinelObserverConnected : collector := Vec "valkey_sentinel_observer_connected" ["namespace"; "name"; "sentinel_pod"].
Definition SentinelPubsubMessagesTotal : collector := Vec "valkey_sentinel_pubsub_messages_total" ["namespace"; "name"; "event"].
Definition QuorumCheckTotal : collector := Vec "valkey_quorum_check_total" ["namespace"; "name"; "result"].
Definition SplitBrainDetectionsTotal : collector := Vec "valkey_split_brain_detections_total" ["namespace"; "name"].
Definition SplitBrainSustainedSeconds : collector := Vec "valkey_split_brain_sustained_seconds" ["namespace"; "name"].
Definition DualMasterObserved : collector := Vec "valkey_dual_master_observed" ["namespace"; "name"].
Definition SentinelTopologyMismatch : collector := Vec "valkey_sentinel_topology_mismatch" ["namespace"; "name"; "dimension"].
Definition MasterInfoTimeoutSeconds : collector := Vec "valkey_master_info_replication_timeout_seconds" ["namespace"; "name"].
Definition QuorumSuppressionTransitionsTotal : collector := Vec "valkey_quorum_suppression_transitions_total" ["namespace"; "name"; "from"; "to"].
Definition WebhookRequestsTotal : collector := Vec "valkey_webhook_requests_total" ["webhook"; "operation"; "code"].
Definition WebhookRequestDurationSeconds : collector := Vec "valkey_webhook_request_duration_seconds" ["webhook"; "operation"; "code"].
Definition CertRotationsTotal : collector := Vec "valkey_cert_rotations_total" ["kind"].
Definition CertExpirySeconds : collector := Vec "valkey_cert_expiry_seconds" ["kind"].
Definition SecretRotationTotal : collector := Vec "valkey_secret_rotation_total" ["namespace"; "name"; "result"].
Definition ExporterSidecarUp : collector := Vec "valkey_exporter_sidecar_up" ["namespace"; "name"; "pod"].
Definition PVCResizeInProgress : collector := Vec "valkey_pvc_resize_in_progress" ["namespace"; "name"].
Definition RedactionRegistryTokens : collector := Func "valkey_redaction_registry_tokens".

Definition Collectors : list collector :=
  [ReconciliationsFailedTotal; ReconciliationsLockedTotal; Resources; ResourceState; ResourcesPaused; FailoversTotal;
   FailoverDurationSeconds; RolloutsTotal; RolloutDurationSeconds; SentinelObserverReconnectsTotal;
   SentinelObserverConnected; SentinelPubsubMessagesTotal; QuorumCheckTotal; QuorumSuppressionTransitionsTotal;
   SplitBrainDetectionsTotal; SplitBrainSustainedSeconds; DualMasterObserved; SentinelTopologyMismatch;
   MasterInfoTimeoutSeconds; WebhookRequestsTotal; WebhookRequestDurationSeconds; CertRotationsTotal;
   CertExpirySeconds; SecretRotationTotal; ExporterSidecarUp; PVCResizeInProgress; RedactionRegistryTokens].

(** What is registered: by metric, the series by label values. *)
Abbreviation registry := (gmap string (gmap (list string) Z)).
Definition series (reg : registry) (c : collector) (values : list string) : option Z :=
  reg !! metric_name c ≫= (.!! values).
(** [vec.WithLabelValues(values...).Set(x)] *)
Definition Set_ (c : collector) (values : list string) (x : Z) (reg : registry) : registry :=
  <[metric_name c := <[values := x]> (default ∅ (reg !! metric_name c))]> reg.
(** Does the series carry all these labels with these values? *)
Definition label_value (labels values : list string) (l : string) : option string :=
  snd <$> List.find (λ p, bool_decide (p.1 = l)) (zip labels values).
Definition partial_match (labels : list string) (want : list (string * string)) (values : list string) : bool :=
  forallb (λ w, bool_decide (label_value labels values w.1 = Some w.2)) want.
Definition DeletePartialMatch (name : string) (labels : list string) (want : list (string * string)) (reg : registry) : registry :=
  alter (filter (λ s, partial_match labels want s.1 = false)) name reg.

Definition ResetReconcileGauges (namespace name : string) (reg : registry) : registry :=
  foldl (λ reg c, match c with
                  | Vec n labels => DeletePartialMatch n labels [("namespace", namespace); ("name", name)] reg
                  | Func _ => reg
                  end) reg Collectors.

Definition of_bool (b : bool) : Z := if b then 1 else 0.
Definition SetPaused (namespace name : string) (paused : bool) : registry → registry :=
  Set_ ResourcesPaused [namespace; name] (of_bool paused).
Definition SetPVCResizeInProgress (namespace name : string) (inProgress : bool) : registry → registry :=
  Set_ PVCResizeInProgress [namespace; name] (of_bool inProgress).
Definition SetSentinelTopologyMismatch (namespace name : string) (sentinelDeficit replicaDeficit : Z) (reg : registry) : registry :=
  Set_ SentinelTopologyMismatch [namespace; name; "replicas"] replicaDeficit
    (Set_ SentinelTopologyMismatch [namespace; name; "sentinels"] sentinelDeficit reg).
Definition DeleteSentinelTopologyMismatch (namespace name : string) : registry → registry :=
  DeletePartialMatch (metric_name SentinelTopologyMismatch) ["namespace"; "name"; "dimension"]
    [("namespace", namespace); ("name", name)].

(** ** The exporter watcher *)
Definition exporterContainerName : string := "exporter".
Definition managedByLabelKey : string := "app.kubernetes.io/managed-by".
Definition managedByLabelValue : string := "velkir".
Definition podKey : Type := string * string * string.    (* namespace, CR, pod *)

Record watched_pod := {
  wp_Namespace : string;
  wp_Name : string;
  wp_Labels : gmap string string;
  wp_Containers : list string;
  wp_Conditions : list (string * string)      (* type, status *)
}.
Definition hasExporterContainer (p : watched_pod) : bool :=
  existsb (λ c, bool_decide (c = exporterContainerName)) (wp_Containers p).
Definition podIsReady (p : watched_pod) : bool :=
  match List.find (λ c, bool_decide (c.1 = "Ready")) (wp_Conditions p) with
  | Some c => bool_decide (c.2 = "True")
  | None => false
  end.
Definition exporter_up (p : watched_pod) : Z := of_bool (hasExporterContainer p && podIsReady p).
Definition stamped_key (p : watched_pod) : option podKey :=
  let crName := default "" (wp_Labels p !! "app.kubernetes.io/instance") in
  if bool_decide (crName = "") then None else Some (wp_Namespace p, crName, wp_Name p).
Definition values_of (k : podKey) : list string := [k.1.1; k.1.2; k.2].
Definition stampPod (p : watched_pod) (reg : registry) : option podKey * registry :=
  match stamped_key p with
  | None => (None, reg)
  | Some k => (Some k, Set_ ExporterSidecarUp (values_of k) (exporter_up p) reg)
  end.

Record ExporterWatcher := { lastStamped : gset podKey; gauges : registry }.
Fixpoint stamp_all (pods : list watched_pod) (seen : gset podKey) (reg : registry) : gset podKey * registry :=
  match pods with
  | [] => (seen, reg)
  | p :: pods =>
      match stampPod p reg with
      | (Some k, reg) => stamp_all pods ({[k]} ∪ seen) reg
      | (None, reg) => stamp_all pods seen reg
      end
  end.
(** [pods]: the answer of the list with the label selector. *)
Definition scanOnce (pods : result (list watched_pod)) (w : ExporterWatcher) : ExporterWatcher :=
  match pods with
  | Err _ => w
  | Ok pods =>
      let '(seen, reg) := stamp_all pods ∅ (gauges w) in
      {| lastStamped := seen;
         gauges := foldl (λ reg k, DeletePartialMatch (metric_name ExporterSidecarUp) ["namespace"; "name"; "pod"]
                                     [("namespace", k.1.1); ("name", k.1.2); ("pod", k.2)] reg)
                         reg (elements (lastStamped w ∖ seen)) |}
  end.

(** ** Lemmas: series *)
Definition cr_of (labels values : list string) : option (string * string) :=
  match label_value labels values "namespace", label_value labels values "name" with
  | Some ns, Some name => Some (ns, name)
  | _, _ => None
  end.
Lemma match_cr labels values ns name :
  partial_match labels [("namespace", ns); ("name", name)] values = bool_decide (cr_of labels values = Some (ns, name)).
Proof.
  unfold partial_match, cr_of. cbn [forallb fst snd]. rewrite andb_true_r.
  destruct (label_value _ _ "namespace") as [x|]; [|done]. destruct (label_value _ _ "name") as [y|]; [|by rewrite andb_comm].
  repeat case_bool_decide; naive_solver.
Qed.
Lemma series_delete n labels want reg c values :
  series (DeletePartialMatch n labels want reg) c values =
    if bool_decide (metric_name c = n) && partial_match labels want values then None else series reg c values.
Proof.
  unfold series, DeletePartialMatch. case_bool_decide as E; [subst n|by rewrite lookup_alter_ne by congruence].
  rewrite lookup_alter_eq. destruct (reg !! metric_name c) as [m|]; cbn; [|by destruct (partial_match _ _ _)].
  destruct (partial_match labels want values) eqn:E.
  - apply map_lookup_filter_None. right. cbn. congruence.
  - apply option_eq. intros x. rewrite map_lookup_filter_Some. cbn. naive_solver.
Qed.
Lemma series_set c values x reg c' values' :
  series (Set_ c values x reg) c' values' =
    if bool_decide (metric_name c' = metric_name c ∧ values' = values) then Some x else series reg c' values'.
Proof.
  unfold series, Set_. destruct (decide (metric_name c' = metric_name c)) as [E|E].
  - rewrite E, lookup_insert_eq. cbn. destruct (decide (values' = values)) as [->|Hv].
    + by rewrite lookup_insert_eq, bool_decide_eq_true_2.
    + rewrite lookup_insert_ne, bool_decide_eq_false_2 by (congruence || by intros [_ ?]). by destruct (reg !! _).
  - rewrite lookup_insert_ne, bool_decide_eq_false_2 by (congruence || by intros [? _]). done.
Qed.

Definition sweep_one (want : list (string * string)) (reg : registry) (c : collector) : registry :=
  match c with Vec n labels => DeletePartialMatch n labels want reg | Func _ => reg end.
Lemma sweep_series want cs reg c values :
  series (foldl (sweep_one want) reg cs) c values =
    if existsb (λ d, match d with Vec n labels => bool_decide (metric_name c = n) && partial_match labels want values | Func _ => false end) cs
    then None else series reg c values.
Proof.
  revert reg. induction cs as [|d cs IH]; intros reg; [done|]. cbn [foldl existsb]. rewrite IH. destruct (existsb _ cs); [by rewrite orb_true_r|].
  rewrite orb_false_r. destruct d as [n labels|n]; cbn [sweep_one]; [|done]. apply series_delete.
Qed.

Lemma names_unique c d : c ∈ Collectors → d ∈ Collectors → metric_name c = metric_name d → c = d.
Proof.
  assert (Hnd : NoDup (metric_name <$> Collectors)) by (refine (bool_decide_unpack _ _); vm_compute; exact I).
  intros [i Hi]%list_elem_of_lookup_1 [j Hj]%list_elem_of_lookup_1 E.
  assert (i = j) as ->; [|congruence].
  apply (NoDup_lookup _ i j (metric_name c) Hnd); rewrite list_lookup_fmap; [by rewrite Hi|by rewrite Hj, E].
Qed.

(** The sweep of a deleted CR is exact.  It removes every series of the CR, whatever
    other labels the metric has, and no series of another CR or of the operator itself; and no
    metric names a CR by only one of the two labels, which the sweep would miss. *)
Theorem reset_reaps_exactly ns name reg n labels :
  Vec n labels ∈ Collectors →
  (∀ values, series (ResetReconcileGauges ns name reg) (Vec n labels) values =
     if bool_decide (cr_of labels values = Some (ns, name)) then None else series reg (Vec n labels) values) ∧
  ("namespace" ∈ labels ↔ "name" ∈ labels).
Proof.
  intros Hin. split.
  - intros values. change (ResetReconcileGauges ns name reg) with (foldl (sweep_one [("namespace", ns); ("name", name)]) reg Collectors).
    rewrite sweep_series, <- match_cr. set (b := existsb _ _). assert (b = partial_match labels [("namespace", ns); ("name", name)] values) as ->; [|done]. subst b.
    assert (Huniq : ∀ labels', Vec n labels' ∈ Collectors → labels' = labels).
    { intros labels' Hin'. by injection (names_unique _ _ Hin' Hin eq_refl). }
    apply eq_true_iff_eq. rewrite existsb_exists. split.
    + intros ([n' labels'|] & Hc & Hm); [|done]. apply andb_prop in Hm as [Hn Hm]. apply bool_decide_eq_true in Hn. cbn in Hn. subst n'.
      by rewrite <- (Huniq labels') by (by apply list_elem_of_In).
    + intros Hm. exists (Vec n labels). split; [by apply list_elem_of_In|]. by rewrite bool_decide_eq_true_2.
  - assert (Forall (λ c, match c with Vec _ l => bool_decide ("namespace" ∈ l) = bool_decide ("name" ∈ l) | Func _ => True end) Collectors) as Hall
      by (repeat constructor).
    rewrite Forall_forall in Hall. specialize (Hall _ Hin). cbn in Hall. by rewrite <- (bool_decide_eq_true ("namespace" ∈ labels)), <- (bool_decide_eq_true ("name" ∈ labels)), Hall.
Qed.

(** ** The watcher over its life *)
Definition up (w : ExporterWatcher) (values : list string) : option Z := series (gauges w) ExporterSidecarUp values.
Definition shows (pods : list watched_pod) (values : list string) (x : Z) : Prop :=
  ∃ p k, p ∈ pods ∧ stamped_key p = Some k ∧ values = values_of k ∧ x = exporter_up p.
Lemma values_of_inj k k' : values_of k = values_of k' → k = k'.
Proof. destruct k as [[a b] c], k' as [[a' b'] c']. by intros [= -> -> ->]. Qed.

Lemma stamp_all_spec pods seen reg :
  NoDup (omap stamped_key pods) →
  let r := stamp_all pods seen reg in
  (∀ k, k ∈ r.1 ↔ k ∈ seen ∨ k ∈ omap stamped_key pods) ∧
  ∀ values x, series r.2 ExporterSidecarUp values = Some x ↔
    shows pods values x ∨ series reg ExporterSidecarUp values = Some x ∧ ∀ y, ¬ shows pods values y.
Proof.
  revert seen reg. induction pods as [|p pods IH]; intros seen reg Hnd; cbv zeta; cbn [stamp_all].
  { split; [cbn; set_solver|]. intros values x. cbn. split; [right; split; [done|by intros y (? & ? & ?%not_elem_of_nil & _)]|].
    intros [(? & ? & ?%not_elem_of_nil & _)|[? _]]; done. }
  assert (Hcons : ∀ values y, shows (p :: pods) values y ↔
            (∃ k, stamped_key p = Some k ∧ values = values_of k ∧ y = exporter_up p) ∨ shows pods values y).
  { intros values y. unfold shows. setoid_rewrite elem_of_cons. naive_solver. }
  unfold stampPod. destruct (stamped_key p) as [k|] eqn:Ek; cbn in Hnd; rewrite Ek in Hnd.
  - apply NoDup_cons in Hnd as [Hk Hnd]. specialize (IH ({[k]} ∪ seen) (Set_ ExporterSidecarUp (values_of k) (exporter_up p) reg) Hnd).
    cbv zeta in IH. destruct IH as [IHs IHr]. split.
    + intros k'. rewrite IHs. cbn. rewrite Ek. set_solver.
    + intros values x. rewrite IHr, series_set, Hcons.
      assert (Hno : ∀ y, ¬ shows pods (values_of k) y).
      { intros y (p' & k' & Hp' & Hk' & Hv & _). apply values_of_inj in Hv as <-. apply Hk. apply list_elem_of_omap. eauto. }
      case_bool_decide as E.
      * destruct E as [_ ->]. split; [naive_solver|]. intros [[(? & [= <-] & _ & ->)|?]|[_ Hn]]; [right; auto|naive_solver|].
        exfalso. apply (Hn (exporter_up p)), Hcons. left. eauto.
      * split.
        -- intros [?|[? Hn]]; [auto|]. right. split; [done|]. intros y [(? & [= <-] & -> & _)|Hy]%Hcons; [by destruct E|by apply (Hn y)].
        -- intros [[(? & [= <-] & -> & _)|?]|[? Hn]]; [by destruct E|auto|]. right. split; [done|]. intros y Hy. apply (Hn y), Hcons. auto.
  - destruct (IH seen reg Hnd) as [IHs IHr]. split.
    + intros k'. rewrite IHs. cbn. by rewrite Ek.
    + intros values x. rewrite IHr. setoid_rewrite Hcons. naive_solver.
Qed.

(** Every series has an owner that the next scan compares with. *)
Definition owned_series (w : ExporterWatcher) : Prop :=
  ∀ values x, up w values = Some x → ∃ k, k ∈ lastStamped w ∧ values = values_of k.
Definition evict (reg : registry) (k : podKey) : registry :=
  DeletePartialMatch (metric_name ExporterSidecarUp) ["namespace"; "name"; "pod"]
    [("namespace", k.1.1); ("name", k.1.2); ("pod", k.2)] reg.
Lemma evict_series ks reg k :
  series (foldl evict reg ks) ExporterSidecarUp (values_of k) =
    if bool_decide (k ∈ ks) then None else series reg ExporterSidecarUp (values_of k).
Proof.
  revert reg. induction ks as [|k' ks IH]; intros reg; [done|]. cbn [foldl]. rewrite IH.
  case_bool_decide as Hin; [by rewrite bool_decide_eq_true_2 by (by right)|].
  unfold evict at 1. rewrite series_delete, bool_decide_eq_true_2 by done. cbn [andb].
  destruct k as [[a b] c], k' as [[a' b'] c']. cbn.
  destruct (decide ((a, b, c) = (a', b', c'))) as [[= -> -> ->]|Hne].
  - rewrite !bool_decide_eq_true_2 by (done || by left). done.
  - rewrite (bool_decide_eq_false_2 (_ ∈ _ :: _)) by (rewrite elem_of_cons; naive_solver).
    repeat case_bool_decide; naive_solver.
Qed.
Lemma evicted_none ks reg values : series reg ExporterSidecarUp values = None → series (foldl evict reg ks) ExporterSidecarUp values = None.
Proof.
  revert reg. induction ks as [|k ks IH]; intros reg H; [done|]. cbn [foldl]. apply IH. unfold evict. rewrite series_delete, H. by destruct (_ && _).
Qed.

Lemma scan_exact pods w :
  owned_series w → NoDup (omap stamped_key pods) →
  let w' := scanOnce (Ok pods) w in
  (∀ values x, up w' values = Some x ↔ shows pods values x) ∧ owned_series w'.
Proof.
  intros Hinv Hnd. destruct (stamp_all_spec pods ∅ (gauges w) Hnd) as [Hs Hr]. cbv zeta in Hs, Hr.
  unfold scanOnce. destruct (stamp_all pods ∅ (gauges w)) as [seen reg]. cbn [fst snd] in Hs, Hr. cbv zeta.
  assert (Hex : ∀ values x, up {| lastStamped := seen; gauges := foldl evict reg (elements (lastStamped w ∖ seen)) |} values = Some x ↔ shows pods values x).
  { intros values x. unfold up. cbn [gauges]. split.
    - intros H. destruct (series reg ExporterSidecarUp values) as [y|] eqn:Ey; [|by rewrite evicted_none in H].
      pose proof Ey as Ey'. apply Hr in Ey' as [Hsh|[Hold Hno]].
      + assert (Hsh' := Hsh). destruct Hsh as (p & k & Hp & Hk & -> & ->). rewrite evict_series in H.
        case_bool_decide; [done|]. rewrite Ey in H. by injection H as <-.
      + exfalso. destruct (Hinv values y Hold) as (k & Hk & ->). rewrite evict_series in H.
        rewrite bool_decide_eq_true_2 in H; [done|]. apply elem_of_elements, elem_of_difference. split; [done|].
        rewrite Hs. intros [?|Hin]; [set_solver|]. apply list_elem_of_omap in Hin as (p & Hp & Hk'). by apply (Hno (exporter_up p)); exists p, k.
    - intros Hsh. assert (Hreg : series reg ExporterSidecarUp values = Some x) by (apply Hr; by left).
      destruct Hsh as (p & k & Hp & Hk & -> & ->). rewrite evict_series, bool_decide_eq_false_2; [done|].
      rewrite elem_of_elements, elem_of_difference, Hs, list_elem_of_omap. intros [_ Hn]. apply Hn. right. eauto. }
  split; [exact Hex|]. intros values x Hx. apply Hex in Hx as (p & k & Hp & Hk & -> & _). exists k. split; [|done].
  cbn [lastStamped]. apply Hs. right. apply list_elem_of_omap. eauto.
Qed.

(** Scans, sweeps of deleted CRs, and lists that fail, in any order. *)
Inductive watch_op : Type := Scan (pods : result (list watched_pod)) | Sweep (ns name : string).
Definition watch_step (w : ExporterWatcher) (o : watch_op) : ExporterWatcher :=
  match o with
  | Scan pods => scanOnce pods w
  | Sweep ns name => {| lastStamped := lastStamped w; gauges := ResetReconcileGauges ns name (gauges w) |}
  end.
Definition watcher_new : ExporterWatcher := {| lastStamped := ∅; gauges := ∅ |}.
Definition distinct_pods (o : watch_op) : Prop := match o with Scan (Ok pods) => NoDup (omap stamped_key pods) | _ => True end.
Lemma watch_owned ops : Forall distinct_pods ops → owned_series (foldl watch_step watcher_new ops).
Proof.
  induction ops as [|o ops IH] using rev_ind; [intros _ values x H; done|]. intros [Hops Ho]%Forall_app. rewrite Forall_singleton in Ho.
  rewrite foldl_app. specialize (IH Hops). cbn [foldl]. destruct o as [[pods|e]|ns name]; cbn [watch_step]; [|exact IH|].
  - by destruct (scan_exact pods _ IH Ho) as [_ H].
  - intros values x H. apply (IH values x). unfold up in *. cbn [gauges] in H.
    change (ResetReconcileGauges ns name ?r) with (foldl (sweep_one [("namespace", ns); ("name", name)]) r Collectors) in H.
    rewrite sweep_series in H. by destruct (existsb _ _).
Qed.

(** The exporter gauge shows the pods as they were last listed.  After any history of
    scans, failed scans and sweeps of deleted CRs, a successful scan leaves exactly one series
    per listed pod of a CR, 1 if the pod has the exporter and is Ready and 0 otherwise, and no
    series of a pod that is gone. *)
Theorem exporter_gauge_exact ops pods :
  Forall distinct_pods ops → NoDup (omap stamped_key pods) →
  ∀ values x, up (foldl watch_step watcher_new (ops ++ [Scan (Ok pods)])) values = Some x ↔ shows pods values x.
Proof.
  intros Hops Hnd values x. rewrite foldl_app. cbn [foldl watch_step].
  destruct (scan_exact pods _ (watch_owned ops Hops) Hnd) as [H _]. apply H.
Qed.

(** The watcher covers what the operator builds: a pod made from either StatefulSet of an
    admitted CR is listed under the watcher's selector, belongs to the CR, and has the exporter
    exactly if metrics are on. *)
Theorem built_pods_watched {Q} (MustParse : string → Q) {R : MapRange} (v : Valkey Q) h hs n s parent ns name conds :
  s ∈ statefulSets MustParse v h hs n → v_Name v ≠ "" →
  Webhook.validateReservedLabels parent (p_PodLabels (settings_of v s)) = [] →
  let p := {| wp_Namespace := ns; wp_Name := name; wp_Labels := pt_Labels (ss_Template s);
              wp_Containers := ct_Name <$> ps_Containers (pt_Spec (ss_Template s)); wp_Conditions := conds |} in
  wp_Labels p !! managedByLabelKey = Some managedByLabelValue ∧ stamped_key p = Some (ns, v_Name v, name) ∧
  hasExporterContainer p = metricsOn v.
Proof.
  intros Hs Hv Ha p. assert (Hown : ∃ c, ownedLabels (v_Name v) c ⊆ pt_Labels (ss_Template s)).
  { destruct (template_shape MustParse v h hs n s Hs) as ((c & _ & Hsel & Hl) & _). exists c. rewrite Hl. by apply (template_labels R parent). }
  destruct Hown as [c Hown].
  assert (Hlk : ∀ k x, ownedLabels (v_Name v) c !! k = Some x → wp_Labels p !! k = Some x) by (intros k x Hk; by apply (lookup_weaken _ _ _ _ Hk)).
  split; [by apply Hlk|]. split.
  - unfold stamped_key. rewrite (Hlk _ (v_Name v)) by done. cbn. by rewrite bool_decide_eq_false_2.
  - unfold p, hasExporterContainer. cbn [wp_Containers].
    destruct (statefulSets_cases MustParse v h hs n s Hs) as [[Hb _]|(q & _ & -> & _)].
    + unfold buildValkeySTS in Hb. destruct (buildValkeyContainer MustParse v) as [x|] eqn:Ec; [|done]. cbn in Hb. injection Hb as <-. cbn.
      destruct (built_container MustParse v x Ec) as (-> & _). by destruct (metricsOn v).
    + cbn. by destruct (metricsOn v).
Qed.

(** ** Concrete histories *)
Definition demo_watched (name : string) (ready : string) : watched_pod :=
  {| wp_Namespace := "team"; wp_Name := name; wp_Labels := ownedLabels "vk" "valkey"; wp_Containers := ["valkey"; "exporter"];
     wp_Conditions := [("Initialized", "True"); ("Ready", ready)] |}.
Definition demo_history : list watch_op :=
  [Scan (Ok [demo_watched "vk-0" "True"; demo_watched "vk-1" "True"]); Scan (Err "timeout"); Sweep "team" "other"].
Lemma exporter_gauge_exact_witness :
  up (foldl watch_step watcher_new (demo_history ++ [Scan (Ok [demo_watched "vk-0" "False"])])) ["team"; "vk"; "vk-0"] = Some 0.
Proof.
  apply (exporter_gauge_exact demo_history [demo_watched "vk-0" "False"]).
  - repeat constructor; apply (bool_decide_unpack _); vm_compute; exact I.
  - apply (bool_decide_unpack _). vm_compute. exact I.
  - exists (demo_watched "vk-0" "False"), ("team", "vk", "vk-0"). split; [left|]. by vm_compute.
Defined.
Example demo_evicted :
  up (foldl watch_step watcher_new (demo_history ++ [Scan (Ok [demo_watched "vk-0" "False"])])) ["team"; "vk"; "vk-1"] = None.
Proof. vm_compute. reflexivity. Qed.

Lemma reset_reaps_exactly_witness :
  series (ResetReconcileGauges "team" "vk" (SetSentinelTopologyMismatch "team" "vk" 1 2 ∅)) SentinelTopologyMismatch ["team"; "vk"; "replicas"] = None.
Proof.
  destruct (reset_reaps_exactly "team" "vk" (SetSentinelTopologyMismatch "team" "vk" 1 2 ∅)
    "valkey_sentinel_topology_mismatch" ["namespace"; "name"; "dimension"]) as [H _].
  - apply list_elem_of_In. vm_compute. tauto.
  - etrans; [exact (H ["team"; "vk"; "replicas"])|]. vm_compute. reflexivity.
Defined.

Lemma built_pods_watched_witness :
  hasExporterContainer {| wp_Namespace := "default"; wp_Name := "vk-sentinel-0"; wp_Labels := pt_Labels (ss_Template demo_sts);
    wp_Containers := ct_Name <$> ps_Containers (pt_Spec (ss_Template demo_sts)); wp_Conditions := [] |} = metricsOn (demo_valkey ModeSentinel).
Proof.
  destruct (built_pods_watched (R := range_forward) id (demo_valkey ModeSentinel) "h" "hs" 0 demo_sts "spec.sentinel.podLabels"
    "default" "vk-sentinel-0" []) as (_ & _ & H).
  - exact demo_sts_in.
  - discriminate.
  - vm_compute. reflexivity.
  - exact H.
Defined.
